(* ===== verification/_CoqProject ===== *)
-Q . S2P
Prelude.v
KMonad.v
Bytes.v
KList.v
Pgtable.v
Boot.v
MM.v
PageTable.v
Swap.v
Shm.v
Vm.v
Sched.v
Resource.v
Lock.v
Barrier.v
Cond.v
CString.v
Mbox.v
Pipe.v
Smp.v
Workload.v
ExecStack.v
Loader.v
Proc.v
LockSys.v
FsDisk.v
FsDir.v
Fs.v
FsFile.v
FsPath.v
FsGrow.v
FsAlloc.v
FsWrite.v
FsInv.v
FsTouch.v
FsDots.v
FsMkfs.v
FsCreate.v
FsMkdir.v
FsRemove.v
Printk.v
Screen.v
Printf.v
E1000.v
Net.v
Stream.v
StreamNic.v
Image.v
Shell.v
Task.v
Tiny.v
Cmd.v
Plic.v
Trap.v
Ulib.v
Kernel.v
Main.v
Tick.v
