(* ===== verification/Prelude.v ===== *)
(** * RISC-V QEMU kernel: a verification library

    The program is a small kernel for RISC-V with two cores, Sv39 paging,
    swapping to an SD card, a file system, a network card, a screen, and a
    library and a shell for its user programs. This library models its C code
    as executable definitions and proves what the parts promise.

    ** How the program works

    - The image tool (src/tools/createimage.c) puts boot block, kernel and
      programs into the image of the card; the boot code (arch/riscv/kernel)
      turns paging on and jumps to [main] (init/main.c), which initialises every
      table of the kernel and starts the shell.
    - A process enters the kernel by a trap (entry.S): [interrupt_helper]
      (kernel/irq/irq.c) picks the handler, system calls go through a table
      (kernel/syscall/syscall.c). The kernel runs under one recursive lock
      (kernel/smp).
    - A call that has to wait puts the process into a queue and calls
      [do_scheduler] (kernel/sched), which switches to another process; when the
      process is scheduled again the call goes on behind [do_scheduler].
    - Memory: the page allocator (kernel/mm/mm.c) feeds page tables; page
      faults allocate or swap pages in (kernel/irq/page_fault.c, mm/swap.c);
      pages are shared by key (mm/shm.c) or moved through pipes (kernel/pipe).
    - Locks, barriers, conditions and mailboxes (kernel/locking) are tables of
      objects with queues of processes; the file system (kernel/fs), the network
      (kernel/net over drivers/e1000.c) and the screen (drivers/screen.c over
      libs/printk.c) complete the system calls.
    - User programs call the kernel through tiny_libc/syscall.c.

    ** How it is modelled

    Integers are [Z] with the wrap-around of their C type written out ([u8] to
    [u64], [s32], [s64] below). Code that changes state is in the state monad of
    KMonad: a run ends normally ([Ok]), in the end of the process ([Exit]), or
    not at all ([Stuck]: a fault, a failed assertion, an endless loop); [wp] is
    total correctness, so a theorem on [wp] says that the code ends and does not
    fault. A component has its own state record; where components meet, [zoom]
    runs one inside the state of the other. Hardware and firmware are classes
    with their documented behaviour as laws, each with an instance: the card
    (BlockDevice of Swap), the terminal (Terminal of Screen), memory-mapped
    registers (Mmio of Plic), the network card (a step relation in E1000).
    A call that gives the core away is split at its calls of [do_scheduler]:
    into segments in the components, into a resumption ([call] of Trap) in the
    whole kernel.

    ** Files

    Shared: Prelude (integers, lists, automation), KMonad (the monad, loops,
    [wp]), Bytes (little-endian words), CString (libs/string.c on a byte
    memory), KList (kernel/list: pointer-level lists and the sequences they
    stand for).

    Memory: Pgtable (arch/riscv/include/pgtable.h), Boot (kernel/boot.c,
    clean_temp_map), MM (mm.c, ioremap.c: allocator, [map_page]), PageTable (what
    the tables built by MM translate), Swap (swap.c), Shm (shm.c), Vm
    (page_fault.c, free.c).

    Processes: Sched (sched.c, time.c: queues, blocking, choice of the next),
    Resource, Lock, Barrier, Cond, Mbox (kernel/locking), Pipe, Smp (the kernel
    lock, single accesses of two cores interleaved), Workload (workload.c),
    ExecStack (first stacks), Loader (loader.c), Proc (proc.c; [kstate] joins
    the components that the end of a process has to touch), LockSys (processes on
    two cores that use mutexes, as a step relation [sys_step] over the operations
    of Lock and Sched; kills, and what else a process may wait for, are left out).

    File system: FsDisk (layout, inodes, bitmaps), FsDir (directories, paths),
    Fs (the system calls), FsFile and FsPath (contents and paths as
    specifications, with the proofs), FsGrow, FsAlloc and FsWrite (the places of a
    file, the blocks allocated for them, [do_write] on files that grow), FsInv (the
    invariant of the whole file system), FsTouch, FsDots, FsMkfs, FsCreate and FsMkdir
    (new files, directories and file systems: what is made, and what stays).

    Devices: Printk (printk.c), Screen, E1000, Net (net.c), Stream (stream.c),
    StreamNic (the stream over the card), Plic.

    Around the kernel: Image (createimage.c, init_task_info), Task (get_task_info,
    is_valid_uva and the batch code of task.c), Trap (irq.c, syscall.c, entry.S).

    User programs: Ulib (tiny_libc/syscall.c), Shell (shell_tools.c), Cmd (the
    commands and the loop of the shell: shell_command.c, test/shell.c), Printf
    (printf.c, over the screen), Tiny
    (atoi.c, itoa.c, rand.c, mailbox.c).

    The whole: Kernel ([os] is all state; the instance of [KernelCalls], that
    is every function of the system call table with its blocking), Main
    ([main] of both cores, [kernel_inv]), Tick (a timer interrupt from the trap
    to the next process).

    ** What the theorems show

    - Memory: the boot tables translate exactly the kernel's memory; the
      allocator hands out disjoint pages and loses none; [map_page] installs its
      translation and keeps all others; swapping chooses the second-chance victim
      and brings contents back; a page fault gives zeroes or the swapped-out
      contents; shared pages live as long as their references.
    - Processes: the scheduler takes the first ready process that may run, and
      every ready process gets its turn; mutexes, barriers and conditions refine
      abstract objects with queues; under all interleavings a mutex belongs to one
      process at a time, and who waits for it gets it in turn; mailboxes and pipes are first-in first-out;
      the kernel lock excludes the other core under all interleavings; loading,
      first stacks, waiting, killing and exiting do what they promise.
    - File system: reads and writes act on the sequence of bytes of the file
      across direct and indirect blocks; a write allocates what it needs, never a
      block that belongs to a file, touches no other file, and fails only on a
      full card; paths resolve as a walk over the directories. The invariant
      [fs_inv] (files share no block, blocks in use are marked, directories lead
      to inodes in use) holds after [do_mkfs] and is kept by [do_touch],
      [do_mkdir], [do_open] and [do_write]; a file that was created, written and read
      from the start gives back what was written.
    - Devices: formatted output stays in its buffers and is the text of the
      format; the terminal shows the screen buffer; the card's rings are queues;
      the byte stream delivers the peer's bytes in order or ends.
    - Interfaces: a trap other than a system call changes nothing the process
      can see; every stub of the user library calls the kernel function it is
      named for with the same arguments, type by type; a program put into the
      image is found by the kernel's table; the initialisation of [main] leaves a
      kernel in which the invariants of all components hold together; a timer
      interrupt keeps them, wakes the sleepers whose time has come and gives the
      core to the next ready process.
    - User programs: [printf] puts the text of its format on the terminal; numbers
      are read back as they were written; the path that
      the shell shows is the one that the names and dots lead to; [cat] shows
      the whole file and leaves no descriptor open; a batch sequence is accepted
      exactly if it names programs.

    ** Bounds and fuel

    Loops whose C code has a bound use [for_]; the others are fixpoints on fuel
    or [while_], and each theorem shows that the fuel given is enough: the
    length of a list or string plus one, the number of pages, slots or sectors
    that are left, ten digits of an [int]. What is out of fuel is [Stuck] or
    [None], which no theorem on [wp] accepts. In Kernel the number of times one
    call waits ([rounds]) is a parameter.

    ** Not modelled

    - boot block, start code, [switch_to] and the switching of preemption
      (assembly and control registers); of entry.S the saved and restored
      context is modelled. Caches, TLB and memory ordering are not: the cores
      are sequentially consistent, which the kernel lock enforces.
    - The firmware behind bios/common.c and the jump table of kernel.h.
    - Output that does not change state: [printl], messages of the file system.
    - test/test_project*: example programs that only use the interfaces modelled
      here; and string.c of tiny_libc, which repeats libs/string.c.
    - In [trap] a nested trap inside the kernel: interrupts are off there. *)
From stdpp Require Export base tactics option list numbers gmap.
From Stdlib Require Export ZArith Lia.

#[export] Set Default Goal Selector "!".
Open Scope Z_scope.

(** * Machine integers

    A C integer of width [w] is a [Z]; the wrap-around is written where the
    source computes in that width. *)

Declare Scope cint_scope.
Delimit Scope cint_scope with cint.

Definition u8 (z : Z) : Z := z mod 2 ^ 8.
Definition u16 (z : Z) : Z := z mod 2 ^ 16.
Definition u32 (z : Z) : Z := z mod 2 ^ 32.
Definition u64 (z : Z) : Z := z mod 2 ^ 64.
Definition s32 (z : Z) : Z := (z + 2 ^ 31) mod 2 ^ 32 - 2 ^ 31.
Definition s64 (z : Z) : Z := (z + 2 ^ 63) mod 2 ^ 64 - 2 ^ 63.

Definition INT_MAX : Z := 2 ^ 31 - 1.

(** [(uint32_t) -1], the error value of the functions that return [uint32_t] *)
Definition NEG1 : Z := 2 ^ 32 - 1.

Notation "x +64 y" := (u64 (x + y)) (at level 50, left associativity) : cint_scope.
Notation "x -64 y" := (u64 (x - y)) (at level 50, left associativity) : cint_scope.
Notation "x +32 y" := (u32 (x + y)) (at level 50, left associativity) : cint_scope.
Notation "x *32 y" := (u32 (x * y)) (at level 40, left associativity) : cint_scope.

Create HintDb cint discriminated.

Section Wrap.
Lemma u8_range z : 0 ≤ u8 z < 256.
Proof. unfold u8. apply Z.mod_pos_bound. lia. Qed.
Lemma u16_range z : 0 ≤ u16 z < 65536.
Proof. unfold u16. apply Z.mod_pos_bound. lia. Qed.
Lemma u32_range z : 0 ≤ u32 z < 4294967296.
Proof. unfold u32. apply Z.mod_pos_bound. lia. Qed.
Lemma u64_range z : 0 ≤ u64 z < 18446744073709551616.
Proof. unfold u64. apply Z.mod_pos_bound. lia. Qed.
Lemma u8_id z : 0 ≤ z < 256 → u8 z = z.
Proof. intros. unfold u8. apply Z.mod_small. lia. Qed.
Lemma u16_id z : 0 ≤ z < 65536 → u16 z = z.
Proof. intros. unfold u16. apply Z.mod_small. lia. Qed.
Lemma u32_id z : 0 ≤ z < 4294967296 → u32 z = z.
Proof. intros. unfold u32. apply Z.mod_small. lia. Qed.
Lemma u64_id z : 0 ≤ z < 18446744073709551616 → u64 z = z.
Proof. intros. unfold u64. apply Z.mod_small. lia. Qed.
Lemma s32_id z : -2147483648 ≤ z < 2147483648 → s32 z = z.
Proof.
  intros. unfold s32. change (2 ^ 31) with 2147483648.
  change (2 ^ 32) with 4294967296. rewrite Z.mod_small; lia.
Qed.
Lemma s64_id z : -2 ^ 63 ≤ z < 2 ^ 63 → s64 z = z.
Proof. intros. unfold s64. rewrite Z.mod_small; lia. Qed.
End Wrap.
#[export] Hint Resolve u8_range u16_range u32_range u64_range : cint.

(** Masks and shifts by constants as arithmetic. *)
Lemma land_low (n z : Z) : 0 ≤ n → Z.land z (2 ^ n - 1) = z mod 2 ^ n.
Proof.
  intros. rewrite <- Z.land_ones by done. f_equal. rewrite Z.ones_equiv. lia.
Qed.

Lemma testbit_high (n lo i : Z) : 0 ≤ lo < 2 ^ n → n ≤ i → Z.testbit lo i = false.
Proof.
  intros Hlo Hi. destruct (decide (0 ≤ n)).
  - rewrite <- (Z.mod_small lo (2 ^ n)) by lia. by apply Z.mod_pow2_bits_high.
  - rewrite Z.pow_neg_r in Hlo; lia.
Qed.

Lemma land_disjoint (hi lo n : Z) :
  0 ≤ n → 0 ≤ lo < 2 ^ n → Z.land (Z.shiftl hi n) lo = 0.
Proof.
  intros Hn Hlo. apply Z.bits_inj'. intros i Hi.
  rewrite Z.land_spec, Z.bits_0, Z.shiftl_spec by done.
  destruct (decide (i < n)).
  - by rewrite (Z.testbit_neg_r hi) by lia.
  - rewrite (testbit_high n lo i) by lia. apply andb_false_r.
Qed.

Lemma lor_shiftl_add (hi lo n : Z) :
  0 ≤ n → 0 ≤ lo < 2 ^ n → Z.lor (Z.shiftl hi n) lo = hi * 2 ^ n + lo.
Proof.
  intros Hn Hlo. rewrite <- Z.shiftl_mul_pow2 by done.
  rewrite Z.add_nocarry_lxor by (by apply land_disjoint).
  symmetry. apply Z.lxor_lor. by apply land_disjoint.
Qed.

Lemma div_mul_add_low (hi lo n : Z) : 0 ≤ n → 0 ≤ lo < 2 ^ n → (hi * 2 ^ n + lo) / 2 ^ n = hi.
Proof. intros. rewrite Z.div_add_l by lia. rewrite Z.div_small; lia. Qed.

Lemma mod_mul_add_low (hi lo n : Z) : 0 ≤ n → 0 ≤ lo < 2 ^ n → (hi * 2 ^ n + lo) mod 2 ^ n = lo.
Proof. intros. rewrite Z.add_comm, Z.mod_add by lia. by apply Z.mod_small. Qed.

(** A number whose bits from [n] on are zero is below [2 ^ n]. *)
Lemma bits_range z n : 0 ≤ n → (∀ i, n ≤ i → Z.testbit z i = false) → 0 ≤ z < 2 ^ n.
Proof.
  intros Hn Hz. assert (0 < 2 ^ n) by (apply Z.pow_pos_nonneg; lia).
  replace z with (z mod 2 ^ n); [by apply Z.mod_pos_bound|].
  rewrite <- Z.land_ones by done. apply Z.bits_inj'. intros i Hi.
  rewrite Z.land_spec. destruct (decide (i < n)).
  - rewrite Z.ones_spec_low by lia. apply andb_true_r.
  - by rewrite Hz by lia.
Qed.

Lemma lor_lt_pow2 a b n : 0 ≤ n → 0 ≤ a < 2 ^ n → 0 ≤ b < 2 ^ n → 0 ≤ Z.lor a b < 2 ^ n.
Proof.
  intros Hn Ha Hb. apply bits_range; [done|]. intros i Hi.
  by rewrite Z.lor_spec, (testbit_high n a i), (testbit_high n b i) by lia.
Qed.

(** * Arrays indexed by a C [int]

    Reading or writing outside of the array is undefined in C: [None]. *)

Definition arr_get {A} (l : list A) (i : Z) : option A :=
  if decide (0 ≤ i) then l !! Z.to_nat i else None.

Definition arr_set {A} (l : list A) (i : Z) (x : A) : option (list A) :=
  if decide (0 ≤ i < Z.of_nat (length l)) then Some (<[Z.to_nat i := x]> l) else None.

#[global] Arguments arr_get : simpl never.
#[global] Arguments arr_set : simpl never.

Section Arrays.
Context {A : Type}.
Implicit Types (l : list A) (i j : Z) (x : A).

Lemma arr_get_Some l i x :
  arr_get l i = Some x ↔ 0 ≤ i ∧ l !! Z.to_nat i = Some x.
Proof. unfold arr_get. case_decide; naive_solver. Qed.

Lemma arr_get_is_Some l i : 0 ≤ i < Z.of_nat (length l) → is_Some (arr_get l i).
Proof.
  intros. unfold arr_get. rewrite decide_True by lia.
  apply lookup_lt_is_Some_2. lia.
Qed.

Lemma arr_get_lt l i x : arr_get l i = Some x → 0 ≤ i < Z.of_nat (length l).
Proof. intros [? H%lookup_lt_Some]%arr_get_Some. lia. Qed.

Lemma arr_set_Some l i x :
  0 ≤ i < Z.of_nat (length l) → arr_set l i x = Some (<[Z.to_nat i := x]> l).
Proof. intros. unfold arr_set. by rewrite decide_True. Qed.

Lemma arr_get_insert_eq l i x :
  0 ≤ i < Z.of_nat (length l) → arr_get (<[Z.to_nat i := x]> l) i = Some x.
Proof.
  intros. unfold arr_get. rewrite decide_True by lia.
  apply list_lookup_insert_eq. lia.
Qed.

Lemma arr_get_insert_ne l i j x :
  i ≠ j → 0 ≤ i → arr_get (<[Z.to_nat i := x]> l) j = arr_get l j.
Proof.
  intros. unfold arr_get. case_decide; [|done].
  apply list_lookup_insert_ne. lia.
Qed.

Lemma arr_get_map {B} (f : A → B) l i : arr_get (f <$> l) i = f <$> arr_get l i.
Proof. unfold arr_get. case_decide; [apply list_lookup_fmap|done]. Qed.
End Arrays.

(** * Linear search

    [first_index n p] is the value of [i] with which the C loop
    [for (i = 0; i < n; i++) if (p(i)) break;] stops. *)

Fixpoint first_from (i n : nat) (p : nat → bool) : option nat :=
  match n with
  | O => None
  | S n' => if p i then Some i else first_from (S i) n' p
  end.

Definition first_index (n : nat) (p : nat → bool) : option nat := first_from 0 n p.

Lemma first_from_Some i n p k :
  first_from i n p = Some k ↔
  (i ≤ k < i + n)%nat ∧ p k = true ∧ ∀ j, (i ≤ j < k)%nat → p j = false.
Proof.
  revert i. induction n as [|n IH]; intros i; simpl.
  - split; [done|]. intros [? _]. lia.
  - destruct (p i) eqn:Hp.
    + split.
      * intros [= <-]. split; [lia|]. split; [done|]. intros j ?. lia.
      * intros (Hk & Hpk & Hlow). destruct (decide (k = i)) as [->|]; [done|].
        rewrite Hlow in Hp; [done|lia].
    + rewrite IH. split.
      * intros (? & ? & Hlow). split; [lia|]. split; [done|].
        intros j ?. destruct (decide (j = i)) as [->|]; [done|]. apply Hlow. lia.
      * intros (? & Hpk & Hlow). assert (k ≠ i) by congruence.
        split; [lia|]. split; [done|]. intros j ?. apply Hlow. lia.
Qed.

Lemma first_from_None i n p :
  first_from i n p = None ↔ ∀ j, (i ≤ j < i + n)%nat → p j = false.
Proof.
  revert i. induction n as [|n IH]; intros i; simpl.
  - split; [|done]. intros _ j ?. lia.
  - destruct (p i) eqn:Hp.
    + split; [done|]. intros H. rewrite H in Hp; [done|lia].
    + rewrite IH. split.
      * intros H j ?. destruct (decide (j = i)) as [->|]; [done|]. apply H. lia.
      * intros H j ?. apply H. lia.
Qed.

Lemma first_index_Some n p k :
  first_index n p = Some k ↔ (k < n)%nat ∧ p k = true ∧ ∀ j, (j < k)%nat → p j = false.
Proof.
  unfold first_index. rewrite first_from_Some. split.
  - intros (? & ? & H). split; [lia|]. split; [done|]. intros. apply H. lia.
  - intros (? & ? & H). split; [lia|]. split; [done|]. intros. apply H. lia.
Qed.

Lemma first_index_None n p : first_index n p = None ↔ ∀ j, (j < n)%nat → p j = false.
Proof.
  unfold first_index. rewrite first_from_None. split; intros H j ?; apply H; lia.
Qed.

Lemma first_index_ext n p q :
  (∀ j, (j < n)%nat → p j = q j) → first_index n p = first_index n q.
Proof.
  intros H. destruct (first_index n q) as [k|] eqn:Hq.
  - apply first_index_Some in Hq as (? & ? & Hl). apply first_index_Some.
    split; [done|]. split; [by rewrite H|]. intros j ?. rewrite H by lia. by apply Hl.
  - rewrite first_index_None in Hq. apply first_index_None. intros j ?.
    rewrite H by done. by apply Hq.
Qed.

(** * Tactics *)

(** Case on every [match]/[if] of the goal and close what is contradictory. *)
Ltac cases_goal := repeat (case_match || case_decide || case_bool_decide); simplify_eq.

(** Split conjunctions and try [t] on every part. *)
Ltac splits_by t := repeat split; try solve [t].

(** * Counting *)

Definition count_if {A} (p : A → bool) (l : list A) : nat :=
  length (filter (λ x, p x = true) l).

Section Count.
Context {A : Type} (p : A → bool).

Lemma count_if_cons x l : count_if p (x :: l) = ((if p x then 1 else 0) + count_if p l)%nat.
Proof. unfold count_if. rewrite filter_cons. case_decide as E; destruct (p x); done. Qed.

Lemma count_if_le l : (count_if p l ≤ length l)%nat.
Proof. apply length_filter. Qed.

Lemma count_if_insert l i x y :
  l !! i = Some x →
  (count_if p (<[i := y]> l) + (if p x then 1 else 0)
   = count_if p l + (if p y then 1 else 0))%nat.
Proof.
  revert i. induction l as [|z l IH]; intros [|i]; simpl; try done.
  - intros [= ->]. rewrite !count_if_cons. lia.
  - intros Hx. rewrite !count_if_cons. specialize (IH i Hx). lia.
Qed.

Lemma count_if_full l : count_if p l = length l → ∀ i x, l !! i = Some x → p x = true.
Proof.
  induction l as [|z l IH]; [done|]. rewrite count_if_cons. pose proof (count_if_le l).
  simpl. destruct (p z) eqn:Hz; [|lia]. intros Hl [|i] x; simpl; [naive_solver|].
  intros Hx. eapply IH; [lia|done].
Qed.

Lemma count_if_lt l : (count_if p l < length l)%nat → ∃ i x, l !! i = Some x ∧ p x = false.
Proof.
  induction l as [|z l IH]; simpl; [lia|]. rewrite count_if_cons.
  destruct (p z) eqn:Hz; intros Hl.
  - destruct IH as (i & x & Hx & Hp); [lia|]. by exists (S i), x.
  - by exists 0%nat, z.
Qed.
End Count.

(** * Looking for a slot

    Many tables of the kernel are searched by one loop that returns the first
    slot that is hit and remembers, on the way, the first slot that is free. *)

Fixpoint scan_from (hit free : nat → bool) (i n : nat) (free_idx : option nat) : nat + option nat :=
  match n with
  | O => inr free_idx
  | S n' =>
      if hit i then inl i
      else scan_from hit free (S i) n'
             (match free_idx with
              | None => if free i then Some i else None
              | Some _ => free_idx
              end)
  end.

Definition scan_slots (n : nat) (hit free : nat → bool) : nat + option nat :=
  scan_from hit free 0 n None.

Lemma scan_from_spec hit free i n fr :
  scan_from hit free i n fr
  = match first_from i n hit with
    | Some k => inl k
    | None => inr (match fr with None => first_from i n free | Some _ => fr end)
    end.
Proof.
  revert i fr. induction n as [|n IH]; intros i fr; simpl; [by destruct fr|].
  destruct (hit i); [done|]. rewrite IH. destruct (first_from (S i) n hit); [done|].
  destruct fr; [done|]. by destruct (free i).
Qed.

Lemma scan_slots_spec n hit free :
  scan_slots n hit free
  = match first_index n hit with Some k => inl k | None => inr (first_index n free) end.
Proof. apply scan_from_spec. Qed.

(** Updating a list at an index through a function. *)
Lemma list_alter_insert {A} (f : A → A) (l : list A) i x :
  l !! i = Some x → alter f i l = <[i := f x]> l.
Proof.
  intros Hx. rewrite list_insert_alter. apply list_alter_ext; [|done].
  intros y Hy. congruence.
Qed.
