(* ===== verification/KMonad.v ===== *)
(** The state monad in which the kernel operations are written, with a
    total-correctness predicate [wp] and the loop combinators of the C code.

    A computation returns normally ([Ok]), ends the current process in
    [do_exit] ([Exit]), or does not return ([Stuck]): a memory fault, an
    [assert] that fails, or a loop whose fuel runs out.  [wp m s Q] says that
    [m] started in [s] returns normally, in a state and with a value in [Q]. *)
From S2P Require Import Prelude.

Inductive outcome (S A : Type) : Type :=
| Ok (a : A) (s : S)
| Exit (s : S)
| Stuck.
Arguments Ok {S A} a s.
Arguments Exit {S A} s.
Arguments Stuck {S A}.

Definition M (S A : Type) : Type := S → outcome S A.

#[export] Instance M_ret {S} : MRet (M S) := λ A a s, Ok a s.
#[export] Instance M_bind {S} : MBind (M S) := λ A B k m s,
  match m s with
  | Ok a s' => k a s'
  | Exit s' => Exit s'
  | Stuck => Stuck
  end.

Definition get {S} : M S S := λ s, Ok s s.
Definition gets {S A} (f : S → A) : M S A := λ s, Ok (f s) s.
Definition modify {S} (f : S → S) : M S unit := λ s, Ok () (f s).
Definition exit_process {S A} : M S A := λ s, Exit s.
Definition stuck {S A} : M S A := λ _, Stuck.
Definition of_opt {S A} (o : option A) : M S A := λ s,
  match o with Some a => Ok a s | None => Stuck end.
Definition assert {S} (b : bool) : M S unit := λ s, if b then Ok () s else Stuck.

(** Run a computation on a component [T] of a larger state [S]. *)
Definition zoom {S T A} (prj : S → T) (upd : T → S → S) (m : M T A) : M S A := λ s,
  match m (prj s) with
  | Ok a t => Ok a (upd t s)
  | Exit t => Exit (upd t s)
  | Stuck => Stuck
  end.

(** [for (i = i0; i < i0 + n; i++) body(i);] *)
Fixpoint for_ {S} (i0 n : nat) (body : nat → M S unit) : M S unit :=
  match n with
  | O => mret ()
  | Datatypes.S n' => body i0 ;; for_ (Datatypes.S i0) n' body
  end.

(** The same loop whose body may [return r] from the function. *)
Fixpoint for_ret {S R} (i0 n : nat) (body : nat → M S (option R)) : M S (option R) :=
  match n with
  | O => mret None
  | Datatypes.S n' =>
      r ← body i0;
      match r with
      | Some v => mret (Some v)
      | None => for_ret (Datatypes.S i0) n' body
      end
  end.

(** A [while] loop over local variables [L]: [inl l] goes round again,
    [inr r] leaves the loop. *)
Fixpoint while_ {S L R} (fuel : nat) (step : L → M S (L + R)) (l : L) : M S R :=
  match fuel with
  | O => stuck
  | Datatypes.S fuel' =>
      r ← step l;
      match r with
      | inl l' => while_ fuel' step l'
      | inr v => mret v
      end
  end.

Lemma bind_ok {S A B} (m : M S A) (k : A → M S B) s a s' :
  m s = Ok a s' → (m ≫= k) s = k a s'.
Proof. unfold mbind, M_bind. by intros ->. Qed.

(** Equations that run a computation step by step. *)
Lemma bind_get {S B} (k : S → M S B) s : (get ≫= k) s = k s s.
Proof. done. Qed.
Lemma bind_gets {S A B} (f : S → A) (k : A → M S B) s : (gets f ≫= k) s = k (f s) s.
Proof. done. Qed.
Lemma bind_modify {S B} (f : S → S) (k : unit → M S B) s : (modify f ≫= k) s = k () (f s).
Proof. done. Qed.
Lemma bind_ret {S A B} (a : A) (k : A → M S B) s : ((mret a : M S A) ≫= k) s = k a s.
Proof. done. Qed.
Lemma bind_opt {S A B} (o : option A) a (k : A → M S B) s :
  o = Some a → (of_opt o ≫= k) s = k a s.
Proof. by intros ->. Qed.
Lemma bind_assert {S B} b (k : unit → M S B) s : b = true → (assert b ≫= k) s = k () s.
Proof. by intros ->. Qed.

Definition wp {S A} (m : M S A) (s : S) (Q : A → S → Prop) : Prop :=
  match m s with
  | Ok a s' => Q a s'
  | _ => False
  end.

Create HintDb wp discriminated.
Create Rewrite HintDb wp_simpl.

Section WP.
Context {S : Type}.
Implicit Types (s : S).

Lemma wp_iff {A} (m : M S A) s Q :
  wp m s Q ↔ ∃ a s', m s = Ok a s' ∧ Q a s'.
Proof. unfold wp. destruct (m s); naive_solver. Qed.

Lemma wp_ok {A} (m : M S A) s Q a s' : m s = Ok a s' → wp m s Q ↔ Q a s'.
Proof. unfold wp. by intros ->. Qed.

Lemma wp_ret {A} (a : A) s Q : wp (mret a) s Q ↔ Q a s.
Proof. done. Qed.

Lemma wp_bind {A B} (m : M S A) (k : A → M S B) s Q :
  wp (m ≫= k) s Q ↔ wp m s (λ a s', wp (k a) s' Q).
Proof. unfold wp, mbind, M_bind. by destruct (m s). Qed.

Lemma wp_get s Q : wp get s Q ↔ Q s s.
Proof. done. Qed.
Lemma wp_gets {A} (f : S → A) s Q : wp (gets f) s Q ↔ Q (f s) s.
Proof. done. Qed.
Lemma wp_modify f s Q : wp (modify f) s Q ↔ Q () (f s).
Proof. done. Qed.
Lemma wp_of_opt {A} (o : option A) s Q :
  wp (of_opt o) s Q ↔ ∃ a, o = Some a ∧ Q a s.
Proof. unfold wp, of_opt. destruct o; naive_solver. Qed.
Lemma wp_of_opt_Some {A} (o : option A) a s Q :
  o = Some a → wp (of_opt o) s Q ↔ Q a s.
Proof. by intros ->. Qed.
Lemma wp_assert b s Q : wp (assert b) s Q ↔ b = true ∧ Q () s.
Proof. unfold wp, assert. destruct b; naive_solver. Qed.

Lemma wp_mono {A} (m : M S A) s (Q Q' : A → S → Prop) :
  wp m s Q → (∀ a s', Q a s' → Q' a s') → wp m s Q'.
Proof. unfold wp. destruct (m s); naive_solver. Qed.

Lemma wp_zoom {T A} (prj : S → T) upd (m : M T A) s Q :
  wp (zoom prj upd m) s Q ↔ wp m (prj s) (λ a t, Q a (upd t s)).
Proof. unfold wp, zoom. by destruct (m (prj s)). Qed.

(** Invariant rule for [for_]. *)
Lemma wp_for (I : nat → S → Prop) i0 n body s :
  I i0 s →
  (∀ i s', (i0 ≤ i < i0 + n)%nat → I i s' → wp (body i) s' (λ _, I (Datatypes.S i))) →
  wp (for_ i0 n body) s (λ _, I (i0 + n)%nat).
Proof.
  revert i0 s. induction n as [|n IH]; intros i0 s HI Hbody; simpl.
  - rewrite wp_ret. by rewrite Nat.add_0_r.
  - rewrite wp_bind. eapply wp_mono; [apply Hbody; [lia|done]|].
    intros [] s' HI'. replace (i0 + Datatypes.S n)%nat with (Datatypes.S i0 + n)%nat by lia.
    apply IH; [done|]. intros i s'' ?. apply Hbody. lia.
Qed.

(** Invariant rule for [for_ret]: [I i] on entry of round [i], [R r] when
    the body returns from the function. *)
Lemma wp_for_ret {R} (I : nat → S → Prop) (Q : option R → S → Prop) i0 n body s :
  I i0 s →
  (∀ i s', (i0 ≤ i < i0 + n)%nat → I i s' →
     wp (body i) s' (λ r s'', match r with
                              | Some v => Q (Some v) s''
                              | None => I (Datatypes.S i) s'' end)) →
  (∀ s', I (i0 + n)%nat s' → Q None s') →
  wp (for_ret i0 n body) s Q.
Proof.
  revert i0 s. induction n as [|n IH]; intros i0 s HI Hbody Hend; simpl.
  - rewrite wp_ret. apply Hend. by rewrite Nat.add_0_r.
  - rewrite wp_bind. eapply wp_mono; [apply Hbody; [lia|done]|].
    intros [v|] s' HI'; [done|].
    apply IH; [done| |].
    + intros i s'' ?. apply Hbody. lia.
    + intros s''. replace (Datatypes.S i0 + n)%nat with (i0 + Datatypes.S n)%nat by lia.
      apply Hend.
Qed.

Lemma while_eq {L R} fuel (step : L → M S (L + R)) l s :
  while_ (Datatypes.S fuel) step l s
  = match step l s with
    | Ok (inl l') s' => while_ fuel step l' s'
    | Ok (inr v) s' => Ok v s'
    | Exit s' => Exit s'
    | Stuck => Stuck
    end.
Proof. simpl. unfold mbind, M_bind. by destruct (step l s) as [[]| |]. Qed.

(** Invariant and variant rule for [while_]: each round that goes on
    decreases [μ], and the fuel exceeds [μ]. *)
Lemma wp_while {L R} (I : L → S → Prop) (μ : L → S → nat) (Q : R → S → Prop)
    fuel (step : L → M S (L + R)) l s :
  I l s → (μ l s < fuel)%nat →
  (∀ l s, I l s →
     wp (step l) s (λ r s', match r with
                            | inl l' => I l' s' ∧ (μ l' s' < μ l s)%nat
                            | inr v => Q v s' end)) →
  wp (while_ fuel step l) s Q.
Proof.
  revert l s. induction fuel as [|fuel IH]; intros l s HI Hμ Hstep; [lia|].
  simpl. rewrite wp_bind. eapply wp_mono; [by apply Hstep|].
  intros [l'|v] s' H; [|done]. destruct H. apply IH; [done|lia|done].
Qed.
End WP.

#[export] Hint Rewrite @wp_bind @wp_ret @wp_get @wp_gets @wp_modify @wp_zoom : wp_simpl.

(** Unfold the control structure of a computation in a [wp] goal. *)
Ltac wp_simpl := repeat (progress (autorewrite with wp_simpl; simpl)).

#[export] Instance wp_proper {S A} :
  Proper (eq ==> eq ==> pointwise_relation A (pointwise_relation S iff) ==> iff) (@wp S A).
Proof.
  intros m ? <- s ? <- Q Q' HQ. unfold wp. destruct (m s); try done. apply HQ.
Qed.
