(* ===== verification/Bytes.v ===== *)
(** Bytes and little-endian words: what the components that work on the bytes
    of sectors and packets share. *)
From S2P Require Import Prelude.

Fixpoint bytes_of (n : nat) (v : Z) : list Z :=
  match n with O => [] | S n' => v mod 256 :: bytes_of n' (v / 256) end.
Definition of_bytes (bs : list Z) : Z := foldr (λ b r, b + 256 * r) 0 bs.

(** [((uint32_t * )b)[k]] and the assignment to it; [memcpy(b + off, xs, ...)]. *)
Definition word (b : list Z) (k : nat) : Z := of_bytes (take 4 (drop (4 * k) b)).
Definition word64 (b : list Z) (k : nat) : Z := of_bytes (take 8 (drop (8 * k) b)).
Definition splice (off : nat) (xs b : list Z) : list Z := take off b ++ xs ++ drop (off + length xs) b.
Definition set_word (k : nat) (v : Z) (b : list Z) : list Z := splice (4 * k) (bytes_of 4 v) b.

(** The field of [n] bytes at [off]. *)
Definition field (off n : nat) (b : list Z) : Z := of_bytes (take n (drop off b)).

Lemma length_bytes_of n v : length (bytes_of n v) = n.
Proof. revert v. induction n as [|n IH]; intros v; simpl; [done|]. by rewrite IH. Qed.

Lemma of_bytes_of n v : of_bytes (bytes_of n v) = v mod 256 ^ Z.of_nat n.
Proof.
  revert v. induction n as [|n IH]; intros v; [by rewrite Z.mod_1_r|].
  change (of_bytes (bytes_of (S n) v)) with (v mod 256 + 256 * of_bytes (bytes_of n (v / 256))).
  rewrite IH. replace (Z.of_nat (S n)) with (1 + Z.of_nat n) by lia.
  rewrite Z.pow_add_r, Z.pow_1_r by lia. rewrite Z.rem_mul_r; [done|lia|]. apply Z.pow_pos_nonneg; lia.
Qed.

Lemma length_splice off xs b : (off + length xs ≤ length b)%nat → length (splice off xs b) = length b.
Proof. intros H. unfold splice. rewrite !length_app, length_take, length_drop. lia. Qed.

Lemma splice_lookup off xs b i : (off + length xs ≤ length b)%nat →
  splice off xs b !! i = if decide (off ≤ i < off + length xs)%nat then xs !! (i - off)%nat else b !! i.
Proof.
  intros H. unfold splice. assert (length (take off b) = off) as Ht by (rewrite length_take; lia).
  destruct (decide (i < off)%nat).
  - rewrite decide_False by lia. rewrite lookup_app_l by lia. by apply lookup_take_lt.
  - rewrite lookup_app_r by lia. rewrite Ht. destruct (decide (i < off + length xs)%nat).
    + rewrite decide_True by lia. by rewrite lookup_app_l by lia.
    + rewrite decide_False by lia. rewrite lookup_app_r by lia. rewrite lookup_drop. f_equal. lia.
Qed.

(** What lies in a buffer from [off] on. *)
Lemma slice_eq off n (b c : list Z) : length c = n → (∀ i, (i < n)%nat → b !! (off + i)%nat = c !! i) → take n (drop off b) = c.
Proof.
  intros Hl H. apply list_eq. intros i. destruct (decide (i < n)%nat).
  - rewrite lookup_take_lt, lookup_drop by done. by apply H.
  - rewrite lookup_take_ge by lia. symmetry. apply lookup_ge_None. lia.
Qed.

Lemma slice_splice_same off xs b n : (off + length xs ≤ length b)%nat → n = length xs →
  take n (drop off (splice off xs b)) = xs.
Proof.
  intros H ->. apply slice_eq; [done|]. intros i Hi. rewrite splice_lookup, decide_True by lia. f_equal. lia.
Qed.

Lemma slice_splice_other off xs b off' n : (off + length xs ≤ length b)%nat →
  (off' + n ≤ off ∨ off + length xs ≤ off')%nat →
  take n (drop off' (splice off xs b)) = take n (drop off' b).
Proof.
  intros H Hd. apply list_eq. intros i. destruct (decide (i < n)%nat).
  - rewrite !lookup_take_lt, !lookup_drop by done. rewrite splice_lookup, decide_False by lia. done.
  - by rewrite !lookup_take_ge by lia.
Qed.

Lemma slice_slice {A} o1 n1 o2 n2 (b : list A) : (o2 + n2 ≤ n1)%nat →
  take n2 (drop o2 (take n1 (drop o1 b))) = take n2 (drop (o1 + o2) b).
Proof. intros H. rewrite skipn_firstn_comm, take_take, drop_drop. f_equal. lia. Qed.

Lemma length_words n ws : length (concat (bytes_of n <$> ws)) = (n * length ws)%nat.
Proof.
  induction ws as [|w ws IH]; [simpl; lia|]. rewrite fmap_cons. cbn [concat length].
  rewrite length_app, length_bytes_of, IH. lia.
Qed.

Lemma slice_words n ws k w : ws !! k = Some w →
  take n (drop (n * k) (concat (bytes_of n <$> ws))) = bytes_of n w.
Proof.
  revert k. induction ws as [|x ws IH]; intros [|k] Hk; try done.
  - injection Hk as ->. rewrite Nat.mul_0_r, fmap_cons. cbn [concat]. rewrite drop_0.
    apply take_app_length', eq_sym, length_bytes_of.
  - rewrite fmap_cons. cbn [concat]. replace (n * S k)%nat with (length (bytes_of n x) + n * k)%nat by (rewrite length_bytes_of; lia).
    rewrite drop_app_add. by apply IH.
Qed.

Lemma word_words ws k w : ws !! k = Some w → 0 ≤ w < 2 ^ 32 → word (concat (bytes_of 4 <$> ws)) k = w.
Proof.
  intros Hk Hw. unfold word. rewrite (slice_words 4 ws k w Hk), of_bytes_of.
  change (256 ^ Z.of_nat 4) with (2 ^ 32). by apply Z.mod_small.
Qed.

Lemma field_app off n p r : (off + n ≤ length p)%nat → field off n (p ++ r) = field off n p.
Proof.
  intros Hl. unfold field. rewrite drop_app_le by lia. rewrite take_app_le by (rewrite length_drop; lia). done.
Qed.

Lemma length_set_word k v b : (4 * k + 4 ≤ length b)%nat → length (set_word k v b) = length b.
Proof. intros H. apply length_splice. by rewrite length_bytes_of. Qed.

Lemma word_set_word k j v b : (4 * k + 4 ≤ length b)%nat →
  word (set_word k v b) j = if decide (j = k) then v mod 2 ^ 32 else word b j.
Proof.
  intros H. unfold word, set_word. case_decide as E.
  - subst j. rewrite slice_splice_same, of_bytes_of by by rewrite length_bytes_of. done.
  - rewrite slice_splice_other; [done|by rewrite length_bytes_of|]. rewrite length_bytes_of. lia.
Qed.
