(* ===== verification/KList.v ===== *)
(** kernel/list/list.c and include/os/list.h: the intrusive circular
    doubly-linked lists, over a heap that maps the address of a [list_node_t]
    to its two pointers.  Every operation is the sequence of loads and stores
    of the C function; [None] is a dereference outside of the heap.  [queues]
    relates the heap to the sequences the list heads stand for, and each
    operation refines the operation on sequences. *)
From S2P Require Import Prelude.

Section KList.
Context {K : Type} `{Countable K}.

(** [typedef struct list_node { struct list_node *next, *prev; } list_node_t;] *)
Record list_node := mk_node { next : K; prev : K }.

Abbreviation heap := (gmap K list_node).
Implicit Types (h : heap) (node head a b : K) (xs ys : list K).

Definition ld_next h a : option K := next <$> h !! a.
Definition ld_prev h a : option K := prev <$> h !! a.
Definition st_next h a (v : K) : option heap :=
  n ← h !! a; Some (<[a := mk_node v (prev n)]> h).
Definition st_prev h a (v : K) : option heap :=
  n ← h !! a; Some (<[a := mk_node (next n) v]> h).

Definition init_queue h head : option heap :=
  h ← st_prev h head head;
  st_next h head head.

Definition is_empty_queue h head : option bool :=
  n ← ld_next h head;
  p ← ld_prev h head;
  Some (bool_decide (n = head) || bool_decide (p = head)).

Definition enqueue h node head : option heap :=
  rear ← ld_prev h head;
  h ← st_next h node head;
  h ← st_prev h node rear;
  h ← st_next h rear node;
  st_prev h head node.

Definition dequeue h head : option (heap * option K) :=
  e ← is_empty_queue h head;
  if (e : bool) then Some (h, None) else
  front ← ld_next h head;
  fnext ← ld_next h front;
  h ← st_next h head fnext;
  fnext ← ld_next h front;
  h ← st_prev h fnext head;
  h ← st_prev h front front;
  h ← st_next h front front;
  Some (h, Some front).

Definition del_node h node : option heap :=
  p ← ld_prev h node;
  n ← ld_next h node;
  h ← st_next h p n;
  h ← st_prev h n p;
  h ← st_next h node node;
  st_prev h node node.

(** The traversals take fuel: one unit for each node visited. *)
Fixpoint visit_loop (fuel : nat) h head (nxt : K) (judge : K → bool)
    : option (heap * option K) :=
  match fuel with
  | O => None
  | S fuel' =>
      if decide (nxt = head) then Some (h, None) else
      if judge nxt then h ← del_node h nxt; Some (h, Some nxt) else
      nxt' ← ld_next h nxt; visit_loop fuel' h head nxt' judge
  end.
Definition visit (fuel : nat) h head (judge : K → bool) : option (heap * option K) :=
  nxt ← ld_next h head; visit_loop fuel h head nxt judge.

Fixpoint visit_wd_loop (fuel : nat) h head (nxt : K) (judge : K → bool) : option (option K) :=
  match fuel with
  | O => None
  | S fuel' =>
      if decide (nxt = head) then Some None else
      if judge nxt then Some (Some nxt) else
      nxt' ← ld_next h nxt; visit_wd_loop fuel' h head nxt' judge
  end.
Definition visit_without_delete (fuel : nat) h head (judge : K → bool) : option (option K) :=
  nxt ← ld_next h head; visit_wd_loop fuel h head nxt judge.

Fixpoint is_in_queue_loop (fuel : nat) h node head (nxt : K) : option bool :=
  match fuel with
  | O => None
  | S fuel' =>
      if decide (nxt = head) then Some false else
      if decide (node = nxt) then Some true else
      nxt' ← ld_next h nxt; is_in_queue_loop fuel' h node head nxt'
  end.
Definition is_in_queue (fuel : nat) h node head : option bool :=
  nxt ← ld_next h head; is_in_queue_loop fuel h node head nxt.

Fixpoint insert_pos (fuel : nat) h node head (pos : K) (comp : K → K → Z) : option K :=
  match fuel with
  | O => None
  | S fuel' =>
      if decide (pos = head) then Some pos else
      if decide (comp node pos ≤ 0) then Some pos else
      pos' ← ld_next h pos; insert_pos fuel' h node head pos' comp
  end.
Definition list_insert (fuel : nat) h node head (comp : K → K → Z) : option heap :=
  pos ← ld_next h head;
  pos ← insert_pos fuel h node head pos comp;
  p ← ld_prev h pos;
  h ← st_prev h pos node;
  h ← st_next h p node;
  h ← st_prev h node p;
  st_next h node pos.

(** ** The sequence of a circular list

    [links h a b]: [a->next == b] and [b->prev == a]; [chain h l]: every two
    neighbours of [l] are linked; a queue is the chain that leads from the
    head through its nodes back to the head. *)

Definition links h a b : Prop := ld_next h a = Some b ∧ ld_prev h b = Some a.

Fixpoint chain h (l : list K) : Prop :=
  match l with
  | x :: ((y :: _) as l') => links h x y ∧ chain h l'
  | _ => True
  end.

Definition is_queue h head xs : Prop :=
  NoDup (head :: xs) ∧ chain h (head :: xs ++ [head]).

(** Several disjoint queues in one heap. *)
Record queues h (Q : gmap K (list K)) : Prop := {
  q_ring : ∀ head xs, Q !! head = Some xs → is_queue h head xs;
  q_disj : ∀ hd1 hd2 xs1 xs2 x, Q !! hd1 = Some xs1 → Q !! hd2 = Some xs2 →
    x ∈ hd1 :: xs1 → x ∈ hd2 :: xs2 → hd1 = hd2
}.

(** [x] is linked in no queue. *)
Definition free_node (Q : gmap K (list K)) (x : K) : Prop :=
  ∀ head xs, Q !! head = Some xs → x ∉ head :: xs.

(** ** Loads and stores *)

Lemma ld_next_is_Some h a v : ld_next h a = Some v → is_Some (h !! a).
Proof. unfold ld_next. destruct (h !! a); naive_solver. Qed.
Lemma ld_prev_is_Some h a v : ld_prev h a = Some v → is_Some (h !! a).
Proof. unfold ld_prev. destruct (h !! a); naive_solver. Qed.
Lemma ld_next_exists h a : is_Some (h !! a) → ∃ v, ld_next h a = Some v.
Proof. intros [n Hn]. unfold ld_next. rewrite Hn. simpl. eauto. Qed.
Lemma ld_prev_exists h a : is_Some (h !! a) → ∃ v, ld_prev h a = Some v.
Proof. intros [n Hn]. unfold ld_prev. rewrite Hn. simpl. eauto. Qed.

(** What a heap holds after a store, pointer field by pointer field. *)
Record stored h h' (nx pv : K → option K) : Prop := {
  st_nx : ∀ x, ld_next h' x = nx x;
  st_pv : ∀ x, ld_prev h' x = pv x;
  st_dom : ∀ x, is_Some (h' !! x) ↔ is_Some (h !! x)
}.

Lemma st_next_spec h a v : is_Some (h !! a) →
  ∃ h', st_next h a v = Some h' ∧
    stored h h' (λ x, if decide (x = a) then Some v else ld_next h x) (ld_prev h).
Proof.
  intros [n Hn]. unfold st_next. rewrite Hn. simpl. eexists; split; [done|].
  split; intros x; unfold ld_next, ld_prev.
  - case_decide; subst; [by rewrite lookup_insert_eq|by rewrite lookup_insert_ne].
  - destruct (decide (x = a)) as [->|].
    + by rewrite lookup_insert_eq, Hn.
    + by rewrite lookup_insert_ne.
  - destruct (decide (x = a)) as [->|].
    + rewrite lookup_insert_eq, Hn. split; eauto.
    + by rewrite lookup_insert_ne.
Qed.

Lemma st_prev_spec h a v : is_Some (h !! a) →
  ∃ h', st_prev h a v = Some h' ∧
    stored h h' (ld_next h) (λ x, if decide (x = a) then Some v else ld_prev h x).
Proof.
  intros [n Hn]. unfold st_prev. rewrite Hn. simpl. eexists; split; [done|].
  split; intros x; unfold ld_next, ld_prev.
  - destruct (decide (x = a)) as [->|].
    + by rewrite lookup_insert_eq, Hn.
    + by rewrite lookup_insert_ne.
  - case_decide; subst; [by rewrite lookup_insert_eq|by rewrite lookup_insert_ne].
  - destruct (decide (x = a)) as [->|].
    + rewrite lookup_insert_eq, Hn. split; eauto.
    + by rewrite lookup_insert_ne.
Qed.

(** ** Chains *)

Lemma chain_app h l1 x l2 : chain h (l1 ++ x :: l2) ↔ chain h (l1 ++ [x]) ∧ chain h (x :: l2).
Proof.
  induction l1 as [|y l1 IH]; simpl; [naive_solver|].
  destruct l1 as [|z l1]; simpl in *; [naive_solver|]. rewrite IH. naive_solver.
Qed.

Lemma chain_ext h h' l l1 z w l2 :
  l = l1 ++ [z] → l = w :: l2 →
  (∀ x, x ∈ l1 → ld_next h' x = ld_next h x) →
  (∀ x, x ∈ l2 → ld_prev h' x = ld_prev h x) →
  chain h l → chain h' l.
Proof.
  revert l1 w l2. induction l as [|x l IH]; intros l1 w l2 E1 E2 Hn Hp Hc; [done|].
  simplify_eq. destruct l2 as [|y l2]; [done|].
  destruct l1 as [|x' l1]; [simplify_eq/=|]. simpl in E1. injection E1 as <- E1.
  destruct Hc as [[Hl1 Hl2] Hc]. split.
  - split; [rewrite Hn; [done|left]|rewrite Hp; [done|left]].
  - eapply IH; [done|done| | |done]; intros u Hu; [apply Hn|apply Hp]; by right.
Qed.

Lemma cons_snoc {A} (x : A) l : ∃ l1 y, x :: l = l1 ++ [y].
Proof. exists (removelast (x :: l)), (List.last (x :: l) x). by apply app_removelast_last. Qed.

Lemma snoc_cons {A} (x : A) l : ∃ y l2, l ++ [x] = y :: l2.
Proof. destruct l; simpl; eauto. Qed.

Lemma singleton_snoc {A} (x y : A) l : [x] = l ++ [y] → l = [] ∧ y = x.
Proof. destruct l as [|? [|]]; simpl; intros; by simplify_eq. Qed.

(** The node before and the node after the position between [ys] and [zs]. *)
Lemma ring_split head ys zs :
  ∃ l1 p n l2, head :: ys = l1 ++ [p] ∧ zs ++ [head] = n :: l2.
Proof.
  destruct (cons_snoc head ys) as (l1 & p & ?), (snoc_cons head zs) as (n & l2 & ?).
  naive_solver.
Qed.

(** ** Linking and unlinking one node *)

Section Ring.
Context (h h' : heap) (head : K) (ys zs l1 : list K) (p n : K) (l2 : list K) (node : K).
Hypothesis E1 : head :: ys = l1 ++ [p].
Hypothesis E2 : zs ++ [head] = n :: l2.

Lemma ring_cut l : head :: (ys ++ l) ++ [head] = l1 ++ p :: l ++ [head].
Proof. rewrite <- app_assoc, app_comm_cons, E1. by rewrite <- app_assoc. Qed.

Lemma ring_in_left x : x ∈ head :: ys ↔ x ∈ l1 ∨ x = p.
Proof. rewrite E1. set_solver. Qed.
Lemma ring_in_right x : x ∈ zs ∨ x = head ↔ x = n ∨ x ∈ l2.
Proof.
  assert (x ∈ zs ++ [head] ↔ x ∈ n :: l2) as Hx by (by rewrite E2). set_solver.
Qed.

Lemma ring_distinct : NoDup (head :: ys ++ zs) → p ∉ l1 ∧ p ∉ zs ∧ n ∉ l2 ∧ n ∉ ys.
Proof.
  intros Hnd. rewrite app_comm_cons in Hnd.
  apply NoDup_app in Hnd as (Hnd1 & Hd & Hnd2).
  assert (head ∉ ys) by (by apply NoDup_cons in Hnd1 as [? _]).
  assert (NoDup (zs ++ [head])) as Hnd3.
  { apply NoDup_app. split; [done|]. split; [|apply NoDup_singleton].
    intros x Hx ->%list_elem_of_singleton. apply (Hd head); [left|done]. }
  rewrite E2 in Hnd3. apply NoDup_cons in Hnd3 as [Hn2 _].
  rewrite E1 in Hnd1. apply NoDup_app in Hnd1 as (_ & Hl1 & _).
  split; [|split; [|split]].
  - intros Hin. apply (Hl1 p Hin). left.
  - apply Hd, ring_in_left. by right.
  - done.
  - intros Hin. destruct (proj2 (ring_in_right n) (or_introl eq_refl)) as [Hz| ->]; [|done].
    apply (Hd n); [by right|done].
Qed.

Lemma ring_link :
  node ∉ head :: ys ++ zs →
  is_queue h head (ys ++ zs) →
  (∀ x, ld_next h' x = if decide (x = node) then Some n
                       else if decide (x = p) then Some node else ld_next h x) →
  (∀ x, ld_prev h' x = if decide (x = node) then Some p
                       else if decide (x = n) then Some node else ld_prev h x) →
  is_queue h' head (ys ++ node :: zs).
Proof.
  intros Hfresh [Hnd Hc] Hn Hp.
  destruct (ring_distinct Hnd) as (Hp1 & Hpz & Hn2 & Hny).
  assert (∀ x, x ∈ head :: ys → x ≠ node) as Hl by set_solver.
  assert (∀ x, x ∈ zs ∨ x = head → x ≠ node) as Hr by set_solver.
  split.
  { rewrite app_comm_cons. apply NoDup_app. apply NoDup_cons in Hnd as Hnd0.
    rewrite app_comm_cons in Hnd. apply NoDup_app in Hnd as (? & Hd & ?).
    split; [done|]. split; [set_solver|]. apply NoDup_cons. set_solver. }
  rewrite ring_cut in Hc |- *. simpl. rewrite E2 in Hc |- *.
  rewrite chain_app in Hc |- *. destruct Hc as (Hc1 & [[Hpn1 Hpn2] Hc2]).
  split; [|split; [|split]].
  - eapply (chain_ext h h' _ l1 p head ys); [done|by rewrite <- E1| | |done].
    + intros x Hx. assert (x ∈ head :: ys) by (apply ring_in_left; auto).
      rewrite Hn, !decide_False; set_solver.
    + intros x Hx. assert (x ∈ head :: ys) by (by right).
      rewrite Hp, !decide_False; set_solver.
  - assert (p ≠ node) by (apply Hl, ring_in_left; by right).
    split; [rewrite Hn, decide_False, decide_True|rewrite Hp, decide_True]; done.
  - assert (n ≠ node) by (apply Hr, ring_in_right; by left).
    split; [rewrite Hn, decide_True|rewrite Hp, decide_False, decide_True]; done.
  - eapply (chain_ext h h' _ zs head n l2); [by rewrite <- E2|done| | |done].
    + intros x Hx. rewrite Hn, !decide_False; set_solver.
    + intros x Hx. assert (x ∈ zs ∨ x = head) by (apply ring_in_right; auto).
      rewrite Hp, !decide_False; set_solver.
Qed.

Lemma ring_unlink :
  is_queue h head (ys ++ node :: zs) →
  (∀ x, ld_next h' x = if decide (x = node) then Some node
                       else if decide (x = p) then Some n else ld_next h x) →
  (∀ x, ld_prev h' x = if decide (x = node) then Some node
                       else if decide (x = n) then Some p else ld_prev h x) →
  is_queue h' head (ys ++ zs).
Proof.
  intros [Hnd Hc] Hn Hp.
  assert (NoDup (head :: ys ++ zs) ∧ node ∉ head :: ys ++ zs) as [Hnd' Hfresh].
  { rewrite app_comm_cons in Hnd |- *. apply NoDup_app in Hnd as (? & Hd & Hnd).
    apply NoDup_cons in Hnd as [Hz ?]. rewrite NoDup_app. set_solver. }
  destruct (ring_distinct Hnd') as (Hp1 & Hpz & Hn2 & Hny).
  assert (∀ x, x ∈ head :: ys → x ≠ node) as Hl by set_solver.
  assert (∀ x, x ∈ zs ∨ x = head → x ≠ node) as Hr by set_solver.
  split; [done|].
  rewrite ring_cut in Hc |- *. simpl in Hc. rewrite E2 in Hc |- *.
  rewrite chain_app in Hc |- *. destruct Hc as (Hc1 & (_ & _ & Hc2)).
  split; [|split].
  - eapply (chain_ext h h' _ l1 p head ys); [done|by rewrite <- E1| | |done].
    + intros x Hx. assert (x ∈ head :: ys) by (apply ring_in_left; auto).
      rewrite Hn, !decide_False; set_solver.
    + intros x Hx. assert (x ∈ head :: ys) by (by right).
      rewrite Hp, !decide_False; set_solver.
  - assert (p ≠ node) by (apply Hl, ring_in_left; by right).
    assert (n ≠ node) by (apply Hr, ring_in_right; by left).
    split; [rewrite Hn, decide_False, decide_True|rewrite Hp, decide_False, decide_True]; done.
  - eapply (chain_ext h h' _ zs head n l2); [by rewrite <- E2|done| | |done].
    + intros x Hx. rewrite Hn, !decide_False; set_solver.
    + intros x Hx. assert (x ∈ zs ∨ x = head) by (apply ring_in_right; auto).
      rewrite Hp, !decide_False; set_solver.
Qed.

(** The pointers around the cut. *)
Lemma ring_links : is_queue h head (ys ++ zs) → links h p n.
Proof. intros [_ Hc]. rewrite ring_cut, E2, chain_app in Hc. by destruct Hc as [_ [? _]]. Qed.

Lemma ring_links_node :
  is_queue h head (ys ++ node :: zs) → links h p node ∧ links h node n.
Proof.
  intros [_ Hc]. rewrite ring_cut in Hc. simpl in Hc.
  rewrite E2, chain_app in Hc. by destruct Hc as (_ & ? & ? & _).
Qed.
End Ring.

(** Replacing one queue of a heap, the other queues untouched. *)
Lemma queues_update h h' Q head xs ys :
  queues h Q → Q !! head = Some xs →
  is_queue h' head ys →
  (∀ y, y ∈ ys → y ∈ xs ∨ free_node Q y) →
  (∀ x, x ∉ head :: xs → ¬ free_node Q x →
     ld_next h' x = ld_next h x ∧ ld_prev h' x = ld_prev h x) →
  queues h' (<[head := ys]> Q).
Proof.
  intros [Hr Hd] Hxs Hq Hys Hframe.
  assert (∀ hd zs x, Q !! hd = Some zs → hd ≠ head → x ∈ hd :: zs →
            x ∉ head :: ys ∧ x ∉ head :: xs) as Hother.
  { intros hd zs x Hhd Hne Hx.
    assert (x ∉ head :: xs) by (intros ?; by apply Hne, (Hd hd head zs xs x)).
    split; [|done]. rewrite elem_of_cons. intros [->|Hin]; [set_solver|].
    destruct (Hys _ Hin) as [?|Hf]; [set_solver|]. by apply (Hf hd zs). }
  split.
  - intros hd zs. destruct (decide (hd = head)) as [->|Hne].
    + rewrite lookup_insert_eq. by intros [= <-].
    + rewrite lookup_insert_ne by done. intros Hhd. destruct (Hr _ _ Hhd) as [Hnd Hc].
      split; [done|].
      assert (∀ x, x ∈ hd :: zs → ld_next h' x = ld_next h x ∧ ld_prev h' x = ld_prev h x) as Hf.
      { intros x Hx. apply Hframe; [by eapply Hother|]. intros Hf. by apply (Hf hd zs). }
      eapply (chain_ext h h' _ (hd :: zs) hd hd (zs ++ [hd])); [done|done| | |done].
      * intros x Hx. by apply Hf.
      * intros x Hx. apply Hf. set_solver.
  - intros hd1 hd2 xs1 xs2 x.
    destruct (decide (hd1 = head)) as [->|], (decide (hd2 = head)) as [->|];
      rewrite ?lookup_insert_eq, ?lookup_insert_ne by done; intros H1 H2; simplify_eq; eauto.
    + intros Hx Hx2. by destruct (Hother _ _ _ H2 ltac:(done) Hx2).
    + intros Hx1 Hx. by destruct (Hother _ _ _ H1 ltac:(done) Hx1).
Qed.

(** ** The operations refine operations on sequences *)

Definition same_nodes h h' : Prop := ∀ x, is_Some (h' !! x) ↔ is_Some (h !! x).

Ltac step_store :=
  match goal with
  | |- context [st_next ?h ?a ?v] =>
      let h' := fresh "h" in let E := fresh "E" in let S := fresh "S" in
      destruct (st_next_spec h a v) as (h' & E & S);
      [|rewrite E; simpl; clear E]
  | |- context [st_prev ?h ?a ?v] =>
      let h' := fresh "h" in let E := fresh "E" in let S := fresh "S" in
      destruct (st_prev_spec h a v) as (h' & E & S);
      [|rewrite E; simpl; clear E]
  end.

(** Rewrite loads of the last heap into loads of the first one. *)
Ltac stored_simpl :=
  repeat match goal with
  | S : stored _ ?h _ _ |- context [ld_next ?h _] => rewrite (st_nx _ _ _ _ S)
  | S : stored _ ?h _ _ |- context [ld_prev ?h _] => rewrite (st_pv _ _ _ _ S)
  | S : stored _ ?h _ _ |- context [?h !! _] => rewrite (st_dom _ _ _ _ S)
  end.

Lemma link_spec h h' Q head ys zs l1 p n l2 node :
  queues h Q → Q !! head = Some (ys ++ zs) → free_node Q node →
  head :: ys = l1 ++ [p] → zs ++ [head] = n :: l2 →
  (∀ x, ld_next h' x = if decide (x = node) then Some n
                       else if decide (x = p) then Some node else ld_next h x) →
  (∀ x, ld_prev h' x = if decide (x = node) then Some p
                       else if decide (x = n) then Some node else ld_prev h x) →
  queues h' (<[head := ys ++ node :: zs]> Q).
Proof.
  intros HQ Hxs Hf E1 E2 Hn Hp.
  eapply queues_update; [done|done| | |].
  - eapply ring_link; [done|done|by apply Hf|by apply HQ|done|done].
  - set_solver.
  - intros x Hx Hnf. rewrite Hn, Hp.
    assert (x ≠ node) by (by intros ->).
    assert (p ∈ head :: ys) by (rewrite E1; set_solver).
    assert (n ∈ zs ++ [head]) by (rewrite E2; set_solver).
    rewrite !decide_False; set_solver.
Qed.

Lemma unlink_spec h h' Q head ys zs l1 p n l2 node :
  queues h Q → Q !! head = Some (ys ++ node :: zs) →
  head :: ys = l1 ++ [p] → zs ++ [head] = n :: l2 →
  (∀ x, ld_next h' x = if decide (x = node) then Some node
                       else if decide (x = p) then Some n else ld_next h x) →
  (∀ x, ld_prev h' x = if decide (x = node) then Some node
                       else if decide (x = n) then Some p else ld_prev h x) →
  queues h' (<[head := ys ++ zs]> Q) ∧ free_node (<[head := ys ++ zs]> Q) node.
Proof.
  intros HQ Hxs E1 E2 Hn Hp. split.
  - eapply queues_update; [done|done| | |].
    + eapply ring_unlink; [done|done|by apply HQ|done|done].
    + set_solver.
    + intros x Hx Hnf. rewrite Hn, Hp.
      assert (p ∈ head :: ys) by (rewrite E1; set_solver).
      assert (n ∈ zs ++ [head]) by (rewrite E2; set_solver).
      rewrite !decide_False; set_solver.
  - destruct (q_ring _ _ HQ _ _ Hxs) as [Hnd _].
    intros hd us. destruct (decide (hd = head)) as [->|Hne].
    + rewrite lookup_insert_eq. intros [= <-].
      rewrite app_comm_cons in Hnd |- *. apply NoDup_app in Hnd as (? & ? & Hnd).
      apply NoDup_cons in Hnd. set_solver.
    + rewrite lookup_insert_ne by done. intros Hus Hin.
      apply Hne, (q_disj _ _ HQ hd head us (ys ++ node :: zs) node); set_solver.
Qed.

Lemma init_queue_spec h head :
  is_Some (h !! head) →
  ∃ h', init_queue h head = Some h' ∧ is_queue h' head [] ∧ same_nodes h h' ∧
    ∀ x, x ≠ head → ld_next h' x = ld_next h x ∧ ld_prev h' x = ld_prev h x.
Proof.
  intros Hs. unfold init_queue. step_store; [done|]. step_store; [by rewrite (st_dom _ _ _ _ S)|].
  eexists; split; [done|]. split; [|split].
  - split; [apply NoDup_singleton|]. simpl. split; [|done].
    unfold links. stored_simpl. by rewrite !decide_True.
  - intros x. by stored_simpl.
  - intros x Hx. stored_simpl. by rewrite !decide_False.
Qed.

Lemma enqueue_spec h Q head xs node :
  queues h Q → Q !! head = Some xs → free_node Q node → is_Some (h !! node) →
  ∃ h', enqueue h node head = Some h' ∧
    queues h' (<[head := xs ++ [node]]> Q) ∧ same_nodes h h'.
Proof.
  intros HQ Hxs Hf Hnode.
  destruct (ring_split head xs []) as (l1 & p & n & l2 & E1 & E2).
  injection E2 as <- <-.
  assert (links h p head) as [Hpn Hnp].
  { apply (ring_links h head xs [] l1 p head [] E1 eq_refl). rewrite app_nil_r. by apply HQ. }
  assert (node ≠ head) by (intros ->; apply (Hf head xs Hxs); left).
  assert (node ≠ p) by (intros ->; apply (Hf head xs Hxs); rewrite E1; set_solver).
  unfold enqueue. rewrite Hnp. simpl.
  step_store; [done|]. step_store; [by stored_simpl|].
  step_store; [stored_simpl; eauto using ld_next_is_Some|].
  step_store; [stored_simpl; eauto using ld_prev_is_Some|].
  eexists; split; [done|]. split; [|by intros x; stored_simpl].
  eapply (link_spec h h3 Q head xs [] l1 p head []);
    [done|by rewrite app_nil_r|done|exact E1|reflexivity| |];
    intros x; stored_simpl; by repeat case_decide; subst.
Qed.

Lemma del_node_spec h Q head ys zs node :
  queues h Q → Q !! head = Some (ys ++ node :: zs) →
  ∃ h', del_node h node = Some h' ∧
    queues h' (<[head := ys ++ zs]> Q) ∧ free_node (<[head := ys ++ zs]> Q) node ∧
    same_nodes h h'.
Proof.
  intros HQ Hxs.
  destruct (ring_split head ys zs) as (l1 & p & n & l2 & E1 & E2).
  destruct (ring_links_node h head ys zs l1 p n l2 node E1 E2) as [[Hp1 Hp2] [Hn1 Hn2]];
    [by apply HQ|].
  unfold del_node. rewrite Hp2, Hn1. simpl.
  step_store; [eauto using ld_next_is_Some|]. step_store; [stored_simpl; eauto using ld_prev_is_Some|].
  step_store; [stored_simpl; eauto using ld_next_is_Some|].
  step_store; [stored_simpl; eauto using ld_next_is_Some|].
  eexists; split; [done|].
  assert (∀ x, is_Some (h3 !! x) ↔ is_Some (h !! x)) by (intros x; by stored_simpl).
  rewrite (assoc (∧)). split; [|done].
  eapply unlink_spec; [done|done|done|done| |];
    intros x; stored_simpl; by repeat case_decide; subst.
Qed.

Lemma is_empty_queue_spec h head xs :
  is_queue h head xs → is_empty_queue h head = Some (bool_decide (xs = [])).
Proof.
  intros Hq. destruct (ring_split head xs []) as (l1 & p & n & l2 & E1 & E2).
  injection E2 as <- <-.
  destruct (ring_links h head xs [] l1 p head [] E1 eq_refl) as [_ Hp]; [by rewrite app_nil_r|].
  destruct (ring_split head [] xs) as (l1' & p' & n' & l2' & E1' & E2').
  apply singleton_snoc in E1' as [-> ->].
  destruct (ring_links h head [] xs [] head n' l2' eq_refl E2' Hq) as [Hn _].
  unfold is_empty_queue. rewrite Hn, Hp. simpl. f_equal. destruct xs as [|x xs].
  - injection E2' as <- <-. repeat case_bool_decide; done.
  - destruct Hq as [[Hhd Hnd]%NoDup_cons _]. injection E2' as <- <-.
    assert (x ≠ head) by set_solver.
    assert (p ≠ head).
    { intros ->. destruct l1 as [|y l1]; [done|]. injection E1 as <- E1.
      apply Hhd. rewrite E1. set_solver. }
    repeat case_bool_decide; done.
Qed.

Lemma ring_first h head xs :
  is_queue h head xs → ld_next h head = Some (default head (list.head xs)).
Proof. intros [_ Hc]. destruct xs as [|x xs]; simpl in *; by destruct Hc as [[? _] _]. Qed.

Lemma dequeue_empty h head : is_queue h head [] → dequeue h head = Some (h, None).
Proof. intros Hq. unfold dequeue. by rewrite (is_empty_queue_spec _ _ _ Hq). Qed.

Lemma self_link h x : ld_next h x = Some x → ld_prev h x = Some x → h !! x = Some (mk_node x x).
Proof.
  unfold ld_next, ld_prev. destruct (h !! x) as [[n p]|]; simpl; [|done].
  by intros [= ->] [= ->].
Qed.

(** Unlinking a node that is linked to itself does nothing. *)
Lemma del_node_self h x : h !! x = Some (mk_node x x) → del_node h x = Some h.
Proof.
  intros Hx. unfold del_node, ld_prev, ld_next, st_next, st_prev. rewrite Hx. simpl.
  rewrite Hx. simpl. rewrite insert_id by done. rewrite Hx. simpl. rewrite insert_id by done.
  rewrite Hx. simpl. rewrite insert_id by done. rewrite Hx. simpl. by rewrite insert_id.
Qed.

Lemma dequeue_spec h Q head x xs :
  queues h Q → Q !! head = Some (x :: xs) →
  ∃ h', dequeue h head = Some (h', Some x) ∧
    queues h' (<[head := xs]> Q) ∧ free_node (<[head := xs]> Q) x ∧ same_nodes h h' ∧
    h' !! x = Some (mk_node x x).
Proof.
  intros HQ Hxs. pose proof (q_ring _ _ HQ _ _ Hxs) as Hq.
  destruct (ring_split head [] xs) as (l1 & p & n & l2 & E1 & E2).
  apply singleton_snoc in E1 as [-> ->].
  destruct (ring_links_node h head [] xs [] head n l2 x eq_refl E2 Hq) as [[Hp1 Hp2] [Hn1 Hn2]].
  unfold dequeue. rewrite (is_empty_queue_spec _ _ _ Hq). simpl.
  rewrite Hp1. simpl. rewrite Hn1. simpl.
  assert (x ≠ head) by (destruct Hq as [Hnd _]; apply NoDup_cons in Hnd; set_solver).
  step_store; [eauto using ld_next_is_Some|]. stored_simpl. rewrite decide_False by done.
  rewrite Hn1. simpl.
  step_store; [stored_simpl; eauto using ld_prev_is_Some|].
  step_store; [stored_simpl; eauto using ld_next_is_Some|].
  step_store; [stored_simpl; eauto using ld_next_is_Some|].
  eexists; split; [done|].
  assert (∀ y, is_Some (h3 !! y) ↔ is_Some (h !! y)) by (intros y; by stored_simpl).
  assert (h3 !! x = Some (mk_node x x)) as Hself.
  { apply self_link; stored_simpl; by rewrite decide_True. }
  rewrite (assoc (∧)). split; [|done].
  eapply (unlink_spec h h3 Q head [] xs [] head); [done|done|done|done| |];
    intros y; stored_simpl; by repeat case_decide; subst.
Qed.

(** ** The traversals *)

Lemma ring_next h head ys x zs :
  is_queue h head (ys ++ x :: zs) → ld_next h x = Some (default head (list.head zs)).
Proof.
  intros Hq. destruct (ring_split head ys zs) as (l1 & p & n & l2 & E1 & E2).
  destruct (ring_links_node h head ys zs l1 p n l2 x E1 E2 Hq) as [_ [-> _]].
  by destruct zs; injection E2 as <- <-.
Qed.

Lemma ring_ne_head h head ys x zs : is_queue h head (ys ++ x :: zs) → x ≠ head.
Proof. intros [Hnd _] ->. apply NoDup_cons in Hnd as [Hnd _]. set_solver. Qed.

(** The reference operations on sequences. *)
Fixpoint take_first (judge : K → bool) xs : option (K * list K) :=
  match xs with
  | [] => None
  | x :: xs' =>
      if judge x then Some (x, xs') else
      '(y, r) ← take_first judge xs'; Some (y, x :: r)
  end.

Fixpoint insert_before (comp : K → K → Z) node xs : list K :=
  match xs with
  | [] => [node]
  | x :: xs' => if decide (comp node x ≤ 0) then node :: x :: xs'
                else x :: insert_before comp node xs'
  end.

Lemma take_first_Some judge xs x r :
  take_first judge xs = Some (x, r) →
  ∃ ys zs, xs = ys ++ x :: zs ∧ r = ys ++ zs ∧ judge x = true ∧
           ∀ y, y ∈ ys → judge y = false.
Proof.
  revert r. induction xs as [|a xs IH]; intros r; simpl; [done|].
  destruct (judge a) eqn:Ha.
  - intros [= <- <-]. exists [], xs. set_solver.
  - destruct (take_first judge xs) as [[y r']|] eqn:Ht; simpl; [|done].
    intros [= -> <-]. destruct (IH r' eq_refl) as (ys & zs & -> & -> & ? & ?).
    exists (a :: ys), zs. set_solver.
Qed.

Lemma take_first_None judge xs :
  take_first judge xs = None → ∀ y, y ∈ xs → judge y = false.
Proof.
  induction xs as [|a xs IH]; simpl; [set_solver|].
  destruct (judge a) eqn:Ha; [done|].
  destruct (take_first judge xs) as [[]|] eqn:Ht; simpl; [done|]. set_solver.
Qed.

Lemma visit_loop_spec fuel h Q head ys zs judge :
  queues h Q → Q !! head = Some (ys ++ zs) → (length zs < fuel)%nat →
  match take_first judge zs with
  | None => visit_loop fuel h head (default head (list.head zs)) judge = Some (h, None)
  | Some (x, r) =>
      ∃ h', visit_loop fuel h head (default head (list.head zs)) judge = Some (h', Some x) ∧
        queues h' (<[head := ys ++ r]> Q) ∧ free_node (<[head := ys ++ r]> Q) x ∧
        same_nodes h h'
  end.
Proof.
  revert fuel ys. induction zs as [|x zs IH]; intros fuel ys HQ Hxs Hfuel;
    (destruct fuel as [|fuel]; [lia|]); simpl.
  - by rewrite decide_True.
  - pose proof (q_ring _ _ HQ _ _ Hxs) as Hq.
    rewrite decide_False by (by eapply ring_ne_head).
    destruct (judge x) eqn:Hj.
    + destruct (del_node_spec h Q head ys zs x HQ Hxs) as (h' & -> & ? & ? & ?).
      simpl. eauto.
    + rewrite (ring_next _ _ _ _ _ Hq). simpl in *.
      specialize (IH fuel (ys ++ [x]) HQ). rewrite <- (assoc_L (++)) in IH. simpl in IH.
      specialize (IH Hxs ltac:(lia)).
      destruct (take_first judge zs) as [[y r]|]; simpl; [|done].
      rewrite <- (assoc_L (++)) in IH. done.
Qed.

Lemma visit_spec fuel h Q head xs judge :
  queues h Q → Q !! head = Some xs → (length xs < fuel)%nat →
  match take_first judge xs with
  | None => visit fuel h head judge = Some (h, None)
  | Some (x, r) =>
      ∃ h', visit fuel h head judge = Some (h', Some x) ∧
        queues h' (<[head := r]> Q) ∧ free_node (<[head := r]> Q) x ∧ same_nodes h h'
  end.
Proof.
  intros HQ Hxs Hfuel. unfold visit. rewrite (ring_first h head xs) by (by apply HQ).
  by apply (visit_loop_spec fuel h Q head [] xs judge).
Qed.

Lemma visit_wd_spec fuel h head xs judge :
  is_queue h head xs → (length xs < fuel)%nat →
  visit_without_delete fuel h head judge = Some (fst <$> take_first judge xs).
Proof.
  intros Hq. unfold visit_without_delete. rewrite (ring_first h head xs Hq). simpl.
  change xs with ([] ++ xs) in Hq. generalize (@nil K) Hq. clear Hq. revert fuel.
  induction xs as [|x xs IH]; intros fuel ys Hq Hfuel; (destruct fuel as [|fuel]; [simpl in *; lia|]); simpl.
  - by rewrite decide_True.
  - rewrite decide_False by (by eapply ring_ne_head).
    destruct (judge x); [done|]. rewrite (ring_next _ _ _ _ _ Hq). simpl in *.
    rewrite (IH fuel (ys ++ [x])); [|by rewrite <- (assoc_L (++))|lia].
    by destruct (take_first judge xs) as [[]|].
Qed.

Lemma is_in_queue_spec fuel h head xs node :
  is_queue h head xs → (length xs < fuel)%nat →
  is_in_queue fuel h node head = Some (bool_decide (node ∈ xs)).
Proof.
  intros Hq. unfold is_in_queue. rewrite (ring_first h head xs Hq). simpl.
  change xs with ([] ++ xs) in Hq. generalize (@nil K) Hq. clear Hq. revert fuel.
  induction xs as [|x xs IH]; intros fuel ys Hq Hfuel; (destruct fuel as [|fuel]; [simpl in *; lia|]); cbn [is_in_queue_loop list.head default from_option id].
  - rewrite decide_True by done. rewrite bool_decide_false; [done|apply not_elem_of_nil].
  - rewrite decide_False by (by eapply ring_ne_head).
    destruct (decide (node = x)) as [->|Hx]; [rewrite bool_decide_true; [done|set_solver]|].
    rewrite (ring_next _ _ _ _ _ Hq). cbn [mbind option_bind length] in *.
    rewrite (IH fuel (ys ++ [x])); [|by rewrite <- (assoc_L (++))|lia].
    f_equal. apply bool_decide_ext. set_solver.
Qed.

(** [list_insert] puts the node before the first one it does not exceed. *)
Lemma insert_pos_spec fuel h head ys zs node comp :
  is_queue h head (ys ++ zs) → (length zs < fuel)%nat →
  ∃ us vs, zs = us ++ vs ∧ insert_before comp node zs = us ++ node :: vs ∧
    insert_pos fuel h node head (default head (list.head zs)) comp
      = Some (default head (list.head vs)).
Proof.
  revert fuel ys. induction zs as [|x zs IH]; intros fuel ys Hq Hfuel;
    (destruct fuel as [|fuel]; [simpl in *; lia|]); simpl.
  - exists [], []. by rewrite decide_True.
  - rewrite (decide_False (P := x = head)) by (by eapply ring_ne_head).
    case_decide.
    + by exists [], (x :: zs).
    + rewrite (ring_next _ _ _ _ _ Hq). simpl in *.
      destruct (IH fuel (ys ++ [x])) as (us & vs & -> & -> & ->);
        [by rewrite <- (assoc_L (++))|lia|].
      by exists (x :: us), vs.
Qed.

Lemma list_insert_spec fuel h Q head xs node comp :
  queues h Q → Q !! head = Some xs → free_node Q node → is_Some (h !! node) →
  (length xs < fuel)%nat →
  ∃ h', list_insert fuel h node head comp = Some h' ∧
    queues h' (<[head := insert_before comp node xs]> Q) ∧ same_nodes h h'.
Proof.
  intros HQ Hxs Hf Hnode Hfuel. pose proof (q_ring _ _ HQ _ _ Hxs) as Hq.
  unfold list_insert. rewrite (ring_first h head xs Hq). simpl.
  destruct (insert_pos_spec fuel h head [] xs node comp Hq Hfuel)
    as (us & vs & -> & -> & ->). simpl.
  destruct (ring_split head us vs) as (l1 & p & n & l2 & E1 & E2).
  destruct (ring_links h head us vs l1 p n l2 E1 E2 Hq) as [Hpn Hnp].
  assert (default head (list.head vs) = n) as -> by (destruct vs; by injection E2).
  assert (node ≠ p) by (intros ->; apply (Hf head _ Hxs); rewrite app_comm_cons, E1; set_solver).
  assert (node ≠ n).
  { intros ->. apply (Hf head _ Hxs). assert (n ∈ vs ++ [head]) by (rewrite E2; left). set_solver. }
  rewrite Hnp. simpl.
  step_store; [eauto using ld_prev_is_Some|].
  step_store; [stored_simpl; eauto using ld_next_is_Some|].
  step_store; [by stored_simpl|]. step_store; [by stored_simpl|].
  eexists; split; [done|]. split; [|by intros x; stored_simpl].
  eapply (link_spec h h3 Q head us vs l1 p n l2); [done|done|done|exact E1|exact E2| |];
    intros x; stored_simpl; by repeat case_decide; subst.
Qed.

(** ** Fuel *)

Lemma chain_next h l x y : chain h (l ++ [y]) → x ∈ l → is_Some (h !! x).
Proof.
  induction l as [|z l IH]; [by intros _ ?%not_elem_of_nil|]. simpl.
  intros Hc [->|Hx]%elem_of_cons.
  - destruct l as [|w l]; simpl in Hc; destruct Hc as [[Hn _] _]; by eapply ld_next_is_Some.
  - destruct l as [|w l]; [by apply not_elem_of_nil in Hx|]. apply IH; [apply Hc|done].
Qed.

Lemma queue_nodes h head xs x : is_queue h head xs → x ∈ head :: xs → is_Some (h !! x).
Proof. intros [_ Hc] Hx. by apply (chain_next h (head :: xs) x head). Qed.

(** The nodes of a queue are at most the nodes of the heap: [size h] is enough
    fuel for a traversal. *)
Lemma queue_length h head xs : is_queue h head xs → (length xs < size h)%nat.
Proof.
  intros HQ. pose proof HQ as [Hnd _].
  assert (list_to_set (head :: xs) ⊆ dom h) as Hsub.
  { intros x Hx%elem_of_list_to_set. apply elem_of_dom. by eapply queue_nodes. }
  apply subseteq_size in Hsub. rewrite size_list_to_set, size_dom in Hsub by done.
  simpl in Hsub. lia.
Qed.
End KList.
