(* ===== verification/Pgtable.v ===== *)
(** arch/riscv/include/pgtable.h: Sv39 addresses and page-table entries, over
    a word-addressed physical memory seen through the kernel's linear map.

    The code of the memory manager reads and writes memory only as aligned
    64-bit words (page-table entries, free-list links) or as whole pages
    ([memset] to 0, [memcpy] of a page, disk transfers), so a memory is a
    function from 8-aligned kernel virtual addresses to 64-bit words. *)
From S2P Require Import Prelude.

Definition PAGE_SIZE : Z := 4096.
Definition NORMAL_PAGE_SHIFT : Z := 12.
Definition LARGE_PAGE_SHIFT : Z := 21.
Definition LARGE_PAGE_SIZE : Z := 2 ^ 21.
Definition PPN_BITS : Z := 9.
Definition NUM_PTE_ENTRY : nat := 512.
Definition KVA_PA_OFFSET : Z := 0xffffffc000000000.
Definition PGDIR_PA : Z := 0x51000000.

Definition PAGE_PRESENT : Z := 1.
Definition PAGE_READ : Z := 2.
Definition PAGE_WRITE : Z := 4.
Definition PAGE_EXEC : Z := 8.
Definition PAGE_USER : Z := 16.
Definition PAGE_GLOBAL : Z := 32.
Definition PAGE_ACCESSED : Z := 64.
Definition PAGE_DIRTY : Z := 128.
Definition PAGE_SWAP : Z := 256.
Definition PAGE_SHM : Z := 512.
Definition PAGE_PFN_SHIFT : Z := 10.
Definition FLAGS_MASK : Z := 2 ^ 10 - 1.

Definition GET_VPN2 (va : Z) : Z := Z.land (Z.shiftr va 30) 0x1ff.
Definition GET_VPN1 (va : Z) : Z := Z.land (Z.shiftr va 21) 0x1ff.
Definition GET_VPN0 (va : Z) : Z := Z.land (Z.shiftr va 12) 0x1ff.

Definition kva2pa (kva : Z) : Z := (kva -64 KVA_PA_OFFSET)%cint.
Definition pa2kva (pa : Z) : Z := (pa +64 KVA_PA_OFFSET)%cint.

Definition get_pa (entry : Z) : Z :=
  u64 (Z.shiftl (Z.shiftr entry PAGE_PFN_SHIFT) NORMAL_PAGE_SHIFT).
Definition get_pfn (entry : Z) : Z := Z.shiftr entry PAGE_PFN_SHIFT.
Definition set_pfn (entry pfn : Z) : Z :=
  let flags := Z.land entry (2 ^ PAGE_PFN_SHIFT - 1) in
  Z.lor (u64 (Z.shiftl pfn PAGE_PFN_SHIFT)) flags.
Definition get_attribute (entry mask : Z) : Z := Z.land entry mask.
Definition set_attribute (entry bits : Z) : Z :=
  Z.lor (Z.land entry (u64 (Z.lnot (2 ^ PAGE_PFN_SHIFT - 1)))) bits.

(** [entry & _PAGE_PRESENT] *)
Definition present (entry : Z) : bool := negb (Z.land entry PAGE_PRESENT =? 0).

Definition mem := Z → Z.
Implicit Types (m : mem) (va pa kva entry : Z).

Definition store m (a v : Z) : mem := λ x, if decide (x = a) then v else m x.

(** [x] is a word of the page at [p] *)
Definition in_page (p x : Z) : Prop := p ≤ x < p + PAGE_SIZE.
#[export] Instance in_page_dec p x : Decision (in_page p x).
Proof. unfold in_page. apply _. Defined.

(** [memset(p, 0, PAGE_SIZE)], and [clear_pgdir(p)] *)
Definition zero_page m (p : Z) : mem := λ x, if decide (in_page p x) then 0 else m x.
Definition clear_pgdir m (pgdir_addr : Z) : mem := zero_page m pgdir_addr.

(** [memcpy(dst, src, PAGE_SIZE)] of two pages *)
Definition copy_page m (dst src : Z) : mem :=
  λ x, if decide (in_page dst x) then m (x - dst + src) else m x.

(** [&table[i]] *)
Definition entry_addr (table i : Z) : Z := table + 8 * i.

Definition get_pte m va (pgdir_kva : Z) : option Z :=
  let vpn2 := GET_VPN2 va in
  let vpn1 := GET_VPN1 va in
  let vpn0 := GET_VPN0 va in
  let e2 := m (entry_addr pgdir_kva vpn2) in
  if negb (present e2) then None else
  let pmd := pa2kva (get_pa e2) in
  let e1 := m (entry_addr pmd vpn1) in
  if negb (present e1) then None else
  let pte := pa2kva (get_pa e1) in
  Some (entry_addr pte vpn0).

(** ** Arithmetic of the accessors *)

Lemma GET_VPN2_eq va : GET_VPN2 va = va / 2 ^ 30 mod 2 ^ 9.
Proof. unfold GET_VPN2. rewrite Z.shiftr_div_pow2 by done. by apply (land_low 9). Qed.
Lemma GET_VPN1_eq va : GET_VPN1 va = va / 2 ^ 21 mod 2 ^ 9.
Proof. unfold GET_VPN1. rewrite Z.shiftr_div_pow2 by done. by apply (land_low 9). Qed.
Lemma GET_VPN0_eq va : GET_VPN0 va = va / 2 ^ 12 mod 2 ^ 9.
Proof. unfold GET_VPN0. rewrite Z.shiftr_div_pow2 by done. by apply (land_low 9). Qed.

Lemma GET_VPN2_range va : 0 ≤ GET_VPN2 va < 512.
Proof. rewrite GET_VPN2_eq. by apply Z.mod_pos_bound. Qed.
Lemma GET_VPN1_range va : 0 ≤ GET_VPN1 va < 512.
Proof. rewrite GET_VPN1_eq. by apply Z.mod_pos_bound. Qed.
Lemma GET_VPN0_range va : 0 ≤ GET_VPN0 va < 512.
Proof. rewrite GET_VPN0_eq. by apply Z.mod_pos_bound. Qed.
#[export] Hint Resolve GET_VPN2_range GET_VPN1_range GET_VPN0_range : cint.

(** User addresses are those of the lower half: [va <= USER_MAX_VA]. *)
Definition user_va va : Prop := 0 ≤ va < 2 ^ 38.

Lemma GET_VPN2_user va : user_va va → 0 ≤ GET_VPN2 va < 256.
Proof.
  intros [? ?]. rewrite GET_VPN2_eq. rewrite Z.mod_small.
  - split; [by apply Z.div_pos|]. apply Z.div_lt_upper_bound; [done|]. by simpl in *.
  - split; [by apply Z.div_pos|]. apply Z.div_lt_upper_bound; [done|]. simpl in *. lia.
Qed.

(** The three indices determine the page of a 39-bit address. *)
Lemma vpn_inj va va' :
  0 ≤ va < 2 ^ 39 → 0 ≤ va' < 2 ^ 39 →
  GET_VPN2 va = GET_VPN2 va' → GET_VPN1 va = GET_VPN1 va' → GET_VPN0 va = GET_VPN0 va' →
  va / PAGE_SIZE = va' / PAGE_SIZE.
Proof.
  rewrite !GET_VPN2_eq, !GET_VPN1_eq, !GET_VPN0_eq. unfold PAGE_SIZE.
  simpl. Z.to_euclidean_division_equations. lia.
Qed.

(** A kernel address of the linear map, and the page frame numbers of Sv39. *)
Definition kva_ok kva : Prop := KVA_PA_OFFSET ≤ kva < 2 ^ 64.
Definition aligned kva : Prop := kva mod PAGE_SIZE = 0.
#[export] Instance aligned_dec kva : Decision (aligned kva).
Proof. unfold aligned. apply _. Defined.

Lemma kva2pa_eq kva : kva_ok kva → kva2pa kva = kva - KVA_PA_OFFSET.
Proof. unfold kva_ok, kva2pa, KVA_PA_OFFSET. intros. apply u64_id. simpl in *. lia. Qed.

Lemma pa2kva_eq pa : 0 ≤ pa < 2 ^ 38 → pa2kva pa = pa + KVA_PA_OFFSET.
Proof. unfold pa2kva, KVA_PA_OFFSET. intros. apply u64_id. simpl in *. lia. Qed.

Lemma pa2kva_kva2pa kva : kva_ok kva → pa2kva (kva2pa kva) = kva.
Proof.
  intros H. rewrite kva2pa_eq by done. rewrite pa2kva_eq; [lia|].
  unfold kva_ok, KVA_PA_OFFSET in *. simpl in *. lia.
Qed.

Lemma kva2pa_pa2kva pa : 0 ≤ pa < 2 ^ 38 → kva2pa (pa2kva pa) = pa.
Proof.
  intros H. rewrite pa2kva_eq by done. rewrite kva2pa_eq; [lia|].
  unfold kva_ok, KVA_PA_OFFSET in *. simpl in *. lia.
Qed.

(** The entry with page frame number [pfn] and flag bits [fl]. *)
Definition mk_pte (pfn fl : Z) : Z := pfn * 2 ^ 10 + fl.

Lemma set_pfn_eq entry pfn : 0 ≤ entry → 0 ≤ pfn < 2 ^ 54 →
  set_pfn entry pfn = mk_pte pfn (entry mod 2 ^ 10).
Proof.
  intros He Hp. unfold set_pfn, mk_pte, PAGE_PFN_SHIFT.
  rewrite (land_low 10) by done. rewrite u64_id.
  - apply lor_shiftl_add; [done|]. by apply Z.mod_pos_bound.
  - rewrite Z.shiftl_mul_pow2 by done. simpl in *. lia.
Qed.

Lemma land_high_flags entry : 0 ≤ entry < 2 ^ 64 →
  Z.land entry (u64 (Z.lnot (2 ^ PAGE_PFN_SHIFT - 1))) = Z.shiftl (entry / 2 ^ 10) 10.
Proof.
  intros He. unfold PAGE_PFN_SHIFT, u64. rewrite <- Z.land_ones by done.
  rewrite <- Z.shiftr_div_pow2 by done.
  apply Z.bits_inj'. intros i Hi.
  rewrite !Z.land_spec, Z.shiftl_spec by done.
  change (2 ^ 10 - 1) with (Z.ones 10). rewrite Z.lnot_spec by done.
  destruct (decide (i < 10)).
  - rewrite Z.ones_spec_low by lia. rewrite (Z.testbit_neg_r _ (i - 10)) by lia.
    simpl. by rewrite andb_false_r.
  - rewrite Z.ones_spec_high by lia. rewrite Z.shiftr_spec by lia.
    replace (i - 10 + 10) with i by lia. simpl. destruct (decide (i < 64)).
    + rewrite Z.ones_spec_low by lia. apply andb_true_r.
    + rewrite Z.ones_spec_high by lia. rewrite andb_false_r. symmetry.
      apply (testbit_high 64); lia.
Qed.

Lemma set_attribute_eq entry bits : 0 ≤ entry < 2 ^ 64 → 0 ≤ bits < 2 ^ 10 →
  set_attribute entry bits = mk_pte (entry / 2 ^ 10) bits.
Proof.
  intros. unfold set_attribute, mk_pte. rewrite land_high_flags by done.
  by apply lor_shiftl_add.
Qed.

Lemma get_pa_mk_pte pfn fl : 0 ≤ pfn < 2 ^ 52 → 0 ≤ fl < 2 ^ 10 →
  get_pa (mk_pte pfn fl) = pfn * PAGE_SIZE.
Proof.
  intros. unfold get_pa, mk_pte, PAGE_PFN_SHIFT, NORMAL_PAGE_SHIFT, PAGE_SIZE.
  rewrite Z.shiftr_div_pow2, div_mul_add_low, Z.shiftl_mul_pow2 by done.
  apply u64_id. simpl in *. lia.
Qed.

Lemma get_attribute_mk_pte pfn fl mask : 0 ≤ fl < 2 ^ 10 → 0 ≤ mask < 2 ^ 10 →
  get_attribute (mk_pte pfn fl) mask = Z.land fl mask.
Proof.
  intros Hf Hm. unfold get_attribute, mk_pte.
  rewrite <- lor_shiftl_add by done. rewrite Z.land_lor_distr_l.
  by rewrite land_disjoint.
Qed.

Lemma present_mk_pte pfn fl : 0 ≤ fl < 2 ^ 10 → present (mk_pte pfn fl) = present fl.
Proof.
  intros. unfold present. by rewrite <- (get_attribute_mk_pte pfn fl PAGE_PRESENT).
Qed.

(** A freshly written entry: [set_pfn] followed by [set_attribute]. *)
Lemma set_entry_eq entry pfn bits :
  0 ≤ entry < 2 ^ 64 → 0 ≤ pfn < 2 ^ 54 → 0 ≤ bits < 2 ^ 10 →
  set_attribute (set_pfn entry pfn) bits = mk_pte pfn bits.
Proof.
  intros He Hp Hb. rewrite set_pfn_eq by lia.
  assert (0 ≤ entry mod 2 ^ 10 < 2 ^ 10) by (by apply Z.mod_pos_bound).
  rewrite set_attribute_eq; [|unfold mk_pte; lia|done].
  unfold mk_pte. by rewrite div_mul_add_low.
Qed.

Lemma mk_pte_range pfn fl : 0 ≤ pfn < 2 ^ 54 → 0 ≤ fl < 2 ^ 10 → 0 ≤ mk_pte pfn fl < 2 ^ 64.
Proof. unfold mk_pte. simpl. lia. Qed.

(** ** Memory *)

Lemma store_eq m a v : store m a v a = v.
Proof. unfold store. by rewrite decide_True. Qed.

Lemma store_ne m a v x : x ≠ a → store m a v x = m x.
Proof. intros. unfold store. by rewrite decide_False. Qed.

Lemma zero_page_in m p x : in_page p x → zero_page m p x = 0.
Proof. intros. unfold zero_page. by rewrite decide_True. Qed.

Lemma zero_page_out m p x : ¬ in_page p x → zero_page m p x = m x.
Proof. intros. unfold zero_page. by rewrite decide_False. Qed.
