(* ===== verification/Boot.v ===== *)
(** arch/riscv/kernel/boot.c: the page tables the kernel starts with, and
    clean_temp_map of init/main.c, which takes the identity map away.

    Memory is physical here, a function from the addresses of 64-bit words;
    before satp is written the code uses physical addresses, afterwards it
    reaches the tables through the linear map. *)
From S2P Require Import Prelude KMonad Pgtable.

Definition SATP_MODE_SV39 : Z := 8.
Definition VA_MASK : Z := 2 ^ 39 - 1.
Definition KERNEL_PAGE_FLAGS : Z :=
  Z.lor PAGE_PRESENT (Z.lor PAGE_READ (Z.lor PAGE_WRITE (Z.lor PAGE_EXEC (Z.lor PAGE_ACCESSED PAGE_DIRTY)))).

(** [pg_base] is the static variable of [alloc_page], [satp] the register. *)
Record boot_state := mk_boot { bt_mem : mem; pg_base : Z; satp : Z }.
Definition bt_upd_mem (f : mem → mem) (s : boot_state) : boot_state := mk_boot (f (bt_mem s)) (pg_base s) (satp s).
Definition bt_upd_base (v : Z) (s : boot_state) : boot_state := mk_boot (bt_mem s) v (satp s).
Definition bt_upd_satp (v : Z) (s : boot_state) : boot_state := mk_boot (bt_mem s) (pg_base s) v.

Definition set_satp (mode asid ppn : Z) : M boot_state unit :=
  modify (bt_upd_satp (Z.lor (Z.lor (u64 (Z.shiftl mode 60)) (u64 (Z.shiftl asid 44))) ppn)).

(** A change of the entry at [a]. *)
Definition upd_entry (a : Z) (f : Z → Z) : M boot_state unit :=
  modify (bt_upd_mem (λ m, store m a (f (m a)))).

Definition alloc_page : M boot_state Z :=
  s ← get;
  modify (bt_upd_base (u64 (pg_base s + 0x1000)));;
  gets pg_base.

(** The table for the root entry [k] is there, or is made. *)
Definition ensure_pmd (pgdir k : Z) : M boot_state unit :=
  e ← gets (λ s, bt_mem s (entry_addr pgdir k));
  if e =? 0 then
    p ← alloc_page;
    upd_entry (entry_addr pgdir k) (λ e, set_pfn e (Z.shiftr p NORMAL_PAGE_SHIFT));;
    upd_entry (entry_addr pgdir k) (λ e, set_attribute e PAGE_PRESENT);;
    modify (bt_upd_mem (λ m, clear_pgdir m (get_pa (m (entry_addr pgdir k)))))
  else mret ().

Definition map_page (va pa pgdir : Z) : M boot_state unit :=
  let va := Z.land va VA_MASK in
  let vpn2 := Z.shiftr va (NORMAL_PAGE_SHIFT + PPN_BITS + PPN_BITS) in
  let vpn1 := Z.lxor (Z.shiftl vpn2 PPN_BITS) (Z.shiftr va (NORMAL_PAGE_SHIFT + PPN_BITS)) in
  ensure_pmd pgdir vpn2;;
  pmd ← gets (λ s, get_pa (bt_mem s (entry_addr pgdir vpn2)));
  upd_entry (entry_addr pmd vpn1) (λ e, set_pfn e (Z.shiftr pa NORMAL_PAGE_SHIFT));;
  upd_entry (entry_addr pmd vpn1) (λ e, set_attribute e KERNEL_PAGE_FLAGS).

Definition enable_vm : M boot_state unit :=
  set_satp SATP_MODE_SV39 0 (Z.shiftr PGDIR_PA NORMAL_PAGE_SHIFT).

Definition KERNEL_START : Z := 0xffffffc050000000.
Definition KERNEL_END : Z := 0xffffffc060000000.
Definition IDENTITY_START : Z := 0x50000000.
Definition IDENTITY_END : Z := 0x51000000.

(** The number of rounds of [for (a = lo; a < hi; a += 0x200000)]. *)
Definition large_pages (lo hi : Z) : nat := Z.to_nat ((hi - lo + LARGE_PAGE_SIZE - 1) / LARGE_PAGE_SIZE).

Definition setup_vm : M boot_state unit :=
  modify (bt_upd_mem (λ m, clear_pgdir m PGDIR_PA));;
  for_ 0 (large_pages KERNEL_START KERNEL_END) (λ i,
    let kva := KERNEL_START + Z.of_nat i * 0x200000 in map_page kva (kva2pa kva) PGDIR_PA);;
  for_ 0 (large_pages IDENTITY_START IDENTITY_END) (λ i,
    let pa := IDENTITY_START + Z.of_nat i * 0x200000 in map_page pa pa PGDIR_PA);;
  enable_vm.

(** The address that the kernel is entered at. *)
Definition boot_kernel (_start mhartid : Z) : M boot_state Z :=
  (if mhartid =? 0 then setup_vm else enable_vm);;
  mret (pa2kva _start).

(** [pgd[1] = 0], with [pgd] the kernel address of the root table. *)
Definition clean_temp_map : M boot_state unit :=
  let pgd := pa2kva PGDIR_PA in
  upd_entry (kva2pa (entry_addr pgd 1)) (λ _, 0).

(** ** The translation of addresses *)

(** A leaf of the table can be read or executed. *)
Definition is_leaf (e : Z) : bool := negb (Z.land e (Z.lor PAGE_READ PAGE_EXEC) =? 0).

(** The walk of Sv39 over the tables: the physical address, if any. *)
Definition sv39 (m : mem) (root va : Z) : option Z :=
  let e2 := m (entry_addr root (GET_VPN2 va)) in
  if negb (present e2) then None
  else if is_leaf e2 then Some (get_pa e2 + va mod 2 ^ 30)
  else
    let e1 := m (entry_addr (get_pa e2) (GET_VPN1 va)) in
    if negb (present e1) then None
    else if is_leaf e1 then Some (get_pa e1 + va mod 2 ^ 21)
    else
      let e0 := m (entry_addr (get_pa e1) (GET_VPN0 va)) in
      if negb (present e0) then None else Some (get_pa e0 + va mod 2 ^ 12).

(** The bits above 39 repeat bit 38; another address is not translated. *)
Definition canonical (va : Z) : Prop := 0 ≤ va < 2 ^ 38 ∨ 2 ^ 64 - 2 ^ 38 ≤ va < 2 ^ 64.

(** [T] gives the table behind each entry of the root, [F] the large pages. *)
Record boot_inv (s : boot_state) (T : gmap Z Z) (F : Z → Z → option Z) : Prop := {
  bi_root k : 0 ≤ k < 512 →
    bt_mem s (entry_addr PGDIR_PA k) = match T !! k with Some q => mk_pte (q / PAGE_SIZE) PAGE_PRESENT | None => 0 end;
  bi_table k q : T !! k = Some q → ∃ n, q = PGDIR_PA + PAGE_SIZE * n ∧ 1 ≤ n ∧ q ≤ pg_base s;
  bi_inj k k' q : T !! k = Some q → T !! k' = Some q → k = k';
  bi_entry k q j : T !! k = Some q → 0 ≤ j < 512 →
    bt_mem s (entry_addr q j) = match F k j with Some pa => mk_pte (pa / PAGE_SIZE) KERNEL_PAGE_FLAGS | None => 0 end;
  bi_page k j pa : F k j = Some pa → is_Some (T !! k) ∧ 0 ≤ pa < 2 ^ 38 ∧ pa mod PAGE_SIZE = 0;
  bi_base : pg_base s = PGDIR_PA + PAGE_SIZE * Z.of_nat (size T)
}.

(** What the walk sees of it. *)
Record boot_view (m : mem) (T : gmap Z Z) (F : Z → Z → option Z) : Prop := {
  bv_root k : 0 ≤ k < 512 →
    m (entry_addr PGDIR_PA k) = match T !! k with Some q => mk_pte (q / PAGE_SIZE) PAGE_PRESENT | None => 0 end;
  bv_table k q : T !! k = Some q → ∃ n, q = PGDIR_PA + PAGE_SIZE * n ∧ 1 ≤ n ≤ 1000;
  bv_entry k q j : T !! k = Some q → 0 ≤ j < 512 →
    m (entry_addr q j) = match F k j with Some pa => mk_pte (pa / PAGE_SIZE) KERNEL_PAGE_FLAGS | None => 0 end;
  bv_page k j pa : F k j = Some pa → is_Some (T !! k) ∧ 0 ≤ pa < 2 ^ 38 ∧ pa mod PAGE_SIZE = 0
}.

Lemma boot_inv_view s T F : boot_inv s T F → (size T ≤ 1000)%nat → boot_view (bt_mem s) T F.
Proof.
  intros [H1 H2 _ H4 H5 H6] Hsz. split; [done| |done|done].
  intros k q Hq. destruct (H2 _ _ Hq) as (n & -> & Hn & Hle). exists n. split; [done|].
  rewrite H6 in Hle. unfold PAGE_SIZE in Hle. lia.
Qed.

Lemma sv39_view m T F va : boot_view m T F →
  sv39 m PGDIR_PA va = (λ pa, pa + va mod 2 ^ 21) <$> F (GET_VPN2 va) (GET_VPN1 va).
Proof.
  intros HI. pose proof (GET_VPN2_range va) as H2. pose proof (GET_VPN1_range va) as H1. unfold sv39.
  rewrite (bv_root _ _ _ HI) by done. destruct (T !! GET_VPN2 va) as [q|] eqn:HT.
  - destruct (bv_table _ _ _ HI _ _ HT) as (n & -> & Hn).
    assert (Hd : (PGDIR_PA + PAGE_SIZE * n) / PAGE_SIZE = PGDIR_PA / PAGE_SIZE + n).
    { unfold PAGE_SIZE. rewrite Z.mul_comm, Z.div_add by done. done. }
    rewrite Hd, present_mk_pte by done. cbn [negb present].
    assert (Hl : is_leaf (mk_pte (PGDIR_PA / PAGE_SIZE + n) PAGE_PRESENT) = false).
    { unfold is_leaf. change (Z.land ?a ?b) with (get_attribute a b). by rewrite get_attribute_mk_pte. }
    rewrite Hl, get_pa_mk_pte; [|change (PGDIR_PA / PAGE_SIZE) with 331776; lia|done].
    replace ((PGDIR_PA / PAGE_SIZE + n) * PAGE_SIZE) with (PGDIR_PA + PAGE_SIZE * n) by (change (PGDIR_PA / PAGE_SIZE) with 331776; unfold PAGE_SIZE, PGDIR_PA; lia).
    rewrite (bv_entry _ _ _ HI _ _ _ HT) by done. destruct (F _ _) as [pa|] eqn:HF; [|done].
    destruct (bv_page _ _ _ HI _ _ _ HF) as (_ & Hpa & Hal). rewrite present_mk_pte by done. cbn [negb present].
    assert (Hl1 : is_leaf (mk_pte (pa / PAGE_SIZE) KERNEL_PAGE_FLAGS) = true).
    { unfold is_leaf. change (Z.land ?a ?b) with (get_attribute a b). by rewrite get_attribute_mk_pte. }
    pose proof (Z.div_mod pa PAGE_SIZE ltac:(done)) as Hdm. rewrite Hal, Z.add_0_r in Hdm. clear Hal.
    rewrite Hl1, get_pa_mk_pte; [|unfold PAGE_SIZE in *; lia|done]. cbn. do 2 f_equal. lia.
  - destruct (F _ _) as [pa|] eqn:HF; [|done]. destruct (bv_page _ _ _ HI _ _ _ HF) as ([q Hq] & _). congruence.
Qed.

(** ** One large page *)

Lemma boot_vpn2 va : Z.shiftr (Z.land va VA_MASK) (NORMAL_PAGE_SHIFT + PPN_BITS + PPN_BITS) = GET_VPN2 va.
Proof.
  rewrite GET_VPN2_eq. unfold VA_MASK, NORMAL_PAGE_SHIFT, PPN_BITS. rewrite (land_low 39), Z.shiftr_div_pow2 by done.
  change (12 + 9 + 9) with 30. change (2 ^ 39) with (2 ^ 30 * 2 ^ 9). rewrite Z.rem_mul_r by done.
  rewrite Z.mul_comm, Z.div_add by done. rewrite Z.div_small by (by apply Z.mod_pos_bound). done.
Qed.

Lemma boot_vpn1 va :
  Z.lxor (Z.shiftl (Z.shiftr (Z.land va VA_MASK) (NORMAL_PAGE_SHIFT + PPN_BITS + PPN_BITS)) PPN_BITS)
         (Z.shiftr (Z.land va VA_MASK) (NORMAL_PAGE_SHIFT + PPN_BITS)) = GET_VPN1 va.
Proof.
  rewrite boot_vpn2. pose proof (GET_VPN1_range va) as H1.
  assert (Hb : Z.shiftr (Z.land va VA_MASK) (NORMAL_PAGE_SHIFT + PPN_BITS) = Z.lor (Z.shiftl (GET_VPN2 va) 9) (GET_VPN1 va)).
  { rewrite lor_shiftl_add by done. rewrite GET_VPN1_eq, GET_VPN2_eq. unfold VA_MASK, NORMAL_PAGE_SHIFT, PPN_BITS.
    rewrite (land_low 39), Z.shiftr_div_pow2 by done. change (12 + 9) with 21. 
    pose proof (Z.div_mod va (2 ^ 39) ltac:(done)). pose proof (Z.mod_pos_bound va (2 ^ 39) ltac:(done)).
    Z.to_euclidean_division_equations. lia. }
  rewrite Hb. unfold PPN_BITS. rewrite <- Z.lxor_lor by (apply land_disjoint; lia).
  by rewrite <- Z.lxor_assoc, Z.lxor_nilpotent, Z.lxor_0_l.
Qed.

(** Entries of different tables, and different entries of one. *)
Lemma entry_addr_inj n n' j j' :
  0 ≤ j < 512 → 0 ≤ j' < 512 →
  entry_addr (PGDIR_PA + PAGE_SIZE * n) j = entry_addr (PGDIR_PA + PAGE_SIZE * n') j' → n = n' ∧ j = j'.
Proof. unfold entry_addr, PAGE_SIZE. lia. Qed.

Lemma entry_in_page n n' j : 0 ≤ j < 512 →
  in_page (PGDIR_PA + PAGE_SIZE * n) (entry_addr (PGDIR_PA + PAGE_SIZE * n') j) ↔ n = n'.
Proof. unfold in_page, entry_addr, PAGE_SIZE. lia. Qed.

(** [pgdir + 8 * k] counts from table number 0. *)
Lemma root_addr k : entry_addr PGDIR_PA k = entry_addr (PGDIR_PA + PAGE_SIZE * 0) k.
Proof. unfold entry_addr. lia. Qed.

Lemma table_of_entry n : 0 ≤ n ≤ 2000 →
  get_pa (mk_pte ((PGDIR_PA + PAGE_SIZE * n) / PAGE_SIZE) PAGE_PRESENT) = PGDIR_PA + PAGE_SIZE * n ∧
  mk_pte ((PGDIR_PA + PAGE_SIZE * n) / PAGE_SIZE) PAGE_PRESENT ≠ 0.
Proof.
  intros Hn. assert (Hd : (PGDIR_PA + PAGE_SIZE * n) / PAGE_SIZE = 331776 + n).
  { unfold PAGE_SIZE. rewrite Z.mul_comm, Z.div_add by done. done. }
  rewrite Hd, get_pa_mk_pte by (done || lia). unfold mk_pte, PAGE_PRESENT, PAGE_SIZE, PGDIR_PA. lia.
Qed.

Lemma new_entry pa fl : 0 ≤ pa < 2 ^ 38 → 0 ≤ fl < 2 ^ 10 →
  set_attribute (set_pfn 0 (Z.shiftr pa NORMAL_PAGE_SHIFT)) fl = mk_pte (pa / PAGE_SIZE) fl.
Proof.
  intros Hpa Hfl. unfold NORMAL_PAGE_SHIFT. rewrite Z.shiftr_div_pow2 by done. change (2 ^ 12) with PAGE_SIZE.
  apply set_entry_eq; [done| |done]. unfold PAGE_SIZE. split; [by apply Z.div_pos; [lia|]|].
  apply Z.div_lt_upper_bound; [done|]. lia.
Qed.

(** Two changes of one entry. *)
Lemma store_twice m a v w x : store (store m a v) a w x = store m a w x.
Proof. unfold store. by case_decide. Qed.

Lemma alloc_page_ok s n : pg_base s = PGDIR_PA + PAGE_SIZE * n → 0 ≤ n ≤ 1000 →
  alloc_page s = Ok (PGDIR_PA + PAGE_SIZE * (n + 1)) (bt_upd_base (PGDIR_PA + PAGE_SIZE * (n + 1)) s).
Proof.
  intros Hb Hn. unfold alloc_page. rewrite bind_get, bind_modify. unfold gets. cbn [pg_base bt_upd_base].
  rewrite Hb, u64_id by (unfold PAGE_SIZE, PGDIR_PA; lia).
  by replace (PGDIR_PA + PAGE_SIZE * n + 0x1000) with (PGDIR_PA + PAGE_SIZE * (n + 1)) by (unfold PAGE_SIZE; lia).
Qed.

Lemma ensure_pmd_ok s T F k :
  boot_inv s T F → (size T ≤ 999)%nat → 0 ≤ k < 512 →
  ∃ s' T' n, ensure_pmd PGDIR_PA k s = Ok () s' ∧ satp s' = satp s ∧ boot_inv s' T' F ∧ (size T' ≤ S (size T))%nat ∧
    T' !! k = Some (PGDIR_PA + PAGE_SIZE * n) ∧ 1 ≤ n ≤ 1000.
Proof.
  intros HI Hsz Hk. unfold ensure_pmd. rewrite bind_gets, (bi_root _ _ _ HI) by done. destruct (T !! k) as [q|] eqn:HT.
  { destruct (bi_table _ _ _ HI _ _ HT) as (n & -> & Hn & Hq). rewrite (bi_base _ _ _ HI) in Hq.
    assert (n ≤ 1000) by (unfold PAGE_SIZE in Hq; lia). destruct (table_of_entry n) as [_ Hnz]; [lia|].
    destruct (Z.eqb_spec (mk_pte ((PGDIR_PA + PAGE_SIZE * n) / PAGE_SIZE) PAGE_PRESENT) 0); [done|].
    exists s, T, n. split; [done|]. split; [done|]. split; [done|]. split; [lia|]. split; [done|lia]. }
  change (0 =? 0) with true. cbv iota. set (n := Z.of_nat (size T)). pose proof (bi_base _ _ _ HI) as Hb. fold n in Hb.
  rewrite (bind_ok _ _ _ _ _ (alloc_page_ok s n Hb ltac:(lia))).
  unfold upd_entry. rewrite !bind_modify. set (q := PGDIR_PA + PAGE_SIZE * (n + 1)).
  assert (Hpte : set_attribute (set_pfn 0 (Z.shiftr q NORMAL_PAGE_SHIFT)) PAGE_PRESENT = mk_pte (q / PAGE_SIZE) PAGE_PRESENT).
  { apply new_entry; [unfold q, PAGE_SIZE, PGDIR_PA; lia|done]. }
  destruct (table_of_entry (n + 1) ltac:(lia)) as [Hga _]. fold q in Hga.
  assert (Hold : bt_mem s (entry_addr PGDIR_PA k) = 0) by (by rewrite (bi_root _ _ _ HI), HT).
  match goal with |- context[modify _ ?x = Ok _ _] => set (s2 := x) end.
  assert (Hm2 : ∀ x, bt_mem s2 x = store (bt_mem s) (entry_addr PGDIR_PA k) (mk_pte (q / PAGE_SIZE) PAGE_PRESENT) x).
  { intros x. unfold s2. cbn [bt_mem bt_upd_mem bt_upd_base]. rewrite store_eq, Hold, Hpte. apply store_twice. }
  eexists _, (<[k:=q]> T), (n + 1). split; [done|]. split; [done|]. split; [|split; [|split; [by rewrite lookup_insert_eq|lia]]].
  2: { rewrite map_size_insert_None by done. lia. }
  assert (Hmem : ∀ x, bt_mem (bt_upd_mem (λ m, clear_pgdir m (get_pa (m (entry_addr PGDIR_PA k)))) s2) x
    = if decide (in_page q x) then 0 else store (bt_mem s) (entry_addr PGDIR_PA k) (mk_pte (q / PAGE_SIZE) PAGE_PRESENT) x).
  { intros x. cbn [bt_mem bt_upd_mem]. unfold clear_pgdir, zero_page. rewrite !Hm2, store_eq, Hga. done. }
  assert (Htab : ∀ k' q', T !! k' = Some q' → ∃ n', q' = PGDIR_PA + PAGE_SIZE * n' ∧ 1 ≤ n' ≤ n).
  { intros k' q' Hq. destruct (bi_table _ _ _ HI _ _ Hq) as (n' & -> & ? & Hle). exists n'. split; [done|].
    rewrite Hb in Hle. unfold PAGE_SIZE in Hle. lia. }
  split.
  - intros k' Hk'. rewrite Hmem, decide_False by (rewrite root_addr; unfold q; rewrite entry_in_page by done; lia).
    destruct (decide (k' = k)) as [->|]; [by rewrite store_eq, lookup_insert_eq|].
    rewrite store_ne, lookup_insert_ne by (done || (unfold entry_addr; lia)). by apply HI.
  - intros k' q'. rewrite lookup_insert_Some. intros [[<- <-]|[_ Hq]]; [exists (n + 1); split; [done|]; split; [lia|done]|].
    destruct (Htab _ _ Hq) as (n' & -> & ?). exists n'. split; [done|]. split; [lia|].
    cbn [pg_base bt_upd_mem bt_upd_base s2]. unfold q, PAGE_SIZE. lia.
  - intros k1 k2 q'. rewrite !lookup_insert_Some. intros [[<- <-]|[_ H1]] [[<- E]|[_ H2]]; try done.
    + destruct (Htab _ _ H2) as (n' & E & ?). unfold q, PAGE_SIZE in E. lia.
    + subst q'. destruct (Htab _ _ H1) as (n' & E & ?). unfold q, PAGE_SIZE in E. lia.
    + by eapply bi_inj.
  - intros k' q' j Hq Hj. rewrite Hmem. apply lookup_insert_Some in Hq as [[<- <-]|[Hne Hq]].
    + unfold q. rewrite decide_True by (by apply entry_in_page).
      destruct (F k j) as [pa|] eqn:HF; [|done]. destruct (bi_page _ _ _ HI _ _ _ HF) as [[? ?] _]. congruence.
    + destruct (Htab _ _ Hq) as (n' & -> & Hn'). unfold q. rewrite decide_False by (rewrite entry_in_page by done; lia).
      rewrite store_ne; [by eapply bi_entry|]. rewrite root_addr. intros [? _]%entry_addr_inj; [lia|done|done].
  - intros k' j pa HF. destruct (bi_page _ _ _ HI _ _ _ HF) as ([q' Hq'] & Hrest). split; [|done].
    rewrite lookup_insert_is_Some. destruct (decide (k = k')); [by left|right; split; [done|by eexists]].
  - cbn [pg_base bt_upd_mem bt_upd_base s2]. rewrite map_size_insert_None by done. unfold q. lia.
Qed.

(** The entry for a large page is written. *)
Lemma write_large_ok s T F F' k n j pa :
  boot_inv s T F → (size T ≤ 1000)%nat → T !! k = Some (PGDIR_PA + PAGE_SIZE * n) → 0 ≤ k < 512 → 0 ≤ j < 512 → F k j = None →
  0 ≤ pa < 2 ^ 38 → pa mod PAGE_SIZE = 0 →
  (∀ k' j', F' k' j' = if decide (k' = k ∧ j' = j) then Some pa else F k' j') →
  let a := entry_addr (PGDIR_PA + PAGE_SIZE * n) j in
  ∃ s', (upd_entry a (λ e, set_pfn e (Z.shiftr pa NORMAL_PAGE_SHIFT));; upd_entry a (λ e, set_attribute e KERNEL_PAGE_FLAGS)) s = Ok () s' ∧
    satp s' = satp s ∧ boot_inv s' T F'.
Proof.
  intros HI Hsz HT Hk Hj HF Hpa Hal HF' a. unfold upd_entry. rewrite bind_modify. eexists. split; [done|]. split; [done|].
  assert (Hold : bt_mem s a = 0) by (unfold a; by rewrite (bi_entry _ _ _ HI _ _ _ HT), HF).
  match goal with |- boot_inv ?x _ _ => set (s2 := x) end.
  assert (Hm2 : ∀ x, bt_mem s2 x = store (bt_mem s) a (mk_pte (pa / PAGE_SIZE) KERNEL_PAGE_FLAGS) x).
  { intros x. unfold s2. cbn [bt_mem bt_upd_mem]. rewrite store_eq, Hold, new_entry by done. apply store_twice. }
  assert (Htab : ∀ k' q', T !! k' = Some q' → ∃ n', q' = PGDIR_PA + PAGE_SIZE * n' ∧ 1 ≤ n').
  { intros k' q' Hq. destruct (bi_table _ _ _ HI _ _ Hq) as (n' & -> & ? & _). by exists n'. }
  destruct (Htab _ _ HT) as (n0 & E & Hn0). assert (n0 = n) as -> by (unfold PAGE_SIZE in E; lia). clear E.
  split; [| |by apply HI| | |by apply HI].
  - intros k' Hk'. rewrite Hm2, store_ne; [by apply HI|]. unfold a. rewrite root_addr. intros [? _]%entry_addr_inj; [lia|done|done].
  - by apply HI.
  - intros k' q' j' Hq Hj'. destruct (Htab _ _ Hq) as (n' & -> & Hn'). rewrite Hm2, HF'. case_decide as E.
    + destruct E as [-> ->]. assert (n' = n) as -> by (rewrite HT in Hq; injection Hq; unfold PAGE_SIZE; lia). apply store_eq.
    + rewrite store_ne; [by apply HI|]. unfold a. intros [-> ->]%entry_addr_inj; [|done|done].
      apply E. split; [|done]. by eapply bi_inj.
  - intros k' j' pa'. rewrite HF'. case_decide as E; [|by apply HI]. destruct E as [-> ->]. intros [= <-].
    split; [by eexists|done].
Qed.

Lemma boot_map_page_ok s T F F' va pa :
  boot_inv s T F → (size T ≤ 999)%nat → F (GET_VPN2 va) (GET_VPN1 va) = None → 0 ≤ pa < 2 ^ 38 → pa mod PAGE_SIZE = 0 →
  (∀ k j, F' k j = if decide (k = GET_VPN2 va ∧ j = GET_VPN1 va) then Some pa else F k j) →
  ∃ s' T', map_page va pa PGDIR_PA s = Ok () s' ∧ satp s' = satp s ∧ boot_inv s' T' F' ∧ (size T' ≤ S (size T))%nat.
Proof.
  intros HI Hsz HF Hpa Hal HF'. pose proof (GET_VPN2_range va) as Hk. pose proof (GET_VPN1_range va) as Hj.
  destruct (ensure_pmd_ok s T F (GET_VPN2 va) HI Hsz Hk) as (s1 & T1 & n & He & Hsatp & HI1 & Hsz1 & HT1 & Hn).
  destruct (write_large_ok s1 T1 F F' (GET_VPN2 va) n (GET_VPN1 va) pa) as (s2 & He2 & Hsatp2 & HI2); try done; [lia|].
  exists s2, T1. split; [|split; [congruence|done]]. unfold map_page. cbv zeta. rewrite boot_vpn1, boot_vpn2.
  rewrite (bind_ok _ _ _ _ _ He), bind_gets, (bi_root _ _ _ HI1), HT1 by done.
  destruct (table_of_entry n ltac:(lia)) as [-> _]. exact He2.
Qed.

(** ** The two loops *)

(** The large pages [lo], [lo + 1], ... of [n] that begin at the address [pa0] behind the root entry [k]. *)
Definition run (k lo n pa0 : Z) (k' j : Z) : option Z :=
  if decide (k' = k ∧ lo ≤ j < lo + n) then Some (pa0 + (j - lo) * 2 ^ 21) else None.
Definition or_else (F G : Z → Z → option Z) (k j : Z) : option Z :=
  match F k j with Some pa => Some pa | None => G k j end.

Lemma boot_inv_ext s T F F' : (∀ k j, F k j = F' k j) → boot_inv s T F → boot_inv s T F'.
Proof.
  intros He [H1 H2 H3 H4 H5 H6]. split; try done.
  - intros k q j Hq Hj. rewrite <- He. by apply H4.
  - intros k j pa. rewrite <- He. apply H5.
Qed.

(** The pages from [va] on that share a second-level table. *)
Lemma vpn_step va i : va mod 2 ^ 21 = 0 → 0 ≤ i → GET_VPN1 va + i < 512 →
  GET_VPN2 (va + i * 0x200000) = GET_VPN2 va ∧ GET_VPN1 (va + i * 0x200000) = GET_VPN1 va + i.
Proof.
  intros Hva Hi. rewrite !GET_VPN1_eq, !GET_VPN2_eq. pose proof (Z.div_mod va (2 ^ 21) ltac:(done)) as Hd.
  rewrite Hva, Z.add_0_r in Hd. rewrite Hd. change 0x200000 with (2 ^ 21). generalize (va / 2 ^ 21). clear - Hi. intros v H.
  replace (2 ^ 21 * v + i * 2 ^ 21) with ((v + i) * 2 ^ 21) by lia. rewrite (Z.mul_comm (2 ^ 21) v) in *.
  change (2 ^ 30) with (2 ^ 21 * 2 ^ 9). rewrite <- !Z.div_div, !Z.div_mul in * by done.
  change (2 ^ 9) with 512 in *. pose proof (Z.div_mod v 512 ltac:(done)) as Hv.
  pose proof (Z.mod_pos_bound v 512 ltac:(done)).
  assert (Hvi : v + i = v / 512 * 512 + (v mod 512 + i)) by lia.
  rewrite Hvi, Z.div_add_l, (Z.div_small (v mod 512 + i)), Z.add_0_r by lia. split; [done|].
  rewrite Z.add_comm, Z.mod_add by done. apply Z.mod_small. lia.
Qed.

Lemma map_run_ok (body : nat → M boot_state unit) va0 pa0 G n s T :
  (∀ i, (i < n)%nat → body i = map_page (va0 + Z.of_nat i * 0x200000) (pa0 + Z.of_nat i * 0x200000) PGDIR_PA) →
  va0 mod 2 ^ 21 = 0 → GET_VPN1 va0 + Z.of_nat n ≤ 512 →
  (∀ j, G (GET_VPN2 va0) j = None) → 0 ≤ pa0 → pa0 + Z.of_nat n * 2 ^ 21 < 2 ^ 38 → pa0 mod PAGE_SIZE = 0 →
  boot_inv s T G → (size T + n ≤ 999)%nat →
  ∃ s' T', for_ 0 n body s = Ok () s' ∧
    satp s' = satp s ∧ boot_inv s' T' (or_else (run (GET_VPN2 va0) (GET_VPN1 va0) (Z.of_nat n) pa0) G) ∧ (size T' ≤ size T + n)%nat.
Proof.
  intros Hb Hva Hn HG Hpa0 Hpa Hal HI Hsz. set (k := GET_VPN2 va0) in *. set (l := GET_VPN1 va0) in *.
  pose proof (wp_for (λ i s', satp s' = satp s ∧ ∃ T', boot_inv s' T' (or_else (run k l (Z.of_nat i) pa0) G) ∧ (size T' ≤ size T + i)%nat)
    0 n body s) as Hfor.
  apply wp_iff in Hfor.
  - destruct Hfor as ([] & s' & He & Hs & T' & HI' & Hsz'). by exists s', T'.
  - split; [done|]. exists T. split; [|lia]. eapply boot_inv_ext; [|exact HI].
    intros k' j. unfold or_else, run. rewrite decide_False by lia. done.
  - intros i s1 Hi (Hs1 & T1 & HI1 & Hsz1). rewrite Hb by lia.
    destruct (vpn_step va0 (Z.of_nat i) Hva ltac:(lia)) as [E2 E1]; [unfold l in Hn; lia|]. fold k in E2. fold l in E1.
    destruct (boot_map_page_ok s1 T1 _ (or_else (run k l (Z.of_nat (S i)) pa0) G) (va0 + Z.of_nat i * 0x200000) (pa0 + Z.of_nat i * 0x200000) HI1)
      as (s2 & T2 & He & Hs2 & HI2 & Hsz2); [lia| |lia| | |].
    + rewrite E2, E1. unfold or_else, run. rewrite decide_False by lia. apply HG.
    + change 0x200000 with (512 * PAGE_SIZE). rewrite Z.mul_assoc, Z.mod_add by done. done.
    + intros k' j. rewrite E2, E1. unfold or_else, run. repeat case_decide; try lia; try done.
      f_equal. lia.
    + rewrite (wp_ok _ _ _ _ _ He). split; [congruence|]. exists T2. split; [done|lia].
Qed.

(** The state [setup_vm] starts from, with the root table cleared. *)
Lemma cleared_root m0 st : boot_inv (bt_upd_mem (λ m, clear_pgdir m PGDIR_PA) (mk_boot m0 PGDIR_PA st)) ∅ (λ _ _, None).
Proof.
  split; try done.
  intros k Hk. cbn [bt_mem bt_upd_mem]. apply zero_page_in. unfold in_page, entry_addr, PAGE_SIZE. lia.
Qed.

(** The large pages of both loops. *)
Definition boot_pages : Z → Z → option Z :=
  or_else (run 1 128 8 IDENTITY_START) (or_else (run 257 128 128 IDENTITY_START) (λ _ _, None)).

Lemma setup_vm_ok m0 st :
  ∃ s' T, setup_vm (mk_boot m0 PGDIR_PA st) = Ok () s' ∧ satp s' = 0x8000000000051000 ∧ boot_inv s' T boot_pages ∧ (size T ≤ 136)%nat.
Proof.
  unfold setup_vm. rewrite bind_modify. pose proof (cleared_root m0 st) as H0.
  set (s0 := bt_upd_mem _ _) in *.
  destruct (map_run_ok (λ i, let kva := KERNEL_START + Z.of_nat i * 0x200000 in map_page kva (kva2pa kva) PGDIR_PA)
    KERNEL_START IDENTITY_START (λ _ _, None) 128 s0 ∅) as (s1 & T1 & He1 & Hs1 & HI1 & Hz1);
    [|done|done|done|done|done|done|exact H0|rewrite map_size_empty; lia|].
  { intros i Hi. cbv zeta. f_equal. unfold KERNEL_START, IDENTITY_START. rewrite kva2pa_eq by (unfold kva_ok, KVA_PA_OFFSET; lia).
    unfold KVA_PA_OFFSET. lia. }
  rewrite map_size_empty in Hz1. change (large_pages KERNEL_START KERNEL_END) with 128%nat. rewrite (bind_ok _ _ _ _ _ He1).
  destruct (map_run_ok (λ i, let pa := IDENTITY_START + Z.of_nat i * 0x200000 in map_page pa pa PGDIR_PA)
    IDENTITY_START IDENTITY_START (or_else (run 257 128 128 IDENTITY_START) (λ _ _, None)) 8 s1 T1) as (s2 & T2 & He2 & Hs2 & HI2 & Hz2);
    [done|done|done|done|done|done|done|exact HI1|lia|].
  change (large_pages IDENTITY_START IDENTITY_END) with 8%nat. rewrite (bind_ok _ _ _ _ _ He2).
  eexists _, T2. split; [done|]. split; [done|]. split; [|lia]. destruct HI2 as [H1 H2 H3 H4 H5 H6]. by split.
Qed.

(** ** The address space of the kernel *)

(** Where the two loops map an address to. *)
Definition boot_target (va : Z) : option Z :=
  if decide (KERNEL_START ≤ va < KERNEL_END) then Some (kva2pa va)
  else if decide (IDENTITY_START ≤ va < IDENTITY_END) then Some va else None.

Lemma large_page_split w : 0 ≤ w → w = 2 ^ 21 * (w / 2 ^ 21) + w mod 2 ^ 21 ∧ 0 ≤ w mod 2 ^ 21 < 2 ^ 21 ∧
  w / 2 ^ 21 = 512 * (w / 2 ^ 30) + w / 2 ^ 21 mod 512 ∧ 0 ≤ w / 2 ^ 21 mod 512 < 512.
Proof.
  intros Hw. split; [by apply Z.div_mod|]. split; [by apply Z.mod_pos_bound|]. split; [|by apply Z.mod_pos_bound].
  change (2 ^ 30) with (2 ^ 21 * 512). rewrite <- Z.div_div by done. by apply Z.div_mod.
Qed.

(** The indices of a canonical address: those of an address [w] of 38 bits in
    one half of the root. *)
Lemma canonical_indices va : canonical va → ∃ h w, (h = 0 ∨ h = 1) ∧ 0 ≤ w < 2 ^ 38 ∧ va = h * (2 ^ 64 - 2 ^ 38) + w ∧
  GET_VPN2 va = 256 * h + w / 2 ^ 30 ∧ GET_VPN1 va = w / 2 ^ 21 mod 512 ∧ va mod 2 ^ 21 = w mod 2 ^ 21.
Proof.
  assert (Hw : ∀ w, 0 ≤ w < 2 ^ 38 → 0 ≤ w / 2 ^ 30 < 256).
  { intros w Hw. split; [apply Z.div_pos; lia|apply Z.div_lt_upper_bound; lia]. }
  rewrite GET_VPN1_eq, GET_VPN2_eq. change (2 ^ 9) with 512. intros [Hva|Hva].
  - exists 0, va. pose proof (Hw va Hva). split; [by left|]. split; [done|]. split; [lia|].
    split; [|done]. rewrite Z.mod_small; lia.
  - set (w := va - (2 ^ 64 - 2 ^ 38)). exists 1, w. assert (Hw' : 0 ≤ w < 2 ^ 38) by (unfold w; lia). pose proof (Hw w Hw').
    assert (Hva' : va = w + (2 ^ 34 - 2 ^ 8) * 2 ^ 30) by (unfold w; lia).
    assert (Hva2 : va = w + (2 ^ 43 - 2 ^ 17) * 2 ^ 21) by (unfold w; lia).
    split; [by right|]. split; [done|]. split; [unfold w; lia|]. split; [|split].
    + rewrite Hva', Z.div_add by done. replace (w / 2 ^ 30 + (2 ^ 34 - 2 ^ 8)) with (256 + w / 2 ^ 30 + (2 ^ 25 - 1) * 512) by lia.
      rewrite Z.mod_add by done. rewrite Z.mod_small; lia.
    + rewrite Hva2, Z.div_add by done. replace (2 ^ 43 - 2 ^ 17) with ((2 ^ 34 - 2 ^ 8) * 512) by done. by apply Z.mod_add.
    + rewrite Hva2. by apply Z.mod_add.
Qed.

Lemma boot_pages_target va : canonical va →
  (λ pa, pa + va mod 2 ^ 21) <$> boot_pages (GET_VPN2 va) (GET_VPN1 va) = boot_target va.
Proof.
  intros Hc. destruct (canonical_indices va Hc) as (h & w & Hh & Hw & -> & -> & -> & ->).
  destruct (large_page_split w ltac:(lia)) as (H1 & H2 & H3 & H4). revert H1 H2 H3 H4.
  generalize (w / 2 ^ 21 mod 512) (w mod 2 ^ 21). generalize (w / 2 ^ 21) (w / 2 ^ 30). intros q a b r H1 H2 H3 H4.
  unfold boot_pages, or_else, run, boot_target, KERNEL_START, KERNEL_END, IDENTITY_START, IDENTITY_END.
  change (2 ^ 64 - 2 ^ 38) with 0xffffffc000000000. change (2 ^ 38) with 0x4000000000 in *. change (2 ^ 21) with 2097152 in *.
  destruct Hh as [-> | ->]; repeat case_decide; cbn [fmap option_fmap option_map]; try done; try lia; try (f_equal; lia).
  rewrite kva2pa_eq by (unfold kva_ok, KVA_PA_OFFSET; lia). unfold KVA_PA_OFFSET. f_equal. lia.
Qed.

(** The tables after [pgd[1] = 0]. *)
Lemma clean_view m T F :
  boot_view m T F → boot_view (store m (entry_addr PGDIR_PA 1) 0) (delete 1 T) (λ k j, if decide (k = 1) then None else F k j).
Proof.
  intros [H1 H2 H3 H4]. split.
  - intros k Hk. destruct (decide (k = 1)) as [->|]; [by rewrite store_eq, lookup_delete_eq|].
    rewrite store_ne, lookup_delete_ne by (done || (unfold entry_addr; lia)). by apply H1.
  - intros k q [_ Hq]%lookup_delete_Some. by apply H2 with k.
  - intros k q j [Hk Hq]%lookup_delete_Some Hj. destruct (H2 _ _ Hq) as (n & -> & Hn).
    rewrite store_ne, decide_False; [by apply H3|done|]. rewrite root_addr. intros [? _]%entry_addr_inj; lia.
  - intros k j pa. case_decide; [done|]. intros HF. destruct (H4 _ _ _ HF) as [HT Hpa]. split; [|done].
    by rewrite lookup_delete_ne.
Qed.

Lemma identity_index va : canonical va → GET_VPN2 va = 1 → ¬ KERNEL_START ≤ va < KERNEL_END.
Proof.
  intros Hc. destruct (canonical_indices va Hc) as (h & w & Hh & Hw & -> & -> & _).
  unfold KERNEL_START. assert (0 ≤ w / 2 ^ 30) by (apply Z.div_pos; lia). lia.
Qed.

(** C4: the first hart enters the kernel with Sv39 on over tables that take
    exactly the addresses 0xffffffc050000000 up to 0xffffffc060000000 to their
    physical addresses, and the physical addresses 0x50000000 up to 0x51000000
    to themselves, so that the code goes on running when the tables are
    switched on and can then jump to the entry point at its kernel address;
    clean_temp_map leaves the kernel's addresses only.  Nothing is asked of
    what memory held before. *)
Theorem boot_kernel_spec m0 satp0 start :
  wp (boot_kernel start 0) (mk_boot m0 PGDIR_PA satp0) (λ entry s1,
    satp s1 = 0x8000000000051000 ∧
    (∀ va, canonical va → sv39 (bt_mem s1) PGDIR_PA va = boot_target va) ∧
    (IDENTITY_START ≤ start < IDENTITY_END →
      sv39 (bt_mem s1) PGDIR_PA start = Some start ∧ sv39 (bt_mem s1) PGDIR_PA entry = Some start) ∧
    wp clean_temp_map s1 (λ _ s2, ∀ va, canonical va →
      sv39 (bt_mem s2) PGDIR_PA va = if decide (KERNEL_START ≤ va < KERNEL_END) then Some (kva2pa va) else None)).
Proof.
  unfold boot_kernel. cbn [Z.eqb]. destruct (setup_vm_ok m0 satp0) as (s1 & T & He & Hs & HI & Hsz).
  rewrite wp_bind, (wp_ok _ _ _ _ _ He), wp_ret. pose proof (boot_inv_view _ _ _ HI ltac:(lia)) as HV.
  assert (Hmap : ∀ va, canonical va → sv39 (bt_mem s1) PGDIR_PA va = boot_target va).
  { intros va Hva. by rewrite (sv39_view _ _ _ _ HV), boot_pages_target. }
  split; [done|]. split; [done|]. split.
  - intros Hst. unfold IDENTITY_START, IDENTITY_END in Hst. rewrite pa2kva_eq by lia.
    rewrite !Hmap by (unfold canonical, KVA_PA_OFFSET; lia). unfold boot_target, KERNEL_START, KERNEL_END, IDENTITY_START, IDENTITY_END.
    rewrite (decide_False (P := _ ≤ start < _)), decide_True by lia. split; [done|].
    rewrite decide_True by (unfold KVA_PA_OFFSET; lia). rewrite kva2pa_eq by (unfold kva_ok, KVA_PA_OFFSET; lia). f_equal. lia.
  - unfold clean_temp_map, upd_entry. rewrite wp_modify. intros va Hva. cbn [bt_mem bt_upd_mem].
    replace (kva2pa (entry_addr (pa2kva PGDIR_PA) 1)) with (entry_addr PGDIR_PA 1) by done.
    rewrite (sv39_view _ _ _ _ (clean_view _ _ _ HV)). pose proof (boot_pages_target va Hva) as Ht. unfold boot_target in Ht.
    cbv beta. destruct (decide (GET_VPN2 va = 1)) as [H1|H1].
    + by rewrite decide_False by by apply identity_index.
    + rewrite Ht. destruct (decide (KERNEL_START ≤ va < KERNEL_END)); [done|].
      destruct (decide (IDENTITY_START ≤ va < IDENTITY_END)) as [H3|]; [|done].
      destruct H1. unfold IDENTITY_START, IDENTITY_END in H3. rewrite GET_VPN2_eq.
      assert (Hq : va / 2 ^ 30 = 1) by (symmetry; apply Z.div_unique with (va - 2 ^ 30); lia). by rewrite Hq.
Qed.
