(* ===== verification/MM.v ===== *)
(** kernel/mm/mm.c: the physical page allocator (a bump pointer and a free
    list threaded through the free pages) and the construction of page tables. *)
From S2P Require Import Prelude KMonad Pgtable.

Definition INIT_KERNEL_STACK : Z := 0xffffffc052000000.
Definition FREEMEM_KERNEL : Z := INIT_KERNEL_STACK + PAGE_SIZE.
Definition MEMORY_SIZE_END : Z := 0xffffffc060000000.
Definition USER_MAX_VA : Z := 0x3FFFFFFFFF.
Definition KERNEL_PTE_INDEX_START : Z := 0x100.

(** [ROUND(a, n)] and [ROUNDDOWN(a, n)] for a power of two [n] *)
Definition ROUND (a n : Z) : Z := Z.land (u64 (u64 a + n - 1)) (u64 (Z.lnot (n - 1))).
Definition ROUNDDOWN (a n : Z) : Z := Z.land (u64 a) (u64 (Z.lnot (n - 1))).

(** The globals of mm.c and the memory they describe. *)
Record mm_state := mk_mm {
  mm_mem : mem;
  kernMemCurr : Z;
  freePageList : Z;
  free_page_list_count : Z
}.

Definition set_mem (f : mem → mem) (s : mm_state) : mm_state :=
  mk_mm (f (mm_mem s)) (kernMemCurr s) (freePageList s) (free_page_list_count s).
Definition set_kernMemCurr (v : Z) (s : mm_state) : mm_state :=
  mk_mm (mm_mem s) v (freePageList s) (free_page_list_count s).
Definition set_freePageList (v : Z) (s : mm_state) : mm_state :=
  mk_mm (mm_mem s) (kernMemCurr s) v (free_page_list_count s).
Definition set_free_count (v : Z) (s : mm_state) : mm_state :=
  mk_mm (mm_mem s) (kernMemCurr s) (freePageList s) v.

Definition load (a : Z) : M mm_state Z := gets (λ s, mm_mem s a).
Definition write (a v : Z) : M mm_state unit := modify (set_mem (λ m, store m a v)).
Definition memset_page (p : Z) : M mm_state unit := modify (set_mem (λ m, zero_page m p)).

Definition allocPage (numPage : Z) : M mm_state Z :=
  s ← get;
  if bool_decide (numPage = 1) && negb (freePageList s =? 0) then
    let ret := freePageList s in
    nxt ← load ret;
    modify (set_freePageList nxt);;
    modify (set_free_count (s32 (free_page_list_count s - 1)));;
    memset_page ret;;
    mret ret
  else
    let ret := ROUND (kernMemCurr s) PAGE_SIZE in
    modify (set_kernMemCurr (u64 (ret + numPage * PAGE_SIZE)));;
    mret ret.

Definition freePage (baseAddr : Z) : M mm_state unit :=
  if baseAddr =? 0 then mret () else
  s ← get;
  write baseAddr (freePageList s);;
  modify (set_freePageList baseAddr);;
  modify (set_free_count (s32 (free_page_list_count s + 1))).

Definition share_pgtable (dest_pgdir src_pgdir : Z) : M mm_state unit :=
  modify (set_mem (λ m, copy_page m dest_pgdir src_pgdir)).

Definition get_free_memory : M mm_state Z :=
  s ← get;
  let total_free := if kernMemCurr s <? MEMORY_SIZE_END
                    then u64 (MEMORY_SIZE_END - kernMemCurr s) else 0 in
  mret (total_free + s32 (free_page_list_count s * PAGE_SIZE)).

(** The block that [map_page] and [map_page_kernel] repeat: the table of the
    entry [table[vpn]], allocated and cleared when the entry is not present. *)
Definition ensure_table (table vpn : Z) : M mm_state Z :=
  e ← load (entry_addr table vpn);
  (if negb (present e) then
     new_page ← allocPage 1;
     e1 ← load (entry_addr table vpn);
     write (entry_addr table vpn) (set_pfn e1 (Z.shiftr (kva2pa new_page) NORMAL_PAGE_SHIFT));;
     e2 ← load (entry_addr table vpn);
     write (entry_addr table vpn) (set_attribute e2 PAGE_PRESENT);;
     modify (set_mem (λ m, clear_pgdir m new_page))
   else mret ());;
  e ← load (entry_addr table vpn);
  mret (pa2kva (get_pa e)).

(** [set_pfn(&table[vpn], pa >> 12); set_attribute(&table[vpn], flags | V | A | D)] *)
Definition write_leaf (table vpn pa flags : Z) : M mm_state unit :=
  e ← load (entry_addr table vpn);
  write (entry_addr table vpn) (set_pfn e (Z.shiftr pa NORMAL_PAGE_SHIFT));;
  e ← load (entry_addr table vpn);
  write (entry_addr table vpn)
    (set_attribute e (Z.lor flags (Z.lor PAGE_PRESENT (Z.lor PAGE_ACCESSED PAGE_DIRTY)))).

Definition map_page (va pa pgdir flags : Z) : M mm_state unit :=
  pmd ← ensure_table pgdir (GET_VPN2 va);
  pte ← ensure_table pmd (GET_VPN1 va);
  write_leaf pte (GET_VPN0 va) pa flags.

Definition map_page_kernel (va pa pgdir flags : Z) : M mm_state unit :=
  pmd ← ensure_table pgdir (GET_VPN2 va);
  write_leaf pmd (GET_VPN1 va) pa flags.

Definition alloc_page_helper (va pgdir pid : Z) : M mm_state Z :=
  page_kva ← allocPage 1;
  let page_pa := kva2pa page_kva in
  memset_page page_kva;;
  map_page va page_pa pgdir
    (Z.lor PAGE_PRESENT (Z.lor PAGE_READ (Z.lor PAGE_WRITE (Z.lor PAGE_EXEC PAGE_USER))));;
  mret page_kva.

(** ioremap.c: [ioremap] maps a device region with 2 MB leaves at [io_base]
    (a global of ioremap.c, here an argument and part of the result). *)
Fixpoint ioremap_loop (n : nat) (vaddr paddr flags : Z) : M mm_state unit :=
  match n with
  | O => mret ()
  | S n' =>
      map_page_kernel vaddr paddr (pa2kva PGDIR_PA) flags;;
      ioremap_loop n' (u64 (vaddr + LARGE_PAGE_SIZE)) (u64 (paddr + LARGE_PAGE_SIZE)) flags
  end.

Definition ioremap (io_base phys_addr size : Z) : M mm_state (Z * Z) :=
  let offset_in_page := Z.land phys_addr (LARGE_PAGE_SIZE - 1) in
  let pa_aligned := ROUNDDOWN phys_addr LARGE_PAGE_SIZE in
  let map_size := ROUNDDOWN (size + offset_in_page + LARGE_PAGE_SIZE - 1) LARGE_PAGE_SIZE in
  ioremap_loop (Z.to_nat (map_size / LARGE_PAGE_SIZE)) io_base pa_aligned
    (Z.lor PAGE_READ PAGE_WRITE);;
  mret (u64 (io_base + offset_in_page), u64 (io_base + map_size)).

(** ** Pages *)

Lemma ROUNDDOWN_eq a : 0 ≤ a < 2 ^ 64 → ROUNDDOWN a PAGE_SIZE = a / PAGE_SIZE * PAGE_SIZE.
Proof.
  unfold ROUNDDOWN, PAGE_SIZE. intros H. rewrite (u64_id a) by (simpl in *; lia).
  unfold u64. rewrite <- Z.land_ones by done.
  change (Z.land (Z.lnot (4096 - 1)) (Z.ones 64)) with (Z.shiftl (Z.ones 52) 12).
  rewrite <- Z.shiftl_mul_pow2 with (n := 12) by done.
  change 4096 with (2 ^ 12). rewrite <- Z.shiftr_div_pow2 by done.
  apply Z.bits_inj'. intros i Hi. rewrite Z.land_spec, !Z.shiftl_spec by done.
  destruct (decide (i < 12)).
  - rewrite !(Z.testbit_neg_r _ (i - 12)) by lia. by rewrite andb_false_r.
  - rewrite Z.shiftr_spec by lia. replace (i - 12 + 12) with i by lia.
    destruct (decide (i < 64)).
    + rewrite Z.ones_spec_low by lia. apply andb_true_r.
    + rewrite Z.ones_spec_high by lia. rewrite andb_false_r. symmetry.
      apply (testbit_high 64); [simpl in *|]; lia.
Qed.

Lemma ROUND_eq a : 0 ≤ a < 2 ^ 64 - PAGE_SIZE →
  ROUND a PAGE_SIZE = (a + PAGE_SIZE - 1) / PAGE_SIZE * PAGE_SIZE.
Proof.
  unfold PAGE_SIZE. intros H. etrans; [|apply ROUNDDOWN_eq; unfold PAGE_SIZE; simpl in *; lia].
  unfold ROUND, ROUNDDOWN, PAGE_SIZE. by rewrite (u64_id a) by (simpl in *; lia).
Qed.

Lemma ROUND_aligned a : 0 ≤ a < 2 ^ 64 - PAGE_SIZE → aligned a → ROUND a PAGE_SIZE = a.
Proof.
  intros H Ha. rewrite ROUND_eq by done. unfold aligned, PAGE_SIZE in *.
  Z.to_euclidean_division_equations; lia.
Qed.

Lemma in_page_disjoint p q x : aligned p → aligned q → p ≠ q → in_page p x → ¬ in_page q x.
Proof.
  unfold aligned, in_page, PAGE_SIZE. intros. Z.to_euclidean_division_equations; lia.
Qed.

Lemma in_page_entry p i : 0 ≤ i < 512 → in_page p (entry_addr p i).
Proof. unfold in_page, entry_addr, PAGE_SIZE. lia. Qed.

Lemma in_page_base p : in_page p p.
Proof. unfold in_page, PAGE_SIZE. lia. Qed.

Lemma aligned_add p n : aligned p → aligned (p + n * PAGE_SIZE).
Proof. unfold aligned. intros. rewrite Z.mod_add; [done|]. by unfold PAGE_SIZE. Qed.

(** ** The allocator invariant

    [F] is the free list from its head, [D] the pages handed out. *)

Fixpoint free_list (m : mem) (head : Z) (F : list Z) : Prop :=
  match F with
  | [] => head = 0
  | p :: F' => head = p ∧ free_list m (m p) F'
  end.

Definition page_ok (s : mm_state) (p : Z) : Prop :=
  aligned p ∧ FREEMEM_KERNEL ≤ p ∧ p + PAGE_SIZE ≤ kernMemCurr s.

Record mm_inv (s : mm_state) (F : list Z) (D : gset Z) : Prop := {
  inv_list : free_list (mm_mem s) (freePageList s) F;
  inv_count : free_page_list_count s = Z.of_nat (length F);
  inv_nodup : NoDup F;
  inv_disj : ∀ p, p ∈ F → p ∉ D;
  inv_page : ∀ p, p ∈ F ∨ p ∈ D → page_ok s p;
  inv_curr : aligned (kernMemCurr s) ∧ FREEMEM_KERNEL ≤ kernMemCurr s ≤ MEMORY_SIZE_END;
  inv_conserve :
    (Z.of_nat (length F) + Z.of_nat (size D)) * PAGE_SIZE = kernMemCurr s - FREEMEM_KERNEL
}.

(** The bump pointer can still move by [n] pages. *)
Definition room (s : mm_state) (n : Z) : Prop := kernMemCurr s + n * PAGE_SIZE ≤ MEMORY_SIZE_END.

(** The pages of a block of [n] pages at [p]. *)
Definition block (p : Z) (n : nat) : list Z := (λ i, p + Z.of_nat i * PAGE_SIZE) <$> seq 0 n.

Lemma elem_of_block p n q : q ∈ block p n ↔ ∃ i : Z, 0 ≤ i < Z.of_nat n ∧ q = p + i * PAGE_SIZE.
Proof.
  unfold block. rewrite list_elem_of_fmap. split.
  - intros (i & -> & Hi). rewrite elem_of_seq in Hi. exists (Z.of_nat i). lia.
  - intros (i & Hi & ->). exists (Z.to_nat i). rewrite elem_of_seq. split; [f_equal; f_equal; lia|lia].
Qed.

Lemma NoDup_block p n : NoDup (block p n).
Proof.
  unfold block. apply NoDup_fmap_2_strong; [|apply NoDup_seq].
  intros i j _ _. unfold PAGE_SIZE. lia.
Qed.

Lemma free_list_ext m m' head F :
  (∀ p, p ∈ F → m' p = m p) → free_list m head F → free_list m' head F.
Proof.
  revert head. induction F as [|p F IH]; simpl; intros head Hm; [done|].
  intros [-> HF]. split; [done|]. rewrite Hm by left. apply IH; [|done]. set_solver.
Qed.

Ltac consts := unfold FREEMEM_KERNEL, INIT_KERNEL_STACK, MEMORY_SIZE_END, PAGE_SIZE in *.

Lemma page_ok_kva s p : page_ok s p → kernMemCurr s ≤ MEMORY_SIZE_END → kva_ok p.
Proof. unfold page_ok, kva_ok, KVA_PA_OFFSET. consts. simpl. lia. Qed.

Lemma free_list_null m head F : free_list m head F → head = 0 → (∀ p, p ∈ F → p ≠ 0) → F = [].
Proof. destruct F as [|p F]; [done|]. intros [-> _] -> HF. exfalso. by apply (HF 0); [left|]. Qed.

Section Alloc.
Context (s : mm_state) (F : list Z) (D : gset Z).
Hypothesis HI : mm_inv s F D.

Lemma mm_nonnull p : p ∈ F ∨ p ∈ D → p ≠ 0.
Proof. intros Hp%(inv_page _ _ _ HI) ->. destruct Hp as (_ & ? & _). by consts. Qed.

(** The pages of a bump allocation are new. *)
Lemma bump_fresh n q : q ∈ block (kernMemCurr s) n → q ∉ F ∧ q ∉ D.
Proof.
  intros (i & Hi & ->)%elem_of_block.
  assert (∀ p, p ∈ F ∨ p ∈ D → p + PAGE_SIZE ≤ kernMemCurr s) as Hp.
  { intros p Hp. by destruct (inv_page _ _ _ HI p Hp) as (_ & _ & ?). }
  split; intros Hin; [pose proof (Hp _ (or_introl Hin))|pose proof (Hp _ (or_intror Hin))];
    unfold PAGE_SIZE in *; lia.
Qed.

Lemma mm_inv_bump n :
  room s (Z.of_nat n) →
  mm_inv (set_kernMemCurr (kernMemCurr s + Z.of_nat n * PAGE_SIZE) s) F
    (list_to_set (block (kernMemCurr s) n) ∪ D).
Proof.
  intros Hroom. destruct HI as [Hl Hc Hnd Hd Hp [Ha Hk] Hcons].
  unfold room in Hroom. split; simpl; try done.
  - intros p HpF. rewrite elem_of_union, elem_of_list_to_set. intros [Hb|Hb].
    + by destruct (bump_fresh n p Hb).
    + by apply (Hd p).
  - intros p Hin. rewrite elem_of_union, elem_of_list_to_set in Hin.
    assert (p ∈ block (kernMemCurr s) n ∨ (p ∈ F ∨ p ∈ D)) as [Hb|Hb] by tauto.
    + apply elem_of_block in Hb as (i & Hi & ->).
      split; [by apply aligned_add|]. simpl. consts. lia.
    + destruct (Hp p Hb) as (? & ? & ?). split; [done|]. simpl. consts. lia.
  - split; [by apply aligned_add|]. consts. lia.
  - rewrite size_union.
    + rewrite size_list_to_set by apply NoDup_block.
      unfold block at 1. rewrite length_fmap, length_seq. consts. lia.
    + intros x. rewrite elem_of_list_to_set. by intros [_ ?]%bump_fresh.
Qed.

Lemma allocPage_bump n :
  (n ≠ 1%nat ∨ F = []) → room s (Z.of_nat n) →
  allocPage (Z.of_nat n) s
  = Ok (kernMemCurr s) (set_kernMemCurr (kernMemCurr s + Z.of_nat n * PAGE_SIZE) s).
Proof.
  intros Hn Hroom. destruct HI as [Hl Hc Hnd Hd Hp [Ha Hk] Hcons]. unfold room in Hroom.
  unfold allocPage, get, gets, modify, mret, M_ret, mbind, M_bind.
  assert (bool_decide (Z.of_nat n = 1) && negb (freePageList s =? 0) = false) as ->.
  { destruct Hn as [Hn| ->].
    - by rewrite bool_decide_false by lia.
    - simpl in Hl. rewrite Hl. simpl. apply andb_false_r. }
  rewrite ROUND_aligned; [|consts; simpl; lia|done].
  rewrite u64_id by (consts; lia). done.
Qed.

Lemma allocPage_list p F' :
  F = p :: F' →
  allocPage 1 s
  = Ok p (mk_mm (zero_page (mm_mem s) p) (kernMemCurr s) (mm_mem s p) (Z.of_nat (length F'))).
Proof.
  intros E. assert (p ≠ 0) by (apply mm_nonnull; rewrite E; left; left). subst F.
  destruct HI as [Hl Hc Hnd Hd Hp [Ha Hk] Hcons]. destruct Hl as [Hf Hl].
  unfold allocPage, get, gets, modify, load, memset_page, mret, M_ret, mbind, M_bind, set_mem,
    set_freePageList, set_free_count, gets, modify; simpl.
  rewrite Hf.
  rewrite (proj2 (Z.eqb_neq p 0)) by done. simpl. rewrite Hc.
  assert (Z.of_nat (length F') < 2 ^ 31).
  { simpl in Hcons. consts. simpl. lia. }
  rewrite s32_id by (simpl in *; lia). do 2 f_equal. simpl. lia.
Qed.

Lemma mm_inv_list p F' :
  F = p :: F' →
  mm_inv (mk_mm (zero_page (mm_mem s) p) (kernMemCurr s) (mm_mem s p) (Z.of_nat (length F')))
    F' ({[p]} ∪ D).
Proof.
  intros E. destruct HI as [Hl Hc Hnd Hd Hp [Ha Hk] Hcons]. subst F.
  destruct Hl as [Hf Hl]. apply NoDup_cons in Hnd as [Hpf Hnd].
  split; simpl; try done.
  - eapply free_list_ext; [|done]. intros q Hq. unfold zero_page.
    rewrite decide_False; [done|].
    apply (in_page_disjoint q p); [| |by intros ->|apply in_page_base].
    + apply (Hp q). set_solver.
    + apply (Hp p). set_solver.
  - intros q Hq. rewrite elem_of_union, elem_of_singleton. intros [->|?]; [done|].
    apply (Hd q); [by right|done].
  - intros q Hq. apply (Hp q). set_solver.
  - assert (p ∉ D) by (apply Hd; left). rewrite size_union by set_solver.
    rewrite size_singleton. simpl in Hcons. lia.
Qed.
End Alloc.

Lemma block_1 p : list_to_set (C := gset Z) (block p 1) = {[p]}.
Proof. unfold block. simpl. rewrite Z.add_0_r. set_solver. Qed.

(** C1: [allocPage(n)] hands out [n] contiguous pages that were not allocated
    before, keeps the allocator's invariant, and changes no byte of memory
    outside of the recycled page it clears. *)
Theorem allocPage_spec s F D n :
  mm_inv s F D → (1 ≤ n)%nat → room s (Z.of_nat n) →
  wp (allocPage (Z.of_nat n)) s (λ p s', ∃ F',
    mm_inv s' F' (list_to_set (block p n) ∪ D) ∧
    (∀ q, q ∈ block p n → q ∉ D) ∧
    (∀ x, ¬ in_page p x → mm_mem s' x = mm_mem s x) ∧
    (n = 1%nat → F ≠ [] → ∀ x, in_page p x → mm_mem s' x = 0) ∧
    kernMemCurr s ≤ kernMemCurr s' ≤ kernMemCurr s + Z.of_nat n * PAGE_SIZE).
Proof.
  intros HI Hn Hroom. destruct (decide (n = 1%nat ∧ F ≠ [])) as [[-> HF]|Hb].
  - destruct F as [|p F']; [done|].
    eapply wp_ok; [by eapply allocPage_list|]. exists F'. rewrite block_1.
    split; [by eapply mm_inv_list|]. simpl. split; [|split; [|split; [|consts; lia]]].
    + intros q. rewrite elem_of_block. intros (i & Hi & ->).
      assert (i = 0) as -> by lia. rewrite Z.mul_0_l, Z.add_0_r. apply (inv_disj _ _ _ HI). left.
    + intros x Hx. unfold zero_page. by rewrite decide_False.
    + intros _ _ x Hx. unfold zero_page. by rewrite decide_True.
  - assert (n ≠ 1%nat ∨ F = []) by (destruct F; [by right|left; naive_solver]).
    eapply wp_ok; [by eapply allocPage_bump|]. exists F.
    split; [by apply mm_inv_bump|]. split; [|split; [|split]].
    + intros q Hq. by eapply bump_fresh.
    + done.
    + intros -> ?. naive_solver.
    + simpl. unfold PAGE_SIZE. lia.
Qed.

Lemma allocPage_1 s F D :
  mm_inv s F D → room s 1 →
  wp (allocPage 1) s (λ p s', ∃ F',
    mm_inv s' F' ({[p]} ∪ D) ∧ p ∉ D ∧
    (∀ x, ¬ in_page p x → mm_mem s' x = mm_mem s x) ∧
    kernMemCurr s ≤ kernMemCurr s' ≤ kernMemCurr s + PAGE_SIZE).
Proof.
  intros HI Hroom.
  destruct (decide (F = [])) as [HF|HF].
  - eapply wp_ok; [apply (allocPage_bump s F D HI 1); [by right|done]|]. exists F.
    split; [rewrite <- block_1; by apply mm_inv_bump|]. split; [|split].
    + apply (bump_fresh s F D HI 1). rewrite elem_of_block. exists 0. lia.
    + done.
    + simpl. unfold PAGE_SIZE. lia.
  - destruct F as [|p F']; [done|].
    eapply wp_ok; [by eapply allocPage_list|]. exists F'.
    split; [by eapply mm_inv_list|]. simpl. split; [|split; [|consts; lia]].
    + apply (inv_disj _ _ _ HI). left.
    + intros x Hx. unfold zero_page. by rewrite decide_False.
Qed.

Lemma freePage_ok s F D p :
  mm_inv s F D → p ∈ D →
  freePage p s = Ok () (mk_mm (store (mm_mem s) p (freePageList s)) (kernMemCurr s) p
                          (Z.of_nat (length (p :: F)))).
Proof.
  intros HI Hp. pose proof (mm_nonnull _ _ _ HI p (or_intror Hp)) as Hp0.
  destruct HI as [Hl Hc Hnd Hd Hpg [Ha Hk] Hcons].
  unfold freePage. rewrite (proj2 (Z.eqb_neq p 0)) by done.
  unfold get, write, modify, mbind, M_bind, set_mem, set_freePageList, set_free_count; simpl.
  rewrite Hc. rewrite s32_id by (consts; lia). do 2 f_equal. lia.
Qed.

Lemma mm_inv_free s F D p :
  mm_inv s F D → p ∈ D →
  mm_inv (mk_mm (store (mm_mem s) p (freePageList s)) (kernMemCurr s) p (Z.of_nat (length (p :: F))))
    (p :: F) (D ∖ {[p]}).
Proof.
  intros [Hl Hc Hnd Hd Hpg [Ha Hk] Hcons] Hp.
  assert (p ∉ F) by (intros Hin; by apply (Hd p)).
  split; simpl; try done.
  - split; [done|]. unfold store at 2. rewrite decide_True by done.
    eapply free_list_ext; [|done]. intros q Hq. unfold store. rewrite decide_False; [done|].
    by intros ->.
  - by apply NoDup_cons.
  - intros q. set_solver.
  - intros q Hq. apply (Hpg q). set_solver.
  - rewrite size_difference by set_solver. rewrite size_singleton.
    assert (size D ≠ 0%nat) by (intros ?%size_empty_inv; set_solver). unfold PAGE_SIZE in *. lia.
Qed.

(** [freePage] of an allocated page puts it at the head of the free list
    (so the next one-page allocation returns exactly this page), and touches
    only the first word of the page. *)
Theorem freePage_spec s F D p :
  mm_inv s F D → p ∈ D →
  wp (freePage p) s (λ _ s',
    mm_inv s' (p :: F) (D ∖ {[p]}) ∧
    (∀ x, x ≠ p → mm_mem s' x = mm_mem s x) ∧
    wp (allocPage 1) s' (λ q s'', q = p ∧ mm_inv s'' F D)).
Proof.
  intros HI Hp. eapply wp_ok; [by eapply freePage_ok|].
  pose proof (mm_inv_free _ _ _ _ HI Hp) as HI'. split; [done|]. split.
  - intros x Hx. simpl. unfold store. by rewrite decide_False.
  - eapply wp_ok; [by eapply allocPage_list|]. split; [done|].
    replace D with ({[p]} ∪ D ∖ {[p]}) at 1.
    + by eapply mm_inv_list.
    + apply leibniz_equiv. intros x. destruct (decide (x = p)); set_solver.
Qed.

(** [get_free_memory] reports exactly the memory that is not handed out:
    the size of the dynamic region less the allocated pages. *)
Theorem get_free_memory_spec s F D :
  mm_inv s F D →
  wp get_free_memory s (λ r s', s' = s ∧
    r = MEMORY_SIZE_END - FREEMEM_KERNEL - Z.of_nat (size D) * PAGE_SIZE).
Proof.
  intros [Hl Hc Hnd Hd Hpg [Ha Hk] Hcons].
  unfold get_free_memory. wp_simpl. split; [done|].
  rewrite Hc. rewrite s32_id by (consts; lia).
  destruct (Z.ltb_spec (kernMemCurr s) MEMORY_SIZE_END).
  - rewrite u64_id by (consts; lia). consts. lia.
  - consts. lia.
Qed.

(** ** Memory outside of the free pages *)

(** The allocator's invariant reads the memory at the free pages only. *)
Lemma mm_inv_set_mem s F D f :
  mm_inv s F D → (∀ p, p ∈ F → f (mm_mem s) p = mm_mem s p) → mm_inv (set_mem f s) F D.
Proof.
  intros [] Hf. split; try done. simpl. by eapply free_list_ext.
Qed.

Lemma free_not_in_page s F D p x :
  mm_inv s F D → p ∈ D → in_page p x → x ∉ F.
Proof.
  intros HI Hp Hx HF. assert (p ≠ x) by (intros ->; by eapply (inv_disj _ _ _ HI)).
  destruct (in_page_disjoint p x x); [| |done|done|apply in_page_base].
  - apply (inv_page _ _ _ HI). by right.
  - apply (inv_page _ _ _ HI). by left.
Qed.

(** ** The initial state: nothing allocated yet *)

Definition mm_init : mm_state := mk_mm (λ _, 0) FREEMEM_KERNEL 0 0.

Lemma mm_inv_init : mm_inv mm_init [] ∅.
Proof.
  split; simpl; try done.
  - constructor.
  - intros p. set_solver.
Qed.

Lemma allocPage_spec_witness :
  wp (allocPage 2) mm_init (λ p s', ∃ F, mm_inv s' F (list_to_set (block p 2) ∪ ∅)).
Proof.
  eapply wp_mono; [apply (allocPage_spec mm_init [] ∅ 2 mm_inv_init); [lia|by vm_compute]|].
  intros p s' (F & HI & _). by exists F.
Defined.

(** The state after one page was handed out. *)
Definition mm_one : mm_state := set_kernMemCurr (FREEMEM_KERNEL + PAGE_SIZE) mm_init.

Lemma mm_inv_one : mm_inv mm_one [] {[FREEMEM_KERNEL]}.
Proof.
  pose proof (mm_inv_bump mm_init [] ∅ mm_inv_init 1) as H. rewrite block_1 in H.
  rewrite union_empty_r_L in H. apply H. by vm_compute.
Qed.

Lemma freePage_spec_witness :
  wp (freePage FREEMEM_KERNEL) mm_one (λ _ s',
    wp (allocPage 1) s' (λ q _, q = FREEMEM_KERNEL)).
Proof.
  eapply wp_mono; [apply (freePage_spec mm_one [] _ FREEMEM_KERNEL mm_inv_one); set_solver|].
  intros _ s' (_ & _ & Hal). eapply wp_mono; [exact Hal|]. by intros q s'' [-> _].
Defined.

Lemma get_free_memory_spec_witness :
  wp get_free_memory mm_one (λ r _, r = 0xdffe000).
Proof.
  eapply wp_mono; [apply (get_free_memory_spec _ _ _ mm_inv_one)|].
  intros r s' [_ ->]. by vm_compute.
Defined.
