(* ===== verification/PageTable.v ===== *)
(** The page tables that [map_page] (kernel/mm/mm.c) builds: a labelling of
    the table pages of a user address space, and what mapping one page does
    to the translation of every user address. *)
From S2P Require Import Prelude KMonad Pgtable MM.

(** Where a table page hangs in the tree: the root, the second-level table
    under root entry [i], the third-level table under entry [j] of that one. *)
Inductive label := Root | L1 (i : Z) | L0 (i j : Z).
#[export] Instance label_eq_dec : EqDecision label.
Proof. solve_decision. Defined.

(** The table that entry [k] of a table stands for; the upper half of the
    root belongs to the kernel and is not followed. *)
Definition child_of (l : label) (k : Z) : option label :=
  match l with
  | Root => if decide (0 ≤ k < 256) then Some (L1 k) else None
  | L1 i => if decide (0 ≤ k < 512) then Some (L0 i k) else None
  | L0 _ _ => None
  end.

Lemma child_of_Root k : 0 ≤ k < 256 → child_of Root k = Some (L1 k).
Proof. intros. unfold child_of. by rewrite decide_True. Qed.

Lemma child_of_L1 i k : 0 ≤ k < 512 → child_of (L1 i) k = Some (L0 i k).
Proof. intros. unfold child_of. by rewrite decide_True. Qed.
#[global] Arguments child_of : simpl never.

Definition table_of (entry : Z) : Z := pa2kva (get_pa entry).

Record pt_wf (m : mem) (root : Z) (T : gmap Z label) : Prop := {
  pt_root : T !! root = Some Root;
  pt_child : ∀ p l k l', T !! p = Some l → child_of l k = Some l' →
    present (m (entry_addr p k)) = true → T !! table_of (m (entry_addr p k)) = Some l';
  pt_page : ∀ p l, T !! p = Some l → kva_ok p ∧ aligned p;
  pt_words : ∀ p l k, T !! p = Some l → 0 ≤ k < 512 → 0 ≤ m (entry_addr p k) < 2 ^ 64
}.

(** The value of the leaf entry that [get_pte] finds; 0 when a table is missing. *)
Definition pte_of (m : mem) (root va : Z) : Z :=
  match get_pte m va root with Some a => m a | None => 0 end.

(** The table of entry [k] of the page labelled [l], as a walk computes it. *)
Definition walk1 (m : mem) (p k : Z) : option Z :=
  let e := m (entry_addr p k) in if present e then Some (table_of e) else None.

Lemma get_pte_walk m va root :
  get_pte m va root =
  p1 ← walk1 m root (GET_VPN2 va); p0 ← walk1 m p1 (GET_VPN1 va);
  Some (entry_addr p0 (GET_VPN0 va)).
Proof.
  unfold get_pte, walk1, table_of. simpl.
  destruct (present (m (entry_addr root (GET_VPN2 va)))); simpl; [|done].
  by destruct (present _).
Qed.

Lemma present_0 : present 0 = false.
Proof. done. Qed.

Lemma walk1_Some m p k q : walk1 m p k = Some q ↔
  present (m (entry_addr p k)) = true ∧ table_of (m (entry_addr p k)) = q.
Proof. unfold walk1. destruct (present _); naive_solver. Qed.

Section Walk.
Context (m : mem) (root : Z) (T : gmap Z label).
Hypothesis Hwf : pt_wf m root T.

Lemma walk1_label p l k l' q :
  T !! p = Some l → child_of l k = Some l' → walk1 m p k = Some q → T !! q = Some l'.
Proof. intros Hp Hl [Hpr <-]%walk1_Some. by eapply (pt_child _ _ _ Hwf). Qed.

(** Two entries of tables with different labels, or of one table with
    different indices, are different words of memory. *)
Lemma entry_inj p q l l' k k' :
  T !! p = Some l → T !! q = Some l' → 0 ≤ k < 512 → 0 ≤ k' < 512 →
  entry_addr p k = entry_addr q k' → p = q ∧ k = k'.
Proof.
  intros Hp Hq Hk Hk' E.
  destruct (decide (p = q)) as [->|Hne].
  - split; [done|]. unfold entry_addr in E. lia.
  - destruct (in_page_disjoint p q (entry_addr p k)); [| |done| |].
    + by eapply (pt_page _ _ _ Hwf).
    + by eapply (pt_page _ _ _ Hwf).
    + by apply in_page_entry.
    + rewrite E. by apply in_page_entry.
Qed.
End Walk.

(** ** One table *)

Lemma child_range l k l' : child_of l k = Some l' → 0 ≤ k < 512.
Proof. unfold child_of. destruct l; try case_decide; naive_solver lia. Qed.

(** The entry [ensure_table] writes for a new table at [p]. *)
Lemma new_entry_eq e p : 0 ≤ e < 2 ^ 64 → kva_ok p → aligned p →
  set_attribute (set_pfn e (Z.shiftr (kva2pa p) NORMAL_PAGE_SHIFT)) PAGE_PRESENT
  = mk_pte (kva2pa p / 2 ^ 12) PAGE_PRESENT.
Proof.
  intros He Hp Ha. rewrite kva2pa_eq by done.
  unfold kva_ok, KVA_PA_OFFSET, NORMAL_PAGE_SHIFT in *.
  rewrite Z.shiftr_div_pow2 by done. apply set_entry_eq; [done| |done].
  split; [apply Z.div_pos; lia|]. apply Z.div_lt_upper_bound; [done|]. simpl in *. lia.
Qed.

Lemma table_of_new p : kva_ok p → aligned p →
  table_of (mk_pte (kva2pa p / 2 ^ 12) PAGE_PRESENT) = p.
Proof.
  intros Hp Ha. unfold table_of. rewrite kva2pa_eq by done.
  unfold kva_ok, aligned, KVA_PA_OFFSET, PAGE_SIZE in *.
  rewrite get_pa_mk_pte; [|split; [apply Z.div_pos; lia|apply Z.div_lt_upper_bound; lia]|done].
  unfold PAGE_SIZE. rewrite pa2kva_eq; unfold KVA_PA_OFFSET;
    Z.to_euclidean_division_equations; lia.
Qed.

Lemma present_new p : present (mk_pte p PAGE_PRESENT) = true.
Proof. by rewrite present_mk_pte. Qed.

(** The memory after a table was hung under entry [k] of [p], with the two
    writes of the entry ([set_pfn], then [set_attribute]). *)
Definition hang (m : mem) (p k q : Z) : mem :=
  let a := entry_addr p k in
  zero_page (store (store m a (set_pfn (m a) (Z.shiftr (kva2pa q) NORMAL_PAGE_SHIFT)))
    a (mk_pte (kva2pa q / 2 ^ 12) PAGE_PRESENT)) q.

Lemma hang_at m p k q :
  ¬ in_page q (entry_addr p k) →
  hang m p k q (entry_addr p k) = mk_pte (kva2pa q / 2 ^ 12) PAGE_PRESENT.
Proof. intros. unfold hang. by rewrite zero_page_out, store_eq. Qed.

Lemma hang_new m p k q x : in_page q x → hang m p k q x = 0.
Proof. intros. unfold hang. by rewrite zero_page_in. Qed.

Lemma hang_other m p k q x : x ≠ entry_addr p k → ¬ in_page q x → hang m p k q x = m x.
Proof. intros. unfold hang. by rewrite zero_page_out, !store_ne. Qed.

Section Hang.
Context (m m' : mem) (root : Z) (T : gmap Z label) (p k q : Z) (l l' : label).
Hypothesis Hwf : pt_wf m root T.
Hypothesis Hp : T !! p = Some l.
Hypothesis Hl : child_of l k = Some l'.
Hypothesis Hnone : present (m (entry_addr p k)) = false.
Hypothesis Hq : T !! q = None.
Hypothesis Hqk : kva_ok q.
Hypothesis Hqa : aligned q.
Hypothesis Hm : ∀ x, ¬ in_page q x → m' x = m x.

Lemma table_not_new r lr j : T !! r = Some lr → 0 ≤ j < 512 → ¬ in_page q (entry_addr r j).
Proof.
  intros Hr Hj. apply (in_page_disjoint r q); [| |congruence|by apply in_page_entry].
  - by eapply (pt_page _ _ _ Hwf).
  - done.
Qed.

Lemma hang_table r lr j :
  T !! r = Some lr → 0 ≤ j < 512 → (r ≠ p ∨ j ≠ k) →
  hang m' p k q (entry_addr r j) = m (entry_addr r j).
Proof.
  intros Hr Hj Hne. pose proof (child_range _ _ _ Hl).
  rewrite hang_other; [by apply Hm; eapply table_not_new| |by eapply table_not_new].
  intros [-> ->]%(entry_inj m root T Hwf _ _ lr l); try done. naive_solver.
Qed.

Lemma hang_entry : hang m' p k q (entry_addr p k) = mk_pte (kva2pa q / 2 ^ 12) PAGE_PRESENT.
Proof. apply hang_at. eapply table_not_new; [done|]. by eapply child_range. Qed.

Lemma pt_wf_hang : pt_wf (hang m' p k q) root (<[q := l']> T).
Proof.
  assert (∀ r lr, T !! r = Some lr → <[q := l']> T !! r = Some lr) as Hold.
  { intros r lr Hr. rewrite lookup_insert_ne; [done|congruence]. }
  split.
  - apply Hold, (pt_root _ _ _ Hwf).
  - intros r lr j lj. destruct (decide (r = q)) as [->|Hr].
    + rewrite lookup_insert_eq. intros [= <-] Hj. pose proof (child_range _ _ _ Hj).
      by rewrite hang_new by (by apply in_page_entry).
    + rewrite lookup_insert_ne by done. intros Hlr Hj. pose proof (child_range _ _ _ Hj).
      destruct (decide (r = p ∧ j = k)) as [[-> ->]|Hne].
      * rewrite hang_entry, table_of_new by done. intros _. simplify_eq.
        apply lookup_insert_eq.
      * rewrite (hang_table r lr j) by first [done | destruct (decide (r = p)) as [->|]; [right; naive_solver|by left]].
        intros Hpr. by eapply Hold, (pt_child _ _ _ Hwf).
  - intros r lr. destruct (decide (r = q)) as [->|Hr]; [done|].
    rewrite lookup_insert_ne by done. apply (pt_page _ _ _ Hwf).
  - intros r lr j. destruct (decide (r = q)) as [->|Hr].
    + intros _ Hj. by rewrite hang_new by (by apply in_page_entry).
    + rewrite lookup_insert_ne by done. intros Hlr Hj.
      destruct (decide (r = p ∧ j = k)) as [[-> ->]|Hne].
      * rewrite hang_entry, kva2pa_eq by done. apply mk_pte_range; [|done].
        unfold kva_ok, KVA_PA_OFFSET in *.
        split; [apply Z.div_pos; lia|apply Z.div_lt_upper_bound; lia].
      * rewrite (hang_table r lr j) by first [done | destruct (decide (r = p)) as [->|]; [right; naive_solver|by left]].
        by eapply (pt_words _ _ _ Hwf).
Qed.

Lemma walk1_hang r lr j :
  T !! r = Some lr → 0 ≤ j < 512 →
  walk1 (hang m' p k q) r j = if decide (r = p ∧ j = k) then Some q else walk1 m r j.
Proof.
  intros Hr Hj. unfold walk1. case_decide as E.
  - destruct E as [-> ->]. by rewrite hang_entry, present_new, table_of_new.
  - rewrite (hang_table r lr j); [done|done|done|].
    destruct (decide (r = p)); [right|left]; naive_solver.
Qed.

Lemma walk1_hang_new j : 0 ≤ j < 512 → walk1 (hang m' p k q) q j = None.
Proof. intros. unfold walk1. by rewrite hang_new by (by apply in_page_entry). Qed.

Lemma walk1_old : walk1 m p k = None.
Proof. unfold walk1. by rewrite Hnone. Qed.

(** Hanging an empty table changes the leaf entry of no user address. *)
Lemma pte_of_hang va : user_va va → pte_of (hang m' p k q) root va = pte_of m root va.
Proof.
  intros Hva. pose proof (GET_VPN2_user va Hva) as H2.
  pose proof (GET_VPN1_range va) as H1. pose proof (GET_VPN0_range va) as H0.
  pose proof (pt_root _ _ _ Hwf) as Hroot. unfold pte_of. rewrite !get_pte_walk.
  rewrite (walk1_hang root Root) by (done || lia). case_decide as E2.
  { destruct E2 as [-> ->]. rewrite walk1_old. simpl. by rewrite walk1_hang_new. }
  destruct (walk1 m root (GET_VPN2 va)) as [p1|] eqn:Hw2; simpl; [|done].
  assert (T !! p1 = Some (L1 (GET_VPN2 va))) as Hp1.
  { eapply (walk1_label m root T Hwf root Root); [done|by apply child_of_Root|done]. }
  rewrite (walk1_hang p1 (L1 (GET_VPN2 va))) by done. case_decide as E1.
  { destruct E1 as [-> ->]. rewrite walk1_old. simpl. by rewrite hang_new by (by apply in_page_entry). }
  destruct (walk1 m p1 (GET_VPN1 va)) as [p0|] eqn:Hw1; simpl; [|done].
  assert (T !! p0 = Some (L0 (GET_VPN2 va) (GET_VPN1 va))) as Hp0.
  { eapply (walk1_label m root T Hwf p1); [done|by apply child_of_L1|done]. }
  eapply hang_table; [done|done|]. left. intros ->. by simplify_eq.
Qed.
End Hang.

(** ** Growing an address space *)

(** The allocator and the table pages of one address space together. *)
Record as_inv (s : mm_state) (D : gset Z) (root : Z) (T : gmap Z label) : Prop := {
  as_alloc : ∃ F, mm_inv s F D;
  as_pt : pt_wf (mm_mem s) root T;
  as_sub : ∀ p l, T !! p = Some l → p ∈ D
}.

(** What building tables keeps: nothing is lost, the data pages (allocated,
    not tables) keep their contents and stay data pages, the walks that
    succeeded still do, and the leaf entries of the addresses in [P] are kept. *)
Record grows (n : Z) (P : Z → Prop) (root : Z)
    (s s' : mm_state) (D D' : gset Z) (T T' : gmap Z label) : Prop := {
  gr_T : T ⊆ T';
  gr_D : D ⊆ D';
  gr_data : ∀ p, p ∈ D → T !! p = None → T' !! p = None ∧
    ∀ x, in_page p x → mm_mem s' x = mm_mem s x;
  gr_walk : ∀ r lr j lj c, T !! r = Some lr → child_of lr j = Some lj →
    walk1 (mm_mem s) r j = Some c → walk1 (mm_mem s') r j = Some c;
  gr_pte : ∀ va, user_va va → P va → pte_of (mm_mem s') root va = pte_of (mm_mem s) root va;
  gr_curr : kernMemCurr s ≤ kernMemCurr s' ≤ kernMemCurr s + n * PAGE_SIZE
}.

Lemma grows_refl P root s D T : grows 0 P root s s D D T T.
Proof. split; try done; lia. Qed.

Lemma grows_trans n n' P root s s' s'' D D' D'' T T' T'' :
  grows n P root s s' D D' T T' → grows n' P root s' s'' D' D'' T' T'' →
  grows (n + n') P root s s'' D D'' T T''.
Proof.
  intros H H'. split.
  - etrans; [apply H|apply H'].
  - etrans; [apply H|apply H'].
  - intros p Hp HT. destruct (gr_data _ _ _ _ _ _ _ _ _ H p Hp HT) as [HT' Hx].
    destruct (gr_data _ _ _ _ _ _ _ _ _ H' p) as [HT'' Hx']; [by apply H|done|].
    split; [done|]. intros x ?. by rewrite Hx', Hx.
  - intros r lr j lj c Hr Hj Hw. eapply (gr_walk _ _ _ _ _ _ _ _ _ H'); [|done|].
    + eapply lookup_weaken; [done|apply H].
    + by eapply (gr_walk _ _ _ _ _ _ _ _ _ H).
  - intros va Hva HP. by rewrite (gr_pte _ _ _ _ _ _ _ _ _ H'), (gr_pte _ _ _ _ _ _ _ _ _ H).
  - pose proof (gr_curr _ _ _ _ _ _ _ _ _ H). pose proof (gr_curr _ _ _ _ _ _ _ _ _ H').
    lia.
Qed.

Lemma grows_mono n n' P root s s' D D' T T' :
  n ≤ n' → grows n P root s s' D D' T T' → grows n' P root s s' D D' T T'.
Proof.
  intros Hn [? ? ? ? ? ?]. split; try done. unfold PAGE_SIZE in *. nia.
Qed.

Lemma grows_weaken n (P P' : Z → Prop) root s s' D D' T T' :
  (∀ va, P' va → P va) → grows n P root s s' D D' T T' → grows n P' root s s' D D' T T'.
Proof. intros HP [? ? ? ? Hpte ?]. split; try done. intros. by apply Hpte, HP. Qed.

Lemma ensure_table_alloc s p k q s1 :
  present (mm_mem s (entry_addr p k)) = false →
  allocPage 1 s = Ok q s1 →
  mm_mem s1 (entry_addr p k) = mm_mem s (entry_addr p k) →
  0 ≤ mm_mem s (entry_addr p k) < 2 ^ 64 → kva_ok q → aligned q →
  ¬ in_page q (entry_addr p k) →
  ensure_table p k s = Ok q (set_mem (λ m, hang m p k q) s1).
Proof.
  intros Hpr Ha Hsame He Hk Hal Hout.
  unfold ensure_table, load, gets, write, modify, mbind, M_bind, mret, M_ret.
  rewrite Hpr. simpl. rewrite Ha. simpl. rewrite !store_eq.
  rewrite new_entry_eq by (try done; by rewrite Hsame). unfold clear_pgdir.
  rewrite zero_page_out, store_eq by done.
  fold (table_of (mk_pte (kva2pa q / 2 ^ 12) PAGE_PRESENT)). by rewrite table_of_new.
Qed.

Lemma as_inv_curr s D root T : as_inv s D root T → kernMemCurr s ≤ MEMORY_SIZE_END.
Proof. intros [[F HF] _ _]. by apply (inv_curr _ _ _ HF). Qed.

(** The table of an entry that is inside of the user half: found, or allocated
    and hung in the tree, with every translation kept. *)
Lemma ensure_table_spec s D root T p l k l' :
  as_inv s D root T → T !! p = Some l → child_of l k = Some l' → room s 1 →
  wp (ensure_table p k) s (λ c s', ∃ D' T',
    as_inv s' D' root T' ∧ grows 1 (λ _, True) root s s' D D' T T' ∧
    T' !! c = Some l' ∧ walk1 (mm_mem s') p k = Some c).
Proof.
  intros Has Hp Hl Hroom. pose proof (child_range _ _ _ Hl) as Hk.
  destruct (present (mm_mem s (entry_addr p k))) eqn:Hpr.
  - unfold ensure_table, load. wp_simpl. rewrite Hpr. simpl. wp_simpl.
    fold (table_of (mm_mem s (entry_addr p k))).
    exists D, T. split; [done|]. split; [eapply grows_mono, grows_refl; lia|]. split.
    + by eapply (pt_child _ _ _ (as_pt _ _ _ _ Has)).
    + by apply walk1_Some.
  - destruct Has as [[F HI] Hwf Hsub].
    pose proof (allocPage_1 _ _ _ HI Hroom) as (q & s1 & Ha & F' & HI' & HqD & Hmem & Hcurr)%wp_iff.
    assert (T !! q = None) as Hq.
    { destruct (T !! q) eqn:E; [|done]. by apply Hsub in E. }
    assert (kva_ok q ∧ aligned q) as [Hqk Hqa].
    { assert (page_ok s1 q) as Hok by (apply (inv_page _ _ _ HI'); set_solver).
      split; [|apply Hok]. eapply page_ok_kva; [done|]. by apply (inv_curr _ _ _ HI'). }
    assert (¬ in_page q (entry_addr p k)) as Hout by (by eapply table_not_new).
    eapply wp_ok.
    { eapply ensure_table_alloc; [done|done|by apply Hmem| |done|done|done].
      by eapply (pt_words _ _ _ Hwf). }
    exists ({[q]} ∪ D), (<[q := l']> T). split; [split|split; [split|split]]; simpl.
    + exists F'. apply mm_inv_set_mem; [done|]. intros r Hr. apply hang_other.
      * intros ->. eapply (free_not_in_page _ _ _ p); [done| |by apply in_page_entry|done].
        apply Hsub in Hp. set_solver.
      * intros Hin. eapply (free_not_in_page _ _ _ q); [done| |done|done]. set_solver.
    + by eapply pt_wf_hang.
    + intros r lr. rewrite lookup_insert_Some. intros [[<- _]|[_ ?%Hsub]]; set_solver.
    + by apply insert_subseteq.
    + set_solver.
    + intros r Hr HT. rewrite lookup_insert_ne by (intros ->; done). split; [done|].
      intros x Hx. assert (r ≠ q) by (intros ->; done).
      assert (aligned r) by (apply (inv_page _ _ _ HI); by right).
      assert (¬ in_page q x) by (by eapply in_page_disjoint).
      rewrite hang_other; [by apply Hmem| |done].
      intros ->. eapply (in_page_disjoint r p); [done| | |done|by apply in_page_entry].
      * by eapply (pt_page _ _ _ Hwf).
      * intros ->. by rewrite Hp in HT.
    + intros r lr j lj c Hr Hj Hw. pose proof (child_range _ _ _ Hj).
      rewrite (walk1_hang (mm_mem s) (mm_mem s1) root T p k q l l') with (lr := lr) by done.
      case_decide as E; [|done]. destruct E as [-> ->].
      rewrite (walk1_old (mm_mem s)) in Hw; done.
    + intros va Hva _. by eapply (pte_of_hang (mm_mem s)).
    + unfold PAGE_SIZE in *. lia.
    + by rewrite lookup_insert_eq.
    + rewrite (walk1_hang (mm_mem s) (mm_mem s1) root T p k q l l') with (lr := l) by done.
      by rewrite decide_True.
Qed.

(** ** Writing a leaf entry *)

Section Leaf.
Context (m m' : mem) (root : Z) (T : gmap Z label) (p k i j : Z).
Hypothesis Hwf : pt_wf m root T.
Hypothesis Hp : T !! p = Some (L0 i j).
Hypothesis Hk : 0 ≤ k < 512.
Hypothesis Hm : ∀ x, x ≠ entry_addr p k → m' x = m x.

Lemma leaf_inner r lr c lc :
  T !! r = Some lr → child_of lr c = Some lc → m' (entry_addr r c) = m (entry_addr r c).
Proof.
  intros Hr Hc. pose proof (child_range _ _ _ Hc). apply Hm. intros E.
  destruct (entry_inj m root T Hwf r p lr (L0 i j) c k) as [-> ->]; [done..|].
  by simplify_eq.
Qed.

Lemma pt_wf_leaf : 0 ≤ m' (entry_addr p k) < 2 ^ 64 → pt_wf m' root T.
Proof.
  intros Hw. split.
  - apply (pt_root _ _ _ Hwf).
  - intros r lr c lc Hr Hc. rewrite (leaf_inner r lr c lc) by done.
    by eapply (pt_child _ _ _ Hwf).
  - apply (pt_page _ _ _ Hwf).
  - intros r lr c Hr Hc. destruct (decide (entry_addr r c = entry_addr p k)) as [->|Hne]; [done|].
    rewrite Hm by done. by eapply (pt_words _ _ _ Hwf).
Qed.

Lemma walk1_leaf r lr c lc :
  T !! r = Some lr → child_of lr c = Some lc → walk1 m' r c = walk1 m r c.
Proof. intros Hr Hc. unfold walk1. by rewrite (leaf_inner r lr c lc). Qed.

(** Only the addresses of the page at indices [(i, j, k)] see the entry. *)
Lemma pte_of_leaf va :
  user_va va → (GET_VPN2 va, GET_VPN1 va, GET_VPN0 va) ≠ (i, j, k) →
  pte_of m' root va = pte_of m root va.
Proof.
  intros Hva Hne. pose proof (GET_VPN2_user va Hva) as H2.
  pose proof (GET_VPN1_range va) as H1. pose proof (GET_VPN0_range va) as H0.
  pose proof (pt_root _ _ _ Hwf) as Hroot. unfold pte_of. rewrite !get_pte_walk.
  rewrite (walk1_leaf root Root _ (L1 (GET_VPN2 va))); [|done|by apply child_of_Root].
  destruct (walk1 m root (GET_VPN2 va)) as [p1|] eqn:Hw2; simpl; [|done].
  assert (T !! p1 = Some (L1 (GET_VPN2 va))) as Hp1.
  { eapply (walk1_label m root T Hwf root Root); [done|by apply child_of_Root|done]. }
  rewrite (walk1_leaf p1 (L1 (GET_VPN2 va)) _ (L0 (GET_VPN2 va) (GET_VPN1 va)));
    [|done|by apply child_of_L1].
  destruct (walk1 m p1 (GET_VPN1 va)) as [p0|] eqn:Hw1; simpl; [|done].
  assert (T !! p0 = Some (L0 (GET_VPN2 va) (GET_VPN1 va))) as Hp0.
  { eapply (walk1_label m root T Hwf p1); [done|by apply child_of_L1|done]. }
  apply Hm. intros E.
  destruct (entry_inj m root T Hwf p0 p (L0 (GET_VPN2 va) (GET_VPN1 va)) (L0 i j)
    (GET_VPN0 va) k) as [-> Ek]; [done..|].
  apply Hne. rewrite Ek. by simplify_eq.
Qed.
End Leaf.

Lemma write_leaf_ok s p k pa flags :
  let a := entry_addr p k in
  0 ≤ mm_mem s a < 2 ^ 64 → 0 ≤ pa < 2 ^ 64 → 0 ≤ flags < 2 ^ 10 →
  write_leaf p k pa flags s
  = Ok () (set_mem (λ m, store (store m a (set_pfn (m a) (Z.shiftr pa NORMAL_PAGE_SHIFT)))
      a (mk_pte (pa / 2 ^ 12) (Z.lor flags (Z.lor PAGE_PRESENT (Z.lor PAGE_ACCESSED PAGE_DIRTY))))) s).
Proof.
  intros a Ha Hpa Hf.
  unfold write_leaf, load, gets, write, modify, mbind, M_bind, mret, M_ret. fold a. simpl.
  rewrite store_eq. unfold set_mem. simpl. do 3 f_equal.
  unfold NORMAL_PAGE_SHIFT. rewrite Z.shiftr_div_pow2 by done. apply set_entry_eq; [done| |].
  - split; [apply Z.div_pos; lia|]. apply Z.div_lt_upper_bound; simpl in *; lia.
  - apply lor_lt_pow2; [done|done|]. done.
Qed.

(** The walk of a user address ends in the table labelled with its indices. *)
Lemma pte_of_walk m root va p1 p0 :
  walk1 m root (GET_VPN2 va) = Some p1 → walk1 m p1 (GET_VPN1 va) = Some p0 →
  pte_of m root va = m (entry_addr p0 (GET_VPN0 va)).
Proof. intros H1 H0. unfold pte_of. rewrite get_pte_walk, H1. simpl. by rewrite H0. Qed.

Definition same_page (va va' : Z) : Prop := va / PAGE_SIZE = va' / PAGE_SIZE.

Lemma vpn_ne va va' : user_va va → user_va va' → ¬ same_page va va' →
  (GET_VPN2 va', GET_VPN1 va', GET_VPN0 va') ≠ (GET_VPN2 va, GET_VPN1 va, GET_VPN0 va).
Proof.
  unfold user_va. intros Hva Hva' Hne [= E2 E1 E0]. apply Hne. symmetry.
  apply vpn_inj; (done || lia).
Qed.

(** Rewriting the leaf entry of [va], in whatever way. *)
Lemma leaf_update s D root T p va f :
  as_inv s D root T → user_va va →
  T !! p = Some (L0 (GET_VPN2 va) (GET_VPN1 va)) →
  let a := entry_addr p (GET_VPN0 va) in
  (∀ x, x ≠ a → f (mm_mem s) x = mm_mem s x) → 0 ≤ f (mm_mem s) a < 2 ^ 64 →
  as_inv (set_mem f s) D root T ∧
  grows 0 (λ va', ¬ same_page va va') root s (set_mem f s) D D T T.
Proof.
  intros [[F HI] Hwf Hsub] Hva Hp a Hf Hr. pose proof (GET_VPN0_range va) as Hk.
  assert (p ∈ D) as HpD by (by eapply Hsub).
  split; split; simpl; try done.
  - exists F. apply mm_inv_set_mem; [done|]. intros r Hr'. apply Hf. intros ->.
    by eapply (free_not_in_page _ _ _ p); [| |by apply in_page_entry|].
  - by eapply pt_wf_leaf.
  - intros r Hr' HT. split; [done|]. intros x Hx. apply Hf. intros ->.
    eapply (in_page_disjoint r p); [| | |done|by apply in_page_entry].
    + apply (inv_page _ _ _ HI). by right.
    + by eapply (pt_page _ _ _ Hwf).
    + intros ->. congruence.
  - intros r lr c lc q Hr' Hc Hw. by erewrite walk1_leaf.
  - intros va' Hva' Hne. eapply pte_of_leaf; [done..|]. by apply vpn_ne.
  - lia.
Qed.

Lemma write_leaf_grows s D root T p pa flags va :
  as_inv s D root T → user_va va → T !! p = Some (L0 (GET_VPN2 va) (GET_VPN1 va)) →
  0 ≤ pa < 2 ^ 64 → 0 ≤ flags < 2 ^ 10 →
  wp (write_leaf p (GET_VPN0 va) pa flags) s (λ _ s',
    as_inv s' D root T ∧
    grows 0 (λ va', ¬ same_page va va') root s s' D D T T ∧
    mm_mem s' (entry_addr p (GET_VPN0 va)) = mk_pte (pa / 2 ^ 12)
      (Z.lor flags (Z.lor PAGE_PRESENT (Z.lor PAGE_ACCESSED PAGE_DIRTY)))).
Proof.
  intros Has Hva Hp Hpa Hf. eapply wp_ok.
  { apply write_leaf_ok; [|done|done]. eapply (pt_words _ _ _ (as_pt _ _ _ _ Has)); [done|].
    apply GET_VPN0_range. }
  match goal with |- context [set_mem ?f s] =>
    destruct (leaf_update s D root T p va f Has Hva Hp) as [Has' Hg] end.
  - intros x Hx. by rewrite !store_ne.
  - rewrite store_eq. apply mk_pte_range; [|by apply lor_lt_pow2].
    split; [apply Z.div_pos; lia|]. apply Z.div_lt_upper_bound; simpl in *; lia.
  - split; [done|]. split; [done|]. apply store_eq.
Qed.

(** The entry that [get_pte] finds is in the table with the labels of [va]. *)
Lemma get_pte_label m root T va a :
  pt_wf m root T → user_va va → get_pte m va root = Some a →
  ∃ p, T !! p = Some (L0 (GET_VPN2 va) (GET_VPN1 va)) ∧ a = entry_addr p (GET_VPN0 va).
Proof.
  intros Hwf Hva. pose proof (GET_VPN2_user va Hva). pose proof (GET_VPN1_range va).
  rewrite get_pte_walk. destruct (walk1 m root _) as [p1|] eqn:Hw1; simpl; [|done].
  destruct (walk1 m p1 _) as [p0|] eqn:Hw0; simpl; [|done]. intros [= <-]. exists p0.
  split; [|done]. eapply walk1_label; [done| |by apply child_of_L1|done].
  eapply walk1_label; [done|by eapply pt_root|by apply child_of_Root|done].
Qed.

(** [map_page] from the two [ensure_table]s and the leaf. *)
Lemma map_page_ok s D root T va pa flags :
  as_inv s D root T → room s 2 → user_va va → 0 ≤ pa < 2 ^ 64 → 0 ≤ flags < 2 ^ 10 →
  wp (map_page va pa root flags) s (λ _ s', ∃ D' T',
    as_inv s' D' root T' ∧
    grows 2 (λ va', ¬ same_page va va') root s s' D D' T T' ∧
    pte_of (mm_mem s') root va = mk_pte (pa / 2 ^ 12)
      (Z.lor flags (Z.lor PAGE_PRESENT (Z.lor PAGE_ACCESSED PAGE_DIRTY)))).
Proof.
  intros Has Hroom Hva Hpa Hf. unfold map_page.
  assert (child_of Root (GET_VPN2 va) = Some (L1 (GET_VPN2 va))) as Hc2
    by (by apply child_of_Root, GET_VPN2_user).
  assert (child_of (L1 (GET_VPN2 va)) (GET_VPN1 va) = Some (L0 (GET_VPN2 va) (GET_VPN1 va)))
    as Hc1 by (apply child_of_L1, GET_VPN1_range).
  pose proof (pt_root _ _ _ (as_pt _ _ _ _ Has)) as Hroot. rewrite wp_bind.
  eapply wp_mono; [eapply ensure_table_spec; [done|done|done|]|].
  { unfold room, PAGE_SIZE in *. lia. }
  intros p1 s1 (D1 & T1 & Has1 & Hg1 & Hp1 & Hw1). simpl. rewrite wp_bind.
  pose proof (gr_curr _ _ _ _ _ _ _ _ _ Hg1) as Hcurr.
  eapply wp_mono; [eapply ensure_table_spec; [done|done|done|]|].
  { unfold room, PAGE_SIZE in *. lia. }
  intros p0 s2 (D2 & T2 & Has2 & Hg2 & Hp0 & Hw0). simpl.
  eapply wp_mono; [by eapply write_leaf_grows|].
  intros [] s3 (Has3 & Hg3 & Hpte). exists D2, T2.
  assert (grows 2 (λ va', ¬ same_page va va') root s s3 D D2 T T2) as Hg.
  { apply (grows_trans 1 1 _ _ _ s1 _ _ D1 _ _ T1); [by eapply grows_weaken, Hg1|].
    apply (grows_trans 1 0 _ _ _ s2 _ _ D2 _ _ T2); [by eapply grows_weaken, Hg2|done]. }
  split; [done|]. split; [done|]. rewrite <- Hpte. eapply pte_of_walk.
  - eapply (gr_walk _ _ _ _ _ _ _ _ _ Hg3); [|done|].
    + eapply lookup_weaken; [exact Hroot|]. apply Hg.
    + eapply (gr_walk _ _ _ _ _ _ _ _ _ Hg2); [|done|done].
      eapply lookup_weaken; [exact Hroot|]. apply Hg1.
  - eapply (gr_walk _ _ _ _ _ _ _ _ _ Hg3); [|done|done].
    eapply lookup_weaken; [exact Hp1|]. apply Hg2.
Qed.

(** C2: [map_page] installs the translation of its page, with the attributes
    given and the valid, accessed and dirty bits; it keeps the leaf entry of
    every other user page, the contents of every data page, and the
    well-formedness of the tree and of the allocator. *)
Theorem map_page_spec s D root T va pa flags :
  as_inv s D root T → room s 2 → user_va va → 0 ≤ pa < 2 ^ 64 → 0 ≤ flags < 2 ^ 10 →
  wp (map_page va pa root flags) s (λ _ s', ∃ D' T',
    as_inv s' D' root T' ∧
    grows 2 (λ va', ¬ same_page va va') root s s' D D' T T' ∧
    pte_of (mm_mem s') root va = mk_pte (pa / 2 ^ 12)
      (Z.lor flags (Z.lor PAGE_PRESENT (Z.lor PAGE_ACCESSED PAGE_DIRTY)))).
Proof. intros. by apply map_page_ok. Qed.

(** ** Memories that agree on the tables *)

Definition agree_tables (m m' : mem) (T : gmap Z label) : Prop :=
  ∀ r lr j, T !! r = Some lr → 0 ≤ j < 512 → m' (entry_addr r j) = m (entry_addr r j).

Section Agree.
Context (m m' : mem) (root : Z) (T : gmap Z label).
Hypothesis Hwf : pt_wf m root T.
Hypothesis Hag : agree_tables m m' T.

Lemma pt_wf_agree : pt_wf m' root T.
Proof.
  split.
  - apply (pt_root _ _ _ Hwf).
  - intros r lr c lc Hr Hc. pose proof (child_range _ _ _ Hc). rewrite (Hag r lr c) by done.
    by eapply (pt_child _ _ _ Hwf).
  - apply (pt_page _ _ _ Hwf).
  - intros r lr c Hr Hc. rewrite (Hag r lr c) by done. by eapply (pt_words _ _ _ Hwf).
Qed.

Lemma walk1_agree r lr c : T !! r = Some lr → 0 ≤ c < 512 → walk1 m' r c = walk1 m r c.
Proof. intros. unfold walk1. by rewrite (Hag r lr c). Qed.

Lemma get_pte_agree va : user_va va → get_pte m va root = get_pte m' va root.
Proof.
  intros Hva. pose proof (GET_VPN2_user va Hva) as H2. pose proof (GET_VPN1_range va) as H1.
  pose proof (pt_root _ _ _ Hwf) as Hroot. rewrite !get_pte_walk.
  rewrite (walk1_agree root Root) by (done || lia).
  destruct (walk1 m root (GET_VPN2 va)) as [p1|] eqn:Hw2; simpl; [|done].
  assert (T !! p1 = Some (L1 (GET_VPN2 va))) as Hp1.
  { eapply (walk1_label m root T Hwf root Root); [done|by apply child_of_Root|done]. }
  by rewrite (walk1_agree p1 (L1 (GET_VPN2 va))).
Qed.

Lemma pte_of_agree va : user_va va → pte_of m' root va = pte_of m root va.
Proof.
  intros Hva. unfold pte_of. rewrite <- (get_pte_agree va Hva).
  destruct (get_pte m va root) as [a|] eqn:Ha; [|done].
  destruct (get_pte_label m root T va a Hwf Hva Ha) as (p & Hp & ->).
  apply (Hag p _ _ Hp), GET_VPN0_range.
Qed.
End Agree.

(** A step that changes only a page that is not a table. *)
Lemma grows_data s s' D D' root T q :
  as_inv s D root T → (∃ F, mm_inv s' F D') → D ⊆ D' → q ∉ D ∧ aligned q →
  (∀ x, ¬ in_page q x → mm_mem s' x = mm_mem s x) →
  kernMemCurr s ≤ kernMemCurr s' ≤ kernMemCurr s + PAGE_SIZE →
  as_inv s' D' root T ∧ grows 1 (λ _, True) root s s' D D' T T.
Proof.
  intros [[F HI] Hwf Hsub] HI' HD [HqD Hqa] Hm Hc.
  assert (∀ p x, p ∈ D → in_page p x → mm_mem s' x = mm_mem s x) as Hpg.
  { intros p x Hp Hx. apply Hm. apply (in_page_disjoint p q); [|done| |done].
    - apply (inv_page _ _ _ HI). by right.
    - by intros ->. }
  assert (agree_tables (mm_mem s) (mm_mem s') T) as Hag.
  { intros r lr j Hr Hj. eapply Hpg; [by eapply Hsub|by apply in_page_entry]. }
  split; split; try done.
  - by eapply pt_wf_agree.
  - intros p l Hp. by eapply HD, Hsub.
  - intros p Hp HT. split; [done|]. intros x. by apply Hpg.
  - intros r lr j lj c Hr Hj Hw. pose proof (child_range _ _ _ Hj).
    by rewrite (walk1_agree (mm_mem s) _ T Hag r lr).
  - intros va Hva _. by apply (pte_of_agree (mm_mem s) _ root T).
Qed.

(** The attributes of a user page: V, R, W, X, U, A and D. *)
Definition USER_PAGE_FLAGS : Z := 0xdf.

(** [alloc_page_helper] from [allocPage] and [map_page]. *)
Lemma alloc_page_helper_ok s D root T va pid :
  as_inv s D root T → room s 3 → user_va va →
  wp (alloc_page_helper va root pid) s (λ q s', ∃ D' T',
    as_inv s' D' root T' ∧
    grows 3 (λ va', ¬ same_page va va') root s s' D D' T T' ∧
    q ∉ D ∧ q ∈ D' ∧ T' !! q = None ∧
    pte_of (mm_mem s') root va = mk_pte (kva2pa q / 2 ^ 12) USER_PAGE_FLAGS ∧
    (∀ x, in_page q x → mm_mem s' x = 0)).
Proof.
  intros Has Hroom Hva. unfold alloc_page_helper, memset_page. rewrite wp_bind.
  pose proof (as_alloc _ _ _ _ Has) as [F HI].
  eapply wp_mono; [eapply allocPage_1; [done|unfold room, PAGE_SIZE in *; lia]|].
  intros q s1 (F1 & HI1 & HqD & Hm1 & Hc1). simpl. rewrite wp_bind, wp_modify.
  set (s2 := set_mem (λ m, zero_page m q) s1).
  assert (q ∈ {[q]} ∪ D) as HqD' by set_solver.
  assert (mm_inv s2 F1 ({[q]} ∪ D)) as HI2.
  { apply mm_inv_set_mem; [done|]. intros p Hp. apply zero_page_out. intros Hx.
    by eapply (free_not_in_page _ _ _ q). }
  assert (page_ok s1 q) as Hq by (apply (inv_page _ _ _ HI1); by right).
  assert (kva_ok q) as Hqk.
  { eapply page_ok_kva; [done|]. by apply (inv_curr _ _ _ HI1). }
  destruct (grows_data s s2 D ({[q]} ∪ D) root T q) as [Has2 Hg2]; [done|by exists F1| | | |done|].
  - set_solver.
  - split; [done|apply Hq].
  - intros x Hx. simpl. rewrite zero_page_out by done. by apply Hm1.
  - assert (T !! q = None) as HTq.
    { destruct (T !! q) eqn:E; [|done]. by apply (as_sub _ _ _ _ Has) in E. }
    rewrite wp_bind. eapply wp_mono; [apply (map_page_ok s2 ({[q]} ∪ D) root T)|]; [done| |done| |done|].
    + unfold room, PAGE_SIZE in *. simpl. lia.
    + rewrite kva2pa_eq by done. unfold kva_ok, KVA_PA_OFFSET in *. lia.
    + intros [] s3 (D3 & T3 & Has3 & Hg3 & Hpte). rewrite wp_ret. exists D3, T3.
      split; [done|]. split; [|split; [done|split; [|split; [|split; [done|]]]]].
      * apply (grows_trans 1 2 _ _ _ s2 _ _ ({[q]} ∪ D) _ _ T); [|done].
        by eapply grows_weaken, Hg2.
      * by apply (gr_D _ _ _ _ _ _ _ _ _ Hg3).
      * by apply (gr_data _ _ _ _ _ _ _ _ _ Hg3 q).
      * intros x Hx. rewrite (proj2 (gr_data _ _ _ _ _ _ _ _ _ Hg3 q HqD' HTq) x Hx).
        by apply zero_page_in.
Qed.

(** C3: [alloc_page_helper] gives a user address a fresh page: the page was
    not allocated before, it reads as zero, it is mapped at the address with
    full user permissions, and every other page and translation is kept. *)
Theorem alloc_page_helper_spec s D root T va pid :
  as_inv s D root T → room s 3 → user_va va →
  wp (alloc_page_helper va root pid) s (λ q s', ∃ D' T',
    as_inv s' D' root T' ∧
    grows 3 (λ va', ¬ same_page va va') root s s' D D' T T' ∧
    q ∉ D ∧ q ∈ D' ∧ T' !! q = None ∧
    pte_of (mm_mem s') root va = mk_pte (kva2pa q / 2 ^ 12) USER_PAGE_FLAGS ∧
    (∀ x, in_page q x → mm_mem s' x = 0)).
Proof. intros. by apply alloc_page_helper_ok. Qed.

(** ** An empty address space, whose root is the first dynamic page *)

Definition empty_as : gmap Z label := {[FREEMEM_KERNEL := Root]}.

Lemma as_inv_one : as_inv mm_one {[FREEMEM_KERNEL]} FREEMEM_KERNEL empty_as.
Proof.
  assert (∀ p l, empty_as !! p = Some l → p = FREEMEM_KERNEL ∧ l = Root) as Hin.
  { unfold empty_as. by intros p l [-> ->]%lookup_singleton_Some. }
  split; [by exists []; apply mm_inv_one| |].
  - split.
    + apply lookup_singleton_eq.
    + by intros p l k l' [-> ->]%Hin.
    + by intros p l [-> ->]%Hin.
    + done.
  - intros p l [-> _]%Hin. set_solver.
Qed.

Lemma map_page_spec_witness :
  wp (map_page 0x10000 0x52005000 FREEMEM_KERNEL PAGE_READ) mm_one (λ _ s',
    pte_of (mm_mem s') FREEMEM_KERNEL 0x10000 = mk_pte 0x52005 0xc3).
Proof.
  eapply wp_mono.
  - apply (map_page_spec mm_one _ _ _ 0x10000 0x52005000 PAGE_READ as_inv_one);
      by vm_compute.
  - by intros _ s' (D' & T' & _ & _ & ->).
Defined.

Lemma alloc_page_helper_spec_witness :
  wp (alloc_page_helper 0x10000 FREEMEM_KERNEL 1) mm_one (λ q s',
    pte_of (mm_mem s') FREEMEM_KERNEL 0x10000 = mk_pte (kva2pa q / 2 ^ 12) USER_PAGE_FLAGS).
Proof.
  eapply wp_mono.
  - apply (alloc_page_helper_spec mm_one _ _ _ 0x10000 1 as_inv_one); by vm_compute.
  - by intros q s' (D' & T' & _ & _ & _ & _ & _ & ? & _).
Defined.
