(* ===== verification/Swap.v ===== *)
(** kernel/mm/swap.c: the second-chance clock over the resident user pages and
    the swap area on the SD card.

    The BIOS calls that move sectors between the card and physical memory are
    not part of the source: they are the class [BlockDevice], whose laws say
    that a card returns what was last written to a sector. *)
From S2P Require Import Prelude KMonad Pgtable MM.

(** ** The SD card *)

(** A card whose sectors hold [per] cells each (64-bit words here). *)
Class BlockDevice (per : nat) (D : Type) := {
  sd_read : D → Z → nat → list Z;
  sd_write : D → Z → nat → list Z → D;
  sd_read_length : ∀ d b n, length (sd_read d b n) = (n * per)%nat;
  sd_read_same : ∀ d b n ws, length ws = (n * per)%nat → sd_read (sd_write d b n ws) b n = ws;
  sd_read_other : ∀ d b n ws b' n',
    b' + Z.of_nat n' ≤ b ∨ b + Z.of_nat n ≤ b' →
    sd_read (sd_write d b n ws) b' n' = sd_read d b' n';
  (* reading several sectors is reading them one after another *)
  sd_read_app : ∀ d b n n', sd_read d b (n + n') = sd_read d b n ++ sd_read d (b + Z.of_nat n) n'
}.

(** A card as a function from cells to values. *)
Definition fun_read (per : nat) (d : Z → Z) (b : Z) (n : nat) : list Z :=
  (λ i, d (b * Z.of_nat per + Z.of_nat i)) <$> seq 0 (n * per).
Definition fun_write (per : nat) (d : Z → Z) (b : Z) (n : nat) (ws : list Z) : Z → Z := λ c,
  if decide (b * Z.of_nat per ≤ c < (b + Z.of_nat n) * Z.of_nat per)
  then default 0 (ws !! Z.to_nat (c - b * Z.of_nat per)) else d c.

#[export, refine] Instance fun_device (per : nat) : BlockDevice per (Z → Z) := {
  sd_read := fun_read per;
  sd_write := fun_write per
}.
Proof.
  - intros. unfold fun_read. by rewrite length_fmap, length_seq.
  - intros d b n ws Hws. apply list_eq. intros i. unfold fun_read, fun_write.
    rewrite list_lookup_fmap. destruct (decide (i < n * per)%nat) as [Hi|Hi].
    + rewrite lookup_seq_lt by done. simpl. rewrite decide_True by lia.
      replace (Z.to_nat _) with i by lia.
      destruct (lookup_lt_is_Some_2 ws i) as [w ->]; [lia|done].
    + rewrite lookup_seq_ge by lia. simpl. symmetry. apply lookup_ge_None_2. lia.
  - intros d b n ws b' n' Hd. apply list_eq. intros i. unfold fun_read, fun_write.
    rewrite !list_lookup_fmap. destruct (decide (i < n' * per)%nat) as [Hi|Hi].
    + rewrite lookup_seq_lt by done. simpl. rewrite decide_False by nia. done.
    + by rewrite lookup_seq_ge by lia.
  - intros d b n n'. unfold fun_read. rewrite Nat.mul_add_distr_r, seq_app, fmap_app. f_equal.
    apply list_eq. intros i. rewrite !list_lookup_fmap. destruct (decide (i < n' * per)%nat).
    + rewrite !lookup_seq_lt by done. simpl. f_equal. f_equal. lia.
    + by rewrite !lookup_seq_ge by lia.
Defined.

(** The cell [n] of the card, cells numbered through all sectors. *)
Definition sd_cell {per D} `{BlockDevice per D} (d : D) (n : Z) : Z :=
  default 0 (sd_read d (n / Z.of_nat per) 1 !! Z.to_nat (n mod Z.of_nat per)).

Lemma sd_read_cell {per D} `{BlockDevice per D} (d : D) b n i :
  (0 < per)%nat → (i < n * per)%nat →
  sd_read d b n !! i = Some (sd_cell d (b * Z.of_nat per + Z.of_nat i)).
Proof.
  intros Hper. revert b i. induction n as [|n IH]; intros b i Hi; [lia|].
  change (S n) with (1 + n)%nat. rewrite sd_read_app.
  pose proof (sd_read_length (per := per) d b 1) as Hl. destruct (decide (i < per)%nat).
  - rewrite lookup_app_l by lia. unfold sd_cell.
    rewrite Z.div_add_l, Z.div_small, Z.add_0_r, Z.add_comm, Z.mod_add, Z.mod_small, Nat2Z.id by lia.
    destruct (lookup_lt_is_Some_2 (sd_read d b 1) i) as [x ->]; [lia|done].
  - rewrite lookup_app_r by lia. rewrite IH by lia. do 2 f_equal. lia.
Qed.

(** ** Constants and state *)

Definition SWAP_SIZE : Z := 256 * 1024 * 1024.
Definition MAX_ALLOWABLE_PAGES : nat := 4.
Definition SECTOR_SIZE : Z := 512.
Definition SECTOR_NUMS_PER_PAGE : nat := 8.
Definition SWAP_MAX_PAGES : Z := SWAP_SIZE / PAGE_SIZE.
Definition swap_pages : nat := Z.to_nat SWAP_MAX_PAGES.
Lemma swap_pages_eq : Z.of_nat swap_pages = SWAP_MAX_PAGES.
Proof. unfold swap_pages. by rewrite Z2Nat.id. Qed.
#[global] Opaque swap_pages.
Lemma SWAP_MAX_PAGES_eq : SWAP_MAX_PAGES = 65536.
Proof. done. Qed.
Definition FREE : Z := 0.
Definition OCCUPIED : Z := 1.

Record active_page_t := mk_ap {
  ap_kva : Z;
  ap_pte : Z;
  ap_vaddr : Z;
  ap_pid : Z;
  ap_valid : Z
}.

Definition set_valid (v : Z) (a : active_page_t) : active_page_t :=
  mk_ap (ap_kva a) (ap_pte a) (ap_vaddr a) (ap_pid a) v.

Definition valid_b (a : active_page_t) : bool := negb (ap_valid a =? 0).
#[global] Arguments valid_b : simpl never.

Section Swap.
Context {D : Type} `{!BlockDevice 64 D}.

Record swap_state := mk_swap {
  sw_mm : mm_state;
  active_pages : list active_page_t;
  swap_page_status : list Z;
  clock_head : Z;
  active_page_count : Z;
  SWAP_START_SEC : Z;
  sw_disk : D
}.

Definition upd_mm (m : mm_state) (s : swap_state) : swap_state :=
  mk_swap m (active_pages s) (swap_page_status s) (clock_head s) (active_page_count s)
    (SWAP_START_SEC s) (sw_disk s).
Definition upd_active (l : list active_page_t) (s : swap_state) : swap_state :=
  mk_swap (sw_mm s) l (swap_page_status s) (clock_head s) (active_page_count s)
    (SWAP_START_SEC s) (sw_disk s).
Definition upd_status (l : list Z) (s : swap_state) : swap_state :=
  mk_swap (sw_mm s) (active_pages s) l (clock_head s) (active_page_count s)
    (SWAP_START_SEC s) (sw_disk s).
Definition upd_clock (c : Z) (s : swap_state) : swap_state :=
  mk_swap (sw_mm s) (active_pages s) (swap_page_status s) c (active_page_count s)
    (SWAP_START_SEC s) (sw_disk s).
Definition upd_count (c : Z) (s : swap_state) : swap_state :=
  mk_swap (sw_mm s) (active_pages s) (swap_page_status s) (clock_head s) c
    (SWAP_START_SEC s) (sw_disk s).
Definition upd_start (c : Z) (s : swap_state) : swap_state :=
  mk_swap (sw_mm s) (active_pages s) (swap_page_status s) (clock_head s)
    (active_page_count s) c (sw_disk s).
Definition upd_disk (d : D) (s : swap_state) : swap_state :=
  mk_swap (sw_mm s) (active_pages s) (swap_page_status s) (clock_head s)
    (active_page_count s) (SWAP_START_SEC s) d.

Definition on_mm {A} (m : M mm_state A) : M swap_state A := zoom sw_mm upd_mm m.

(** ** Disk transfers of [n] sectors at physical address [pa] *)

Definition read_words (m : mem) (a : Z) (n : nat) : list Z :=
  (λ i, m (entry_addr a (Z.of_nat i))) <$> seq 0 n.
Definition write_words (m : mem) (a : Z) (ws : list Z) : mem := λ x,
  if decide (a ≤ x < a + 8 * Z.of_nat (length ws) ∧ (x - a) mod 8 = 0)
  then default 0 (ws !! Z.to_nat ((x - a) / 8)) else m x.

Definition bios_sd_write (pa : Z) (n : nat) (sector : Z) : M swap_state unit :=
  modify (λ s, upd_disk (sd_write (sw_disk s) sector n
    (read_words (mm_mem (sw_mm s)) (pa2kva pa) (n * 64))) s).
Definition bios_sd_read (pa : Z) (n : nat) (sector : Z) : M swap_state unit :=
  modify (λ s, upd_mm (set_mem (λ m, write_words m (pa2kva pa)
    (sd_read (sw_disk s) sector n)) (sw_mm s)) s).

(** ** Operations *)

(** [swap_offset] is the word the image holds at SWAP_OFFSET_LOC. *)
Definition init_swap (swap_offset : Z) : M swap_state unit :=
  modify (upd_start (u32 (Z.quot swap_offset SECTOR_SIZE)));;
  modify (upd_status (replicate (swap_pages) FREE));;
  modify (λ s, upd_active (set_valid 0 <$> active_pages s) s).

Definition get_free_active_page_slot : M swap_state (option Z) :=
  s ← get;
  mret (Z.of_nat <$> first_index MAX_ALLOWABLE_PAGES
    (λ i, match active_pages s !! i with Some a => negb (valid_b a) | None => false end)).

Definition get_free_swap_id : M swap_state Z :=
  s ← get;
  match first_index (swap_pages)
    (λ i, bool_decide (swap_page_status s !! i = Some FREE)) with
  | Some i =>
      st ← of_opt (arr_set (swap_page_status s) (Z.of_nat i) OCCUPIED);
      modify (upd_status st);;
      mret (Z.of_nat i)
  | None => mret (-1)
  end.

Definition active_slot (i : Z) : M swap_state active_page_t :=
  s ← get; of_opt (arr_get (active_pages s) i).
Definition set_active_slot (i : Z) (a : active_page_t) : M swap_state unit :=
  s ← get; l ← of_opt (arr_set (active_pages s) i a); modify (upd_active l).

Definition advance_clock : M swap_state unit :=
  modify (λ s, upd_clock ((clock_head s + 1) mod Z.of_nat MAX_ALLOWABLE_PAGES) s).

(** [while (!active_pages[clock_head].valid) clock_head = (clock_head + 1) % MAX_ALLOWABLE_PAGES;] *)
Definition skip_step : M swap_state (unit + unit) :=
  s ← get;
  a ← active_slot (clock_head s);
  if valid_b a then mret (inr ()) else advance_clock;; mret (inl ()).
Definition skip_invalid : M swap_state unit :=
  while_ (S MAX_ALLOWABLE_PAGES) (λ _ : unit, skip_step) ().

Definition swap_sector (s : swap_state) (swap_index : Z) : Z :=
  u32 (SWAP_START_SEC s + swap_index * Z.of_nat SECTOR_NUMS_PER_PAGE).

Definition swap_write (kva swap_index : Z) : M swap_state unit :=
  s ← get;
  bios_sd_write (kva2pa kva) SECTOR_NUMS_PER_PAGE (swap_sector s swap_index).
Definition swap_read (kva swap_index : Z) : M swap_state unit :=
  s ← get;
  bios_sd_read (kva2pa kva) SECTOR_NUMS_PER_PAGE (swap_sector s swap_index).

(** One round of the clock loop of [swap_out]: [inr i] leaves it with the
    index of the page to replace. *)
Definition clock_step : M swap_state (unit + Z) :=
  skip_invalid;;
  s ← get;
  a ← active_slot (clock_head s);
  e ← on_mm (load (ap_pte a));
  if negb (Z.land e PAGE_ACCESSED =? 0) then
    on_mm (write (ap_pte a)
      (set_attribute e (Z.land (get_attribute e FLAGS_MASK) (Z.lnot PAGE_ACCESSED))));;
    advance_clock;;
    mret (inl ())
  else mret (inr (clock_head s)).

Definition clock_scan : M swap_state Z :=
  while_ (S MAX_ALLOWABLE_PAGES) (λ _ : unit, clock_step) ().

Definition swap_out : M swap_state Z :=
  s ← get;
  assert (Z.of_nat MAX_ALLOWABLE_PAGES <=? active_page_count s);;
  victim_idx ← clock_scan;
  victim ← active_slot victim_idx;
  swap_id ← get_free_swap_id;
  if swap_id =? -1 then mret (-1) else
  swap_write (ap_kva victim) swap_id;;
  on_mm (write (ap_pte victim) (Z.lor (u64 (Z.shiftl swap_id PAGE_PFN_SHIFT)) PAGE_SWAP));;
  on_mm (freePage (ap_kva victim));;
  advance_clock;;
  mret victim_idx.

Definition swap_in (kva swap_id : Z) : M swap_state unit :=
  swap_read kva swap_id;;
  s ← get;
  st ← of_opt (arr_set (swap_page_status s) swap_id FREE);
  modify (upd_status st).

(** The end of [add_to_active_list], where [ptr] is [&active_pages[i]];
    [pgdir] is [current_running->pgdir_kva]. *)
Definition fill_slot (pgdir pa va pid i : Z) : M swap_state unit :=
  old ← active_slot i;
  set_active_slot i (mk_ap (pa2kva pa) (ap_pte old) va pid 1);;
  s ← get;
  match get_pte (mm_mem (sw_mm s)) va pgdir with
  | None =>
      set_active_slot i (mk_ap (pa2kva pa) (ap_pte old) va pid 0);;
      modify (upd_count (s32 (active_page_count s - 1)))
  | Some pte => set_active_slot i (mk_ap (pa2kva pa) pte va pid 1)
  end.

Definition add_to_active_list (pgdir pa va pid : Z) : M swap_state unit :=
  s ← get;
  if active_page_count s <? Z.of_nat MAX_ALLOWABLE_PAGES then
    o ← get_free_active_page_slot;
    match o with
    | None => mret ()
    | Some i =>
        modify (upd_count (s32 (active_page_count s + 1)));;
        fill_slot pgdir pa va pid i
    end
  else
    victim_idx ← swap_out;
    if victim_idx =? -1 then exit_process else fill_slot pgdir pa va pid victim_idx.

Definition remove_from_active_list (page_kva : Z) : M swap_state unit :=
  s ← get;
  match first_index MAX_ALLOWABLE_PAGES
    (λ i, match active_pages s !! i with Some a => ap_kva a =? page_kva | None => false end) with
  | None => mret ()
  | Some i =>
      a ← active_slot (Z.of_nat i);
      set_active_slot (Z.of_nat i) (set_valid 0 a);;
      modify (upd_count (s32 (active_page_count s - 1)));;
      s ← get;
      if (0 <? active_page_count s) && (clock_head s =? Z.of_nat i) then skip_invalid else mret ()
  end.

(** ** Clearing the accessed bit *)

Definition clear_accessed (e : Z) : Z :=
  set_attribute e (Z.land (get_attribute e FLAGS_MASK) (Z.lnot PAGE_ACCESSED)).

Lemma clear_accessed_eq e : 0 ≤ e < 2 ^ 64 → clear_accessed e = Z.clearbit e 6.
Proof.
  intros He. unfold clear_accessed, set_attribute, get_attribute, FLAGS_MASK, PAGE_ACCESSED.
  rewrite land_high_flags by done. rewrite <- Z.shiftr_div_pow2 by done.
  apply Z.bits_inj'. intros i Hi. rewrite Z.clearbit_eqb, Z.lor_spec, !Z.land_spec by done.
  rewrite Z.shiftl_spec by done. change (2 ^ 10 - 1) with (Z.ones 10).
  rewrite Z.lnot_spec by done. change 64 with (2 ^ 6). rewrite Z.pow2_bits_eqb by done.
  destruct (decide (i < 10)).
  - rewrite Z.ones_spec_low by lia. rewrite (Z.testbit_neg_r _ (i - 10)) by lia.
    by rewrite andb_true_r.
  - rewrite Z.ones_spec_high by lia. rewrite Z.shiftr_spec by lia.
    replace (i - 10 + 10) with i by lia. rewrite (proj2 (Z.eqb_neq 6 i)) by lia.
    by destruct (Z.testbit e i).
Qed.

Lemma clear_accessed_range e : 0 ≤ e < 2 ^ 64 → 0 ≤ clear_accessed e < 2 ^ 64.
Proof.
  intros He. rewrite clear_accessed_eq by done. apply bits_range; [done|]. intros i Hi.
  rewrite Z.clearbit_eqb by lia. by rewrite (testbit_high 64) by lia.
Qed.

Lemma accessed_testbit e : negb (Z.land e PAGE_ACCESSED =? 0) = Z.testbit e 6.
Proof.
  unfold PAGE_ACCESSED. change 64 with (2 ^ 6). destruct (Z.testbit e 6) eqn:Hb.
  - apply negb_true_iff, Z.eqb_neq. intros E. apply (f_equal (λ z, Z.testbit z 6)) in E.
    rewrite Z.land_spec, Hb, Z.pow2_bits_true in E by done. by rewrite Z.bits_0 in E.
  - apply negb_false_iff, Z.eqb_eq. apply Z.bits_inj'. intros i Hi.
    rewrite Z.land_spec, Z.pow2_bits_eqb, Z.bits_0 by done.
    destruct (Z.eqb_spec 6 i) as [<-|]; [by rewrite Hb|apply andb_false_r].
Qed.

(** ** The invariant *)

Definition swap_mem (s : swap_state) : mem := mm_mem (sw_mm s).

(** The slot at index [i] holds the resident page [a]; [skip] is the slot of a
    page that was just swapped out and not replaced yet. *)
Definition resident (s : swap_state) (skip : option nat) (i : nat) (a : active_page_t) : Prop :=
  active_pages s !! i = Some a ∧ valid_b a = true ∧ Some i ≠ skip.

Record swap_inv (s : swap_state) (skip : option nat) (F : list Z) (A : gset Z) : Prop := {
  si_mm : mm_inv (sw_mm s) F A;
  si_len : length (active_pages s) = MAX_ALLOWABLE_PAGES;
  si_status : length (swap_page_status s) = swap_pages;
  si_clock : 0 ≤ clock_head s < Z.of_nat MAX_ALLOWABLE_PAGES;
  si_count : active_page_count s = Z.of_nat (count_if valid_b (active_pages s));
  si_kva : ∀ i a, resident s skip i a → ap_kva a ∈ A;
  si_table : ∀ i a, resident s skip i a →
    ∃ t, t ∈ A ∧ in_page t (ap_pte a) ∧ 0 ≤ swap_mem s (ap_pte a) < 2 ^ 64;
  si_sep : ∀ i j a b, resident s skip i a → resident s skip j b → ¬ in_page (ap_kva b) (ap_pte a);
  si_pte : ∀ i j a b, resident s skip i a → resident s skip j b → ap_pte a = ap_pte b → i = j;
  (* no slot below a resident page has its address: what
     [remove_from_active_list] needs to find the right slot *)
  si_first : ∀ i j a b, (i < j)%nat → active_pages s !! i = Some a → resident s skip j b →
    ap_kva a ≠ ap_kva b;
  si_sectors : 0 ≤ SWAP_START_SEC s ∧
    SWAP_START_SEC s + SWAP_MAX_PAGES * Z.of_nat SECTOR_NUMS_PER_PAGE < 2 ^ 32
}.

(** Every slot holds a resident page: what [swap_out] asserts. *)
Definition full (s : swap_state) : Prop := active_page_count s = Z.of_nat MAX_ALLOWABLE_PAGES.

Lemma full_valid s skip F A i a :
  swap_inv s skip F A → full s → active_pages s !! i = Some a → valid_b a = true.
Proof.
  intros HI Hfull. apply count_if_full. pose proof (si_count _ _ _ _ HI).
  pose proof (si_len _ _ _ _ HI). unfold full in *. lia.
Qed.

(** ** Second chance *)

(** The [k]-th slot from the clock's hand, its page-table entry address, and
    whether the entry's accessed bit is set. *)
Definition ring_slot (s : swap_state) (k : nat) : Z :=
  (clock_head s + Z.of_nat k) mod Z.of_nat MAX_ALLOWABLE_PAGES.
Definition pte_at (s : swap_state) (k : nat) : Z :=
  match arr_get (active_pages s) (ring_slot s k) with Some a => ap_pte a | None => 0 end.
Definition accessed (s : swap_state) (k : nat) : bool := Z.testbit (swap_mem s (pte_at s k)) 6.

(** The page to replace: the first from the hand whose accessed bit is clear,
    and the hand itself, after a full turn, when all are set. *)
Definition victim_pos (s : swap_state) : nat :=
  match first_index MAX_ALLOWABLE_PAGES (λ k, negb (accessed s k)) with
  | Some k => k
  | None => MAX_ALLOWABLE_PAGES
  end.

(** The memory after the hand passed [k] slots. *)
Fixpoint passed (s : swap_state) (k : nat) : mem :=
  match k with
  | O => swap_mem s
  | S k' => store (passed s k') (pte_at s k') (clear_accessed (passed s k' (pte_at s k')))
  end.
Definition scanned (s : swap_state) (k : nat) : swap_state :=
  upd_clock (ring_slot s k) (upd_mm (set_mem (λ _, passed s k) (sw_mm s)) s).

Lemma passed_out s k x : (∀ j, (j < k)%nat → pte_at s j ≠ x) → passed s k x = swap_mem s x.
Proof.
  induction k as [|k IH]; intros Hx; [done|]. simpl. unfold store.
  rewrite decide_False by (intros ->; by apply (Hx k); [lia|]).
  apply IH. intros j ?. apply Hx. lia.
Qed.

Lemma passed_in s k j :
  (j < k)%nat → (∀ i, (i < k)%nat → pte_at s i = pte_at s j → i = j) →
  passed s k (pte_at s j) = clear_accessed (swap_mem s (pte_at s j)).
Proof.
  induction k as [|k IH]; [lia|]. intros Hj Hinj. simpl. unfold store.
  destruct (decide (j = k)) as [->|Hne].
  - rewrite decide_True by done. f_equal. apply passed_out.
    intros i Hi E. specialize (Hinj i). lia.
  - rewrite decide_False by (intros E; symmetry in E; apply Hne; symmetry; apply Hinj; [lia|done]).
    apply IH; [lia|]. intros i ?. apply Hinj. lia.
Qed.

Lemma skip_step_eq s a :
  arr_get (active_pages s) (clock_head s) = Some a →
  skip_step s = if valid_b a then Ok (inr ()) s
    else Ok (inl ()) (upd_clock ((clock_head s + 1) mod Z.of_nat MAX_ALLOWABLE_PAGES) s).
Proof.
  intros Ha. unfold skip_step, active_slot, mbind, M_bind, get, of_opt. rewrite Ha.
  by destruct (valid_b a).
Qed.

Section Scan.
Context (s : swap_state) (F : list Z) (A : gset Z).
Hypothesis HI : swap_inv s None F A.
Hypothesis Hfull : full s.

Lemma ring_slot_range k : 0 ≤ ring_slot s k < Z.of_nat MAX_ALLOWABLE_PAGES.
Proof. unfold ring_slot. by apply Z.mod_pos_bound. Qed.

Lemma ring_slot_inj i j : (i < MAX_ALLOWABLE_PAGES)%nat → (j < MAX_ALLOWABLE_PAGES)%nat →
  ring_slot s i = ring_slot s j → i = j.
Proof.
  unfold ring_slot, MAX_ALLOWABLE_PAGES. intros. Z.to_euclidean_division_equations; lia.
Qed.

Lemma ring_slot_wrap : ring_slot s MAX_ALLOWABLE_PAGES = ring_slot s 0.
Proof. unfold ring_slot, MAX_ALLOWABLE_PAGES. Z.to_euclidean_division_equations; lia. Qed.

Lemma ring_slot_get k : ∃ a, arr_get (active_pages s) (ring_slot s k) = Some a ∧
  resident s None (Z.to_nat (ring_slot s k)) a ∧ ap_pte a = pte_at s k.
Proof.
  destruct (arr_get_is_Some (active_pages s) (ring_slot s k)) as [a Ha].
  { rewrite (si_len _ _ _ _ HI). apply ring_slot_range. }
  exists a. split; [done|]. unfold pte_at. rewrite Ha.
  apply arr_get_Some in Ha as [? Ha]. split; [|done]. split; [done|]. split; [|done].
  by eapply full_valid.
Qed.

Lemma pte_at_inj i j : (i < MAX_ALLOWABLE_PAGES)%nat → (j < MAX_ALLOWABLE_PAGES)%nat →
  pte_at s i = pte_at s j → i = j.
Proof.
  intros Hi Hj E.
  destruct (ring_slot_get i) as (a & _ & Ha & Ea), (ring_slot_get j) as (b & _ & Hb & Eb).
  apply ring_slot_inj; [done|done|]. pose proof (ring_slot_range i). pose proof (ring_slot_range j).
  assert (Z.to_nat (ring_slot s i) = Z.to_nat (ring_slot s j)); [|lia].
  eapply (si_pte _ _ _ _ HI); [done|done|congruence].
Qed.

Lemma pte_at_word k : 0 ≤ swap_mem s (pte_at s k) < 2 ^ 64.
Proof.
  destruct (ring_slot_get k) as (a & _ & Ha & <-).
  by destruct (si_table _ _ _ _ HI _ _ Ha) as (t & _ & _ & ?).
Qed.

(** What the hand sees at its [k]-th slot. *)
Lemma passed_seen k : (k ≤ MAX_ALLOWABLE_PAGES)%nat →
  Z.testbit (passed s k (pte_at s k)) 6 = if decide (k = MAX_ALLOWABLE_PAGES) then false else accessed s k.
Proof.
  intros Hk. case_decide as E.
  - subst k. assert (pte_at s MAX_ALLOWABLE_PAGES = pte_at s 0) as ->.
    { unfold pte_at. by rewrite ring_slot_wrap. }
    rewrite passed_in; [|unfold MAX_ALLOWABLE_PAGES; lia|].
    + rewrite clear_accessed_eq by apply pte_at_word.
      by rewrite Z.clearbit_eqb, andb_false_r.
    + intros i Hi. apply pte_at_inj; [done|]. unfold MAX_ALLOWABLE_PAGES; lia.
  - rewrite passed_out; [done|]. intros j Hj Hp. apply pte_at_inj in Hp; lia.
Qed.

Lemma skip_invalid_full k : skip_invalid (scanned s k) = Ok () (scanned s k).
Proof.
  destruct (ring_slot_get k) as (a & Ha & (_ & Hv & _) & _).
  unfold skip_invalid. rewrite while_eq, (skip_step_eq _ a) by done. by rewrite Hv.
Qed.
Lemma scanned_0 : scanned s 0 = s.
Proof.
  pose proof (si_clock _ _ _ _ HI). unfold scanned, ring_slot. rewrite Nat2Z.inj_0, Z.add_0_r.
  rewrite Z.mod_small by done. by destruct s as [[]].
Qed.

Lemma ring_slot_S k : (ring_slot s k + 1) mod Z.of_nat MAX_ALLOWABLE_PAGES = ring_slot s (S k).
Proof.
  unfold ring_slot. rewrite Zplus_mod_idemp_l. f_equal. lia.
Qed.

Lemma clock_step_at k :
  clock_step (scanned s k)
  = if Z.testbit (passed s k (pte_at s k)) 6 then Ok (inl ()) (scanned s (S k))
    else Ok (inr (ring_slot s k)) (scanned s k).
Proof.
  destruct (ring_slot_get k) as (a & Ha & _ & Hp).
  unfold clock_step, mbind, M_bind. rewrite skip_invalid_full. cbv beta iota.
  unfold get at 1. cbv beta iota. unfold active_slot, get, of_opt, mbind, M_bind.
  change (active_pages (scanned s k)) with (active_pages s).
  change (clock_head (scanned s k)) with (ring_slot s k). rewrite Ha. cbv beta iota.
  unfold on_mm, zoom, load, gets, write, modify, advance_clock, mret, M_ret.
  change (mm_mem (sw_mm (scanned s k))) with (passed s k).
  rewrite Hp, accessed_testbit. destruct (Z.testbit _ 6).
  - unfold modify, scanned. simpl. rewrite <- ring_slot_S. done.
  - done.
Qed.

Lemma victim_pos_le : (victim_pos s ≤ MAX_ALLOWABLE_PAGES)%nat.
Proof.
  unfold victim_pos. destruct (first_index _ _) eqn:E; [|done].
  apply first_index_Some in E. lia.
Qed.

Lemma victim_pos_seen k : (k ≤ victim_pos s)%nat →
  Z.testbit (passed s k (pte_at s k)) 6 = bool_decide (k < victim_pos s)%nat.
Proof.
  intros Hk. pose proof victim_pos_le. rewrite passed_seen by lia.
  unfold victim_pos in *. destruct (first_index _ _) as [v|] eqn:E.
  - apply first_index_Some in E as (Hv & Hn & Hlow). rewrite decide_False by lia.
    destruct (decide (k = v)) as [->|].
    + rewrite bool_decide_false by lia. by apply negb_true_iff.
    + rewrite bool_decide_true by lia. apply negb_false_iff. apply Hlow. lia.
  - case_decide.
    + by rewrite bool_decide_false by lia.
    + rewrite bool_decide_true by lia. rewrite first_index_None in E.
      apply negb_false_iff. apply E. lia.
Qed.

Lemma clock_scan_ok :
  clock_scan s = Ok (ring_slot s (victim_pos s)) (scanned s (victim_pos s)).
Proof.
  assert (∀ n k fuel, (k + n = victim_pos s)%nat → (n < fuel)%nat →
    while_ fuel (λ _ : unit, clock_step) () (scanned s k)
    = Ok (ring_slot s (victim_pos s)) (scanned s (victim_pos s))) as Hrun.
  { induction n as [|n IH]; intros k [|fuel] Hk Hfuel; try lia; simpl;
      unfold mbind, M_bind; rewrite clock_step_at, victim_pos_seen by lia.
    - rewrite bool_decide_false by lia. by replace k with (victim_pos s) by lia.
    - rewrite bool_decide_true by lia. apply IH; lia. }
  rewrite <- scanned_0 at 1. apply (Hrun (victim_pos s)); [done|].
  pose proof victim_pos_le. lia.
Qed.

Lemma passed_word k x : 0 ≤ swap_mem s x < 2 ^ 64 → 0 ≤ passed s k x < 2 ^ 64.
Proof.
  intros Hx. induction k as [|k IH]; simpl; [done|]. unfold store.
  case_decide; [|done]. subst. by apply clear_accessed_range.
Qed.

Lemma pte_at_table k : ∃ i a, resident s None i a ∧ ap_pte a = pte_at s k.
Proof. destruct (ring_slot_get k) as (a & _ & Ha & Hp). by eexists _, a. Qed.

(** The page-table entries of the resident pages are not in free pages. *)
Lemma pte_not_free i a : resident s None i a → ap_pte a ∉ F.
Proof.
  intros Ha. destruct (si_table _ _ _ _ HI _ _ Ha) as (t & Ht & Hin & _).
  eapply free_not_in_page; [apply (si_mm _ _ _ _ HI)|done|done].
Qed.

Lemma passed_free k p : p ∈ F → passed s k p = swap_mem s p.
Proof.
  intros Hp. apply passed_out. intros j _ <-.
  destruct (pte_at_table j) as (i & a & Ha & E). rewrite <- E in Hp.
  exact (pte_not_free _ _ Ha Hp).
Qed.

(** The hand does not write in resident pages. *)
Lemma passed_page k i a x : resident s None i a → in_page (ap_kva a) x →
  passed s k x = swap_mem s x.
Proof.
  intros Ha Hx. apply passed_out. intros j _ <-.
  destruct (pte_at_table j) as (i' & b & Hb & E). rewrite <- E in Hx.
  exact (si_sep _ _ _ _ HI _ _ _ _ Hb Ha Hx).
Qed.

Lemma swap_inv_scanned k : swap_inv (scanned s k) None F A.
Proof.
  pose proof (ring_slot_range k). pose proof passed_free.
  destruct HI as [Hmm ? ? ? ? ? Ht ? ? ? ?]. split; try done.
  - apply mm_inv_set_mem; [done|]. by auto.
  - intros i a Ha. destruct (Ht i a Ha) as (t & ? & ? & ?). exists t.
    split; [done|]. split; [done|]. by apply passed_word.
Qed.
End Scan.

(** ** Swap slots *)

Definition find_free (st : list Z) : option nat :=
  first_index (swap_pages) (λ i, bool_decide (st !! i = Some FREE)).

Lemma find_free_Some st id : find_free st = Some id →
  (id < swap_pages)%nat ∧ st !! id = Some FREE.
Proof.
  intros (? & Hb & _)%first_index_Some. apply bool_decide_eq_true in Hb. done.
Qed.

Lemma get_free_swap_id_Some s id :
  length (swap_page_status s) = swap_pages → find_free (swap_page_status s) = Some id →
  get_free_swap_id s = Ok (Z.of_nat id) (upd_status (<[id := OCCUPIED]> (swap_page_status s)) s).
Proof.
  intros Hl Hf. pose proof (find_free_Some _ _ Hf) as [Hid _].
  unfold get_free_swap_id, mbind, M_bind, get. unfold find_free in Hf. rewrite Hf.
  rewrite arr_set_Some by lia. rewrite Nat2Z.id. done.
Qed.

Lemma get_free_swap_id_None s :
  find_free (swap_page_status s) = None → get_free_swap_id s = Ok (-1) s.
Proof. intros Hf. unfold get_free_swap_id, mbind, M_bind, get. unfold find_free in Hf. by rewrite Hf. Qed.

(** The first sector of swap slot [id]. *)
Definition slot_sector (s : swap_state) (id : Z) : Z :=
  SWAP_START_SEC s + id * Z.of_nat SECTOR_NUMS_PER_PAGE.

(** The swap area: a status per slot, and 32-bit sector numbers. *)
Definition swap_area_ok (s : swap_state) : Prop :=
  length (swap_page_status s) = swap_pages ∧ 0 ≤ SWAP_START_SEC s ∧
  SWAP_START_SEC s + SWAP_MAX_PAGES * Z.of_nat SECTOR_NUMS_PER_PAGE < 2 ^ 32.

Lemma swap_inv_area s skip F A : swap_inv s skip F A → swap_area_ok s.
Proof. by intros []. Qed.

Lemma swap_sector_eq s id : swap_area_ok s → 0 ≤ id < SWAP_MAX_PAGES →
  swap_sector s id = slot_sector s id.
Proof.
  intros (_ & ? & ?) Hid. unfold swap_sector, slot_sector.
  apply u32_id. unfold SECTOR_NUMS_PER_PAGE in *. simpl in *. lia.
Qed.

Definition PAGE_WORDS : nat := 512.
Definition page_words (m : mem) (p : Z) : list Z := read_words m p PAGE_WORDS.

Lemma length_read_words m a n : length (read_words m a n) = n.
Proof. unfold read_words. by rewrite length_fmap, length_seq. Qed.

Lemma read_words_ext m m' a n :
  (∀ i, (i < n)%nat → m' (entry_addr a (Z.of_nat i)) = m (entry_addr a (Z.of_nat i))) →
  read_words m' a n = read_words m a n.
Proof.
  intros Hm. unfold read_words. apply list_fmap_ext. intros i x Hx%lookup_seq. apply Hm. lia.
Qed.

Lemma write_words_in m a ws i w : ws !! i = Some w →
  write_words m a ws (entry_addr a (Z.of_nat i)) = w.
Proof.
  intros Hw. pose proof (lookup_lt_Some _ _ _ Hw). unfold write_words, entry_addr.
  rewrite decide_True.
  - replace (a + 8 * Z.of_nat i - a) with (Z.of_nat i * 8) by lia.
    rewrite Z.div_mul by done. by rewrite Nat2Z.id, Hw.
  - split; [lia|]. replace (a + 8 * Z.of_nat i - a) with (Z.of_nat i * 8) by lia. by apply Z.mod_mul.
Qed.

Lemma read_write_words m a ws : read_words (write_words m a ws) a (length ws) = ws.
Proof.
  apply list_eq. intros i. unfold read_words. rewrite list_lookup_fmap.
  destruct (decide (i < length ws)%nat) as [Hi|Hi].
  - rewrite lookup_seq_lt by done. simpl.
    destruct (lookup_lt_is_Some_2 ws i Hi) as [w Hw]. rewrite Hw. f_equal. by apply write_words_in.
  - rewrite lookup_seq_ge by lia. simpl. symmetry. apply lookup_ge_None_2. lia.
Qed.

Lemma write_words_out m p ws x : length ws = PAGE_WORDS → ¬ in_page p x → write_words m p ws x = m x.
Proof.
  intros Hl Hx. unfold write_words. rewrite decide_False; [done|].
  unfold in_page, PAGE_SIZE in Hx. unfold PAGE_WORDS in Hl. rewrite Hl. lia.
Qed.

(** The entry of a page in swap slot [id]. *)
Definition swap_entry (id : Z) : Z := mk_pte id PAGE_SWAP.

Lemma swap_entry_eq id : 0 ≤ id < SWAP_MAX_PAGES →
  Z.lor (u64 (Z.shiftl id PAGE_PFN_SHIFT)) PAGE_SWAP = swap_entry id.
Proof.
  rewrite SWAP_MAX_PAGES_eq. intros Hid.
  unfold PAGE_PFN_SHIFT. rewrite u64_id.
  - by apply lor_shiftl_add.
  - rewrite Z.shiftl_mul_pow2 by done. change (2 ^ 10) with 1024. lia.
Qed.

Lemma get_pfn_swap_entry id : get_pfn (swap_entry id) = id.
Proof.
  unfold get_pfn, swap_entry, mk_pte, PAGE_PFN_SHIFT. rewrite Z.shiftr_div_pow2 by done.
  by rewrite div_mul_add_low.
Qed.

(** ** Swapping out *)

(** The state after the victim [a] of slot [v] went to swap slot [id], from
    the memory [m] that the clock left. *)
Definition swapped_out (s : swap_state) (m : mem) (v : Z) (a : active_page_t) (id : nat)
    (F : list Z) : swap_state :=
  let m' := store m (ap_pte a) (swap_entry (Z.of_nat id)) in
  mk_swap (mk_mm (store m' (ap_kva a) (freePageList (sw_mm s))) (kernMemCurr (sw_mm s))
             (ap_kva a) (Z.of_nat (length (ap_kva a :: F))))
    (active_pages s) (<[id := OCCUPIED]> (swap_page_status s))
    ((v + 1) mod Z.of_nat MAX_ALLOWABLE_PAGES) (active_page_count s) (SWAP_START_SEC s)
    (sd_write (sw_disk s) (slot_sector s (Z.of_nat id)) SECTOR_NUMS_PER_PAGE
      (page_words m (ap_kva a))).

Section Out.
Context (s : swap_state) (F : list Z) (A : gset Z).
Hypothesis HI : swap_inv s None F A.
Hypothesis Hfull : full s.
Let k := victim_pos s.
Let v := ring_slot s k.

Lemma full_assert : (Z.of_nat MAX_ALLOWABLE_PAGES <=? active_page_count s) = true.
Proof. apply Z.leb_le. unfold full in Hfull. lia. Qed.

Lemma swap_out_none :
  find_free (swap_page_status s) = None → swap_out s = Ok (-1) (scanned s k).
Proof.
  intros Hf. destruct (ring_slot_get s F A HI Hfull k) as (a & Ha & _ & _).
  unfold swap_out, mbind, M_bind, get at 1, assert. rewrite full_assert.
  rewrite (clock_scan_ok s F A) by done. unfold active_slot, mbind, M_bind, get at 1, of_opt.
  change (active_pages (scanned s (victim_pos s))) with (active_pages s). fold k. rewrite Ha.
  rewrite get_free_swap_id_None by done. done.
Qed.

Lemma swap_out_some a id :
  find_free (swap_page_status s) = Some id → arr_get (active_pages s) v = Some a →
  swap_out s = Ok v (swapped_out s (passed s k) v a id F).
Proof.
  intros Hf Ha. pose proof (find_free_Some _ _ Hf) as [Hid _].
  pose proof (swap_inv_scanned s F A HI Hfull k) as HIk.
  assert (resident s None (Z.to_nat v) a) as Hres.
  { destruct (ring_slot_get s F A HI Hfull k) as (b & Hb & ? & _). unfold v in Ha.
    rewrite Hb in Ha. by injection Ha as ->. }
  assert (ap_kva a ∈ A) as HaA by (by eapply (si_kva _ _ _ _ HI)).
  assert (0 ≤ Z.of_nat id < SWAP_MAX_PAGES) as Hidr by (rewrite <- swap_pages_eq; lia).
  unfold swap_out, mbind, M_bind, get at 1, assert. rewrite full_assert.
  rewrite (clock_scan_ok s F A) by done. unfold active_slot, mbind, M_bind, get at 1, of_opt.
  change (active_pages (scanned s (victim_pos s))) with (active_pages s). fold k v. rewrite Ha.
  rewrite (get_free_swap_id_Some _ id) by (done || apply (si_status _ _ _ _ HI)).
  rewrite (proj2 (Z.eqb_neq _ _)) by lia.
  unfold swap_write, bios_sd_write, mbind, M_bind, get at 1, modify at 1.
  rewrite pa2kva_kva2pa by (eapply page_ok_kva;
    [apply (inv_page _ _ _ (si_mm _ _ _ _ HI)); by right|apply (inv_curr _ _ _ (si_mm _ _ _ _ HI))]).
  unfold on_mm at 1, zoom at 1, write, modify at 1. rewrite swap_entry_eq by done.
  unfold on_mm at 1, zoom at 1. simpl sw_mm.
  erewrite freePage_ok; [| |exact HaA].
  2: { apply (mm_inv_set_mem (sw_mm (scanned s k)) F A); [apply (si_mm _ _ _ _ HIk)|].
       intros p Hp. apply store_ne. intros ->.
       exact (pte_not_free s F A HI _ _ Hres Hp). }
  unfold advance_clock, modify, mret, M_ret. f_equal.
  unfold swapped_out. by rewrite <- (swap_sector_eq s) by (done || by eapply swap_inv_area).
Qed.

Lemma victim_resident a : arr_get (active_pages s) v = Some a → resident s None (Z.to_nat v) a.
Proof.
  intros Ha. destruct (ring_slot_get s F A HI Hfull k) as (b & Hb & ? & _).
  unfold v in Ha. rewrite Hb in Ha. by injection Ha as ->.
Qed.

(** What swapping out writes: the entries the hand cleared, the entry of the
    victim, the first word of its page (the free-list link). *)
Lemma swapped_out_mem a id x :
  (∀ j, (j < k)%nat → x ≠ pte_at s j) → x ≠ ap_pte a → x ≠ ap_kva a →
  swap_mem (swapped_out s (passed s k) v a id F) x = swap_mem s x.
Proof.
  intros Hj Hp Hk. unfold swap_mem at 1. simpl. rewrite !store_ne by done.
  apply passed_out. intros j ? <-. by eapply Hj.
Qed.

Lemma swap_inv_swapped_out a id :
  (id < swap_pages)%nat → arr_get (active_pages s) v = Some a →
  swap_inv (swapped_out s (passed s k) v a id F) (Some (Z.to_nat v)) (ap_kva a :: F) (A ∖ {[ap_kva a]}).
Proof.
  intros Hid Ha. pose proof (victim_resident a Ha) as Hv.
  pose proof (swap_inv_scanned s F A HI Hfull k) as HIk.
  assert (ap_kva a ∈ A) as HaA by (by eapply (si_kva _ _ _ _ HI)).
  assert (∀ i b, resident (swapped_out s (passed s k) v a id F) (Some (Z.to_nat v)) i b →
    resident s None i b ∧ i ≠ Z.to_nat v) as Hres.
  { intros i b (? & ? & ?). split; [done|congruence]. }
  assert (∀ i b, resident s None i b → i ≠ Z.to_nat v → ap_kva b ≠ ap_kva a) as Hkva.
  { intros i b Hb Hne E. destruct (decide (i < Z.to_nat v)%nat).
    - by apply (si_first _ _ _ _ HI i (Z.to_nat v) b a); [|apply Hb| |].
    - apply (si_first _ _ _ _ HI (Z.to_nat v) i a b); [lia|apply Hv|done|done]. }
  destruct HI as [Hmm Hlen Hst Hcl Hcnt Hk Ht Hsep Hpte Hfst Hsec]. split; simpl.
  - apply (mm_inv_free (mk_mm (store (passed s k) (ap_pte a) (swap_entry (Z.of_nat id)))
      (kernMemCurr (sw_mm s)) (freePageList (sw_mm s)) (free_page_list_count (sw_mm s)))); [|done].
    apply (mm_inv_set_mem (sw_mm (scanned s k)) F A
      (λ m, store m (ap_pte a) (swap_entry (Z.of_nat id)))); [apply (si_mm _ _ _ _ HIk)|].
    intros p Hp. apply store_ne. intros ->. exact (pte_not_free s F A HI _ _ Hv Hp).
  - done.
  - by rewrite length_insert.
  - by apply Z.mod_pos_bound.
  - done.
  - intros i b [Hb Hne]%Hres. pose proof (Hkva _ _ Hb Hne). pose proof (Hk _ _ Hb). set_solver.
  - intros i b [Hb Hne]%Hres. destruct (Ht _ _ Hb) as (t & HtA & Hin & Hw). exists t.
    split; [|split; [done|]].
    + assert (t ≠ ap_kva a); [|set_solver]. intros ->. exact (Hsep _ _ _ _ Hb Hv Hin).
    + unfold swap_mem. simpl. rewrite store_ne, store_ne.
      * by apply passed_word.
      * intros E. apply Hne. by eapply Hpte.
      * intros E. apply (Hsep _ _ _ _ Hb Hv). rewrite E. apply in_page_base.
  - intros i j b c [Hb _]%Hres [Hc _]%Hres. by eapply Hsep.
  - intros i j b c [Hb _]%Hres [Hc _]%Hres. by eapply Hpte.
  - intros i j b c Hij Hb [Hc _]%Hres. by eapply Hfst.
  - done.
Qed.

Lemma passed_page_words i b : resident s None i b →
  page_words (passed s k) (ap_kva b) = page_words (swap_mem s) (ap_kva b).
Proof.
  intros Hb. apply read_words_ext. intros j Hj. eapply passed_page; [done..|].
  apply in_page_entry. unfold PAGE_WORDS in Hj. lia.
Qed.
End Out.

(** C5: [swap_out] with every slot in use replaces the page that the
    second-chance clock designates. Its contents go to the first free swap
    slot, its entry becomes the (non-present) entry of that slot, the page goes
    back to the allocator, other slots of the disk are kept, and memory changes
    only in the accessed bits the hand cleared, the entry and the freed page.
    When the swap area is full nothing but accessed bits and the hand changes. *)
Theorem swap_out_spec s F A :
  swap_inv s None F A → full s →
  match find_free (swap_page_status s) with
  | None => swap_out s = Ok (-1) (scanned s (victim_pos s)) ∧
      swap_inv (scanned s (victim_pos s)) None F A
  | Some id =>
      wp swap_out s (λ v s', ∃ a,
        v = ring_slot s (victim_pos s) ∧ arr_get (active_pages s) v = Some a ∧
        swap_inv s' (Some (Z.to_nat v)) (ap_kva a :: F) (A ∖ {[ap_kva a]}) ∧
        swap_mem s' (ap_pte a) = swap_entry (Z.of_nat id) ∧
        swap_page_status s' = <[id := OCCUPIED]> (swap_page_status s) ∧
        sd_read (sw_disk s') (slot_sector s (Z.of_nat id)) SECTOR_NUMS_PER_PAGE
          = page_words (swap_mem s) (ap_kva a) ∧
        (∀ id', 0 ≤ id' → id' ≠ Z.of_nat id →
          sd_read (sw_disk s') (slot_sector s id') SECTOR_NUMS_PER_PAGE
          = sd_read (sw_disk s) (slot_sector s id') SECTOR_NUMS_PER_PAGE) ∧
        (∀ x, (∀ j, (j < victim_pos s)%nat → x ≠ pte_at s j) → x ≠ ap_pte a → x ≠ ap_kva a →
          swap_mem s' x = swap_mem s x))
  end.
Proof.
  intros HI Hfull. destruct (find_free _) as [id|] eqn:Hf.
  - destruct (ring_slot_get s F A HI Hfull (victim_pos s)) as (a & Ha & Hres & _).
    eapply wp_ok; [by eapply swap_out_some|]. pose proof (find_free_Some _ _ Hf) as [Hid _].
    exists a. split; [done|]. split; [done|]. split; [by apply swap_inv_swapped_out|].
    split; [|split; [done|split; [|split]]].
    + unfold swap_mem. simpl. rewrite store_ne, store_eq; [done|].
      intros E. eapply (si_sep _ _ _ _ HI); [exact Hres|exact Hres|].
      rewrite E. apply in_page_base.
    + simpl. rewrite sd_read_same by apply length_read_words.
      by eapply passed_page_words.
    + intros id' ? ?. simpl. apply sd_read_other. unfold slot_sector, SECTOR_NUMS_PER_PAGE. lia.
    + intros x. apply swapped_out_mem.
  - split; [by eapply swap_out_none|by apply swap_inv_scanned].
Qed.


(** ** Swapping in *)

Lemma swap_in_ok s q id :
  swap_area_ok s → kva_ok q → 0 ≤ id < SWAP_MAX_PAGES →
  swap_in q id s
  = Ok () (upd_status (<[Z.to_nat id := FREE]> (swap_page_status s))
      (upd_mm (set_mem (λ m, write_words m q
        (sd_read (sw_disk s) (slot_sector s id) SECTOR_NUMS_PER_PAGE)) (sw_mm s)) s)).
Proof.
  intros HI Hq Hid. unfold swap_in, swap_read, bios_sd_read, mbind, M_bind, get, modify.
  rewrite pa2kva_kva2pa, (swap_sector_eq s) by done. simpl.
  rewrite arr_set_Some; [done|]. destruct HI as [-> _]. by rewrite swap_pages_eq.
Qed.

(** C6: A page that was swapped out comes back unchanged: reading the slot
    that the victim's entry names into any page restores the contents the
    victim had, frees the slot and touches no other page. *)
Theorem swap_roundtrip s F A id q :
  swap_inv s None F A → full s → find_free (swap_page_status s) = Some id → kva_ok q →
  wp swap_out s (λ v s', ∃ a, v = ring_slot s (victim_pos s) ∧ arr_get (active_pages s) v = Some a ∧
    wp (swap_in q (get_pfn (swap_mem s' (ap_pte a)))) s' (λ _ s'',
      page_words (swap_mem s'') q = page_words (swap_mem s) (ap_kva a) ∧
      swap_page_status s'' = swap_page_status s ∧
      (∀ x, ¬ in_page q x → swap_mem s'' x = swap_mem s' x))).
Proof.
  intros HI Hfull Hf Hq. pose proof (find_free_Some _ _ Hf) as [Hid HFree].
  destruct (ring_slot_get s F A HI Hfull (victim_pos s)) as (a & Ha & Hres & _).
  eapply wp_ok; [by eapply swap_out_some|]. exists a. do 2 (split; [done|]).
  set (s' := swapped_out _ _ _ _ _ _).
  pose proof (swap_inv_swapped_out s F A HI Hfull a id Hid Ha) as HI'. fold s' in HI'.
  assert (swap_mem s' (ap_pte a) = swap_entry (Z.of_nat id)) as ->.
  { unfold swap_mem. simpl. rewrite store_ne, store_eq; [done|].
    intros E. eapply (si_sep _ _ _ _ HI); [exact Hres|exact Hres|].
    rewrite E. apply in_page_base. }
  rewrite get_pfn_swap_entry. pose proof swap_pages_eq.
  eapply wp_ok; [eapply (swap_in_ok s'); [by eapply swap_inv_area|done|lia]|].
  pose proof (sd_read_length (sw_disk s') (slot_sector s' (Z.of_nat id)) SECTOR_NUMS_PER_PAGE) as Hlen.
  split; [|split].
  - unfold swap_mem, page_words. simpl. change PAGE_WORDS with (SECTOR_NUMS_PER_PAGE * 64)%nat.
    rewrite <- Hlen. rewrite read_write_words. simpl.
    change (slot_sector s' (Z.of_nat id)) with (slot_sector s (Z.of_nat id)).
    rewrite sd_read_same by apply length_read_words. by eapply passed_page_words.
  - simpl. rewrite Nat2Z.id, list_insert_insert_eq. by apply list_insert_id.
  - intros x Hx. unfold swap_mem. simpl. apply write_words_out; [|done]. exact Hlen.
Qed.

(** ** The list of resident pages *)

Lemma active_slot_ok s i a : active_pages s !! i = Some a → active_slot (Z.of_nat i) s = Ok a s.
Proof.
  intros Ha. unfold active_slot, mbind, M_bind, get, of_opt, arr_get.
  rewrite decide_True by lia. by rewrite Nat2Z.id, Ha.
Qed.

Lemma set_active_slot_ok s i a : (i < length (active_pages s))%nat →
  set_active_slot (Z.of_nat i) a s = Ok () (upd_active (<[i := a]> (active_pages s)) s).
Proof.
  intros Hi. unfold set_active_slot, mbind, M_bind, get, of_opt. rewrite arr_set_Some by lia.
  by rewrite Nat2Z.id.
Qed.

Lemma upd_clock_id s : upd_clock (clock_head s) s = s.
Proof. by destruct s. Qed.

Definition slot_valid (s : swap_state) (i : Z) : bool :=
  match arr_get (active_pages s) i with Some a => valid_b a | None => false end.

Lemma skip_invalid_ok s n :
  length (active_pages s) = MAX_ALLOWABLE_PAGES →
  0 ≤ clock_head s < Z.of_nat MAX_ALLOWABLE_PAGES → (n ≤ MAX_ALLOWABLE_PAGES)%nat →
  (∀ j, (j < n)%nat → slot_valid s (ring_slot s j) = false) →
  slot_valid s (ring_slot s n) = true →
  skip_invalid s = Ok () (upd_clock (ring_slot s n) s).
Proof.
  intros Hlen Hcl Hn Hlow Hv. unfold skip_invalid.
  assert (∀ d k fuel, (k + d = n)%nat → (d < fuel)%nat →
    while_ fuel (λ _ : unit, skip_step) () (upd_clock (ring_slot s k) s)
    = Ok () (upd_clock (ring_slot s n) s)) as Hrun.
  { intros d k. destruct (arr_get_is_Some (active_pages s) (ring_slot s k)) as [a Ha].
    { rewrite Hlen. by apply Z.mod_pos_bound. }
    revert k a Ha. induction d as [|d IH]; intros k a Ha [|fuel] Hk Hfuel; try lia;
      rewrite while_eq, (skip_step_eq _ a) by done.
    - replace k with n in * by lia. unfold slot_valid in Hv. rewrite Ha in Hv. by rewrite Hv.
    - specialize (Hlow k). unfold slot_valid in Hlow. rewrite Ha in Hlow. rewrite Hlow by lia.
      destruct (arr_get_is_Some (active_pages s) (ring_slot s (S k))) as [b Hb].
      { rewrite Hlen. by apply Z.mod_pos_bound. }
      change (clock_head (upd_clock (ring_slot s k) s)) with (ring_slot s k).
      rewrite ring_slot_S. apply (IH (S k) b); [done|lia|lia]. }
  rewrite <- (upd_clock_id s) at 1. replace (clock_head s) with (ring_slot s 0).
  - apply (Hrun n 0%nat); lia.
  - unfold ring_slot. rewrite Nat2Z.inj_0, Z.add_0_r. by rewrite Z.mod_small.
Qed.

Lemma skip_invalid_some s :
  length (active_pages s) = MAX_ALLOWABLE_PAGES →
  0 ≤ clock_head s < Z.of_nat MAX_ALLOWABLE_PAGES →
  (∃ i a, active_pages s !! i = Some a ∧ valid_b a = true) →
  ∃ c, skip_invalid s = Ok () (upd_clock c s) ∧
    0 ≤ c < Z.of_nat MAX_ALLOWABLE_PAGES ∧ slot_valid s c = true.
Proof.
  intros Hlen Hcl (i & a & Ha & Hv).
  set (p := λ k, slot_valid s (ring_slot s k)).
  destruct (first_index MAX_ALLOWABLE_PAGES p) as [n|] eqn:Hn.
  - apply first_index_Some in Hn as (? & Hp & Hlow). exists (ring_slot s n).
    split; [|split; [by apply Z.mod_pos_bound|done]]. apply skip_invalid_ok; try done. lia.
  - exfalso. rewrite first_index_None in Hn.
    pose proof (lookup_lt_Some _ _ _ Ha) as Hi. rewrite Hlen in Hi.
    set (k := Z.to_nat ((Z.of_nat i - clock_head s) mod Z.of_nat MAX_ALLOWABLE_PAGES)).
    assert ((k < MAX_ALLOWABLE_PAGES)%nat ∧ ring_slot s k = Z.of_nat i) as [Hk Hring].
    { unfold k, ring_slot, MAX_ALLOWABLE_PAGES in *.
      Z.to_euclidean_division_equations; lia. }
    specialize (Hn k Hk). unfold p, slot_valid in Hn. rewrite Hring in Hn.
    unfold arr_get in Hn. rewrite decide_True, Nat2Z.id, Ha in Hn by lia. congruence.
Qed.

(** The state with slot [i] released. *)
Definition released (s : swap_state) (i : nat) (a : active_page_t) : swap_state :=
  upd_count (active_page_count s - 1) (upd_active (<[i := set_valid 0 a]> (active_pages s)) s).

Lemma swap_inv_upd_clock s skip F A c :
  swap_inv s skip F A → 0 ≤ c < Z.of_nat MAX_ALLOWABLE_PAGES → swap_inv (upd_clock c s) skip F A.
Proof. by intros []. Qed.

Section Remove.
Context (s : swap_state) (skip : option nat) (F : list Z) (A : gset Z) (i : nat) (a : active_page_t).
Hypothesis HI : swap_inv s skip F A.
Hypothesis Ha : active_pages s !! i = Some a.
Hypothesis Hv : valid_b a = true.
Hypothesis Hskip : skip = None ∨ skip = Some i.

Lemma released_resident j b : resident (released s i a) None j b → resident s skip j b ∧ j ≠ i.
Proof.
  intros (Hj & Hb & _). simpl in Hj. destruct (decide (j = i)) as [->|Hne].
  - rewrite list_lookup_insert_eq in Hj by (by eapply lookup_lt_Some).
    injection Hj as <-. done.
  - rewrite list_lookup_insert_ne in Hj by done. split; [|done].
    split; [done|]. split; [done|]. naive_solver.
Qed.

Lemma released_slot j b : active_pages (released s i a) !! j = Some b →
  ∃ b', active_pages s !! j = Some b' ∧ ap_kva b' = ap_kva b.
Proof.
  simpl. intros Hj. destruct (decide (j = i)) as [->|Hne].
  - rewrite list_lookup_insert_eq in Hj by (by eapply lookup_lt_Some).
    injection Hj as <-. by exists a.
  - rewrite list_lookup_insert_ne in Hj by done. by exists b.
Qed.

Lemma released_count :
  (S (count_if valid_b (<[i := set_valid 0 a]> (active_pages s))) = count_if valid_b (active_pages s))%nat.
Proof.
  pose proof (count_if_insert valid_b _ _ _ (set_valid 0 a) Ha) as Hc. rewrite Hv in Hc.
  change (valid_b (set_valid 0 a)) with false in Hc. cbv iota in Hc. lia.
Qed.

Lemma swap_inv_released : swap_inv (released s i a) None F A.
Proof.
  pose proof released_resident as Hres. pose proof released_slot as Hsl.
  pose proof released_count as Hc.
  destruct HI as [Hmm Hlen Hst Hcl Hcnt Hk Ht Hsep Hpte Hfst Hsec]. split; try done.
  - simpl. by rewrite length_insert.
  - simpl. rewrite Hcnt. lia.
  - intros j b [Hj _]%Hres. by eapply Hk.
  - intros j b [Hj _]%Hres. by apply (Ht j b).
  - intros j l b c [Hb _]%Hres [Hc' _]%Hres. by eapply Hsep.
  - intros j l b c [Hb _]%Hres [Hc' _]%Hres. by eapply Hpte.
  - intros j l b c Hjl (b' & Hb & <-)%Hsl [Hc' _]%Hres. by eapply Hfst.
Qed.
End Remove.

(** [remove_from_active_list] of a resident page (still allocated, or
    freed just before) releases its slot: the count and the invariant are
    kept, every other resident page stays, and the clock's hand is on a valid
    slot when it was on the released one and a page is left. *)
Theorem remove_from_active_list_spec s skip F A i a :
  swap_inv s skip F A → active_pages s !! i = Some a → valid_b a = true →
  skip = None ∨ skip = Some i →
  (∀ j b, (j < i)%nat → active_pages s !! j = Some b → ap_kva b ≠ ap_kva a) →
  wp (remove_from_active_list (ap_kva a)) s (λ _ s', ∃ c,
    s' = upd_clock c (released s i a) ∧ swap_inv s' None F A ∧
    (clock_head s ≠ Z.of_nat i → c = clock_head s) ∧
    (clock_head s = Z.of_nat i → 0 < active_page_count s' → slot_valid s' c = true)).
Proof.
  intros HI Ha Hv Hskip Hfst.
  pose proof (swap_inv_released s skip F A i a HI Ha Hv Hskip) as HR.
  pose proof (si_len _ _ _ _ HI) as Hlen. pose proof (lookup_lt_Some _ _ _ Ha) as Hi.
  pose proof (count_if_le valid_b (active_pages s)) as Hcle.
  pose proof (released_count s i a Ha Hv) as Hrc.
  pose proof (si_count _ _ _ _ HI) as Hcnt. rewrite Hlen in Hcle, Hi.
  unfold remove_from_active_list. rewrite wp_bind, wp_get.
  replace (first_index _ _) with (Some i); cycle 1.
  { symmetry. apply first_index_Some. split; [done|]. rewrite Ha, Z.eqb_refl. split; [done|].
    intros j Hj. destruct (active_pages s !! j) as [b|] eqn:Hb; [|done].
    apply Z.eqb_neq. by eapply Hfst. }
  rewrite wp_bind, (wp_ok _ _ _ _ _ (active_slot_ok _ _ _ Ha)), wp_bind.
  rewrite (wp_ok _ _ _ _ _ (set_active_slot_ok _ i (set_valid 0 a) ltac:(rewrite Hlen; done))), wp_bind, wp_modify.
  replace (s32 _) with (active_page_count s - 1)
    by (symmetry; apply s32_id; unfold MAX_ALLOWABLE_PAGES in *; simpl; lia).
  fold (released s i a). rewrite wp_bind, wp_get.
  destruct (_ && _) eqn:Hb.
  - apply andb_true_iff in Hb as [Hpos%Z.ltb_lt Hhd%Z.eqb_eq].
    destruct (skip_invalid_some (released s i a)) as (c & Hok & Hc & Hsv).
    + apply (si_len _ _ _ _ HR).
    + apply (si_clock _ _ _ _ HR).
    + assert (0 < count_if valid_b (active_pages (released s i a)))%nat as Hex.
      { pose proof (si_count _ _ _ _ HR). lia. }
      unfold count_if in Hex. destruct (filter _ _) as [|b l] eqn:Hfl; [simpl in Hex; lia|].
      assert (b ∈ filter (λ x, valid_b x = true) (active_pages (released s i a))) as Hin
        by (rewrite Hfl; left).
      apply list_elem_of_filter in Hin as [? (j & ?)%list_elem_of_lookup]. by exists j, b.
    + rewrite (wp_ok _ _ _ _ _ Hok). exists c. split; [done|].
      split; [by apply swap_inv_upd_clock|]. simpl in Hhd. split; [|done]. by intros ?.
  - rewrite wp_ret. exists (clock_head s). split; [by destruct s|]. split; [done|].
    split; [done|]. intros Hhd Hpos. simpl in Hb. rewrite Hhd, Z.eqb_refl, andb_true_r in Hb.
    simpl in Hpos. lia.
Qed.

Lemma remove_from_active_list_other q s :
  (∀ i b, active_pages s !! i = Some b → ap_kva b ≠ q) →
  remove_from_active_list q s = Ok () s.
Proof.
  intros Hq. unfold remove_from_active_list, mbind, M_bind, get.
  replace (first_index _ _) with (@None nat); [done|]. symmetry. apply first_index_None.
  intros j _. destruct (active_pages s !! j) eqn:Hb; [|done]. apply Z.eqb_neq. by eapply Hq.
Qed.

(** Neither memory nor card nor the swap area changes when a page leaves the list. *)
Lemma skip_step_mm s r s' : skip_step s = Ok r s' → ∃ c, s' = upd_clock c s.
Proof.
  unfold skip_step, active_slot. rewrite bind_get. unfold mbind at 1, M_bind at 1. rewrite bind_get.
  unfold of_opt. destruct (arr_get _ _) as [a|]; [|done]. destruct (valid_b a).
  - intros [= _ <-]. exists (clock_head s). by destruct s.
  - intros [= _ <-]. by eexists.
Qed.

Lemma skip_invalid_mm fuel s s' :
  while_ fuel (λ _ : unit, skip_step) () s = Ok () s' → ∃ c, s' = upd_clock c s.
Proof.
  revert s. induction fuel as [|fuel IH]; intros s; [done|]. rewrite while_eq.
  destruct (skip_step s) as [r s1|?|] eqn:Hs; [|done..]. apply skip_step_mm in Hs as [c ->].
  destruct r as [[]|[]].
  - intros (c' & ->)%IH. by exists c'.
  - intros [= <-]. by exists c.
Qed.

Lemma remove_from_active_list_mm q s s' :
  remove_from_active_list q s = Ok () s' → sw_mm s' = sw_mm s.
Proof.
  unfold remove_from_active_list. rewrite bind_get. destruct (first_index _ _) as [i|]; [|by intros [= <-]].
  unfold mbind at 1, M_bind at 1. unfold active_slot. rewrite bind_get. unfold of_opt.
  destruct (arr_get _ _); [|done]. unfold set_active_slot, mbind at 1, M_bind at 1. rewrite bind_get.
  unfold of_opt, mbind at 1, M_bind at 1. destruct (arr_set _ _ _); [|done]. cbn [modify].
  rewrite bind_modify, bind_get. case_match; [|by intros [= <-]].
  intros (c & ->)%skip_invalid_mm. done.
Qed.

(** ** Adding a resident page *)

(** [q] is an allocated page and [p] the address of its page-table entry, both
    apart from the resident pages and their entries. *)
Record fresh_page (s : swap_state) (skip : option nat) (A : gset Z) (q p : Z) : Prop := {
  fp_in : q ∈ A;
  fp_out : ¬ in_page q p;
  fp_table : ∃ t, t ∈ A ∧ in_page t p ∧ 0 ≤ swap_mem s p < 2 ^ 64;
  fp_apart : ∀ j b, resident s skip j b →
    ap_kva b ≠ q ∧ ¬ in_page q (ap_pte b) ∧ ¬ in_page (ap_kva b) p ∧ ap_pte b ≠ p
}.

(** The walk of [va] reads neither a resident page nor the entry of one. *)
Definition stable_walk (s : swap_state) (va pgdir p : Z) : Prop :=
  ∀ m, (∀ x, (∀ j b, resident s None j b → x ≠ ap_pte b ∧ ¬ in_page (ap_kva b) x) →
          m x = swap_mem s x) → get_pte m va pgdir = Some p.

Definition installed (s : swap_state) (i : nat) (a : active_page_t) (n : Z) : swap_state :=
  upd_active (<[i := a]> (active_pages s)) (upd_count n s).

Section Install.
Context (s : swap_state) (skip : option nat) (F : list Z) (A : gset Z) (i : nat).
Context (old new : active_page_t).
Hypothesis HI : swap_inv s skip F A.
Hypothesis Hold : active_pages s !! i = Some old.
Hypothesis Hi : ¬ resident s skip i old.
Hypothesis Hlow : ∀ j, (j < i)%nat → ∃ b, resident s skip j b.
Hypothesis Hskip : skip = None ∨ skip = Some i.
Hypothesis Hnew : valid_b new = true.
Hypothesis Hfresh : fresh_page s skip A (ap_kva new) (ap_pte new).

Let s' := installed s i new (active_page_count s + (if valid_b old then 0 else 1)).

Lemma installed_slot j b : active_pages s' !! j = Some b →
  (j = i ∧ b = new) ∨ (j ≠ i ∧ active_pages s !! j = Some b).
Proof.
  simpl. destruct (decide (j = i)) as [->|Hne].
  - rewrite list_lookup_insert_eq by (by eapply lookup_lt_Some). naive_solver.
  - rewrite list_lookup_insert_ne by done. naive_solver.
Qed.

Lemma installed_resident j b : resident s' None j b →
  (j = i ∧ b = new) ∨ (j ≠ i ∧ resident s skip j b).
Proof.
  intros (Hj & Hb & _). destruct (installed_slot j b Hj) as [?|[Hne ?]]; [by left|].
  right. split; [done|]. split; [done|]. split; [done|]. naive_solver.
Qed.

Lemma swap_inv_installed : swap_inv s' None F A.
Proof.
  pose proof installed_resident as Hres. pose proof installed_slot as Hsl.
  pose proof (count_if_insert valid_b _ _ _ new Hold) as Hc. rewrite Hnew in Hc.
  destruct Hfresh as [Hq Hout Htab Hap].
  destruct HI as [Hmm Hlen Hst Hcl Hcnt Hk Ht Hsep Hpte Hfst Hsec]. split; try done.
  - simpl. by rewrite length_insert.
  - simpl. rewrite Hcnt. destruct (valid_b old); lia.
  - intros j b [[-> ->]|[_ Hj]]%Hres; [done|by eapply Hk].
  - intros j b [[-> ->]|[_ Hj]]%Hres; [done|by apply (Ht j b)].
  - intros j l b c [[-> ->]|[_ Hb]]%Hres [[-> ->]|[_ Hc']]%Hres; [done| | |].
    + by apply (Hap _ _ Hc').
    + by apply (Hap _ _ Hb).
    + by eapply Hsep.
  - intros j l b c [[-> ->]|[_ Hb]]%Hres [[-> ->]|[_ Hc']]%Hres E; [done| | |].
    + exfalso. by apply (Hap _ _ Hc').
    + exfalso. by apply (Hap _ _ Hb).
    + by eapply Hpte.
  - intros j l b c Hjl [[-> ->]|[_ Hb]]%Hsl [[-> ->]|[_ Hc']]%Hres E; [lia| | |].
    + destruct (Hap _ _ Hc') as [? _]. congruence.
    + destruct (Hlow j Hjl) as [b' Hb']. assert (b' = b) as -> by (destruct Hb'; congruence).
      destruct (Hap _ _ Hb') as [? _]. congruence.
    + by eapply Hfst.
Qed.
End Install.

(** Filling slot [i] once it is chosen. *)
Lemma fill_slot_ok s i old pgdir pa va pid p :
  active_pages s !! i = Some old → get_pte (swap_mem s) va pgdir = Some p →
  fill_slot pgdir pa va pid (Z.of_nat i) s
  = Ok () (installed s i (mk_ap (pa2kva pa) p va pid 1) (active_page_count s)).
Proof.
  intros Hold Hp. pose proof (lookup_lt_Some _ _ _ Hold) as Hi. unfold fill_slot.
  rewrite (bind_ok _ _ _ _ _ (active_slot_ok _ _ _ Hold)), (bind_ok _ _ _ _ _ (set_active_slot_ok _ _ _ Hi)).
  unfold mbind at 1, M_bind at 1, get at 1.
  change (mm_mem (sw_mm (upd_active _ s))) with (swap_mem s). rewrite Hp, set_active_slot_ok.
  - simpl. rewrite list_insert_insert_eq. by destruct s.
  - simpl. by rewrite length_insert.
Qed.

(** With room in the list, adding a mapped page changes nothing but the list. *)
Lemma add_to_active_list_room s pgdir pa va pid p :
  active_page_count s < Z.of_nat MAX_ALLOWABLE_PAGES → length (active_pages s) = MAX_ALLOWABLE_PAGES →
  get_pte (swap_mem s) va pgdir = Some p →
  ∃ s', add_to_active_list pgdir pa va pid s = Ok () s' ∧ sw_mm s' = sw_mm s.
Proof.
  intros Hc Hl Hp. unfold add_to_active_list. rewrite bind_get, (proj2 (Z.ltb_lt _ _)) by done.
  unfold get_free_active_page_slot. unfold mbind at 1, M_bind at 1. rewrite bind_get. cbv beta delta [mret M_ret].
  destruct (first_index _ _) as [i|] eqn:Hi; simpl; [|by eexists].
  apply first_index_Some in Hi as (Hi & _). rewrite bind_modify.
  set (s1 := upd_count _ s). destruct (lookup_lt_is_Some_2 (active_pages s1) i) as [old Hold].
  { change (active_pages s1) with (active_pages s). by rewrite Hl. }
  rewrite (fill_slot_ok s1 i old pgdir pa va pid p) by done. by eexists.
Qed.

(** A slot is free when fewer than MAX_ALLOWABLE_PAGES pages are resident. *)
Lemma add_free_slot s F A :
  swap_inv s None F A → active_page_count s < Z.of_nat MAX_ALLOWABLE_PAGES →
  ∃ i old, get_free_active_page_slot s = Ok (Some (Z.of_nat i)) s ∧
    active_pages s !! i = Some old ∧ valid_b old = false ∧
    ∀ j, (j < i)%nat → ∃ b, resident s None j b.
Proof.
  intros HI Hlt. rewrite (si_count _ _ _ _ HI), <- (si_len _ _ _ _ HI) in Hlt.
  unfold get_free_active_page_slot, mbind, M_bind, get, mret, M_ret.
  rewrite <- (si_len _ _ _ _ HI).
  destruct (first_index _ _) as [i|] eqn:Hi.
  - apply first_index_Some in Hi as (Hil & Hi & Hlow).
    destruct (active_pages s !! i) as [old|] eqn:Hold; [|done].
    exists i, old. split; [done|]. split; [done|]. split; [by apply negb_true_iff|].
    intros j Hj. destruct (lookup_lt_is_Some_2 (active_pages s) j) as [b Hb]; [lia|].
    exists b. split; [done|]. split; [|done]. specialize (Hlow j Hj). rewrite Hb in Hlow.
    by apply negb_false_iff.
  - rewrite first_index_None in Hi. destruct (count_if_lt valid_b (active_pages s)) as (i & x & Hx & Hv); [lia|].
    pose proof (lookup_lt_Some _ _ _ Hx). specialize (Hi i). rewrite Hx, Hv in Hi. naive_solver.
Qed.

(** The new page and its walk after the victim is gone. *)
Lemma add_after_out s F A pgdir pa va p a id :
  swap_inv s None F A → full s → fresh_page s None A (pa2kva pa) p → stable_walk s va pgdir p →
  let v := ring_slot s (victim_pos s) in
  let s' := swapped_out s (passed s (victim_pos s)) v a id F in
  arr_get (active_pages s) v = Some a →
  get_pte (swap_mem s') va pgdir = Some p ∧
  fresh_page s' (Some (Z.to_nat v)) (A ∖ {[ap_kva a]}) (pa2kva pa) p.
Proof.
  intros HI Hfull [Hq Hout (t & HtA & Hin & Hw) Hap] Hwalk v s' Ha.
  pose proof (victim_resident s F A HI Hfull a Ha) as Hres.
  destruct (Hap _ _ Hres) as (Hkq & _ & Hkp & Hpp).
  assert (∀ x, (∀ j b, resident s None j b → x ≠ ap_pte b ∧ ¬ in_page (ap_kva b) x) →
    swap_mem s' x = swap_mem s x) as Hsame.
  { intros x Hx. apply swapped_out_mem.
    - intros j _ ->. destruct (pte_at_table s F A HI Hfull j) as (i & b & Hb & E).
      destruct (Hx _ _ Hb) as [Hne _]. congruence.
    - by apply (Hx _ _ Hres).
    - intros ->. destruct (Hx _ _ Hres) as [_ Hn]. apply Hn, in_page_base. }
  split; [by apply Hwalk|]. split.
  - set_solver.
  - done.
  - exists t. split; [|split; [done|]].
    + assert (t ≠ ap_kva a); [by intros ->|set_solver].
    + rewrite Hsame; [done|]. intros j b Hb. by destruct (Hap _ _ Hb) as (_ & _ & ? & ?).
  - intros j b (Hb & Hv & _). by apply (Hap j).
Qed.

Lemma stable_walk_now s va pgdir p : stable_walk s va pgdir p → get_pte (swap_mem s) va pgdir = Some p.
Proof. intros H. by apply H. Qed.

(** [add_to_active_list] of a freshly mapped page makes it resident and
    keeps the invariant, so at most MAX_ALLOWABLE_PAGES pages are resident:
    in a free slot when there is one, otherwise in the slot of the page that
    the clock swaps out; the process is killed when the swap area is full. *)
Theorem add_to_active_list_spec s F A pgdir pa va pid p :
  swap_inv s None F A → fresh_page s None A (pa2kva pa) p → stable_walk s va pgdir p →
  let new := mk_ap (pa2kva pa) p va pid 1 in
  if decide (full s ∧ find_free (swap_page_status s) = None)
  then add_to_active_list pgdir pa va pid s = Exit (scanned s (victim_pos s))
  else wp (add_to_active_list pgdir pa va pid) s (λ _ s', ∃ i F' A',
    swap_inv s' None F' A' ∧ resident s' None i new ∧
    active_page_count s' ≤ Z.of_nat MAX_ALLOWABLE_PAGES ∧
    (full s → ∃ a, arr_get (active_pages s) (ring_slot s (victim_pos s)) = Some a ∧
       i = Z.to_nat (ring_slot s (victim_pos s)) ∧ A' = A ∖ {[ap_kva a]})).
Proof.
  intros HI Hfresh Hwalk new. pose proof (stable_walk_now _ _ _ _ Hwalk) as Hp.
  pose proof (si_len _ _ _ _ HI) as Hlen. pose proof (si_count _ _ _ _ HI) as Hcnt.
  pose proof (count_if_le valid_b (active_pages s)) as Hcle.
  case_decide as Hd.
  { destruct Hd as [Hfull Hf]. unfold add_to_active_list, mbind, M_bind, get.
    unfold full in Hfull. rewrite Hfull, Z.ltb_irrefl.
    by rewrite (swap_out_none s F A HI Hfull Hf). }
  unfold add_to_active_list. rewrite wp_bind, wp_get.
  destruct (Z.ltb_spec (active_page_count s) (Z.of_nat MAX_ALLOWABLE_PAGES)) as [Hlt|Hge].
  - destruct (add_free_slot s F A HI Hlt) as (i & old & Hslot & Hold & Hinv & Hlow).
    rewrite wp_bind, (wp_ok _ _ _ _ _ Hslot), wp_bind, wp_modify.
    rewrite s32_id by (unfold MAX_ALLOWABLE_PAGES in *; lia).
    eapply wp_ok; [by apply (fill_slot_ok _ _ old _ _ _ _ p)|]. exists i, F, A.
    pose proof (swap_inv_installed s None F A i old new) as Hins. rewrite Hinv in Hins.
    split; [|split; [|split]].
    + apply Hins; try done; [|by left]. intros (_ & ? & _). congruence.
    + split; [|done]. simpl. apply list_lookup_insert_eq. by eapply lookup_lt_Some.
    + simpl. lia.
    + unfold full. lia.
  - assert (full s) as Hfull by (unfold full; lia).
    destruct (find_free _) as [id|] eqn:Hf; [|tauto].
    pose proof (find_free_Some _ _ Hf) as [Hid _].
    destruct (ring_slot_get s F A HI Hfull (victim_pos s)) as (a & Ha & Hres & _).
    rewrite wp_bind, (wp_ok _ _ _ _ _ (swap_out_some s F A HI Hfull a id Hf Ha)).
    pose proof (ring_slot_range s (victim_pos s)) as Hv.
    rewrite (proj2 (Z.eqb_neq _ _)) by lia.
    pose proof (swap_inv_swapped_out s F A HI Hfull a id Hid Ha) as HI'.
    set (v := ring_slot s (victim_pos s)) in *. set (s' := swapped_out _ _ _ _ _ _) in *.
    rewrite <- (Z2Nat.id v) by lia. pose proof Hres as (Hva & Hvb & _).
    destruct (add_after_out s F A pgdir pa va p a id) as [Hp' Hfresh']; [done..|].
    eapply wp_ok; [apply (fill_slot_ok s' _ a _ _ _ _ p); [done|exact Hp']|].
    eexists (Z.to_nat v), _, _.
    pose proof (swap_inv_installed s' _ _ _ (Z.to_nat v) a new HI') as Hins.
    rewrite Hvb, Z.add_0_r in Hins.
    split; [|split; [|split]].
    + apply Hins; try done; [by intros (_ & _ & ?)| |by right].
      intros j Hj. destruct (lookup_lt_is_Some_2 (active_pages s') j) as [b Hb].
      { simpl. rewrite Hlen. lia. }
      exists b. split; [done|]. split; [by eapply full_valid|]. intros [=]. lia.
    + split; [|done]. simpl. apply list_lookup_insert_eq. rewrite Hlen. lia.
    + simpl. lia.
    + intros _. exists a. rewrite !Z2Nat.id by lia. by split_and!.
Qed.
End Swap.

(** ** A concrete state with four resident pages *)

(** Page 0 is a leaf table with the entries of the resident pages 1 to 4, page
    5 is not resident, pages 6 and 7 are the root and the middle table. *)
Definition ex_page (k : Z) : Z := FREEMEM_KERNEL + k * PAGE_SIZE.

Definition ex_mem : mem :=
  store (store (λ _, 0) (ex_page 6) (mk_pte (kva2pa (ex_page 7) / 2 ^ 12) PAGE_PRESENT))
    (ex_page 7) (mk_pte (kva2pa (ex_page 0) / 2 ^ 12) PAGE_PRESENT).

Definition ex_state : swap_state (D := Z → Z) :=
  mk_swap (set_mem (λ _, ex_mem) (set_kernMemCurr (ex_page 8) mm_init))
    ((λ k, mk_ap (ex_page (k + 1)) (entry_addr (ex_page 0) k) (k * PAGE_SIZE) 2 1) <$> [0; 1; 2; 3])
    (replicate swap_pages FREE) 0 4 1000 (λ _, 0).

Definition ex_alloc : gset Z := list_to_set (block FREEMEM_KERNEL 8).

Lemma ex_page_in k : 0 ≤ k < 8 → ex_page k ∈ ex_alloc.
Proof.
  intros Hk. unfold ex_alloc. apply elem_of_list_to_set, elem_of_block. by exists k.
Qed.

Lemma ex_resident skip i a : resident ex_state skip i a →
  (i < 4)%nat ∧ a = mk_ap (ex_page (Z.of_nat i + 1)) (entry_addr (ex_page 0) (Z.of_nat i))
    (Z.of_nat i * PAGE_SIZE) 2 1.
Proof.
  intros (Ha & _ & _).
  do 4 (destruct i as [|i]; [injection Ha as <-; split; [lia|done]|]). done.
Qed.

Lemma ex_in_page k k' j : 0 ≤ j < 512 → k ≠ k' → ¬ in_page (ex_page k) (entry_addr (ex_page k') j).
Proof. unfold in_page, ex_page, entry_addr, PAGE_SIZE. lia. Qed.

Lemma ex_inv : swap_inv ex_state None [] ex_alloc.
Proof.
  split.
  - assert (room mm_init (Z.of_nat 8)) as Hroom by by vm_compute.
    pose proof (mm_inv_bump mm_init [] ∅ mm_inv_init 8 Hroom) as H.
    rewrite union_empty_r_L in H.
    apply (mm_inv_set_mem (set_kernMemCurr (ex_page 8) mm_init) [] ex_alloc (λ _, ex_mem));
      [exact H|by intros p Hp%not_elem_of_nil].
  - done.
  - apply length_replicate.
  - done.
  - done.
  - intros i a [? ->]%ex_resident. apply ex_page_in. lia.
  - intros i a [? ->]%ex_resident. exists (ex_page 0). split; [by apply ex_page_in|].
    split; [apply in_page_entry; simpl; lia|]. unfold swap_mem. simpl. unfold ex_mem.
    rewrite !store_ne; [done| |]; unfold entry_addr, ex_page, PAGE_SIZE; lia.
  - intros i j a b [? ->]%ex_resident [? ->]%ex_resident. apply ex_in_page; lia.
  - intros i j a b [? ->]%ex_resident [? ->]%ex_resident. unfold entry_addr. simpl. lia.
  - intros i j a b Hij Ha [? ->]%ex_resident.
    assert (resident ex_state None i a) as [_ ->]%ex_resident.
    { split; [done|]. split; [|done]. do 4 (destruct i as [|i]; [by injection Ha as <-|]). done. }
    unfold ex_page, PAGE_SIZE. simpl. lia.
  - split; by vm_compute.
Qed.

Lemma ex_full : full ex_state.
Proof. done. Qed.

Lemma ex_free : find_free (swap_page_status ex_state) = Some 0%nat.
Proof. vm_compute. reflexivity. Qed.

Lemma ex_victim a :
  arr_get (active_pages ex_state) (ring_slot ex_state (victim_pos ex_state)) = Some a →
  a = mk_ap (ex_page 1) (entry_addr (ex_page 0) 0) 0 2 1.
Proof.
  assert (ring_slot ex_state (victim_pos ex_state) = 0) as -> by by vm_compute.
  intros Ha. by injection Ha as <-.
Qed.

Lemma swap_out_spec_witness : wp swap_out ex_state (λ v s', v = 0 ∧
  swap_mem s' (entry_addr (ex_page 0) 0) = swap_entry 0).
Proof.
  pose proof (swap_out_spec ex_state [] ex_alloc ex_inv ex_full) as H. rewrite ex_free in H.
  eapply wp_mono; [exact H|]. intros v s' (a & Hv & Ha & _ & Hm & _).
  split; [rewrite Hv; by vm_compute|]. rewrite Hv in Ha. apply ex_victim in Ha as ->. exact Hm.
Defined.

Lemma swap_roundtrip_witness : wp swap_out ex_state (λ _ s',
  ∃ p, wp (swap_in (ex_page 5) (get_pfn (swap_mem s' p))) s' (λ _ s'',
    page_words (swap_mem s'') (ex_page 5) = page_words (swap_mem ex_state) (ex_page 1))).
Proof.
  eapply wp_mono; [apply (swap_roundtrip ex_state [] ex_alloc 0%nat (ex_page 5) ex_inv ex_full ex_free)|].
  - by vm_compute.
  - intros v s' (a & -> & Ha & H). exists (ap_pte a). eapply wp_mono; [exact H|].
    intros _ s'' (Hw & _). apply ex_victim in Ha as ->. exact Hw.
Defined.

Lemma remove_from_active_list_spec_witness :
  wp (remove_from_active_list (ex_page 1)) ex_state (λ _ s', active_page_count s' = 3).
Proof.
  eapply wp_mono.
  - apply (remove_from_active_list_spec ex_state None [] ex_alloc 0%nat
      (mk_ap (ex_page 1) (entry_addr (ex_page 0) 0) 0 2 1) ex_inv); [done|done|by left|].
    intros j b Hj. lia.
  - by intros _ s' (c & -> & _).
Defined.

Lemma ex_fresh : fresh_page ex_state None ex_alloc (ex_page 5) (entry_addr (ex_page 0) 8).
Proof.
  split.
  - by apply ex_page_in.
  - by apply ex_in_page.
  - exists (ex_page 0). split; [by apply ex_page_in|]. split; [by apply in_page_entry|by vm_compute].
  - intros j b [? ->]%ex_resident. simpl. split_and!.
    + unfold ex_page, PAGE_SIZE. lia.
    + apply ex_in_page; lia.
    + apply ex_in_page; lia.
    + unfold entry_addr. lia.
Qed.

Lemma ex_walk : stable_walk ex_state 0x8000 (ex_page 6) (entry_addr (ex_page 0) 8).
Proof.
  intros m Hm.
  assert (∀ k, k = 6 ∨ k = 7 → m (entry_addr (ex_page k) 0) = swap_mem ex_state (entry_addr (ex_page k) 0)) as Hk.
  { intros k Hk. apply Hm. intros j b [? ->]%ex_resident. simpl. split; [|apply ex_in_page; lia].
    unfold entry_addr, ex_page, PAGE_SIZE. lia. }
  assert (GET_VPN2 0x8000 = 0 ∧ GET_VPN1 0x8000 = 0 ∧ GET_VPN0 0x8000 = 8) as (E2 & E1 & E0) by done.
  unfold get_pte. rewrite E2, E1, E0, (Hk 6) by by left.
  replace (swap_mem ex_state (entry_addr (ex_page 6) 0))
    with (mk_pte (kva2pa (ex_page 7) / 2 ^ 12) PAGE_PRESENT) by by vm_compute.
  replace (pa2kva (get_pa (mk_pte (kva2pa (ex_page 7) / 2 ^ 12) PAGE_PRESENT)))
    with (ex_page 7) by by vm_compute.
  rewrite (Hk 7) by by right. by vm_compute.
Qed.

Lemma add_to_active_list_spec_witness :
  wp (add_to_active_list (ex_page 6) (kva2pa (ex_page 5)) 0x8000 7) ex_state (λ _ s',
    ∃ F A, swap_inv s' None F A ∧ ex_page 1 ∉ A).
Proof.
  pose proof (add_to_active_list_spec ex_state [] ex_alloc (ex_page 6) (kva2pa (ex_page 5)) 0x8000 7
    (entry_addr (ex_page 0) 8) ex_inv ex_fresh ex_walk) as H.
  rewrite decide_False in H by (rewrite ex_free; by intros [_ ?]).
  eapply wp_mono; [exact H|]. intros _ s' (i & F & A & HI & _ & _ & Ha).
  destruct (Ha ex_full) as (a & Hv & _ & ->). apply ex_victim in Hv as ->.
  exists F, (ex_alloc ∖ {[ex_page 1]}). split; [exact HI|]. set_solver.
Defined.

(** A released slot keeps its address: freeing, later, an unrelated page at
    that address is counted as the release of a resident page. *)
Definition stale_state : swap_state (D := Z → Z) :=
  released ex_state 0 (mk_ap (ex_page 1) (entry_addr (ex_page 0) 0) 0 2 1).

Lemma stale_inv : swap_inv stale_state None [] ex_alloc.
Proof. apply (swap_inv_released ex_state None); [apply ex_inv|done|done|by left]. Qed.

(** [remove_from_active_list] does not look at the valid field: on a
    state that satisfies the invariant, a call for a page that is not resident
    but has the address of a released slot makes the count one less than the
    number of resident pages. *)
Theorem remove_from_active_list_stale :
  swap_inv stale_state None [] ex_alloc ∧
  (∀ i a, resident stale_state None i a → ap_kva a ≠ ex_page 1) ∧
  wp (remove_from_active_list (ex_page 1)) stale_state (λ _ s',
    active_page_count s' < Z.of_nat (count_if valid_b (active_pages s'))).
Proof.
  split; [apply stale_inv|]. split; [|by vm_compute].
  intros i a Hr. assert (resident ex_state None i a ∧ i ≠ 0%nat) as [[_ ->]%ex_resident Hi].
  { by eapply (released_resident ex_state None [] ex_alloc 0%nat _ ex_inv eq_refl (or_introl eq_refl)). }
  unfold ex_page, PAGE_SIZE. simpl. lia.
Qed.
