(* ===== verification/Shm.v ===== *)
(** kernel/mm/shm.c: pages shared between processes by a key, with a reference
    count per page. *)
From S2P Require Import Prelude KMonad Pgtable MM PageTable Swap.

Definition SHM_MAX_NUM : nat := 16.
Definition SHM_VA_BASE : Z := 0x90000000.

Record shm_t := mk_shm {
  shm_key : Z;
  shm_va : Z;
  shm_pa : Z;
  shm_ref_count : Z;
  shm_valid : Z
}.
#[export] Instance shm_eq_dec : EqDecision shm_t.
Proof. solve_decision. Defined.

Definition shm_valid_b (e : shm_t) : bool := negb (shm_valid e =? 0).
#[global] Arguments shm_valid_b : simpl never.

Definition set_ref (n : Z) (e : shm_t) : shm_t :=
  mk_shm (shm_key e) (shm_va e) (shm_pa e) n (shm_valid e).

(** The state of the module: the page tables and the table of shared pages. *)
Record shm_state := mk_shm_state { sh_mm : mm_state; shm_table : list shm_t }.

Definition sh_upd_mm (m : mm_state) (s : shm_state) : shm_state := mk_shm_state m (shm_table s).
Definition sh_upd_table (l : list shm_t) (s : shm_state) : shm_state := mk_shm_state (sh_mm s) l.
Definition on_mm {A} (m : M mm_state A) : M shm_state A := zoom sh_mm sh_upd_mm m.

Definition shm_slot (i : nat) : M shm_state shm_t :=
  s ← get; of_opt (shm_table s !! i).
Definition set_shm_slot (i : nat) (e : shm_t) : M shm_state unit :=
  modify (λ s, sh_upd_table (<[i := e]> (shm_table s)) s).

Definition init_shm_slot (i : nat) (e : shm_t) : shm_t :=
  mk_shm (shm_key e) (SHM_VA_BASE + Z.of_nat i * PAGE_SIZE) (shm_pa e) 0 0.
Definition init_shm : M shm_state unit :=
  for_ 0 SHM_MAX_NUM (λ i, e ← shm_slot i; set_shm_slot i (init_shm_slot i e)).

Definition SHM_FLAGS : Z :=
  Z.lor PAGE_READ (Z.lor PAGE_WRITE (Z.lor PAGE_EXEC (Z.lor PAGE_USER PAGE_SHM))).

Definition shm_map_page (va pa pgdir : Z) : M shm_state unit :=
  on_mm (map_page va pa pgdir SHM_FLAGS).

Definition key_hit (l : list shm_t) (key : Z) (i : nat) : bool :=
  match l !! i with Some e => shm_valid_b e && (shm_key e =? key) | None => false end.
Definition slot_free (l : list shm_t) (i : nat) : bool :=
  match l !! i with Some e => negb (shm_valid_b e) | None => false end.

(** [pgdir] is [current_running->pgdir_kva]. *)
Definition shm_page_get (pgdir key : Z) : M shm_state Z :=
  s ← get;
  match scan_slots SHM_MAX_NUM (key_hit (shm_table s) key) (slot_free (shm_table s)) with
  | inl i =>
      e ← shm_slot i;
      shm_map_page (shm_va e) (shm_pa e) pgdir;;
      set_shm_slot i (set_ref (s32 (shm_ref_count e + 1)) e);;
      mret (shm_va e)
  | inr (Some free_idx) =>
      kva ← on_mm (allocPage 1);
      let pa := kva2pa kva in
      e ← shm_slot free_idx;
      set_shm_slot free_idx (mk_shm key (shm_va e) pa 1 1);;
      shm_map_page (shm_va e) pa pgdir;;
      mret (shm_va e)
  | inr None => mret 0
  end.

Definition va_hit (l : list shm_t) (addr : Z) (i : nat) : bool :=
  match l !! i with Some e => shm_valid_b e && (shm_va e =? addr) | None => false end.

(** The loop of [shm_page_dt]: one reference less, and the page freed with the
    last one. *)
Definition shm_unref (addr : Z) : M shm_state unit :=
  s ← get;
  match first_index SHM_MAX_NUM (va_hit (shm_table s) addr) with
  | None => mret ()
  | Some i =>
      e ← shm_slot i;
      let n := s32 (shm_ref_count e - 1) in
      set_shm_slot i (set_ref n e);;
      if n =? 0 then
        set_shm_slot i (mk_shm (shm_key e) (shm_va e) (shm_pa e) n 0);;
        on_mm (freePage (pa2kva (shm_pa e)))
      else mret ()
  end.

Definition shm_page_dt (pgdir addr : Z) : M shm_state unit :=
  s ← get;
  match get_pte (mm_mem (sh_mm s)) addr pgdir with
  | None => mret ()
  | Some pte =>
      e ← on_mm (load pte);
      if negb (present e) then mret () else
      shm_unref addr;;
      on_mm (write pte 0)
  end.

(** ** The invariant *)

(** [q] is the page of entry [e]: a data page that is allocated. *)
Definition shm_page (D : gset Z) (T : gmap Z label) (e : shm_t) (q : Z) : Prop :=
  shm_pa e = kva2pa q ∧ kva_ok q ∧ q ∈ D ∧ T !! q = None.

Definition valid_at (l : list shm_t) (i : nat) (e : shm_t) : Prop :=
  l !! i = Some e ∧ shm_valid_b e = true.

Record shm_table_inv (l : list shm_t) (D : gset Z) (T : gmap Z label) : Prop := {
  st_len : length l = SHM_MAX_NUM;
  st_va : ∀ i e, l !! i = Some e → shm_va e = SHM_VA_BASE + Z.of_nat i * PAGE_SIZE;
  st_ref : ∀ i e, valid_at l i e → 1 ≤ shm_ref_count e ≤ INT_MAX;
  st_page : ∀ i e, valid_at l i e → ∃ q, shm_page D T e q;
  st_key : ∀ i j e e', valid_at l i e → valid_at l j e' → shm_key e = shm_key e' → i = j;
  st_pages : ∀ i j e e', valid_at l i e → valid_at l j e' → shm_pa e = shm_pa e' → i = j
}.

Record shm_inv (s : shm_state) (D : gset Z) (root : Z) (T : gmap Z label) : Prop := {
  sh_as : as_inv (sh_mm s) D root T;
  sh_tab : shm_table_inv (shm_table s) D T
}.

(** Valid, R, W, X, U, A, D and the shared-page bit. *)
Definition SHM_PTE_FLAGS : Z := 0x2df.

Lemma shm_va_user l D T i e :
  shm_table_inv l D T → l !! i = Some e → user_va (shm_va e).
Proof.
  intros HT He. rewrite (st_va _ _ _ HT _ _ He). apply lookup_lt_Some in He.
  rewrite (st_len _ _ _ HT) in He. unfold user_va, SHM_VA_BASE, PAGE_SIZE, SHM_MAX_NUM in *. lia.
Qed.

Lemma shm_table_inv_grows n P root s s' D D' T T' l :
  shm_table_inv l D T → grows n P root s s' D D' T T' → shm_table_inv l D' T'.
Proof.
  intros [] Hg. split; try done. intros i e (q & ? & ? & Hq & HT)%st_page0. exists q.
  split; [done|]. split; [done|]. split; [by apply (gr_D _ _ _ _ _ _ _ _ _ Hg)|].
  by apply (gr_data _ _ _ _ _ _ _ _ _ Hg).
Qed.

Lemma shm_map_page_spec s D root T va pa :
  shm_inv s D root T → user_va va → 0 ≤ pa < 2 ^ 64 → room (sh_mm s) 2 →
  wp (shm_map_page va pa root) s (λ _ s', shm_table s' = shm_table s ∧ ∃ D' T',
    shm_inv s' D' root T' ∧
    grows 2 (λ va', ¬ same_page va va') root (sh_mm s) (sh_mm s') D D' T T' ∧
    pte_of (mm_mem (sh_mm s')) root va = mk_pte (pa / 2 ^ 12) SHM_PTE_FLAGS).
Proof.
  intros [Has Htab] Hva Hpa Hroom. unfold shm_map_page, on_mm. rewrite wp_zoom.
  eapply wp_mono; [by apply (map_page_ok (sh_mm s) D root T)|].
  intros [] m (D' & T' & Has' & Hg & Hpte). split; [done|]. exists D', T'.
  split; [|by split]. split; [done|]. by eapply shm_table_inv_grows.
Qed.

(** The outcome of the search of [shm_page_get]. *)
Lemma key_hit_true l key i : key_hit l key i = true ↔ ∃ e, valid_at l i e ∧ shm_key e = key.
Proof.
  unfold key_hit, valid_at. destruct (l !! i); [|naive_solver].
  rewrite andb_true_iff, Z.eqb_eq. naive_solver.
Qed.

Lemma slot_free_true l i : slot_free l i = true ↔ ∃ e, l !! i = Some e ∧ shm_valid_b e = false.
Proof.
  unfold slot_free. destruct (l !! i); [|naive_solver]. rewrite negb_true_iff. naive_solver.
Qed.

Section Update.
Context (l : list shm_t) (D : gset Z) (T : gmap Z label) (i : nat) (e e' : shm_t).
Hypothesis Hl : shm_table_inv l D T.
Hypothesis He : l !! i = Some e.

Lemma valid_at_insert j x : valid_at (<[i := e']> l) j x →
  (j = i ∧ x = e' ∧ shm_valid_b e' = true) ∨ (j ≠ i ∧ valid_at l j x).
Proof.
  intros [Hj Hv]. destruct (decide (j = i)) as [->|Hne].
  - rewrite list_lookup_insert_eq in Hj by (by eapply lookup_lt_Some). naive_solver.
  - rewrite list_lookup_insert_ne in Hj by done. right. done.
Qed.

(** Writing a slot: its address is fixed, and a valid entry has a key and a
    page of its own. *)
Lemma shm_table_inv_insert :
  shm_va e' = shm_va e →
  (shm_valid_b e' = true → 1 ≤ shm_ref_count e' ≤ INT_MAX ∧ (∃ q, shm_page D T e' q) ∧
    ∀ j x, j ≠ i → valid_at l j x → shm_key x ≠ shm_key e' ∧ shm_pa x ≠ shm_pa e') →
  shm_table_inv (<[i := e']> l) D T.
Proof.
  intros Hva Hnew. pose proof valid_at_insert as Hat. destruct Hl as [Hlen Hvas Href Hpg Hkey Hpgs].
  split.
  - by rewrite length_insert.
  - intros j x Hj. destruct (decide (j = i)) as [->|Hne].
    + rewrite list_lookup_insert_eq in Hj by (by eapply lookup_lt_Some). simplify_eq.
      rewrite Hva. by eapply Hvas.
    + rewrite list_lookup_insert_ne in Hj by done. by eapply Hvas.
  - intros j x [(-> & -> & Hv)|[_ Hj]]%Hat; [by apply Hnew|by eapply Href].
  - intros j x [(-> & -> & Hv)|[_ Hj]]%Hat; [by apply Hnew|by eapply Hpg].
  - intros j k x y [(-> & -> & Hv)|[Hj Hx]]%Hat [(-> & -> & Hv')|[Hk Hy]]%Hat E; [done| | |].
    + exfalso. destruct (Hnew Hv) as (_ & _ & Hd). destruct (Hd k y); congruence.
    + exfalso. destruct (Hnew Hv') as (_ & _ & Hd). destruct (Hd j x); congruence.
    + by eapply Hkey.
  - intros j k x y [(-> & -> & Hv)|[Hj Hx]]%Hat [(-> & -> & Hv')|[Hk Hy]]%Hat E; [done| | |].
    + exfalso. destruct (Hnew Hv) as (_ & _ & Hd). destruct (Hd k y); congruence.
    + exfalso. destruct (Hnew Hv') as (_ & _ & Hd). destruct (Hd j x); congruence.
    + by eapply Hpgs.
Qed.
End Update.

Lemma shm_slot_ok s i e : shm_table s !! i = Some e → shm_slot i s = Ok e s.
Proof. intros He. unfold shm_slot, mbind, M_bind, get, of_opt. by rewrite He. Qed.

Lemma kva2pa_range q : 0 ≤ kva2pa q < 2 ^ 64.
Proof. unfold kva2pa. pose proof (u64_range (q - KVA_PA_OFFSET)). simpl. lia. Qed.

Lemma shm_page_pa_range D T e q : shm_page D T e q → 0 ≤ shm_pa e < 2 ^ 64.
Proof. intros [-> _]. apply kva2pa_range. Qed.

Lemma valid_at_slot s i e : valid_at (shm_table s) i e → shm_table s !! i = Some e.
Proof. by intros []. Qed.

(** What an attached page looks like from the address space. *)
Definition attached (s' : shm_state) (root : Z) (e : shm_t) : Prop :=
  pte_of (mm_mem (sh_mm s')) root (shm_va e) = mk_pte (shm_pa e / 2 ^ 12) SHM_PTE_FLAGS.

Lemma shm_attach s D root T key i e :
  shm_inv s D root T → room (sh_mm s) 2 →
  valid_at (shm_table s) i e → shm_key e = key → shm_ref_count e < INT_MAX →
  wp (shm_page_get root key) s (λ r s', ∃ D' T', r = shm_va e ∧
    shm_table s' = <[i := set_ref (shm_ref_count e + 1) e]> (shm_table s) ∧
    attached s' root e ∧ shm_inv s' D' root T' ∧
    grows 2 (λ va', ¬ same_page (shm_va e) va') root (sh_mm s) (sh_mm s') D D' T T').
Proof.
  intros HI Hroom He Hkey Href. pose proof (sh_tab _ _ _ _ HI) as Htab.
  pose proof (valid_at_slot _ _ _ He) as Hsl.
  destruct (st_page _ _ _ Htab _ _ He) as [q Hq].
  assert (first_index SHM_MAX_NUM (key_hit (shm_table s) key) = Some i) as Hhit.
  { apply first_index_Some. split; [|split].
    - rewrite <- (st_len _ _ _ Htab). by eapply lookup_lt_Some.
    - apply key_hit_true. by exists e.
    - intros j Hj. destruct (key_hit (shm_table s) key j) eqn:Hh; [|done].
      apply key_hit_true in Hh as (x & Hx & E).
      assert (j = i) by (eapply (st_key _ _ _ Htab); [done|done|congruence]). lia. }
  unfold shm_page_get. rewrite wp_bind, wp_get, scan_slots_spec, Hhit.
  rewrite wp_bind, (wp_ok _ _ _ _ _ (shm_slot_ok _ _ _ Hsl)), wp_bind.
  eapply wp_mono.
  { apply (shm_map_page_spec s D root T); [done|by eapply shm_va_user| |done].
    by eapply shm_page_pa_range. }
  intros [] s' (Ht & D' & T' & [Has' Htab'] & Hg & Hpte).
  unfold set_shm_slot. rewrite wp_bind, wp_modify, wp_ret. exists D', T'.
  pose proof (st_ref _ _ _ Htab _ _ He). rewrite s32_id by (unfold INT_MAX in *; lia).
  split; [done|]. split; [simpl; by rewrite Ht|]. split; [done|]. split; [|done].
  split; [done|]. simpl. rewrite Ht in *.
  eapply shm_table_inv_insert; [done|done|done|]. intros _. split; [simpl; lia|].
  split.
  - destruct (st_page _ _ _ Htab' _ _ He) as [q' Hq']. by exists q'.
  - intros j x Hj Hx. simpl. split.
    + intros E. apply Hj. by eapply (st_key _ _ _ Htab).
    + intros E. apply Hj. by eapply (st_pages _ _ _ Htab).
Qed.

Lemma shm_create s D root T key i e :
  shm_inv s D root T → room (sh_mm s) 3 →
  (∀ j x, valid_at (shm_table s) j x → shm_key x ≠ key) →
  first_index SHM_MAX_NUM (slot_free (shm_table s)) = Some i → shm_table s !! i = Some e →
  wp (shm_page_get root key) s (λ r s', ∃ D' T' q, r = shm_va e ∧
    let e' := mk_shm key (shm_va e) (kva2pa q) 1 1 in
    shm_table s' = <[i := e']> (shm_table s) ∧ q ∉ D ∧
    attached s' root e' ∧ shm_inv s' D' root T' ∧
    grows 3 (λ va', ¬ same_page (shm_va e) va') root (sh_mm s) (sh_mm s') D D' T T').
Proof.
  intros [Has Htab] Hroom Hkey Hi He. pose proof (as_alloc _ _ _ _ Has) as [F HM].
  unfold shm_page_get. rewrite wp_bind, wp_get, scan_slots_spec, Hi.
  replace (first_index _ (key_hit _ _)) with (@None nat); cycle 1.
  { symmetry. apply first_index_None. intros j _.
    destruct (key_hit (shm_table s) key j) eqn:Hh; [|done].
    apply key_hit_true in Hh as (x & Hx & E). by destruct (Hkey _ _ Hx). }
  unfold on_mm. rewrite wp_bind, wp_zoom.
  eapply wp_mono; [eapply allocPage_1; [done|unfold room, PAGE_SIZE in *; lia]|].
  intros q m1 (F1 & HM1 & HqD & Hmem & Hcurr).
  rewrite wp_bind, (wp_ok _ _ _ _ _ (shm_slot_ok (sh_upd_mm m1 s) _ _ He)), wp_bind.
  unfold set_shm_slot. rewrite wp_modify, wp_bind.
  assert (page_ok m1 q) as Hqp by (apply (inv_page _ _ _ HM1); set_solver).
  assert (kva_ok q) as Hqk by (eapply page_ok_kva; [done|by apply (inv_curr _ _ _ HM1)]).
  assert (T !! q = None) as HTq.
  { destruct (T !! q) eqn:E; [|done]. by apply (as_sub _ _ _ _ Has) in E. }
  destruct (grows_data (sh_mm s) m1 D ({[q]} ∪ D) root T q) as [Has1 Hg1];
    [done|by exists F1|set_solver|split; [done|apply Hqp]|done|done|].
  set (e' := mk_shm key (shm_va e) (kva2pa q) 1 1).
  set (s1 := sh_upd_table _ _).
  assert (shm_inv s1 ({[q]} ∪ D) root T) as HI1.
  { split; [done|]. apply (shm_table_inv_insert _ _ _ _ e);
      [by eapply shm_table_inv_grows|done|done|]. intros _. split; [by vm_compute|]. split.
    - exists q. split; [done|]. split; [done|]. split; [set_solver|done].
    - intros j x _ Hx. simpl. split; [by eapply Hkey|].
      destruct (st_page _ _ _ Htab _ _ Hx) as (q' & -> & Hk' & Hq' & _). intros E.
      apply (f_equal pa2kva) in E. rewrite !pa2kva_kva2pa in E by done. by subst. }
  eapply wp_mono.
  { apply (shm_map_page_spec s1 ({[q]} ∪ D) root T); [done|by eapply shm_va_user|apply kva2pa_range|].
    unfold room, PAGE_SIZE in *. simpl. lia. }
  intros [] s' (Ht & D' & T' & HI' & Hg & Hpte). rewrite wp_ret. exists D', T', q.
  split; [done|]. split; [done|]. split; [done|]. split; [done|]. split; [done|].
  apply (grows_trans 1 2 _ _ _ m1 _ _ ({[q]} ∪ D) _ _ T); [|done].
  by eapply grows_weaken, Hg1.
Qed.

(** The address space [root] after it attached slot [i] with the new entry [e']. *)
Definition attach_post (s s' : shm_state) (D : gset Z) (root : Z) (T : gmap Z label)
    (i : nat) (e' : shm_t) : Prop :=
  shm_table s' = <[i := e']> (shm_table s) ∧ attached s' root e' ∧
  ∃ D' T', shm_inv s' D' root T' ∧
    grows 3 (λ va', ¬ same_page (shm_va e') va') root (sh_mm s) (sh_mm s') D D' T T'.

(** [shm_page_get] attaches the page of a key: the page the key already
    has, with one reference more, or a fresh page in the first free slot with
    one reference; the page is mapped read, write and execute with the shared
    bit at the slot's fixed address, and every other translation is kept. With
    the table full and the key unknown it returns 0 and does nothing. *)
Theorem shm_page_get_spec s D root T key :
  shm_inv s D root T → room (sh_mm s) 3 →
  (∀ i e, valid_at (shm_table s) i e → shm_ref_count e < INT_MAX) →
  wp (shm_page_get root key) s (λ r s',
    match first_index SHM_MAX_NUM (key_hit (shm_table s) key),
          first_index SHM_MAX_NUM (slot_free (shm_table s)) with
    | Some i, _ => ∃ e, valid_at (shm_table s) i e ∧ shm_key e = key ∧ r = shm_va e ∧
        attach_post s s' D root T i (set_ref (shm_ref_count e + 1) e)
    | None, Some i => ∃ e q, shm_table s !! i = Some e ∧ r = shm_va e ∧ q ∉ D ∧
        attach_post s s' D root T i (mk_shm key (shm_va e) (kva2pa q) 1 1)
    | None, None => r = 0 ∧ s' = s
    end).
Proof.
  intros HI Hroom Href. destruct (first_index _ (key_hit _ _)) as [i|] eqn:Hhit.
  { pose proof Hhit as (_ & (e & He & Hkey)%key_hit_true & _)%first_index_Some.
    eapply wp_mono; [eapply shm_attach; try done; [unfold room, PAGE_SIZE in *; lia|by eapply Href]|].
    intros r s' (D' & T' & -> & Ht & Hatt & HI' & Hg). exists e. do 3 (split; [done|]).
    split; [done|]. split; [done|]. exists D', T'. split; [done|].
    by eapply grows_mono; [|exact Hg]. }
  destruct (first_index _ (slot_free _)) as [i|] eqn:Hfree.
  - pose proof Hfree as (_ & (e & He & _)%slot_free_true & _)%first_index_Some.
    eapply wp_mono.
    { eapply shm_create; [done|done| |done|done]. intros j x Hx E.
      assert (key_hit (shm_table s) key j = true) as Hj by (apply key_hit_true; by exists x).
      rewrite first_index_None in Hhit. rewrite Hhit in Hj; [done|].
      rewrite <- (st_len _ _ _ (sh_tab _ _ _ _ HI)). eapply lookup_lt_Some, Hx. }
    intros r s' (D' & T' & q & -> & Ht & Hq & Hatt & HI' & Hg). exists e, q.
    do 3 (split; [done|]). split; [done|]. split; [done|]. by exists D', T'.
  - unfold shm_page_get. rewrite wp_bind, wp_get, scan_slots_spec, Hhit, Hfree. done.
Qed.

(** ** Detaching *)

Lemma shm_table_inv_free l D T q :
  shm_table_inv l D T → (∀ i e, valid_at l i e → shm_pa e ≠ kva2pa q) →
  shm_table_inv l (D ∖ {[q]}) T.
Proof.
  intros [] Hq. split; try done. intros i e He.
  destruct (st_page0 _ _ He) as (q' & Hpa & ? & ? & ?). exists q'.
  split; [done|]. split; [done|]. split; [|done]. specialize (Hq _ _ He).
  assert (q' ≠ q) by congruence. set_solver.
Qed.

(** Freeing a data page keeps the address space. *)
Lemma as_inv_freePage s D root T q :
  as_inv s D root T → q ∈ D → T !! q = None →
  wp (freePage q) s (λ _ s', as_inv s' (D ∖ {[q]}) root T ∧
    (∀ va, user_va va → pte_of (mm_mem s') root va = pte_of (mm_mem s) root va) ∧
    (∀ va, user_va va → get_pte (mm_mem s) va root = get_pte (mm_mem s') va root) ∧
    (∀ x, x ≠ q → mm_mem s' x = mm_mem s x)).
Proof.
  intros [[F HI] Hwf Hsub] Hq HT.
  eapply wp_ok; [by eapply freePage_ok|]. simpl.
  assert (∀ x, x ≠ q → store (mm_mem s) q (freePageList s) x = mm_mem s x) as Hst.
  { intros. by apply store_ne. }
  assert (agree_tables (mm_mem s) (store (mm_mem s) q (freePageList s)) T) as Hag.
  { intros r lr j Hr Hj. apply Hst. intros E.
    assert (in_page r q) as Hin by (rewrite <- E; by apply in_page_entry).
    apply (in_page_disjoint r q q) in Hin; [apply Hin, in_page_base| | |].
    - by eapply (pt_page _ _ _ Hwf).
    - apply (inv_page _ _ _ HI). by right.
    - by intros ->; congruence. }
  split; [split|split; [|split]].
  - exists (q :: F). by apply mm_inv_free.
  - by eapply pt_wf_agree.
  - intros p l Hp. pose proof (Hsub _ _ Hp). assert (p ≠ q) by congruence. set_solver.
  - intros va Hva. by eapply pte_of_agree.
  - intros va Hva. by eapply get_pte_agree.
  - done.
Qed.

Lemma va_hit_true l addr i : va_hit l addr i = true ↔ ∃ e, valid_at l i e ∧ shm_va e = addr.
Proof.
  unfold va_hit, valid_at. destruct (l !! i); [|naive_solver].
  rewrite andb_true_iff, Z.eqb_eq. naive_solver.
Qed.

(** The address space after the entry of [addr] was cleared. *)
Lemma clear_leaf s D root T addr a :
  as_inv s D root T → user_va addr → get_pte (mm_mem s) addr root = Some a →
  wp (write a 0) s (λ _ s', as_inv s' D root T ∧ pte_of (mm_mem s') root addr = 0 ∧
    (∀ va, user_va va → ¬ same_page addr va → pte_of (mm_mem s') root va = pte_of (mm_mem s) root va)).
Proof.
  intros Has Hva Ha. destruct (get_pte_label _ _ T _ _ (as_pt _ _ _ _ Has) Hva Ha) as (p & Hp & ->).
  unfold write. rewrite wp_modify.
  destruct (leaf_update s D root T p addr (λ m, store m (entry_addr p (GET_VPN0 addr)) 0) Has Hva Hp)
    as [Has' Hg].
  - intros x Hx. by apply store_ne.
  - by rewrite store_eq.
  - split; [done|]. split; [|intros; by apply (gr_pte _ _ _ _ _ _ _ _ _ Hg)].
    rewrite get_pte_walk in Ha.
    destruct (walk1 (mm_mem s) root (GET_VPN2 addr)) as [p1|] eqn:Hw2; simpl in Ha; [|done].
    destruct (walk1 (mm_mem s) p1 (GET_VPN1 addr)) as [p0|] eqn:Hw1; simpl in Ha; [|done].
    assert (T !! p1 = Some (L1 (GET_VPN2 addr))) as Hp1.
    { eapply walk1_label; [apply Has|by eapply pt_root, Has|by apply child_of_Root, GET_VPN2_user|done]. }
    erewrite pte_of_walk.
    + simpl. assert (entry_addr p0 (GET_VPN0 addr) = entry_addr p (GET_VPN0 addr)) as -> by congruence.
      by apply store_eq.
    + eapply (gr_walk _ _ _ _ _ _ _ _ _ Hg); [by eapply pt_root, Has| |done].
      by apply child_of_Root, GET_VPN2_user.
    + eapply (gr_walk _ _ _ _ _ _ _ _ _ Hg); [done| |done]. apply child_of_L1, GET_VPN1_range.
Qed.

(** Dropping a reference of slot [i]. *)
Definition unref_entry (e : shm_t) : shm_t :=
  if shm_ref_count e =? 1 then mk_shm (shm_key e) (shm_va e) (shm_pa e) 0 0
  else set_ref (shm_ref_count e - 1) e.
Definition unref_alloc (D : gset Z) (e : shm_t) (q : Z) : gset Z :=
  if shm_ref_count e =? 1 then D ∖ {[q]} else D.

Lemma shm_unref_spec s D root T i e q :
  shm_inv s D root T → valid_at (shm_table s) i e → shm_page D T e q →
  wp (shm_unref (shm_va e)) s (λ _ s', shm_inv s' (unref_alloc D e q) root T ∧
    shm_table s' = <[i := unref_entry e]> (shm_table s) ∧
    (∀ va, user_va va → get_pte (mm_mem (sh_mm s)) va root = get_pte (mm_mem (sh_mm s')) va root) ∧
    (∀ va, user_va va → pte_of (mm_mem (sh_mm s')) root va = pte_of (mm_mem (sh_mm s)) root va)).
Proof.
  intros [Has Htab] He Hq. pose proof (valid_at_slot _ _ _ He) as Hsl.
  pose proof (st_ref _ _ _ Htab _ _ He) as Href.
  assert (first_index SHM_MAX_NUM (va_hit (shm_table s) (shm_va e)) = Some i) as Hhit.
  { apply first_index_Some. split; [|split].
    - rewrite <- (st_len _ _ _ Htab). by eapply lookup_lt_Some.
    - apply va_hit_true. by exists e.
    - intros j Hj. destruct (va_hit _ _ j) eqn:Hh; [|done].
      apply va_hit_true in Hh as (x & [Hx _] & E).
      rewrite (st_va _ _ _ Htab _ _ Hx), (st_va _ _ _ Htab _ _ Hsl) in E.
      unfold PAGE_SIZE in E. lia. }
  unfold shm_unref. rewrite wp_bind, wp_get, Hhit, wp_bind, (wp_ok _ _ _ _ _ (shm_slot_ok _ _ _ Hsl)).
  rewrite s32_id by (unfold INT_MAX in *; lia). unfold set_shm_slot. rewrite wp_bind, wp_modify.
  unfold unref_entry, unref_alloc. destruct (Z.eqb_spec (shm_ref_count e) 1) as [E|E].
  - rewrite E. simpl. rewrite wp_bind, wp_modify. unfold on_mm. rewrite wp_zoom.
    destruct Hq as (Hpa & Hqk & HqD & HqT). rewrite Hpa, pa2kva_kva2pa by done.
    eapply wp_mono; [by eapply as_inv_freePage|].
    intros [] m (Has' & Hpte & Hget & _). simpl. rewrite list_insert_insert_eq.
    split; [split; [done|]|split; [done|split; done]]. simpl.
    apply shm_table_inv_free.
    + by eapply shm_table_inv_insert.
    + intros j x Hx E'. eapply valid_at_insert in Hx; [|done].
      destruct Hx as [(-> & -> & ?)|[Hne Hx]]; [done|].
      apply Hne. eapply (st_pages _ _ _ Htab); [done|done|congruence].
  - rewrite (proj2 (Z.eqb_neq _ 0)) by lia. rewrite wp_ret.
    split; [split; [done|]|done]. simpl. eapply shm_table_inv_insert; [done|done|done|].
    intros _. split; [simpl; lia|]. split; [by exists q|].
    intros j x Hj Hx. simpl. split; intros E'; apply Hj.
    + by eapply (st_key _ _ _ Htab).
    + by eapply (st_pages _ _ _ Htab).
Qed.

(** C7: [shm_page_dt] of an attached page unmaps it from the current address
    space and drops one reference; the page goes back to the allocator and
    its slot is freed exactly when this was the last reference. Addresses that
    are not mapped are ignored. *)
Theorem shm_page_dt_spec s D root T i e q :
  shm_inv s D root T → valid_at (shm_table s) i e → shm_page D T e q →
  wp (shm_page_dt root (shm_va e)) s (λ _ s',
    if present (pte_of (mm_mem (sh_mm s)) root (shm_va e)) then
      shm_inv s' (unref_alloc D e q) root T ∧
      shm_table s' = <[i := unref_entry e]> (shm_table s) ∧
      pte_of (mm_mem (sh_mm s')) root (shm_va e) = 0 ∧
      (∀ va, user_va va → ¬ same_page (shm_va e) va →
        pte_of (mm_mem (sh_mm s')) root va = pte_of (mm_mem (sh_mm s)) root va)
    else s' = s).
Proof.
  intros HI He Hq. assert (user_va (shm_va e)) as Hva.
  { eapply shm_va_user; [apply HI|apply He]. }
  unfold shm_page_dt, pte_of at 1. rewrite wp_bind, wp_get.
  destruct (get_pte (mm_mem (sh_mm s)) (shm_va e) root) as [a|] eqn:Ha; [|by rewrite wp_ret].
  unfold on_mm, load. rewrite wp_bind, wp_zoom, wp_gets.
  destruct (present (mm_mem (sh_mm s) a)) eqn:Hpr; simpl; [|rewrite wp_ret; by destruct s].
  rewrite wp_bind. replace (sh_upd_mm (sh_mm s) s) with s by by destruct s.
  eapply wp_mono; [by eapply shm_unref_spec|].
  intros [] s' ([Has' Htab'] & Ht & Hget & Hpte). rewrite wp_zoom.
  eapply wp_mono; [eapply clear_leaf; [done|done|by rewrite <- Hget]|].
  intros [] m (Has'' & H0 & Hother). split; [done|]. split; [done|]. split; [done|].
  intros va Huva Hne. simpl. by rewrite Hother, Hpte.
Qed.

(** ** An empty table *)

Definition shm_empty : list shm_t :=
  (λ i, mk_shm 0 (SHM_VA_BASE + Z.of_nat i * PAGE_SIZE) 0 0 0) <$> seq 0 SHM_MAX_NUM.
Definition shm_start : shm_state := mk_shm_state mm_one shm_empty.

Lemma shm_empty_lookup i e : shm_empty !! i = Some e →
  e = mk_shm 0 (SHM_VA_BASE + Z.of_nat i * PAGE_SIZE) 0 0 0.
Proof.
  unfold shm_empty. rewrite list_lookup_fmap_Some. intros (j & -> & Hj).
  apply lookup_seq in Hj as [-> _]. done.
Qed.

Lemma shm_empty_valid i e : ¬ valid_at shm_empty i e.
Proof. by intros [->%shm_empty_lookup ?]. Qed.

Lemma shm_start_inv : shm_inv shm_start {[FREEMEM_KERNEL]} FREEMEM_KERNEL empty_as.
Proof.
  split; [apply as_inv_one|]. split; simpl.
  - done.
  - by intros i e ->%shm_empty_lookup.
  - by intros i e ?%shm_empty_valid.
  - by intros i e ?%shm_empty_valid.
  - by intros i j e e' ?%shm_empty_valid.
  - by intros i j e e' ?%shm_empty_valid.
Qed.

Lemma shm_page_get_spec_witness :
  wp (shm_page_get FREEMEM_KERNEL 7) shm_start (λ r s', r = SHM_VA_BASE ∧
    ∃ q, shm_table s' !! 0%nat = Some (mk_shm 7 SHM_VA_BASE (kva2pa q) 1 1)).
Proof.
  eapply wp_mono.
  - apply (shm_page_get_spec shm_start _ _ _ 7 shm_start_inv); [by vm_compute|].
    by intros i e ?%shm_empty_valid.
  - intros r s' (e & q & He & -> & _ & Ht & _). injection He as <-.
    split; [done|]. exists q. by rewrite Ht.
Defined.

Lemma shm_page_dt_spec_witness :
  wp (shm_page_get FREEMEM_KERNEL 7) shm_start (λ r s1,
    wp (shm_page_dt FREEMEM_KERNEL r) s1 (λ _ s2,
      pte_of (mm_mem (sh_mm s2)) FREEMEM_KERNEL SHM_VA_BASE = 0 ∧
      shm_valid <$> shm_table s2 !! 0%nat = Some 0)).
Proof.
  eapply wp_mono.
  { apply (shm_create shm_start _ _ _ 7 0 (mk_shm 0 SHM_VA_BASE 0 0 0) shm_start_inv);
      [by vm_compute| |done|done]. by intros j x ?%shm_empty_valid. }
  intros r s1 (D & T & q & -> & Ht & _ & Hatt & HI & _).
  assert (valid_at (shm_table s1) 0 (mk_shm 7 SHM_VA_BASE (kva2pa q) 1 1)) as Hv by by rewrite Ht.
  destruct (st_page _ _ _ (sh_tab _ _ _ _ HI) _ _ Hv) as [q' Hq'].
  eapply wp_mono; [exact (shm_page_dt_spec s1 D FREEMEM_KERNEL T 0 _ q' HI Hv Hq')|].
  unfold attached in Hatt. simpl in Hatt |- *. rewrite Hatt, present_mk_pte by done. simpl.
  intros _ s2 (_ & Ht2 & H0 & _). split; [done|]. by rewrite Ht2, Ht.
Defined.
