(* ===== verification/Vm.v ===== *)
(** kernel/irq/page_fault.c and kernel/mm/free.c: the two places where the page
    allocator, the page tables, the swap area and the shared pages meet. *)
From S2P Require Import Prelude KMonad Pgtable MM PageTable Swap Shm.

Section Vm.
Context {D : Type} `{!BlockDevice 64 D}.

Record vm_state := mk_vm { vm_sw : swap_state (D := D); vm_shm : list shm_t }.

Definition vm_mm (s : vm_state) : mm_state := sw_mm (vm_sw s).
Definition vm_mem (s : vm_state) : mem := mm_mem (vm_mm s).

Definition vm_upd_sw (w : swap_state) (s : vm_state) : vm_state := mk_vm w (vm_shm s).
Definition vm_upd_mm (m : mm_state) (s : vm_state) : vm_state := vm_upd_sw (upd_mm m (vm_sw s)) s.
Definition on_sw {A} (m : M swap_state A) : M vm_state A := zoom vm_sw vm_upd_sw m.
Definition on_vmm {A} (m : M mm_state A) : M vm_state A := zoom vm_mm vm_upd_mm m.
Definition on_shm {A} (m : M shm_state A) : M vm_state A :=
  zoom (λ s, mk_shm_state (vm_mm s) (vm_shm s))
    (λ h s, mk_vm (upd_mm (sh_mm h) (vm_sw s)) (shm_table h)) m.

(** ** kernel/irq/page_fault.c *)

(** The entry that says that the page of [stval] is in the swap area. *)
Definition swapped_entry (e : Z) : bool :=
  (get_attribute e PAGE_PRESENT =? 0) && negb (get_attribute e PAGE_SWAP =? 0).

(** [pgdir_kva] and [pid] are those of [current_running]. *)
Definition handle_page_fault (pgdir_kva pid stval : Z) : M vm_state Z :=
  s ← get;
  swap_id ← (match get_pte (vm_mem s) stval pgdir_kva with
             | None => mret None
             | Some pte =>
                 e ← on_vmm (load pte);
                 if swapped_entry e then mret (Some (Z.shiftr e PAGE_PFN_SHIFT)) else mret None
             end);
  kva ← on_vmm (alloc_page_helper stval pgdir_kva pid);
  if kva =? 0 then exit_process else
  match swap_id with
  | Some id => on_sw (swap_in kva id)
  | None => on_vmm (memset_page kva)
  end;;
  mret kva.

(** ** kernel/mm/free.c *)

Definition level_shift (level : nat) : Z := NORMAL_PAGE_SHIFT + Z.of_nat level * PPN_BITS.

(** One entry of a table: [child] frees the table below it. [pgdir_kva] is that
    of [current_running], which [shm_page_dt] uses. *)
Definition free_entry (pgdir_kva : Z) (child : option (Z → Z → M vm_state unit))
    (table pte current_va : Z) : M vm_state unit :=
  if present pte then
    let child_kva := pa2kva (u64 (Z.shiftl (Z.shiftr pte PAGE_PFN_SHIFT) NORMAL_PAGE_SHIFT)) in
    match child with
    | Some free_child => free_child child_kva current_va
    | None =>
        if negb (Z.land pte PAGE_SHM =? 0) then on_shm (shm_page_dt pgdir_kva current_va)
        else
          on_vmm (freePage child_kva);;
          on_sw (remove_from_active_list child_kva)
    end
  else match child with
  | Some _ => mret ()
  | None =>
      if negb (get_attribute pte PAGE_SWAP =? 0) then
        let swap_id := s32 (Z.shiftr pte PAGE_PFN_SHIFT) in
        if (0 <=? swap_id) && (swap_id <? SWAP_MAX_PAGES) then
          s ← get;
          st ← of_opt (arr_set (swap_page_status (vm_sw s)) swap_id FREE);
          modify (λ s, vm_upd_sw (upd_status st (vm_sw s)) s)
        else mret ()
      else mret ()
  end.

Fixpoint free_page_table_helper (level : nat) (pgdir_kva pgdir base_va : Z) : M vm_state unit :=
  for_ 0 NUM_PTE_ENTRY (λ n,
    let i := Z.of_nat n in
    pte ← on_vmm (load (entry_addr pgdir i));
    let current_va := u64 (base_va + u64 (Z.shiftl i (level_shift level))) in
    if USER_MAX_VA <? current_va then mret () else
    if KERNEL_PTE_INDEX_START <=? i then mret () else
    free_entry pgdir_kva
      (match level with
       | O => None
       | S level' => Some (free_page_table_helper level' pgdir_kva)
       end) pgdir pte current_va;;
    on_vmm (write (entry_addr pgdir i) 0));;
  on_vmm (freePage pgdir).

(** [current_pgdir] is [current_running->pgdir_kva], [pgdir_kva] the argument. *)
Definition free_all_pages (current_pgdir pgdir_kva : Z) : M vm_state unit :=
  free_page_table_helper 2 current_pgdir pgdir_kva 0.

(** ** Page faults *)

Definition vm_as (s : vm_state) (A : gset Z) (root : Z) (T : gmap Z label) : Prop :=
  as_inv (vm_mm s) A root T.

Lemma grows_upd_same n P root s s' s'' A A' T T' q :
  as_inv s' A' root T' → grows n P root s s' A A' T T' → q ∉ A → q ∈ A' → T' !! q = None →
  (∃ F, mm_inv s'' F A') → kernMemCurr s'' = kernMemCurr s' →
  (∀ x, ¬ in_page q x → mm_mem s'' x = mm_mem s' x) →
  as_inv s'' A' root T' ∧ grows n P root s s'' A A' T T' ∧
  ∀ va, user_va va → pte_of (mm_mem s'') root va = pte_of (mm_mem s') root va.
Proof.
  intros [[F HI] Hwf Hsub] Hg HqA HqA' HTq HI'' Hk Hm.
  assert (aligned q) as Hqa by (apply (inv_page _ _ _ HI); by right).
  assert (∀ p x, p ∈ A' → p ≠ q → in_page p x → mm_mem s'' x = mm_mem s' x) as Hpg.
  { intros p x Hp Hne Hx. apply Hm. apply (in_page_disjoint p q); [|done|done|done].
    apply (inv_page _ _ _ HI). by right. }
  assert (agree_tables (mm_mem s') (mm_mem s'') T') as Hag.
  { intros r lr j Hr Hj. eapply Hpg; [by eapply Hsub|congruence|by apply in_page_entry]. }
  split; [|split].
  - split; [done|by eapply pt_wf_agree|done].
  - destruct Hg as [HT HD Hdata Hw Hpte Hc]. split; try done.
    + intros p Hp HT'. destruct (Hdata p Hp HT') as [? Hx]. split; [done|]. intros x Hin.
      rewrite (Hpg p); [by apply Hx|by apply HD|congruence|done].
    + intros r lr j lj c Hr Hj Hc'. pose proof (child_range _ _ _ Hj).
      rewrite (walk1_agree (mm_mem s') _ T' Hag r lr); [by eapply Hw| |done].
      by eapply lookup_weaken.
    + intros va Hva HP. rewrite (pte_of_agree (mm_mem s') _ root T'); [by apply Hpte|done..].
    + by rewrite Hk.
  - intros va Hva. by apply (pte_of_agree (mm_mem s') _ root T').
Qed.

(** C8: [handle_page_fault] makes the faulting page resident again: it maps a
    fresh page at the address with the user attributes, holding what the swap
    slot of the entry holds (and freeing the slot) when the page was swapped
    out, and zeroes otherwise; every other translation and page is kept. *)
Theorem handle_page_fault_spec s A root T pid stval :
  vm_as s A root T → user_va stval → room (vm_mm s) 3 → swap_area_ok (vm_sw s) →
  let e := pte_of (vm_mem s) root stval in
  (swapped_entry e = true → 0 ≤ get_pfn e < SWAP_MAX_PAGES) →
  wp (handle_page_fault root pid stval) s (λ q s', ∃ A' T',
    vm_as s' A' root T' ∧
    grows 3 (λ va', ¬ same_page stval va') root (vm_mm s) (vm_mm s') A A' T T' ∧
    q ∉ A ∧ q ∈ A' ∧
    pte_of (vm_mem s') root stval = mk_pte (kva2pa q / 2 ^ 12) USER_PAGE_FLAGS ∧
    if swapped_entry e then
      page_words (vm_mem s') q
        = sd_read (sw_disk (vm_sw s)) (slot_sector (vm_sw s) (get_pfn e)) SECTOR_NUMS_PER_PAGE ∧
      swap_page_status (vm_sw s') = <[Z.to_nat (get_pfn e) := FREE]> (swap_page_status (vm_sw s))
    else
      (∀ x, in_page q x → vm_mem s' x = 0) ∧
      swap_page_status (vm_sw s') = swap_page_status (vm_sw s)).
Proof.
  intros Has Hva Hroom Harea e Hid. unfold handle_page_fault. rewrite wp_bind, wp_get, wp_bind.
  assert (wp (match get_pte (vm_mem s) stval root with
              | None => mret None
              | Some pte => e ← on_vmm (load pte);
                  if swapped_entry e then mret (Some (Z.shiftr e PAGE_PFN_SHIFT)) else mret None
              end) s (λ o s', s' = s ∧ o = if swapped_entry e then Some (get_pfn e) else None)) as Hsel.
  { unfold e, pte_of. destruct (get_pte _ _ _) as [a|]; [|done].
    unfold on_vmm, load. rewrite wp_bind, wp_zoom, wp_gets. simpl.
    replace (vm_upd_mm (vm_mm s) s) with s by by destruct s as [[]].
    change (vm_mem s a) with (mm_mem (vm_mm s) a).
    by destruct (swapped_entry (mm_mem (vm_mm s) a)). }
  eapply wp_mono; [exact Hsel|]. intros o s0 [-> ->]. cbv beta.
  rewrite wp_bind. unfold on_vmm at 1. rewrite wp_zoom.
  eapply wp_mono; [by apply (alloc_page_helper_ok (vm_mm s) A root T)|].
  intros q m (A' & T' & Has' & Hg & HqA & HqA' & HTq & Hpte & Hz).
  pose proof Has' as [[F' HI'] _ _].
  assert (kva_ok q ∧ q ≠ 0) as [Hqk Hq0].
  { assert (page_ok m q) as Hok by (apply (inv_page _ _ _ HI'); by right).
    split; [eapply page_ok_kva; [done|apply (inv_curr _ _ _ HI')]|].
    intros ->. destruct Hok as (_ & ? & _). by consts. }
  rewrite (proj2 (Z.eqb_neq q 0)) by done. rewrite wp_bind.
  set (s1 := vm_upd_mm m s).
  assert (∀ f, (∀ m x, ¬ in_page q x → f m x = m x) →
    as_inv (set_mem f m) A' root T' ∧
    grows 3 (λ va', ¬ same_page stval va') root (vm_mm s) (set_mem f m) A A' T T' ∧
    pte_of (f (mm_mem m)) root stval = mk_pte (kva2pa q / 2 ^ 12) USER_PAGE_FLAGS) as Hfill.
  { intros f Hf.
    destruct (grows_upd_same 3 (λ va', ¬ same_page stval va') root (vm_mm s) m (set_mem f m)
      A A' T T' q) as (Ha2 & Hg2 & Hp2); [done..| |done|by apply Hf|].
    - exists F'. apply mm_inv_set_mem; [done|]. intros p Hp. apply Hf. intros Hx.
      by eapply (free_not_in_page _ _ _ q).
    - split; [done|]. split; [done|]. rewrite <- Hpte. by apply Hp2. }
  destruct (swapped_entry e) eqn:He.
  - unfold on_sw. rewrite wp_zoom.
    eapply wp_ok; [apply (swap_in_ok (vm_sw s1)); [done|done|by apply Hid]|]. rewrite wp_ret.
    pose proof (sd_read_length (sw_disk (vm_sw s)) (slot_sector (vm_sw s) (get_pfn e))
      SECTOR_NUMS_PER_PAGE) as Hlen.
    destruct (Hfill (λ m, write_words m q (sd_read (sw_disk (vm_sw s))
      (slot_sector (vm_sw s) (get_pfn e)) SECTOR_NUMS_PER_PAGE))) as (? & ? & ?).
    { intros m' x Hx. by apply write_words_out. }
    exists A', T'. do 5 (split; [done|]). split; [|done].
    unfold page_words. change PAGE_WORDS with (SECTOR_NUMS_PER_PAGE * 64)%nat. rewrite <- Hlen.
    apply read_write_words.
  - unfold on_vmm, memset_page. rewrite wp_zoom, wp_modify, wp_ret.
    destruct (Hfill (λ m, zero_page m q)) as (? & ? & ?).
    { intros m' x Hx. by apply zero_page_out. }
    exists A', T'. do 5 (split; [done|]). split; [|done].
    intros x Hx. by apply zero_page_in.
Qed.
End Vm.

(** ** Examples *)

Definition no_slot : active_page_t := mk_ap 0 0 0 0 0.

Definition ex_vm (m : mm_state) : vm_state (D := Z → Z) :=
  mk_vm (mk_swap m (replicate MAX_ALLOWABLE_PAGES no_slot) (replicate swap_pages FREE) 0 0 1000 (λ _, 0))
    shm_empty.

Lemma handle_page_fault_spec_witness :
  wp (handle_page_fault FREEMEM_KERNEL 2 0x10000) (ex_vm mm_one) (λ q s',
    ∀ x, in_page q x → vm_mem s' x = 0).
Proof.
  eapply wp_mono.
  - apply (handle_page_fault_spec (ex_vm mm_one) {[FREEMEM_KERNEL]} FREEMEM_KERNEL empty_as 2 0x10000).
    + exact as_inv_one.
    + done.
    + by vm_compute.
    + split; [apply length_replicate|]. split; by vm_compute.
    + by vm_compute.
  - intros q s' (A & T & _ & _ & _ & _ & _ & Hx). by apply Hx.
Defined.

(** An address space of five pages: the three tables, and the pages of the
    addresses 0xff000 and 0x100000. *)
Definition two_pages : mm_state :=
  let e k fl := mk_pte (kva2pa (ex_page k) / 2 ^ 12) fl in
  mk_mm (store (store (store (store (λ _, 0)
      (entry_addr (ex_page 0) 0) (e 1 PAGE_PRESENT))
      (entry_addr (ex_page 1) 0) (e 2 PAGE_PRESENT))
      (entry_addr (ex_page 2) 255) (e 3 USER_PAGE_FLAGS))
      (entry_addr (ex_page 2) 256) (e 4 USER_PAGE_FLAGS))
    (ex_page 5) 0 0.

(** [free_all_pages] does not free every page of an address space: the test
    against KERNEL_PTE_INDEX_START, meant for the root, also skips the upper
    half of every lower table, so a page at a user address with bit 20 set
    stays allocated for ever. *)
Theorem free_all_pages_leak :
  present (pte_of (mm_mem two_pages) (ex_page 0) 0xff000) = true ∧
  present (pte_of (mm_mem two_pages) (ex_page 0) 0x100000) = true ∧
  wp (free_all_pages (ex_page 0) (ex_page 0)) (ex_vm two_pages) (λ _ s',
    free_list (vm_mem s') (freePageList (vm_mm s')) [ex_page 0; ex_page 1; ex_page 2; ex_page 3] ∧
    kernMemCurr (vm_mm s') = ex_page 5).
Proof. split; [done|]. split; [done|]. by vm_compute. Qed.
