(* ===== verification/Sched.v ===== *)
(** kernel/sched/sched.c, time.c and workload.c: the process control blocks,
    the queues they wait in, blocking and waking up, and the choice of the next
    process.  Each [list_node_t] of the kernel that can be linked has a name in
    [node]; [queues] of KList relates the pointers to sequences of processes. *)
From S2P Require Import Prelude KMonad KList.

Definition TASK_MAXNUM : nat := 32.
Definition NR_CPUS : nat := 2.
Definition MASK_ALL : Z := 3.

(** A process control block: [&pcb[i]] or [&kpcb[c]]. *)
Inductive tcb := Proc (i : nat) | Idle (c : nat).
#[export] Instance tcb_eq_dec : EqDecision tcb.
Proof. solve_decision. Defined.
#[export] Instance tcb_countable : Countable tcb.
Proof.
  refine (inj_countable' (λ t, match t with Proc i => inl i | Idle c => inr c end)
    (λ x, match x with inl i => Proc i | inr c => Idle c end) _).
  by intros [].
Defined.

Definition valid_tcb (t : tcb) : Prop :=
  match t with Proc i => (i < TASK_MAXNUM)%nat | Idle c => (c < NR_CPUS)%nat end.
#[export] Instance valid_tcb_dec t : Decision (valid_tcb t).
Proof. destruct t; apply _. Defined.

(** The addresses of list nodes: [&t->list], [&t->wait_list] and the queue
    heads of the kernel. *)
Inductive node :=
| NList (t : tcb) | NWait (t : tcb)
| NReady | NSleep
| NMutex (i : nat) | NBarrier (i : nat) | NCond (i : nat)
| NSend (i : nat) | NRecv (i : nat) | NPipe (i : nat)
| NNetSend | NNetRecv.
#[export] Instance node_eq_dec : EqDecision node.
Proof. solve_decision. Defined.

Definition node_code (n : node) : nat * (tcb + nat) :=
  match n with
  | NList t => (0, inl t) | NWait t => (1, inl t)
  | NReady => (0, inr 0) | NSleep => (1, inr 0)
  | NMutex i => (2, inr i) | NBarrier i => (3, inr i) | NCond i => (4, inr i)
  | NSend i => (5, inr i) | NRecv i => (6, inr i) | NPipe i => (7, inr i)
  | NNetSend => (8, inr 0) | NNetRecv => (9, inr 0)
  end%nat.
Definition node_decode (c : nat * (tcb + nat)) : node :=
  match c with
  | (0, inl t) => NList t | (_, inl t) => NWait t
  | (0, inr _) => NReady | (1, inr _) => NSleep
  | (2, inr i) => NMutex i | (3, inr i) => NBarrier i | (4, inr i) => NCond i
  | (5, inr i) => NSend i | (6, inr i) => NRecv i | (7, inr i) => NPipe i
  | (8, inr _) => NNetSend | (_, inr _) => NNetRecv
  end%nat.
#[export] Instance node_countable : Countable node.
Proof. refine (inj_countable' node_code node_decode _). by intros []. Defined.

Inductive task_status_t := TASK_BLOCKED | TASK_RUNNING | TASK_READY | TASK_EXITED.
#[export] Instance status_eq_dec : EqDecision task_status_t.
Proof. solve_decision. Defined.

(** The links of a process, [list] and [wait_list], are the nodes [NList] and
    [NWait] of the heap below. *)
Record pcb_t := mk_pcb {
  kernel_sp : Z;
  user_sp : Z;
  full_context : Z;
  kernel_stack_base : Z;
  user_stack_base : Z;
  pid : Z;
  pname : list Z;
  status : task_status_t;
  cursor_x : Z;
  cursor_y : Z;
  wakeup_time : Z;
  next_target : Z;
  progress : Z;
  killed : Z;
  cpuid : Z;
  mask : Z;
  thread_group_id : Z;
  pgdir_kva : Z;
  dir_inode : Z
}.

Definition set_status (v : task_status_t) (p : pcb_t) : pcb_t :=
  mk_pcb (kernel_sp p) (user_sp p) (full_context p) (kernel_stack_base p) (user_stack_base p)
    (pid p) (pname p) v (cursor_x p) (cursor_y p) (wakeup_time p) (next_target p) (progress p)
    (killed p) (cpuid p) (mask p) (thread_group_id p) (pgdir_kva p) (dir_inode p).
Definition set_wakeup_time (v : Z) (p : pcb_t) : pcb_t :=
  mk_pcb (kernel_sp p) (user_sp p) (full_context p) (kernel_stack_base p) (user_stack_base p)
    (pid p) (pname p) (status p) (cursor_x p) (cursor_y p) v (next_target p) (progress p)
    (killed p) (cpuid p) (mask p) (thread_group_id p) (pgdir_kva p) (dir_inode p).
Definition set_target (t pr : Z) (p : pcb_t) : pcb_t :=
  mk_pcb (kernel_sp p) (user_sp p) (full_context p) (kernel_stack_base p) (user_stack_base p)
    (pid p) (pname p) (status p) (cursor_x p) (cursor_y p) (wakeup_time p) t pr (killed p)
    (cpuid p) (mask p) (thread_group_id p) (pgdir_kva p) (dir_inode p).
Definition set_killed (v : Z) (p : pcb_t) : pcb_t :=
  mk_pcb (kernel_sp p) (user_sp p) (full_context p) (kernel_stack_base p) (user_stack_base p)
    (pid p) (pname p) (status p) (cursor_x p) (cursor_y p) (wakeup_time p) (next_target p)
    (progress p) v (cpuid p) (mask p) (thread_group_id p) (pgdir_kva p) (dir_inode p).
Definition set_cpuid (v : Z) (p : pcb_t) : pcb_t :=
  mk_pcb (kernel_sp p) (user_sp p) (full_context p) (kernel_stack_base p) (user_stack_base p)
    (pid p) (pname p) (status p) (cursor_x p) (cursor_y p) (wakeup_time p) (next_target p)
    (progress p) (killed p) v (mask p) (thread_group_id p) (pgdir_kva p) (dir_inode p).
Definition set_mask (v : Z) (p : pcb_t) : pcb_t :=
  mk_pcb (kernel_sp p) (user_sp p) (full_context p) (kernel_stack_base p) (user_stack_base p)
    (pid p) (pname p) (status p) (cursor_x p) (cursor_y p) (wakeup_time p) (next_target p)
    (progress p) (killed p) (cpuid p) v (thread_group_id p) (pgdir_kva p) (dir_inode p).
Definition set_group (v : Z) (p : pcb_t) : pcb_t :=
  mk_pcb (kernel_sp p) (user_sp p) (full_context p) (kernel_stack_base p) (user_stack_base p)
    (pid p) (pname p) (status p) (cursor_x p) (cursor_y p) (wakeup_time p) (next_target p)
    (progress p) (killed p) (cpuid p) (mask p) v (pgdir_kva p) (dir_inode p).
Definition set_stack_regs (ksp usp fc : Z) (p : pcb_t) : pcb_t :=
  mk_pcb ksp usp fc (kernel_stack_base p) (user_stack_base p) (pid p) (pname p) (status p)
    (cursor_x p) (cursor_y p) (wakeup_time p) (next_target p) (progress p) (killed p) (cpuid p)
    (mask p) (thread_group_id p) (pgdir_kva p) (dir_inode p).
Definition set_pname (v : list Z) (p : pcb_t) : pcb_t :=
  mk_pcb (kernel_sp p) (user_sp p) (full_context p) (kernel_stack_base p) (user_stack_base p)
    (pid p) v (status p) (cursor_x p) (cursor_y p) (wakeup_time p) (next_target p) (progress p)
    (killed p) (cpuid p) (mask p) (thread_group_id p) (pgdir_kva p) (dir_inode p).
Definition set_pgdir (v : Z) (p : pcb_t) : pcb_t :=
  mk_pcb (kernel_sp p) (user_sp p) (full_context p) (kernel_stack_base p) (user_stack_base p)
    (pid p) (pname p) (status p) (cursor_x p) (cursor_y p) (wakeup_time p) (next_target p)
    (progress p) (killed p) (cpuid p) (mask p) (thread_group_id p) v (dir_inode p).
(** What [do_exec] and [do_thread_create] write first. *)
Definition set_fresh (id grp m dir : Z) (p : pcb_t) : pcb_t :=
  mk_pcb (kernel_sp p) (user_sp p) (full_context p) (kernel_stack_base p) (user_stack_base p) id
    (pname p) TASK_READY (cursor_x p) (cursor_y p) (wakeup_time p) (next_target p) (progress p)
    0 (cpuid p) m grp (pgdir_kva p) dir.

Notation nheap := (gmap node (list_node (K := node))).

(** The globals of the scheduler as one core sees them: [current] is the [tp]
    register, [cpu] what [get_current_cpu_id] returns, [timer] what [get_timer]
    reads from the hardware. *)
Record sched_state := mk_sched {
  heap : nheap;
  pcbs : tcb → pcb_t;
  current : tcb;
  cpu : nat;
  timer : Z;
  process_id : Z
}.

Definition upd_heap (h : nheap) (s : sched_state) : sched_state :=
  mk_sched h (pcbs s) (current s) (cpu s) (timer s) (process_id s).
Definition upd_pcbs (f : tcb → pcb_t) (s : sched_state) : sched_state :=
  mk_sched (heap s) f (current s) (cpu s) (timer s) (process_id s).
Definition upd_current (t : tcb) (s : sched_state) : sched_state :=
  mk_sched (heap s) (pcbs s) t (cpu s) (timer s) (process_id s).
Definition upd_process_id (n : Z) (s : sched_state) : sched_state :=
  mk_sched (heap s) (pcbs s) (current s) (cpu s) (timer s) n.

Definition upd_pcb (t : tcb) (f : pcb_t → pcb_t) (s : sched_state) : sched_state :=
  upd_pcbs (λ u, if decide (u = t) then f (pcbs s t) else pcbs s u) s.
Definition the_pcb (t : tcb) : M sched_state pcb_t := gets (λ s, pcbs s t).
Definition set_pcb (t : tcb) (f : pcb_t → pcb_t) : M sched_state unit := modify (upd_pcb t f).

(** ** Lists of processes *)

Definition q_init (head : node) : M sched_state unit :=
  s ← get; h ← of_opt (init_queue (heap s) head); modify (upd_heap h).
Definition q_empty (head : node) : M sched_state bool :=
  s ← get; of_opt (is_empty_queue (heap s) head).
Definition q_enqueue (n head : node) : M sched_state unit :=
  s ← get; h ← of_opt (enqueue (heap s) n head); modify (upd_heap h).
Definition q_dequeue (head : node) : M sched_state (option node) :=
  s ← get; r ← of_opt (dequeue (heap s) head); modify (upd_heap r.1);; mret r.2.
Definition q_del (n : node) : M sched_state unit :=
  s ← get; h ← of_opt (del_node (heap s) n); modify (upd_heap h).
Definition q_next (n : node) : M sched_state node :=
  s ← get; of_opt (ld_next (heap s) n).
Definition q_visit (head : node) (judge : sched_state → node → bool) : M sched_state (option node) :=
  s ← get; r ← of_opt (visit (S (size (heap s))) (heap s) head (judge s));
  modify (upd_heap r.1);; mret r.2.
Definition q_in (n head : node) : M sched_state bool :=
  s ← get; of_opt (is_in_queue (S (size (heap s))) (heap s) n head).

(** [CONTAINER_OF(node, pcb_t, list)] *)
Definition container_of (n : node) : option tcb :=
  match n with NList t => Some t | _ => None end.

(** ** sched.c *)

Definition do_block (pcb_node queue : node) : M sched_state unit :=
  t ← of_opt (container_of pcb_node);
  p ← the_pcb t;
  if killed p =? 1 then mret () else
  q_enqueue pcb_node queue;;
  set_pcb t (set_status TASK_BLOCKED).

Definition do_unblock (pcb_node : node) : M sched_state unit :=
  q_del pcb_node;;
  t ← of_opt (container_of pcb_node);
  set_pcb t (set_status TASK_READY);;
  q_enqueue pcb_node NReady.

(** [wakeup] of proc.c; one round of fuel per node. *)
Definition wakeup_step (queue nd : node) : M sched_state (node + unit) :=
  if decide (nd = queue) then mret (inr ()) else
  next_node ← q_next nd;
  do_unblock nd;;
  mret (inl next_node).
Definition wakeup (queue : node) : M sched_state unit :=
  s ← get;
  nd ← q_next queue;
  while_ (S (size (heap s))) (wakeup_step queue) nd.

(** time.c *)
Definition check_sleeping_step (current_time : Z) (nd : node) : M sched_state (node + unit) :=
  if decide (nd = NSleep) then mret (inr ()) else
  t ← of_opt (container_of nd);
  p ← the_pcb t;
  next_node ← q_next nd;
  (if wakeup_time p <=? current_time then do_unblock nd else mret ());;
  mret (inl next_node).
Definition check_sleeping : M sched_state unit :=
  s ← get;
  nd ← q_next NSleep;
  while_ (S (size (heap s))) (check_sleeping_step (timer s)) nd.

Definition if_mask_match (s : sched_state) (n : node) : bool :=
  match container_of n with
  | Some t => negb (Z.land (mask (pcbs s t)) (Z.shiftl 1 (Z.of_nat (cpu s))) =? 0)
  | None => false
  end.

(** [do_scheduler] from the choice of [prev] to the call of [switch_to]; the
    result is the process that runs next. *)
Definition pick_next : M sched_state tcb :=
  s ← get;
  let prev := current s in
  p ← the_pcb prev;
  let set_ready := bool_decide (status p = TASK_RUNNING) && negb (pid p =? 0) in
  (if set_ready then q_enqueue (NList prev) NReady else mret ());;
  next_node ← q_visit NReady if_mask_match;
  next ← (match next_node with
          | None => mret (Idle (cpu s))
          | Some n =>
              t ← of_opt (container_of n);
              set_pcb t (set_cpuid (Z.of_nat (cpu s)));;
              mret t
          end);
  (if set_ready then set_pcb prev (set_status TASK_READY) else mret ());;
  modify (upd_current next);;
  set_pcb next (set_status TASK_RUNNING);;
  mret next.

(** [do_sleep] up to its call of [do_scheduler]. *)
Definition do_sleep_block (sleep_time : Z) : M sched_state unit :=
  s ← get;
  set_pcb (current s) (set_wakeup_time (u64 (timer s + sleep_time)));;
  do_block (NList (current s)) NSleep.

(** ** Queues of processes *)

Definition lists (Q : gmap node (list tcb)) : gmap node (list node) :=
  fmap (λ l : list tcb, NList <$> l) Q.

(** The heap holds the queues [Q], and a node for every process. *)
Record linked (h : nheap) (Q : gmap node (list tcb)) : Prop := {
  lk_queues : queues h (lists Q);
  lk_nodes : ∀ t, valid_tcb t → is_Some (h !! NList t);
  lk_heads : ∀ t, Q !! NList t = None
}.

(** [t] is in some queue. *)
Definition queued (Q : gmap node (list tcb)) (t : tcb) : Prop :=
  ∃ hd xs, Q !! hd = Some xs ∧ t ∈ xs.

Lemma lists_lookup Q hd xs : Q !! hd = Some xs → lists Q !! hd = Some (NList <$> xs).
Proof. intros H. unfold lists. by rewrite lookup_fmap, H. Qed.

Lemma lists_inv Q hd ys : lists Q !! hd = Some ys → ∃ xs, Q !! hd = Some xs ∧ ys = NList <$> xs.
Proof. unfold lists. rewrite lookup_fmap_Some. naive_solver. Qed.

Lemma lists_insert Q hd xs : lists (<[hd := xs]> Q) = <[hd := NList <$> xs]> (lists Q).
Proof. unfold lists. by rewrite fmap_insert. Qed.

#[export] Instance NList_inj : Inj (=) (=) NList.
Proof. by intros ?? [= ->]. Qed.

Section Linked.
Context (h : nheap) (Q : gmap node (list tcb)).
Hypothesis HL : linked h Q.

Lemma queue_nodup hd xs : Q !! hd = Some xs → NoDup xs.
Proof.
  intros Hx. apply lists_lookup in Hx. pose proof (q_ring _ _ (lk_queues _ _ HL) _ _ Hx) as [Hnd _].
  apply NoDup_cons in Hnd as [_ Hnd]. by apply NoDup_fmap_1 in Hnd.
Qed.

Lemma queue_unique hd1 hd2 xs1 xs2 t :
  Q !! hd1 = Some xs1 → Q !! hd2 = Some xs2 → t ∈ xs1 → t ∈ xs2 → hd1 = hd2.
Proof.
  intros H1%lists_lookup H2%lists_lookup Ht1 Ht2.
  apply (q_disj _ _ (lk_queues _ _ HL) _ _ _ _ (NList t) H1 H2);
    right; by apply list_elem_of_fmap_2.
Qed.

Lemma queue_size hd xs : Q !! hd = Some xs → (length xs < size h)%nat.
Proof.
  intros Hx%lists_lookup. pose proof (queue_length _ _ _ (q_ring _ _ (lk_queues _ _ HL) _ _ Hx)) as Hl.
  by rewrite length_fmap in Hl.
Qed.

Lemma free_not_queued t : ¬ queued Q t ↔ free_node (lists Q) (NList t).
Proof.
  split.
  - intros Hq hd ys (xs & Hx & ->)%lists_inv [<-|Hin]%elem_of_cons.
    + by rewrite (lk_heads _ _ HL) in Hx.
    + apply list_elem_of_fmap in Hin as (u & [= <-] & Hu). apply Hq. by exists hd, xs.
  - intros Hf (hd & xs & Hx & Hin). apply (Hf hd (NList <$> xs)); [by apply lists_lookup|].
    right. by apply list_elem_of_fmap_2.
Qed.

Lemma linked_insert h' hd xs ys :
  Q !! hd = Some xs → queues h' (<[hd := NList <$> ys]> (lists Q)) → same_nodes h h' →
  linked h' (<[hd := ys]> Q).
Proof.
  intros Hx HQ Hsame. split.
  - by rewrite lists_insert.
  - intros t Ht. apply Hsame. by apply (lk_nodes _ _ HL).
  - intros t. rewrite lookup_insert_ne; [by apply (lk_heads _ _ HL)|].
    intros ->. by rewrite (lk_heads _ _ HL) in Hx.
Qed.

Lemma linked_enqueue hd xs t :
  Q !! hd = Some xs → ¬ queued Q t → valid_tcb t →
  ∃ h', enqueue h (NList t) hd = Some h' ∧ linked h' (<[hd := xs ++ [t]]> Q).
Proof.
  intros Hx Hf Ht.
  destruct (enqueue_spec h (lists Q) hd (NList <$> xs) (NList t)) as (h' & He & HQ & Hsame).
  - apply HL.
  - by apply lists_lookup.
  - by apply free_not_queued.
  - by apply (lk_nodes _ _ HL).
  - exists h'. split; [done|]. eapply linked_insert; [done| |done]. by rewrite fmap_app.
Qed.

Lemma linked_del hd ys t zs :
  Q !! hd = Some (ys ++ t :: zs) →
  ∃ h', del_node h (NList t) = Some h' ∧ linked h' (<[hd := ys ++ zs]> Q).
Proof.
  intros Hx. destruct (del_node_spec h (lists Q) hd (NList <$> ys) (NList <$> zs) (NList t))
    as (h' & He & HQ & _ & Hsame).
  - apply HL.
  - apply lists_lookup in Hx. by rewrite fmap_app in Hx.
  - exists h'. split; [done|]. eapply linked_insert; [done| |done]. by rewrite fmap_app.
Qed.

Lemma linked_next hd ys t zs :
  Q !! hd = Some (ys ++ t :: zs) → ld_next h (NList t) = Some (default hd (NList <$> head zs)).
Proof.
  intros Hx%lists_lookup. rewrite fmap_app in Hx.
  erewrite ring_next; [|by apply (q_ring _ _ (lk_queues _ _ HL) _ _ Hx)].
  by destruct zs.
Qed.

Lemma linked_first hd xs : Q !! hd = Some xs → ld_next h hd = Some (default hd (NList <$> head xs)).
Proof.
  intros Hx%lists_lookup. erewrite ring_first; [|by apply (q_ring _ _ (lk_queues _ _ HL) _ _ Hx)].
  by destruct xs.
Qed.

Lemma linked_empty hd xs : Q !! hd = Some xs → is_empty_queue h hd = Some (bool_decide (xs = [])).
Proof.
  intros Hx%lists_lookup. erewrite is_empty_queue_spec; [|by apply (q_ring _ _ (lk_queues _ _ HL) _ _ Hx)].
  by destruct xs.
Qed.
End Linked.

(** Removing a process from its queue leaves it in none. *)
Lemma not_queued_del h Q hd ys t zs :
  linked h Q → Q !! hd = Some (ys ++ t :: zs) → ¬ queued (<[hd := ys ++ zs]> Q) t.
Proof.
  intros HL Hx (hd' & xs & Hx' & Hin).
  pose proof (queue_nodup _ _ HL _ _ Hx) as Hnd.
  destruct (decide (hd' = hd)) as [->|Hne].
  - rewrite lookup_insert_eq in Hx'. injection Hx' as <-.
    apply NoDup_app in Hnd as (_ & Hd & Hnd). apply NoDup_cons in Hnd as [Hnz _].
    apply elem_of_app in Hin as [Hin|Hin]; [|done]. apply (Hd t Hin). left.
  - rewrite lookup_insert_ne in Hx' by done. apply Hne.
    eapply (queue_unique _ _ HL); [done|done|done|]. apply elem_of_app. right. left.
Qed.

Lemma not_queued_insert Q hd xs t : ¬ queued Q t → t ∉ xs → ¬ queued (<[hd := xs]> Q) t.
Proof.
  intros Hq Hx (hd' & ys & Hy & Hin). rewrite lookup_insert_Some in Hy.
  destruct Hy as [[<- <-]|[_ Hy]]; [done|]. apply Hq. by exists hd', ys.
Qed.

(** ** Blocking and waking up *)

Lemma q_enqueue_ok s Q hd xs t :
  linked (heap s) Q → Q !! hd = Some xs → ¬ queued Q t → valid_tcb t →
  ∃ h, q_enqueue (NList t) hd s = Ok () (upd_heap h s) ∧ linked h (<[hd := xs ++ [t]]> Q).
Proof.
  intros HL Hx Hf Ht. destruct (linked_enqueue _ _ HL _ _ t Hx Hf Ht) as (h & He & HL').
  exists h. split; [|done]. unfold q_enqueue, mbind, M_bind, get, of_opt, modify. by rewrite He.
Qed.

Lemma q_del_ok s Q hd ys t zs :
  linked (heap s) Q → Q !! hd = Some (ys ++ t :: zs) →
  ∃ h, q_del (NList t) s = Ok () (upd_heap h s) ∧ linked h (<[hd := ys ++ zs]> Q).
Proof.
  intros HL Hx. destruct (linked_del _ _ HL _ _ _ _ Hx) as (h & He & HL').
  exists h. split; [|done]. unfold q_del, mbind, M_bind, get, of_opt, modify. by rewrite He.
Qed.

Lemma q_next_ok s n m : ld_next (heap s) n = Some m → q_next n s = Ok m s.
Proof. intros Hn. unfold q_next, mbind, M_bind, get, of_opt. by rewrite Hn. Qed.

Lemma do_block_ok s Q hd xs t :
  linked (heap s) Q → Q !! hd = Some xs → ¬ queued Q t → valid_tcb t → killed (pcbs s t) ≠ 1 →
  ∃ h, do_block (NList t) hd s = Ok () (upd_pcb t (set_status TASK_BLOCKED) (upd_heap h s)) ∧
    linked h (<[hd := xs ++ [t]]> Q).
Proof.
  intros HL Hx Hf Ht Hk. destruct (q_enqueue_ok s Q hd xs t) as (h & He & HL'); [done..|].
  exists h. split; [|done]. unfold do_block, mbind at 1 2, M_bind at 1 2, of_opt, the_pcb, gets.
  simpl. rewrite (proj2 (Z.eqb_neq _ _)) by done. by rewrite (bind_ok _ _ _ _ _ He).
Qed.

Lemma do_block_killed s t hd :
  killed (pcbs s t) = 1 → do_block (NList t) hd s = Ok () s.
Proof.
  intros Hk. unfold do_block, mbind, M_bind, of_opt, the_pcb, gets. simpl. by rewrite Hk.
Qed.

(** The queues after [t] left its place in [hd] for the tail of the ready queue. *)
Lemma do_unblock_ok s Q hd ys t zs rs :
  linked (heap s) Q → valid_tcb t → Q !! hd = Some (ys ++ t :: zs) →
  <[hd := ys ++ zs]> Q !! NReady = Some rs →
  ∃ h, do_unblock (NList t) s = Ok () (upd_heap h (upd_pcb t (set_status TASK_READY) s)) ∧
    linked h (<[NReady := rs ++ [t]]> (<[hd := ys ++ zs]> Q)).
Proof.
  intros HL Ht Hx Hr. destruct (q_del_ok s Q hd ys t zs HL Hx) as (h1 & Hd & HL1).
  pose proof (not_queued_del _ _ _ _ _ _ HL Hx) as Hnq.
  set (s1 := upd_pcb t (set_status TASK_READY) (upd_heap h1 s)).
  destruct (q_enqueue_ok s1 _ NReady rs t HL1 Hr Hnq Ht) as (h2 & He & HL2).
  exists h2. split; [|done]. unfold do_unblock. rewrite (bind_ok _ _ _ _ _ Hd).
  exact He.
Qed.

(** Waking up a list of processes, in order. *)
Definition wake_pcbs (xs : list tcb) (f : tcb → pcb_t) : tcb → pcb_t :=
  fold_left (λ f t u, if decide (u = t) then set_status TASK_READY (f t) else f u) xs f.

Definition with_pcbs_heap (f : tcb → pcb_t) (h : nheap) (s : sched_state) : sched_state :=
  upd_heap h (upd_pcbs f s).

Lemma q_empty_ok s Q hd xs :
  linked (heap s) Q → Q !! hd = Some xs → q_empty hd s = Ok (bool_decide (xs = [])) s.
Proof.
  intros HL Hx. unfold q_empty. rewrite bind_get. unfold of_opt. by rewrite (linked_empty _ _ HL hd xs).
Qed.

(** Taking the first process of a queue and making it ready. *)
Lemma q_dequeue_ok s Q hd x xs :
  linked (heap s) Q → Q !! hd = Some (x :: xs) →
  ∃ h, q_dequeue hd s = Ok (Some (NList x)) (upd_heap h s) ∧ linked h (<[hd := xs]> Q) ∧
    h !! NList x = Some (mk_node (NList x) (NList x)).
Proof.
  intros HL Hx. destruct (dequeue_spec (heap s) (lists Q) hd (NList x) (NList <$> xs))
    as (h & Hd & HQ & _ & Hsame & Hself); [by apply HL|by apply lists_lookup in Hx|].
  exists h. split; [|split; [|done]].
  - unfold q_dequeue. by rewrite bind_get, (bind_opt _ _ _ _ Hd), bind_modify.
  - by eapply linked_insert.
Qed.

(** [do_unblock] of a process that was just dequeued. *)
Lemma do_unblock_free s Q t rs :
  linked (heap s) Q → valid_tcb t → ¬ queued Q t → Q !! NReady = Some rs →
  heap s !! NList t = Some (mk_node (NList t) (NList t)) →
  ∃ h, do_unblock (NList t) s = Ok () (upd_heap h (upd_pcb t (set_status TASK_READY) s)) ∧
    linked h (<[NReady := rs ++ [t]]> Q).
Proof.
  intros HL Ht Hnq Hr Hself.
  assert (q_del (NList t) s = Ok () s) as Hd.
  { unfold q_del. rewrite bind_get, (bind_opt _ _ _ _ (del_node_self _ _ Hself)).
    unfold modify. by destruct s. }
  destruct (q_enqueue_ok (upd_pcb t (set_status TASK_READY) s) Q NReady rs t) as (h & He & HL');
    [done..|]. exists h. split; [|done]. unfold do_unblock. rewrite (bind_ok _ _ _ _ _ Hd). exact He.
Qed.

(** Handing a queue's first process over to the ready queue. *)
Lemma dequeue_unblock s Q hd t ts rs :
  linked (heap s) Q → valid_tcb t → hd ≠ NReady → Q !! hd = Some (t :: ts) → Q !! NReady = Some rs →
  ∃ h1 h2, q_dequeue hd s = Ok (Some (NList t)) (upd_heap h1 s) ∧
    do_unblock (NList t) (upd_heap h1 s)
      = Ok () (with_pcbs_heap (wake_pcbs [t] (pcbs s)) h2 s) ∧
    linked h2 (<[NReady := rs ++ [t]]> (<[hd := ts]> Q)).
Proof.
  intros HL Ht Hne Hx Hr. destruct (q_dequeue_ok s Q hd t ts HL Hx) as (h1 & Hd & HL1 & Hself).
  pose proof (not_queued_del _ _ _ [] t ts HL Hx) as Hnq.
  destruct (do_unblock_free (upd_heap h1 s) _ t rs HL1 Ht Hnq) as (h2 & Hu & HL2); [|done|].
  { by rewrite lookup_insert_ne. }
  exists h1, h2. by split.
Qed.

Lemma set_status_twice v w p : set_status v (set_status w p) = set_status v p.
Proof. done. Qed.

Lemma wake_pcbs_lookup xs f t :
  wake_pcbs xs f t = if decide (t ∈ xs) then set_status TASK_READY (f t) else f t.
Proof.
  revert f. induction xs as [|x xs IH]; intros f.
  - by rewrite decide_False by apply not_elem_of_nil.
  - unfold wake_pcbs in *. cbn [fold_left]. rewrite IH.
    destruct (decide (t = x)) as [->|Hne].
    + rewrite (decide_True (P := x ∈ x :: xs)) by left. by case_decide.
    + destruct (decide (t ∈ xs)).
      * by rewrite decide_True by by right.
      * by rewrite decide_False by (intros [?|?]%elem_of_cons; done).
Qed.

Lemma wakeup_run s Q hd xs rs fuel :
  linked (heap s) Q → hd ≠ NReady → Q !! hd = Some xs → Q !! NReady = Some rs →
  (∀ t, t ∈ xs → valid_tcb t) → (length xs < fuel)%nat →
  ∃ h, while_ fuel (wakeup_step hd) (default hd (NList <$> head xs)) s
       = Ok () (with_pcbs_heap (wake_pcbs xs (pcbs s)) h s) ∧
    linked h (<[NReady := rs ++ xs]> (<[hd := []]> Q)).
Proof.
  revert s Q rs fuel. induction xs as [|t xs IH]; intros s Q rs [|fuel] HL Hne Hx Hr Hv Hf;
    try (simpl in Hf; lia).
  - rewrite while_eq. simpl. unfold wakeup_step. rewrite decide_True by done.
    exists (heap s). split; [by destruct s|]. rewrite app_nil_r.
    rewrite (insert_id Q hd) by done. by rewrite insert_id.
  - rewrite while_eq. simpl. unfold wakeup_step at 1.
    rewrite decide_False by (intros E; by rewrite <- E, (lk_heads _ _ HL) in Hx).
    rewrite (bind_ok _ _ _ _ _ (q_next_ok _ _ _ (linked_next _ _ HL hd [] t xs Hx))).
    destruct (do_unblock_ok s Q hd [] t xs rs HL) as (h1 & Hu & HL1).
    { apply Hv. left. } { done. } { by rewrite lookup_insert_ne. }
    rewrite (bind_ok _ _ _ _ _ Hu). unfold mret, M_ret. simpl in HL1.
    set (s1 := upd_heap h1 (upd_pcb t (set_status TASK_READY) s)) in *.
    destruct (IH s1 (<[NReady:=rs ++ [t]]> (<[hd:=xs]> Q)) (rs ++ [t]) fuel) as (h & Hw & HL2).
    + done.
    + done.
    + rewrite lookup_insert_ne by done. apply lookup_insert_eq.
    + apply lookup_insert_eq.
    + intros u Hu'. apply Hv. by right.
    + simpl in Hf. lia.
    + exists h. rewrite Hw. split; [done|].
      rewrite <- app_assoc in HL2. simpl in HL2.
      rewrite (insert_insert_ne _ hd NReady) in HL2 by done.
      by rewrite !insert_insert_eq in HL2.
Qed.

(** [wakeup] moves every process of a queue to the tail of the ready queue,
    in order, and makes it ready; no other process changes. *)
Lemma wakeup_ok s Q hd xs rs :
  linked (heap s) Q → hd ≠ NReady → Q !! hd = Some xs → Q !! NReady = Some rs →
  (∀ t, t ∈ xs → valid_tcb t) →
  ∃ h, wakeup hd s = Ok () (with_pcbs_heap (wake_pcbs xs (pcbs s)) h s) ∧
    linked h (<[NReady := rs ++ xs]> (<[hd := []]> Q)).
Proof.
  intros HL Hne Hx Hr Hv. unfold wakeup. rewrite bind_get.
  rewrite (bind_ok _ _ _ _ _ (q_next_ok _ _ _ (linked_first _ _ HL hd xs Hx))).
  apply wakeup_run; try done. pose proof (queue_size _ _ HL _ _ Hx). lia.
Qed.

(** ** Timers *)

Definition expired (s : sched_state) (t : tcb) : bool := wakeup_time (pcbs s t) <=? timer s.
Definition awake (s : sched_state) (xs : list tcb) : list tcb := filter (λ t, expired s t = true) xs.
Definition asleep (s : sched_state) (xs : list tcb) : list tcb := filter (λ t, expired s t = false) xs.

Lemma check_sleeping_run s Q ys xs rs fuel :
  linked (heap s) Q → Q !! NSleep = Some (ys ++ xs) → Q !! NReady = Some rs →
  (∀ t, t ∈ xs → valid_tcb t) → (length xs < fuel)%nat →
  ∃ h, while_ fuel (check_sleeping_step (timer s)) (default NSleep (NList <$> head xs)) s
       = Ok () (with_pcbs_heap (wake_pcbs (awake s xs) (pcbs s)) h s) ∧
    linked h (<[NReady := rs ++ awake s xs]> (<[NSleep := ys ++ asleep s xs]> Q)).
Proof.
  revert s Q ys rs fuel. induction xs as [|t xs IH]; intros s Q ys rs [|fuel] HL Hx Hr Hv Hf;
    try (simpl in Hf; lia).
  { rewrite while_eq. exists (heap s). split; [by destruct s|]. simpl. rewrite !app_nil_r in *.
    rewrite (insert_id Q NSleep) by done. by rewrite insert_id. }
  rewrite while_eq. simpl head. simpl default. unfold check_sleeping_step at 1.
  rewrite decide_False by done. rewrite (bind_opt _ t) by done. unfold the_pcb. rewrite bind_gets.
  rewrite (bind_ok _ _ _ _ _ (q_next_ok _ _ _ (linked_next _ _ HL NSleep ys t xs Hx))).
  change (wakeup_time (pcbs s t) <=? timer s) with (expired s t).
  unfold awake, asleep. rewrite !filter_cons. destruct (expired s t) eqn:He.
  - rewrite decide_True, decide_False by done.
    destruct (do_unblock_ok s Q NSleep ys t xs rs HL) as (h1 & Hu & HL1).
    { apply Hv. left. } { done. } { by rewrite lookup_insert_ne. }
    rewrite (bind_ok _ _ _ _ _ Hu). cbv beta iota delta [mret M_ret].
    set (s1 := upd_heap h1 (upd_pcb t (set_status TASK_READY) s)) in *.
    assert (∀ u, expired s1 u = expired s u) as Hex.
    { intros u. unfold expired. simpl. by case_decide; subst. }
    destruct (IH s1 (<[NReady:=rs ++ [t]]> (<[NSleep:=ys ++ xs]> Q)) ys (rs ++ [t]) fuel) as (h & Hw & HL2).
    + done.
    + rewrite lookup_insert_ne by done. apply lookup_insert_eq.
    + apply lookup_insert_eq.
    + intros u Hu'. apply Hv. by right.
    + simpl in Hf. lia.
    + exists h. unfold awake, asleep in *.
      assert (∀ b, filter (λ u, expired s1 u = b) xs = filter (λ u, expired s u = b) xs) as Hfl.
      { intros b. apply list_filter_iff. intros u. by rewrite Hex. }
      rewrite !Hfl in *. split; [exact Hw|].
      rewrite <- app_assoc in HL2. rewrite (insert_insert_ne _ NSleep NReady) in HL2 by done.
      by rewrite !insert_insert_eq in HL2.
  - rewrite decide_False, decide_True by done. rewrite bind_ret.
    cbv beta iota delta [mret M_ret]. simpl in Hf.
    rewrite (cons_middle t ys xs), app_assoc in Hx.
    destruct (IH s Q (ys ++ [t]) rs fuel) as (h & Hw & HL2); [done|done|done| |lia|].
    + intros u Hu'. apply Hv. by right.
    + exists h. split; [done|]. by rewrite <- app_assoc in HL2.
Qed.

Lemma check_sleeping_ok s Q xs rs :
  linked (heap s) Q → Q !! NSleep = Some xs → Q !! NReady = Some rs →
  (∀ t, t ∈ xs → valid_tcb t) →
  ∃ h, check_sleeping s = Ok () (with_pcbs_heap (wake_pcbs (awake s xs) (pcbs s)) h s) ∧
    linked h (<[NReady := rs ++ awake s xs]> (<[NSleep := asleep s xs]> Q)).
Proof.
  intros HL Hx Hr Hv. unfold check_sleeping. rewrite bind_get.
  rewrite (bind_ok _ _ _ _ _ (q_next_ok _ _ _ (linked_first _ _ HL NSleep xs Hx))).
  apply (check_sleeping_run s Q []); try done. pose proof (queue_size _ _ HL _ _ Hx). lia.
Qed.

(** ** The choice of the next process *)

Definition eligible (s : sched_state) (t : tcb) : bool := if_mask_match s (NList t).

(** Whether the current process goes back to the ready queue. *)
Definition goes_ready (s : sched_state) : bool :=
  bool_decide (status (pcbs s (current s)) = TASK_RUNNING) && negb (pid (pcbs s (current s)) =? 0).

Definition ready_with_prev (s : sched_state) (rs : list tcb) : list tcb :=
  if goes_ready s then rs ++ [current s] else rs.

(** The process that runs next, and the ready queue it leaves. *)
Definition choice (s : sched_state) (rs : list tcb) : tcb * list tcb :=
  let rs' := ready_with_prev s rs in
  default (Idle (cpu s), rs') (take_first (eligible s) rs').

Definition switched_pcbs (s : sched_state) (next : tcb) : tcb → pcb_t := λ t,
  let p := pcbs s t in
  let p := if decide (t = next) then
             if decide (t = Idle (cpu s)) then p else set_cpuid (Z.of_nat (cpu s)) p
           else p in
  if decide (t = next) then set_status TASK_RUNNING p
  else if decide (t = current s) then if goes_ready s then set_status TASK_READY p else p
  else p.

Lemma take_first_fmap (judge : node → bool) (xs : list tcb) :
  take_first judge (fmap (M := list) NList xs)
  = match take_first (λ t, judge (NList t)) xs with
    | Some (t, r) => Some (NList t, fmap (M := list) NList r)
    | None => None
    end.
Proof.
  induction xs as [|x xs IH]; [done|]. rewrite fmap_cons. cbn [take_first].
  destruct (judge (NList x)); [done|]. rewrite IH.
  by destruct (take_first _ xs) as [[]|].
Qed.

Lemma q_visit_ok s Q xs (judge : sched_state → node → bool) :
  linked (heap s) Q → Q !! NReady = Some xs →
  match take_first (λ t, judge s (NList t)) xs with
  | None => q_visit NReady judge s = Ok None s
  | Some (t, r) => ∃ h, q_visit NReady judge s = Ok (Some (NList t)) (upd_heap h s) ∧
      linked h (<[NReady := r]> Q)
  end.
Proof.
  intros HL Hx. pose proof (queue_size _ _ HL _ _ Hx) as Hsz.
  pose proof (visit_spec (S (size (heap s))) (heap s) (lists Q) NReady (NList <$> xs) (judge s)
    (lk_queues _ _ HL) (lists_lookup _ _ _ Hx)) as Hv.
  rewrite length_fmap in Hv. specialize (Hv ltac:(lia)). rewrite take_first_fmap in Hv.
  unfold q_visit. rewrite bind_get. destruct (take_first _ xs) as [[t r]|]; simpl in Hv.
  - destruct Hv as (h & Hv & HQ & _ & Hsame). exists h. rewrite (bind_opt _ _ _ _ Hv), bind_modify.
    split; [done|]. by eapply linked_insert.
  - rewrite (bind_opt _ _ _ _ Hv), bind_modify. by destruct s.
Qed.

Definition is_proc (t : tcb) : Prop := ∃ i, t = Proc i ∧ (i < TASK_MAXNUM)%nat.

Lemma is_proc_valid t : is_proc t → valid_tcb t.
Proof. by intros (i & -> & ?). Qed.

(** The invariant of the scheduler: the queues are well formed, hold processes
    of the table, and the status of a queued process is READY in the ready
    queue and BLOCKED elsewhere. *)
Record sched_inv (s : sched_state) (Q : gmap node (list tcb)) : Prop := {
  sv_linked : linked (heap s) Q;
  sv_ready : is_Some (Q !! NReady);
  sv_sleep : is_Some (Q !! NSleep);
  sv_proc : ∀ hd xs t, Q !! hd = Some xs → t ∈ xs → is_proc t;
  sv_status : ∀ hd xs t, Q !! hd = Some xs → t ∈ xs →
    status (pcbs s t) = if decide (hd = NReady) then TASK_READY else TASK_BLOCKED;
  sv_current : valid_tcb (current s);
  sv_cpu : (cpu s < NR_CPUS)%nat;
  sv_idle : ∀ c, pid (pcbs s (Idle c)) = 0
}.

Section Pick.
Context (s : sched_state) (Q : gmap node (list tcb)) (rs : list tcb).
Hypothesis HI : sched_inv s Q.
Hypothesis Hrs : Q !! NReady = Some rs.

Lemma goes_ready_current : goes_ready s = true → is_proc (current s) ∧ ¬ queued Q (current s).
Proof.
  intros [Hst%bool_decide_eq_true Hp]%andb_true_iff. split.
  - pose proof (sv_current _ _ HI) as Hc. destruct (current s) as [i|c] eqn:E; [by exists i|].
    by rewrite (sv_idle _ _ HI) in Hp.
  - intros (hd & xs & Hx & Hin). rewrite (sv_status _ _ HI _ _ _ Hx Hin) in Hst. by case_decide.
Qed.

Lemma ready_with_prev_proc t : t ∈ ready_with_prev s rs → is_proc t.
Proof.
  unfold ready_with_prev. destruct (goes_ready s) eqn:Hg.
  - rewrite elem_of_app, list_elem_of_singleton. intros [?| ->].
    + by eapply (sv_proc _ _ HI).
    + by apply goes_ready_current.
  - by eapply (sv_proc _ _ HI).
Qed.

Lemma choice_cases :
  (∃ t r, take_first (eligible s) (ready_with_prev s rs) = Some (t, r) ∧ choice s rs = (t, r) ∧ is_proc t)
  ∨ (take_first (eligible s) (ready_with_prev s rs) = None ∧
     choice s rs = (Idle (cpu s), ready_with_prev s rs)).
Proof.
  unfold choice. destruct (take_first _ _) as [[t r]|] eqn:Ht; [left|by right].
  exists t, r. split; [done|]. split; [done|]. apply ready_with_prev_proc.
  apply take_first_Some in Ht as (ys & zs & -> & _ & _). apply elem_of_app. right. left.
Qed.

Lemma pick_next_enqueue : ∃ h,
  (if goes_ready s then q_enqueue (NList (current s)) NReady else mret ()) s = Ok () (upd_heap h s) ∧
  linked h (<[NReady := ready_with_prev s rs]> Q).
Proof.
  unfold ready_with_prev. destruct (goes_ready s) eqn:Hg.
  - destruct (goes_ready_current Hg) as [Hp Hq].
    apply q_enqueue_ok; [by apply HI|done|done|by apply is_proc_valid].
  - exists (heap s). split; [by destruct s|]. rewrite insert_id by done. by apply HI.
Qed.

Lemma pick_next_ok :
  let (next, r) := choice s rs in
  ∃ s', pick_next s = Ok next s' ∧ linked (heap s') (<[NReady := r]> Q) ∧
    current s' = next ∧ cpu s' = cpu s ∧ timer s' = timer s ∧ process_id s' = process_id s ∧
    ∀ t, pcbs s' t = switched_pcbs s next t.
Proof.
  destruct pick_next_enqueue as (h1 & He & HL1).
  pose proof (q_visit_ok (upd_heap h1 s) _ (ready_with_prev s rs) if_mask_match HL1
    (lookup_insert_eq _ _ _)) as Hv.
  change (λ t, if_mask_match (upd_heap h1 s) (NList t)) with (eligible s) in Hv.
  unfold pick_next. rewrite bind_get. unfold the_pcb. rewrite bind_gets.
  change (bool_decide (status (pcbs s (current s)) = TASK_RUNNING)
    && negb (pid (pcbs s (current s)) =? 0)) with (goes_ready s).
  rewrite (bind_ok _ _ _ _ _ He).
  destruct choice_cases as [(t & r & Ht & -> & (i & -> & Hi))|[Ht ->]]; rewrite Ht in Hv.
  - destruct Hv as (h2 & Hv & HL2). rewrite (bind_ok _ _ _ _ _ Hv). rewrite insert_insert_eq in HL2.
    destruct (goes_ready s) eqn:Hg; eexists; (split; [done|]); (split; [done|]);
      do 4 (split; [done|]); intros u; unfold switched_pcbs; rewrite Hg; simpl;
      repeat case_decide; subst;
      first [done|congruence|by match goal with E : Idle _ = current s |- _ => rewrite E end].
  - rewrite (bind_ok _ _ _ _ _ Hv).
    destruct (goes_ready s) eqn:Hg; eexists; (split; [done|]); (split; [done|]);
      do 4 (split; [done|]); intros u; unfold switched_pcbs; rewrite Hg; simpl;
      repeat case_decide; subst;
      first [done|congruence|by match goal with E : Idle _ = current s |- _ => rewrite E end].
Qed.

(** The process that is chosen is in no queue any more. *)
Lemma choice_not_queued : let (next, r) := choice s rs in ¬ queued (<[NReady := r]> Q) next.
Proof.
  destruct choice_cases as [(t & r & Ht & -> & _)|[Ht ->]].
  - apply take_first_Some in Ht as (ys & zs & E & -> & _).
    destruct pick_next_enqueue as (h1 & _ & HL1).
    pose proof (not_queued_del h1 _ NReady ys t zs HL1) as Hn.
    rewrite insert_insert_eq in Hn. apply Hn. rewrite lookup_insert_eq. by f_equal.
  - intros (hd & xs & Hx & Hin). destruct (decide (hd = NReady)) as [->|Hne].
    + rewrite lookup_insert_eq in Hx. injection Hx as <-.
      by apply ready_with_prev_proc in Hin as (i & ? & _).
    + rewrite lookup_insert_ne in Hx by done.
      by destruct (sv_proc _ _ HI _ _ _ Hx Hin) as (i & ? & _).
Qed.
End Pick.

Lemma choice_ready s rs t : t ∈ (choice s rs).2 → t ∈ ready_with_prev s rs.
Proof.
  unfold choice. destruct (take_first _ _) as [[u r]|] eqn:Ht; simpl; [|done].
  apply take_first_Some in Ht as (ys & zs & -> & -> & _). set_solver.
Qed.

Lemma switched_other s next t : t ≠ next → (t = current s → goes_ready s = false) →
  switched_pcbs s next t = pcbs s t.
Proof.
  intros Hne Hc. unfold switched_pcbs. rewrite !(decide_False (P := t = next)) by done.
  case_decide as E; [|done]. by rewrite (Hc E).
Qed.

Lemma switched_next s next : status (switched_pcbs s next next) = TASK_RUNNING.
Proof. unfold switched_pcbs. by rewrite !(decide_True (P := next = next)). Qed.

Lemma switched_prev s next : next ≠ current s → goes_ready s = true →
  status (switched_pcbs s next (current s)) = TASK_READY.
Proof.
  intros Hne Hg. unfold switched_pcbs. rewrite !(decide_False (P := current s = next)) by done.
  by rewrite decide_True, Hg.
Qed.

Lemma switched_keeps s next t :
  pid (switched_pcbs s next t) = pid (pcbs s t) ∧ mask (switched_pcbs s next t) = mask (pcbs s t).
Proof. unfold switched_pcbs. repeat case_decide; try done; by destruct (goes_ready s). Qed.

(** The scheduler's choice keeps the invariant. *)
Lemma pick_next_inv s Q rs :
  sched_inv s Q → Q !! NReady = Some rs →
  let (next, r) := choice s rs in
  ∃ s', pick_next s = Ok next s' ∧ sched_inv s' (<[NReady := r]> Q) ∧ current s' = next ∧
    status (pcbs s' next) = TASK_RUNNING ∧ cpu s' = cpu s ∧
    (∀ t, pcbs s' t = switched_pcbs s next t) ∧ ¬ queued (<[NReady := r]> Q) next.
Proof.
  intros HI Hrs. pose proof (pick_next_ok s Q rs HI Hrs) as Hok.
  pose proof (choice_not_queued s Q rs HI Hrs) as Hnq. pose proof (choice_ready s rs) as Hcr.
  pose proof (choice_cases s Q rs HI Hrs) as Hcs.
  pose proof (ready_with_prev_proc s Q rs HI Hrs) as Hproc.
  destruct (choice s rs) as [next r]. simpl in Hcr.
  destruct Hok as (s' & Hp & HL & Hcur & Hcpu & _ & _ & Hpcb). exists s'.
  assert (status (pcbs s' next) = TASK_RUNNING) as Hrun by by rewrite Hpcb, switched_next.
  split; [done|]. split; [|done]. split; try done.
  - by rewrite lookup_insert_eq.
  - rewrite lookup_insert_ne by done. apply HI.
  - intros hd xs t. rewrite lookup_insert_Some. intros [[<- <-]|[_ Hx]] Hin.
    + by apply Hproc, Hcr.
    + by eapply (sv_proc _ _ HI).
  - intros hd xs t Hx Hin. rewrite Hpcb.
    assert (t ≠ next) as Hne by (intros ->; apply Hnq; by exists hd, xs).
    destruct (decide (t = current s)) as [->|Hc].
    + destruct (goes_ready s) eqn:Hg.
      * rewrite switched_prev by done. destruct (decide (hd = NReady)) as [|Hr]; [done|].
        rewrite lookup_insert_ne in Hx by done.
        destruct (goes_ready_current s Q HI Hg) as [_ Hq]. destruct Hq. by exists hd, xs.
      * rewrite switched_other by done. rewrite lookup_insert_Some in Hx.
        destruct Hx as [[<- <-]|[Hr Hx]].
        -- apply Hcr in Hin. unfold ready_with_prev in Hin. rewrite Hg in Hin.
           by apply (sv_status _ _ HI NReady rs).
        -- by eapply (sv_status _ _ HI).
    + rewrite switched_other by done. rewrite lookup_insert_Some in Hx.
      destruct Hx as [[<- <-]|[Hr Hx]]; [|by eapply (sv_status _ _ HI)].
      apply Hcr in Hin. unfold ready_with_prev in Hin.
      assert (t ∈ rs) as Hin' by (destruct (goes_ready s); set_solver).
      by apply (sv_status _ _ HI NReady rs).
  - rewrite Hcur. destruct Hcs as [(t & r' & _ & [= -> ->] & Ht)|[_ [= -> _]]].
    + by apply is_proc_valid.
    + apply HI.
  - rewrite Hcpu. apply HI.
  - intros c. rewrite Hpcb. rewrite (proj1 (switched_keeps _ _ _)). apply HI.
Qed.

(** The choice of [do_scheduler]: the running process goes to the tail of
    the ready queue (the idle process never does), the first ready process
    whose mask allows this core runs next, or the core's idle process when
    there is none; the queues and the statuses stay consistent, and the process
    that runs is in no queue. *)
Theorem pick_next_spec s Q :
  sched_inv s Q →
  wp pick_next s (λ next s', ∃ rs r, Q !! NReady = Some rs ∧ choice s rs = (next, r) ∧
    sched_inv s' (<[NReady := r]> Q) ∧ current s' = next ∧
    status (pcbs s' next) = TASK_RUNNING ∧ ¬ queued (<[NReady := r]> Q) next).
Proof.
  intros HI. destruct (sv_ready _ _ HI) as [rs Hrs].
  pose proof (pick_next_inv s Q rs HI Hrs) as Hp. destruct (choice s rs) as [next r] eqn:Hc.
  destruct Hp as (s' & Hp & HI' & Hcur & Hrun & _ & _ & Hnq). eapply wp_ok; [exact Hp|].
  by exists rs, r.
Qed.

(** [n] timer interrupts in a row on this core. *)
Fixpoint ticks (n : nat) : M sched_state tcb :=
  match n with
  | O => gets current
  | S n' => pick_next;; ticks n'
  end.


(** ** The invariant through blocking and waking up *)

Lemma set_status_keeps v p : pid (set_status v p) = pid p ∧ status (set_status v p) = v.
Proof. done. Qed.

Lemma sched_inv_block s Q hd xs t h :
  sched_inv s Q → Q !! hd = Some xs → hd ≠ NReady → is_proc t → ¬ queued Q t →
  linked h (<[hd := xs ++ [t]]> Q) →
  sched_inv (upd_pcb t (set_status TASK_BLOCKED) (upd_heap h s)) (<[hd := xs ++ [t]]> Q).
Proof.
  intros HI Hx Hne Ht Hnq HL. split; try done; try apply HI.
  - rewrite lookup_insert_ne by done. apply HI.
  - destruct (decide (hd = NSleep)) as [->|]; [by rewrite lookup_insert_eq|].
    rewrite lookup_insert_ne by done. apply HI.
  - intros hd' ys u. rewrite lookup_insert_Some. intros [[<- <-]|[_ Hy]].
    + rewrite elem_of_app, list_elem_of_singleton. intros [?| ->]; [|done]. by eapply (sv_proc _ _ HI).
    + by eapply (sv_proc _ _ HI).
  - intros hd' ys u Hy Hu. simpl. destruct (decide (u = t)) as [->|Hut].
    + destruct (decide (hd' = hd)) as [->|Hhd].
      * by rewrite decide_False.
      * rewrite lookup_insert_ne in Hy by done. destruct Hnq. by exists hd', ys.
    + rewrite lookup_insert_Some in Hy. destruct Hy as [[<- <-]|[_ Hy]].
      * apply (sv_status _ _ HI _ _ _ Hx). apply elem_of_app in Hu as [?|?%list_elem_of_singleton]; done.
      * by apply (sv_status _ _ HI _ _ _ Hy).
  - intros c. simpl. case_decide as E; [|apply HI]. rewrite <- E. apply HI.
Qed.

(** Waking [ws], a part of the queue [hd] that leaves the part [zs]. *)
Lemma sched_inv_wake s Q hd xs ws zs rs h :
  sched_inv s Q → Q !! hd = Some xs → hd ≠ NReady → Q !! NReady = Some rs →
  (∀ t, t ∈ ws → t ∈ xs ∧ t ∉ zs) → (∀ t, t ∈ zs → t ∈ xs) →
  linked h (<[NReady := rs ++ ws]> (<[hd := zs]> Q)) →
  sched_inv (with_pcbs_heap (wake_pcbs ws (pcbs s)) h s) (<[NReady := rs ++ ws]> (<[hd := zs]> Q)).
Proof.
  intros HI Hx Hne Hr Hws Hzs HL. split; try done; try apply HI.
  - by rewrite lookup_insert_eq.
  - rewrite lookup_insert_ne by done. destruct (decide (hd = NSleep)) as [->|].
    + by rewrite lookup_insert_eq.
    + rewrite lookup_insert_ne by done. apply HI.
  - intros hd' ys u. rewrite !lookup_insert_Some. intros [[<- <-]|[_ [[<- <-]|[_ Hy]]]] Hu.
    + apply elem_of_app in Hu as [Hu|Hu]; [by eapply (sv_proc _ _ HI)|].
      eapply (sv_proc _ _ HI); [exact Hx|]. by apply Hws.
    + eapply (sv_proc _ _ HI); [exact Hx|]. by apply Hzs.
    + by eapply (sv_proc _ _ HI).
  - intros hd' ys u Hy Hu. simpl. rewrite wake_pcbs_lookup. pose proof (sv_linked _ _ HI) as HLs.
    assert (∀ hd2 ys2, Q !! hd2 = Some ys2 → u ∈ ys2 → u ∈ ws → hd2 = hd) as Huniq.
    { intros hd2 ys2 H2 Hin2 Hin. eapply (queue_unique _ _ HLs); [done|exact Hx|done|by apply Hws]. }
    rewrite !lookup_insert_Some in Hy. destruct Hy as [[<- <-]|[Hn [[<- <-]|[Hn' Hy]]]].
    + rewrite (decide_True (P := NReady = NReady)) by done. case_decide; [done|].
      apply elem_of_app in Hu as [Hu|Hu]; [|done]. by apply (sv_status _ _ HI _ _ _ Hr).
    + rewrite (decide_False (P := u ∈ ws)) by (intros Hin; by destruct (Hws _ Hin)).
      apply (sv_status _ _ HI _ _ _ Hx). by apply Hzs.
    + rewrite (decide_False (P := u ∈ ws)) by (intros Hin; apply Hn'; symmetry; by eapply Huniq).
      by apply (sv_status _ _ HI _ _ _ Hy).
  - intros c. simpl. rewrite wake_pcbs_lookup. case_decide; apply HI.
Qed.

Lemma awake_asleep s xs t : t ∈ awake s xs → t ∈ xs ∧ t ∉ asleep s xs.
Proof.
  unfold awake, asleep. rewrite !list_elem_of_filter. intros [He Hin]. split; [done|].
  intros [He' _]. congruence.
Qed.

(** [check_sleeping] makes ready exactly the sleepers whose time has come,
    in the order in which they went to sleep; the others stay asleep. *)
Theorem check_sleeping_spec s Q :
  sched_inv s Q →
  wp check_sleeping s (λ _ s', ∃ xs rs, Q !! NSleep = Some xs ∧ Q !! NReady = Some rs ∧
    sched_inv s' (<[NReady := rs ++ awake s xs]> (<[NSleep := asleep s xs]> Q)) ∧
    (∀ t, t ∈ xs → if expired s t then status (pcbs s' t) = TASK_READY
                   else status (pcbs s' t) = TASK_BLOCKED ∧ timer s < wakeup_time (pcbs s t))).
Proof.
  intros HI. destruct (sv_ready _ _ HI) as [rs Hr], (sv_sleep _ _ HI) as [xs Hx].
  destruct (check_sleeping_ok s Q xs rs) as (h & Hc & HL); [by apply HI|done|done| |].
  { intros t Ht. by eapply is_proc_valid, (sv_proc _ _ HI). }
  eapply wp_ok; [exact Hc|]. exists xs, rs. split; [done|]. split; [done|].
  assert (sched_inv (with_pcbs_heap (wake_pcbs (awake s xs) (pcbs s)) h s)
    (<[NReady := rs ++ awake s xs]> (<[NSleep := asleep s xs]> Q))) as HI'.
  { eapply sched_inv_wake; [done|done|done|done|apply awake_asleep| |done].
    unfold asleep. intros t Ht. by apply list_elem_of_filter in Ht as [_ ?]. }
  split; [done|]. intros t Ht. destruct (expired s t) eqn:He.
  - apply (sv_status _ _ HI' NReady (rs ++ awake s xs)); [by rewrite lookup_insert_eq|].
    apply elem_of_app. right. by apply list_elem_of_filter.
  - split; [|by apply Z.leb_gt in He].
    apply (sv_status _ _ HI' NSleep (asleep s xs)); [|by apply list_elem_of_filter].
    rewrite lookup_insert_ne by done. by rewrite lookup_insert_eq.
Qed.

(** A queue cannot be longer than the process table. *)
Lemma queue_procs_le s Q hd xs :
  sched_inv s Q → Q !! hd = Some xs → (length xs ≤ TASK_MAXNUM)%nat.
Proof.
  intros HI Hx. pose proof (queue_nodup _ _ (sv_linked _ _ HI) _ _ Hx) as Hnd.
  assert (length (Proc <$> seq 0 TASK_MAXNUM) = TASK_MAXNUM) as Hl.
  { by rewrite length_fmap, length_seq. }
  rewrite <- Hl. apply submseteq_length, NoDup_submseteq; [done|]. intros t Ht.
  destruct (sv_proc _ _ HI _ _ _ Hx Ht) as (i & -> & Hi). apply list_elem_of_fmap_2, elem_of_seq. lia.
Qed.

(** ** Boot: every list node of the kernel points to itself *)

Definition boot_heads : list node :=
  [NReady; NSleep; NNetSend; NNetRecv]
  ++ ((λ i, NWait (Proc i)) <$> seq 0 TASK_MAXNUM) ++ ((λ c, NWait (Idle c)) <$> seq 0 NR_CPUS)
  ++ (NMutex <$> seq 0 16) ++ (NBarrier <$> seq 0 16) ++ (NCond <$> seq 0 16)
  ++ (NSend <$> seq 0 16) ++ (NRecv <$> seq 0 16) ++ (NPipe <$> seq 0 16).
Definition boot_lists : list node :=
  ((λ i, NList (Proc i)) <$> seq 0 TASK_MAXNUM) ++ ((λ c, NList (Idle c)) <$> seq 0 NR_CPUS).
Definition boot_nodes : list node := boot_heads ++ boot_lists.
Definition boot_heap : nheap := list_to_map ((λ n, (n, mk_node n n)) <$> boot_nodes).
Definition boot_queues : gmap node (list tcb) := list_to_map ((λ n, (n, [])) <$> boot_heads).

Lemma boot_heap_lookup n : n ∈ boot_nodes → boot_heap !! n = Some (mk_node n n).
Proof.
  intros Hn. unfold boot_heap. apply elem_of_list_to_map.
  - apply (bool_decide_unpack _). by vm_compute.
  - apply list_elem_of_fmap. by exists n.
Qed.

Lemma boot_queues_lookup n xs : boot_queues !! n = Some xs → n ∈ boot_heads ∧ xs = [].
Proof.
  intros Hn%elem_of_list_to_map_2. apply list_elem_of_fmap in Hn as (m & [= -> ->] & ?). done.
Qed.

Lemma linked_boot : linked boot_heap boot_queues.
Proof.
  split.
  - split.
    + intros head ys (xs & [Hin ->]%boot_queues_lookup & ->)%lists_inv.
      assert (boot_heap !! head = Some (mk_node head head)) as Hl.
      { apply boot_heap_lookup. apply elem_of_app. by left. }
      split; [apply NoDup_singleton|].
      split; [|done]. unfold links, ld_next, ld_prev. by rewrite Hl.
    + intros hd1 hd2 xs1 xs2 x (xs & [_ ->]%boot_queues_lookup & ->)%lists_inv
        (xs' & [_ ->]%boot_queues_lookup & ->)%lists_inv. simpl.
      rewrite !list_elem_of_singleton. congruence.
  - intros t Ht. exists (mk_node (NList t) (NList t)). apply boot_heap_lookup.
    apply elem_of_app. right. destruct t as [i|c]; simpl in Ht.
    + apply elem_of_app. left. apply list_elem_of_fmap. exists i. split; [done|].
      apply elem_of_seq. lia.
    + apply elem_of_app. right. apply list_elem_of_fmap. exists c. split; [done|].
      apply elem_of_seq. lia.
  - intros t. destruct (boot_queues !! NList t) eqn:E; [|done].
    apply boot_queues_lookup in E as [E _]. exfalso.
    assert (Forall (λ n, container_of n = None) boot_heads) as Hf.
    { apply (bool_decide_unpack _). by vm_compute. }
    rewrite Forall_forall in Hf. by apply Hf in E.
Qed.

(** An example: process 0 runs, 1 and 2 are ready, 3 sleeps until time 50. *)
Definition ex_pcb (i : Z) (st : task_status_t) (w : Z) : pcb_t :=
  mk_pcb 0 0 0 0 0 i [] st 0 0 w 0 0 0 0 MASK_ALL 0 0 0.
Definition ex_pcbs (t : tcb) : pcb_t :=
  match t with
  | Proc 0 => ex_pcb 1 TASK_RUNNING 0
  | Proc 1 => ex_pcb 2 TASK_READY 0
  | Proc 2 => ex_pcb 3 TASK_READY 0
  | Proc 3 => ex_pcb 4 TASK_BLOCKED 50
  | Proc _ => ex_pcb 0 TASK_EXITED 0
  | Idle _ => ex_pcb 0 TASK_RUNNING 0
  end.
Definition ex_heap : nheap :=
  default ∅ (h ← enqueue boot_heap (NList (Proc 1)) NReady;
             h ← enqueue h (NList (Proc 2)) NReady;
             enqueue h (NList (Proc 3)) NSleep).
Definition ex_queues : gmap node (list tcb) :=
  <[NSleep := [Proc 3]]> (<[NReady := [Proc 1; Proc 2]]> boot_queues).
Definition ex_sched : sched_state := mk_sched ex_heap ex_pcbs (Proc 0) 0 100 5.

Lemma ex_queues_cases hd xs t : ex_queues !! hd = Some xs → t ∈ xs →
  (hd = NSleep ∧ t = Proc 3) ∨ (hd = NReady ∧ (t = Proc 1 ∨ t = Proc 2)).
Proof.
  unfold ex_queues. rewrite !lookup_insert_Some.
  intros [[<- <-]|[_ [[<- <-]|[_ [_ ->]%boot_queues_lookup]]]]; set_solver.
Qed.

Lemma boot_not_queued t : ¬ queued boot_queues t.
Proof. intros (hd & xs & [_ ->]%boot_queues_lookup & ?%not_elem_of_nil). done. Qed.

Lemma ex_linked : linked ex_heap ex_queues.
Proof.
  pose proof boot_not_queued as Hb. unfold ex_heap, ex_queues.
  assert (∀ i, (i < 4)%nat → valid_tcb (Proc i)) as Hv.
  { intros i Hi. simpl. unfold TASK_MAXNUM. lia. }
  destruct (linked_enqueue _ _ linked_boot NReady [] (Proc 1)) as (h1 & -> & L1);
    [reflexivity|apply Hb|apply Hv; lia|]. cbn [mbind option_bind].
  destruct (linked_enqueue _ _ L1 NReady ([] ++ [Proc 1]) (Proc 2)) as (h2 & -> & L2).
  { apply lookup_insert_eq. }
  { apply not_queued_insert; [apply Hb|]. by intros ?%list_elem_of_singleton. }
  { apply Hv. lia. }
  cbn [mbind option_bind]. rewrite insert_insert_eq in L2.
  destruct (linked_enqueue _ _ L2 NSleep [] (Proc 3)) as (h3 & -> & L3).
  { rewrite lookup_insert_ne by discriminate. reflexivity. }
  { apply not_queued_insert; [apply Hb|].
    rewrite !elem_of_app, !list_elem_of_singleton, elem_of_nil. by intros [[?|?]|?]. }
  { apply Hv. lia. }
  exact L3.
Qed.

Lemma ex_sched_inv : sched_inv ex_sched ex_queues.
Proof.
  split; try done.
  - apply ex_linked.
  - intros hd xs t Hx Ht. destruct (ex_queues_cases hd xs t Hx Ht) as [[_ ->]|[_ [-> | ->]]];
      eexists; (split; [done|unfold TASK_MAXNUM; lia]).
  - intros hd xs t Hx Ht. by destruct (ex_queues_cases hd xs t Hx Ht) as [[-> ->]|[-> [-> | ->]]].
  - simpl. unfold TASK_MAXNUM. lia.
  - simpl. unfold NR_CPUS. lia.
Qed.

Lemma ex_not_queued t : t ∉ [Proc 1; Proc 2; Proc 3] → ¬ queued ex_queues t.
Proof.
  intros Ht (hd & xs & Hx & Hin). apply Ht. rewrite !elem_of_cons.
  destruct (ex_queues_cases hd xs t Hx Hin) as [[_ ->]|[_ [-> | ->]]]; tauto.
Qed.

Lemma not_elem_ex t : bool_decide (t ∈ [Proc 1; Proc 2; Proc 3]) = false → t ∉ [Proc 1; Proc 2; Proc 3].
Proof. apply bool_decide_eq_false. Qed.

Lemma pick_next_spec_witness :
  wp pick_next ex_sched (λ next s', next = Proc 1 ∧ current s' = Proc 1).
Proof.
  eapply wp_mono; [apply (pick_next_spec ex_sched ex_queues ex_sched_inv)|].
  intros next s' (rs & r & Hr & Hc & _ & Hcur & _).
  assert (rs = [Proc 1; Proc 2]) as -> by (vm_compute in Hr; congruence).
  vm_compute in Hc. injection Hc as <- _. done.
Defined.


Lemma check_sleeping_spec_witness :
  wp check_sleeping ex_sched (λ _ s', status (pcbs s' (Proc 3)) = TASK_READY).
Proof.
  eapply wp_mono; [apply (check_sleeping_spec ex_sched ex_queues ex_sched_inv)|].
  intros _ s' (xs & rs & Hx & _ & _ & Hst).
  assert (xs = [Proc 3]) as -> by (vm_compute in Hx; congruence).
  apply (Hst (Proc 3)). left.
Defined.
