(* ===== verification/Resource.v ===== *)
(** Tables of kernel resources that processes wait for: each slot holds a spin
    lock, the resource's data, and a queue of blocked processes whose head is
    [head i].  Mutexes, barriers, condition variables and mailboxes are such
    tables; this file has the spin locks of kernel/locking/lock.c and what the
    four components share. *)
From S2P Require Import Prelude KMonad KList Sched.

Definition UNUSED : Z := -1.

Inductive lock_status_t := UNLOCKED | LOCKED.
#[export] Instance lock_status_eq_dec : EqDecision lock_status_t.
Proof. solve_decision. Defined.

(** A record with a spin lock in it. *)
Class HasSpin (T : Type) := {
  spin_of : T → lock_status_t;
  set_spin : lock_status_t → T → T;
  spin_set v x : spin_of (set_spin v x) = v;
  set_spin_id x : set_spin (spin_of x) x = x;
  set_spin_twice v w x : set_spin v (set_spin w x) = set_spin v x
}.

Record res_state (T : Type) := mk_res { r_sched : sched_state; slots : list T }.
Arguments mk_res {T} r_sched slots.
Arguments r_sched {T} r.
Arguments slots {T} r.

Section Operations.
Context {T : Type} `{HasSpin T}.

Definition upd_sched (x : sched_state) (s : res_state T) : res_state T := mk_res x (slots s).
Definition upd_slots (l : list T) (s : res_state T) : res_state T := mk_res (r_sched s) l.
Definition on_sched {A} (m : M sched_state A) : M (res_state T) A := zoom r_sched upd_sched m.

Definition slot (i : nat) : M (res_state T) T := s ← get; of_opt (slots s !! i).
Definition set_slot (i : nat) (f : T → T) : M (res_state T) unit :=
  modify (λ s, upd_slots (alter f i (slots s)) s).
Definition put_slot (i : nat) (x : T) (s : res_state T) : res_state T :=
  upd_slots (<[i := x]> (slots s)) s.

(** [atomic_swap(LOCKED, &lock->status)] stores LOCKED and gives the old value. *)
Definition spin_lock_try_acquire (old : lock_status_t) : lock_status_t * bool :=
  (LOCKED, bool_decide (old = UNLOCKED)).

(** [spin_lock_acquire] of the lock of slot [i]. A core that spins with the
    kernel lock held sees no other write: if the first try fails all do, and
    the loop does not return. *)
Definition SPIN_FUEL : nat := 1.
Definition spin_step (i : nat) : M (res_state T) (unit + unit) :=
  m ← slot i;
  let '(st, ok) := spin_lock_try_acquire (spin_of m) in
  set_slot i (set_spin st);;
  mret (if ok then inr () else inl ()).
Definition spin_lock_acquire (i : nat) : M (res_state T) unit :=
  while_ SPIN_FUEL (λ _ : unit, spin_step i) ().
Definition spin_lock_release (i : nat) : M (res_state T) unit := set_slot i (set_spin UNLOCKED).

(** The caller's process. *)
Definition current_running : M (res_state T) tcb := gets (λ s, current (r_sched s)).

(** ** One operation at a time *)

Lemma slot_ok s i m : slots s !! i = Some m → slot i s = Ok m s.
Proof. intros Hm. unfold slot. rewrite bind_get. unfold of_opt. by rewrite Hm. Qed.

Lemma set_slot_ok s i f m : slots s !! i = Some m → set_slot i f s = Ok () (put_slot i (f m) s).
Proof. intros Hm. unfold set_slot, modify, put_slot. by rewrite (list_alter_insert _ _ _ m). Qed.

Lemma put_slot_get s i m m' : slots s !! i = Some m → slots (put_slot i m' s) !! i = Some m'.
Proof. intros Hm. simpl. apply list_lookup_insert_eq. by eapply lookup_lt_Some. Qed.

Lemma put_slot_twice s i m m' : put_slot i m' (put_slot i m s) = put_slot i m' s.
Proof. unfold put_slot. simpl. by rewrite list_insert_insert_eq. Qed.

Lemma put_slot_id s i m : slots s !! i = Some m → put_slot i m s = s.
Proof. intros Hm. unfold put_slot. simpl. rewrite list_insert_id by done. by destruct s. Qed.

Lemma on_sched_ok {A} (m : M sched_state A) s a x :
  m (r_sched s) = Ok a x → on_sched m s = Ok a (upd_sched x s).
Proof. intros Hm. unfold on_sched, zoom. by rewrite Hm. Qed.

Lemma upd_sched_id (s : res_state T) : upd_sched (r_sched s) s = s.
Proof. by destruct s. Qed.

(** A free spin lock is taken at the first try; a taken one is never got. *)
Lemma spin_lock_acquire_ok s i m :
  slots s !! i = Some m → spin_of m = UNLOCKED →
  spin_lock_acquire i s = Ok () (put_slot i (set_spin LOCKED m) s).
Proof.
  intros Hm Hl. unfold spin_lock_acquire, SPIN_FUEL. rewrite while_eq. unfold spin_step.
  rewrite (bind_ok _ _ _ _ _ (slot_ok _ _ _ Hm)).
  unfold spin_lock_try_acquire. cbv beta iota zeta.
  rewrite (bind_ok _ _ _ _ _ (set_slot_ok _ _ _ _ Hm)). unfold mret, M_ret.
  by rewrite Hl, bool_decide_true.
Qed.

Lemma spin_lock_stuck s i m fuel :
  slots s !! i = Some m → spin_of m = LOCKED → while_ fuel (λ _ : unit, spin_step i) () s = Stuck.
Proof.
  intros Hm Hl. induction fuel as [|fuel IH]; [done|]. rewrite while_eq. unfold spin_step at 1.
  rewrite (bind_ok _ _ _ _ _ (slot_ok _ _ _ Hm)).
  unfold spin_lock_try_acquire. cbv beta iota zeta.
  rewrite (bind_ok _ _ _ _ _ (set_slot_ok _ _ _ _ Hm)). unfold mret, M_ret.
  rewrite Hl, bool_decide_false by done.
  replace (set_spin LOCKED m) with m by (rewrite <- Hl; symmetry; apply set_spin_id).
  by rewrite put_slot_id.
Qed.

Lemma spin_lock_release_ok s i m :
  slots s !! i = Some m → spin_lock_release i s = Ok () (put_slot i (set_spin UNLOCKED m) s).
Proof. apply set_slot_ok. Qed.
End Operations.

(** The running process: it is in no queue and was not killed. *)
Record runs (s : sched_state) (Q : gmap node (list tcb)) : Prop := {
  run_proc : is_proc (current s);
  run_free : ¬ queued Q (current s);
  run_alive : killed (pcbs s (current s)) ≠ 1
}.

(** Waking up others does not disturb the running process. *)
Lemma runs_wake s Q hd ws rs h :
  runs s Q → Q !! hd = Some ws → Q !! NReady = Some rs →
  runs (with_pcbs_heap (wake_pcbs ws (pcbs s)) h s) (<[NReady := rs ++ ws]> (<[hd := []]> Q)).
Proof.
  intros [Hp Hq Hk] Hws Hrs. split; [done| |].
  - simpl. apply not_queued_insert.
    + apply not_queued_insert; [done|]. apply not_elem_of_nil.
    + rewrite elem_of_app. intros [Hin|Hin]; apply Hq; [by exists NReady, rs|by exists hd, ws].
  - simpl. rewrite wake_pcbs_lookup. by case_decide.
Qed.

(** ** The invariant of a table

    [P x ws]: the data [x] of a slot fits the processes [ws] that wait for it. *)
Section Table.
Context {T : Type} `{HasSpin T}.
Context (head : nat → node) (N : nat) (P : T → list tcb → Prop).
Context {Hinj : Inj (=) (=) head} (Hhead : ∀ i, head i ≠ NReady).
Implicit Types (s : res_state T) (Q : gmap node (list tcb)).

Record res_inv s Q : Prop := {
  ri_sched : sched_inv (r_sched s) Q;
  ri_len : length (slots s) = N;
  ri_slot i x : slots s !! i = Some x →
    ∃ ws, Q !! head i = Some ws ∧ spin_of x = UNLOCKED ∧ P x ws
}.

Lemma res_get s Q i : res_inv s Q → (i < N)%nat →
  ∃ x ws, slots s !! i = Some x ∧ spin_of x = UNLOCKED ∧ Q !! head i = Some ws ∧ P x ws.
Proof.
  intros HI Hi. destruct (lookup_lt_is_Some_2 (slots s) i) as [x Hx]; [by rewrite (ri_len _ _ HI)|].
  destruct (ri_slot _ _ HI i x Hx) as (ws & ? & ? & ?). by exists x, ws.
Qed.

(** Changing one slot and its queue. *)
Lemma res_put s Q Q' y i x' ws' :
  res_inv s Q → (i < N)%nat → sched_inv y Q' → spin_of x' = UNLOCKED →
  (∀ j, j ≠ i → Q' !! head j = Q !! head j) → Q' !! head i = Some ws' → P x' ws' →
  res_inv (put_slot i x' (upd_sched y s)) Q'.
Proof.
  intros HI Hi Hy Hl Hother Hws HP. split.
  - done.
  - simpl. rewrite length_insert. apply HI.
  - intros j x. simpl. destruct (decide (j = i)) as [->|Hne].
    + rewrite list_lookup_insert_eq by by rewrite (ri_len _ _ HI). intros [= <-]. by exists ws'.
    + rewrite list_lookup_insert_ne by done. intros Hx. rewrite Hother by done.
      by apply (ri_slot _ _ HI).
Qed.

(** A table whose queues are left alone keeps its invariant. *)
Lemma res_frame s Q Q' y :
  res_inv s Q → sched_inv y Q' → (∀ j, Q' !! head j = Q !! head j) → res_inv (upd_sched y s) Q'.
Proof.
  intros HI Hy Hother. split; [done|apply HI|]. intros j x Hx. rewrite Hother. by apply (ri_slot _ _ HI).
Qed.

Lemma put_block s i x x1 (y : sched_state) :
  put_slot i x (upd_sched y (put_slot i x1 s)) = put_slot i x (upd_sched y s).
Proof. by rewrite <- (put_slot_twice (upd_sched y s) i x1 x). Qed.

(** Blocking the caller at the tail of slot [i]. *)
Lemma res_block s Q i x x1 x' ws :
  res_inv s Q → runs (r_sched s) Q → (i < N)%nat → slots s !! i = Some x → Q !! head i = Some ws →
  spin_of x' = UNLOCKED → P x' (ws ++ [current (r_sched s)]) →
  ∃ y Q', on_sched (do_block (NList (current (r_sched s))) (head i)) (put_slot i x1 s)
            = Ok () (put_slot i x1 (upd_sched y s)) ∧
    res_inv (put_slot i x' (upd_sched y s)) Q' ∧
    Q' = <[head i := ws ++ [current (r_sched s)]]> Q ∧
    (∃ h, y = upd_pcb (current (r_sched s)) (set_status TASK_BLOCKED) (upd_heap h (r_sched s))).
Proof.
  intros HI [Hp Hq Hk] Hi Hx Hws Hl HP.
  destruct (do_block_ok (r_sched s) Q (head i) ws (current (r_sched s))) as (h & Hb & HL);
    [apply HI|done|done|by apply is_proc_valid|done|].
  set (y := upd_pcb _ _ _) in Hb. exists y, (<[head i := ws ++ [current (r_sched s)]]> Q).
  split; [|split; [|split; [done|by exists h]]].
  - by apply (on_sched_ok (T := T) _ (put_slot i x1 s)).
  - eapply res_put; try done.
    + eapply sched_inv_block; try done. apply HI.
    + intros j Hj. rewrite lookup_insert_ne; [done|]. by intros ?%Hinj.
    + apply lookup_insert_eq.
Qed.

(** Waking up every process that waits for slot [i]. *)
Lemma res_wakeup s Q i x x1 x' ws :
  res_inv s Q → (i < N)%nat → slots s !! i = Some x → Q !! head i = Some ws →
  spin_of x' = UNLOCKED → P x' [] →
  ∃ y Q' rs, on_sched (wakeup (head i)) (put_slot i x1 s) = Ok () (put_slot i x1 (upd_sched y s)) ∧
    res_inv (put_slot i x' (upd_sched y s)) Q' ∧ Q !! NReady = Some rs ∧
    Q' = <[NReady := rs ++ ws]> (<[head i := []]> Q) ∧
    (∃ h, y = with_pcbs_heap (wake_pcbs ws (pcbs (r_sched s))) h (r_sched s)).
Proof.
  intros HI Hi Hx Hws Hl HP. pose proof (ri_sched _ _ HI) as HS.
  destruct (sv_ready _ _ HS) as [rs Hrs].
  destruct (wakeup_ok (r_sched s) Q (head i) ws rs) as (h & Hw & HL); [apply HS|apply Hhead|done|done| |].
  { intros t Ht. apply is_proc_valid. by apply (sv_proc _ _ HS (head i) ws). }
  set (y := with_pcbs_heap _ _ _) in Hw. exists y, (<[NReady := rs ++ ws]> (<[head i := []]> Q)), rs.
  split; [|split; [|split; [done|split; [done|by exists h]]]].
  - by apply (on_sched_ok (T := T) _ (put_slot i x1 s)).
  - eapply res_put; try done.
    + eapply sched_inv_wake; try done.
      * intros t Ht. split; [done|]. apply not_elem_of_nil.
      * intros t Ht. by apply not_elem_of_nil in Ht.
    + intros j Hj. rewrite !lookup_insert_ne; [done| |done]. by intros ?%Hinj.
    + rewrite lookup_insert_ne by done. apply lookup_insert_eq.
Qed.

(** Making the process ready that has waited longest for slot [i]. *)
Lemma res_handoff s Q i x x1 x' t ts :
  res_inv s Q → (i < N)%nat → slots s !! i = Some x → Q !! head i = Some (t :: ts) →
  spin_of x' = UNLOCKED → P x' ts →
  ∃ z y Q' rs, on_sched (q_dequeue (head i)) (put_slot i x1 s)
                 = Ok (Some (NList t)) (put_slot i x1 (upd_sched z s)) ∧
    on_sched (do_unblock (NList t)) (put_slot i x1 (upd_sched z s))
      = Ok () (put_slot i x1 (upd_sched y s)) ∧
    res_inv (put_slot i x' (upd_sched y s)) Q' ∧ Q !! NReady = Some rs ∧
    Q' = <[NReady := rs ++ [t]]> (<[head i := ts]> Q) ∧
    (∃ h, y = with_pcbs_heap (wake_pcbs [t] (pcbs (r_sched s))) h (r_sched s)).
Proof.
  intros HI Hi Hx Hws Hl HP. pose proof (ri_sched _ _ HI) as HS.
  destruct (sv_ready _ _ HS) as [rs Hrs].
  assert (is_proc t) as Ht by (eapply (sv_proc _ _ HS); [exact Hws|left]).
  destruct (dequeue_unblock (r_sched s) Q (head i) t ts rs) as (h1 & h2 & Hd & Hu & HL);
    [apply HS|by apply is_proc_valid|apply Hhead|done|done|].
  set (y := with_pcbs_heap _ _ _) in Hu.
  exists (upd_heap h1 (r_sched s)), y, (<[NReady := rs ++ [t]]> (<[head i := ts]> Q)), rs.
  split; [|split; [|split; [|split; [done|split; [done|by exists h2]]]]].
  - by apply (on_sched_ok (T := T) _ (put_slot i x1 s)).
  - by apply (on_sched_ok (T := T) _ (put_slot i x1 (upd_sched (upd_heap h1 (r_sched s)) s))).
  - eapply res_put; try done.
    + eapply sched_inv_wake; try done.
      * intros u ->%list_elem_of_singleton. split; [left|].
        pose proof (queue_nodup _ _ (sv_linked _ _ HS) _ _ Hws) as Hnd.
        by apply NoDup_cons in Hnd as [? _].
      * intros u Hu'. by right.
    + intros j Hj. rewrite !lookup_insert_ne; [done| |done]. by intros ?%Hinj.
    + rewrite lookup_insert_ne by done. apply lookup_insert_eq.
Qed.

Lemma res_empty s Q i x1 ws :
  res_inv s Q → Q !! head i = Some ws →
  on_sched (q_empty (head i)) (put_slot i x1 s) = Ok (bool_decide (ws = [])) (put_slot i x1 s).
Proof.
  intros HI Hws. rewrite <- (upd_sched_id (put_slot i x1 s)) at 2.
  apply on_sched_ok, (q_empty_ok (r_sched s) Q); [apply HI|done].
Qed.
End Table.

(** The running process of the example of Sched. *)
Lemma ex_sched_runs : runs ex_sched ex_queues.
Proof.
  split.
  - exists 0%nat. split; [done|unfold TASK_MAXNUM; lia].
  - by apply ex_not_queued, not_elem_ex.
  - done.
Qed.
