(* ===== verification/Lock.v ===== *)
(** kernel/locking/lock.c: mutexes with direct hand-off (the spin locks of
    the file are in Resource). *)
From S2P Require Import Prelude KMonad KList Sched Resource.

Definition LOCK_NUM : nat := 16.

Record mutex_lock_t := mk_mutex {
  ml_lock : lock_status_t;
  ml_status : lock_status_t;
  ml_key : Z;
  ml_pid : Z
}.
#[export] Instance mutex_spin : HasSpin mutex_lock_t.
Proof.
  refine {| spin_of := ml_lock;
            set_spin := λ v m, mk_mutex v (ml_status m) (ml_key m) (ml_pid m) |}.
  all: done || by intros [].
Defined.

Notation lock_state := (res_state mutex_lock_t).
Notation mlocks := (slots (T := mutex_lock_t)).

Definition set_owner (st : lock_status_t) (key p : Z) (m : mutex_lock_t) : mutex_lock_t :=
  mk_mutex (ml_lock m) st key p.

Definition init_lock (i : nat) : M lock_state unit :=
  on_sched (q_init (NMutex i));;
  set_slot i (λ _, mk_mutex UNLOCKED UNLOCKED UNUSED 0).
Definition init_locks : M lock_state unit := for_ 0 LOCK_NUM init_lock.

Definition do_mutex_lock_init (key : Z) : M lock_state Z :=
  if key <? 0 then mret (-1) else
  s ← get;
  let has k i := match mlocks s !! i with Some m => ml_key m =? k | None => false end in
  match first_index LOCK_NUM (has key) with
  | Some i => mret (Z.of_nat i)
  | None =>
      match first_index LOCK_NUM (has UNUSED) with
      | Some i =>
          set_slot i (λ m, set_owner (ml_status m) key (ml_pid m) m);;
          mret (Z.of_nat i)
      | None => mret (-1)
      end
  end.

Definition valid_mlock (mlock_idx : Z) : bool := (0 <=? mlock_idx) && (mlock_idx <? Z.of_nat LOCK_NUM).

(** [do_mutex_lock_acquire] up to its call of [do_scheduler]: [true] when the
    process was blocked and the call is made. *)
Definition do_mutex_lock_acquire (mlock_idx : Z) : M lock_state bool :=
  if negb (valid_mlock mlock_idx) then mret false else
  let i := Z.to_nat mlock_idx in
  spin_lock_acquire i;;
  m ← slot i;
  s ← get;
  let cur := current (r_sched s) in
  if decide (ml_status m = LOCKED) then
    on_sched (do_block (NList cur) (NMutex i));;
    spin_lock_release i;;
    mret true
  else
    set_slot i (λ m, set_owner LOCKED (ml_key m) (pid (pcbs (r_sched s) cur)) m);;
    spin_lock_release i;;
    mret false.

Definition do_mutex_lock_release (mlock_idx : Z) : M lock_state unit :=
  if negb (valid_mlock mlock_idx) then mret () else
  let i := Z.to_nat mlock_idx in
  spin_lock_acquire i;;
  m ← slot i;
  s ← get;
  if negb (pid (pcbs (r_sched s) (current (r_sched s))) =? ml_pid m) then mret () else
  empty ← on_sched (q_empty (NMutex i));
  (if (empty : bool) then set_slot i (set_owner UNLOCKED UNUSED 0)
   else
     next_node ← on_sched (q_dequeue (NMutex i));
     n ← of_opt next_node;
     on_sched (do_unblock n);;
     t ← of_opt (container_of n);
     p ← on_sched (the_pcb t);
     set_slot i (λ m, set_owner (ml_status m) (ml_key m) (pid p) m));;
  spin_lock_release i.

(** [free_lock] of proc.c *)
Definition free_lock (p : Z) : M lock_state unit :=
  for_ 0 LOCK_NUM (λ i,
    m ← slot i;
    if ml_pid m =? p then do_mutex_lock_release (Z.of_nat i) else mret ()).

(** ** What a mutex is to its users *)

Inductive mutex := Free | Held (owner : Z) (waiting : list tcb).

Definition abs_mutex (m : mutex_lock_t) (ws : list tcb) : mutex :=
  match ml_status m with LOCKED => Held (ml_pid m) ws | UNLOCKED => Free end.

Definition mutex_of (s : lock_state) (Q : gmap node (list tcb)) (i : nat) : option mutex :=
  m ← mlocks s !! i;
  ws ← Q !! NMutex i;
  Some (abs_mutex m ws).

(** An unlocked mutex has no owner and nobody waits for it. *)
Definition mutex_ok (m : mutex_lock_t) (ws : list tcb) : Prop :=
  ml_status m = UNLOCKED → ml_pid m = 0 ∧ ws = [].

Notation lock_inv := (res_inv NMutex LOCK_NUM mutex_ok).

#[export] Instance NMutex_inj : Inj (=) (=) NMutex.
Proof. by intros ?? [= ->]. Qed.

Lemma NMutex_ready i : NMutex i ≠ NReady.
Proof. done. Qed.

Definition valid_idx (i : nat) : Prop := (i < LOCK_NUM)%nat.

Lemma valid_mlock_of i : valid_idx i → valid_mlock (Z.of_nat i) = true.
Proof. unfold valid_idx, valid_mlock. intros. apply andb_true_iff. rewrite Z.leb_le, Z.ltb_lt. lia. Qed.

Lemma mutex_of_lookup s Q i m ws :
  mlocks s !! i = Some m → Q !! NMutex i = Some ws → mutex_of s Q i = Some (abs_mutex m ws).
Proof. intros Hm Hws. unfold mutex_of. rewrite Hm. simpl. by rewrite Hws. Qed.

Definition cur_pid (s : lock_state) : Z := pid (pcbs (r_sched s) (current (r_sched s))).

(** Both operations start by taking the spin lock of the mutex. *)
Lemma mutex_enter s Q i mu :
  lock_inv s Q → valid_idx i → mutex_of s Q i = Some mu →
  ∃ m ws, mlocks s !! i = Some m ∧ ml_lock m = UNLOCKED ∧ Q !! NMutex i = Some ws ∧
    mu = abs_mutex m ws ∧ mutex_ok m ws ∧
    spin_lock_acquire i s = Ok () (put_slot i (set_spin LOCKED m) s) ∧
    mlocks (put_slot i (set_spin LOCKED m) s) !! i = Some (set_spin LOCKED m).
Proof.
  intros HI Hi Hmu. destruct (res_get NMutex LOCK_NUM mutex_ok s Q i HI Hi) as (m & ws & Hm & Hl & Hws & HP).
  exists m, ws. do 3 (split; [done|]). rewrite (mutex_of_lookup s Q i m ws Hm Hws) in Hmu.
  injection Hmu as <-. do 2 (split; [done|]). split; [by apply spin_lock_acquire_ok|by eapply put_slot_get].
Qed.

(** Leaving an operation with mutex [i] set to [m']. *)
Lemma mutex_leave (s : lock_state) Q i m m' ws' mu :
  mlocks s !! i = Some m → Q !! NMutex i = Some ws' → abs_mutex m' ws' = mu →
  mutex_of (put_slot i m' s) Q i = Some mu.
Proof.
  intros Hm Hws <-. apply mutex_of_lookup; [|done]. by apply (put_slot_get s i m).
Qed.

Lemma put_slot_other (i j : nat) (m : mutex_lock_t) (s : lock_state) : j ≠ i →
  mlocks (put_slot i m s) !! j = mlocks s !! j.
Proof. intros Hj. simpl. by rewrite list_lookup_insert_ne. Qed.

(** [do_mutex_lock_acquire]: what becomes of the mutex, the queues and the
    scheduler. *)
Lemma do_mutex_lock_acquire_ok s Q i mu :
  lock_inv s Q → runs (r_sched s) Q → valid_idx i → mutex_of s Q i = Some mu →
  wp (do_mutex_lock_acquire (Z.of_nat i)) s (λ blocked s', ∃ Q', lock_inv s' Q' ∧
    (∀ j, j ≠ i → mlocks s' !! j = mlocks s !! j) ∧
    match mu with
    | Free => blocked = false ∧ mutex_of s' Q' i = Some (Held (cur_pid s) []) ∧ Q' = Q ∧
        r_sched s' = r_sched s
    | Held p ws => blocked = true ∧ mutex_of s' Q' i = Some (Held p (ws ++ [current (r_sched s)])) ∧
        Q' = <[NMutex i := ws ++ [current (r_sched s)]]> Q ∧
        ∃ h, r_sched s' = upd_pcb (current (r_sched s)) (set_status TASK_BLOCKED) (upd_heap h (r_sched s))
    end).
Proof.
  intros HI Hrun Hi Hmu.
  destruct (mutex_enter s Q i mu HI Hi Hmu) as (m & ws & Hm & Hl & Hws & -> & Hok & Ha & Hm1).
  unfold do_mutex_lock_acquire. rewrite valid_mlock_of by done. change (negb true) with false. cbv iota zeta.
  rewrite Nat2Z.id, wp_bind, (wp_ok _ _ _ _ _ Ha), wp_bind, (wp_ok _ _ _ _ _ (slot_ok _ _ _ Hm1)), wp_bind, wp_get.
  unfold abs_mutex. destruct m as [l st key p]. simpl in Hl. subst l.
  destruct st; simpl ml_status; [rewrite decide_False by done|rewrite decide_True by done].
  - destruct (Hok eq_refl) as [_ ->].
    rewrite wp_bind, (wp_ok _ _ _ _ _ (set_slot_ok _ _ _ _ Hm1)), wp_bind.
    erewrite wp_ok; [|by eapply spin_lock_release_ok, put_slot_get].
    rewrite wp_ret, !put_slot_twice. exists Q.
    split; [|split; [intros j Hj; by apply put_slot_other|split; [done|split; [by eapply mutex_leave|done]]]].
    rewrite <- (upd_sched_id s). eapply res_put; try done. apply HI.
  - destruct (res_block NMutex LOCK_NUM mutex_ok NMutex_ready s Q i _ (set_spin LOCKED (mk_mutex UNLOCKED LOCKED key p))
      (mk_mutex UNLOCKED LOCKED key p) ws HI Hrun Hi Hm Hws) as (y & Q' & Hb & HI' & -> & h & ->);
      [done|done|].
    rewrite wp_bind, (wp_ok _ _ _ _ _ Hb), wp_bind.
    erewrite wp_ok; [|by eapply spin_lock_release_ok, (put_slot_get (upd_sched _ s))].
    rewrite wp_ret, put_slot_twice. eexists. split; [exact HI'|].
    split; [intros j Hj; by apply (put_slot_other i j _ (upd_sched _ s))|]. split; [done|].
    split; [by eapply mutex_leave; [exact Hm|apply lookup_insert_eq|]|]. split; [done|by exists h].
Qed.

(** [do_mutex_lock_acquire] up to the call of the scheduler: a free mutex
    is held by the caller, which goes on; otherwise the caller is blocked at
    the tail of the mutex's queue and the owner does not change. *)
Theorem do_mutex_lock_acquire_spec s Q i mu :
  lock_inv s Q → runs (r_sched s) Q → valid_idx i → mutex_of s Q i = Some mu →
  wp (do_mutex_lock_acquire (Z.of_nat i)) s (λ blocked s', ∃ Q', lock_inv s' Q' ∧
    match mu with
    | Free => blocked = false ∧ mutex_of s' Q' i = Some (Held (cur_pid s) []) ∧ Q' = Q ∧
        r_sched s' = r_sched s
    | Held p ws => blocked = true ∧
        mutex_of s' Q' i = Some (Held p (ws ++ [current (r_sched s)])) ∧
        status (pcbs (r_sched s') (current (r_sched s))) = TASK_BLOCKED
    end).
Proof.
  intros HI Hrun Hi Hmu. eapply wp_mono; [by apply (do_mutex_lock_acquire_ok s Q i mu)|].
  intros blocked s' (Q' & HI' & _ & H). exists Q'. split; [done|].
  destruct mu as [|p ws]; [done|]. destruct H as (-> & Hmu' & _ & h & ->). do 2 (split; [done|]).
  simpl. by rewrite decide_True.
Qed.

(** What an operation on mutex [i] leaves alone. *)
Definition same_but_mutex (i : nat) (s s' : lock_state) : Prop :=
  (∀ j, j ≠ i → mlocks s' !! j = mlocks s !! j) ∧
  current (r_sched s') = current (r_sched s) ∧
  ∀ t, pid (pcbs (r_sched s') t) = pid (pcbs (r_sched s) t).

Lemma same_but_put i (s : lock_state) m y :
  current y = current (r_sched s) → (∀ t, pid (pcbs y t) = pid (pcbs (r_sched s) t)) →
  same_but_mutex i s (put_slot i m (upd_sched y s)).
Proof. intros Hc Hp. split; [|by split]. intros j Hj. simpl. by rewrite list_lookup_insert_ne. Qed.

(** [do_mutex_lock_release] by the owner; queues other than the mutex's and the
    ready queue stay as they are. *)
Lemma do_mutex_lock_release_ok s Q i ws :
  lock_inv s Q → valid_idx i → mutex_of s Q i = Some (Held (cur_pid s) ws) →
  wp (do_mutex_lock_release (Z.of_nat i)) s (λ _ s', ∃ Q', lock_inv s' Q' ∧
    same_but_mutex i s s' ∧
    (∀ hd, hd ≠ NMutex i → hd ≠ NReady → Q' !! hd = Q !! hd) ∧
    match ws with
    | [] => mutex_of s' Q' i = Some Free ∧ Q' = Q ∧ r_sched s' = r_sched s
    | t :: ws' => mutex_of s' Q' i = Some (Held (pid (pcbs (r_sched s) t)) ws') ∧
        ∃ rs h, Q !! NReady = Some rs ∧ Q' = <[NReady := rs ++ [t]]> (<[NMutex i := ws']> Q) ∧
          r_sched s' = with_pcbs_heap (wake_pcbs [t] (pcbs (r_sched s))) h (r_sched s)
    end).
Proof.
  intros HI Hi Hmu.
  destruct (mutex_enter s Q i _ HI Hi Hmu) as (m & ws' & Hm & Hl & Hws & Habs & Hok & Ha & Hm1).
  destruct m as [l st key p]. simpl in Hl. subst l. unfold abs_mutex in Habs. simpl in Habs.
  destruct st; [done|]. injection Habs as <- <-.
  unfold do_mutex_lock_release. rewrite valid_mlock_of by done. change (negb true) with false. cbv iota zeta.
  rewrite Nat2Z.id, wp_bind, (wp_ok _ _ _ _ _ Ha), wp_bind, (wp_ok _ _ _ _ _ (slot_ok _ _ _ Hm1)), wp_bind, wp_get.
  simpl ml_pid. change (pid (pcbs (r_sched (put_slot _ _ s)) _)) with (cur_pid s).
  rewrite Z.eqb_refl. cbv iota beta delta [negb].
  rewrite wp_bind, (wp_ok _ _ _ _ _ (res_empty _ _ _ s Q i _ ws HI Hws)), wp_bind.
  destruct ws as [|t ts].
  - rewrite bool_decide_true by done. rewrite (wp_ok _ _ _ _ _ (set_slot_ok _ _ _ _ Hm1)).
    erewrite wp_ok; [|by eapply spin_lock_release_ok, put_slot_get].
    rewrite !put_slot_twice. exists Q.
    split; [|split; [|split; [done|split; [by eapply mutex_leave|done]]]].
    + rewrite <- (upd_sched_id s). eapply res_put; try done; apply HI.
    + rewrite <- (upd_sched_id s) at 2. by apply same_but_put.
  - rewrite bool_decide_false by done.
    destruct (res_handoff NMutex LOCK_NUM mutex_ok NMutex_ready s Q i _
      (set_spin LOCKED (mk_mutex UNLOCKED LOCKED key (cur_pid s)))
      (mk_mutex UNLOCKED LOCKED key (pid (pcbs (r_sched s) t))) t ts HI Hi Hm Hws)
      as (z & y & Q' & rs & Hd & Hu & HI' & Hr & -> & h & ->); [done|done|].
    rewrite wp_bind, (wp_ok _ _ _ _ _ Hd), wp_bind, wp_of_opt. exists (NList t). split; [done|].
    rewrite wp_bind, (wp_ok _ _ _ _ _ Hu), wp_bind, wp_of_opt. exists t. split; [done|].
    rewrite wp_bind. erewrite wp_ok; [|by apply on_sched_ok].
    erewrite wp_ok; [|by eapply set_slot_ok, (put_slot_get (upd_sched _ s))].
    erewrite wp_ok; [|by eapply spin_lock_release_ok, put_slot_get, (put_slot_get (upd_sched _ s))].
    rewrite upd_sched_id, !put_slot_twice. set (y := with_pcbs_heap _ _ _) in *.
    assert (pid (pcbs y t) = pid (pcbs (r_sched s) t)) as Hpid by (simpl; by case_decide).
    unfold set_owner. simpl. cbn in Hpid |- *. rewrite Hpid. eexists. split; [exact HI'|]. split; [|split; [|split]].
    + apply same_but_put; [done|]. intros u. subst y. cbn [pcbs with_pcbs_heap upd_heap upd_pcbs]. rewrite wake_pcbs_lookup. by destruct (decide (u ∈ [t])).
    + intros hd H1 H2. by rewrite !lookup_insert_ne.
    + eapply mutex_leave; [exact Hm| |done]. rewrite lookup_insert_ne by done. apply lookup_insert_eq.
    + by exists rs, h.
Qed.

(** [do_mutex_lock_release] by the owner hands the mutex to the process
    that waits longest, which becomes ready, and the mutex never is unlocked
    in between; without a waiter it becomes free. *)
Theorem do_mutex_lock_release_spec s Q i ws :
  lock_inv s Q → valid_idx i → mutex_of s Q i = Some (Held (cur_pid s) ws) →
  wp (do_mutex_lock_release (Z.of_nat i)) s (λ _ s', ∃ Q', lock_inv s' Q' ∧
    match ws with
    | [] => mutex_of s' Q' i = Some Free
    | t :: ws' => mutex_of s' Q' i = Some (Held (pid (pcbs (r_sched s) t)) ws') ∧
        status (pcbs (r_sched s') t) = TASK_READY
    end).
Proof.
  intros HI Hi Hmu. eapply wp_mono; [by apply do_mutex_lock_release_ok|].
  intros _ s' (Q' & HI' & _ & _ & H). exists Q'. split; [done|].
  destruct ws as [|t ws]; [by destruct H|]. destruct H as (H & rs & h & _ & _ & ->). split; [done|].
  cbn [pcbs with_pcbs_heap upd_heap upd_pcbs]. by rewrite wake_pcbs_lookup, decide_True by left.
Qed.

(** What becomes of a mutex when process [p] lets all its mutexes go: [pd]
    gives the identifier of a process. *)
Definition let_go (p : Z) (pd : tcb → Z) (mu : mutex) : mutex :=
  match mu with
  | Held q ws =>
      if decide (q = p) then match ws with [] => Free | t :: ws' => Held (pd t) ws' end else mu
  | Free => Free
  end.

Lemma mutex_of_frame s s' Q Q' i :
  mlocks s' !! i = mlocks s !! i → Q' !! NMutex i = Q !! NMutex i → mutex_of s' Q' i = mutex_of s Q i.
Proof. intros Hm Hq. unfold mutex_of. by rewrite Hm, Hq. Qed.

Lemma same_but_mutex_refl i s : same_but_mutex i s s.
Proof. done. Qed.

(** One round of [free_lock]. *)
Lemma free_lock_step s Q i :
  lock_inv s Q → valid_idx i → cur_pid s ≠ 0 →
  wp (m ← slot i; if ml_pid m =? cur_pid s then do_mutex_lock_release (Z.of_nat i) else mret ()) s
    (λ _ s', ∃ Q', lock_inv s' Q' ∧ same_but_mutex i s s' ∧
      (∀ j, j ≠ i → Q' !! NMutex j = Q !! NMutex j) ∧
      mutex_of s' Q' i = let_go (cur_pid s) (λ t, pid (pcbs (r_sched s) t)) <$> mutex_of s Q i).
Proof.
  intros HI Hi Hp.
  destruct (res_get NMutex LOCK_NUM mutex_ok s Q i HI Hi) as (m & ws & Hm & Hl & Hws & HP).
  pose proof (mutex_of_lookup s Q i m ws Hm Hws) as Hmu.
  rewrite wp_bind, (wp_ok _ _ _ _ _ (slot_ok _ _ _ Hm)). destruct (Z.eqb_spec (ml_pid m) (cur_pid s)) as [E|E].
  - assert (mutex_of s Q i = Some (Held (cur_pid s) ws)) as Hheld.
    { rewrite Hmu, <- E. unfold abs_mutex. destruct (ml_status m) eqn:Es; [|done].
      destruct (HP Es) as [E0 _]. congruence. }
    eapply wp_mono; [by apply (do_mutex_lock_release_ok s Q i ws)|].
    intros _ s' (Q' & HI' & Hsame & Hother & Hres). exists Q'. split; [done|]. split; [done|]. split.
    + intros j Hj. apply Hother; [congruence|done].
    + rewrite Hheld. simpl. rewrite decide_True by done. destruct ws; by destruct Hres.
  - rewrite wp_ret. exists Q. split; [done|]. split; [apply same_but_mutex_refl|]. split; [done|].
    rewrite Hmu. simpl. unfold abs_mutex. destruct (ml_status m); simpl; [done|]. by rewrite decide_False.
Qed.

(** A process that exits lets all its mutexes go: each mutex it held is
    handed to the process that has waited longest for it, or is free; the
    mutexes of the other processes and the processes waiting for them are left
    alone, and no mutex belongs to the exiting process any more. *)
Theorem free_lock_spec s Q :
  lock_inv s Q → cur_pid s ≠ 0 →
  (∀ i ws t, Q !! NMutex i = Some ws → t ∈ ws → pid (pcbs (r_sched s) t) ≠ cur_pid s) →
  wp (free_lock (cur_pid s)) s (λ _ s', ∃ Q', lock_inv s' Q' ∧
    (∀ i, valid_idx i →
      mutex_of s' Q' i = let_go (cur_pid s) (λ t, pid (pcbs (r_sched s) t)) <$> mutex_of s Q i) ∧
    ∀ i ws, mutex_of s' Q' i ≠ Some (Held (cur_pid s) ws)).
Proof.
  intros HI Hp Hpid. set (pd := λ t, pid (pcbs (r_sched s) t)). set (p := cur_pid s).
  eapply wp_mono.
  - apply (wp_for (λ i s', ∃ Q', lock_inv s' Q' ∧ cur_pid s' = p ∧
      (∀ t, pid (pcbs (r_sched s') t) = pd t) ∧
      ∀ j, mutex_of s' Q' j = if decide (j < i)%nat then let_go p pd <$> mutex_of s Q j else mutex_of s Q j)).
    + exists Q. split; [done|]. split; [done|]. split; [done|].
      intros j. by rewrite decide_False by lia.
    + intros i s' Hi (Q1 & HI1 & Hcur & Hpd & Hmu).
      pose proof (free_lock_step s' Q1 i HI1 ltac:(unfold valid_idx; lia) ltac:(by rewrite Hcur)) as Hstep.
      rewrite Hcur in Hstep. eapply wp_mono; [exact Hstep|].
      intros _ s'' (Q2 & HI2 & (Hsl & Hc2 & Hpd2) & Hq2 & Hres). exists Q2. split; [done|]. split; [|split].
      * unfold cur_pid. by rewrite Hc2, Hpd2.
      * intros t. by rewrite Hpd2.
      * intros j. destruct (decide (j = i)) as [->|Hj].
        -- rewrite Hres, Hmu, decide_False, decide_True by lia.
           destruct (mutex_of s Q i) as [[|q [|t ts]]|]; simpl; try done. by rewrite Hpd.
        -- rewrite (mutex_of_frame s' s'' Q1 Q2 j), Hmu by auto.
           destruct (decide (j < i)%nat), (decide (j < S i)%nat); done || lia.
  - intros _ s' (Q' & HI' & _ & _ & Hmu). exists Q'. split; [done|]. split.
    + intros i Hi. by rewrite Hmu, decide_True by (unfold valid_idx in Hi; lia).
    + intros i ws Hheld. assert (valid_idx i) as Hi.
      { unfold mutex_of in Hheld. destruct (mlocks s' !! i) eqn:E; [|done].
        apply lookup_lt_Some in E. by rewrite (ri_len _ _ _ _ _ HI') in E. }
      rewrite Hmu, decide_True in Hheld by (unfold valid_idx in Hi; lia).
      destruct (mutex_of s Q i) as [[|q us]|] eqn:E; simpl in Hheld; try done.
      case_decide; [|congruence]. destruct us as [|t us]; [done|]. injection Hheld as Ht _.
      unfold mutex_of in E. destruct (mlocks s !! i); [|done]. simpl in E.
      destruct (Q !! NMutex i) as [vs|] eqn:Ev; [|done]. simpl in E. unfold abs_mutex in E.
      destruct (ml_status m); [done|]. injection E as _ ->. apply (Hpid i _ t Ev); [left|done].
Qed.

(** A process that releases a mutex it does not own leaves the mutex's spin
    lock taken: whatever is tried afterwards on this mutex, by its owner too,
    spins for ever. *)
Theorem release_by_other_wedges s Q i p ws :
  lock_inv s Q → valid_idx i → mutex_of s Q i = Some (Held p ws) → p ≠ cur_pid s →
  ∃ s', do_mutex_lock_release (Z.of_nat i) s = Ok () s' ∧
    (∀ fuel, while_ fuel (λ _ : unit, spin_step i) () s' = Stuck) ∧
    do_mutex_lock_acquire (Z.of_nat i) s' = Stuck ∧
    do_mutex_lock_release (Z.of_nat i) s' = Stuck.
Proof.
  intros HI Hi Hmu Hp.
  destruct (mutex_enter s Q i _ HI Hi Hmu) as (m & ws' & Hm & Hl & Hws & Habs & _ & Ha & Hm1).
  set (s1 := put_slot i (set_spin LOCKED m) s) in *.
  assert (∀ fuel, while_ fuel (λ _ : unit, spin_step i) () s1 = Stuck) as Hspin.
  { intros fuel. by eapply spin_lock_stuck. }
  exists s1. split; [|split; [done|]].
  - unfold do_mutex_lock_release. rewrite valid_mlock_of by done. change (negb true) with false. cbv iota zeta.
    rewrite Nat2Z.id, (bind_ok _ _ _ _ _ Ha), (bind_ok _ _ _ _ _ (slot_ok _ _ _ Hm1)), bind_get.
    change (pid (pcbs (r_sched s1) (current (r_sched s1)))) with (cur_pid s).
    change (ml_pid (set_spin LOCKED m)) with (ml_pid m).
    unfold abs_mutex in Habs. destruct (ml_status m); [done|]. injection Habs as -> _.
    rewrite (proj2 (Z.eqb_neq (cur_pid s) _)) by done. done.
  - unfold do_mutex_lock_acquire, do_mutex_lock_release.
    rewrite valid_mlock_of by done. change (negb true) with false. cbv iota zeta.
    rewrite Nat2Z.id. unfold spin_lock_acquire. split; unfold mbind, M_bind; by rewrite Hspin.
Qed.

(** ** Examples: mutex 0 is free, 1 is held by the running process with process
    4 waiting, 2 is held by process 1. *)

Definition ex_lk_heap : nheap := default ∅ (enqueue ex_heap (NList (Proc 4)) (NMutex 1)).
Definition ex_lk_pcbs (t : tcb) : pcb_t :=
  if decide (t = Proc 4) then ex_pcb 5 TASK_BLOCKED 0 else ex_pcbs t.
Definition ex_lk_queues : gmap node (list tcb) := <[NMutex 1 := [Proc 4]]> ex_queues.
Definition ex_mutex (st : lock_status_t) (key p : Z) : mutex_lock_t := mk_mutex UNLOCKED st key p.
Definition ex_locks : lock_state :=
  mk_res (mk_sched ex_lk_heap ex_lk_pcbs (Proc 0) 0 100 6)
    ([ex_mutex UNLOCKED 7 0; ex_mutex LOCKED 8 1; ex_mutex LOCKED 9 2]
     ++ replicate 13 (ex_mutex UNLOCKED UNUSED 0)).

Lemma ex_lk_linked : linked ex_lk_heap ex_lk_queues.
Proof.
  unfold ex_lk_heap, ex_lk_queues.
  destruct (linked_enqueue _ _ ex_linked (NMutex 1) [] (Proc 4)) as (h & -> & HL); [done| | |done].
  - by apply ex_not_queued, not_elem_ex.
  - simpl. unfold TASK_MAXNUM. lia.
Qed.

Lemma ex_lk_cases hd xs t : ex_lk_queues !! hd = Some xs → t ∈ xs →
  (hd = NMutex 1 ∧ t = Proc 4) ∨ (hd ≠ NMutex 1 ∧ ex_queues !! hd = Some xs).
Proof.
  unfold ex_lk_queues. rewrite lookup_insert_Some. intros [[<- <-]|[? Hx]] Ht; [left|by right].
  split; [done|]. by apply list_elem_of_singleton in Ht.
Qed.

Lemma ex_lk_sched : sched_inv (r_sched ex_locks) ex_lk_queues.
Proof.
  split; try done.
  - apply ex_lk_linked.
  - intros hd xs t Hx Ht. destruct (ex_lk_cases hd xs t Hx Ht) as [[_ ->]|[_ Hx']].
    + eexists. split; [done|unfold TASK_MAXNUM; lia].
    + by eapply (sv_proc _ _ ex_sched_inv).
  - intros hd xs t Hx Ht. destruct (ex_lk_cases hd xs t Hx Ht) as [[-> ->]|[_ Hx']]; [done|].
    simpl. unfold ex_lk_pcbs. rewrite decide_False.
    + by eapply (sv_status _ _ ex_sched_inv).
    + intros ->. apply (ex_not_queued (Proc 4)); [by apply not_elem_ex|by exists hd, xs].
  - simpl. unfold TASK_MAXNUM. lia.
  - simpl. unfold NR_CPUS. lia.
Qed.

Lemma ex_lock_inv : lock_inv ex_locks ex_lk_queues.
Proof.
  split; [apply ex_lk_sched|done|]. intros i m.
  do 16 (destruct i as [|i]; [intros [= <-]; eexists; split; [by vm_compute|]; by split|]). done.
Qed.

Lemma ex_runs : runs (r_sched ex_locks) ex_lk_queues.
Proof.
  split.
  - exists 0%nat. split; [done|unfold TASK_MAXNUM; lia].
  - intros (hd & xs & Hx & Hin). destruct (ex_lk_cases hd xs _ Hx Hin) as [[_ ?]|[_ Hx']]; [done|].
    apply (ex_not_queued (Proc 0)); [by apply not_elem_ex|by exists hd, xs].
  - done.
Qed.

Lemma do_mutex_lock_acquire_spec_witness :
  wp (do_mutex_lock_acquire 1) ex_locks (λ b s', b = true ∧
    status (pcbs (r_sched s') (Proc 0)) = TASK_BLOCKED).
Proof.
  eapply wp_mono.
  - apply (do_mutex_lock_acquire_spec ex_locks ex_lk_queues 1 (Held 1 [Proc 4]) ex_lock_inv ex_runs);
      [unfold valid_idx, LOCK_NUM; lia|by vm_compute].
  - by intros b s' (Q & _ & -> & _ & ?).
Defined.

Lemma do_mutex_lock_release_spec_witness :
  wp (do_mutex_lock_release 1) ex_locks (λ _ s', status (pcbs (r_sched s') (Proc 4)) = TASK_READY).
Proof.
  eapply wp_mono.
  - apply (do_mutex_lock_release_spec ex_locks ex_lk_queues 1 [Proc 4] ex_lock_inv);
      [unfold valid_idx, LOCK_NUM; lia|by vm_compute].
  - by intros _ s' (Q & _ & _ & ?).
Defined.

Lemma release_by_other_wedges_witness :
  ∃ s', do_mutex_lock_release 2 ex_locks = Ok () s' ∧ do_mutex_lock_acquire 2 s' = Stuck.
Proof.
  destruct (release_by_other_wedges ex_locks ex_lk_queues 2 2 [] ex_lock_inv)
    as (s' & Hr & _ & Ha & _).
  - unfold valid_idx, LOCK_NUM. lia.
  - by vm_compute.
  - done.
  - by exists s'.
Defined.

Lemma free_lock_spec_witness :
  wp (free_lock 1) ex_locks (λ _ s', ∃ Q', mutex_of s' Q' 1 = Some (Held 5 []) ∧ mutex_of s' Q' 2 = Some (Held 2 [])).
Proof.
  eapply wp_mono.
  - apply (free_lock_spec ex_locks ex_lk_queues ex_lock_inv); [done|].
    intros i ws t Hx Ht. by destruct (ex_lk_cases _ _ _ Hx Ht) as [[_ ->]|[_ Hx']];
      [|destruct (ex_queues_cases _ _ _ Hx' Ht) as [[? _]|[? _]]].
  - intros _ s' (Q' & _ & H & _). exists Q'. by rewrite !H by (unfold valid_idx, LOCK_NUM; lia).
Defined.
