(* ===== verification/Barrier.v ===== *)
(** kernel/locking/barrier.c: barriers of [goal] processes. *)
From S2P Require Import Prelude KMonad KList Sched Resource.

Definition BARRIER_NUM : nat := 16.

Record barrier_t := mk_barrier {
  bar_lock : lock_status_t;
  bar_key : Z;
  bar_goal : Z;
  bar_arrived : Z
}.
#[export] Instance barrier_spin : HasSpin barrier_t.
Proof.
  refine {| spin_of := bar_lock;
            set_spin := λ v b, mk_barrier v (bar_key b) (bar_goal b) (bar_arrived b) |}.
  all: done || by intros [].
Defined.

Notation barrier_state := (res_state barrier_t).
Notation barriers := (slots (T := barrier_t)).

Definition set_arrived (n : Z) (b : barrier_t) : barrier_t :=
  mk_barrier (bar_lock b) (bar_key b) (bar_goal b) n.
Definition set_key_goal (key goal : Z) (b : barrier_t) : barrier_t :=
  mk_barrier (bar_lock b) key goal (bar_arrived b).

Definition init_barriers : M barrier_state unit :=
  for_ 0 BARRIER_NUM (λ i,
    on_sched (q_init (NBarrier i));;
    set_slot i (λ _, mk_barrier UNLOCKED UNUSED 0 0)).

Definition do_barrier_init (key goal : Z) : M barrier_state Z :=
  if key <? 0 then mret (-1) else
  if goal <=? 0 then mret (-1) else
  s ← get;
  let has k i := match barriers s !! i with Some b => bar_key b =? k | None => false end in
  match first_index BARRIER_NUM (has key) with
  | Some i => set_slot i (λ b, set_key_goal (bar_key b) goal b);; mret (Z.of_nat i)
  | None =>
      match first_index BARRIER_NUM (has UNUSED) with
      | Some i => set_slot i (set_key_goal key goal);; mret (Z.of_nat i)
      | None => mret (-1)
      end
  end.

Definition valid_bar (bar_idx : Z) : bool := (0 <=? bar_idx) && (bar_idx <? Z.of_nat BARRIER_NUM).

(** [do_barrier_wait] up to its call of [do_scheduler]: [true] when the caller
    was blocked and the call is made. *)
Definition do_barrier_wait (bar_idx : Z) : M barrier_state bool :=
  if negb (valid_bar bar_idx) then mret false else
  let i := Z.to_nat bar_idx in
  spin_lock_acquire i;;
  set_slot i (λ b, set_arrived (s32 (bar_arrived b + 1)) b);;
  b ← slot i;
  if bar_goal b <=? bar_arrived b then
    set_slot i (set_arrived 0);;
    on_sched (wakeup (NBarrier i));;
    spin_lock_release i;;
    mret false
  else
    cur ← current_running;
    on_sched (do_block (NList cur) (NBarrier i));;
    spin_lock_release i;;
    mret true.

(** What a process does after [do_scheduler] comes back to [do_barrier_wait]. *)
Definition barrier_wait_resume : M barrier_state unit :=
  s ← get;
  if killed (pcbs (r_sched s) (current (r_sched s))) =? 0 then mret () else exit_process.

Definition do_barrier_destroy (bar_idx : Z) : M barrier_state unit :=
  if negb (valid_bar bar_idx) then mret () else
  let i := Z.to_nat bar_idx in
  empty ← on_sched (q_empty (NBarrier i));
  (if (empty : bool) then mret () else on_sched (wakeup (NBarrier i)));;
  set_slot i (λ b, mk_barrier (bar_lock b) UNUSED 0 0);;
  on_sched (q_init (NBarrier i)).

(** [free_barrier] of proc.c: take the running process out of the barrier it
    waits for. *)
Definition free_barrier : M barrier_state unit :=
  for_ 0 BARRIER_NUM (λ i,
    spin_lock_acquire i;;
    b ← slot i;
    (if 0 <? bar_arrived b then
       cur ← current_running;
       inq ← on_sched (q_in (NList cur) (NBarrier i));
       if (inq : bool) then
         on_sched (do_unblock (NList cur));;
         set_slot i (λ b, set_arrived (bar_arrived b - 1) b)
       else mret ()
     else mret ());;
    spin_lock_release i).

(** ** What a barrier is to its users: the number of processes it waits for,
    and those that have arrived *)

Record barrier := Gathering { gt_goal : Z; gt_waiting : list tcb }.

Definition barrier_of (s : barrier_state) (Q : gmap node (list tcb)) (i : nat) : option barrier :=
  b ← barriers s !! i;
  ws ← Q !! NBarrier i;
  Some (Gathering (bar_goal b) ws).

(** [arrived] counts the processes in the queue. *)
Definition barrier_ok (b : barrier_t) (ws : list tcb) : Prop := bar_arrived b = Z.of_nat (length ws).

Notation barrier_inv := (res_inv NBarrier BARRIER_NUM barrier_ok).

#[export] Instance NBarrier_inj : Inj (=) (=) NBarrier.
Proof. by intros ?? [= ->]. Qed.

Lemma NBarrier_ready i : NBarrier i ≠ NReady.
Proof. done. Qed.

Lemma valid_bar_of i : (i < BARRIER_NUM)%nat → valid_bar (Z.of_nat i) = true.
Proof. unfold valid_bar. intros. apply andb_true_iff. rewrite Z.leb_le, Z.ltb_lt. lia. Qed.

Lemma barrier_leave (s : barrier_state) Q i b b' ws' :
  barriers s !! i = Some b → Q !! NBarrier i = Some ws' →
  barrier_of (put_slot i b' s) Q i = Some (Gathering (bar_goal b') ws').
Proof.
  intros Hb Hws. unfold barrier_of. rewrite (put_slot_get s i b) by done. simpl. by rewrite Hws.
Qed.

(** C12: [do_barrier_wait]: as long as fewer than [goal] processes have arrived,
    the caller is blocked behind those that wait already; the one that makes
    [goal] goes on, makes all the others ready in the order of their arrival,
    and the barrier is ready for its next round. *)
Theorem do_barrier_wait_spec s Q i goal ws rs :
  barrier_inv s Q → runs (r_sched s) Q → (i < BARRIER_NUM)%nat →
  barrier_of s Q i = Some (Gathering goal ws) → Q !! NReady = Some rs →
  wp (do_barrier_wait (Z.of_nat i)) s (λ blocked s', ∃ Q', barrier_inv s' Q' ∧
    if Z.of_nat (length ws) + 1 <? goal then
      blocked = true ∧ barrier_of s' Q' i = Some (Gathering goal (ws ++ [current (r_sched s)])) ∧
      status (pcbs (r_sched s') (current (r_sched s))) = TASK_BLOCKED
    else
      blocked = false ∧ barrier_of s' Q' i = Some (Gathering goal []) ∧
      Q' !! NReady = Some (rs ++ ws) ∧ ∀ t, t ∈ ws → status (pcbs (r_sched s') t) = TASK_READY).
Proof.
  intros HI Hrun Hi Hb Hrs.
  destruct (res_get NBarrier BARRIER_NUM barrier_ok s Q i HI Hi) as (b & ws' & Hm & Hl & Hws & HP).
  unfold barrier_of in Hb. rewrite Hm in Hb. simpl in Hb. rewrite Hws in Hb. simpl in Hb. injection Hb as <- ->.
  destruct b as [l key goal arr]. simpl in Hl. subst l. unfold barrier_ok in HP. simpl in HP. subst arr.
  assert (s32 (Z.of_nat (length ws) + 1) = Z.of_nat (length ws) + 1) as Hlen.
  { pose proof (queue_procs_le _ _ _ _ (ri_sched _ _ _ _ _ HI) Hws) as Hle. unfold TASK_MAXNUM in Hle.
    apply s32_id. lia. }
  unfold do_barrier_wait. rewrite valid_bar_of by done. change (negb true) with false. cbv iota zeta.
  rewrite Nat2Z.id, wp_bind. erewrite wp_ok; [|by eapply spin_lock_acquire_ok].
  rewrite wp_bind.
  erewrite wp_ok; [|by eapply set_slot_ok, put_slot_get].
  rewrite put_slot_twice, wp_bind. erewrite wp_ok; [|by eapply slot_ok, put_slot_get].
  unfold set_arrived. simpl bar_goal. simpl bar_arrived. rewrite Hlen. simpl set_spin.
  destruct (goal <=? Z.of_nat (length ws) + 1) eqn:Hg.
  - rewrite (proj2 (Z.ltb_ge _ _)) by (apply Z.leb_le in Hg; lia).
    rewrite wp_bind. erewrite wp_ok; [|by eapply set_slot_ok, put_slot_get].
    rewrite put_slot_twice, wp_bind. cbn [bar_lock bar_key bar_goal].
    destruct (res_wakeup NBarrier BARRIER_NUM barrier_ok NBarrier_ready s Q i _ (mk_barrier LOCKED key goal 0)
      (mk_barrier UNLOCKED key goal 0) ws HI Hi Hm Hws)
      as (y & Q' & rs' & Hw & HI' & Hr & -> & h & ->); [done|done|].
    rewrite (wp_ok _ _ _ _ _ Hw), wp_bind.
    erewrite wp_ok; [|by eapply spin_lock_release_ok, (put_slot_get (upd_sched _ s))].
    rewrite put_slot_twice, wp_ret. rewrite Hrs in Hr. injection Hr as <-.
    eexists. split; [exact HI'|]. split; [done|]. split; [|split].
    + eapply barrier_leave; [exact Hm|]. rewrite lookup_insert_ne by done. apply lookup_insert_eq.
    + apply lookup_insert_eq.
    + intros t Ht. simpl. rewrite wake_pcbs_lookup. by rewrite decide_True.
  - rewrite (proj2 (Z.ltb_lt _ _)) by (apply Z.leb_gt in Hg; lia).
    destruct (res_block NBarrier BARRIER_NUM barrier_ok NBarrier_ready s Q i _
      (mk_barrier LOCKED key goal (Z.of_nat (length ws) + 1))
      (mk_barrier UNLOCKED key goal (Z.of_nat (length ws) + 1)) ws HI Hrun Hi Hm Hws)
      as (y & Q' & Hb & HI' & -> & h & ->); [done| |].
    { unfold barrier_ok. simpl. rewrite length_app. simpl. lia. }
    rewrite wp_bind. unfold current_running. rewrite wp_gets. simpl current. rewrite wp_bind, (wp_ok _ _ _ _ _ Hb), wp_bind.
    erewrite wp_ok; [|by eapply spin_lock_release_ok, (put_slot_get (upd_sched _ s))].
    rewrite put_slot_twice, wp_ret. eexists. split; [exact HI'|]. split; [done|]. split.
    + eapply barrier_leave; [exact Hm|]. apply lookup_insert_eq.
    + simpl. by rewrite decide_True.
Qed.

(** An example: barrier 3 waits for two processes, and the first arrives. *)
Definition ex_barriers : barrier_state :=
  mk_res ex_sched (<[3%nat := mk_barrier UNLOCKED 7 2 0]> (replicate 16 (mk_barrier UNLOCKED UNUSED 0 0))).

Lemma ex_barrier_inv : barrier_inv ex_barriers ex_queues.
Proof.
  split; [apply ex_sched_inv|done|]. intros i b.
  do 16 (destruct i as [|i]; [intros [= <-]; eexists; split; [by vm_compute|]; done|]). done.
Qed.

Lemma do_barrier_wait_spec_witness :
  wp (do_barrier_wait 3) ex_barriers (λ blocked s',
    blocked = true ∧ status (pcbs (r_sched s') (Proc 0)) = TASK_BLOCKED).
Proof.
  eapply wp_mono.
  - apply (do_barrier_wait_spec ex_barriers ex_queues 3 2 [] [Proc 1; Proc 2] ex_barrier_inv ex_sched_runs);
      [unfold BARRIER_NUM; lia|by vm_compute|by vm_compute].
  - by intros b s' (Q' & _ & -> & _ & ?).
Defined.
