(* ===== verification/Cond.v ===== *)
(** kernel/locking/condition.c: condition variables over the mutexes. *)
From S2P Require Import Prelude KMonad KList Sched Resource Lock.

Definition CONDITION_NUM : nat := 16.

Record condition_t := mk_cond { cond_lock : lock_status_t; cond_key : Z }.
#[export] Instance cond_spin : HasSpin condition_t.
Proof.
  refine {| spin_of := cond_lock; set_spin := λ v c, mk_cond v (cond_key c) |}.
  all: done || by intros [].
Defined.

(** The conditions and the mutexes share the scheduler's state. *)
Record cond_state := mk_conds { c_locks : lock_state; conditions : list condition_t }.
Definition c_sched (s : cond_state) : sched_state := r_sched (c_locks s).
Definition c_res (s : cond_state) : res_state condition_t := mk_res (c_sched s) (conditions s).
Definition c_put (r : res_state condition_t) (s : cond_state) : cond_state :=
  mk_conds (upd_sched (r_sched r) (c_locks s)) (slots r).
Definition c_put_locks (l : lock_state) (s : cond_state) : cond_state := mk_conds l (conditions s).
Definition on_cond {A} (m : M (res_state condition_t) A) : M cond_state A := zoom c_res c_put m.
Definition on_locks {A} (m : M lock_state A) : M cond_state A := zoom c_locks c_put_locks m.

Definition set_cond_key (key : Z) (c : condition_t) : condition_t := mk_cond (cond_lock c) key.

Definition init_conditions : M cond_state unit :=
  on_cond (for_ 0 CONDITION_NUM (λ i,
    on_sched (q_init (NCond i));;
    set_slot i (λ _, mk_cond UNLOCKED UNUSED))).

Definition do_condition_init (key : Z) : M cond_state Z :=
  if key <? 0 then mret (-1) else
  s ← get;
  let has k i := match conditions s !! i with Some c => cond_key c =? k | None => false end in
  match first_index CONDITION_NUM (has key) with
  | Some i => mret (Z.of_nat i)
  | None =>
      match first_index CONDITION_NUM (has UNUSED) with
      | Some i => on_cond (set_slot i (set_cond_key key));; mret (Z.of_nat i)
      | None => mret (-1)
      end
  end.

Definition valid_cond (cond_idx : Z) : bool := (0 <=? cond_idx) && (cond_idx <? Z.of_nat CONDITION_NUM).

(** [do_condition_wait] up to its call of [do_scheduler]. *)
Definition do_condition_wait (cond_idx mutex_idx : Z) : M cond_state bool :=
  if negb (valid_cond cond_idx) then mret false else
  if negb (valid_mlock mutex_idx) then mret false else
  let i := Z.to_nat cond_idx in
  on_cond (
    spin_lock_acquire i;;
    cur ← current_running;
    on_sched (do_block (NList cur) (NCond i)));;
  on_locks (do_mutex_lock_release mutex_idx);;
  on_cond (spin_lock_release i);;
  mret true.

(** ... and from its return on. *)
Definition condition_wait_resume (mutex_idx : Z) : M cond_state bool :=
  s ← get;
  if negb (killed (pcbs (c_sched s) (current (c_sched s))) =? 0) then exit_process else
  on_locks (do_mutex_lock_acquire mutex_idx).

Definition do_condition_signal (cond_idx : Z) : M cond_state unit :=
  if negb (valid_cond cond_idx) then mret () else
  let i := Z.to_nat cond_idx in
  on_cond (
    spin_lock_acquire i;;
    empty ← on_sched (q_empty (NCond i));
    (if (empty : bool) then mret () else
       nd ← on_sched (q_dequeue (NCond i));
       n ← of_opt nd;
       on_sched (do_unblock n));;
    spin_lock_release i).

Definition do_condition_broadcast (cond_idx : Z) : M cond_state unit :=
  if negb (valid_cond cond_idx) then mret () else
  let i := Z.to_nat cond_idx in
  on_cond (spin_lock_acquire i;; on_sched (wakeup (NCond i));; spin_lock_release i).

Definition do_condition_destroy (cond_idx : Z) : M cond_state unit :=
  if negb (valid_cond cond_idx) then mret () else
  let i := Z.to_nat cond_idx in
  on_cond (
    empty ← on_sched (q_empty (NCond i));
    (if (empty : bool) then mret () else on_sched (wakeup (NCond i)));;
    set_slot i (set_cond_key UNUSED)).

(** ** Properties *)

Notation cond_res := (res_inv NCond CONDITION_NUM (λ _ _, True)).

#[export] Instance NCond_inj : Inj (=) (=) NCond.
Proof. by intros ?? [= ->]. Qed.

Lemma NCond_ready i : NCond i ≠ NReady.
Proof. done. Qed.

Record cond_inv (s : cond_state) (Q : gmap node (list tcb)) : Prop := {
  ci_locks : lock_inv (c_locks s) Q;
  ci_conds : cond_res (c_res s) Q
}.

Lemma valid_cond_of i : (i < CONDITION_NUM)%nat → valid_cond (Z.of_nat i) = true.
Proof. unfold valid_cond. intros. apply andb_true_iff. rewrite Z.leb_le, Z.ltb_lt. lia. Qed.

(** Operations that leave the mutexes' queues alone keep the mutexes. *)
Lemma cond_put_inv s Q Q' r :
  cond_inv s Q → cond_res r Q' → (∀ j, Q' !! NMutex j = Q !! NMutex j) → cond_inv (c_put r s) Q'.
Proof.
  intros [Hl Hc] Hr Hother. split.
  - eapply res_frame; [done|apply Hr|done].
  - unfold c_res, c_put, c_sched. simpl. by destruct r.
Qed.

Definition waits_for (Q : gmap node (list tcb)) (i : nat) : list tcb := default [] (Q !! NCond i).

Lemma cond_get s Q i : cond_inv s Q → (i < CONDITION_NUM)%nat →
  ∃ key, conditions s !! i = Some (mk_cond UNLOCKED key) ∧ Q !! NCond i = Some (waits_for Q i).
Proof.
  intros HI Hi.
  destruct (res_get NCond CONDITION_NUM (λ _ _, True) (c_res s) Q i (ci_conds _ _ HI) Hi)
    as ([l key] & ws & Hc & Hl & Hws & _). simpl in Hl. subst l. exists key.
  split; [done|]. unfold waits_for. by rewrite Hws.
Qed.

Lemma c_put_id s : c_put (c_res s) s = s.
Proof. by destruct s as [[] ]. Qed.

Lemma wp_on_cond {A} (m : M (res_state condition_t) A) s Q :
  wp (on_cond m) s Q ↔ wp m (c_res s) (λ a r, Q a (c_put r s)).
Proof. apply wp_zoom. Qed.

Lemma wp_on_locks {A} (m : M lock_state A) s Q :
  wp (on_locks m) s Q ↔ wp m (c_locks s) (λ a l, Q a (c_put_locks l s)).
Proof. apply wp_zoom. Qed.

(** C13: [do_condition_wait] by the owner of the mutex: the caller is blocked
    behind the processes that wait for the condition, and the mutex goes to
    the process that waits longest for it, or is free; both in one step, so a
    signal after the release finds the caller in the queue. *)
Theorem do_condition_wait_spec s Q i j mws :
  cond_inv s Q → runs (c_sched s) Q → (i < CONDITION_NUM)%nat → valid_idx j →
  mutex_of (c_locks s) Q j = Some (Held (cur_pid (c_locks s)) mws) →
  wp (do_condition_wait (Z.of_nat i) (Z.of_nat j)) s (λ blocked s', blocked = true ∧
    ∃ Q', cond_inv s' Q' ∧ waits_for Q' i = waits_for Q i ++ [current (c_sched s)] ∧
      match mws with
      | [] => mutex_of (c_locks s') Q' j = Some Free
      | t :: mws' => mutex_of (c_locks s') Q' j = Some (Held (pid (pcbs (c_sched s) t)) mws')
      end).
Proof.
  intros HI Hrun Hi Hj Hmu. destruct (cond_get s Q i HI Hi) as (key & Hc & Hws).
  unfold do_condition_wait. rewrite valid_cond_of, valid_mlock_of by done.
  change (negb true) with false. cbv iota zeta. rewrite Nat2Z.id, wp_bind, wp_on_cond, wp_bind.
  erewrite wp_ok; [|by eapply (spin_lock_acquire_ok (c_res s) i)]. simpl set_spin.
  rewrite wp_bind. unfold current_running. rewrite wp_gets.
  destruct (res_block NCond CONDITION_NUM (λ _ _, True) NCond_ready (c_res s) Q i _ (mk_cond LOCKED key)
    (mk_cond UNLOCKED key) _ (ci_conds _ _ HI) Hrun Hi Hc Hws) as (y & Q1 & Hb & HI1 & HQ1 & h & Hy);
    [done|done|].
  simpl current. change (r_sched (c_res s)) with (c_sched s) in *.
  rewrite (wp_ok _ _ _ _ _ Hb), wp_bind, wp_on_locks.
  assert (lock_inv (upd_sched y (c_locks s)) Q1) as HL1.
  { eapply res_frame; [apply HI|apply HI1|]. intros k. by rewrite HQ1, lookup_insert_ne. }
  assert (∀ t, pid (pcbs y t) = pid (pcbs (c_sched s) t)) as Hpid.
  { intros t. rewrite Hy. simpl. by case_decide; subst. }
  assert (mutex_of (upd_sched y (c_locks s)) Q1 j = Some (Held (cur_pid (upd_sched y (c_locks s))) mws)) as Hmu1.
  { unfold cur_pid. simpl. rewrite Hpid. replace (current y) with (current (c_sched s)) by by rewrite Hy.
    change (pid (pcbs (c_sched s) (current (c_sched s)))) with (cur_pid (c_locks s)). rewrite <- Hmu. unfold mutex_of. simpl. by rewrite HQ1, lookup_insert_ne. }
  eapply wp_mono; [by apply (do_mutex_lock_release_ok (upd_sched y (c_locks s)) Q1)|].
  intros _ l (Q' & HL & _ & Hother & Hres). rewrite wp_bind, wp_on_cond.
  assert (∀ k, Q' !! NCond k = Q1 !! NCond k) as Hk by by intros k; apply Hother.
  erewrite wp_ok; [|eapply spin_lock_release_ok; by apply (put_slot_get (c_res s) i _ (mk_cond LOCKED key) Hc)].
  rewrite wp_ret. split; [done|]. exists Q'. split; [|split].
  - split; [by destruct l|]. simpl.
    pose proof (res_frame NCond CONDITION_NUM (λ _ _, True) _ _ Q' (r_sched l) HI1 (ri_sched _ _ _ _ _ HL) Hk) as HF.
    unfold c_res, c_sched. simpl. by rewrite list_insert_insert_eq.
  - unfold waits_for at 1. by rewrite Hk, HQ1, lookup_insert_eq.
  - replace (c_locks _) with l by (by destruct l). destruct mws as [|t mws]; [apply Hres|].
    rewrite <- Hpid. apply Hres.
Qed.

(** [do_condition_signal] makes the process that waits longest for the
    condition ready, and nobody else; without a waiter nothing changes. *)
Theorem do_condition_signal_spec s Q i :
  cond_inv s Q → (i < CONDITION_NUM)%nat →
  wp (do_condition_signal (Z.of_nat i)) s (λ _ s',
    match waits_for Q i with
    | [] => s' = s
    | t :: ts => ∃ Q' rs, cond_inv s' Q' ∧ Q !! NReady = Some rs ∧
        waits_for Q' i = ts ∧ Q' !! NReady = Some (rs ++ [t]) ∧
        ∀ u, pcbs (c_sched s') u = if decide (u = t) then set_status TASK_READY (pcbs (c_sched s) t)
                                   else pcbs (c_sched s) u
    end).
Proof.
  intros HI Hi. destruct (cond_get s Q i HI Hi) as (key & Hc & Hws). pose proof (ci_conds _ _ HI) as HC.
  unfold do_condition_signal. rewrite valid_cond_of by done.
  change (negb true) with false. cbv iota zeta. rewrite Nat2Z.id, wp_on_cond, wp_bind.
  erewrite wp_ok; [|by eapply (spin_lock_acquire_ok (c_res s) i)]. simpl set_spin.
  rewrite wp_bind, (wp_ok _ _ _ _ _ (res_empty _ _ _ (c_res s) Q i _ _ HC Hws)).
  destruct (waits_for Q i) as [|t ts].
  - rewrite bool_decide_true, wp_bind, wp_ret by done.
    erewrite wp_ok; [|eapply spin_lock_release_ok; by apply (put_slot_get (c_res s) i _ (mk_cond LOCKED key) Hc)].
    rewrite put_slot_twice. simpl set_spin. rewrite put_slot_id by done. apply c_put_id.
  - rewrite bool_decide_false by done.
    destruct (res_handoff NCond CONDITION_NUM (λ _ _, True) NCond_ready (c_res s) Q i _ (mk_cond LOCKED key)
      (mk_cond UNLOCKED key) t ts HC Hi Hc Hws) as (z & y & Q' & rs & Hd & Hu & HI' & Hr & HQ' & h & Hy); [done|done|].
    rewrite !wp_bind, (wp_ok _ _ _ _ _ Hd), wp_bind, wp_of_opt. exists (NList t). split; [done|].
    rewrite (wp_ok _ _ _ _ _ Hu).
    erewrite wp_ok; [|by eapply spin_lock_release_ok, (put_slot_get (upd_sched _ (c_res s)))].
    rewrite put_slot_twice. exists Q', rs. split; [|split; [done|split; [|split]]].
    + apply (cond_put_inv s Q); [done|exact HI'|]. intros k. by rewrite HQ', !lookup_insert_ne.
    + unfold waits_for. rewrite HQ', lookup_insert_ne, lookup_insert_eq; done.
    + by rewrite HQ', lookup_insert_eq.
    + intros u. unfold c_put, c_sched. simpl. by rewrite Hy.
Qed.

(** An example: the running process owns mutex 1 and waits for condition 2. *)
Definition ex_conds : cond_state := mk_conds ex_locks (replicate 16 (mk_cond UNLOCKED 5)).

Lemma ex_cond_inv : cond_inv ex_conds ex_lk_queues.
Proof.
  split; [apply ex_lock_inv|]. split; [apply ex_lk_sched|done|]. intros i c.
  do 16 (destruct i as [|i]; [intros [= <-]; eexists; split; [by vm_compute|]; done|]). done.
Qed.

Lemma do_condition_wait_spec_witness :
  wp (do_condition_wait 2 1) ex_conds (λ _ s', ∃ Q', waits_for Q' 2 = [Proc 0] ∧
    mutex_of (c_locks s') Q' 1 = Some (Held 5 [])).
Proof.
  eapply wp_mono.
  - apply (do_condition_wait_spec ex_conds ex_lk_queues 2 1 [Proc 4] ex_cond_inv ex_runs);
      [unfold CONDITION_NUM; lia|unfold valid_idx, LOCK_NUM; lia|by vm_compute].
  - intros b s' (_ & Q' & _ & Hw & Hmu). by exists Q'.
Defined.

Lemma do_condition_signal_spec_witness :
  wp (do_condition_signal 2) ex_conds (λ _ s', s' = ex_conds).
Proof.
  eapply wp_mono; [apply (do_condition_signal_spec ex_conds ex_lk_queues 2 ex_cond_inv)|].
  - unfold CONDITION_NUM; lia.
  - assert (waits_for ex_lk_queues 2 = []) as E by by vm_compute.
    intros u s'. by rewrite E.
Defined.
