(* ===== verification/CString.v ===== *)
(** libs/string.c: memory blocks and NUL-terminated strings in a byte memory.

    A loop that walks a string has no bound in the source; [fuel] bounds it
    here, and every theorem asks for more fuel than the string is long, which
    is enough. *)
From S2P Require Import Prelude.
From Stdlib Require Ascii String.

(** The characters of a string constant. *)
Definition text (s : String.string) : list Z :=
  (λ a, Z.of_N (Ascii.N_of_ascii a)) <$> String.list_ascii_of_string s.
#[global] Arguments text s%_string_scope.

Definition bmem := Z → Z.

Definition bstore (m : bmem) (a v : Z) : bmem := λ x, if decide (x = a) then v else m x.

Fixpoint memcpy (m : bmem) (dest src : Z) (len : nat) : bmem :=
  match len with
  | O => m
  | S len' => memcpy (bstore m dest (m src)) (dest + 1) (src + 1) len'
  end.

Fixpoint memset (m : bmem) (dest val : Z) (len : nat) : bmem :=
  match len with
  | O => m
  | S len' => memset (bstore m dest val) (dest + 1) val len'
  end.

Definition bzero (m : bmem) (dest : Z) (len : nat) : bmem := memset m dest 0 len.

Fixpoint strlen_loop (fuel : nat) (m : bmem) (src i : Z) : option Z :=
  match fuel with
  | O => None
  | S fuel' => if m (src + i) =? 0 then Some i else strlen_loop fuel' m src (i + 1)
  end.
Definition strlen (fuel : nat) (m : bmem) (src : Z) : option Z := strlen_loop fuel m src 0.

Fixpoint strcmp (fuel : nat) (m : bmem) (str1 str2 : Z) : option Z :=
  match fuel with
  | O => None
  | S fuel' =>
      if negb (m str1 =? 0) && negb (m str2 =? 0) then
        if negb (m str1 =? m str2) then Some (m str1 - m str2)
        else strcmp fuel' m (str1 + 1) (str2 + 1)
      else Some (m str1 - m str2)
  end.

Fixpoint strncmp (m : bmem) (str1 str2 : Z) (n : nat) : Z :=
  match n with
  | O => 0
  | S n' =>
      if (m str1 =? 0) || negb (m str1 =? m str2) then m str1 - m str2
      else strncmp m (str1 + 1) (str2 + 1) n'
  end.

Fixpoint strcpy (fuel : nat) (m : bmem) (dest src : Z) : option bmem :=
  match fuel with
  | O => None
  | S fuel' =>
      if m src =? 0 then Some (bstore m dest 0)
      else strcpy fuel' (bstore m dest (m src)) (dest + 1) (src + 1)
  end.

(** [n] counts what is left; both loops decrement it on each test. *)
Fixpoint strncpy (m : bmem) (dest src : Z) (n : nat) : bmem :=
  match n with
  | O => m
  | S n' =>
      if m src =? 0 then memset m dest 0 n
      else strncpy (bstore m dest (m src)) (dest + 1) (src + 1) n'
  end.

Fixpoint strend (fuel : nat) (m : bmem) (dest : Z) : option Z :=
  match fuel with
  | O => None
  | S fuel' => if m dest =? 0 then Some dest else strend fuel' m (dest + 1)
  end.
Definition strcat (fuel : nat) (m : bmem) (dest src : Z) : option bmem :=
  e ← strend fuel m dest; strcpy fuel m e src.

(** [NULL] is [None]; the outer [option] is the fuel. *)
Fixpoint strchr (fuel : nat) (m : bmem) (str c : Z) : option (option Z) :=
  match fuel with
  | O => None
  | S fuel' =>
      if m str =? c then Some (Some str)
      else if m str =? 0 then Some None
      else strchr fuel' m (str + 1) c
  end.

Fixpoint strrchr_loop (fuel : nat) (m : bmem) (str c : Z) (last : option Z) : option (option Z) :=
  match fuel with
  | O => None
  | S fuel' =>
      let last := if m str =? c then Some str else last in
      if m str =? 0 then Some last else strrchr_loop fuel' m (str + 1) c last
  end.
Definition strrchr (fuel : nat) (m : bmem) (str c : Z) : option (option Z) :=
  strrchr_loop fuel m str c None.

(** ** Memory as sequences *)

(** The bytes [xs] lie at [p]. *)
Fixpoint bytes_at (m : bmem) (p : Z) (xs : list Z) : Prop :=
  match xs with
  | [] => True
  | x :: xs' => m p = x ∧ bytes_at m (p + 1) xs'
  end.

Definition string_ok (s : list Z) : Prop := Forall (λ c, 0 < c < 256) s.

(** The string [s] with its NUL lies at [p]. *)
Definition cstr (m : bmem) (p : Z) (s : list Z) : Prop := bytes_at m p (s ++ [0]) ∧ string_ok s.

Definition same_outside (m m' : bmem) (p n : Z) : Prop := ∀ x, x < p ∨ p + n ≤ x → m' x = m x.

Lemma bytes_at_lookup m p xs : bytes_at m p xs ↔ ∀ i x, xs !! i = Some x → m (p + Z.of_nat i) = x.
Proof.
  revert p. induction xs as [|x xs IH]; intros p; simpl; [naive_solver|]. rewrite IH. split.
  - intros [Hp H] [|i] y Hy; simpl in Hy.
    + injection Hy as <-. rewrite <- Hp. f_equal. lia.
    + rewrite <- (H i y Hy). f_equal. lia.
  - intros H. split.
    + rewrite <- (H 0%nat x eq_refl). f_equal. lia.
    + intros i y Hy. rewrite <- (H (S i) y Hy). f_equal. lia.
Qed.

Lemma bytes_at_ext m m' p xs :
  (∀ x, p ≤ x < p + Z.of_nat (length xs) → m' x = m x) → bytes_at m p xs → bytes_at m' p xs.
Proof.
  rewrite !bytes_at_lookup. intros Hm H i x Hx. rewrite Hm; [by apply H|].
  apply lookup_lt_Some in Hx. lia.
Qed.

Lemma bytes_at_app m p xs ys :
  bytes_at m p (xs ++ ys) ↔ bytes_at m p xs ∧ bytes_at m (p + Z.of_nat (length xs)) ys.
Proof.
  revert p. induction xs as [|x xs IH]; intros p; simpl.
  - rewrite Z.add_0_r. naive_solver.
  - rewrite IH. replace (p + 1 + Z.of_nat (length xs)) with (p + Z.of_nat (S (length xs))) by lia.
    naive_solver.
Qed.

Lemma cstr_nil m p : cstr m p [] ↔ m p = 0.
Proof. unfold cstr, string_ok. simpl. split; [naive_solver|]. intros H. split; [done|constructor]. Qed.

Lemma cstr_cons m p c s : cstr m p (c :: s) ↔ m p = c ∧ 0 < c < 256 ∧ cstr m (p + 1) s.
Proof. unfold cstr, string_ok. simpl. rewrite Forall_cons. naive_solver. Qed.

Lemma bstore_same_outside m p v n : 0 < n → same_outside m (bstore m p v) p n.
Proof. intros Hn x Hx. unfold bstore. rewrite decide_False; [done|lia]. Qed.

Lemma same_outside_step m m' p v n :
  0 ≤ n → same_outside (bstore m p v) m' (p + 1) n → same_outside m m' p (n + 1).
Proof.
  intros Hn H x Hx. rewrite (H x) by lia. unfold bstore. rewrite decide_False; [done|lia].
Qed.

Lemma bytes_at_store m m' p v n xs :
  Z.of_nat (length xs) = n → same_outside (bstore m p v) m' (p + 1) n → bytes_at m' (p + 1) xs →
  bytes_at m' p (v :: xs).
Proof.
  intros Hn H Hxs. split; [|done]. rewrite (H p) by lia. unfold bstore. by rewrite decide_True.
Qed.

(** ** Blocks *)

Lemma memset_ok m dest val n :
  bytes_at (memset m dest val n) dest (replicate n val) ∧
  same_outside m (memset m dest val n) dest (Z.of_nat n).
Proof.
  revert m dest. induction n as [|n IH]; intros m dest; simpl; [done|].
  destruct (IH (bstore m dest val) (dest + 1)) as [Hb Ho].
  replace (Z.of_nat (S n)) with (Z.of_nat n + 1) by lia. split.
  - eapply bytes_at_store; [|done|done]. by rewrite length_replicate.
  - eapply same_outside_step; [lia|done].
Qed.

(** Copying forwards: right when the blocks are disjoint, and also when the
    destination lies below the source. *)
Lemma memcpy_ok m dest src n :
  (dest ≤ src ∨ src + Z.of_nat n ≤ dest) →
  (∀ i, (i < n)%nat → memcpy m dest src n (dest + Z.of_nat i) = m (src + Z.of_nat i)) ∧
  same_outside m (memcpy m dest src n) dest (Z.of_nat n).
Proof.
  revert m dest src. induction n as [|n IH]; intros m dest src Hd; simpl; [split; [lia|done]|].
  destruct (IH (bstore m dest (m src)) (dest + 1) (src + 1)) as [Hb Ho]; [lia|]. split.
  - intros [|i] Hi.
    + rewrite !Z.add_0_r, (Ho dest) by lia. unfold bstore. by rewrite decide_True.
    + replace (dest + Z.of_nat (S i)) with (dest + 1 + Z.of_nat i) by lia.
      replace (src + Z.of_nat (S i)) with (src + 1 + Z.of_nat i) by lia.
      rewrite Hb by lia. unfold bstore. rewrite decide_False; [done|lia].
  - replace (Z.of_nat (S n)) with (Z.of_nat n + 1) by lia. eapply same_outside_step; [lia|done].
Qed.

(** ** Strings *)

Lemma strlen_loop_ok m p s fuel i : cstr m (p + i) s → (length s < fuel)%nat →
  strlen_loop fuel m p i = Some (i + Z.of_nat (length s)).
Proof.
  revert fuel i. induction s as [|c s IH]; intros [|fuel] i Hs Hf; simpl in *; try lia.
  - apply cstr_nil in Hs. rewrite Hs. simpl. f_equal. lia.
  - apply cstr_cons in Hs as (Hc & ? & Hs). rewrite (proj2 (Z.eqb_neq _ _)) by lia.
    rewrite IH; [f_equal; lia| |lia]. by rewrite Z.add_assoc.
Qed.

Lemma strlen_ok m p s fuel : cstr m p s → (length s < fuel)%nat →
  strlen fuel m p = Some (Z.of_nat (length s)).
Proof. intros Hs Hf. apply (strlen_loop_ok m p s fuel 0); [by rewrite Z.add_0_r|done]. Qed.

(** The order of two strings, as [strcmp] computes it. *)
Fixpoint str_diff (s1 s2 : list Z) : Z :=
  match s1, s2 with
  | [], [] => 0
  | [], d :: _ => 0 - d
  | c :: _, [] => c
  | c :: s1', d :: s2' => if c =? d then str_diff s1' s2' else c - d
  end.

Lemma str_diff_0 s1 s2 : string_ok s1 → string_ok s2 → str_diff s1 s2 = 0 ↔ s1 = s2.
Proof.
  revert s2. induction s1 as [|c s1 IH]; intros [|d s2] H1 H2; simpl; try done;
    repeat match goal with H : string_ok (_ :: _) |- _ => apply Forall_cons in H as [? ?] end.
  - split; [lia|done].
  - split; [lia|done].
  - destruct (Z.eqb_spec c d) as [->|Hne].
    + rewrite IH by done. split; [by intros ->|by intros [= ->]].
    + split; [lia|naive_solver].
Qed.

Lemma strcmp_run m p1 p2 s1 s2 fuel : cstr m p1 s1 → cstr m p2 s2 → (length s1 < fuel)%nat →
  strcmp fuel m p1 p2 = Some (str_diff s1 s2).
Proof.
  revert p1 p2 s2 fuel. induction s1 as [|c s1 IH]; intros p1 p2 s2 [|fuel] H1 H2 Hf; simpl in Hf; try lia;
    simpl; destruct s2 as [|d s2].
  - apply cstr_nil in H1, H2. by rewrite H1, H2.
  - apply cstr_nil in H1. apply cstr_cons in H2 as (H2 & _ & _). by rewrite H1, H2.
  - apply cstr_cons in H1 as (H1 & Hc & _). apply cstr_nil in H2.
    rewrite H1, H2. rewrite andb_false_r. f_equal. lia.
  - apply cstr_cons in H1 as (H1 & Hc & H1'). apply cstr_cons in H2 as (H2 & Hd & H2').
    rewrite H1, H2. rewrite !(proj2 (Z.eqb_neq _ 0)) by lia. simpl.
    destruct (Z.eqb_spec c d) as [->|Hne]; simpl; [|done]. by apply IH; [| |lia].
Qed.

Lemma strend_ok m p s fuel : cstr m p s → (length s < fuel)%nat →
  strend fuel m p = Some (p + Z.of_nat (length s)).
Proof.
  revert p fuel. induction s as [|c s IH]; intros p [|fuel] Hs Hf; simpl in *; try lia.
  - apply cstr_nil in Hs. rewrite Hs. simpl. f_equal. lia.
  - apply cstr_cons in Hs as (Hc & ? & Hs). rewrite (proj2 (Z.eqb_neq _ _)) by lia.
    rewrite (IH (p + 1)) by (done || lia). f_equal. lia.
Qed.

Lemma strcpy_run m dest src s fuel :
  cstr m src s → (length s < fuel)%nat →
  (dest ≤ src ∨ src + Z.of_nat (length s) < dest) →
  ∃ m', strcpy fuel m dest src = Some m' ∧ cstr m' dest s ∧
    same_outside m m' dest (Z.of_nat (length s) + 1).
Proof.
  revert m dest src fuel. induction s as [|c s IH]; intros m dest src [|fuel] Hs Hf Hd; simpl in Hf; try lia;
    simpl strcpy.
  - apply cstr_nil in Hs as Hs'. rewrite Hs'. simpl. eexists. split; [done|]. split.
    + apply cstr_nil. unfold bstore. by rewrite decide_True.
    + apply bstore_same_outside. lia.
  - pose proof Hs as Hall. apply cstr_cons in Hs as (Hc & Hr & Hs).
    rewrite (proj2 (Z.eqb_neq (m src) 0)) by lia. simpl length in Hd.
    destruct (IH (bstore m dest (m src)) (dest + 1) (src + 1) fuel) as (m' & -> & Hcs & Ho); [|lia|lia|].
    + destruct Hs as [Hs Hok]. split; [|done]. eapply bytes_at_ext; [|exact Hs].
      intros x Hx. unfold bstore. rewrite length_app in Hx. simpl in Hx. rewrite decide_False; [done|lia].
    + exists m'. split; [done|]. split.
      * apply cstr_cons. split; [|done]. rewrite (Ho dest) by lia. unfold bstore. by rewrite decide_True.
      * simpl length. replace (Z.of_nat (S (length s)) + 1) with (Z.of_nat (length s) + 1 + 1) by lia.
        eapply same_outside_step; [lia|done].
Qed.

Lemma cstr_outside m m' p s q n :
  same_outside m m' q n → (p + Z.of_nat (length s) < q ∨ q + n ≤ p) → cstr m p s → cstr m' p s.
Proof.
  intros Ho Hd [Hb Hok]. split; [|done]. eapply bytes_at_ext; [|done].
  intros x. rewrite length_app. simpl. intros Hx. apply Ho. lia.
Qed.

(** The string [s] and what lies behind a prefix of it. *)
Lemma cstr_app m p s1 s2 : cstr m p (s1 ++ s2) ↔ bytes_at m p s1 ∧ string_ok s1 ∧ cstr m (p + Z.of_nat (length s1)) s2.
Proof.
  unfold cstr, string_ok. rewrite <- app_assoc, bytes_at_app, Forall_app. naive_solver.
Qed.

(** A NUL written behind a prefix of a string cuts it there. *)
Lemma cstr_cut m p s1 s2 : cstr m p (s1 ++ s2) → cstr (bstore m (p + Z.of_nat (length s1)) 0) p s1.
Proof.
  intros (Hb & Hs & _)%cstr_app. unfold cstr. split; [|done]. apply bytes_at_app. split.
  - eapply bytes_at_ext; [|exact Hb]. intros x Hx. unfold bstore. rewrite decide_False; [done|lia].
  - split; [|done]. unfold bstore. by rewrite decide_True.
Qed.

(** [strchr]: the first place of the character, none when it does not occur. *)
Lemma strchr_first m p s1 s2 c fuel :
  cstr m p (s1 ++ c :: s2) → c ∉ s1 → (length s1 < fuel)%nat →
  strchr fuel m p c = Some (Some (p + Z.of_nat (length s1))).
Proof.
  revert p fuel. induction s1 as [|d s1 IH]; intros p [|fuel] Hs Hc Hf; simpl in Hf; try lia; simpl.
  - apply cstr_cons in Hs as (-> & _). rewrite Z.eqb_refl, Z.add_0_r. done.
  - apply cstr_cons in Hs as (Hd & Hr & Hs). apply not_elem_of_cons in Hc as [Hcd Hc]. rewrite Hd.
    destruct (Z.eqb_spec d c); [congruence|]. destruct (Z.eqb_spec d 0); [lia|].
    rewrite (IH (p + 1)) by (done || lia). do 2 f_equal. lia.
Qed.

Lemma strchr_none m p s c fuel :
  cstr m p s → c ∉ s → c ≠ 0 → (length s < fuel)%nat → strchr fuel m p c = Some None.
Proof.
  revert p fuel. induction s as [|d s IH]; intros p [|fuel] Hs Hc H0 Hf; simpl in Hf; try lia; simpl.
  - apply cstr_nil in Hs. rewrite Hs. by destruct (Z.eqb_spec 0 c).
  - apply cstr_cons in Hs as (Hd & Hr & Hs). apply not_elem_of_cons in Hc as [Hcd Hc]. rewrite Hd.
    destruct (Z.eqb_spec d c); [congruence|]. destruct (Z.eqb_spec d 0); [lia|]. apply IH; [done|done|done|lia].
Qed.

(** [strrchr]: the last place. *)
Lemma strrchr_loop_none m p s c fuel last :
  cstr m p s → c ∉ s → c ≠ 0 → (length s < fuel)%nat → strrchr_loop fuel m p c last = Some last.
Proof.
  revert p fuel. induction s as [|d s IH]; intros p [|fuel] Hs Hc H0 Hf; simpl in Hf; try lia; simpl.
  - apply cstr_nil in Hs. rewrite Hs. by destruct (Z.eqb_spec 0 c).
  - apply cstr_cons in Hs as (Hd & Hr & Hs). apply not_elem_of_cons in Hc as [Hcd Hc]. rewrite Hd.
    destruct (Z.eqb_spec d c); [congruence|]. destruct (Z.eqb_spec d 0); [lia|]. apply IH; [done|done|done|lia].
Qed.

Lemma strrchr_last m p s1 s2 c fuel :
  cstr m p (s1 ++ c :: s2) → c ∉ s2 → (length (s1 ++ c :: s2) < fuel)%nat →
  strrchr fuel m p c = Some (Some (p + Z.of_nat (length s1))).
Proof.
  intros Hs Hc. unfold strrchr. generalize (@None Z). revert p fuel Hs.
  induction s1 as [|d s1 IH]; intros p [|fuel] Hs last Hf; simpl in Hf; try lia; simpl.
  - apply cstr_cons in Hs as (Hd & Hr & Hs). rewrite Hd, Z.eqb_refl, Z.add_0_r. destruct (Z.eqb_spec c 0); [lia|].
    apply strrchr_loop_none with s2; [done|done|lia|lia].
  - apply cstr_cons in Hs as (Hd & Hr & Hs). rewrite Hd. destruct (Z.eqb_spec d 0); [lia|].
    rewrite (IH (p + 1)) by (done || lia). do 2 f_equal. lia.
Qed.

(** [strncpy] of a string that is shorter than [n]: the string, and NULs up to [n]. *)
Lemma strncpy_ok m dest src s n :
  cstr m src s → (length s < n)%nat → (src + Z.of_nat (length s) < dest ∨ dest + Z.of_nat n ≤ src) →
  cstr (strncpy m dest src n) dest s ∧ same_outside m (strncpy m dest src n) dest (Z.of_nat n).
Proof.
  revert m dest src n. induction s as [|c s IH]; intros m dest src [|n] Hs Hn Hd; simpl in Hn; try lia; cbn [strncpy].
  - apply cstr_nil in Hs as Hs'. rewrite Hs'. cbn [Z.eqb]. destruct (memset_ok m dest 0 (S n)) as [Hb Ho]. split; [|done].
    apply cstr_nil. by destruct Hb as [Hb _].
  - apply cstr_cons in Hs as (Hc & Hr & Hs). destruct (Z.eqb_spec (m src) 0); [lia|]. simpl length in Hd.
    destruct (IH (bstore m dest (m src)) (dest + 1) (src + 1) n) as [Hcs Ho]; [|lia|lia|].
    + eapply cstr_outside; [apply (bstore_same_outside _ _ _ 1); lia|lia|done].
    + replace (Z.of_nat (S n)) with (Z.of_nat n + 1) by lia. split; [|eapply same_outside_step; [lia|done]].
      apply cstr_cons. split; [|done]. rewrite (Ho dest) by lia. unfold bstore. by rewrite decide_True.
Qed.

(** [strcmp] of two strings is 0 exactly when they are equal, and otherwise
    the difference at the first place where they differ. *)
Theorem strcmp_spec m p1 p2 s1 s2 fuel :
  cstr m p1 s1 → cstr m p2 s2 → (length s1 < fuel)%nat →
  ∃ d, strcmp fuel m p1 p2 = Some d ∧ d = str_diff s1 s2 ∧ (d = 0 ↔ s1 = s2).
Proof.
  intros H1 H2 Hf. exists (str_diff s1 s2). split; [by apply strcmp_run|]. split; [done|].
  apply str_diff_0; [apply H1|apply H2].
Qed.

(** [strcat] appends the source to the destination, when the source does not
    overlap the memory that is written; nothing else changes. *)
Theorem strcat_spec m dest src s1 s2 fuel :
  cstr m dest s1 → cstr m src s2 → (length s1 < fuel)%nat → (length s2 < fuel)%nat →
  (src + Z.of_nat (length s2) < dest ∨ dest + Z.of_nat (length s1 + length s2) < src) →
  ∃ m', strcat fuel m dest src = Some m' ∧ cstr m' dest (s1 ++ s2) ∧ cstr m' src s2 ∧
    same_outside m m' dest (Z.of_nat (length s1 + length s2) + 1).
Proof.
  intros H1 H2 Hf1 Hf2 Hd. unfold strcat. rewrite (strend_ok m dest s1) by done. simpl.
  destruct (strcpy_run m (dest + Z.of_nat (length s1)) src s2 fuel) as (m' & -> & Hc & Ho); [done|done|lia|].
  exists m'. split; [done|]. split; [|split].
  - destruct Hc as [Hb Hok2]. destruct H1 as [Hb1 Hok1]. split; [|by apply Forall_app].
    rewrite <- app_assoc. apply bytes_at_app. split; [|done]. apply bytes_at_app in Hb1 as [Hb1 _].
    eapply bytes_at_ext; [|done]. intros x Hx. apply Ho. lia.
  - eapply cstr_outside; [done| |done]. lia.
  - intros x Hx. apply Ho. lia.
Qed.

(** An example: "ab" at 10 and "cd" at 20. *)
Definition ex_bmem : bmem := λ x,
  if decide (x = 10) then 97 else if decide (x = 11) then 98
  else if decide (x = 20) then 99 else if decide (x = 21) then 100 else 0.

Lemma ex_ab : cstr ex_bmem 10 [97; 98].
Proof. by repeat (constructor || done). Qed.
Lemma ex_cd : cstr ex_bmem 20 [99; 100].
Proof. by repeat (constructor || done). Qed.

Lemma strcmp_spec_witness : ∃ d, strcmp 3 ex_bmem 10 20 = Some d ∧ d = -2.
Proof.
  destruct (strcmp_spec ex_bmem 10 20 _ _ 3 ex_ab ex_cd) as (d & Hd & -> & _); [simpl; lia|].
  by exists (-2).
Defined.

Lemma strcat_spec_witness : ∃ m', strcat 3 ex_bmem 10 20 = Some m' ∧ cstr m' 10 [97; 98; 99; 100].
Proof.
  destruct (strcat_spec ex_bmem 10 20 _ _ 3 ex_ab ex_cd) as (m' & Hm & Hc & _); [simpl; lia..|].
  by exists m'.
Defined.
