(* ===== verification/Mbox.v ===== *)
(** kernel/locking/mbox.c: mailboxes, bounded byte queues between processes.

    A process that waits in [do_mbox_send] or [do_mbox_recv] leaves the function
    through [do_scheduler] and comes back later: a call is a sequence of
    segments, each of which ends with the value that is returned or with the
    local variables of the call ([xfer]) and the process blocked. [mb_user] is
    the memory of the running process by virtual address. *)
From S2P Require Import Prelude KMonad KList Pgtable MM PageTable Swap Shm Vm CString Sched Resource.

Definition MAX_MBOX_LENGTH : Z := 64.
Definition MAX_MBOX_NAME : nat := 32.
Definition MBOX_NUM : nat := 16.

Record mailbox_t := mk_mbox {
  mb_lock : lock_status_t;
  buf : list Z;
  mb_name : list Z;
  user_count : Z;
  nread : Z;
  nwrite : Z
}.
#[export] Instance mbox_spin : HasSpin mailbox_t.
Proof.
  refine {| spin_of := mb_lock;
            set_spin := λ v m, mk_mbox v (buf m) (mb_name m) (user_count m) (nread m) (nwrite m) |}.
  all: done || by intros [].
Defined.

Definition set_user_count (n : Z) (m : mailbox_t) : mailbox_t :=
  mk_mbox (mb_lock m) (buf m) (mb_name m) n (nread m) (nwrite m).
Definition set_ring (b : list Z) (r w : Z) (m : mailbox_t) : mailbox_t :=
  mk_mbox (mb_lock m) b (mb_name m) (user_count m) r w.
Definition set_box_name (nm : list Z) (m : mailbox_t) : mailbox_t :=
  mk_mbox (mb_lock m) (buf m) nm (user_count m) (nread m) (nwrite m).

(** [mailbox->buf[mailbox->nwrite % MAX_MBOX_LENGTH] = v; mailbox->nwrite++;] *)
Definition push_byte (v : Z) (m : mailbox_t) : option mailbox_t :=
  b ← arr_set (buf m) (Z.rem (nwrite m) MAX_MBOX_LENGTH) v;
  Some (set_ring b (nread m) (s32 (nwrite m + 1)) m).
(** [v = mailbox->buf[mailbox->nread % MAX_MBOX_LENGTH]; mailbox->nread++;] *)
Definition pop_byte (m : mailbox_t) : option (Z * mailbox_t) :=
  v ← arr_get (buf m) (Z.rem (nread m) MAX_MBOX_LENGTH);
  Some (v, set_ring (buf m) (s32 (nread m + 1)) (nwrite m) m).

(** The local variables of a call that is under way: [bytes_sent] or
    [bytes_read], [last_pinned_page_kva] and [last_pinned_page_uva]. *)
Record xfer := mk_xfer { x_done : Z; x_kva : Z; x_uva : Z }.
Inductive mbox_result := Blocked (l : xfer) | Returned (v : Z).

(** ** The ring buffer as a sequence of bytes *)

Definition ring_at (b : list Z) (p : nat) : Z := default 0 (b !! (p mod 64)%nat).
#[local] Arguments ring_at : simpl never.

Definition content (m : mailbox_t) : list Z :=
  (λ k, ring_at (buf m) (Z.to_nat (nread m) + k)) <$> seq 0 (Z.to_nat (nwrite m - nread m)).

Record mbox_ok (m : mailbox_t) : Prop := {
  mo_buf : length (buf m) = 64%nat;
  mo_read : 0 ≤ nread m ≤ nwrite m;
  mo_room : nwrite m ≤ nread m + MAX_MBOX_LENGTH;
  mo_int : nwrite m ≤ INT_MAX
}.

Lemma length_content m : length (content m) = Z.to_nat (nwrite m - nread m).
Proof. unfold content. by rewrite length_fmap, length_seq. Qed.

Lemma rem_nat z : 0 ≤ z → Z.rem z MAX_MBOX_LENGTH = Z.of_nat (Z.to_nat z mod 64).
Proof.
  intros Hz. unfold MAX_MBOX_LENGTH. rewrite Z.rem_mod_nonneg by lia.
  rewrite <- (Z2Nat.id z) at 1 by done. change 64 with (Z.of_nat 64) at 1. by rewrite <- Nat2Z.inj_mod.
Qed.

Lemma mod64_ne a b c : (a ≤ b < a + 64)%nat → (c < b - a)%nat → ((a + c) mod 64 ≠ b mod 64)%nat.
Proof.
  intros Hb Hc E. pose proof (Nat.div_mod_eq (a + c) 64). pose proof (Nat.div_mod_eq b 64). lia.
Qed.

Lemma push_byte_ok v m :
  mbox_ok m → nwrite m < nread m + MAX_MBOX_LENGTH → nwrite m < INT_MAX →
  ∃ b, push_byte v m = Some (set_ring b (nread m) (nwrite m + 1) m) ∧
    mbox_ok (set_ring b (nread m) (nwrite m + 1) m) ∧
    content (set_ring b (nread m) (nwrite m + 1) m) = content m ++ [v].
Proof.
  intros [Hb Hr Hroom Hint] Hsp Hmax. unfold INT_MAX, MAX_MBOX_LENGTH in *.
  set (k := (Z.to_nat (nwrite m) mod 64)%nat).
  assert (k < 64)%nat as Hk by (apply Nat.mod_upper_bound; lia).
  exists (<[k := v]> (buf m)). split; [|split].
  - unfold push_byte. rewrite rem_nat by lia. fold k. rewrite arr_set_Some by lia. simpl.
    by rewrite Nat2Z.id, s32_id by lia.
  - split; simpl; [by rewrite length_insert|unfold INT_MAX, MAX_MBOX_LENGTH; lia..].
  - unfold content. simpl nread. simpl nwrite. simpl buf.
    replace (Z.to_nat (nwrite m + 1 - nread m)) with (Z.to_nat (nwrite m - nread m) + 1)%nat by lia.
    rewrite seq_app, fmap_app. simpl. f_equal.
    + apply list_fmap_ext. intros j c Hj. apply lookup_seq in Hj as [-> Hj]. simpl.
      unfold ring_at. rewrite list_lookup_insert_ne; [done|]. intros E. symmetry in E. revert E.
      apply mod64_ne; lia.
    + f_equal. unfold ring_at. replace (Z.to_nat (nread m) + Z.to_nat (nwrite m - nread m))%nat with (Z.to_nat (nwrite m)) by lia.
      fold k. by rewrite list_lookup_insert_eq by lia.
Qed.

Lemma pop_byte_ok v c m :
  mbox_ok m → content m = v :: c →
  pop_byte m = Some (v, set_ring (buf m) (nread m + 1) (nwrite m) m) ∧
  mbox_ok (set_ring (buf m) (nread m + 1) (nwrite m) m) ∧
  content (set_ring (buf m) (nread m + 1) (nwrite m) m) = c.
Proof.
  intros [Hb Hr Hroom Hint] Hc. unfold INT_MAX, MAX_MBOX_LENGTH in *.
  assert (nread m < nwrite m) as Hlt.
  { pose proof (f_equal length Hc) as Hl. rewrite length_content in Hl. simpl in Hl. lia. }
  unfold content in Hc. replace (Z.to_nat (nwrite m - nread m)) with (S (Z.to_nat (nwrite m - nread m - 1))) in Hc by lia.
  simpl seq in Hc. rewrite fmap_cons in Hc. injection Hc as Hv Hc.
  set (k := (Z.to_nat (nread m) mod 64)%nat).
  assert (k < 64)%nat as Hk by (apply Nat.mod_upper_bound; lia).
  split; [|split].
  - unfold pop_byte. rewrite rem_nat by lia. fold k. unfold ring_at in Hv. rewrite Nat.add_0_r in Hv. fold k in Hv.
    destruct (lookup_lt_is_Some_2 (buf m) k) as [x Hx]; [lia|].
    rewrite (proj2 (arr_get_Some _ _ x)) by (rewrite Nat2Z.id; split; [lia|done]). simpl.
    rewrite Hx in Hv. simpl in Hv. by rewrite Hv, s32_id by lia.
  - split; simpl; [done|unfold INT_MAX, MAX_MBOX_LENGTH; lia..].
  - rewrite <- Hc. unfold content. simpl nread. simpl nwrite. simpl buf.
    rewrite <- fmap_S_seq, <- list_fmap_compose.
    replace (nwrite m - (nread m + 1)) with (nwrite m - nread m - 1) by lia.
    apply list_fmap_ext. intros j x Hj. simpl. f_equal. lia.
Qed.

Section Mbox.
Context {D : Type} `{!BlockDevice 64 D}.

Record mbox_state := mk_mb {
  mb_res : res_state mailbox_t;
  mb_vm : vm_state (D := D);
  mb_user : bmem
}.
Definition mb_sched (s : mbox_state) : sched_state := r_sched (mb_res s).
Definition mailboxes (s : mbox_state) : list mailbox_t := slots (mb_res s).
Definition upd_res (r : res_state mailbox_t) (s : mbox_state) : mbox_state := mk_mb r (mb_vm s) (mb_user s).
Definition upd_vm (v : vm_state) (s : mbox_state) : mbox_state := mk_mb (mb_res s) v (mb_user s).
Definition upd_user (u : bmem) (s : mbox_state) : mbox_state := mk_mb (mb_res s) (mb_vm s) u.
Definition on_box {A} (m : M (res_state mailbox_t) A) : M mbox_state A := zoom mb_res upd_res m.
Definition on_vm {A} (m : M vm_state A) : M mbox_state A := zoom mb_vm upd_vm m.
Definition running (s : mbox_state) : pcb_t := pcbs (mb_sched s) (current (mb_sched s)).

Definition init_mbox : M mbox_state unit :=
  on_box (for_ 0 MBOX_NUM (λ i,
    set_slot i (λ m, mk_mbox UNLOCKED (buf m) [] 0 0 0);;
    on_sched (q_init (NRecv i));;
    on_sched (q_init (NSend i)))).

(** [name] is the string at the argument. [strcpy] of one that does not fit
    would write over the fields behind the name. *)
Definition do_mbox_open (name : list Z) : M mbox_state Z :=
  s ← get;
  let box p i := match mailboxes s !! i with Some m => p m | None => false end in
  match first_index MBOX_NUM (box (λ m, (0 <? user_count m) && bool_decide (mb_name m = name))) with
  | Some i =>
      on_box (set_slot i (λ m, set_user_count (s32 (user_count m + 1)) m));;
      mret (Z.of_nat i)
  | None =>
      match first_index MBOX_NUM (box (λ m, user_count m =? 0)) with
      | Some i =>
          assert (bool_decide (length name < MAX_MBOX_NAME)%nat);;
          on_box (set_slot i (λ m, set_user_count 1 (set_box_name name m)));;
          mret (Z.of_nat i)
      | None => mret (-1)
      end
  end.

Definition valid_mbox (mbox_idx : Z) : bool := (0 <=? mbox_idx) && (mbox_idx <? Z.of_nat MBOX_NUM).

Definition do_mbox_close (mbox_idx : Z) : M mbox_state unit :=
  if negb (valid_mbox mbox_idx) then mret () else
  let i := Z.to_nat mbox_idx in
  on_box (
    set_slot i (λ m, set_user_count (s32 (user_count m - 1)) m);;
    m ← slot i;
    if user_count m =? 0 then
      set_slot i (λ m, set_ring (buf m) 0 0 m);;
      on_sched (wakeup (NRecv i));;
      on_sched (wakeup (NSend i))
    else mret ()).

Definition check_one_page (va : Z) : M mbox_state Z :=
  s ← get;
  let pgdir := pgdir_kva (running s) in
  let fault := on_vm (handle_page_fault pgdir (pid (running s)) va) in
  match get_pte (vm_mem (mb_vm s)) va pgdir with
  | Some pte =>
      let e := vm_mem (mb_vm s) pte in
      if negb (get_attribute e PAGE_PRESENT =? 0) then mret (pa2kva (get_pa e)) else fault
  | None => fault
  end.

Definition check_and_pin_pages (start_va len : Z) : M mbox_state unit :=
  let cur := ROUNDDOWN start_va PAGE_SIZE in
  let last := ROUNDDOWN (start_va + len - 1) PAGE_SIZE in
  for_ 0 (Z.to_nat ((last - cur) / PAGE_SIZE + 1)) (λ k,
    page_kva ← check_one_page (cur + Z.of_nat k * PAGE_SIZE);
    if page_kva =? 0 then mret () else on_vm (on_sw (remove_from_active_list page_kva))).

(** [last_pinned_page_kva = check_one_page(va); remove_from_active_list(last_pinned_page_kva);] *)
Definition pin_page (va : Z) : M mbox_state Z :=
  kva ← check_one_page va;
  on_vm (on_sw (remove_from_active_list kva));;
  mret kva.

Definition unpin_page (kva uva : Z) : M mbox_state unit :=
  s ← get;
  on_vm (on_sw (add_to_active_list (pgdir_kva (running s)) (kva2pa kva) uva (pid (running s)))).

(** The size of the next chunk, and whether it ends a page of the message. *)
Definition chunk_size (limit done len : Z) : Z * bool :=
  let bytes_left := s32 (len - done) in
  let chunk := if limit <? bytes_left then limit else bytes_left in
  let next_page_boundry := s32 (ROUNDDOWN (done + PAGE_SIZE) PAGE_SIZE) in
  let max_allow_send := s32 (next_page_boundry - done) in
  if max_allow_send <=? chunk then (max_allow_send, true) else (chunk, false).

(** The end of a chunk: the page that is full is unpinned, the next one pinned. *)
Definition turn_page (full : bool) (l : xfer) : M mbox_state xfer :=
  if full then
    unpin_page (x_kva l) (x_uva l);;
    let uva := u64 (x_uva l + PAGE_SIZE) in
    kva ← pin_page uva;
    mret (mk_xfer (x_done l) kva uva)
  else mret l.

Definition wait_in (i : nat) (queue : node) : M mbox_state unit :=
  on_box (
    cur ← current_running;
    on_sched (do_block (NList cur) queue);;
    spin_lock_release i).

Definition send_byte (i : nat) (a : Z) : M mbox_state unit :=
  s ← get;
  m ← on_box (slot i);
  m' ← of_opt (push_byte (mb_user s a) m);
  on_box (set_slot i (λ _, m')).

(** One round of the outer loop of [do_mbox_send], the waiting loop included. *)
Definition send_step (i : nat) (data msg_length : Z) (l : xfer) : M mbox_state (xfer + mbox_result) :=
  if x_done l <? msg_length then
    m ← on_box (slot i);
    let remain_space := s32 (MAX_MBOX_LENGTH - s32 (nwrite m - nread m)) in
    if 0 <? remain_space then
      let '(chunk, full) := chunk_size remain_space (x_done l) msg_length in
      for_ 0 (Z.to_nat chunk) (λ k, send_byte i (data + x_done l + Z.of_nat k));;
      l' ← turn_page full l;
      on_box (on_sched (wakeup (NRecv i)));;
      mret (inl (mk_xfer (s32 (x_done l' + chunk)) (x_kva l') (x_uva l')))
    else
      wait_in i (NSend i);;
      mret (inr (Blocked l))
  else
    on_box (spin_lock_release i);;
    mret (inr (Returned (x_done l))).

Definition send_loop (i : nat) (data msg_length : Z) (l : xfer) : M mbox_state mbox_result :=
  while_ (S (Z.to_nat (msg_length - x_done l))) (send_step i data msg_length) l.

(** [do_mbox_send] up to its first [do_scheduler] or its end. *)
Definition do_mbox_send (mbox_idx msg msg_length : Z) : M mbox_state mbox_result :=
  if negb (valid_mbox mbox_idx) then mret (Returned (-1)) else
  let i := Z.to_nat mbox_idx in
  m ← on_box (slot i);
  if user_count m =? 0 then mret (Returned (-1)) else
  kva ← pin_page msg;
  on_box (spin_lock_acquire i);;
  send_loop i msg msg_length (mk_xfer 0 kva (ROUNDDOWN msg PAGE_SIZE)).

(** From the return of [do_scheduler] on. *)
Definition mbox_resume (mbox_idx : Z) (k : M mbox_state mbox_result) : M mbox_state mbox_result :=
  s ← get;
  if negb (killed (running s) =? 0) then do_mbox_close mbox_idx;; exit_process
  else on_box (spin_lock_acquire (Z.to_nat mbox_idx));; k.

Definition mbox_send_resume (mbox_idx msg msg_length : Z) (l : xfer) : M mbox_state mbox_result :=
  mbox_resume mbox_idx (send_loop (Z.to_nat mbox_idx) msg msg_length l).

Definition recv_byte (i : nat) (a : Z) : M mbox_state unit :=
  m ← on_box (slot i);
  r ← of_opt (pop_byte m);
  modify (λ s, upd_user (bstore (mb_user s) a r.1) s);;
  on_box (set_slot i (λ _, r.2)).

Definition recv_step (i : nat) (data msg_length : Z) (l : xfer) : M mbox_state (xfer + mbox_result) :=
  if x_done l <? msg_length then
    m ← on_box (slot i);
    let available_data := s32 (nwrite m - nread m) in
    if 0 <? available_data then
      let '(chunk, full) := chunk_size available_data (x_done l) msg_length in
      for_ 0 (Z.to_nat chunk) (λ k, recv_byte i (data + x_done l + Z.of_nat k));;
      l' ← turn_page full l;
      on_box (on_sched (wakeup (NSend i)));;
      mret (inl (mk_xfer (s32 (x_done l' + chunk)) (x_kva l') (x_uva l')))
    else
      wait_in i (NRecv i);;
      mret (inr (Blocked l))
  else
    on_box (spin_lock_release i);;
    mret (inr (Returned (x_done l))).

Definition recv_loop (i : nat) (data msg_length : Z) (l : xfer) : M mbox_state mbox_result :=
  while_ (S (Z.to_nat (msg_length - x_done l))) (recv_step i data msg_length) l.

Definition do_mbox_recv (mbox_idx msg msg_length : Z) : M mbox_state mbox_result :=
  if negb (valid_mbox mbox_idx) then mret (Returned (-1)) else
  let i := Z.to_nat mbox_idx in
  m ← on_box (slot i);
  if user_count m =? 0 then mret (Returned (-1)) else
  kva ← pin_page msg;
  on_box (spin_lock_acquire i);;
  recv_loop i msg msg_length (mk_xfer 0 kva (ROUNDDOWN msg PAGE_SIZE)).

Definition mbox_recv_resume (mbox_idx msg msg_length : Z) (l : xfer) : M mbox_state mbox_result :=
  mbox_resume mbox_idx (recv_loop (Z.to_nat mbox_idx) msg msg_length l).

(** [free_mbox] of proc.c: take the running process out of the mailbox it
    waits for. *)
Definition free_mbox : M mbox_state unit :=
  on_box (for_ 0 MBOX_NUM (λ i,
    spin_lock_acquire i;;
    m ← slot i;
    (if 0 <? user_count m then
       cur ← current_running;
       in_send ← on_sched (q_in (NList cur) (NSend i));
       in_recv ← (if (in_send : bool) then mret false else on_sched (q_in (NList cur) (NRecv i)));
       if in_send || in_recv then
         on_sched (do_unblock (NList cur));;
         set_slot i (λ m, set_user_count (s32 (user_count m - 1)) m)
       else mret ()
     else mret ());;
    spin_lock_release i)).

(** ** One segment of a call *)

Lemma on_box_ok {A} (m : M (res_state mailbox_t) A) s a r :
  m (mb_res s) = Ok a r → on_box m s = Ok a (upd_res r s).
Proof. intros Hm. unfold on_box, zoom. by rewrite Hm. Qed.

Lemma set_const_ok (s : res_state mailbox_t) i m x :
  slots s !! i = Some x → set_slot i (λ _, m) s = Ok () (put_slot i m s).
Proof. intros Hx. by rewrite (set_slot_ok s i (λ _, m) x Hx). Qed.

Lemma send_bytes_ok i a k0 xs s m :
  mailboxes s !! i = Some m → mbox_ok m → bytes_at (mb_user s) (a + Z.of_nat k0) xs →
  Z.of_nat (length (content m) + length xs) ≤ MAX_MBOX_LENGTH →
  nwrite m + Z.of_nat (length xs) ≤ INT_MAX →
  ∃ m', for_ k0 (length xs) (λ k, send_byte i (a + Z.of_nat k)) s
        = Ok () (upd_res (put_slot i m' (mb_res s)) s) ∧
    mbox_ok m' ∧ content m' = content m ++ xs ∧
    (∃ b, m' = set_ring b (nread m) (nwrite m + Z.of_nat (length xs)) m).
Proof.
  revert k0 s m. induction xs as [|x xs IH]; intros k0 s m Hm Hok Hb Hlen Hint.
  - exists m. split; [|split; [done|split; [by rewrite app_nil_r|]]].
    + simpl. unfold mret, M_ret. rewrite put_slot_id by done. by destruct s.
    + exists (buf m). rewrite Z.add_0_r. by destruct m.
  - simpl in Hb. destruct Hb as [Hx Hb]. rewrite length_content in Hlen. simpl length in Hlen, Hint |- *.
    pose proof (mo_read _ Hok). unfold MAX_MBOX_LENGTH, INT_MAX in *.
    destruct (push_byte_ok x m) as (b & Hp & Hok1 & Hc1); [done|unfold MAX_MBOX_LENGTH; lia|unfold INT_MAX; lia|].
    set (m1 := set_ring b (nread m) (nwrite m + 1) m) in *.
    set (s1 := upd_res (put_slot i m1 (mb_res s)) s).
    assert (mailboxes s1 !! i = Some m1) as Hm1 by by eapply put_slot_get.
    destruct (IH (S k0) s1 m1) as (m' & Hf & Hok' & Hc' & b' & Hb'); [done|done| | | |].
    + simpl. by replace (a + Z.of_nat (S k0)) with (a + Z.of_nat k0 + 1) by lia.
    + rewrite Hc1, length_app, length_content. simpl. lia.
    + simpl. lia.
    + exists m'. split; [|split; [done|split]].
      * cbn [for_]. rewrite (bind_ok _ _ s () s1).
        { rewrite Hf. unfold s1. simpl. by rewrite put_slot_twice. }
        unfold send_byte. rewrite bind_get, (bind_ok _ _ _ _ _ (on_box_ok _ _ _ _ (slot_ok _ _ _ Hm))).
        rewrite Hx. rewrite (bind_opt _ _ _ _ Hp).
        rewrite (on_box_ok _ _ () (put_slot i m1 (mb_res s))); [done|]. by eapply set_const_ok.
      * by rewrite Hc', Hc1, <- app_assoc.
      * exists b'. rewrite Hb'. simpl. unfold set_ring. simpl. f_equal. lia.
Qed.

Lemma recv_bytes_ok i a k0 xs c s m :
  mailboxes s !! i = Some m → mbox_ok m → content m = xs ++ c →
  ∃ m' u, for_ k0 (length xs) (λ k, recv_byte i (a + Z.of_nat k)) s
        = Ok () (upd_user u (upd_res (put_slot i m' (mb_res s)) s)) ∧
    mbox_ok m' ∧ content m' = c ∧ bytes_at u (a + Z.of_nat k0) xs ∧
    same_outside (mb_user s) u (a + Z.of_nat k0) (Z.of_nat (length xs)) ∧
    m' = set_ring (buf m) (nread m + Z.of_nat (length xs)) (nwrite m) m.
Proof.
  revert k0 s m. induction xs as [|x xs IH]; intros k0 s m Hm Hok Hc.
  - exists m, (mb_user s). split; [|split; [done|split; [done|split; [done|split; [done|]]]]].
    + simpl. unfold mret, M_ret. rewrite put_slot_id by done. by destruct s.
    + rewrite Z.add_0_r. by destruct m.
  - destruct (pop_byte_ok x (xs ++ c) m) as (Hp & Hok1 & Hc1); [done|done|].
    set (m1 := set_ring (buf m) (nread m + 1) (nwrite m) m) in *.
    set (s1 := upd_res (put_slot i m1 (mb_res s)) (upd_user (bstore (mb_user s) (a + Z.of_nat k0) x) s)).
    assert (mailboxes s1 !! i = Some m1) as Hm1 by by eapply put_slot_get.
    destruct (IH (S k0) s1 m1) as (m' & u & Hf & Hok' & Hc' & Hb & Ho & Hm'); [done|done|done|].
    replace (a + Z.of_nat (S k0)) with (a + Z.of_nat k0 + 1) in Hb, Ho by lia.
    exists m', u. split; [|split; [done|split; [done|split; [|split]]]].
    + simpl length. cbn [for_]. rewrite (bind_ok _ _ s () s1).
      { rewrite Hf. unfold s1. simpl. by rewrite put_slot_twice. }
      unfold recv_byte. rewrite (bind_ok _ _ _ _ _ (on_box_ok _ _ _ _ (slot_ok _ _ _ Hm))).
      rewrite (bind_opt _ _ _ _ Hp), bind_modify. simpl fst. simpl snd.
      rewrite (on_box_ok _ _ () (put_slot i m1 (mb_res s))); [done|]. by eapply set_const_ok.
    + eapply (bytes_at_store (mb_user s)); [|exact Ho|exact Hb]. done.
    + simpl length. replace (Z.of_nat (S (length xs))) with (Z.of_nat (length xs) + 1) by lia.
      apply (same_outside_step _ _ _ x); [lia|exact Ho].
    + rewrite Hm'. simpl. unfold set_ring. simpl. f_equal; lia.
Qed.

Definition running_tcb (s : mbox_state) : tcb := current (mb_sched s).
End Mbox.

(** ** The table of mailboxes, with two queues per slot *)

#[export] Instance NSend_inj : Inj (=) (=) NSend.
Proof. by intros ?? [= ->]. Qed.
#[export] Instance NRecv_inj : Inj (=) (=) NRecv.
Proof. by intros ?? [= ->]. Qed.

Section Views.
Context (h1 h2 : nat → node) {I1 : Inj (=) (=) h1}.
Context (R1 : ∀ i, h1 i ≠ NReady) (R2 : ∀ i, h2 i ≠ NReady) (H12 : ∀ i j, h1 i ≠ h2 j).
Notation view h := (res_inv h MBOX_NUM (λ m _, mbox_ok m)).
Implicit Types (r : res_state mailbox_t) (Q : gmap node (list tcb)).

(** In the middle of a call on mailbox [i], which is [m] but for its spin lock. *)
Record in_call r Q (i : nat) (m : mailbox_t) : Prop := {
  ic_idx : (i < MBOX_NUM)%nat;
  ic_slot : slots r !! i = Some (set_spin LOCKED m);
  ic_free : mb_lock m = UNLOCKED;
  ic_ok : mbox_ok m;
  ic_view1 : view h1 (put_slot i m r) Q;
  ic_view2 : view h2 (put_slot i m r) Q;
  ic_runs : runs (r_sched r) Q
}.

Lemma in_call_lookup r Q i m : in_call r Q i m → slots (put_slot i m r) !! i = Some m.
Proof. intros HC. eapply put_slot_get. apply (ic_slot _ _ _ _ HC). Qed.

Lemma in_call_back r Q i m : in_call r Q i m → put_slot i (set_spin LOCKED m) (put_slot i m r) = r.
Proof. intros HC. rewrite put_slot_twice. apply put_slot_id, HC. Qed.

(** Changing the data of the mailbox. *)
Lemma in_call_put r Q i m m' :
  in_call r Q i m → mb_lock m' = UNLOCKED → mbox_ok m' →
  in_call (put_slot i (set_spin LOCKED m') r) Q i m'.
Proof.
  intros HC Hl Hok. pose proof HC as [Hi Hs _ _ V1 V2 Hrun].
  assert (put_slot i m' (put_slot i (set_spin LOCKED m') r)
    = put_slot i m' (upd_sched (r_sched r) (put_slot i m r))) as E.
  { rewrite put_slot_twice. symmetry. apply (put_slot_twice r). }
  split; try done.
  - by eapply put_slot_get.
  - rewrite E. destruct (ri_slot _ _ _ _ _ V1 i m) as (ws & Hws & _); [by eapply in_call_lookup|].
    eapply res_put; try done. apply V1.
  - rewrite E. destruct (ri_slot _ _ _ _ _ V2 i m) as (ws & Hws & _); [by eapply in_call_lookup|].
    eapply res_put; try done. apply V2.
Qed.

Lemma in_call_wake r Q i m :
  in_call r Q i m →
  ∃ y Q', on_sched (wakeup (h1 i)) r = Ok () (upd_sched y r) ∧ in_call (upd_sched y r) Q' i m ∧
    current y = current (r_sched r) ∧ (∀ t, killed (pcbs y t) = killed (pcbs (r_sched r) t)) ∧
    (∀ ws, Q !! h1 i = Some ws → ∀ t, t ∈ ws → status (pcbs y t) = TASK_READY).
Proof.
  intros HC. pose proof HC as [Hi Hs Hl Hok V1 V2 Hrun]. pose proof (in_call_lookup _ _ _ _ HC) as Hm.
  destruct (ri_slot _ _ _ _ _ V1 i m Hm) as (ws & Hws & _).
  destruct (res_wakeup h1 MBOX_NUM (λ m _, mbox_ok m) R1 (put_slot i m r) Q i m (set_spin LOCKED m) m ws
    V1 Hi Hm Hws Hl Hok) as (y & Q' & rs & Hw & HV1 & Hrs & HQ' & h & Hy).
  rewrite (in_call_back _ _ _ _ HC) in Hw.
  assert (put_slot i (set_spin LOCKED m) (upd_sched y (put_slot i m r)) = upd_sched y r) as E1.
  { rewrite <- (in_call_back r Q i m HC) at 2. done. }
  assert (upd_sched y (put_slot i m r) = put_slot i m (upd_sched y r)) as E2 by done.
  rewrite E1 in Hw. rewrite E2, put_slot_twice in HV1.
  exists y, Q'. split; [done|]. split; [|split; [by rewrite Hy|split]].
  - split; try done.
    + rewrite <- E2. eapply res_frame; [exact V2|apply HV1|].
      intros j. rewrite HQ', !lookup_insert_ne; [done| |by intros ?%eq_sym%R2].
      intros E. by apply (H12 i j).
    + rewrite Hy, HQ'. by apply (runs_wake (r_sched r)).
  - intros t. rewrite Hy. simpl. rewrite wake_pcbs_lookup. by case_decide.
  - intros ws' Hws' t Ht. assert (ws' = ws) as -> by congruence.
    rewrite Hy. simpl. rewrite wake_pcbs_lookup. by rewrite decide_True.
Qed.

Lemma in_call_block r Q i m ws :
  in_call r Q i m → Q !! h1 i = Some ws →
  ∃ y Q', on_sched (do_block (NList (current (r_sched r))) (h1 i)) r = Ok () (upd_sched y r) ∧
    view h1 (put_slot i m (upd_sched y r)) Q' ∧ view h2 (put_slot i m (upd_sched y r)) Q' ∧
    Q' = <[h1 i := ws ++ [current (r_sched r)]]> Q ∧ current y = current (r_sched r) ∧
    status (pcbs y (current (r_sched r))) = TASK_BLOCKED.
Proof.
  intros HC Hws. pose proof HC as [Hi Hs Hl Hok V1 V2 Hrun]. pose proof (in_call_lookup _ _ _ _ HC) as Hm.
  destruct (res_block h1 MBOX_NUM (λ m _, mbox_ok m) R1 (put_slot i m r) Q i m (set_spin LOCKED m) m ws
    V1 Hrun Hi Hm Hws Hl Hok) as (y & Q' & Hb & HV1 & HQ' & h & Hy).
  rewrite (in_call_back _ _ _ _ HC) in Hb.
  assert (put_slot i (set_spin LOCKED m) (upd_sched y (put_slot i m r)) = upd_sched y r) as E1.
  { rewrite <- (in_call_back r Q i m HC) at 2. done. }
  assert (upd_sched y (put_slot i m r) = put_slot i m (upd_sched y r)) as E2 by done.
  rewrite E1 in Hb. rewrite E2, put_slot_twice in HV1.
  exists y, Q'. split; [done|]. split; [done|]. split; [|split; [done|split; [by rewrite Hy|]]].
  - rewrite <- E2. eapply res_frame; [exact V2|apply HV1|].
    intros j. rewrite HQ', lookup_insert_ne; [done|apply H12].
  - rewrite Hy. simpl. by rewrite decide_True.
Qed.

(** Leaving the call. *)
Lemma in_call_release r i m : slots r !! i = Some (set_spin LOCKED m) → mb_lock m = UNLOCKED →
  spin_lock_release i r = Ok () (put_slot i m r).
Proof.
  intros Hs Hl. rewrite (spin_lock_release_ok _ _ _ Hs), set_spin_twice.
  replace (set_spin UNLOCKED m) with m; [done|]. destruct m. simpl in *. by subst.
Qed.
End Views.

(** ** Segments of messages that lie in one page *)

Section Segments.
Context {D : Type} `{!BlockDevice 64 D}.
Implicit Types (s : mbox_state (D := D)) (Q : gmap node (list tcb)).

Notation sending := (in_call NRecv NSend).
Notation receiving := (in_call NSend NRecv).

(** The table of mailboxes between calls. *)
Record boxes_inv (r : res_state mailbox_t) Q : Prop := {
  bi_send : res_inv NSend MBOX_NUM (λ m _, mbox_ok m) r Q;
  bi_recv : res_inv NRecv MBOX_NUM (λ m _, mbox_ok m) r Q
}.

Lemma in_call_swap h1 h2 r Q i m : in_call h1 h2 r Q i m → in_call h2 h1 r Q i m.
Proof. by intros []. Qed.

Lemma chunk_size_page limit done len :
  0 < limit ≤ MAX_MBOX_LENGTH → 0 ≤ done < len → len < PAGE_SIZE →
  chunk_size limit done len = (Z.min limit (len - done), false).
Proof.
  unfold MAX_MBOX_LENGTH, PAGE_SIZE. intros Hl Hd Hlen. unfold chunk_size.
  rewrite ROUNDDOWN_eq by (unfold PAGE_SIZE; simpl; lia). unfold PAGE_SIZE.
  replace ((done + 4096) / 4096) with 1 by (Z.to_euclidean_division_equations; lia).
  rewrite !s32_id by (rewrite ?s32_id; lia). destruct (Z.ltb_spec limit (len - done)).
  - rewrite (proj2 (Z.leb_gt _ _)) by lia. f_equal. lia.
  - rewrite (proj2 (Z.leb_gt _ _)) by lia. f_equal. lia.
Qed.

(** What is left of the mailbox's data after [n] bytes were written. *)
Definition box_after (m m' : mailbox_t) (c : list Z) (r w : Z) : Prop :=
  mbox_ok m' ∧ mb_lock m' = UNLOCKED ∧ content m' = c ∧ nread m' = r ∧ nwrite m' = w ∧
  mb_name m' = mb_name m ∧ user_count m' = user_count m.

Lemma mbox_ok_spin v m : mbox_ok m → mbox_ok (set_spin v m).
Proof. by intros []. Qed.

Definition wakes_only (s s' : mbox_state (D := D)) : Prop :=
  mb_vm s' = mb_vm s ∧ running_tcb s' = running_tcb s.

Lemma send_step_chunk s Q i m data len l xs :
  sending (mb_res s) Q i m → xs ≠ [] → bytes_at (mb_user s) (data + x_done l) xs →
  0 ≤ x_done l → x_done l + Z.of_nat (length xs) = len → len < PAGE_SIZE →
  Z.of_nat (length (content m)) < MAX_MBOX_LENGTH → nwrite m + Z.of_nat (length xs) ≤ INT_MAX →
  let k := Nat.min (length xs) (64 - length (content m)) in
  ∃ s' Q' m', send_step i data len l s = Ok (inl (mk_xfer (x_done l + Z.of_nat k) (x_kva l) (x_uva l))) s' ∧
    sending (mb_res s') Q' i m' ∧
    box_after m m' (content m ++ take k xs) (nread m) (nwrite m + Z.of_nat k) ∧
    wakes_only s s' ∧ mb_user s' = mb_user s.
Proof.
  intros HC Hne Hb Hd Hlen Hpg Hsp Hint k. pose proof HC as [Hi Hs Hl Hok _ _ _].
  pose proof (length_content m) as Hcl. pose proof (mo_read _ Hok). pose proof (mo_room _ Hok).
  assert (length xs ≠ 0%nat) by (by destruct xs). unfold MAX_MBOX_LENGTH in *.
  unfold send_step. rewrite (proj2 (Z.ltb_lt _ _)) by lia.
  rewrite (bind_ok _ _ _ _ _ (on_box_ok _ _ _ _ (slot_ok _ _ _ Hs))).
  replace (upd_res (mb_res s) s) with s by by destruct s.
  change (nwrite (set_spin LOCKED m)) with (nwrite m). change (nread (set_spin LOCKED m)) with (nread m).
  pose proof (mo_int _ Hok). unfold INT_MAX in *. unfold PAGE_SIZE in Hpg.
  rewrite !s32_id by (rewrite ?s32_id; unfold MAX_MBOX_LENGTH; lia).
  rewrite (proj2 (Z.ltb_lt 0 _)) by (unfold MAX_MBOX_LENGTH; lia).
  rewrite chunk_size_page by (unfold MAX_MBOX_LENGTH, PAGE_SIZE; lia). cbv beta iota zeta.
  replace (Z.min _ _) with (Z.of_nat k) by (unfold MAX_MBOX_LENGTH, k; lia). rewrite Nat2Z.id.
  assert (length (take k xs) = k) as Hk by (rewrite length_take; lia).
  destruct (send_bytes_ok i (data + x_done l) 0 (take k xs) s (set_spin LOCKED m))
    as (m1 & Hf & Hok1 & Hc1 & b & Hm1); [done|by apply mbox_ok_spin| | | |].
  { rewrite Z.add_0_r. rewrite <- (take_drop k xs) in Hb. by apply bytes_at_app in Hb as [? _]. }
  { change (content (set_spin LOCKED m)) with (content m). unfold MAX_MBOX_LENGTH. lia. }
  { simpl. unfold INT_MAX. lia. }
  rewrite Hk in Hf, Hm1. rewrite (bind_ok _ _ _ _ _ Hf). unfold turn_page. rewrite bind_ret.
  set (m' := set_ring b (nread m) (nwrite m + Z.of_nat k) m).
  assert (m1 = set_spin LOCKED m') as E by (rewrite Hm1; by destruct m).
  set (s1 := upd_res (put_slot i m1 (mb_res s)) s).
  assert (mbox_ok m') as Hok'.
  { rewrite E in Hok1. destruct Hok1 as [? ? ? ?]. by split. }
  assert (sending (mb_res s1) Q i m') as HC1.
  { unfold s1. rewrite E. by eapply in_call_put. }
  destruct (in_call_wake NRecv NSend (λ _, ltac:(done)) (λ _, ltac:(done)) (λ _ _, ltac:(done)) _ _ _ _ HC1)
    as (y & Q' & Hw & HC' & Hcur & _).
  rewrite (bind_ok _ _ _ _ _ (on_box_ok _ _ _ _ Hw)). cbn [x_done x_kva x_uva].
  rewrite s32_id by lia.
  exists (upd_res (upd_sched y (mb_res s1)) s1), Q', m'. split; [done|]. split; [done|].
  split; [|done]. unfold box_after. split; [done|]. split; [done|]. split; [|done].
  rewrite E in Hc1. exact Hc1.
Qed.

Lemma send_step_done s Q i m data len l fuel :
  sending (mb_res s) Q i m → x_done l = len →
  ∃ s', while_ (S fuel) (send_step i data len) l s = Ok (Returned len) s' ∧
    boxes_inv (mb_res s') Q ∧ mailboxes s' !! i = Some m ∧ wakes_only s s' ∧ mb_user s' = mb_user s.
Proof.
  intros HC Hd. pose proof HC as [Hi Hs Hl Hok V1 V2 _]. rewrite while_eq. unfold send_step.
  rewrite (proj2 (Z.ltb_ge _ _)) by lia.
  rewrite (bind_ok _ _ _ _ _ (on_box_ok _ _ _ _ (in_call_release _ _ _ Hs Hl))), Hd.
  eexists. split; [done|]. split; [by split|]. split; [by eapply in_call_lookup|done].
Qed.

(** Blocking in the middle of a call. *)
Lemma wait_in_ok h1 h2 (R1 : ∀ i, h1 i ≠ NReady) (H12 : ∀ i j, h1 i ≠ h2 j) {I1 : Inj (=) (=) h1} s Q i m :
  in_call h1 h2 (mb_res s) Q i m →
  ∃ s' ws Q', wait_in i (h1 i) s = Ok () s' ∧
    res_inv h1 MBOX_NUM (λ m _, mbox_ok m) (mb_res s') Q' ∧
    res_inv h2 MBOX_NUM (λ m _, mbox_ok m) (mb_res s') Q' ∧
    mailboxes s' !! i = Some m ∧ wakes_only s s' ∧ mb_user s' = mb_user s ∧
    Q !! h1 i = Some ws ∧ Q' !! h1 i = Some (ws ++ [running_tcb s]) ∧
    status (pcbs (mb_sched s') (running_tcb s)) = TASK_BLOCKED.
Proof.
  intros HC. pose proof HC as [Hi Hs Hl Hok V1 V2 _]. pose proof (in_call_lookup _ _ _ _ _ _ HC) as Hm.
  destruct (ri_slot _ _ _ _ _ V1 i m Hm) as (ws & Hws & _).
  destruct (in_call_block h1 h2 R1 H12 _ _ _ _ ws HC Hws) as (y & Q' & Hb & HV1 & HV2 & HQ' & Hcur & Hst).
  set (r' := put_slot i m (upd_sched y (mb_res s))).
  exists (upd_res r' s), ws, Q'. split; [|split; [done|split; [done|split; [|split; [|split; [done|split; [done|split]]]]]]].
  - unfold wait_in. apply on_box_ok. unfold current_running. rewrite bind_gets.
    rewrite (bind_ok _ _ _ _ _ Hb). by apply in_call_release.
  - by apply (put_slot_get (upd_sched y (mb_res s)) i (set_spin LOCKED m)).
  - by split.
  - rewrite HQ'. apply lookup_insert_eq.
  - done.
Qed.

(** How a segment of [do_mbox_send] ends, [k] of its bytes written. *)
Definition send_ends s (i : nat) (len : Z) (l : xfer) (n k : nat) (r : mbox_result)
    (s' : mbox_state (D := D)) (Q' : gmap node (list tcb)) : Prop :=
  if decide (k = n) then r = Returned len
  else r = Blocked (mk_xfer (x_done l + Z.of_nat k) (x_kva l) (x_uva l)) ∧
    status (pcbs (mb_sched s') (running_tcb s)) = TASK_BLOCKED ∧
    ∃ ws, Q' !! NSend i = Some (ws ++ [running_tcb s]).

Lemma send_step_block s Q i m data len l fuel :
  sending (mb_res s) Q i m → x_done l < len → length (content m) = 64%nat →
  ∃ s' Q', while_ (S fuel) (send_step i data len) l s = Ok (Blocked l) s' ∧
    boxes_inv (mb_res s') Q' ∧ mailboxes s' !! i = Some m ∧ wakes_only s s' ∧ mb_user s' = mb_user s ∧
    status (pcbs (mb_sched s') (running_tcb s)) = TASK_BLOCKED ∧
    ∃ ws, Q' !! NSend i = Some (ws ++ [running_tcb s]).
Proof.
  intros HC Hd Hfull. pose proof HC as [Hi Hs Hl Hok V1 V2 _].
  destruct (wait_in_ok NSend NRecv (λ _, ltac:(done)) (λ _ _, ltac:(done)) s Q i m (in_call_swap _ _ _ _ _ _ HC))
    as (s' & ws & Q' & Hw & HV1 & HV2 & Hm & Hwk & Hu & _ & HQ' & Hst).
  exists s', Q'. split; [|split; [by split|]]; [|do 4 (split; [done|]); by exists ws].
  rewrite while_eq. unfold send_step. rewrite (proj2 (Z.ltb_lt _ _)) by lia.
  rewrite (bind_ok _ _ _ _ _ (on_box_ok _ _ _ _ (slot_ok _ _ _ Hs))).
  replace (upd_res (mb_res s) s) with s by by destruct s.
  pose proof (length_content m) as Hcl. pose proof (mo_read _ Hok). pose proof (mo_room _ Hok).
  pose proof (mo_int _ Hok).
  change (nwrite (set_spin LOCKED m)) with (nwrite m). change (nread (set_spin LOCKED m)) with (nread m).
  unfold MAX_MBOX_LENGTH, INT_MAX in *.
  rewrite !s32_id by (rewrite ?s32_id; lia). rewrite (proj2 (Z.ltb_ge 0 _)) by lia.
  by rewrite (bind_ok _ _ _ _ _ Hw).
Qed.

(** A segment of [do_mbox_send] writes as much of the rest [xs] of the message
    as there is room for, in order, behind what the mailbox holds. *)
Lemma send_segment s Q i m data len l xs :
  sending (mb_res s) Q i m → bytes_at (mb_user s) (data + x_done l) xs →
  0 ≤ x_done l → x_done l + Z.of_nat (length xs) = len → len < PAGE_SIZE →
  nwrite m + Z.of_nat (length xs) ≤ INT_MAX →
  let k := Nat.min (length xs) (64 - length (content m)) in
  ∃ r s' Q' m', send_loop i data len l s = Ok r s' ∧
    boxes_inv (mb_res s') Q' ∧ mailboxes s' !! i = Some m' ∧
    box_after m m' (content m ++ take k xs) (nread m) (nwrite m + Z.of_nat k) ∧
    wakes_only s s' ∧ mb_user s' = mb_user s ∧ send_ends s i len l (length xs) k r s' Q'.
Proof.
  intros HC Hb Hd Hlen Hpg Hint k. pose proof HC as [Hi Hs Hl Hok _ _ _].
  pose proof (length_content m) as Hcl. pose proof (mo_read _ Hok). pose proof (mo_room _ Hok) as Hroom.
  unfold send_loop, send_ends. unfold MAX_MBOX_LENGTH in Hroom.
  destruct (decide (xs = [])) as [->|Hne].
  { destruct (send_step_done s Q i m data len l (Z.to_nat (len - x_done l)) HC) as (s' & Hw & HI & Hm & Hwk & Hu);
      [simpl in Hlen; lia|].
    exists (Returned len), s', Q, m. do 3 (split; [done|]). split; [|done].
    unfold box_after, k. simpl. rewrite app_nil_r, Z.add_0_r. done. }
  assert (length xs ≠ 0%nat) as Hnz by (by destruct xs).
  destruct (decide (length (content m) = 64%nat)) as [Hfull|Hsp].
  { destruct (send_step_block s Q i m data len l (Z.to_nat (len - x_done l)) HC)
      as (s' & Q' & Hw & HI & Hm & Hwk & Hu & Hst & Hq); [lia|done|].
    exists (Blocked l), s', Q', m. do 3 (split; [done|]).
    replace k with 0%nat by (unfold k; lia). split; [|split; [done|split; [done|]]].
    - unfold box_after. simpl. by rewrite app_nil_r, Z.add_0_r.
    - rewrite decide_False by lia. split; [|done]. rewrite Z.add_0_r. by destruct l. }
  destruct (send_step_chunk s Q i m data len l xs) as (s1 & Q1 & m1 & Hstep & HC1 & Ha1 & Hwk1 & Hu1);
    [done|done|done|lia|done|done|unfold MAX_MBOX_LENGTH; lia|done|].
  fold k in Hstep, Ha1. set (l1 := mk_xfer _ _ _) in Hstep.
  pose proof Ha1 as (_ & _ & Hc1 & _).
  assert (1 ≤ k)%nat by (unfold k; lia).
  rewrite while_eq, Hstep. destruct (Z.to_nat (len - x_done l)) as [|fuel] eqn:Hf; [lia|].
  destruct (decide (k = length xs)) as [E|E].
  - destruct (send_step_done s1 Q1 i m1 data len l1 fuel HC1) as (s' & Hw & HI & Hm & Hwk & Hu); [simpl; lia|].
    exists (Returned len), s', Q1, m1. do 4 (split; [done|]). split; [|split; [congruence|done]].
    destruct Hwk1, Hwk. split; congruence.
  - destruct (send_step_block s1 Q1 i m1 data len l1 fuel HC1)
      as (s' & Q' & Hw & HI & Hm & Hwk & Hu & Hst & ws & Hq); [simpl; unfold k; lia| |].
    { rewrite Hc1, length_app, length_take. unfold k in *. lia. }
    assert (running_tcb s1 = running_tcb s) as Hcur by by destruct Hwk1.
    rewrite Hcur in Hst, Hq.
    exists (Blocked l1), s', Q', m1. do 4 (split; [done|]). split; [|split; [congruence|]].
    + destruct Hwk1, Hwk. split; congruence.
    + split; [done|]. split; [done|]. by exists ws.
Qed.

Lemma recv_step_chunk s Q i m data len l :
  receiving (mb_res s) Q i m → 0 ≤ x_done l < len → len < PAGE_SIZE → content m ≠ [] →
  let k := Nat.min (Z.to_nat (len - x_done l)) (length (content m)) in
  ∃ s' Q' m', recv_step i data len l s = Ok (inl (mk_xfer (x_done l + Z.of_nat k) (x_kva l) (x_uva l))) s' ∧
    receiving (mb_res s') Q' i m' ∧
    box_after m m' (drop k (content m)) (nread m + Z.of_nat k) (nwrite m) ∧
    wakes_only s s' ∧ bytes_at (mb_user s') (data + x_done l) (take k (content m)) ∧
    same_outside (mb_user s) (mb_user s') (data + x_done l) (Z.of_nat k).
Proof.
  intros HC Hd Hpg Hne k. pose proof HC as [Hi Hs Hl Hok _ _ _].
  pose proof (length_content m) as Hcl. pose proof (mo_read _ Hok). pose proof (mo_room _ Hok).
  assert (length (content m) ≠ 0%nat) by (by destruct (content m)).
  unfold recv_step. rewrite (proj2 (Z.ltb_lt _ _)) by lia.
  rewrite (bind_ok _ _ _ _ _ (on_box_ok _ _ _ _ (slot_ok _ _ _ Hs))).
  replace (upd_res (mb_res s) s) with s by by destruct s.
  change (nwrite (set_spin LOCKED m)) with (nwrite m). change (nread (set_spin LOCKED m)) with (nread m).
  pose proof (mo_int _ Hok). unfold INT_MAX, MAX_MBOX_LENGTH in *. unfold PAGE_SIZE in Hpg.
  rewrite s32_id by lia. rewrite (proj2 (Z.ltb_lt 0 _)) by lia.
  rewrite chunk_size_page by (unfold MAX_MBOX_LENGTH, PAGE_SIZE; lia). cbv beta iota zeta.
  replace (Z.min _ _) with (Z.of_nat k) by (unfold k; lia). rewrite Nat2Z.id.
  assert (length (take k (content m)) = k) as Hk by (rewrite length_take; lia).
  destruct (recv_bytes_ok i (data + x_done l) 0 (take k (content m)) (drop k (content m)) s (set_spin LOCKED m))
    as (m1 & u & Hf & Hok1 & Hc1 & Hb & Ho & Hm1); [done|by apply mbox_ok_spin|by rewrite take_drop|].
  rewrite Hk in Hf, Hm1, Ho. rewrite Z.add_0_r in Hb, Ho.
  rewrite (bind_ok _ _ _ _ _ Hf). unfold turn_page. rewrite bind_ret.
  set (m' := set_ring (buf m) (nread m + Z.of_nat k) (nwrite m) m).
  assert (m1 = set_spin LOCKED m') as E by (rewrite Hm1; by destruct m).
  set (s1 := upd_user u (upd_res (put_slot i m1 (mb_res s)) s)).
  assert (mbox_ok m') as Hok'.
  { rewrite E in Hok1. destruct Hok1 as [? ? ? ?]. by split. }
  assert (receiving (mb_res s1) Q i m') as HC1.
  { unfold s1. rewrite E. by eapply in_call_put. }
  destruct (in_call_wake NSend NRecv (λ _, ltac:(done)) (λ _, ltac:(done)) (λ _ _, ltac:(done)) _ _ _ _ HC1)
    as (y & Q' & Hw & HC' & Hcur & _).
  rewrite (bind_ok _ _ _ _ _ (on_box_ok _ _ _ _ Hw)). cbn [x_done x_kva x_uva].
  rewrite s32_id by lia.
  exists (upd_res (upd_sched y (mb_res s1)) s1), Q', m'. split; [done|]. split; [done|].
  split; [|done]. unfold box_after. split; [done|]. split; [done|]. split; [|done].
  rewrite E in Hc1. exact Hc1.
Qed.

Lemma recv_step_done s Q i m data len l fuel :
  receiving (mb_res s) Q i m → x_done l = len →
  ∃ s', while_ (S fuel) (recv_step i data len) l s = Ok (Returned len) s' ∧
    boxes_inv (mb_res s') Q ∧ mailboxes s' !! i = Some m ∧ wakes_only s s' ∧ mb_user s' = mb_user s.
Proof.
  intros HC Hd. pose proof HC as [Hi Hs Hl Hok V1 V2 _]. rewrite while_eq. unfold recv_step.
  rewrite (proj2 (Z.ltb_ge _ _)) by lia.
  rewrite (bind_ok _ _ _ _ _ (on_box_ok _ _ _ _ (in_call_release _ _ _ Hs Hl))), Hd.
  eexists. split; [done|]. split; [by split|]. split; [by eapply in_call_lookup|done].
Qed.

Definition recv_ends s (i : nat) (len : Z) (l : xfer) (k : nat) (r : mbox_result)
    (s' : mbox_state (D := D)) (Q' : gmap node (list tcb)) : Prop :=
  if decide (x_done l + Z.of_nat k = len) then r = Returned len
  else r = Blocked (mk_xfer (x_done l + Z.of_nat k) (x_kva l) (x_uva l)) ∧
    status (pcbs (mb_sched s') (running_tcb s)) = TASK_BLOCKED ∧
    ∃ ws, Q' !! NRecv i = Some (ws ++ [running_tcb s]).

Lemma recv_step_block s Q i m data len l fuel :
  receiving (mb_res s) Q i m → x_done l < len → content m = [] →
  ∃ s' Q', while_ (S fuel) (recv_step i data len) l s = Ok (Blocked l) s' ∧
    boxes_inv (mb_res s') Q' ∧ mailboxes s' !! i = Some m ∧ wakes_only s s' ∧ mb_user s' = mb_user s ∧
    status (pcbs (mb_sched s') (running_tcb s)) = TASK_BLOCKED ∧
    ∃ ws, Q' !! NRecv i = Some (ws ++ [running_tcb s]).
Proof.
  intros HC Hd He. pose proof HC as [Hi Hs Hl Hok V1 V2 _].
  destruct (wait_in_ok NRecv NSend (λ _, ltac:(done)) (λ _ _, ltac:(done)) s Q i m (in_call_swap _ _ _ _ _ _ HC))
    as (s' & ws & Q' & Hw & HV1 & HV2 & Hm & Hwk & Hu & _ & HQ' & Hst).
  exists s', Q'. split; [|split; [by split|]]; [|do 4 (split; [done|]); by exists ws].
  rewrite while_eq. unfold recv_step. rewrite (proj2 (Z.ltb_lt _ _)) by lia.
  rewrite (bind_ok _ _ _ _ _ (on_box_ok _ _ _ _ (slot_ok _ _ _ Hs))).
  replace (upd_res (mb_res s) s) with s by by destruct s.
  pose proof (length_content m) as Hcl. rewrite He in Hcl. simpl in Hcl.
  pose proof (mo_read _ Hok). pose proof (mo_room _ Hok). pose proof (mo_int _ Hok).
  change (nwrite (set_spin LOCKED m)) with (nwrite m). change (nread (set_spin LOCKED m)) with (nread m).
  unfold MAX_MBOX_LENGTH, INT_MAX in *.
  rewrite s32_id by lia. rewrite (proj2 (Z.ltb_ge 0 _)) by lia.
  by rewrite (bind_ok _ _ _ _ _ Hw).
Qed.

(** A segment of [do_mbox_recv] takes as much as it still wants of what the
    mailbox holds, from the front, and stores it behind what was read before. *)
Lemma recv_segment s Q i m data len l :
  receiving (mb_res s) Q i m → 0 ≤ x_done l ≤ len → len < PAGE_SIZE →
  let k := Nat.min (Z.to_nat (len - x_done l)) (length (content m)) in
  ∃ r s' Q' m', recv_loop i data len l s = Ok r s' ∧
    boxes_inv (mb_res s') Q' ∧ mailboxes s' !! i = Some m' ∧
    box_after m m' (drop k (content m)) (nread m + Z.of_nat k) (nwrite m) ∧
    wakes_only s s' ∧ bytes_at (mb_user s') (data + x_done l) (take k (content m)) ∧
    same_outside (mb_user s) (mb_user s') (data + x_done l) (Z.of_nat k) ∧
    recv_ends s i len l k r s' Q'.
Proof.
  intros HC Hd Hpg k. pose proof HC as [Hi Hs Hl Hok _ _ _]. unfold recv_loop, recv_ends.
  assert (∀ x, box_after m m (drop 0 (content m)) (nread m + Z.of_nat 0) (nwrite m) ∧
    bytes_at (mb_user s) x (take 0 (content m))) as Hnone.
  { intros x. split; [|done]. unfold box_after. by rewrite Z.add_0_r. }
  destruct (decide (x_done l = len)) as [E|Hne].
  { destruct (recv_step_done s Q i m data len l (Z.to_nat (len - x_done l)) HC E) as (s' & Hw & HI & Hm & Hwk & Hu).
    exists (Returned len), s', Q, m. do 3 (split; [done|]).
    replace k with 0%nat by (unfold k; lia). rewrite decide_True by lia. rewrite Hu.
    split; [by apply Hnone|]. done. }
  destruct (decide (content m = [])) as [He|Hsome].
  { destruct (recv_step_block s Q i m data len l (Z.to_nat (len - x_done l)) HC)
      as (s' & Q' & Hw & HI & Hm & Hwk & Hu & Hst & Hq); [lia|done|].
    exists (Blocked l), s', Q', m. do 3 (split; [done|]).
    replace k with 0%nat by (unfold k; rewrite He; simpl; lia). rewrite decide_False by lia. rewrite Hu.
    split; [by apply Hnone|]. split; [done|]. split; [by apply Hnone|]. split; [done|].
    rewrite Z.add_0_r. split; [by destruct l|done]. }
  assert (length (content m) ≠ 0%nat) by (by destruct (content m)).
  destruct (recv_step_chunk s Q i m data len l) as (s1 & Q1 & m1 & Hstep & HC1 & Ha1 & Hwk1 & Hb1 & Ho1);
    [done|lia|done|done|].
  fold k in Hstep, Ha1, Hb1, Ho1. set (l1 := mk_xfer _ _ _) in Hstep.
  pose proof Ha1 as (_ & _ & Hc1 & _).
  assert (1 ≤ k)%nat by (unfold k; lia).
  rewrite while_eq, Hstep. destruct (Z.to_nat (len - x_done l)) as [|fuel] eqn:Hf; [lia|].
  destruct (decide (x_done l + Z.of_nat k = len)) as [E|E].
  - destruct (recv_step_done s1 Q1 i m1 data len l1 fuel HC1) as (s' & Hw & HI & Hm & Hwk & Hu); [done|].
    exists (Returned len), s', Q1, m1. do 4 (split; [done|]). rewrite Hu. split; [|done].
    destruct Hwk1, Hwk. split; congruence.
  - destruct (recv_step_block s1 Q1 i m1 data len l1 fuel HC1)
      as (s' & Q' & Hw & HI & Hm & Hwk & Hu & Hst & ws & Hq); [simpl; unfold k in *; lia| |].
    { rewrite Hc1. apply drop_ge. unfold k in *. lia. }
    assert (running_tcb s1 = running_tcb s) as Hcur by by destruct Hwk1.
    rewrite Hcur in Hst, Hq.
    exists (Blocked l1), s', Q', m1. do 4 (split; [done|]). rewrite Hu. split; [|split; [done|split; [done|]]].
    + destruct Hwk1, Hwk. split; congruence.
    + split; [done|]. split; [done|]. by exists ws.
Qed.

(** ** Whole calls *)

Lemma enter_call h1 h2 r Q i m :
  res_inv h1 MBOX_NUM (λ m _, mbox_ok m) r Q → res_inv h2 MBOX_NUM (λ m _, mbox_ok m) r Q →
  runs (r_sched r) Q → slots r !! i = Some m →
  ∃ r', spin_lock_acquire i r = Ok () r' ∧ in_call h1 h2 r' Q i m ∧ r_sched r' = r_sched r.
Proof.
  intros V1 V2 Hrun Hm. destruct (ri_slot _ _ _ _ _ V1 i m Hm) as (ws & _ & Hl & Hok).
  exists (put_slot i (set_spin LOCKED m) r). split; [by apply spin_lock_acquire_ok|]. split; [|done].
  split; try done.
  - rewrite <- (ri_len _ _ _ _ _ V1). by eapply lookup_lt_Some.
  - by eapply put_slot_get.
  - by rewrite put_slot_twice, put_slot_id.
  - by rewrite put_slot_twice, put_slot_id.
Qed.

Lemma valid_mbox_of i : (i < MBOX_NUM)%nat → valid_mbox (Z.of_nat i) = true.
Proof. unfold valid_mbox. intros. apply andb_true_iff. rewrite Z.leb_le, Z.ltb_lt. lia. Qed.

(** Pinning a page concerns the memory manager alone. *)
Lemma on_vm_frame {A} (k : M vm_state A) s a s' : on_vm k s = Ok a s' → ∃ v, s' = upd_vm v s.
Proof. unfold on_vm, zoom. destruct (k (mb_vm s)); [|done..]. intros [= _ <-]. by eexists. Qed.

Lemma check_one_page_frame va s a s' : check_one_page va s = Ok a s' → ∃ v, s' = upd_vm v s.
Proof.
  unfold check_one_page. rewrite bind_get. cbv zeta. destruct (get_pte _ _ _) as [e|].
  - case_match; [|apply on_vm_frame]. intros [= _ <-]. exists (mb_vm s). by destruct s.
  - apply on_vm_frame.
Qed.

Lemma pin_page_frame va s a s' : pin_page va s = Ok a s' → ∃ v, s' = upd_vm v s.
Proof.
  unfold pin_page. unfold mbind at 1, M_bind at 1. destruct (check_one_page va s) as [kva s1|?|] eqn:E; [|done..].
  apply check_one_page_frame in E as [v1 ->]. unfold mbind, M_bind.
  destruct (on_vm _ _) as [[] s2|?|] eqn:E2; [|done..]. apply on_vm_frame in E2 as [v2 ->].
  intros [= _ <-]. by exists v2.
Qed.

(** [do_mbox_send] of a message that lies in one page, up to where it waits
    or returns: the free part of the buffer is filled with the message's first
    bytes, behind what it holds; the call returns the length when all of it
    fits, and waits as the last sender otherwise. *)
Theorem do_mbox_send_spec s Q i m msg xs :
  boxes_inv (mb_res s) Q → runs (mb_sched s) Q → mailboxes s !! i = Some m → user_count m ≠ 0 →
  wp (pin_page msg) s (λ _ _, True) → bytes_at (mb_user s) msg xs →
  Z.of_nat (length xs) < PAGE_SIZE → nwrite m + Z.of_nat (length xs) ≤ INT_MAX →
  let k := Nat.min (length xs) (64 - length (content m)) in
  wp (do_mbox_send (Z.of_nat i) msg (Z.of_nat (length xs))) s (λ r s', ∃ Q' m',
    boxes_inv (mb_res s') Q' ∧ mailboxes s' !! i = Some m' ∧ content m' = content m ++ take k xs ∧
    mb_user s' = mb_user s ∧
    if decide (k = length xs) then r = Returned (Z.of_nat (length xs))
    else ∃ l ws, r = Blocked l ∧ x_done l = Z.of_nat k ∧
      status (pcbs (mb_sched s') (running_tcb s)) = TASK_BLOCKED ∧
      Q' !! NSend i = Some (ws ++ [running_tcb s])).
Proof.
  intros [V1 V2] Hrun Hm Hu Hpin Hb Hlen Hint k. apply wp_iff in Hpin as (kva & s1 & Hpin & _).
  destruct (pin_page_frame _ _ _ _ Hpin) as [v ->].
  assert (i < MBOX_NUM)%nat as Hi.
  { rewrite <- (ri_len _ _ _ _ _ V1). by eapply lookup_lt_Some. }
  unfold do_mbox_send. rewrite valid_mbox_of by done. change (negb true) with false. cbv iota zeta.
  rewrite Nat2Z.id, wp_bind, (wp_ok _ _ _ _ _ (on_box_ok _ _ _ _ (slot_ok _ _ _ Hm))).
  replace (upd_res (mb_res s) s) with s by by destruct s.
  rewrite (proj2 (Z.eqb_neq _ _)) by done. rewrite wp_bind, (wp_ok _ _ _ _ _ Hpin), wp_bind.
  destruct (enter_call NRecv NSend (mb_res s) Q i m V2 V1 Hrun Hm) as (r1 & Ha & HC & Hr1).
  erewrite wp_ok; [|apply on_box_ok; exact Ha].
  set (s2 := upd_res r1 (upd_vm v s)). set (l := mk_xfer 0 kva _).
  destruct (send_segment s2 Q i m msg (Z.of_nat (length xs)) l xs)
    as (r & s' & Q' & m' & Hsend & HI & Hm' & Ha' & [_ Hcur] & Hu' & Hends);
    [done|by rewrite Z.add_0_r|done|done|done|done|].
  rewrite (wp_ok _ _ _ _ _ Hsend). exists Q', m'. split; [done|]. split; [done|].
  assert (running_tcb s2 = running_tcb s) as Hrt.
  { unfold running_tcb, mb_sched. simpl. by rewrite Hr1. }
  split; [apply Ha'|]. split; [done|]. unfold send_ends in Hends. fold k in Hends.
  destruct (decide (k = length xs)); [done|]. destruct Hends as (-> & Hst & ws & Hq).
  rewrite Hrt in Hst, Hq. by exists (mk_xfer (0 + Z.of_nat k) kva (ROUNDDOWN msg PAGE_SIZE)), ws.
Qed.

(** [do_mbox_recv] into a buffer in one page, up to where it waits or
    returns: the first bytes that the mailbox holds are taken out and stored in
    order; the call returns the length when that is enough, and waits as the
    last receiver otherwise. *)
Theorem do_mbox_recv_spec s Q i m msg len :
  boxes_inv (mb_res s) Q → runs (mb_sched s) Q → mailboxes s !! i = Some m → user_count m ≠ 0 →
  wp (pin_page msg) s (λ _ _, True) → 0 ≤ len < PAGE_SIZE →
  let k := Nat.min (Z.to_nat len) (length (content m)) in
  wp (do_mbox_recv (Z.of_nat i) msg len) s (λ r s', ∃ Q' m',
    boxes_inv (mb_res s') Q' ∧ mailboxes s' !! i = Some m' ∧ content m' = drop k (content m) ∧
    bytes_at (mb_user s') msg (take k (content m)) ∧
    same_outside (mb_user s) (mb_user s') msg (Z.of_nat k) ∧
    if decide (Z.of_nat k = len) then r = Returned len
    else ∃ l ws, r = Blocked l ∧ x_done l = Z.of_nat k ∧
      status (pcbs (mb_sched s') (running_tcb s)) = TASK_BLOCKED ∧
      Q' !! NRecv i = Some (ws ++ [running_tcb s])).
Proof.
  intros [V1 V2] Hrun Hm Hu Hpin Hlen k. apply wp_iff in Hpin as (kva & s1 & Hpin & _).
  destruct (pin_page_frame _ _ _ _ Hpin) as [v ->].
  assert (i < MBOX_NUM)%nat as Hi.
  { rewrite <- (ri_len _ _ _ _ _ V1). by eapply lookup_lt_Some. }
  unfold do_mbox_recv. rewrite valid_mbox_of by done. change (negb true) with false. cbv iota zeta.
  rewrite Nat2Z.id, wp_bind, (wp_ok _ _ _ _ _ (on_box_ok _ _ _ _ (slot_ok _ _ _ Hm))).
  replace (upd_res (mb_res s) s) with s by by destruct s.
  rewrite (proj2 (Z.eqb_neq _ _)) by done. rewrite wp_bind, (wp_ok _ _ _ _ _ Hpin), wp_bind.
  destruct (enter_call NSend NRecv (mb_res s) Q i m V1 V2 Hrun Hm) as (r1 & Ha & HC & Hr1).
  erewrite wp_ok; [|apply on_box_ok; exact Ha].
  set (s2 := upd_res r1 (upd_vm v s)). set (l := mk_xfer 0 kva _).
  destruct (recv_segment s2 Q i m msg len l)
    as (r & s' & Q' & m' & Hrecv & HI & Hm' & Ha' & [_ Hcur] & Hb & Ho & Hends);
    [done|simpl; lia|lia|].
  change (x_done l) with 0 in *. rewrite Z.sub_0_r in *. rewrite Z.add_0_r in Hb, Ho.
  rewrite (wp_ok _ _ _ _ _ Hrecv). exists Q', m'. split; [done|]. split; [done|].
  assert (running_tcb s2 = running_tcb s) as Hrt.
  { unfold running_tcb, mb_sched. simpl. by rewrite Hr1. }
  split; [apply Ha'|]. split; [done|]. split; [done|]. unfold recv_ends in Hends. fold k in Hends.
  change (x_done l) with 0 in Hends. rewrite Z.add_0_l in Hends.
  destruct (decide (Z.of_nat k = len)); [done|]. destruct Hends as (-> & Hst & ws & Hq).
  rewrite Hrt in Hst, Hq. by exists (mk_xfer (Z.of_nat k) kva (ROUNDDOWN msg PAGE_SIZE)), ws.
Qed.

(** ** All that goes through a mailbox

    [traffic i s sent got]: after segments of [do_mbox_send] and [do_mbox_recv]
    on mailbox [i] by any processes, in any order, with anything in between
    that leaves the mailbox alone, [sent] was written and [got] was read. *)

(** The bytes a segment that began with [l] moved. *)
Definition moved (l : xfer) (r : mbox_result) : nat :=
  Z.to_nat (match r with Returned v => v | Blocked l' => x_done l' end - x_done l).

Definition resumed (i : nat) (loop : M (mbox_state (D := D)) mbox_result) : M mbox_state mbox_result :=
  on_box (spin_lock_acquire i);; loop.

Inductive traffic (i : nat) : mbox_state (D := D) → list Z → list Z → Prop :=
| tr_open s m : mailboxes s !! i = Some m → content m = [] → traffic i s [] []
| tr_other s s' sent got :
    traffic i s sent got → mailboxes s' !! i = mailboxes s !! i → traffic i s' sent got
| tr_send s s' sent got Q m data len l xs r :
    traffic i s sent got → boxes_inv (mb_res s) Q → runs (mb_sched s) Q →
    mailboxes s !! i = Some m → nwrite m + Z.of_nat (length xs) ≤ INT_MAX →
    bytes_at (mb_user s) (data + x_done l) xs → 0 ≤ x_done l →
    x_done l + Z.of_nat (length xs) = len → len < PAGE_SIZE →
    resumed i (send_loop i data len l) s = Ok r s' →
    traffic i s' (sent ++ take (moved l r) xs) got
| tr_recv s s' sent got Q m data len l ys r :
    traffic i s sent got → boxes_inv (mb_res s) Q → runs (mb_sched s) Q →
    mailboxes s !! i = Some m → 0 ≤ x_done l ≤ len → len < PAGE_SIZE →
    resumed i (recv_loop i data len l) s = Ok r s' →
    bytes_at (mb_user s') (data + x_done l) ys → length ys = moved l r →
    traffic i s' sent (got ++ ys).

Lemma bytes_at_det (u : bmem) p xs ys : bytes_at u p xs → bytes_at u p ys → length xs = length ys → xs = ys.
Proof.
  revert p ys. induction xs as [|x xs IH]; intros p [|y ys] Hx Hy Hl; simpl in *; try done.
  destruct Hx as [Hx Hxs], Hy as [Hy Hys]. f_equal; [congruence|]. eapply IH; [done|done|lia].
Qed.

End Segments.

(** ** Examples: every mailbox has one user and is empty; "ab" lies at address 10
    of the running process, whose page 0 is mapped. *)

Definition ex_root : Z := FREEMEM_KERNEL.
Definition ex_table (n : Z) : Z := FREEMEM_KERNEL + n * PAGE_SIZE.
Definition ex_map (a : Z) : Z :=
  if a =? ex_root then mk_pte (kva2pa (ex_table 1) / 4096) PAGE_PRESENT
  else if a =? ex_table 1 then mk_pte (kva2pa (ex_table 2) / 4096) PAGE_PRESENT
  else if a =? ex_table 2 then mk_pte (kva2pa (ex_table 3) / 4096) USER_PAGE_FLAGS
  else 0.
Definition ex_mb_vm : vm_state (D := Z → Z) :=
  mk_vm (mk_swap (mk_mm ex_map (ex_table 4) 0 0) (replicate 4 (mk_ap 0 0 0 0 0)) [] 0 0 0 (λ _, 0)) [].
Definition ex_mb_sched : sched_state :=
  mk_sched ex_heap (λ t, if decide (t = Proc 0)
    then mk_pcb 0 0 0 0 0 1 [] TASK_RUNNING 0 0 0 0 0 0 0 MASK_ALL 0 ex_root 0 else ex_pcbs t) (Proc 0) 0 100 5.
Definition ex_box : mailbox_t := mk_mbox UNLOCKED (replicate 64 0) [] 1 0 0.
Definition ex_mb : mbox_state (D := Z → Z) :=
  mk_mb (mk_res ex_mb_sched (replicate MBOX_NUM ex_box)) ex_mb_vm ex_bmem.

Lemma ex_mb_sched_inv : sched_inv ex_mb_sched ex_queues.
Proof.
  destruct ex_sched_inv as [? ? ? Hp Hst ? ? ?]. split; try done. intros hd xs t Hx Ht.
  simpl. rewrite decide_False; [by apply (Hst hd xs t)|]. intros ->.
  by apply (ex_not_queued (Proc 0)); [apply not_elem_ex|exists hd, xs].
Qed.

Lemma ex_boxes_inv : boxes_inv (mb_res ex_mb) ex_queues.
Proof.
  assert (mbox_ok ex_box) by (split; unfold INT_MAX; done).
  split; (split; [apply ex_mb_sched_inv|done|]); intros i m Hm;
    pose proof (lookup_lt_Some _ _ _ Hm) as Hi; apply lookup_replicate in Hm as [-> _];
    exists []; (split; [|done]); simpl in Hi;
    do 16 (destruct i as [|i]; [by vm_compute|]); exfalso; lia.
Qed.

Lemma ex_mb_runs : runs (mb_sched ex_mb) ex_queues.
Proof. by destruct ex_sched_runs. Qed.

Lemma ex_pin : wp (pin_page 10) ex_mb (λ _ _, True).
Proof. by vm_compute. Qed.

Lemma ex_ab_bytes : bytes_at (mb_user ex_mb) 10 [97; 98].
Proof. done. Qed.

Lemma do_mbox_send_spec_witness :
  wp (do_mbox_send 2 10 2) ex_mb (λ r s', r = Returned 2 ∧
    ∃ m', mailboxes s' !! 2%nat = Some m' ∧ content m' = [97; 98]).
Proof.
  eapply wp_mono.
  - apply (do_mbox_send_spec ex_mb ex_queues 2 ex_box 10 [97; 98] ex_boxes_inv ex_mb_runs eq_refl);
      [done|apply ex_pin|apply ex_ab_bytes|done|done].
  - intros r s' (Q' & m' & _ & Hm & Hc & _ & Hr). split; [exact Hr|]. by exists m'.
Defined.

Lemma do_mbox_recv_spec_witness :
  wp (do_mbox_recv 2 10 5) ex_mb (λ r s', status (pcbs (mb_sched s') (Proc 0)) = TASK_BLOCKED).
Proof.
  eapply wp_mono.
  - apply (do_mbox_recv_spec ex_mb ex_queues 2 ex_box 10 5 ex_boxes_inv ex_mb_runs eq_refl);
      [done|apply ex_pin|done].
  - intros r s' (Q' & m' & _ & _ & _ & _ & _ & l & ws & _ & _ & Hst & _). exact Hst.
Defined.

