(* ===== verification/Pipe.v ===== *)
(** kernel/pipe: pipes that move whole pages from one address space to another
    without copying.

    A call that waits leaves the function through [do_scheduler]; it is a
    sequence of rounds of its loop, and a round that blocks ends a segment
    with the local variables [pages_done] and [current_va]. *)
From S2P Require Import Prelude KMonad KList Pgtable MM PageTable Swap Shm Vm Sched Resource Mbox.

Definition PIPE_MAX_NUM : nat := 16.
Definition PIPE_BUFFER_SIZE : Z := 32.
Definition PIPE_NAME_LEN : nat := 32.

Record pipe_t := mk_pipe {
  pp_name : list Z;
  pp_valid : Z;
  page_buffer : list Z;
  pp_head : Z;
  pp_tail : Z;
  data_count : Z
}.

Definition set_pipe_ring (b : list Z) (h t c : Z) (p : pipe_t) : pipe_t :=
  mk_pipe (pp_name p) (pp_valid p) b h t c.

(** [pipe->page_buffer[pipe->head] = pa; pipe->head = (pipe->head + 1) % PIPE_BUFFER_SIZE; pipe->data_count++;] *)
Definition push_page (pa : Z) (p : pipe_t) : option pipe_t :=
  b ← arr_set (page_buffer p) (pp_head p) pa;
  Some (set_pipe_ring b (Z.rem (s32 (pp_head p + 1)) PIPE_BUFFER_SIZE) (pp_tail p) (s32 (data_count p + 1)) p).
Definition pop_page (p : pipe_t) : option (Z * pipe_t) :=
  pa ← arr_get (page_buffer p) (pp_tail p);
  Some (pa, set_pipe_ring (page_buffer p) (pp_head p) (Z.rem (s32 (pp_tail p + 1)) PIPE_BUFFER_SIZE)
              (s32 (data_count p - 1)) p).

Record pipe_xfer := mk_px { pages_done : Z; current_va : Z }.
Inductive pipe_result := PBlocked (l : pipe_xfer) | PReturned (v : Z).

Section Pipe.
Context {D : Type} `{!BlockDevice 64 D}.

Record pipe_state := mk_pstate {
  ps_sched : sched_state;
  ps_vm : vm_state (D := D);
  pipes : list pipe_t
}.
Definition ps_upd_sched (x : sched_state) (s : pipe_state) : pipe_state := mk_pstate x (ps_vm s) (pipes s).
Definition ps_upd_vm (v : vm_state) (s : pipe_state) : pipe_state := mk_pstate (ps_sched s) v (pipes s).
Definition ps_upd_pipes (l : list pipe_t) (s : pipe_state) : pipe_state := mk_pstate (ps_sched s) (ps_vm s) l.
Definition p_sched {A} (m : M sched_state A) : M pipe_state A := zoom ps_sched ps_upd_sched m.
Definition p_vm {A} (m : M vm_state A) : M pipe_state A := zoom ps_vm ps_upd_vm m.
Definition p_cur (s : pipe_state) : pcb_t := pcbs (ps_sched s) (current (ps_sched s)).

Definition the_pipe (i : nat) : M pipe_state pipe_t := s ← get; of_opt (pipes s !! i).
Definition set_pipe (i : nat) (f : pipe_t → pipe_t) : M pipe_state unit :=
  modify (λ s, ps_upd_pipes (alter f i (pipes s)) s).

Definition init_pipes : M pipe_state unit :=
  for_ 0 PIPE_MAX_NUM (λ i,
    set_pipe i (λ p, mk_pipe (pp_name p) 0 (page_buffer p) (pp_head p) (pp_tail p) (data_count p));;
    p_sched (q_init (NPipe i))).

(** [name] is the string at the argument; [strcpy] of one that does not fit
    would write over the field behind the name. *)
Definition sys_pipe_open (name : list Z) : M pipe_state Z :=
  s ← get;
  let pipe p i := match pipes s !! i with Some x => p x | None => false end in
  match scan_slots PIPE_MAX_NUM
          (pipe (λ x, negb (pp_valid x =? 0) && bool_decide (pp_name x = name)))
          (pipe (λ x, pp_valid x =? 0)) with
  | inl i => mret (Z.of_nat i)
  | inr (Some i) =>
      assert (bool_decide (length name ≤ PIPE_NAME_LEN)%nat);;
      set_pipe i (λ p, mk_pipe name 1 (page_buffer p) 0 0 0);;
      p_sched (q_init (NPipe i));;
      mret (Z.of_nat i)
  | inr None => mret (-1)
  end.

(** The tests at the entry of both calls. *)
Definition pipe_args_ok (s : pipe_state) (pipe_idx addr length : Z) : bool :=
  match arr_get (pipes s) pipe_idx with
  | Some p =>
      (pipe_idx <? Z.of_nat PIPE_MAX_NUM) && negb (pp_valid p =? 0) &&
      (addr mod PAGE_SIZE =? 0) && (length mod PAGE_SIZE =? 0)
  | None => false
  end.

(** Waiting: the process is queued directly, whether it was killed or not. *)
Definition pipe_wait (i : nat) : M pipe_state unit :=
  p_sched (
    s ← get;
    set_pcb (current s) (set_status TASK_BLOCKED);;
    q_enqueue (NList (current s)) (NPipe i)).

Definition pipe_wake (i : nat) : M pipe_state unit :=
  p_sched (
    empty ← q_empty (NPipe i);
    if (empty : bool) then mret () else wakeup (NPipe i)).

(** The physical page behind [current_va], taken out of the address space:
    [None] when the page may not be sent. *)
Definition take_out (va : Z) : M pipe_state (option Z) :=
  s ← get;
  match get_pte (vm_mem (ps_vm s)) va (pgdir_kva (p_cur s)) with
  | None => mret None
  | Some pte =>
      let e := vm_mem (ps_vm s) pte in
      if present e then
        if negb (Z.land e PAGE_SHM =? 0) then mret None else
        let pa := u64 (Z.shiftl (Z.shiftr e PAGE_PFN_SHIFT) NORMAL_PAGE_SHIFT) in
        p_vm (on_sw (remove_from_active_list (pa2kva pa)));;
        p_vm (on_vmm (write pte 0));;
        mret (Some pa)
      else if negb (Z.land e PAGE_SWAP =? 0) then
        let swap_id := s32 (Z.shiftr e PAGE_PFN_SHIFT) in
        kva ← p_vm (on_vmm (allocPage 1));
        p_vm (on_sw (swap_in kva swap_id));;
        p_vm (on_vmm (write pte 0));;
        mret (Some (kva2pa kva))
      else mret None
  end.

Definition next_page (l : pipe_xfer) : pipe_xfer :=
  mk_px (s32 (pages_done l + 1)) (u64 (current_va l + PAGE_SIZE)).

Definition give_step (i : nat) (pages_total length : Z) (l : pipe_xfer) : M pipe_state (pipe_xfer + pipe_result) :=
  if pages_done l <? pages_total then
    p ← the_pipe i;
    if PIPE_BUFFER_SIZE <=? data_count p then
      pipe_wait i;;
      mret (inr (PBlocked l))
    else
      o ← take_out (current_va l);
      match o with
      | None => mret (inr (PReturned (-1)))
      | Some pa =>
          p ← the_pipe i;
          p' ← of_opt (push_page pa p);
          set_pipe i (λ _, p');;
          pipe_wake i;;
          mret (inl (next_page l))
      end
  else mret (inr (PReturned length)).

Definition pipe_fuel (length : Z) : nat := S (Z.to_nat (length / PAGE_SIZE)).

(** A segment: from the entry of the loop, or from the return of
    [do_scheduler], to where the call waits or returns. *)
Definition give_loop (i : nat) (length : Z) (l : pipe_xfer) : M pipe_state pipe_result :=
  while_ (pipe_fuel length) (give_step i (s32 (length / PAGE_SIZE)) length) l.

Definition sys_pipe_give_pages (pipe_idx src length : Z) : M pipe_state pipe_result :=
  s ← get;
  if negb (pipe_args_ok s pipe_idx src length) then mret (PReturned (-1)) else
  give_loop (Z.to_nat pipe_idx) length (mk_px 0 src).

Definition PIPE_PAGE_FLAGS : Z :=
  Z.lor PAGE_READ (Z.lor PAGE_WRITE (Z.lor PAGE_EXEC PAGE_USER)).

Definition take_step (i : nat) (pages_total length : Z) (l : pipe_xfer) : M pipe_state (pipe_xfer + pipe_result) :=
  if pages_done l <? pages_total then
    p ← the_pipe i;
    if data_count p =? 0 then
      pipe_wait i;;
      mret (inr (PBlocked l))
    else
      r ← of_opt (pop_page p);
      set_pipe i (λ _, r.2);;
      s ← get;
      let pgdir := pgdir_kva (p_cur s) in
      p_vm (on_vmm (map_page (current_va l) r.1 pgdir PIPE_PAGE_FLAGS));;
      p_vm (on_sw (add_to_active_list pgdir r.1 (current_va l) (pid (p_cur s))));;
      pipe_wake i;;
      mret (inl (next_page l))
  else mret (inr (PReturned length)).

Definition take_loop (i : nat) (length : Z) (l : pipe_xfer) : M pipe_state pipe_result :=
  while_ (pipe_fuel length) (take_step i (s32 (length / PAGE_SIZE)) length) l.

Definition sys_pipe_take_pages (pipe_idx dst length : Z) : M pipe_state pipe_result :=
  s ← get;
  if negb (pipe_args_ok s pipe_idx dst length) then mret (PReturned (-1)) else
  take_loop (Z.to_nat pipe_idx) length (mk_px 0 dst).

(** ** The buffer as a sequence of pages *)

Definition slot_of (p : pipe_t) (k : nat) : Z := (pp_tail p + Z.of_nat k) mod PIPE_BUFFER_SIZE.
Definition in_transit (p : pipe_t) : list Z :=
  (λ k, default 0 (arr_get (page_buffer p) (slot_of p k))) <$> seq 0 (Z.to_nat (data_count p)).

Record pipe_ok (p : pipe_t) : Prop := {
  po_buf : length (page_buffer p) = 32%nat;
  po_tail : 0 ≤ pp_tail p < PIPE_BUFFER_SIZE;
  po_count : 0 ≤ data_count p ≤ PIPE_BUFFER_SIZE;
  po_head : pp_head p = (pp_tail p + data_count p) mod PIPE_BUFFER_SIZE
}.

Lemma next_slot x : 0 ≤ x < PIPE_BUFFER_SIZE → Z.rem (s32 (x + 1)) PIPE_BUFFER_SIZE = (x + 1) mod PIPE_BUFFER_SIZE.
Proof. unfold PIPE_BUFFER_SIZE. intros. rewrite s32_id by lia. apply Z.rem_mod_nonneg; lia. Qed.

Lemma push_page_ok pa p :
  pipe_ok p → data_count p < PIPE_BUFFER_SIZE →
  ∃ p', push_page pa p = Some p' ∧ pipe_ok p' ∧ in_transit p' = in_transit p ++ [pa] ∧
    pp_valid p' = pp_valid p ∧ pp_name p' = pp_name p.
Proof.
  intros [Hb Ht Hc Hh] Hlt. unfold PIPE_BUFFER_SIZE in *.
  assert (0 ≤ pp_head p < 32) as Hr by (rewrite Hh; apply Z.mod_pos_bound; lia).
  unfold push_page. rewrite arr_set_Some by lia. simpl. rewrite next_slot by done.
  rewrite s32_id by lia. eexists. split; [done|]. split; [|split; [|done]].
  - split; simpl; unfold PIPE_BUFFER_SIZE; [by rewrite length_insert|lia|lia|].
    rewrite Hh, Zplus_mod_idemp_l. f_equal. lia.
  - unfold in_transit. simpl. replace (Z.to_nat (data_count p + 1)) with (Z.to_nat (data_count p) + 1)%nat by lia.
    rewrite seq_app, fmap_app. simpl. f_equal.
    + apply list_fmap_ext. intros k j Hk. apply lookup_seq in Hk as [-> Hk]. unfold slot_of. simpl.
      rewrite arr_get_insert_ne; [done| |lia]. unfold PIPE_BUFFER_SIZE. rewrite Hh.
      Z.to_euclidean_division_equations. lia.
    + unfold slot_of. simpl. rewrite Z2Nat.id by lia. unfold PIPE_BUFFER_SIZE. rewrite <- Hh.
      by rewrite arr_get_insert_eq by lia.
Qed.

Lemma pop_page_ok pa c p :
  pipe_ok p → in_transit p = pa :: c →
  ∃ p', pop_page p = Some (pa, p') ∧ pipe_ok p' ∧ in_transit p' = c ∧
    pp_valid p' = pp_valid p ∧ pp_name p' = pp_name p.
Proof.
  intros [Hb Ht Hc Hh] Hp. unfold PIPE_BUFFER_SIZE in *.
  assert (0 < data_count p) as Hpos.
  { pose proof (f_equal length Hp) as Hl. unfold in_transit in Hl. rewrite length_fmap, length_seq in Hl. simpl in Hl. lia. }
  unfold in_transit in Hp. replace (Z.to_nat (data_count p)) with (S (Z.to_nat (data_count p - 1))) in Hp by lia.
  cbn [seq] in Hp. rewrite fmap_cons in Hp. apply (f_equal (λ l, (head l, tail l))) in Hp. simpl in Hp.
  injection Hp as Hpa Hp. unfold pop_page.
  destruct (arr_get_is_Some (page_buffer p) (pp_tail p)) as [x Hx]; [lia|].
  assert (slot_of p 0 = pp_tail p) as E0.
  { unfold slot_of, PIPE_BUFFER_SIZE. rewrite Z.add_0_r. apply Z.mod_small. lia. }
  rewrite E0, Hx in Hpa. simpl in Hpa. rewrite Hx, Hpa. simpl. rewrite next_slot by done. rewrite s32_id by lia.
  eexists. split; [done|]. split; [|split; [|done]].
  - split; simpl; unfold PIPE_BUFFER_SIZE; [done|apply Z.mod_pos_bound; lia|lia|].
    rewrite Hh, Zplus_mod_idemp_l. f_equal. lia.
  - rewrite <- Hp. unfold in_transit. simpl. rewrite <- fmap_S_seq, <- list_fmap_compose.
    apply list_fmap_ext. intros k j Hk. unfold slot_of. simpl. do 2 f_equal.
    unfold PIPE_BUFFER_SIZE. rewrite Zplus_mod_idemp_l. f_equal. lia.
Qed.

(** ** Rounds of the two loops *)

Record pipe_inv (s : pipe_state) (Q : gmap node (list tcb)) : Prop := {
  pi_sched : sched_inv (ps_sched s) Q;
  pi_len : length (pipes s) = PIPE_MAX_NUM;
  pi_pipe i p : pipes s !! i = Some p → pipe_ok p ∧ is_Some (Q !! NPipe i)
}.

(** Waking the processes at pipe [i], whether there are any or not. *)
Lemma pipe_wake_ok s Q i p :
  pipe_inv s Q → pipes s !! i = Some p →
  ∃ x Q' ws rs, pipe_wake i s = Ok () (ps_upd_sched x s) ∧ sched_inv x Q' ∧
    Q !! NPipe i = Some ws ∧ Q !! NReady = Some rs ∧
    Q' = <[NReady := rs ++ ws]> (<[NPipe i := []]> Q) ∧ current x = current (ps_sched s) ∧
    ∀ t, pgdir_kva (pcbs x t) = pgdir_kva (pcbs (ps_sched s) t).
Proof.
  intros HI Hp. destruct (pi_pipe _ _ HI i p Hp) as [_ [ws Hws]]. pose proof (pi_sched _ _ HI) as HS.
  destruct (sv_ready _ _ HS) as [rs Hrs].
  unfold pipe_wake, p_sched, zoom. rewrite (bind_ok _ _ _ _ _ (q_empty_ok _ _ _ _ (sv_linked _ _ HS) Hws)).
  destruct (decide (ws = [])) as [->|Hne].
  - rewrite bool_decide_true by done. exists (ps_sched s), Q, [], rs. split; [by destruct s|].
    do 3 (split; [done|]). split; [|done]. rewrite app_nil_r.
    rewrite (insert_id Q (NPipe i)) by done. by rewrite insert_id.
  - rewrite bool_decide_false by done.
    assert (∀ t, t ∈ ws → valid_tcb t) as Hv.
    { intros t Ht. apply is_proc_valid. by apply (sv_proc _ _ HS (NPipe i) ws). }
    destruct (wakeup_ok (ps_sched s) Q (NPipe i) ws rs (sv_linked _ _ HS)) as (h & -> & HL); [done..|].
    eexists _, _, ws, rs. split; [done|]. split; [|do 3 (split; [done|]); split; [done|]].
    + eapply sched_inv_wake; try done.
      * intros t Ht. split; [done|]. apply not_elem_of_nil.
      * intros t Ht. by apply not_elem_of_nil in Ht.
    + intros t. simpl. rewrite wake_pcbs_lookup. by case_decide.
Qed.

Lemma pipe_inv_wake s Q i p x Q' ws rs :
  pipe_inv s Q → pipes s !! i = Some p → sched_inv x Q' →
  Q' = <[NReady := rs ++ ws]> (<[NPipe i := []]> Q) → pipe_inv (ps_upd_sched x s) Q'.
Proof.
  intros HI Hp Hx HQ'. split; [done|apply HI|]. intros j q Hq. destruct (pi_pipe _ _ HI j q Hq) as [Hok [ys Hy]].
  split; [done|]. rewrite HQ', lookup_insert_ne by done. destruct (decide (NPipe i = NPipe j)) as [E|Hne].
  - rewrite E, lookup_insert_eq. by eexists.
  - rewrite lookup_insert_ne by done. by eexists.
Qed.

Lemma the_pipe_ok s i p : pipes s !! i = Some p → the_pipe i s = Ok p s.
Proof. intros Hp. unfold the_pipe. rewrite bind_get. unfold of_opt. by rewrite Hp. Qed.

Lemma set_pipe_ok s i p p' : pipes s !! i = Some p →
  set_pipe i (λ _, p') s = Ok () (ps_upd_pipes (<[i := p']> (pipes s)) s).
Proof. intros Hp. unfold set_pipe, modify. by rewrite (list_alter_insert _ _ _ p). Qed.

Lemma pipe_inv_set s Q i p p' v :
  pipe_inv s Q → pipes s !! i = Some p → pipe_ok p' →
  pipe_inv (ps_upd_pipes (<[i := p']> (pipes s)) (ps_upd_vm v s)) Q.
Proof.
  intros HI Hp Hok. split; [apply HI| |].
  - simpl. rewrite length_insert. apply HI.
  - intros j q. simpl. destruct (decide (j = i)) as [->|Hne].
    + rewrite list_lookup_insert_eq by by eapply lookup_lt_Some. intros [= <-].
      split; [done|]. by destruct (pi_pipe _ _ HI i p Hp).
    + rewrite list_lookup_insert_ne by done. apply HI.
Qed.

(** The physical address a present entry points to. *)
Definition frame_of (e : Z) : Z := u64 (Z.shiftl (Z.shiftr e PAGE_PFN_SHIFT) NORMAL_PAGE_SHIFT).

Lemma take_out_present s a va :
  get_pte (vm_mem (ps_vm s)) va (pgdir_kva (p_cur s)) = Some a →
  let e := vm_mem (ps_vm s) a in
  present e = true → Z.land e PAGE_SHM = 0 →
  wp (remove_from_active_list (pa2kva (frame_of e))) (vm_sw (ps_vm s)) (λ _ _, True) →
  ∃ v, take_out va s = Ok (Some (frame_of e)) (ps_upd_vm v s) ∧
    vm_mem v = store (vm_mem (ps_vm s)) a 0.
Proof.
  intros Hg e Hp Hshm Hr. apply wp_iff in Hr as ([] & w & Hr & _).
  unfold take_out. rewrite bind_get, Hg. cbv zeta. fold e. rewrite Hp, Hshm. simpl negb. cbv iota.
  fold (frame_of e).
  assert (p_vm (on_sw (remove_from_active_list (pa2kva (frame_of e)))) s
    = Ok () (ps_upd_vm (vm_upd_sw w (ps_vm s)) s)) as Hr1.
  { unfold p_vm, on_sw, zoom. by rewrite Hr. }
  change (negb (0 =? 0)) with false. cbv iota. rewrite (bind_ok _ _ _ _ _ Hr1). eexists. split; [done|].
  unfold vm_mem, vm_mm. simpl. by rewrite (remove_from_active_list_mm _ _ _ Hr).
Qed.

Lemma give_step_ok s Q i p pages_total length l a :
  pipe_inv s Q → pipes s !! i = Some p → data_count p < PIPE_BUFFER_SIZE →
  pages_done l < pages_total →
  get_pte (vm_mem (ps_vm s)) (current_va l) (pgdir_kva (p_cur s)) = Some a →
  let e := vm_mem (ps_vm s) a in
  present e = true → Z.land e PAGE_SHM = 0 →
  wp (remove_from_active_list (pa2kva (frame_of e))) (vm_sw (ps_vm s)) (λ _ _, True) →
  wp (give_step i pages_total length l) s (λ r s', r = inl (next_page l) ∧ ∃ Q' p',
    pipe_inv s' Q' ∧ pipes s' !! i = Some p' ∧ in_transit p' = in_transit p ++ [frame_of e] ∧
    vm_mem (ps_vm s') = store (vm_mem (ps_vm s)) a 0 ∧ Q' !! NPipe i = Some []).
Proof.
  intros HI Hp Hroom Hd Hg e Hpres Hshm Hr. destruct (pi_pipe _ _ HI i p Hp) as [Hok _].
  destruct (take_out_present s a (current_va l) Hg Hpres Hshm Hr) as (v & Ht & Hv).
  destruct (push_page_ok (frame_of e) p Hok Hroom) as (p' & Hpush & Hok' & Hin & _).
  unfold give_step. rewrite (proj2 (Z.ltb_lt _ _)) by done.
  rewrite wp_bind, (wp_ok _ _ _ _ _ (the_pipe_ok _ _ _ Hp)), (proj2 (Z.leb_gt _ _)) by done.
  rewrite wp_bind, (wp_ok _ _ _ _ _ Ht), wp_bind.
  set (s1 := ps_upd_vm v s). assert (pipes s1 !! i = Some p) as Hp1 by done.
  rewrite (wp_ok _ _ _ _ _ (the_pipe_ok _ _ _ Hp1)), wp_bind, wp_of_opt. exists p'. split; [done|].
  rewrite wp_bind. rewrite (wp_ok _ _ _ _ _ (set_pipe_ok _ _ _ p' Hp1)).
  pose proof (pipe_inv_set s Q i p p' v HI Hp Hok') as HI2. fold s1 in HI2.
  set (s2 := ps_upd_pipes _ s1) in *. change (pipes s) with (pipes s1) in HI2.
  assert (pipes s2 !! i = Some p') as Hp2 by (apply list_lookup_insert_eq; by eapply lookup_lt_Some).
  destruct (pipe_wake_ok s2 Q i p' HI2 Hp2) as (x & Q' & ws & rs & Hw & HX & Hws & Hrs & HQ' & _).
  rewrite wp_bind, (wp_ok _ _ _ _ _ Hw), wp_ret. split; [done|]. exists Q', p'.
  split; [by eapply pipe_inv_wake|]. split; [done|]. split; [done|]. split; [done|].
  rewrite HQ', lookup_insert_ne by done. apply lookup_insert_eq.
Qed.

(** C15: One round of [sys_pipe_give_pages] with room in the pipe and a present
    private page at the current address: the page's frame goes to the end of
    the pipe, the page leaves the sender's address space (its entry becomes 0
    and nothing else in memory changes, the page's contents stay in place),
    everyone waiting at the pipe is woken up, and the next page is next. *)
Theorem give_page_spec s Q i p pages_total length l a :
  pipe_inv s Q → pipes s !! i = Some p → data_count p < PIPE_BUFFER_SIZE →
  pages_done l < pages_total →
  get_pte (vm_mem (ps_vm s)) (current_va l) (pgdir_kva (p_cur s)) = Some a →
  let e := vm_mem (ps_vm s) a in
  present e = true → Z.land e PAGE_SHM = 0 →
  wp (remove_from_active_list (pa2kva (frame_of e))) (vm_sw (ps_vm s)) (λ _ _, True) →
  wp (give_step i pages_total length l) s (λ r s', r = inl (next_page l) ∧ ∃ Q' p',
    pipe_inv s' Q' ∧ pipes s' !! i = Some p' ∧ in_transit p' = in_transit p ++ [frame_of e] ∧
    vm_mem (ps_vm s') = store (vm_mem (ps_vm s)) a 0 ∧ Q' !! NPipe i = Some []).
Proof. apply give_step_ok. Qed.

(** C16: One round of [sys_pipe_take_pages] with a page in the pipe: the oldest
    frame leaves the pipe and is mapped at the current address as an ordinary
    private page; every data page, this one too, keeps its contents. *)
Theorem take_page_spec s Q i p pages_total length l pa c A T :
  pipe_inv s Q → pipes s !! i = Some p → in_transit p = pa :: c →
  pages_done l < pages_total → user_va (current_va l) → 0 ≤ pa < 2 ^ 64 →
  let root := pgdir_kva (p_cur s) in
  as_inv (vm_mm (ps_vm s)) A root T → room (vm_mm (ps_vm s)) 2 →
  active_page_count (vm_sw (ps_vm s)) < Z.of_nat MAX_ALLOWABLE_PAGES →
  Datatypes.length (active_pages (vm_sw (ps_vm s))) = MAX_ALLOWABLE_PAGES →
  wp (take_step i pages_total length l) s (λ r s', r = inl (next_page l) ∧ ∃ Q' p' A' T',
    pipe_inv s' Q' ∧ pipes s' !! i = Some p' ∧ in_transit p' = c ∧
    as_inv (vm_mm (ps_vm s')) A' root T' ∧
    grows 2 (λ va', ¬ same_page (current_va l) va') root (vm_mm (ps_vm s)) (vm_mm (ps_vm s')) A A' T T' ∧
    pte_of (vm_mem (ps_vm s')) root (current_va l) = mk_pte (pa / 2 ^ 12)
      (Z.lor PIPE_PAGE_FLAGS (Z.lor PAGE_PRESENT (Z.lor PAGE_ACCESSED PAGE_DIRTY)))).
Proof.
  intros HI Hp Hc Hd Hva Hpa root Has Hroom Hcount Hlen. destruct (pi_pipe _ _ HI i p Hp) as [Hok _].
  destruct (pop_page_ok pa c p Hok Hc) as (p' & Hpop & Hok' & Hin & _).
  unfold take_step. rewrite (proj2 (Z.ltb_lt _ _)) by done.
  rewrite wp_bind, (wp_ok _ _ _ _ _ (the_pipe_ok _ _ _ Hp)).
  assert (data_count p ≠ 0) as Hne by (intros E; unfold in_transit in Hc; by rewrite E in Hc).
  rewrite (proj2 (Z.eqb_neq _ _)) by done. rewrite wp_bind, wp_of_opt. exists (pa, p'). split; [done|].
  rewrite wp_bind. rewrite (wp_ok _ _ _ _ _ (set_pipe_ok _ _ _ p' Hp)), wp_bind, wp_get. simpl fst. simpl snd.
  set (s1 := ps_upd_pipes _ s). change (p_cur s1) with (p_cur s). fold root.
  rewrite wp_bind. unfold p_vm at 1, on_vmm. rewrite !wp_zoom.
  eapply wp_mono; [eapply (map_page_ok (vm_mm (ps_vm s)) A root T); try done|].
  intros [] m (A' & T' & Has' & Hg & Hpte). cbv beta.
  set (v1 := vm_upd_mm m (ps_vm s)). change (vm_upd_mm m (ps_vm s1)) with v1.
  set (e := mk_pte _ _) in Hpte.
  assert (∃ q, get_pte (swap_mem (vm_sw v1)) (current_va l) root = Some q) as [q Hq].
  { change (swap_mem (vm_sw v1)) with (mm_mem m). unfold pte_of in Hpte.
    destruct (get_pte _ _ _) as [q|]; [by exists q|]. exfalso.
    assert (present e = true) as Hpr.
    { unfold e. rewrite present_mk_pte; [done|]. vm_compute. done. }
    rewrite <- Hpte in Hpr. done. }
  destruct (add_to_active_list_room (vm_sw v1) root pa (current_va l) (pid (p_cur s)) q)
    as (w & Hadd & Hw); [done|done|done|].
  rewrite wp_bind. unfold p_vm, on_sw. rewrite !wp_zoom, (wp_ok _ _ _ _ _ Hadd), wp_bind.
  set (v2 := vm_upd_sw w v1). set (s2 := ps_upd_vm _ _).
  assert (vm_mm v2 = m) as Hmm by (unfold vm_mm; simpl; by rewrite Hw).
  assert (pipe_inv s2 Q) as HI2 by (by apply (pipe_inv_set s Q i p p' v2)).
  assert (pipes s2 !! i = Some p') as Hp2 by (apply list_lookup_insert_eq; by eapply lookup_lt_Some).
  destruct (pipe_wake_ok s2 Q i p' HI2 Hp2) as (x & Q' & ws & rs & Hwk & HX & Hws & Hrs & HQ' & _).
  rewrite (wp_ok _ _ _ _ _ Hwk), wp_ret. split; [done|]. exists Q', p', A', T'.
  split; [by eapply pipe_inv_wake|]. split; [done|]. split; [done|].
  change (ps_vm (ps_upd_sched x s2)) with v2. rewrite Hmm. split; [done|]. split; [done|].
  unfold vm_mem. by rewrite Hmm.
Qed.
End Pipe.

(** ** Examples: the process of Mbox gives its page 0, which lies at the frame of
    [ex_table 3]; and takes a frame into an empty address space. *)

Definition ex_pipe (fs : list Z) : pipe_t :=
  mk_pipe [] 1 (fs ++ replicate (32 - length fs) 0) (Z.of_nat (length fs)) 0 (Z.of_nat (length fs)).
Definition ex_pipes (vm : vm_state (D := Z → Z)) (fs : list Z) : pipe_state :=
  mk_pstate ex_mb_sched vm (replicate PIPE_MAX_NUM (ex_pipe fs)).

Lemma ex_pipe_inv vm fs : fs = [] ∨ fs = [0x52000000] → pipe_inv (ex_pipes vm fs) ex_queues.
Proof.
  intros Hfs. split; [apply ex_mb_sched_inv|done|]. intros i p Hp.
  pose proof (lookup_lt_Some _ _ _ Hp) as Hi. apply lookup_replicate in Hp as [-> _].
  split; [by destruct Hfs as [-> | ->]|]. simpl in Hi. exists [].
  do 16 (destruct i as [|i]; [by vm_compute|]). exfalso. lia.
Qed.

Lemma give_page_spec_witness :
  wp (give_step 3 1 4096 (mk_px 0 0)) (ex_pipes ex_mb_vm []) (λ _ s', ∃ p',
    pipes s' !! 3%nat = Some p' ∧ in_transit p' = [kva2pa (ex_table 3)]).
Proof.
  eapply wp_mono.
  - apply (give_page_spec (ex_pipes ex_mb_vm []) ex_queues 3 (ex_pipe []) 1 4096 (mk_px 0 0) (ex_table 2));
      [apply ex_pipe_inv; by left|done|done|done|by vm_compute|by vm_compute|by vm_compute|by vm_compute].
  - intros r s' (_ & Q' & p' & _ & Hp & Hc & _). exists p'. split; [done|]. rewrite Hc. by vm_compute.
Defined.

Definition ex_take_vm : vm_state (D := Z → Z) :=
  mk_vm (mk_swap mm_one (replicate 4 (mk_ap 0 0 0 0 0)) [] 0 0 0 (λ _, 0)) [].

Lemma take_page_spec_witness :
  wp (take_step 3 1 4096 (mk_px 0 0x10000)) (ex_pipes ex_take_vm [0x52000000]) (λ _ s',
    pte_of (vm_mem (ps_vm s')) ex_root 0x10000 = mk_pte 0x52000 0xdf).
Proof.
  eapply wp_mono.
  - apply (take_page_spec (ex_pipes ex_take_vm [0x52000000]) ex_queues 3 (ex_pipe [0x52000000]) 1 4096
      (mk_px 0 0x10000) 0x52000000 [] {[FREEMEM_KERNEL]} empty_as);
      [apply ex_pipe_inv; by right|done|by vm_compute|done|by vm_compute|done|exact as_inv_one|by vm_compute|done|done].
  - intros r s' (_ & Q' & p' & A & T & _ & _ & _ & _ & _ & Hp). exact Hp.
Defined.
