(* ===== verification/Smp.v ===== *)
(** kernel/smp/smp.c: the recursive big kernel lock, one memory access of one
    core at a time.

    A core is in some phase of [lock_kernel] or [unlock_kernel], outside of the
    kernel, or inside it; [In d] also records how deeply its calls of
    [lock_kernel] are nested, which the code itself does not look at. *)
From S2P Require Import Prelude KMonad KList Sched Resource.

Inductive phase :=
| Out          (* does not hold the lock *)
| Spinning     (* lock_kernel: spin_lock_acquire *)
| Acquired     (* lock_kernel: before [bkl_owner = cpuid] *)
| Owned        (* lock_kernel: before [bkl_depth = 1] *)
| In (d : Z)   (* holds the lock *)
| Leaving      (* unlock_kernel: before [bkl_owner = -1] *)
| Releasing.   (* unlock_kernel: before spin_lock_release *)

Record smp_state := mk_smp {
  kernel_lock : lock_status_t;
  bkl_owner : Z;
  bkl_depth : Z;
  phases : nat → phase
}.

Definition set_phase (c : nat) (p : phase) (s : smp_state) : smp_state :=
  mk_smp (kernel_lock s) (bkl_owner s) (bkl_depth s) (λ c', if decide (c' = c) then p else phases s c').
Definition set_klock (v : lock_status_t) (s : smp_state) : smp_state :=
  mk_smp v (bkl_owner s) (bkl_depth s) (phases s).
Definition set_bkl_owner (v : Z) (s : smp_state) : smp_state :=
  mk_smp (kernel_lock s) v (bkl_depth s) (phases s).
Definition set_bkl_depth (v : Z) (s : smp_state) : smp_state :=
  mk_smp (kernel_lock s) (bkl_owner s) v (phases s).

(** What core [c] may do next: call one of the two functions (when it is in
    none of them), or go on in the one it is in. *)
Inductive action := CallLock | CallUnlock | GoOn.

(** [lock_kernel] up to the first write to shared memory. *)
Definition lock_kernel (c : nat) (s : smp_state) : option smp_state :=
  match phases s c with
  | Out =>
      if bkl_owner s =? Z.of_nat c then Some (set_phase c (In 1) (set_bkl_depth (s32 (bkl_depth s + 1)) s))
      else Some (set_phase c Spinning s)
  | In d =>
      if bkl_owner s =? Z.of_nat c then Some (set_phase c (In (d + 1)) (set_bkl_depth (s32 (bkl_depth s + 1)) s))
      else Some (set_phase c Spinning s)
  | _ => None
  end.

Definition unlock_kernel (c : nat) (s : smp_state) : option smp_state :=
  match phases s c with
  | Out | In _ =>
      if bkl_owner s =? Z.of_nat c then
        let depth := s32 (bkl_depth s - 1) in
        let s := set_bkl_depth depth s in
        if depth =? 0 then Some (set_phase c Leaving s)
        else Some (set_phase c (In (match phases s c with In d => d - 1 | _ => 0 end)) s)
      else Some s
  | _ => None
  end.

Definition go_on (c : nat) (s : smp_state) : option smp_state :=
  match phases s c with
  | Spinning =>
      let '(st, ok) := spin_lock_try_acquire (kernel_lock s) in
      let s := set_klock st s in
      Some (if ok then set_phase c Acquired s else s)
  | Acquired => Some (set_phase c Owned (set_bkl_owner (Z.of_nat c) s))
  | Owned => Some (set_phase c (In 1) (set_bkl_depth 1 s))
  | Leaving => Some (set_phase c Releasing (set_bkl_owner (-1) s))
  | Releasing => Some (set_phase c Out (set_klock UNLOCKED s))
  | Out | In _ => None
  end.

Definition core_step (c : nat) (a : action) : smp_state → option smp_state :=
  match a with CallLock => lock_kernel c | CallUnlock => unlock_kernel c | GoOn => go_on c end.

(** Any interleaving of the cores' accesses. *)
Inductive reachable : smp_state → Prop :=
| r_init : reachable (mk_smp UNLOCKED (-1) 0 (λ _, Out))
| r_step s s' c a : reachable s → core_step c a s = Some s' →
    (* no more than 2^31 - 1 nested calls *)
    bkl_depth s < INT_MAX → reachable s'.

(** ** The invariant *)

(** A core that has taken the spin lock and not released it yet. *)
Definition holds (p : phase) : bool :=
  match p with Out | Spinning => false | _ => true end.

Definition no_owner (s : smp_state) : Prop := ∀ c : nat, bkl_owner s ≠ Z.of_nat c.

Definition phase_ok (s : smp_state) (c : nat) : Prop :=
  match phases s c with
  | Out | Spinning => bkl_owner s ≠ Z.of_nat c
  | Acquired | Releasing => no_owner s
  | Owned => bkl_owner s = Z.of_nat c
  | In d => bkl_owner s = Z.of_nat c ∧ bkl_depth s = d ∧ 1 ≤ d ≤ INT_MAX
  | Leaving => bkl_owner s = Z.of_nat c ∧ bkl_depth s = 0
  end.

Record bkl_inv (s : smp_state) : Prop := {
  bi_phase c : phase_ok s c;
  bi_unique c c' : holds (phases s c) = true → holds (phases s c') = true → c = c';
  bi_free : kernel_lock s = UNLOCKED → ∀ c, holds (phases s c) = false;
  bi_depth : bkl_depth s ≤ INT_MAX
}.

(** A step of core [c] to phase [p] that keeps what the other cores look at. *)
Lemma bkl_inv_step s s' c :
  bkl_inv s → (∀ c', c' ≠ c → phases s' c' = phases s c') →
  phase_ok s' c →
  (* the others rely on the owner, and on the depth while they hold the lock *)
  (∀ c', c' ≠ c → phase_ok s c' → phase_ok s' c') →
  (holds (phases s' c) = true → ∀ c', c' ≠ c → holds (phases s c') = false) →
  (kernel_lock s' = UNLOCKED → ∀ c', holds (phases s' c') = false) →
  bkl_depth s' ≤ INT_MAX → bkl_inv s'.
Proof.
  intros HI Hph Hok Hoth Huniq Hfree Hdep. split; [|intros a b Ha Hb|done|done].
  - intros a. destruct (decide (a = c)) as [->|Hne]; [done|]. apply Hoth; [done|apply HI].
  - destruct (decide (a = c)) as [->|Hac], (decide (b = c)) as [->|Hbc]; [done| | |].
    + rewrite (Hph b) in Hb by done. rewrite (Huniq Ha b) in Hb by done. done.
    + rewrite (Hph a) in Ha by done. rewrite (Huniq Hb a) in Ha by done. done.
    + rewrite (Hph a) in Ha by done. rewrite (Hph b) in Hb by done. by apply (bi_unique _ HI).
Qed.

Lemma set_phase_same c p s : phases (set_phase c p s) c = p.
Proof. simpl. by rewrite decide_True. Qed.
Lemma set_phase_other c p s c' : c' ≠ c → phases (set_phase c p s) c' = phases s c'.
Proof. intros. simpl. by rewrite decide_False. Qed.

(** With [c] holding the lock, the others are outside. *)
Lemma others_out s c c' : bkl_inv s → holds (phases s c) = true → c' ≠ c → holds (phases s c') = false.
Proof.
  intros HI Hc Hne. destruct (holds (phases s c')) eqn:E; [|done].
  by destruct Hne; apply (bi_unique _ HI).
Qed.

Lemma phase_ok_out s s' c : holds (phases s c) = false → phases s' c = phases s c →
  bkl_owner s' ≠ Z.of_nat c → phase_ok s' c.
Proof. unfold phase_ok. intros Hh -> Ho. by destruct (phases s c). Qed.

Lemma holds_locked s c : bkl_inv s → holds (phases s c) = true → kernel_lock s = LOCKED.
Proof.
  intros HI Hc. destruct (kernel_lock s) eqn:E; [|done]. by rewrite (bi_free _ HI E) in Hc.
Qed.

(** A step of the core that holds the lock. *)
Lemma bkl_inv_holder s s' c :
  bkl_inv s → holds (phases s c) = true → (∀ c', c' ≠ c → phases s' c' = phases s c') →
  phase_ok s' c → (∀ c', c' ≠ c → bkl_owner s' ≠ Z.of_nat c') →
  (kernel_lock s' = UNLOCKED → holds (phases s' c) = false) →
  bkl_depth s' ≤ INT_MAX → bkl_inv s'.
Proof.
  intros HI Hc Hph Hok Hown Hfree Hdep. eapply bkl_inv_step; try done.
  - intros c' Hne _. eapply phase_ok_out; [by eapply others_out|by apply Hph|by apply Hown].
  - intros _ c' Hne. by eapply others_out.
  - intros Hu c'. destruct (decide (c' = c)) as [->|Hne]; [by apply Hfree|].
    rewrite Hph by done. by eapply others_out.
Qed.

Lemma free_no_owner s : bkl_inv s → (∀ c, holds (phases s c) = false) → no_owner s.
Proof.
  intros HI Hf c. pose proof (bi_phase _ HI c) as Hok. specialize (Hf c). unfold phase_ok in Hok.
  by destruct (phases s c).
Qed.

Ltac other_cores := intros c' Hne; simpl; by rewrite decide_False.

Lemma owner_ne s c c' : bkl_owner s = Z.of_nat c → c' ≠ c → bkl_owner s ≠ Z.of_nat c'.
Proof. lia. Qed.

Lemma lock_kernel_inv s s' c :
  bkl_inv s → bkl_depth s < INT_MAX → lock_kernel c s = Some s' → bkl_inv s'.
Proof.
  intros HI Hd Hs. pose proof (bi_phase _ HI c) as Hok. unfold phase_ok in Hok. unfold lock_kernel in Hs.
  destruct (phases s c) as [| | | |d| |] eqn:Hp; try done.
  - rewrite (proj2 (Z.eqb_neq _ _)) in Hs by done. injection Hs as <-.
    eapply (bkl_inv_step _ _ c HI).
    + other_cores.
    + unfold phase_ok. rewrite set_phase_same. done.
    + intros c' Hne. unfold phase_ok. by rewrite set_phase_other.
    + rewrite set_phase_same. done.
    + intros Hu c'. destruct (decide (c' = c)) as [->|Hne]; [by rewrite set_phase_same|].
      rewrite set_phase_other by done. by apply (bi_free _ HI).
    + apply HI.
  - destruct Hok as (Ho & Hdep & Hr). rewrite Ho, Z.eqb_refl in Hs. injection Hs as <-.
    unfold INT_MAX in *.
    assert (holds (phases s c) = true) as Hh by by rewrite Hp.
    eapply (bkl_inv_holder _ _ c HI Hh).
    + other_cores.
    + unfold phase_ok. rewrite set_phase_same. simpl. rewrite s32_id by lia. unfold INT_MAX. lia.
    + intros c' Hne. simpl. by eapply owner_ne.
    + simpl. by rewrite (holds_locked _ _ HI Hh).
    + simpl. rewrite s32_id by lia. unfold INT_MAX. lia.
Qed.

Lemma unlock_kernel_inv s s' c : bkl_inv s → unlock_kernel c s = Some s' → bkl_inv s'.
Proof.
  intros HI Hs. pose proof (bi_phase _ HI c) as Hok. unfold phase_ok in Hok. unfold unlock_kernel in Hs.
  destruct (phases s c) as [| | | |d| |] eqn:Hp; try done.
  - rewrite (proj2 (Z.eqb_neq _ _)) in Hs by done. by injection Hs as <-.
  - destruct Hok as (Ho & Hdep & Hr). rewrite Ho, Z.eqb_refl in Hs. unfold INT_MAX in *.
    assert (holds (phases s c) = true) as Hh by by rewrite Hp.
    rewrite s32_id in Hs by lia. cbv zeta in Hs. simpl phases in Hs. rewrite Hp in Hs.
    destruct (Z.eqb_spec (bkl_depth s - 1) 0) as [E|E]; injection Hs as <-;
      apply (bkl_inv_holder _ _ c HI Hh); try other_cores;
      try (intros c' Hne; simpl; by eapply owner_ne);
      try (simpl; by rewrite (holds_locked _ _ HI Hh));
      try (simpl; unfold INT_MAX; lia);
      unfold phase_ok; rewrite set_phase_same; simpl; unfold INT_MAX; lia.
Qed.

Lemma go_on_inv s s' c : bkl_inv s → go_on c s = Some s' → bkl_inv s'.
Proof.
  intros HI Hs. pose proof (bi_phase _ HI c) as Hok. unfold phase_ok in Hok. unfold go_on in Hs.
  destruct (phases s c) as [| | | |d| |] eqn:Hp; try done.
  - unfold spin_lock_try_acquire in Hs. cbv zeta beta iota in Hs. injection Hs as <-.
    destruct (kernel_lock s) eqn:Hl.
    + pose proof (bi_free _ HI Hl) as Hfree.
      rewrite bool_decide_true by done. eapply (bkl_inv_step _ _ c HI).
      * other_cores.
      * unfold phase_ok. rewrite set_phase_same. exact (free_no_owner s HI Hfree).
      * intros c' Hne. unfold phase_ok. by rewrite set_phase_other.
      * intros _ c' _. apply Hfree.
      * done.
      * apply HI.
    + rewrite bool_decide_false by done.
      replace (set_klock LOCKED s) with s by (destruct s; simpl in *; by subst). done.
  - injection Hs as <-. assert (holds (phases s c) = true) as Hh by by rewrite Hp.
    eapply (bkl_inv_holder _ _ c HI Hh); [other_cores| | | |apply HI].
    + unfold phase_ok. rewrite set_phase_same. try (intros c'); simpl; lia.
    + intros c' Hne. simpl. lia.
    + simpl. by rewrite (holds_locked _ _ HI Hh).
  - injection Hs as <-. assert (holds (phases s c) = true) as Hh by by rewrite Hp.
    eapply (bkl_inv_holder _ _ c HI Hh); [other_cores| | | |done].
    + unfold phase_ok. rewrite set_phase_same. done.
    + intros c' Hne. simpl. by eapply owner_ne.
    + simpl. by rewrite (holds_locked _ _ HI Hh).
  - injection Hs as <-. assert (holds (phases s c) = true) as Hh by by rewrite Hp.
    eapply (bkl_inv_holder _ _ c HI Hh); [other_cores| | | |apply HI].
    + unfold phase_ok. rewrite set_phase_same. try (intros c'); simpl; lia.
    + intros c' Hne. simpl. lia.
    + simpl. by rewrite (holds_locked _ _ HI Hh).
  - injection Hs as <-. assert (holds (phases s c) = true) as Hh by by rewrite Hp.
    eapply (bkl_inv_holder _ _ c HI Hh); [other_cores| | | |apply HI].
    + unfold phase_ok. rewrite set_phase_same. exact (Hok c).
    + intros c' Hne. apply Hok.
    + intros _. by rewrite set_phase_same.
Qed.

Lemma reachable_inv s : reachable s → bkl_inv s.
Proof.
  induction 1 as [|s s' c a _ IH Hs Hd].
  - split; try done. intros c. unfold phase_ok. simpl. lia.
  - destruct a; simpl in Hs; [by eapply lock_kernel_inv|by eapply unlock_kernel_inv|by eapply go_on_inv].
Qed.

(** C17: However the cores' accesses interleave, at most one core is between the
    end of its [lock_kernel] and the start of its last [unlock_kernel]; while
    it is, the spin lock is taken, the core is the recorded owner, and the
    recorded depth is the depth of its nested calls. *)
Theorem bkl_mutual_exclusion s c d :
  reachable s → phases s c = In d →
  kernel_lock s = LOCKED ∧ bkl_owner s = Z.of_nat c ∧ bkl_depth s = d ∧ 1 ≤ d ∧
  ∀ c' d', phases s c' = In d' → c' = c.
Proof.
  intros HI%reachable_inv Hc. pose proof (bi_phase _ HI c) as Hok. unfold phase_ok in Hok. rewrite Hc in Hok.
  destruct Hok as (? & ? & ?). split; [by eapply holds_locked; [|by rewrite Hc]|].
  split; [done|]. split; [done|]. split; [lia|]. intros c' d' Hc'.
  apply (bi_unique _ HI); by rewrite ?Hc, ?Hc'.
Qed.

(** An example: core 1 takes the lock twice while core 0 spins. *)
Fixpoint run (l : list (nat * action)) (s : smp_state) : option smp_state :=
  match l with
  | [] => Some s
  | (c, a) :: l' => if bkl_depth s <? INT_MAX then s' ← core_step c a s; run l' s' else None
  end.

Lemma run_reachable l s s' : reachable s → run l s = Some s' → reachable s'.
Proof.
  revert s. induction l as [|[c a] l IH]; intros s Hr; simpl; [by intros [= <-]|].
  destruct (Z.ltb_spec (bkl_depth s) INT_MAX); [|done].
  destruct (core_step c a s) as [s1|] eqn:Hs; [|done]. simpl. apply IH. by eapply r_step.
Qed.

Definition ex_trace : list (nat * action) :=
  [(1, CallLock); (0, CallLock); (1, GoOn); (0, GoOn); (1, GoOn); (1, GoOn); (1, CallLock)]%nat.

Lemma bkl_mutual_exclusion_witness :
  ∃ s, reachable s ∧ phases s 1 = In 2 ∧ bkl_depth s = 2 ∧ kernel_lock s = LOCKED.
Proof.
  assert (∃ s, reachable s ∧ phases s 1 = In 2) as (s & Hr & Hp).
  { eexists. split; [apply (run_reachable ex_trace _ _ r_init); reflexivity|reflexivity]. }
  destruct (bkl_mutual_exclusion s 1 2 Hr Hp) as (? & _ & ? & _). by exists s.
Defined.
