(* ===== verification/Workload.v ===== *)
(** kernel/sched/workload.c: the progress-driven scheduler of the "fly"
    workload, and [do_set_sche_workload] of sched.c. *)
From S2P Require Import Prelude KMonad KList Sched.

Definition LENGTH : Z := 60.
Definition FLY_NUM : nat := 5.
Definition TIMER_INTERVAL : Z := 400000.
Definition check_point : list Z := [10; 20; 30; 40; 50].
Definition end_point : list Z := [LENGTH; LENGTH; LENGTH; LENGTH; LENGTH].
Definition check_to_end : list Z := [LENGTH - 10; LENGTH - 20; LENGTH - 30; LENGTH - 40; LENGTH - 50].

Inductive stage_t := CHECKPOINT | END.
#[export] Instance stage_eq_dec : EqDecision stage_t.
Proof. solve_decision. Defined.

Record work_state := mk_work { w_sched : sched_state; stage : stage_t; done_cnt : Z; preempt : bool; w_timer : Z }.
Definition w_upd_sched (x : sched_state) (s : work_state) : work_state :=
  mk_work x (stage s) (done_cnt s) (preempt s) (w_timer s).
Definition w_set_stage (st : stage_t) (n : Z) (s : work_state) : work_state :=
  mk_work (w_sched s) st n (preempt s) (w_timer s).
Definition set_preempt (b : bool) (s : work_state) : work_state :=
  mk_work (w_sched s) (stage s) (done_cnt s) b (w_timer s).
Definition bios_set_timer (t : Z) (s : work_state) : work_state :=
  mk_work (w_sched s) (stage s) (done_cnt s) (preempt s) t.
Definition w_on {A} (m : M sched_state A) : M work_state A := zoom w_sched w_upd_sched m.

Definition init_fly : M sched_state unit :=
  for_ 1 FLY_NUM (λ i,
    target ← of_opt (check_point !! (i - 1)%nat);
    set_pcb (Proc i) (set_target target 0)).

Definition reset_target_wakeup (points : list Z) : M sched_state unit :=
  for_ 1 FLY_NUM (λ i,
    target ← of_opt (points !! (i - 1)%nat);
    set_pcb (Proc i) (set_target target 0);;
    do_unblock (NList (Proc i))).

(** The search for the ready process with the least progress; the last one of
    several. *)
Definition min_step (l : node * node * Z) : M sched_state (node * node * Z + node) :=
  let '(next_node, min_node, min_progress) := l in
  if decide (next_node = NReady) then mret (inr min_node) else
  t ← of_opt (container_of next_node);
  p ← the_pcb t;
  n ← q_next next_node;
  mret (inl (if progress p <=? min_progress then (n, next_node, progress p) else (n, min_node, min_progress))).

Definition find_min : M sched_state node :=
  s ← get;
  first ← q_next NReady;
  while_ (S (size (heap s))) min_step (first, first, INT_MAX).

(** [do_workload_scheduler] up to its call of [switch_to]: the process that
    runs next, or [None] when the function returns at once, with preemption
    still off. *)
Definition do_workload_scheduler (ticks : Z) : M work_state (option tcb) :=
  modify (set_preempt false);;
  s ← get;
  let prev := current (w_sched s) in
  p ← w_on (the_pcb prev);
  (if bool_decide (status p = TASK_RUNNING) && negb (pid p =? 0) then
     w_on (set_pcb prev (set_status TASK_READY));;
     w_on (q_enqueue (NList prev) NReady)
   else mret ());;
  empty ← w_on (q_empty NReady);
  if (empty : bool) then mret None else
  min_node ← w_on find_min;
  w_on (q_del min_node);;
  next ← of_opt (container_of min_node);
  w_on (modify (upd_current next));;
  w_on (set_pcb next (set_status TASK_RUNNING));;
  np ← w_on (the_pcb next);
  let progress_lim := 116 in
  let allocated_time := s32 (Z.quot (s32 (TIMER_INTERVAL * (progress_lim - progress np))) 100) in
  modify (bios_set_timer (u64 (ticks + allocated_time)));;
  modify (set_preempt true);;
  mret (Some next).

(** [do_set_sche_workload] of sched.c *)
Definition do_set_sche_workload (remain_length : Z) : M work_state unit :=
  s ← get;
  let cur := current (w_sched s) in
  let cur_len := s32 (LENGTH - remain_length) in
  p ← w_on (the_pcb cur);
  (if (next_target p <=? cur_len) || (100 <=? progress p) then
     modify (λ s, w_set_stage (stage s) (s32 (done_cnt s + 1)) s);;
     w_on (do_block (NList cur) NSleep)
   else mret ());;
  s ← get;
  if Z.of_nat FLY_NUM <=? done_cnt s then
    let st := match stage s with CHECKPOINT => END | END => CHECKPOINT end in
    modify (w_set_stage st 0);;
    w_on (reset_target_wakeup (match st with CHECKPOINT => check_point | END => end_point end))
  else
    v ← (match stage s with
         | CHECKPOINT =>
             assert (negb (next_target p =? 0));;
             mret (s32 (Z.quot (cur_len * 100) (next_target p)))
         | END =>
             c ← of_opt (arr_get check_point (pid p - 1));
             e ← of_opt (arr_get check_to_end (pid p - 1));
             mret (s32 (Z.quot ((cur_len - c) * 100) e))
         end);
    w_on (set_pcb cur (λ p, set_target (next_target p) v p)).

(** ** The least progress *)

(** What the search keeps: the node to take so far and its progress. *)
Fixpoint argmin (s : sched_state) (best : tcb) (m : Z) (xs : list tcb) : tcb * Z :=
  match xs with
  | [] => (best, m)
  | t :: xs' => if progress (pcbs s t) <=? m then argmin s t (progress (pcbs s t)) xs' else argmin s best m xs'
  end.

Lemma argmin_spec s xs best m :
  let (b, v) := argmin s best m xs in
  (b = best ∧ v = m ∨ b ∈ xs ∧ v = progress (pcbs s b)) ∧ v ≤ m ∧ ∀ t, t ∈ xs → v ≤ progress (pcbs s t).
Proof.
  revert best m. induction xs as [|t xs IH]; intros best m; simpl.
  - split; [by left|]. split; [lia|]. intros t Ht. by apply not_elem_of_nil in Ht.
  - destruct (Z.leb_spec (progress (pcbs s t)) m).
    + specialize (IH t (progress (pcbs s t))). destruct (argmin _ _ _ _) as [b v].
      destruct IH as (Hb & Hv & Hall). split; [|split; [lia|]].
      * right. destruct Hb as [[-> ->]|[? ->]]; split; try done; [left|by right].
      * intros u [->|Hu]%elem_of_cons; [done|by apply Hall].
    + specialize (IH best m). destruct (argmin _ _ _ _) as [b v].
      destruct IH as (Hb & Hv & Hall). split; [|split; [done|]].
      * destruct Hb as [?|[? ->]]; [by left|right; split; [by right|done]].
      * intros u [->|Hu]%elem_of_cons; [lia|by apply Hall].
Qed.

Lemma find_min_run s Q ys xs best m fuel :
  linked (heap s) Q → Q !! NReady = Some (ys ++ xs) → (length xs < fuel)%nat →
  while_ fuel min_step (default NReady (NList <$> head xs), NList best, m) s
  = Ok (NList (argmin s best m xs).1) s.
Proof.
  revert ys best m fuel. induction xs as [|t xs IH]; intros ys best m [|fuel] HL Hx Hf; try (simpl in Hf; lia).
  - rewrite while_eq. done.
  - rewrite while_eq. simpl head. simpl default. unfold min_step at 1. rewrite decide_False by done.
    rewrite (bind_opt _ t) by done. unfold the_pcb. rewrite bind_gets.
    rewrite (bind_ok _ _ _ _ _ (q_next_ok _ _ _ (linked_next _ _ HL NReady ys t xs Hx))).
    cbv beta iota delta [mret M_ret]. simpl argmin. simpl in Hf.
    rewrite (cons_middle t ys xs), app_assoc in Hx.
    destruct (progress (pcbs s t) <=? m); by apply (IH (ys ++ [t])); [| |lia].
Qed.

(** The search finds a ready process none other of which has made less progress. *)
Lemma find_min_ok s Q x xs :
  linked (heap s) Q → Q !! NReady = Some (x :: xs) → (∀ t, t ∈ x :: xs → progress (pcbs s t) ≤ INT_MAX) →
  ∃ t, find_min s = Ok (NList t) s ∧ t ∈ x :: xs ∧
    ∀ u, u ∈ x :: xs → progress (pcbs s t) ≤ progress (pcbs s u).
Proof.
  intros HL Hx Hmax. pose proof (argmin_spec s (x :: xs) x INT_MAX) as Hs.
  exists (argmin s x INT_MAX (x :: xs)).1. split.
  - unfold find_min. rewrite bind_get.
    rewrite (bind_ok _ _ _ _ _ (q_next_ok _ _ _ (linked_first _ _ HL NReady (x :: xs) Hx))).
    apply (find_min_run s Q []); try done. pose proof (queue_size _ _ HL _ _ Hx). lia.
  - destruct (argmin _ _ _ _) as [b v] eqn:E. simpl fst. destruct Hs as (Hb & Hv & Hall).
    destruct Hb as [[-> ->]|[Hin ->]]; [|by split].
    split; [left|]. intros u Hu. pose proof (Hall u Hu). pose proof (Hmax x ltac:(left)). lia.
Qed.
