(* ===== verification/ExecStack.v ===== *)
(** kernel/sched/proc.c: the first stack of a process and of a thread.

    [init_pcb_stack] copies the command line to the top of the user stack page,
    which the kernel sees at one address and the process at another, and
    prepares the two register contexts on the kernel stack. *)
From S2P Require Import Prelude CString.

Definition USER_STACK_ADDR : Z := 0xf00010000.
Definition SR_SPIE : Z := 0x20.
Definition REGS_CONTEXT_SIZE : Z := 288.
Definition SWITCHTO_CONTEXT_SIZE : Z := 112.

(** ** Words in byte memory, little endian *)

Definition store64 (m : bmem) (a v : Z) : bmem := λ x,
  if decide (a ≤ x < a + 8) then v / 256 ^ (x - a) mod 256 else m x.

Fixpoint load_le (n : nat) (m : bmem) (a : Z) : Z :=
  match n with
  | O => 0
  | S n' => m a + 256 * load_le n' m (a + 1)
  end.
Definition load64 (m : bmem) (a : Z) : Z := load_le 8 m a.

Lemma load_le_digits n m a v :
  (∀ i, 0 ≤ i < Z.of_nat n → m (a + i) = v / 256 ^ i mod 256) → load_le n m a = v mod 256 ^ Z.of_nat n.
Proof.
  revert a v. induction n as [|n IH]; intros a v H; simpl load_le; [by rewrite Z.mod_1_r|].
  rewrite (IH (a + 1) (v / 256)).
  - rewrite <- (Z.add_0_r a) at 1. rewrite H by lia. rewrite Z.pow_0_r, Z.div_1_r.
    replace (Z.of_nat (S n)) with (1 + Z.of_nat n) by lia.
    rewrite Z.pow_add_r, Z.pow_1_r by lia. rewrite Z.rem_mul_r; [done|lia|].
    apply Z.pow_pos_nonneg; lia.
  - intros i Hi. replace (a + 1 + i) with (a + (1 + i)) by lia. rewrite H by lia.
    rewrite Z.pow_add_r, Z.pow_1_r by lia. by rewrite Z.div_div by (try apply Z.pow_pos_nonneg; lia).
Qed.

Lemma load_store64 m a v : 0 ≤ v < 2 ^ 64 → load64 (store64 m a v) a = v.
Proof.
  intros Hv. unfold load64. rewrite (load_le_digits 8 _ a v).
  - change (256 ^ Z.of_nat 8) with (2 ^ 64). by apply Z.mod_small.
  - intros i Hi. unfold store64. rewrite decide_True by lia. do 3 f_equal. lia.
Qed.

Lemma load64_ext m m' a : (∀ x, a ≤ x < a + 8 → m' x = m x) → load64 m' a = load64 m a.
Proof.
  intros H. unfold load64. assert (∀ n b, a ≤ b → b + Z.of_nat n ≤ a + 8 → load_le n m' b = load_le n m b) as Hn.
  { induction n as [|n IH]; intros b Hb Hn; simpl; [done|]. rewrite H by lia. rewrite IH by lia. done. }
  apply Hn; lia.
Qed.

Lemma store64_outside m a v : same_outside m (store64 m a v) a 8.
Proof. intros x Hx. unfold store64. by rewrite decide_False by lia. Qed.

(** ** The operations *)

Record stacks := mk_stacks { st_mem : bmem; st_kernel_sp : Z; st_user_sp : Z; st_full_context : Z }.

(** [&pt_regs->regs[n]], [&pt_regs->sstatus] and [&pt_regs->sepc] *)
Definition pt_reg (pt_regs n : Z) : Z := pt_regs + 8 * n.
Definition pt_sstatus (pt_regs : Z) : Z := pt_regs + 256.
Definition pt_sepc (pt_regs : Z) : Z := pt_regs + 264.

(** The contexts below the top of the kernel stack, the same in both functions:
    [argregs] are the argument registers and their values. *)
Definition init_contexts (m : bmem) (ret_from_exception kernel_stack entry_point pcb sp : Z)
    (argregs : list (Z * Z)) : stacks :=
  let pt_regs := kernel_stack - REGS_CONTEXT_SIZE in
  let m := store64 m (pt_sepc pt_regs) entry_point in
  let m := store64 m (pt_sstatus pt_regs) SR_SPIE in
  let m := store64 m (pt_reg pt_regs 2) sp in
  let m := store64 m (pt_reg pt_regs 4) pcb in
  let m := fold_left (λ m rv, store64 m (pt_reg pt_regs rv.1) rv.2) argregs m in
  let pt_switchto := pt_regs - SWITCHTO_CONTEXT_SIZE in
  let m := store64 m (pt_switchto + 8 * 0) ret_from_exception in
  let m := store64 m (pt_switchto + 8 * 1) pt_regs in
  mk_stacks m pt_switchto sp pt_regs.

Definition align16 (a : Z) : Z := Z.land a (Z.lnot 15).

(** The loop over the arguments: strings grow downwards from [kva]/[uva], and
    [argv_base_kva[i]] points to the user address of the [i]-th one. *)
Fixpoint push_args (fuel : nat) (m : bmem) (kva uva argv_base_kva i : Z) (argv : list Z) : option (bmem * Z * Z) :=
  match argv with
  | [] => Some (m, kva, uva)
  | a :: argv' =>
      arg_len ← strlen fuel m a;
      let kva := kva - (arg_len + 1) in
      let uva := uva - (arg_len + 1) in
      m ← strcpy fuel m kva a;
      let m := store64 m (argv_base_kva + 8 * i) uva in
      push_args fuel m kva uva argv_base_kva (i + 1) argv'
  end.

(** [argv] holds the addresses of the argument strings; [kernel_stack] and
    [user_stack_kva] are the addresses just above the stacks. *)
Definition init_pcb_stack (fuel : nat) (ret_from_exception : Z) (m : bmem)
    (kernel_stack user_stack_kva entry_point pcb : Z) (argv : list Z) : option stacks :=
  let argc := Z.of_nat (length argv) in
  let argv_base_kva := user_stack_kva - 8 * argc in
  let argv_base_uva := USER_STACK_ADDR - 8 * argc in
  r ← push_args fuel m argv_base_kva argv_base_uva argv_base_kva 0 argv;
  let '(m, _, arg_base_uva) := r in
  Some (init_contexts m ret_from_exception kernel_stack entry_point pcb (align16 arg_base_uva)
          [(10, argc); (11, argv_base_uva)]).

(** [thread_stack_kva] and [thread_stack_uva] are the two addresses of the top
    of the thread's stack; the argument block of [arg_bytes] bytes is copied to it. *)
Definition init_thread_stack (ret_from_exception : Z) (m : bmem)
    (kernel_stack thread_stack_kva thread_stack_uva entry_point pcb arg : Z) (arg_bytes : nat) : stacks :=
  let arg_base_kva := thread_stack_kva - Z.of_nat arg_bytes in
  let m := memcpy m arg_base_kva arg arg_bytes in
  let new_user_sp_kva := align16 arg_base_kva in
  let total_offset := thread_stack_kva - new_user_sp_kva in
  let new_user_sp_uva := thread_stack_uva - total_offset in
  let arg_offset := thread_stack_kva - arg_base_kva in
  let arg_base_uva := thread_stack_uva - arg_offset in
  init_contexts m ret_from_exception kernel_stack entry_point pcb new_user_sp_uva [(10, arg_base_uva)].

(** ** The command line *)

Definition arg_size (ss : list (list Z)) : Z := foldr (λ s n, Z.of_nat (length s) + 1 + n) 0 ss.

Lemma arg_size_nonneg ss : 0 ≤ arg_size ss.
Proof. induction ss as [|s ss IH]; simpl; lia. Qed.

(** Memory is the same except for the strings' place and the pointers' place. *)
Definition same_but (m m' : bmem) (lo hi plo phi : Z) : Prop :=
  ∀ x, ¬ (lo ≤ x < hi) → ¬ (plo ≤ x < phi) → m' x = m x.

Lemma cstr_ext m m' p s :
  (∀ x, p ≤ x ≤ p + Z.of_nat (length s) → m' x = m x) → cstr m p s → cstr m' p s.
Proof.
  intros H [Hb Hok]. split; [|done]. eapply bytes_at_ext; [|done].
  intros x. rewrite length_app. simpl. intros Hx. apply H. lia.
Qed.

(** The argument strings [ss] at [argv], away from the place [lo .. phi] that
    will be written. *)
Definition args_at (fuel : nat) (m : bmem) (lo phi : Z) (argv : list Z) (ss : list (list Z)) : Prop :=
  Forall2 (λ a s, cstr m a s ∧ (length s < fuel)%nat ∧ (a + Z.of_nat (length s) < lo ∨ phi ≤ a)) argv ss.

Lemma args_at_ext fuel m m' lo phi argv ss :
  (∀ x, x < lo ∨ phi ≤ x → m' x = m x) → args_at fuel m lo phi argv ss → args_at fuel m' lo phi argv ss.
Proof.
  intros H HF. eapply Forall2_impl; [exact HF|]. intros a s (Hc & Hf & Hd). split; [|done].
  eapply cstr_ext; [|done]. intros x Hx. apply H. lia.
Qed.

Lemma push_args_ok fuel base lo phi argv : ∀ m kva uva i ss,
  args_at fuel m lo phi argv ss → lo = kva - arg_size ss → phi = base + 8 * (i + Z.of_nat (length argv)) →
  kva ≤ base → 0 ≤ i → arg_size ss ≤ uva → uva < 2 ^ 64 →
  ∃ m', push_args fuel m kva uva base i argv = Some (m', lo, uva - arg_size ss) ∧
    same_but m m' lo kva (base + 8 * i) phi ∧
    ∀ j s, ss !! j = Some s → ∃ p, load64 m' (base + 8 * (i + Z.of_nat j)) = p ∧
      uva - arg_size ss ≤ p ∧ p + Z.of_nat (length s) < uva ∧ cstr m' (kva + (p - uva)) s.
Proof.
  induction argv as [|a argv IH]; intros m kva uva i ss HF Hlo Hphi Hkva Hi Hu1 Hu2.
  - apply Forall2_nil_inv_l in HF as ->. simpl in *. exists m. rewrite Hlo, !Z.sub_0_r.
    split; [done|]. split; [by intros ?|]. done.
  - apply Forall2_cons_inv_l in HF as (s & ss' & (Hc & Hf & Hd) & HF & ->). simpl arg_size in *.
    pose proof (arg_size_nonneg ss'). simpl length in Hphi.
    set (n := Z.of_nat (length s) + 1) in *. simpl push_args. rewrite (strlen_ok m a s) by done. simpl.
    fold n. set (kva' := kva - n). set (uva' := uva - n).
    destruct (strcpy_run m kva' a s fuel) as (m1 & -> & Hc1 & Ho1); [done|done|lia|]. simpl.
    fold n in Ho1. set (m2 := store64 m1 (base + 8 * i) uva').
    pose proof (store64_outside m1 (base + 8 * i) uva') as Ho2. fold m2 in Ho2.
    assert (∀ x, ¬ (kva' ≤ x < kva) → ¬ (base + 8 * i ≤ x < base + 8 * (i + 1)) → m2 x = m x) as H2.
    { intros x Hx1 Hx2. rewrite (Ho2 x) by lia. apply Ho1. lia. }
    destruct (IH m2 kva' uva' (i + 1) ss') as (m' & Hp & Hsame & Hptr); try lia.
    { eapply args_at_ext; [|done]. intros x Hx. apply H2; lia. }
    exists m'. split; [rewrite Hp; do 2 f_equal; lia|]. split.
    + intros x Hx1 Hx2. rewrite (Hsame x) by lia. apply H2; lia.
    + intros [|j] t Hj; simpl in Hj.
      * injection Hj as <-. exists uva'. split; [|split; [lia|]].
        -- replace (i + Z.of_nat 0) with i by lia.
           rewrite (load64_ext m2); [apply load_store64; lia|]. intros x Hx. apply Hsame; lia.
        -- split; [lia|]. replace (kva + (uva' - uva)) with kva' by lia.
           eapply cstr_ext; [|exact Hc1]. intros x Hx. rewrite (Hsame x) by lia. apply Ho2. lia.
      * destruct (Hptr j t Hj) as (p & Hl & Hr & Hr' & Hct). exists p. split; [|split; [lia|split; [lia|]]].
        -- rewrite <- Hl. f_equal. lia.
        -- by replace (kva + (p - uva)) with (kva' + (p - uva')) by lia.
Qed.

Lemma align16_le a : 0 ≤ a → align16 a ≤ a ∧ align16 a mod 16 = 0 ∧ a < align16 a + 16.
Proof.
  intros Ha. assert (align16 a = a / 16 * 16) as ->; [|split; [|split]].
  - unfold align16. change 16 with (2 ^ 4). rewrite <- Z.shiftr_div_pow2, <- Z.shiftl_mul_pow2 by done.
    apply Z.bits_inj'. intros k Hk. rewrite Z.land_spec, Z.lnot_spec, Z.shiftl_spec by done.
    change 15 with (Z.ones 4). destruct (decide (k < 4)).
    + rewrite Z.ones_spec_low by lia. rewrite andb_false_r. by rewrite Z.testbit_neg_r by lia.
    + rewrite Z.ones_spec_high, Z.shiftr_spec by lia. rewrite andb_true_r. f_equal. lia.
  - Z.to_euclidean_division_equations; lia.
  - apply Z.mod_mul. lia.
  - Z.to_euclidean_division_equations; lia.
Qed.

(** The contexts leave the memory above [kernel_stack] and below the contexts alone. *)
Lemma init_contexts_outside m ret kstack entry pcb sp argregs x :
  Forall (λ rv, 0 ≤ rv.1 < 32) argregs →
  x < kstack - REGS_CONTEXT_SIZE - SWITCHTO_CONTEXT_SIZE ∨ kstack ≤ x →
  st_mem (init_contexts m ret kstack entry pcb sp argregs) x = m x.
Proof.
  unfold init_contexts, pt_reg, pt_sepc, pt_sstatus, REGS_CONTEXT_SIZE, SWITCHTO_CONTEXT_SIZE. intros Hr Hx. simpl.
  rewrite !(store64_outside _ _ _ x) by lia. match goal with |- fold_left _ _ ?m0 x = _ =>
    assert (∀ m1, m1 x = m x → fold_left (λ m rv, store64 m (kstack - 288 + 8 * rv.1) rv.2) argregs m1 x = m x) as Hf end.
  - induction argregs as [|rv l IH]; intros m1 Hm1; simpl; [done|].
    apply Forall_cons in Hr as [? ?]. apply IH; [done|]. by rewrite store64_outside by lia.
  - apply Hf. by rewrite !store64_outside by lia.
Qed.

Lemma load_store64_ne m a b v : b + 8 ≤ a ∨ a + 8 ≤ b → load64 (store64 m a v) b = load64 m b.
Proof. intros H. apply load64_ext. intros x Hx. apply store64_outside. lia. Qed.

(** Follow a word through the stores to where it was written. *)
Ltac follow_word := repeat (rewrite load_store64_ne by lia); rewrite ?load_store64 by lia; try done.

(** What the context of a process holds. *)
Lemma init_contexts_regs m ret kstack entry pcb sp a0 a1 :
  0 ≤ entry < 2 ^ 64 → 0 ≤ sp < 2 ^ 64 → 0 ≤ a0 < 2 ^ 64 → 0 ≤ a1 < 2 ^ 64 →
  let st := init_contexts m ret kstack entry pcb sp [(10, a0); (11, a1)] in
  load64 (st_mem st) (pt_reg (st_full_context st) 10) = a0 ∧
  load64 (st_mem st) (pt_reg (st_full_context st) 11) = a1 ∧
  load64 (st_mem st) (pt_sepc (st_full_context st)) = entry ∧
  load64 (st_mem st) (pt_reg (st_full_context st) 2) = sp.
Proof.
  intros H1 H2 H3 H4. unfold init_contexts. simpl.
  unfold pt_reg, pt_sepc, pt_sstatus, REGS_CONTEXT_SIZE, SWITCHTO_CONTEXT_SIZE.
  split; [follow_word|]. split; [follow_word|]. split; follow_word.
Qed.

(** C18: What a new process finds on its stack: [a0] holds the number of arguments,
    [a1] the user address of an array of as many pointers, each of which points,
    in the process's view, at a copy of the argument; the stack pointer is
    aligned to 16 bytes and below all of this. The process sees the page at
    USER_STACK_ADDR - 4096 that the kernel sees below [top]. *)
Theorem init_pcb_stack_spec fuel ret m kstack top entry pcb argv ss :
  let argc := Z.of_nat (length argv) in
  let lo := top - 8 * argc - arg_size ss in
  args_at fuel m lo top argv ss → 8 * argc + arg_size ss + 16 ≤ 4096 → 0 ≤ entry < 2 ^ 64 →
  (kstack ≤ lo ∨ top ≤ kstack - REGS_CONTEXT_SIZE - SWITCHTO_CONTEXT_SIZE) →
  ∃ st, init_pcb_stack fuel ret m kstack top entry pcb argv = Some st ∧
    let sp := st_user_sp st in
    let argv_uva := load64 (st_mem st) (pt_reg (st_full_context st) 11) in
    load64 (st_mem st) (pt_reg (st_full_context st) 10) = argc ∧
    load64 (st_mem st) (pt_sepc (st_full_context st)) = entry ∧
    load64 (st_mem st) (pt_reg (st_full_context st) 2) = sp ∧
    sp mod 16 = 0 ∧ USER_STACK_ADDR - 4096 ≤ sp ≤ argv_uva ∧
    argv_uva + 8 * argc = USER_STACK_ADDR ∧
    let kview va := va - USER_STACK_ADDR + top in
    ∀ j s, ss !! j = Some s → ∃ p, load64 (st_mem st) (kview (argv_uva + 8 * Z.of_nat j)) = p ∧
      sp ≤ p < argv_uva ∧ cstr (st_mem st) (kview p) s.
Proof.
  intros argc lo HF Hfit Hentry Hk. pose proof (arg_size_nonneg ss) as Hsz.
  assert (length argv = length ss) as Hlen by (by eapply Forall2_length).
  assert (0 ≤ argc) as Hargc by (unfold argc; lia).
  unfold init_pcb_stack. fold argc.
  destruct (push_args_ok fuel (top - 8 * argc) lo top argv m (top - 8 * argc) (USER_STACK_ADDR - 8 * argc) 0 ss)
    as (m' & Hp & Hsame & Hptr); [done|done|lia|lia|lia|unfold USER_STACK_ADDR; lia..|].
  rewrite Hp. simpl. eexists. split; [done|].
  destruct (align16_le (USER_STACK_ADDR - 8 * argc - arg_size ss)) as (Ha1 & Ha2 & Ha3);
    [unfold USER_STACK_ADDR; lia|].
  set (sp := align16 _) in *.
  destruct (init_contexts_regs m' ret kstack entry pcb sp argc (USER_STACK_ADDR - 8 * argc))
    as (H10 & H11 & Hpc & H2); [done|unfold USER_STACK_ADDR in *; lia..|].
  assert (∀ x, lo ≤ x < top → st_mem (init_contexts m' ret kstack entry pcb sp
    [(10, argc); (11, USER_STACK_ADDR - 8 * argc)]) x = m' x) as Hctx.
  { intros x Hx. apply init_contexts_outside; [by repeat constructor|]. lia. }
  set (st := init_contexts _ _ _ _ _ _ _) in *. change (st_user_sp st) with sp. rewrite H11.
  do 3 (split; [done|]). split; [done|]. split; [lia|]. split; [lia|].
  intros j s Hj. destruct (Hptr j s Hj) as (p & Hl & Hr & Hr' & Hc). exists p.
  assert (Z.of_nat j < argc) by (apply lookup_lt_Some in Hj; unfold argc; lia).
  split; [|split; [lia|]].
  - rewrite <- Hl. replace (_ + 8 * Z.of_nat j - _ + top) with (top - 8 * argc + 8 * (0 + Z.of_nat j)) by lia.
    apply load64_ext. intros x Hx. apply Hctx. lia.
  - replace (p - USER_STACK_ADDR + top) with (top - 8 * argc + (p - (USER_STACK_ADDR - 8 * argc))) by lia.
    eapply cstr_ext; [|exact Hc]. intros x Hx. apply Hctx. lia.
Qed.

(** [do_thread_create] maps the thread's stack page at [base - PAGE_SIZE], and
    then gives the kernel address of that page's end together with the user
    address [base + PAGE_SIZE]: the thread's stack pointer and the address of
    its argument lie in the page above the one that was mapped for it. *)
Lemma thread_stack_misplaced ret m kstack kva base entry pcb arg arg_bytes :
  kva mod 4096 = 0 → base mod 4096 = 0 → 4096 ≤ base → 4096 ≤ kva →
  0 < Z.of_nat arg_bytes < 4000 →
  let st := init_thread_stack ret m kstack (kva + 4096) (base + 4096) entry pcb arg arg_bytes in
  base < st_user_sp st < base + 4096 ∧ ¬ (base - 4096 ≤ st_user_sp st < base).
Proof.
  intros Hk Hb Hb0 Hk0 Ha. simpl. destruct (align16_le (kva + 4096 - Z.of_nat arg_bytes)) as (H1 & H2 & H3); [lia|].
  lia.
Qed.

(** An example: "ab" and "cd" as the arguments of a process. *)
Lemma init_pcb_stack_spec_witness :
  ∃ st p, init_pcb_stack 3 0x1000 ex_bmem 0x9000 0x8000 0x10000 0x5000 [10; 20] = Some st ∧
    load64 (st_mem st) 0x7ff8 = p ∧ cstr (st_mem st) (p - USER_STACK_ADDR + 0x8000) [99; 100].
Proof.
  destruct (init_pcb_stack_spec 3 0x1000 ex_bmem 0x9000 0x8000 0x10000 0x5000 [10; 20] [[97; 98]; [99; 100]])
    as (st & Hst & _ & _ & _ & _ & _ & Ha & Hptr).
  - repeat constructor; simpl; lia || apply ex_ab || apply ex_cd.
  - simpl. lia.
  - lia.
  - right. unfold REGS_CONTEXT_SIZE, SWITCHTO_CONTEXT_SIZE. lia.
  - destruct (Hptr 1%nat [99; 100] eq_refl) as (p & Hp & _ & Hc). exists st, p. split; [done|]. split; [|done].
    rewrite <- Hp. f_equal. unfold USER_STACK_ADDR in *. simpl length in Ha. lia.
Defined.
