(* ===== verification/Loader.v ===== *)
(** kernel/loader/loader.c: loading a program from the image on the SD card.

    [ld_bytes] holds the bytes of the kernel's data pages and of the TEMP
    buffer; the words of the page tables are in [ld_mm]. *)
From S2P Require Import Prelude KMonad Pgtable MM PageTable Swap CString Sched.

Definition MAX_NAME_LEN : nat := 15.
Definition SECTOR_BYTES : nat := 512.
Definition TEMP : Z := 0x59000000 + KVA_PA_OFFSET.

Record task_info_t := mk_task {
  ti_name : list Z;
  image_offset : Z;
  ti_vaddr : Z;
  memsz : Z;
  filesz : Z
}.

Section Loader.
Context {D : Type} `{!BlockDevice SECTOR_BYTES D}.

Record ld_state := mk_ld { ld_mm : mm_state; ld_bytes : bmem; ld_disk : D; ld_tasks : list task_info_t }.
Definition ld_upd_mm (m : mm_state) (s : ld_state) : ld_state := mk_ld m (ld_bytes s) (ld_disk s) (ld_tasks s).
Definition ld_upd_bytes (f : bmem → bmem) (s : ld_state) : ld_state :=
  mk_ld (ld_mm s) (f (ld_bytes s)) (ld_disk s) (ld_tasks s).
Definition on_ldmm {A} (m : M mm_state A) : M ld_state A := zoom ld_mm ld_upd_mm m.

Definition write_bytes (m : bmem) (a : Z) (xs : list Z) : bmem := λ x,
  if decide (a ≤ x < a + Z.of_nat (length xs)) then default 0 (xs !! Z.to_nat (x - a)) else m x.

Definition sd_read_to (kva : Z) (num_secs : nat) (sector : Z) : M ld_state unit :=
  modify (λ s, ld_upd_bytes (λ m, write_bytes m kva (sd_read (ld_disk s) sector num_secs)) s).

(** A page for [va], all zero: [alloc_page_helper] clears it by [memset]. *)
Definition new_page (va pgdir pid : Z) : M ld_state Z :=
  kva ← on_ldmm (alloc_page_helper va pgdir pid);
  modify (ld_upd_bytes (λ m, memset m kva 0 (Z.to_nat PAGE_SIZE)));;
  mret kva.

Record load_vars := mk_lv { current_va : Z; current_offset : Z; remaining_filesz : Z; remaining_memsz : Z }.

(** One round of the loop that copies a program page by page. *)
Definition load_step (pgdir pid : Z) (l : load_vars) : M ld_state (load_vars + unit) :=
  if remaining_memsz l <=? 0 then mret (inr ()) else
  page_kva ← new_page (current_va l) pgdir pid;
  let page_offset := Z.land (current_va l) (PAGE_SIZE - 1) in
  let page_remain := PAGE_SIZE - page_offset in
  let copy_len := if remaining_filesz l <? page_remain then remaining_filesz l else page_remain in
  (if 0 <? copy_len then
     let start_sec := s32 (current_offset l / Z.of_nat SECTOR_BYTES) in
     let end_sec := s32 ((current_offset l + copy_len - 1) / Z.of_nat SECTOR_BYTES) in
     let num_secs := s32 (end_sec - start_sec + 1) in
     let offset_in_sec := s32 (current_offset l mod Z.of_nat SECTOR_BYTES) in
     sd_read_to TEMP (Z.to_nat num_secs) start_sec;;
     modify (ld_upd_bytes (λ m, memcpy m (page_kva + page_offset) (TEMP + offset_in_sec) (Z.to_nat copy_len)))
   else mret ());;
  (if copy_len <? page_remain then
     modify (ld_upd_bytes (λ m, memset m (page_kva + page_offset + copy_len) 0 (Z.to_nat (page_remain - copy_len))))
   else mret ());;
  mret (inl (mk_lv (u64 (current_va l + page_remain)) (u64 (current_offset l + copy_len))
    (remaining_filesz l - copy_len)
    (if page_remain <? remaining_memsz l then remaining_memsz l - page_remain else 0))).

(** One round of fuel per page, one for the last test, and one for a first
    page that is entered in the middle. *)
Definition load_fuel (mem_sz : Z) : nat := Z.to_nat (mem_sz / PAGE_SIZE + 3).

(** The entry point, or 0 when there is no such program. *)
Definition load_task_img (taskname : list Z) (pgdir pid : Z) : M ld_state Z :=
  s ← get;
  match first_index TASK_MAXNUM (λ i,
    match ld_tasks s !! i with
    | Some t => negb (bool_decide (taskname = [])) && bool_decide (ti_name t = taskname)
    | None => false
    end) with
  | None => mret 0
  | Some i =>
      t ← of_opt (ld_tasks s !! i);
      while_ (load_fuel (memsz t)) (load_step pgdir pid)
        (mk_lv (ti_vaddr t) (image_offset t) (filesz t) (memsz t));;
      mret (ti_vaddr t)
  end.

(** ** What the loaded program looks like *)

(** The byte at offset [k] of the program: from the file, and zero beyond it. *)
Definition image_byte (d : D) (t : task_info_t) (k : Z) : Z :=
  if k <? filesz t then sd_cell d (image_offset t + k) else 0.

(** The address [x] holds [v] for the process whose root table is [root]. *)
Definition holds_byte (s : ld_state) (A : gset Z) (T : gmap Z label) (root x v : Z) : Prop :=
  ∃ q, q ∈ A ∧ T !! q = None ∧
    pte_of (mm_mem (ld_mm s)) root x = mk_pte (kva2pa q / 2 ^ 12) USER_PAGE_FLAGS ∧
    ld_bytes s (q + x mod PAGE_SIZE) = v.

(** A task whose load stays in the user's address range and in the card. *)
Record task_ok (t : task_info_t) : Prop := {
  tk_va : 0 ≤ ti_vaddr t;
  tk_end : ti_vaddr t + memsz t + PAGE_SIZE ≤ 2 ^ 38;
  tk_file : 0 ≤ filesz t ≤ memsz t;
  tk_offset : 0 ≤ image_offset t;
  tk_card : image_offset t + filesz t < 2 ^ 31 * 512
}.

(** The rounds of the loop that are left. *)
Definition rounds (l : load_vars) : Z :=
  if remaining_memsz l <=? 0 then 0
  else remaining_memsz l / PAGE_SIZE + (if current_va l mod PAGE_SIZE =? 0 then 1 else 2).

(** The loop at [current_va l]: everything from the start up to here is in
    place, and the pages still to be taken lie below the TEMP buffer. *)
Record loading (t : task_info_t) (root : Z) (d : D) (s : ld_state) (l : load_vars) (A : gset Z) (T : gmap Z label) : Prop := {
  lo_as : as_inv (ld_mm s) A root T;
  lo_disk : ld_disk s = d;
  lo_va : ti_vaddr t ≤ current_va l;
  lo_first : current_va l = ti_vaddr t ∨ current_va l mod PAGE_SIZE = 0;
  lo_offset : current_offset l = image_offset t + Z.min (current_va l - ti_vaddr t) (filesz t);
  lo_file : remaining_filesz l = filesz t - Z.min (current_va l - ti_vaddr t) (filesz t);
  lo_mem : remaining_memsz l = Z.max 0 (memsz t - (current_va l - ti_vaddr t));
  lo_end : current_va l < ti_vaddr t + memsz t + PAGE_SIZE;
  lo_done x : ti_vaddr t ≤ x < current_va l →
    holds_byte s A T root x (image_byte d t (x - ti_vaddr t));
  lo_temp : kernMemCurr (ld_mm s) + rounds l * (3 * PAGE_SIZE) ≤ TEMP
}.

(** ** One page *)

Lemma write_bytes_at m a xs i x : xs !! i = Some x → write_bytes m a xs (a + Z.of_nat i) = x.
Proof.
  intros Hx. pose proof (lookup_lt_Some _ _ _ Hx). unfold write_bytes. rewrite decide_True by lia.
  replace (Z.to_nat (a + Z.of_nat i - a)) with i by lia. by rewrite Hx.
Qed.

Lemma write_bytes_out m a xs x : x < a → write_bytes m a xs x = m x.
Proof. intros Hx. unfold write_bytes. by rewrite decide_False by lia. Qed.

(** The bytes after a round: [B1] before, page [q], [copy] bytes from offset [off]. *)
Definition copy_in (d : D) (B1 : bmem) (q po copy off : Z) : bmem :=
  if 0 <? copy then
    memcpy (write_bytes B1 TEMP (sd_read d (s32 (off / 512))
        (Z.to_nat (s32 (s32 ((off + copy - 1) / 512) - s32 (off / 512) + 1)))))
      (q + po) (TEMP + s32 (off mod 512)) (Z.to_nat copy)
  else B1.
Definition clear_rest (B2 : bmem) (q po copy : Z) : bmem :=
  if copy <? PAGE_SIZE - po then memset B2 (q + po + copy) 0 (Z.to_nat (PAGE_SIZE - po - copy)) else B2.

Lemma copy_in_ok d B1 q po copy off :
  0 ≤ po → 0 ≤ copy ≤ PAGE_SIZE - po → q + PAGE_SIZE ≤ TEMP → 0 ≤ off → off + copy < 2 ^ 31 * 512 →
  (∀ i, 0 ≤ i < copy → copy_in d B1 q po copy off (q + po + i) = sd_cell d (off + i)) ∧
  (∀ y, y < TEMP → ¬ (q + po ≤ y < q + po + copy) → copy_in d B1 q po copy off y = B1 y).
Proof.
  unfold PAGE_SIZE. change (2 ^ 31) with 2147483648. intros Hpo Hc Hq Hoff Hcard. unfold copy_in. destruct (Z.ltb_spec 0 copy); [|split; [lia|done]].
  pose proof (Z.div_mod off 512 ltac:(lia)) as Hdm. pose proof (Z.mod_pos_bound off 512 ltac:(lia)).
  assert (0 ≤ off / 512 < 2147483648) as Hs1 by (Z.to_euclidean_division_equations; lia).
  assert (0 ≤ (off + copy - 1) / 512 < 2147483648) as Hs2 by (Z.to_euclidean_division_equations; lia).
  assert (off / 512 ≤ (off + copy - 1) / 512 ≤ off / 512 + 9) as Hs3 by (Z.to_euclidean_division_equations; lia).
  rewrite (s32_id (off / 512)), (s32_id ((off + copy - 1) / 512)), (s32_id (off mod 512)) by lia.
  rewrite s32_id by lia. set (n := Z.to_nat _).
  assert (off mod 512 + copy ≤ Z.of_nat n * 512) as Hn.
  { unfold n. rewrite Z2Nat.id by lia. Z.to_euclidean_division_equations; lia. }
  set (B2 := write_bytes _ _ _).
  destruct (memcpy_ok B2 (q + po) (TEMP + off mod 512) (Z.to_nat copy)) as [Hin Hout]; [lia|]. split.
  - intros i Hi. specialize (Hin (Z.to_nat i) ltac:(lia)). rewrite Z2Nat.id in Hin by lia. rewrite Hin.
    unfold B2. replace (TEMP + off mod 512 + i) with (TEMP + Z.of_nat (Z.to_nat (off mod 512 + i))) by lia.
    rewrite (write_bytes_at _ _ _ _ (sd_cell d (off / 512 * Z.of_nat 512 + Z.of_nat (Z.to_nat (off mod 512 + i))))).
    + f_equal. lia.
    + apply sd_read_cell; unfold SECTOR_BYTES; lia.
  - intros y Hy Hny. rewrite Hout by lia. by apply write_bytes_out.
Qed.

Lemma page_filled d B1 q po copy off :
  0 ≤ po < PAGE_SIZE → 0 ≤ copy ≤ PAGE_SIZE - po → q + PAGE_SIZE ≤ TEMP → 0 ≤ off → off + copy < 2 ^ 31 * 512 →
  let B3 := clear_rest (copy_in d B1 q po copy off) q po copy in
  (∀ i, 0 ≤ i < PAGE_SIZE - po → B3 (q + po + i) = if i <? copy then sd_cell d (off + i) else 0) ∧
  (∀ y, y < TEMP → ¬ in_page q y → B3 y = B1 y).
Proof.
  intros Hpo Hc Hq Hoff Hcard B3. destruct (copy_in_ok d B1 q po copy off) as [Hin Hout]; [lia..|].
  unfold in_page. subst B3. unfold clear_rest. destruct (Z.ltb_spec copy (PAGE_SIZE - po)).
  - destruct (memset_ok (copy_in d B1 q po copy off) (q + po + copy) 0 (Z.to_nat (PAGE_SIZE - po - copy))) as [Hz Ho].
    rewrite bytes_at_lookup in Hz. split.
    + intros i Hi. destruct (Z.ltb_spec i copy).
      * rewrite Ho by lia. apply Hin. lia.
      * replace (q + po + i) with (q + po + copy + Z.of_nat (Z.to_nat (i - copy))) by lia.
        apply Hz. apply lookup_replicate. split; [done|lia].
    + intros y Hy Hny. rewrite Ho by lia. apply Hout; lia.
  - split.
    + intros i Hi. rewrite (proj2 (Z.ltb_lt _ _)) by lia. apply Hin. lia.
    + intros y Hy Hny. apply Hout; lia.
Qed.

(** One round computes [copy_in] and [clear_rest]. *)
Definition next_vars (l : load_vars) (page_remain copy : Z) : load_vars :=
  mk_lv (u64 (current_va l + page_remain)) (u64 (current_offset l + copy)) (remaining_filesz l - copy)
    (if page_remain <? remaining_memsz l then remaining_memsz l - page_remain else 0).

Lemma load_step_page s root pid l q m :
  0 < remaining_memsz l → 0 ≤ current_va l → alloc_page_helper (current_va l) root pid (ld_mm s) = Ok q m →
  let po := current_va l mod PAGE_SIZE in
  let copy := if remaining_filesz l <? PAGE_SIZE - po then remaining_filesz l else PAGE_SIZE - po in
  load_step root pid l s = Ok (inl (next_vars l (PAGE_SIZE - po) copy))
    (mk_ld m (clear_rest (copy_in (ld_disk s) (memset (ld_bytes s) q 0 (Z.to_nat PAGE_SIZE)) q po copy (current_offset l))
       q po copy) (ld_disk s) (ld_tasks s)).
Proof.
  intros Hm Hva Ha po copy. unfold load_step. rewrite (proj2 (Z.leb_gt _ _)) by done.
  assert (new_page (current_va l) root pid s = Ok q (ld_upd_bytes (λ b, memset b q 0 (Z.to_nat PAGE_SIZE)) (ld_upd_mm m s))) as Hn.
  { unfold new_page, on_ldmm, zoom. unfold mbind, M_bind. by rewrite Ha. }
  rewrite (bind_ok _ _ _ _ _ Hn).
  assert (Z.land (current_va l) (PAGE_SIZE - 1) = po) as Hpo by (by apply (land_low 12)).
  rewrite Hpo. cbv zeta. fold copy. unfold copy_in, clear_rest. change (Z.of_nat SECTOR_BYTES) with 512.
  destruct (0 <? copy); destruct (copy <? PAGE_SIZE - po); done.
Qed.

Lemma page_below s A root T q : as_inv s A root T → q ∈ A → q mod PAGE_SIZE = 0 ∧ q + PAGE_SIZE ≤ kernMemCurr s.
Proof. intros [[F HI] _ _] Hq. by destruct (inv_page _ _ _ HI q (or_intror Hq)) as (? & _ & ?). Qed.

(** What was loaded stays while a fresh page is added for another address. *)
Lemma holds_byte_step s m b A A' T T' root x v va q n :
  holds_byte s A T root x v → as_inv (ld_mm s) A root T → user_va x → ¬ same_page va x →
  grows n (λ va', ¬ same_page va va') root (ld_mm s) m A A' T T' → q ∉ A → q mod PAGE_SIZE = 0 →
  kernMemCurr (ld_mm s) ≤ TEMP →
  (∀ y, y < TEMP → ¬ in_page q y → b y = ld_bytes s y) →
  holds_byte (mk_ld m b (ld_disk s) (ld_tasks s)) A' T' root x v.
Proof.
  intros (p & Hp & HpT & Hpte & Hb) Has Hux Hsame Hg Hq Hqa Htemp Hbytes.
  exists p. split; [by apply Hg|]. destruct (gr_data _ _ _ _ _ _ _ _ _ Hg p Hp HpT) as [HpT' _].
  split; [done|]. split.
  - simpl. by rewrite (gr_pte _ _ _ _ _ _ _ _ _ Hg).
  - simpl. rewrite Hbytes; [done| |].
    + destruct (page_below _ _ _ _ _ Has Hp). unfold PAGE_SIZE in *. pose proof (Z.mod_pos_bound x 4096). lia.
    + assert (p ≠ q) by (by intros ->). destruct (page_below _ _ _ _ _ Has Hp).
      apply (in_page_disjoint p q); try done. unfold in_page. unfold PAGE_SIZE. pose proof (Z.mod_pos_bound x 4096). lia.
Qed.

Lemma rounds_next l l' :
  0 < remaining_memsz l → 0 ≤ current_va l → l' = next_vars l (PAGE_SIZE - current_va l mod PAGE_SIZE)
    (if remaining_filesz l <? PAGE_SIZE - current_va l mod PAGE_SIZE then remaining_filesz l
     else PAGE_SIZE - current_va l mod PAGE_SIZE) →
  current_va l + PAGE_SIZE < 2 ^ 64 →
  0 ≤ rounds l' < rounds l ∧ current_va l' = current_va l + (PAGE_SIZE - current_va l mod PAGE_SIZE) ∧
  current_va l' mod PAGE_SIZE = 0.
Proof.
  intros Hm Hva -> Hlt. unfold next_vars, rounds. simpl. unfold PAGE_SIZE in *.
  pose proof (Z.mod_pos_bound (current_va l) 4096 ltac:(lia)).
  rewrite (u64_id (_ + _)) by (change (2 ^ 64) with 18446744073709551616 in Hlt; lia).
  assert ((current_va l + (4096 - current_va l mod 4096)) mod 4096 = 0) as E.
  { Z.to_euclidean_division_equations; lia. }
  rewrite E. rewrite Z.eqb_refl. rewrite (proj2 (Z.leb_gt (remaining_memsz l) 0)) by lia.
  split; [|done]. destruct (Z.ltb_spec (4096 - current_va l mod 4096) (remaining_memsz l)).
  - rewrite (proj2 (Z.leb_gt _ _)) by lia. destruct (Z.eqb_spec (current_va l mod 4096) 0);
      Z.to_euclidean_division_equations; lia.
  - rewrite (proj2 (Z.leb_le 0 0)) by lia. destruct (Z.eqb_spec (current_va l mod 4096) 0);
      Z.to_euclidean_division_equations; lia.
Qed.

Lemma pte_of_same_page m root va va' : same_page va va' → pte_of m root va = pte_of m root va'.
Proof.
  unfold same_page, PAGE_SIZE. intros E. unfold pte_of. rewrite !get_pte_walk.
  assert (∀ k, va / 2 ^ 12 / k = va' / 2 ^ 12 / k) as Ek by (change (2 ^ 12) with 4096; by rewrite E).
  assert (GET_VPN2 va = GET_VPN2 va' ∧ GET_VPN1 va = GET_VPN1 va' ∧ GET_VPN0 va = GET_VPN0 va') as (-> & -> & ->).
  { rewrite !GET_VPN2_eq, !GET_VPN1_eq, !GET_VPN0_eq.
    change (2 ^ 30) with (2 ^ 12 * 2 ^ 18). change (2 ^ 21) with (2 ^ 12 * 2 ^ 9).
    rewrite <- !Z.div_div by done. rewrite !Ek. change (2 ^ 12) with 4096. by rewrite E. }
  done.
Qed.

(** The bytes of the new page, as the program has them. *)
Lemma new_page_bytes t d b q va x off copy rem :
  0 ≤ ti_vaddr t ≤ va → 0 ≤ filesz t → va ≤ x < va + (PAGE_SIZE - va mod PAGE_SIZE) →
  off = image_offset t + Z.min (va - ti_vaddr t) (filesz t) →
  rem = filesz t - Z.min (va - ti_vaddr t) (filesz t) →
  copy = Z.min rem (PAGE_SIZE - va mod PAGE_SIZE) →
  (∀ i, 0 ≤ i < PAGE_SIZE - va mod PAGE_SIZE →
     b (q + va mod PAGE_SIZE + i) = if i <? copy then sd_cell d (off + i) else 0) →
  b (q + x mod PAGE_SIZE) = image_byte d t (x - ti_vaddr t) ∧ same_page va x.
Proof.
  intros Hvt Hfs Hx -> -> -> Hb. unfold same_page, PAGE_SIZE in *.
  assert (x / 4096 = va / 4096 ∧ x mod 4096 = va mod 4096 + (x - va)) as [Hd Hmod].
  { Z.to_euclidean_division_equations; lia. }
  split; [|done]. rewrite Hmod, Z.add_assoc, Hb by lia. unfold image_byte.
  destruct (Z.ltb_spec (x - ti_vaddr t) (filesz t)).
  - rewrite (proj2 (Z.ltb_lt _ _)) by lia. f_equal. lia.
  - by rewrite (proj2 (Z.ltb_ge _ _)) by lia.
Qed.

Lemma load_step_ok t root pid d s l A T :
  task_ok t → loading t root d s l A T → 0 < remaining_memsz l →
  wp (load_step root pid l) s (λ r s', ∃ l' A' T', r = inl l' ∧ loading t root d s' l' A' T' ∧
    0 ≤ rounds l' < rounds l).
Proof.
  intros [Hk1 Hk2 Hk3 Hk4 Hk5] [Has Hdisk Hva Hfirst Hoff Hfile Hmem Hend Hdone Htemp] Hrem.
  change (2 ^ 38) with 274877906944 in Hk2. change (2 ^ 31) with 2147483648 in Hk5.
  set (va := current_va l) in *. set (po := va mod PAGE_SIZE).
  pose proof (Z.mod_pos_bound va PAGE_SIZE ltac:(unfold PAGE_SIZE; lia)) as Hpo. fold po in Hpo.
  unfold PAGE_SIZE in Hend, Hk2.
  assert (user_va va) as Huva by (unfold user_va; change (2 ^ 38) with 274877906944; lia).
  destruct (rounds_next l _ Hrem ltac:(lia) eq_refl) as (Hr & Hva' & Hal).
  { fold va. unfold PAGE_SIZE. change (2 ^ 64) with 18446744073709551616. lia. }
  fold va po in Hr, Hva', Hal.
  assert (1 ≤ rounds l) as Hr1 by lia.
  assert (room (ld_mm s) 3) as Hroom.
  { unfold room. pose proof (as_inv_curr _ _ _ _ Has). unfold PAGE_SIZE, TEMP, MEMORY_SIZE_END, KVA_PA_OFFSET in *. nia. }
  pose proof (alloc_page_helper_ok (ld_mm s) A root T va pid Has Hroom Huva) as Halloc.
  apply wp_iff in Halloc as (q & m & Halloc & A' & T' & Has' & Hg & HqA & HqA' & HqT & Hpte & _).
  rewrite (wp_ok _ _ _ _ _ (load_step_page s root pid l q m Hrem ltac:(lia) Halloc)).
  fold va po. set (copy := if remaining_filesz l <? PAGE_SIZE - po then remaining_filesz l else PAGE_SIZE - po) in *. eexists _, A', T'. split; [done|]. split; [|done].
  pose proof (gr_curr _ _ _ _ _ _ _ _ _ Hg) as Hcurr.
  destruct (page_below _ _ _ _ _ Has' HqA') as [Hqa Hqb].
  assert (q + PAGE_SIZE ≤ TEMP ∧ kernMemCurr (ld_mm s) ≤ TEMP) as [HqT1 HsT].
  { unfold PAGE_SIZE in *. nia. }
  assert (copy = Z.min (remaining_filesz l) (PAGE_SIZE - po)) as Hcopy.
  { unfold copy. destruct (Z.ltb_spec (remaining_filesz l) (PAGE_SIZE - po)); lia. }
  destruct (page_filled d (memset (ld_bytes s) q 0 (Z.to_nat PAGE_SIZE)) q po copy (current_offset l))
    as [Hin Hout]; [done|lia|done|lia|change (2 ^ 31) with 2147483648; lia|].
  rewrite Hdisk. set (b := clear_rest _ _ _ _) in *.
  assert (∀ y, y < TEMP → ¬ in_page q y → b y = ld_bytes s y) as Hb.
  { intros y Hy Hny. rewrite Hout by done. unfold in_page in Hny.
    destruct (memset_ok (ld_bytes s) q 0 (Z.to_nat PAGE_SIZE)) as [_ Ho]. apply Ho. unfold PAGE_SIZE in *. lia. }
  assert (current_va l = va) as Eva by done.
  unfold next_vars in Hva', Hal, Hr |- *. cbn [current_va] in Hva', Hal.
  assert (0 ≤ rounds l - 1 - rounds (next_vars l (PAGE_SIZE - po) copy)) as Hr2 by (unfold next_vars; lia).
  unfold next_vars in Hr2.
  split; cbn [ld_mm ld_disk current_va current_offset remaining_filesz remaining_memsz].
  - done.
  - done.
  - rewrite Hva'. lia.
  - by right.
  - rewrite Hva', u64_id by lia. lia.
  - rewrite Hva'. lia.
  - rewrite Hva'. destruct (Z.ltb_spec (PAGE_SIZE - po) (remaining_memsz l)); lia.
  - rewrite Hva'. unfold PAGE_SIZE in *. lia.
  - rewrite Hva'. intros x Hx. destruct (decide (x < va)) as [Hlt|Hge].
    + rewrite <- Hdisk. eapply (holds_byte_step s m b A A' T T'); try done.
      * rewrite Hdisk. apply Hdone. lia.
      * unfold user_va. change (2 ^ 38) with 274877906944. lia.
      * unfold same_page. intros E. destruct Hfirst as [|Hz]; [lia|].
        unfold PAGE_SIZE in *. revert E Hz. clear -Hlt. Z.to_euclidean_division_equations; lia.
    + destruct (new_page_bytes t d b q va x _ copy _ ltac:(lia) ltac:(lia) ltac:(fold po; lia) Hoff Hfile Hcopy Hin)
        as [Hbx Hsp].
      exists q. cbn [ld_mm ld_bytes]. by rewrite <- (pte_of_same_page _ _ _ _ Hsp).
  - unfold PAGE_SIZE in *. nia.
Qed.

(** ** The whole program *)

Lemma rounds_fuel t l : 0 ≤ memsz t → remaining_memsz l = memsz t → (Z.to_nat (rounds l) < load_fuel (memsz t))%nat.
Proof.
  intros Hm E. unfold load_fuel, rounds. rewrite E. unfold PAGE_SIZE. pose proof (Z.div_pos (memsz t) 4096).
  destruct (memsz t <=? 0), (current_va l mod 4096 =? 0); lia.
Qed.

Lemma load_loop_ok t root pid s A T :
  as_inv (ld_mm s) A root T → task_ok t →
  kernMemCurr (ld_mm s) + (memsz t / PAGE_SIZE + 2) * (3 * PAGE_SIZE) ≤ TEMP →
  wp (while_ (load_fuel (memsz t)) (load_step root pid)
       (mk_lv (ti_vaddr t) (image_offset t) (filesz t) (memsz t))) s (λ _ s', ∃ A' T',
    as_inv (ld_mm s') A' root T' ∧
    ∀ k, 0 ≤ k < memsz t → holds_byte s' A' T' root (ti_vaddr t + k) (image_byte (ld_disk s) t k)).
Proof.
  intros Has Hok Htemp. pose proof Hok as [Hk1 Hk2 Hk3 Hk4 Hk5].
  assert (0 ≤ memsz t / PAGE_SIZE) by (apply Z.div_pos; [lia|done]).
  apply (wp_while (λ l s', ∃ A' T', loading t root (ld_disk s) s' l A' T') (λ l _, Z.to_nat (rounds l))).
  - exists A, T. split; cbn [current_va current_offset remaining_filesz remaining_memsz]; try done; try lia.
    + unfold PAGE_SIZE. lia.
    + unfold rounds. simpl. unfold PAGE_SIZE in *. destruct (memsz t <=? 0), (ti_vaddr t mod 4096 =? 0); lia.
  - by apply rounds_fuel; [lia|].
  - intros l s' (A' & T' & HI). destruct (Z.leb_spec (remaining_memsz l) 0) as [Hle|Hgt].
    + unfold load_step. rewrite (proj2 (Z.leb_le _ _)) by done. rewrite wp_ret. exists A', T'.
      split; [apply HI|]. intros k Hk. rewrite <- (Z.add_simpl_l (ti_vaddr t) k) at 2.
      apply (lo_done _ _ _ _ _ _ _ HI). pose proof (lo_mem _ _ _ _ _ _ _ HI). lia.
    + eapply wp_mono; [by eapply load_step_ok|]. intros r s'' (l' & A'' & T'' & -> & HI' & Hr). split; [eauto|lia].
Qed.

Lemma first_task_ok (ts : list task_info_t) i t :
  ts !! i = Some t → (i < TASK_MAXNUM)%nat → ti_name t ≠ [] →
  (∀ j u, (j < i)%nat → ts !! j = Some u → ti_name u ≠ ti_name t) →
  first_index TASK_MAXNUM (λ i, match ts !! i with
    | Some u => negb (bool_decide (ti_name t = [])) && bool_decide (ti_name u = ti_name t)
    | None => false end) = Some i.
Proof.
  intros Hi Hlt Hne Hfst. apply first_index_Some. rewrite Hi, (bool_decide_false (_ = [])) by done.
  split; [done|]. split; [by rewrite bool_decide_true|]. intros j Hj.
  destruct (ts !! j) as [u|] eqn:Hu; [|done]. by rewrite bool_decide_false by (by eapply Hfst).
Qed.

(** C19: loading a program by name ends, returns its entry point, and leaves
    in the process's address space, at every address of its [memsz] bytes, the
    byte that the image on the card has there, and zero beyond [filesz]; an
    address space with the loaded pages is again well formed.  The pages are
    taken from below the TEMP buffer, which the loop also writes. *)
Theorem load_task_img_spec s i t root pid A T :
  as_inv (ld_mm s) A root T → ld_tasks s !! i = Some t → (i < TASK_MAXNUM)%nat → ti_name t ≠ [] →
  (∀ j u, (j < i)%nat → ld_tasks s !! j = Some u → ti_name u ≠ ti_name t) →
  task_ok t → kernMemCurr (ld_mm s) + (memsz t / PAGE_SIZE + 2) * (3 * PAGE_SIZE) ≤ TEMP →
  wp (load_task_img (ti_name t) root pid) s (λ r s', r = ti_vaddr t ∧ ∃ A' T',
    as_inv (ld_mm s') A' root T' ∧
    ∀ k, 0 ≤ k < memsz t → holds_byte s' A' T' root (ti_vaddr t + k) (image_byte (ld_disk s) t k)).
Proof.
  intros Has Hi Hlt Hne Hfst Hok Htemp. unfold load_task_img. rewrite wp_bind, wp_get.
  rewrite (first_task_ok _ i t) by done. rewrite wp_bind, (wp_of_opt_Some _ _ _ _ Hi), wp_bind.
  eapply wp_mono; [by eapply load_loop_ok|]. intros [] s' HI. by rewrite wp_ret.
Qed.
End Loader.

Definition ex_task : task_info_t := mk_task [115; 104] 0x1234 0x10000 0x1800 0x1100.
Definition ex_card (n : Z) : Z := n mod 256.
Definition ex_ld : ld_state := mk_ld mm_one (λ _, 0) ex_card [mk_task [97] 0 0 0 0; ex_task].

Lemma load_task_img_spec_witness :
  wp (load_task_img (ti_name ex_task) FREEMEM_KERNEL 2) ex_ld (λ r s', r = 0x10000 ∧ ∃ A' T',
    as_inv (ld_mm s') A' FREEMEM_KERNEL T' ∧
    ∀ k, 0 ≤ k < 0x1800 → holds_byte s' A' T' FREEMEM_KERNEL (0x10000 + k) (image_byte ex_card ex_task k)).
Proof.
  apply (load_task_img_spec ex_ld 1 ex_task FREEMEM_KERNEL 2 {[FREEMEM_KERNEL]} empty_as).
  - exact as_inv_one.
  - done.
  - unfold TASK_MAXNUM. lia.
  - done.
  - intros [|j] u Hj; [|lia]. by intros [= <-].
  - by split; vm_compute.
  - by vm_compute.
Defined.
