(* ===== verification/Proc.v ===== *)
(** kernel/sched/proc.c, and the parts of sched.c and smp.c that use it:
    processes and threads from [do_exec] to [do_exit].

    [kstate] puts the components together: one scheduler under the tables of
    mutexes, barriers and mailboxes, one page allocator under the address
    spaces, the swap area and the loader; [k_bytes] is the byte memory that the
    running process's page table shows, its own pages and the kernel's. The card is seen in words of pages by
    the swap area ([vm_sw]) and in bytes by the loader ([k_card]); the two use
    different sectors of it. *)
From S2P Require Import Prelude KMonad KList Pgtable MM PageTable Swap Shm Vm CString Sched.
From S2P Require Import Resource Lock Barrier Mbox ExecStack Loader.

Definition KERNEL_PAGE_NUM : Z := 8.
Definition KERNEL_STACK_1 : Z := 0xffffffc050500000 - REGS_CONTEXT_SIZE.
Definition KERNEL_STACK_0 : Z := KERNEL_STACK_1 - PAGE_SIZE * 100.
Definition ROOT_INODE_NUM : Z := 0.

Section Proc.
Context {D : Type} `{!BlockDevice 64 D} {C : Type} `{!BlockDevice SECTOR_BYTES C}.

(** The address of [ret_from_exception] and of the process control blocks. *)
Context (ret_from_exception : Z) (pcb_addr : tcb → Z).

Record kstate := mk_k {
  k_sched : sched_state;
  k_locks : list mutex_lock_t;
  k_bars : list barrier_t;
  k_boxes : list mailbox_t;
  k_vm : vm_state (D := D);
  k_bytes : bmem;
  k_card : C;
  k_tasks : list task_info_t;
  k_satp : Z * Z
}.

Definition k_upd_sched (x : sched_state) (s : kstate) : kstate :=
  mk_k x (k_locks s) (k_bars s) (k_boxes s) (k_vm s) (k_bytes s) (k_card s) (k_tasks s) (k_satp s).
Definition k_upd_locks (x : lock_state) (s : kstate) : kstate :=
  mk_k (r_sched x) (slots x) (k_bars s) (k_boxes s) (k_vm s) (k_bytes s) (k_card s) (k_tasks s) (k_satp s).
Definition k_upd_bars (x : barrier_state) (s : kstate) : kstate :=
  mk_k (r_sched x) (k_locks s) (slots x) (k_boxes s) (k_vm s) (k_bytes s) (k_card s) (k_tasks s) (k_satp s).
Definition k_upd_mbox (x : mbox_state) (s : kstate) : kstate :=
  mk_k (mb_sched x) (k_locks s) (k_bars s) (mailboxes x) (mb_vm x) (mb_user x) (k_card s) (k_tasks s) (k_satp s).
Definition k_upd_vm (x : vm_state) (s : kstate) : kstate :=
  mk_k (k_sched s) (k_locks s) (k_bars s) (k_boxes s) x (k_bytes s) (k_card s) (k_tasks s) (k_satp s).
Definition k_upd_ld (x : ld_state) (s : kstate) : kstate :=
  mk_k (k_sched s) (k_locks s) (k_bars s) (k_boxes s) (vm_upd_mm (ld_mm x) (k_vm s))
    (ld_bytes x) (ld_disk x) (ld_tasks x) (k_satp s).
Definition k_upd_bytes (m : bmem) (s : kstate) : kstate :=
  mk_k (k_sched s) (k_locks s) (k_bars s) (k_boxes s) (k_vm s) m (k_card s) (k_tasks s) (k_satp s).
Definition set_satp (asid ppn : Z) (s : kstate) : kstate :=
  mk_k (k_sched s) (k_locks s) (k_bars s) (k_boxes s) (k_vm s) (k_bytes s) (k_card s) (k_tasks s) (asid, ppn).

Definition in_sched {A} (m : M sched_state A) : M kstate A := zoom k_sched k_upd_sched m.
Definition in_locks {A} (m : M lock_state A) : M kstate A :=
  zoom (λ s, mk_res (k_sched s) (k_locks s)) k_upd_locks m.
Definition in_bars {A} (m : M barrier_state A) : M kstate A :=
  zoom (λ s, mk_res (k_sched s) (k_bars s)) k_upd_bars m.
Definition in_mbox {A} (m : M mbox_state A) : M kstate A :=
  zoom (λ s, mk_mb (mk_res (k_sched s) (k_boxes s)) (k_vm s) (k_bytes s)) k_upd_mbox m.
Definition in_vm {A} (m : M vm_state A) : M kstate A := zoom k_vm k_upd_vm m.
Definition in_mm {A} (m : M mm_state A) : M kstate A := in_vm (on_vmm m).
Definition in_ld {A} (m : M ld_state A) : M kstate A :=
  zoom (λ s, mk_ld (vm_mm (k_vm s)) (k_bytes s) (k_card s) (k_tasks s)) k_upd_ld m.

Definition the_current : M kstate tcb := gets (λ s, current (k_sched s)).
Definition current_pcb : M kstate pcb_t := gets (λ s, pcbs (k_sched s) (current (k_sched s))).

(** ** Boot *)

(** The process control block of the idle process of core [c]. *)
Definition idle_pcb (c : nat) (stack : Z) (p : pcb_t) : pcb_t :=
  mk_pcb stack stack stack (kernel_stack_base p) (user_stack_base p) 0 (pname p) TASK_RUNNING
    (cursor_x p) (cursor_y p) (wakeup_time p) (next_target p) (progress p) (killed p) (Z.of_nat c)
    MASK_ALL (thread_group_id p) (pa2kva PGDIR_PA) ROOT_INODE_NUM.
Definition boot_pcb (stack_base : Z) (p : pcb_t) : pcb_t :=
  mk_pcb stack_base (user_sp p) (full_context p) stack_base (user_stack_base p) (pid p) (pname p)
    TASK_EXITED (cursor_x p) (cursor_y p) (wakeup_time p) (next_target p) (progress p) 1 (cpuid p)
    MASK_ALL 0 (pgdir_kva p) ROOT_INODE_NUM.

Definition init_pcb : M kstate unit :=
  in_sched (q_init (NWait (Idle 0)));;
  in_sched (set_pcb (Idle 0) (idle_pcb 0 KERNEL_STACK_0));;
  for_ 0 TASK_MAXNUM (λ i,
    in_sched (q_init (NWait (Proc i)));;
    stack ← in_mm (allocPage KERNEL_PAGE_NUM);
    in_sched (set_pcb (Proc i) (boot_pcb stack)));;
  in_sched (modify (upd_current (Idle 0))).

(** [smp_init] of smp.c, up to its call of [init_exception]. *)
Definition smp_init : M kstate unit :=
  i ← gets (λ s, cpu (k_sched s));
  in_sched (q_init (NWait (Idle i)));;
  in_sched (set_pcb (Idle i) (idle_pcb i KERNEL_STACK_1));;
  in_sched (modify (upd_current (Idle i))).

(** ** Leaving *)

(** The end of [force_exit] and of [do_exit]. *)
Definition set_exited (p : pcb_t) : pcb_t :=
  set_mask MASK_ALL (set_group 0 (set_killed 1 (set_status TASK_EXITED p))).
Definition leave : M sched_state unit :=
  s ← get;
  set_pcb (current s) set_exited;;
  wakeup (NWait (current s)).

(** What [force_exit] and [do_exit] do for [current_running]. *)
Definition free_process : M kstate unit :=
  p ← current_pcb;
  in_locks (free_lock (pid p));;
  in_bars free_barrier;;
  in_mbox free_mbox;;
  p ← current_pcb;
  (if thread_group_id p =? 0 then in_vm (free_all_pages (pgdir_kva p) (pgdir_kva p)) else mret ());;
  in_sched leave.

Definition force_exit (t : tcb) : M kstate unit :=
  current_running_back ← the_current;
  in_sched (modify (upd_current t));;
  free_process;;
  in_sched (modify (upd_current current_running_back)).

Definition clean_zombie : M kstate unit :=
  for_ 0 TASK_MAXNUM (λ i,
    p ← in_sched (the_pcb (Proc i));
    if bool_decide (status p = TASK_BLOCKED) && (killed p =? 1) then force_exit (Proc i) else mret ()).

(** ** The scheduler *)

(** [do_scheduler] up to its call of [switch_to]: the process that runs next.
    [satp] gets its identifier and root table. *)
Definition do_scheduler : M kstate tcb :=
  in_sched check_sleeping;;
  clean_zombie;;
  next ← in_sched pick_next;
  p ← in_sched (the_pcb next);
  modify (set_satp (pid p) (Z.shiftr (kva2pa (pgdir_kva p)) NORMAL_PAGE_SHIFT));;
  mret next.

Definition do_exit : M kstate tcb :=
  free_process;;
  do_scheduler.

(** What a process does when [switch_to] comes back to it: [Some next] when it
    was killed meanwhile and [do_exit] gave the core to [next]. *)
Definition scheduler_return : M kstate (option tcb) :=
  p ← current_pcb;
  if killed p =? 0 then mret None else next ← do_exit; mret (Some next).

(** How a system call ends: with a value, or with the core given to [next];
    the caller's call then ends with [v] once it runs again. *)
Inductive call_result := Returned (v : Z) | Switched (next : tcb) (v : Z).

Definition do_sleep (sleep_time : Z) : M kstate call_result :=
  in_sched (do_sleep_block sleep_time);;
  next ← do_scheduler;
  mret (Switched next 0).

(** ** Looking for a process, killing it, waiting for it *)

Definition get_pcb (p : Z) : M sched_state (option tcb) :=
  s ← get;
  mret (Proc <$> first_index TASK_MAXNUM (λ i,
    let b := pcbs s (Proc i) in
    (pid b =? p) && negb (bool_decide (status b = TASK_EXITED)) && negb (killed b =? 1))).

Definition do_kill (p : Z) : M sched_state Z :=
  if p =? 0 then mret 0 else
  s ← get;
  if p =? pid (pcbs s (current s)) then mret 0 else
  pcb_ptr ← get_pcb p;
  match pcb_ptr with
  | None => mret 0
  | Some t =>
      if (p <? 0) || (process_id s <? p) then mret 0 else
      set_pcb t (set_killed 1);;
      mret 1
  end.

(** [do_waitpid] and [do_thread_join] up to the call of [do_scheduler]: [true]
    when the call is made. *)
Definition wait_for (p : Z) (allowed : pcb_t → pcb_t → bool) : M sched_state bool :=
  pcb_ptr ← get_pcb p;
  match pcb_ptr with
  | None => mret false
  | Some t =>
      s ← get;
      if negb (allowed (pcbs s (current s)) (pcbs s t)) then mret false else
      do_block (NList (current s)) (NWait t);;
      mret true
  end.
Definition wait_call (p : Z) (allowed : pcb_t → pcb_t → bool) : M kstate call_result :=
  blocked ← in_sched (wait_for p allowed);
  if (blocked : bool) then next ← do_scheduler; mret (Switched next p) else mret (Returned 0).
Definition any_process (_ _ : pcb_t) : bool := true.
Definition own_thread (cur t : pcb_t) : bool := thread_group_id t =? pid cur.
Definition do_waitpid (p : Z) : M kstate call_result := wait_call p any_process.
Definition do_thread_join (p : Z) : M kstate call_result := wait_call p own_thread.

Definition do_getpid : M sched_state Z := gets (λ s, pid (pcbs s (current s))).

(** ** New processes and threads *)

(** The first free slot of the process table, taken for a new process. *)
Definition take_pcb (grp : Z → Z) : M sched_state (option nat) :=
  s ← get;
  match first_index TASK_MAXNUM (λ i, bool_decide (status (pcbs s (Proc i)) = TASK_EXITED)) with
  | None => mret None
  | Some idx =>
      let cur := pcbs s (current s) in
      modify (upd_process_id (s32 (process_id s + 1)));;
      set_pcb (Proc idx) (set_fresh (process_id s) (grp (pid cur)) (mask cur) (dir_inode cur));;
      mret (Some idx)
  end.

(** The new process's stacks are laid out and it becomes ready. *)
Definition set_stacks (t : tcb) (st : stacks) : M kstate unit :=
  modify (k_upd_bytes (st_mem st));;
  in_sched (set_pcb t (set_stack_regs (st_kernel_sp st) (st_user_sp st) (st_full_context st))).
Definition make_ready (t : tcb) (name : list Z) : M kstate unit :=
  in_sched (q_init (NList t));;
  in_sched (q_init (NWait t));;
  in_sched (set_pcb t (set_pname name));;
  in_sched (q_enqueue (NList t) NReady).

Definition str_fuel : nat := Z.to_nat (PAGE_SIZE + 1).

(** [argv]: the addresses of the argument strings. *)
Definition do_exec (name : list Z) (argv : list Z) : M kstate Z :=
  idx ← in_sched (take_pcb (λ _, 0));
  match idx with
  | None => mret 0
  | Some idx =>
      let t := Proc idx in
      id ← gets (λ s, pid (pcbs (k_sched s) t));
      pgdir ← in_mm (allocPage 1);
      in_mm (share_pgtable pgdir (pa2kva PGDIR_PA));;
      in_sched (set_pcb t (set_pgdir pgdir));;
      entry_point ← in_ld (load_task_img name pgdir id);
      if entry_point =? 0 then in_mm (freePage pgdir);; mret 0 else
      user_stack_base_kva ← in_ld (new_page (USER_STACK_ADDR - PAGE_SIZE) pgdir id);
      p ← in_sched (the_pcb t);
      m ← gets k_bytes;
      st ← of_opt (init_pcb_stack str_fuel ret_from_exception m
        (kernel_stack_base p + PAGE_SIZE * KERNEL_PAGE_NUM) (user_stack_base_kva + PAGE_SIZE)
        entry_point (pcb_addr t) argv);
      set_stacks t st;;
      make_ready t name;;
      mret id
  end.

Definition thread_name : list Z := [95; 116; 104; 114; 101; 97; 100].

Definition do_thread_create (start_routine arg : Z) (arg_bytes : nat) : M kstate Z :=
  idx ← in_sched (take_pcb (λ cur, cur));
  match idx with
  | None => mret 0
  | Some idx =>
      let t := Proc idx in
      id ← gets (λ s, pid (pcbs (k_sched s) t));
      cur ← current_pcb;
      let thread_stack_base_uva := u64 (USER_STACK_ADDR - PAGE_SIZE - id * PAGE_SIZE) in
      thread_stack_base_kva ← in_ld (new_page (thread_stack_base_uva - PAGE_SIZE) (pgdir_kva cur) id);
      in_sched (set_pcb t (set_pgdir (pgdir_kva cur)));;
      p ← in_sched (the_pcb t);
      m ← gets k_bytes;
      set_stacks t (init_thread_stack ret_from_exception m (kernel_stack_base p + PAGE_SIZE)
        (thread_stack_base_kva + PAGE_SIZE) (thread_stack_base_uva + PAGE_SIZE) start_routine
        (pcb_addr t) arg arg_bytes);;
      make_ready t thread_name;;
      mret id
  end.

(** [do_taskset]: [Some next] when it gave the core to [next]. *)
Definition do_taskset (new_mask : Z) (name : option (list Z)) (p : Z) (argv : list Z) : M kstate (option tcb) :=
  if new_mask <=? 0 then mret None else
  tar_pid ← (match name with Some nm => do_exec nm argv | None => mret p end);
  pcb_ptr ← in_sched (get_pcb tar_pid);
  match pcb_ptr with
  | None => mret None
  | Some t =>
      in_sched (set_pcb t (set_mask new_mask));;
      b ← in_sched (the_pcb t);
      if bool_decide (status b = TASK_RUNNING) && (Z.land new_mask (Z.shiftl 1 (cpuid b)) =? 0)
      then next ← do_scheduler; mret (Some next) else mret None
  end.
End Proc.

(** ** Looking for a process *)

(** [t] is a process with identifier [p] that has not exited nor been killed. *)
Record alive (s : sched_state) (p : Z) (t : tcb) : Prop := {
  al_proc : is_proc t;
  al_pid : pid (pcbs s t) = p;
  al_status : status (pcbs s t) ≠ TASK_EXITED;
  al_killed : killed (pcbs s t) ≠ 1
}.

Definition pids_unique (s : sched_state) : Prop := ∀ p t u, alive s p t → alive s p u → t = u.

Definition alive_b (s : sched_state) (p : Z) (i : nat) : bool :=
  let b := pcbs s (Proc i) in
  (pid b =? p) && negb (bool_decide (status b = TASK_EXITED)) && negb (killed b =? 1).

Lemma alive_b_true s p i : (i < TASK_MAXNUM)%nat → alive_b s p i = true ↔ alive s p (Proc i).
Proof.
  intros Hi. unfold alive_b. rewrite !andb_true_iff, !negb_true_iff, bool_decide_eq_false, Z.eqb_eq, Z.eqb_neq.
  split; [|by intros []]. intros [[? ?] ?]. split; try done. by exists i.
Qed.

Lemma get_pcb_ok s p :
  ∃ r, get_pcb p s = Ok r s ∧ match r with Some t => alive s p t | None => ∀ t, ¬ alive s p t end.
Proof.
  eexists. split; [reflexivity|]. change (first_index TASK_MAXNUM _) with (first_index TASK_MAXNUM (alive_b s p)).
  destruct (first_index TASK_MAXNUM (alive_b s p)) as [i|] eqn:E; simpl.
  - apply first_index_Some in E as (Hi & Hb & _). by apply alive_b_true.
  - rewrite first_index_None in E. intros t Ht. destruct (al_proc _ _ _ Ht) as (i & -> & Hi).
    apply alive_b_true in Ht; [|done]. by rewrite E in Ht.
Qed.

(** [do_kill] marks exactly the live process with the identifier, never
    the kernel's nor the caller's own, and answers 1; in every other case it
    answers 0 and changes nothing. It touches no queue and no status: a blocked
    process stays where it is until a scheduler clears it away. *)
Theorem do_kill_spec s p :
  wp (do_kill p) s (λ r s',
    (r = 1 ∧ ∃ t, alive s p t ∧ t ≠ current s ∧ 0 < p ≤ process_id s ∧ s' = upd_pcb t (set_killed 1) s) ∨
    (r = 0 ∧ s' = s ∧
      (p ≤ 0 ∨ p = pid (pcbs s (current s)) ∨ process_id s < p ∨ ∀ t, ¬ alive s p t))).
Proof.
  unfold do_kill. destruct (Z.eqb_spec p 0) as [->|Hp]; [right; split; [done|]; split; [done|lia]|].
  rewrite wp_bind, wp_get. destruct (Z.eqb_spec p (pid (pcbs s (current s)))) as [->|Hc].
  { right. split; [done|]. split; [done|]. auto. }
  destruct (get_pcb_ok s p) as ([t|] & Hg & Ht); rewrite wp_bind, (wp_ok _ _ _ _ _ Hg).
  - destruct (Z.ltb_spec p 0); [right; split; [done|]; split; [done|lia]|].
    destruct (Z.ltb_spec (process_id s) p); simpl; [right; split; [done|]; split; [done|lia]|].
    left. split; [done|]. exists t. split; [done|]. split; [|split; [lia|done]].
    intros ->. apply Hc. symmetry. apply Ht.
  - right. split; [done|]. split; [done|]. auto.
Qed.

(** C20: waiting for a process ([do_waitpid]; [do_thread_join] for a thread of
    the caller): when a live process has the identifier and may be waited for,
    the caller is blocked at the tail of that process's wait list, otherwise
    the call fails at once and nothing changes. *)
Theorem wait_for_spec s Q p allowed :
  sched_inv s Q → runs s Q → pids_unique s → (∀ t, is_proc t → is_Some (Q !! NWait t)) →
  wp (wait_for p allowed) s (λ b s', if b : bool then
    ∃ t ws, alive s p t ∧ allowed (pcbs s (current s)) (pcbs s t) = true ∧ Q !! NWait t = Some ws ∧
      sched_inv s' (<[NWait t := ws ++ [current s]]> Q) ∧
      status (pcbs s' (current s)) = TASK_BLOCKED
    else s' = s ∧ ∀ t, alive s p t → allowed (pcbs s (current s)) (pcbs s t) = false).
Proof.
  intros HI [Hpr Hq Hk] Hu Hw. unfold wait_for.
  destruct (get_pcb_ok s p) as ([t|] & Hg & Ht); rewrite wp_bind, (wp_ok _ _ _ _ _ Hg).
  - rewrite wp_bind, wp_get. destruct (allowed (pcbs s (current s)) (pcbs s t)) eqn:Ha; simpl negb; cbv iota.
    + destruct (Hw t) as [ws Hws]; [apply Ht|].
      destruct (do_block_ok s Q (NWait t) ws (current s)) as (h & Hb & HL);
        [apply HI|done|done|by apply is_proc_valid|done|].
      rewrite wp_bind, (wp_ok _ _ _ _ _ Hb), wp_ret. exists t, ws.
      do 3 (split; [done|]). split; [by eapply sched_inv_block|]. simpl. by rewrite decide_True.
    + rewrite wp_ret. split; [done|]. intros u Hua. by rewrite (Hu p u t).
  - rewrite wp_ret. split; [done|]. intros u Hua. by apply Ht in Hua.
Qed.

(** ** Leaving *)

(** The control block of a process in no queue may change in any way. *)
Lemma sched_inv_pcb s Q t f : sched_inv s Q → is_proc t → ¬ queued Q t → sched_inv (upd_pcb t f s) Q.
Proof.
  intros HI (i & -> & Hi) Hq. split; try apply HI.
  - intros hd xs u Hx Hu. simpl. rewrite decide_False; [by apply (sv_status _ _ HI _ _ _ Hx)|].
    intros ->. apply Hq. by exists hd, xs.
Qed.

(** The end of a process: it is marked as exited and killed, its slot loses
    its thread group and processor mask, and every process that waits for it
    becomes ready, in the order in which they came; no other process changes. *)
Theorem leave_spec s Q ws rs :
  sched_inv s Q → is_proc (current s) → ¬ queued Q (current s) →
  Q !! NWait (current s) = Some ws → Q !! NReady = Some rs →
  wp leave s (λ _ s',
    sched_inv s' (<[NReady := rs ++ ws]> (<[NWait (current s) := []]> Q)) ∧
    pcbs s' (current s) = set_exited (pcbs s (current s)) ∧
    (∀ u, u ∈ ws → pcbs s' u = set_status TASK_READY (pcbs s u)) ∧
    (∀ u, u ≠ current s → u ∉ ws → pcbs s' u = pcbs s u) ∧
    current s' = current s ∧ cpu s' = cpu s).
Proof.
  intros HI Hp Hq Hws Hrs. set (t := current s). set (s1 := upd_pcb t set_exited s).
  assert (sched_inv s1 Q) as HI1 by by apply sched_inv_pcb.
  assert (t ∉ ws) as Ht by (intros Hin; apply Hq; by exists (NWait t), ws).
  unfold leave. rewrite wp_bind, wp_get. fold t. rewrite wp_bind. change (wp (set_pcb t set_exited) s ?P) with (P () s1).
  cbv beta. destruct (wakeup_ok s1 Q (NWait t) ws rs) as (h & Hw & HL); [apply HI1|done|done|done| |].
  { intros u Hu. apply is_proc_valid. by apply (sv_proc _ _ HI (NWait t) ws). }
  rewrite (wp_ok _ _ _ _ _ Hw). split; [|split; [|split; [|split; [|done]]]].
  - eapply sched_inv_wake; try done; [|by intros u ?%not_elem_of_nil].
    intros u Hu. split; [done|]. apply not_elem_of_nil.
  - cbn [pcbs with_pcbs_heap upd_heap upd_pcbs]. rewrite wake_pcbs_lookup, decide_False by done.
    simpl. by rewrite decide_True.
  - intros u Hu. cbn [pcbs with_pcbs_heap upd_heap upd_pcbs]. rewrite wake_pcbs_lookup, decide_True by done.
    simpl. rewrite decide_False; [done|]. by intros ->.
  - intros u Hu Hn. cbn [pcbs with_pcbs_heap upd_heap upd_pcbs]. rewrite wake_pcbs_lookup, decide_False by done.
    simpl. by rewrite decide_False.
Qed.

(** ** What goes wrong *)

Section Wrong.
Context {D : Type} `{!BlockDevice 64 D} {C : Type} `{!BlockDevice SECTOR_BYTES C}.
Context (ret_from_exception : Z) (pcb_addr : tcb → Z).
Implicit Types (s : kstate (D := D) (C := C)).

Lemma allocPage_total n (m : mm_state) : ∃ p m', allocPage n m = Ok p m'.
Proof. unfold allocPage. rewrite bind_get. destruct (_ && _); eauto. Qed.
Lemma freePage_total p (m : mm_state) : ∃ m', freePage p m = Ok () m'.
Proof. unfold freePage. destruct (p =? 0); eauto. Qed.

(** A slot of the process table that [do_exec] takes for a program that does
    not exist is never given back: the slot stays READY in no queue, and the
    call reports a failure. *)
Lemma do_exec_unknown s name argv idx :
  (idx < TASK_MAXNUM)%nat → status (pcbs (k_sched s) (Proc idx)) = TASK_EXITED →
  (∀ j, (j < idx)%nat → status (pcbs (k_sched s) (Proc j)) ≠ TASK_EXITED) →
  (∀ j t, k_tasks s !! j = Some t → ti_name t ≠ name) →
  wp (do_exec ret_from_exception pcb_addr name argv) s (λ r s', r = 0 ∧
    status (pcbs (k_sched s') (Proc idx)) = TASK_READY ∧ heap (k_sched s') = heap (k_sched s) ∧
    ∀ u, u ≠ Proc idx → pcbs (k_sched s') u = pcbs (k_sched s) u).
Proof.
  intros Hi Hst Hlow Hname.
  assert (first_index TASK_MAXNUM (λ i, bool_decide (status (pcbs (k_sched s) (Proc i)) = TASK_EXITED)) = Some idx) as Hfst.
  { apply first_index_Some. split; [done|]. split; [by apply bool_decide_eq_true|].
    intros j Hj. by apply bool_decide_eq_false, Hlow. }
  assert (∀ f, first_index f (λ i, match k_tasks s !! i with
    | Some t => negb (bool_decide (name = [])) && bool_decide (ti_name t = name) | None => false end) = None) as Hnone.
  { intros f. apply first_index_None. intros j _. destruct (k_tasks s !! j) as [t|] eqn:E; [|done].
    rewrite (bool_decide_false (ti_name t = name)) by by eapply Hname. apply andb_false_r. }
  unfold do_exec, in_sched, in_mm, in_vm, on_vmm, take_pcb. rewrite wp_bind, wp_zoom, wp_bind, wp_get, Hfst.
  rewrite wp_bind, wp_modify, wp_bind. unfold set_pcb. rewrite wp_modify, wp_ret.
  rewrite wp_bind, wp_gets, wp_bind, !wp_zoom.
  match goal with |- wp (allocPage 1) ?m _ => destruct (allocPage_total 1 m) as (pg & m1 & Ha) end.
  rewrite (wp_ok _ _ _ _ _ Ha), wp_bind, !wp_zoom. unfold share_pgtable. rewrite wp_modify, wp_bind, wp_zoom, wp_modify.
  rewrite wp_bind. unfold in_ld. rewrite wp_zoom. unfold load_task_img. rewrite wp_bind, wp_get.
  cbn [ld_tasks k_tasks k_upd_sched k_upd_vm].
  match goal with |- context [first_index ?n ?f] => change (first_index n f) with (first_index n (λ i, match k_tasks s !! i with
    | Some t => negb (bool_decide (name = [])) && bool_decide (ti_name t = name) | None => false end)) end.
  rewrite Hnone, wp_ret. change (0 =? 0) with true. cbv iota. rewrite wp_bind, !wp_zoom.
  match goal with |- wp (freePage ?q) ?m _ => destruct (freePage_total q m) as (m2 & Hf) end.
  rewrite (wp_ok _ _ _ _ _ Hf), wp_ret. split; [done|]. simpl. rewrite !decide_True by done.
  split; [done|]. split; [done|]. intros u Hu. by rewrite !decide_False.
Qed.
End Wrong.

(** ** Examples *)

(** Process 4 waits in the queue [hd] of the example of Sched. *)
Definition ex_waiting (hd : node) : sched_state :=
  upd_pcb (Proc 4) (set_status TASK_BLOCKED)
    (upd_heap (default ∅ (enqueue ex_heap (NList (Proc 4)) hd)) ex_sched).

Lemma ex_waiting_inv hd : ex_queues !! hd = Some [] → hd ≠ NReady →
  sched_inv (ex_waiting hd) (<[hd := [Proc 4]]> ex_queues).
Proof.
  intros Hhd Hne. assert (is_proc (Proc 4)) as Hp by (exists 4%nat; split; [done|unfold TASK_MAXNUM; lia]).
  assert (¬ queued ex_queues (Proc 4)) as Hq by by apply ex_not_queued, not_elem_ex.
  destruct (linked_enqueue _ _ ex_linked hd [] (Proc 4)) as (h & He & HL); [done|done|by apply is_proc_valid|].
  unfold ex_waiting. rewrite He. by apply (sched_inv_block ex_sched ex_queues hd [] (Proc 4) h ex_sched_inv).
Qed.

Lemma ex_pids_unique : pids_unique ex_sched.
Proof.
  intros p t u [(i & -> & _) Hp1 Hs1 _] [(j & -> & _) Hp2 Hs2 _].
  do 4 (destruct i as [|i]; [do 4 (destruct j as [|j]; [simpl in *; congruence|]); done|]). done.
Qed.

Lemma wait_for_spec_witness :
  wp (wait_for 2 any_process) ex_sched (λ b s', (b : bool) = true ∧ status (pcbs s' (Proc 0)) = TASK_BLOCKED).
Proof.
  eapply wp_mono.
  - apply (wait_for_spec ex_sched ex_queues 2 any_process ex_sched_inv ex_sched_runs ex_pids_unique).
    intros t (i & -> & Hi). do 32 (destruct i as [|i]; [by eexists; vm_compute|]). unfold TASK_MAXNUM in Hi. lia.
  - intros [] s'; [by intros (t & ws & _ & _ & _ & _ & ?)|]. intros [_ H]. exfalso.
    assert (alive ex_sched 2 (Proc 1)) as Ha by (split; try done; exists 1%nat; split; [done|unfold TASK_MAXNUM; lia]).
    by specialize (H _ Ha).
Defined.

Lemma leave_spec_witness :
  wp leave (ex_waiting (NWait (Proc 0))) (λ _ s',
    status (pcbs s' (Proc 0)) = TASK_EXITED ∧ status (pcbs s' (Proc 4)) = TASK_READY).
Proof.
  eapply wp_mono.
  - apply (leave_spec (ex_waiting (NWait (Proc 0))) (<[NWait (Proc 0) := [Proc 4]]> ex_queues) [Proc 4] [Proc 1; Proc 2]).
    + by apply ex_waiting_inv; [vm_compute|].
    + exists 0%nat. split; [done|unfold TASK_MAXNUM; lia].
    + change (current _) with (Proc 0). apply not_queued_insert; [by apply ex_not_queued, not_elem_ex|]. by intros ?%list_elem_of_singleton.
    + change (current _) with (Proc 0). apply lookup_insert_eq.
    + by vm_compute.
  - intros _ s' (_ & Hc & Hw & _). split; [by change (current _) with (Proc 0) in Hc; rewrite Hc|]. rewrite (Hw (Proc 4)); [done|left].
Defined.

(** Process 4 was killed while it waits for mutex 1 of the running process; it
    belongs to a thread group, so no pages are freed. *)
Definition ex_zombie : kstate (D := Z → Z) (C := Z → Z) :=
  let x := upd_pcb (Proc 4) (λ p, set_group 1 (set_killed 1 (set_fresh 5 1 MASK_ALL 0 p))) (ex_waiting (NMutex 1)) in
  mk_k (upd_pcb (Proc 4) (λ p, set_killed 1 (set_status TASK_BLOCKED p)) x)
    ([ex_mutex UNLOCKED UNUSED 0; ex_mutex LOCKED 8 1] ++ replicate 14 (ex_mutex UNLOCKED UNUSED 0))
    (replicate 16 (mk_barrier UNLOCKED UNUSED 0 0)) (replicate 16 (mk_mbox UNLOCKED (replicate 64 0) [] 0 0 0)) (mk_vm (mk_swap mm_one [] [] 0 0 0 (λ _, 0)) [])
    (λ _, 0) (λ _, 0) [] (0, 0).

(** A process killed while it waits for a mutex is marked as exited by
    [clean_zombie] but stays linked in the mutex's queue: releasing the mutex
    makes the exited process READY again, and its owner. *)
Lemma zombie_gets_mutex :
  wp (clean_zombie;; in_locks (do_mutex_lock_release 1)) ex_zombie (λ _ s',
    status (pcbs (k_sched s') (Proc 4)) = TASK_READY ∧ killed (pcbs (k_sched s') (Proc 4)) = 1 ∧
    ml_pid <$> (k_locks s' !! 1%nat) = Some 5).
Proof. by vm_compute. Qed.
