(* ===== verification/LockSys.v ===== *)
(** The mutexes in use: processes on two cores that take and let go mutexes,
    sleep, exit and are preempted, as a step relation over the operations of
    Lock and Sched; a mutex belongs to one process at a time, and who waits for
    it gets it in turn. *)
From stdpp Require Import functions.
From S2P Require Import Prelude KMonad KList Sched Resource Lock Proc.

(** ** The calls *)

(** [do_scheduler] where nobody is killed, so that [clean_zombie] finds nothing. *)
Definition reschedule : M lock_state tcb := on_sched (check_sleeping;; pick_next).

Definition acquire_call (i : nat) : M lock_state bool :=
  blocked ← do_mutex_lock_acquire (Z.of_nat i);
  if (blocked : bool) then reschedule;; mret true else mret false.
Definition release_call (i : nat) : M lock_state unit := do_mutex_lock_release (Z.of_nat i).
Definition sleep_call (d : Z) : M lock_state tcb := on_sched (do_sleep_block d);; reschedule.

(** [do_exit] as far as mutexes and the scheduler go. *)
Definition exit_call : M lock_state tcb :=
  p ← gets cur_pid;
  free_lock p;;
  on_sched leave;;
  reschedule.

(** ** The system *)

(** Beside the state of the kernel, as the core in the kernel sees it: the
    process on the other core; the mutexes that a process has got from
    [do_mutex_lock_acquire] and not let go since; the mutex in whose
    [do_mutex_lock_acquire] it is; how often a mutex was let go. *)
Record sys := mk_sys {
  s_lk : lock_state;
  s_other : tcb;
  s_holds : tcb → gset nat;
  s_wants : tcb → option nat;
  s_given : nat → nat
}.

Definition s_cur (x : sys) : tcb := current (r_sched (s_lk x)).

(** A process of the table that was started and has not ended. *)
Definition live (s : sched_state) (t : tcb) : Prop := is_proc t ∧ status (pcbs s t) ≠ TASK_EXITED.

(** The process on this core can make a call. *)
Definition can_call (x : sys) : Prop := live (r_sched (s_lk x)) (s_cur x) ∧ s_wants x (s_cur x) = None.

(** The other core takes the kernel lock: its process is [current_running]. *)
Definition switch_core (x : sys) : sys :=
  let s := r_sched (s_lk x) in
  mk_sys (upd_sched (mk_sched (heap s) (pcbs s) (s_other x) (1 - cpu s) (timer s) (process_id s)) (s_lk x))
    (current s) (s_holds x) (s_wants x) (s_given x).
Definition set_clock (now : Z) (x : sys) : sys :=
  let s := r_sched (s_lk x) in
  mk_sys (upd_sched (mk_sched (heap s) (pcbs s) (current s) (cpu s) now (process_id s)) (s_lk x))
    (s_other x) (s_holds x) (s_wants x) (s_given x).

Definition after_acquire (x : sys) (i : nat) (blocked : bool) (l : lock_state) : sys :=
  if blocked then mk_sys l (s_other x) (s_holds x) (<[s_cur x := Some i]> (s_wants x)) (s_given x)
  else mk_sys l (s_other x) (<[s_cur x := {[i]} ∪ s_holds x (s_cur x)]> (s_holds x)) (s_wants x) (s_given x).
Definition after_return (x : sys) (i : nat) : sys :=
  mk_sys (s_lk x) (s_other x) (<[s_cur x := {[i]} ∪ s_holds x (s_cur x)]> (s_holds x))
    (<[s_cur x := None]> (s_wants x)) (s_given x).
Definition after_release (x : sys) (i : nat) (l : lock_state) : sys :=
  mk_sys l (s_other x) (<[s_cur x := s_holds x (s_cur x) ∖ {[i]}]> (s_holds x)) (s_wants x)
    (<[i := S (s_given x i)]> (s_given x)).
Definition after_exit (x : sys) (l : lock_state) : sys :=
  mk_sys l (s_other x) (<[s_cur x := ∅]> (s_holds x)) (s_wants x)
    (λ i, if decide (i ∈ s_holds x (s_cur x)) then S (s_given x i) else s_given x i).
Definition after_switch (x : sys) (l : lock_state) : sys :=
  mk_sys l (s_other x) (s_holds x) (s_wants x) (s_given x).

Inductive sys_step : sys → sys → Prop :=
| step_acquire x i b l : can_call x → valid_idx i → acquire_call i (s_lk x) = Ok b l →
    sys_step x (after_acquire x i b l)
| step_return x i : s_wants x (s_cur x) = Some i → sys_step x (after_return x i)
| step_release x i l : can_call x → i ∈ s_holds x (s_cur x) → release_call i (s_lk x) = Ok () l →
    sys_step x (after_release x i l)
| step_exit x next l : can_call x → exit_call (s_lk x) = Ok next l → sys_step x (after_exit x l)
| step_sleep x d next l : can_call x → sleep_call d (s_lk x) = Ok next l → sys_step x (after_switch x l)
| step_preempt x next l : reschedule (s_lk x) = Ok next l → sys_step x (after_switch x l)
| step_clock x now : sys_step x (set_clock now x)
| step_core x : sys_step x (switch_core x).

(** ** The invariant *)

(** What a core can run: a live process, or its own idle process. *)
Definition on_core (s : sched_state) (t : tcb) (c : nat) : Prop := live s t ∨ t = Idle c.

(** The processes, whatever the state of [current_running]: identifiers are
    unique, nobody is killed, and the process of the other core runs there. *)
Record procs_inv (s : sched_state) (Q : gmap node (list tcb)) (other : tcb) : Prop := {
  pi_sched : sched_inv s Q;
  pi_pid t u : live s t → live s u → pid (pcbs s t) = pid (pcbs s u) → t = u;
  pi_pid0 t : live s t → pid (pcbs s t) ≠ 0;
  pi_alive t : live s t → killed (pcbs s t) ≠ 1;
  pi_other : on_core s other (1 - cpu s);
  pi_free : ¬ queued Q other;
  pi_run : status (pcbs s other) = TASK_RUNNING;
  pi_waitq t : is_proc t → is_Some (Q !! NWait t);
  pi_apart : current s ≠ other
}.

Record here_inv (s : sched_state) (Q : gmap node (list tcb)) : Prop := {
  hi_core : on_core s (current s) (cpu s);
  hi_free : ¬ queued Q (current s);
  hi_run : status (pcbs s (current s)) = TASK_RUNNING
}.

(** Who has a mutex, who is in a call for it and who is in its queue. *)
Record use_inv (l : lock_state) (Q : gmap node (list tcb)) (holds : tcb → gset nat) (wants : tcb → option nat) : Prop := {
  ui_lock : lock_inv l Q;
  ui_wants t i : wants t = Some i → live (r_sched l) t ∧
    ∃ p ws, mutex_of l Q i = Some (Held p ws) ∧ (t ∈ ws ∨ p = pid (pcbs (r_sched l) t));
  ui_wait t i ws : Q !! NMutex i = Some ws → t ∈ ws → wants t = Some i;
  ui_holds t i : i ∈ holds t → live (r_sched l) t ∧
    ∃ ws, mutex_of l Q i = Some (Held (pid (pcbs (r_sched l) t)) ws);
  ui_owner p i ws : mutex_of l Q i = Some (Held p ws) →
    ∃ t, live (r_sched l) t ∧ pid (pcbs (r_sched l) t) = p ∧ (i ∈ holds t ∨ wants t = Some i ∧ t ∉ ws)
}.

Record sys_inv (x : sys) (Q : gmap node (list tcb)) : Prop := {
  si_procs : procs_inv (r_sched (s_lk x)) Q (s_other x);
  si_here : here_inv (r_sched (s_lk x)) Q;
  si_use : use_inv (s_lk x) Q (s_holds x) (s_wants x)
}.

(** How a mutex moves in a step, and how often it is let go meanwhile. *)
Inductive moves (pd : tcb → Z) : mutex → mutex → nat → Prop :=
| mv_stay mu : moves pd mu mu 0
| mv_take p : moves pd Free (Held p []) 0
| mv_wait p ws t : moves pd (Held p ws) (Held p (ws ++ [t])) 0
| mv_free p : moves pd (Held p []) Free 1
| mv_hand p t ws : moves pd (Held p (t :: ws)) (Held (pd t) ws) 1.

Definition pid_of (x : sys) (t : tcb) : Z := pid (pcbs (r_sched (s_lk x)) t).

Definition advance (x : sys) (Q : gmap node (list tcb)) (y : sys) (Q' : gmap node (list tcb)) : Prop :=
  (∀ t, pid_of y t = pid_of x t) ∧
  ∀ i mu, mutex_of (s_lk x) Q i = Some mu →
    ∃ mu' n, mutex_of (s_lk y) Q' i = Some mu' ∧ moves (pid_of x) mu mu' n ∧ s_given y i = (s_given x i + n)%nat.

(** ** The processes under the scheduler *)

(** The processes [y] has are those of [x]. *)
Record same_procs (x y : sched_state) : Prop := {
  sp_pid t : pid (pcbs y t) = pid (pcbs x t);
  sp_killed t : killed (pcbs y t) = killed (pcbs x t);
  sp_live t : live y t ↔ live x t
}.

Lemma same_procs_of x y :
  (∀ t, pid (pcbs y t) = pid (pcbs x t) ∧ killed (pcbs y t) = killed (pcbs x t) ∧
    (is_proc t → status (pcbs y t) = TASK_EXITED ↔ status (pcbs x t) = TASK_EXITED)) → same_procs x y.
Proof. intros H. split; intros t; destruct (H t) as (? & ? & ?); [done|done|]. unfold live. naive_solver. Qed.

Lemma same_procs_trans x y z : same_procs x y → same_procs y z → same_procs x z.
Proof.
  intros [P1 K1 L1] [P2 K2 L2]. split; intros t; [by rewrite P2|by rewrite K2|by rewrite L2].
Qed.

Lemma on_core_same x y t c : (∀ u, live y u ↔ live x u) → on_core x t c → on_core y t c.
Proof. intros H [?|?]; [left; by apply H|by right]. Qed.

Lemma procs_inv_fewer x y Q Q' o :
  procs_inv x Q o → sched_inv y Q' → (∀ t, pid (pcbs y t) = pid (pcbs x t)) →
  (∀ t, live y t → live x t ∧ killed (pcbs y t) = killed (pcbs x t)) → (live x o → live y o) →
  cpu y = cpu x → current y ≠ o → status (pcbs y o) = TASK_RUNNING → ¬ queued Q' o →
  (∀ t, is_Some (Q !! NWait t) → is_Some (Q' !! NWait t)) → procs_inv y Q' o.
Proof.
  intros HI HS HP HL Ho Hc Ha Hr Hq Hw. split; try done.
  - intros t u [Ht _]%HL [Hu _]%HL. rewrite !HP. by apply (pi_pid _ _ _ HI).
  - intros t [Ht _]%HL. rewrite HP. by apply (pi_pid0 _ _ _ HI).
  - intros t [Ht ->]%HL. by apply (pi_alive _ _ _ HI).
  - rewrite Hc. destruct (pi_other _ _ _ HI) as [?|?]; [left; by apply Ho|by right].
  - intros t Ht. by apply Hw, HI.
Qed.

Lemma procs_inv_same x y Q Q' o :
  procs_inv x Q o → sched_inv y Q' → same_procs x y → cpu y = cpu x → current y ≠ o →
  status (pcbs y o) = TASK_RUNNING → ¬ queued Q' o →
  (∀ t, is_Some (Q !! NWait t) → is_Some (Q' !! NWait t)) → procs_inv y Q' o.
Proof.
  intros HI HS [HP HK HL] Hc Ha Hr Hq Hw. eapply procs_inv_fewer; try done.
  - intros t Ht. split; [by apply HL|done].
  - intros Ho. by apply HL.
Qed.

(** Changing a queue does not take another one away. *)
Lemma is_Some_insert (Q : gmap node (list tcb)) n hd xs : is_Some (Q !! n) → is_Some (<[hd := xs]> Q !! n).
Proof. intros H. destruct (decide (hd = n)) as [->|]; [by rewrite lookup_insert_eq|by rewrite lookup_insert_ne]. Qed.
#[local] Hint Resolve is_Some_insert : core.

(** A queued process is live. *)
Lemma queued_live s Q hd xs t : sched_inv s Q → Q !! hd = Some xs → t ∈ xs → live s t.
Proof.
  intros HI Hx Ht. split; [by eapply (sv_proc _ _ HI)|].
  rewrite (sv_status _ _ HI _ _ _ Hx Ht). by case_decide.
Qed.

Lemma same_procs_wake s h xs Q hd ys : sched_inv s Q → Q !! hd = Some ys → (∀ t, t ∈ xs → t ∈ ys) →
  same_procs s (with_pcbs_heap (wake_pcbs xs (pcbs s)) h s).
Proof.
  intros HI Hy Hs. apply same_procs_of. intros t. cbn [pcbs with_pcbs_heap upd_heap upd_pcbs].
  rewrite wake_pcbs_lookup. case_decide as Hin; [|done]. do 2 (split; [done|]). cbn.
  destruct (queued_live _ _ _ _ t HI Hy (Hs _ Hin)). naive_solver.
Qed.

Lemma same_procs_switched s Q rs y next : sched_inv s Q → Q !! NReady = Some rs →
  (∀ t, pcbs y t = switched_pcbs s next t) → (is_proc next → next ∈ ready_with_prev s rs) → same_procs s y.
Proof.
  intros HI Hr Hy Hn. apply same_procs_of. intros t. rewrite Hy.
  split; [apply switched_keeps|]. split.
  { unfold switched_pcbs. repeat case_decide; try done; by destruct (goes_ready s). }
  intros Ht. destruct (decide (t = next)) as [->|Hne].
  - rewrite switched_next. specialize (Hn Ht). unfold ready_with_prev in Hn.
    assert (status (pcbs s next) ≠ TASK_EXITED); [|naive_solver].
    destruct (goes_ready s) eqn:Hg.
    + apply elem_of_app in Hn as [Hn| ->%list_elem_of_singleton].
      * by eapply queued_live.
      * apply andb_true_iff in Hg as [->%bool_decide_eq_true _]. done.
    + by eapply queued_live.
  - destruct (decide (t = current s)) as [->|Hc]; [|by rewrite switched_other].
    destruct (goes_ready s) eqn:Hg; [|by rewrite switched_other].
    rewrite switched_prev by done. apply andb_true_iff in Hg as [->%bool_decide_eq_true _]. naive_solver.
Qed.

Lemma pick_next_procs s Q o : procs_inv s Q o →
  ∃ next y rest, pick_next s = Ok next y ∧ procs_inv y (<[NReady := rest]> Q) o ∧ here_inv y (<[NReady := rest]> Q) ∧
    same_procs s y.
Proof.
  intros HI. pose proof (pi_sched _ _ _ HI) as HS. destruct (sv_ready _ _ HS) as [rs Hr].
  pose proof (pick_next_inv s Q rs HS Hr) as Hp. pose proof (choice_cases s Q rs HS Hr) as Hcs.
  pose proof (choice_ready s rs) as Hcr.
  destruct (choice s rs) as [next rest]. simpl in Hcr. destruct Hp as (y & Hp & Hy & Hcur & Hrun & Hcpu & Hpcb & Hnq).
  exists next, y, rest. split; [done|].
  assert ((next ∈ ready_with_prev s rs) ∨ next = Idle (cpu s)) as Hnext.
  { destruct Hcs as [(t & r & Ht & [= -> ->] & _)|[_ [= -> _]]]; [left|by right].
    apply take_first_Some in Ht as (ys & zs & -> & _). apply elem_of_app. right. left. }
  assert (same_procs s y) as Hsame.
  { eapply same_procs_switched; [done|done|done|]. destruct Hnext as [?| ->]; [done|]. by intros (i & ? & _). }
  assert (o ∉ ready_with_prev s rs) as Ho.
  { intros Hin. unfold ready_with_prev in Hin. assert (o ∉ rs) as Hn by (intros ?; apply (pi_free _ _ _ HI); by exists NReady, rs).
    destruct (goes_ready s); [|done]. apply elem_of_app in Hin as [?|Hin%list_elem_of_singleton]; [done|]. by apply (pi_apart _ _ _ HI). }
  assert (next ≠ o) as Hno.
  { intros ->. destruct Hnext as [?| ->]; [done|]. destruct (pi_other _ _ _ HI) as [[(i & ? & _) _]|[= E]]; [done|].
    pose proof (sv_cpu _ _ HS) as Hc2. unfold NR_CPUS in Hc2. lia. }
  split; [|split; [split|done]].
  - eapply procs_inv_same; [exact HI|done|done|done|by rewrite Hcur| | |by auto].
    + rewrite Hpcb, switched_other; [apply HI|done|]. intros E. by destruct (pi_apart _ _ _ HI).
    + apply not_queued_insert; [apply HI|]. intros Hin. by apply Ho, Hcr.
  - rewrite Hcur. destruct Hnext as [Hin| ->]; [left|right; by rewrite Hcpu].
    split; [exact (ready_with_prev_proc s Q rs HS Hr next Hin)|]. by rewrite Hrun.
  - by rewrite Hcur.
  - by rewrite Hcur.
Qed.

Lemma check_sleeping_procs s Q o : procs_inv s Q o →
  ∃ y rs xs, check_sleeping s = Ok () y ∧ procs_inv y (<[NReady := rs]> (<[NSleep := xs]> Q)) o ∧ same_procs s y.
Proof.
  intros HI. pose proof (pi_sched _ _ _ HI) as HS. destruct (sv_ready _ _ HS) as [rs Hr], (sv_sleep _ _ HS) as [xs Hx].
  destruct (check_sleeping_ok s Q xs rs) as (h & Hc & HL); [by apply HS|done|done|intros t Ht; by eapply is_proc_valid, (sv_proc _ _ HS)|].
  set (y := with_pcbs_heap _ _ _) in Hc. exists y, (rs ++ awake s xs), (asleep s xs). split; [done|].
  assert (∀ t, t ∈ asleep s xs → t ∈ xs) as Has by (intros t Ht; by apply list_elem_of_filter in Ht as [_ ?]).
  assert (∀ t, t ∈ awake s xs → t ∈ xs) as Haw by (intros t Ht; by apply list_elem_of_filter in Ht as [_ ?]).
  assert (same_procs s y) as Hsame by by eapply same_procs_wake.
  assert (o ∉ rs ∧ o ∉ xs) as [Hor Hox].
  { split; intros ?; apply (pi_free _ _ _ HI); [by exists NReady, rs|by exists NSleep, xs]. }
  split; [|done]. eapply procs_inv_same; [exact HI| |done|done|apply HI| | |by auto].
  - apply (sched_inv_wake s Q NSleep xs); [done|done|done|done|apply awake_asleep|exact Has|exact HL].
  - cbn [y pcbs with_pcbs_heap upd_heap upd_pcbs]. rewrite wake_pcbs_lookup, decide_False; [apply HI|]. naive_solver.
  - apply not_queued_insert; [apply not_queued_insert; [apply HI|naive_solver]|].
    rewrite elem_of_app. naive_solver.
Qed.

Lemma reschedule_procs s Q o : procs_inv s Q o →
  ∃ next y Q', (check_sleeping;; pick_next) s = Ok next y ∧ procs_inv y Q' o ∧ here_inv y Q' ∧ same_procs s y ∧
    ∀ n, n ≠ NReady → n ≠ NSleep → Q' !! n = Q !! n.
Proof.
  intros HI. destruct (check_sleeping_procs s Q o HI) as (y & rs & xs & Hc & H1 & S1).
  destruct (pick_next_procs y _ o H1) as (next & z & rest & Hp & H2 & H3 & S2).
  exists next, z. eexists. rewrite (bind_ok _ _ _ _ _ Hc). split; [done|]. split; [done|]. split; [done|].
  split; [by eapply same_procs_trans|]. intros n Hn1 Hn2. by rewrite !lookup_insert_ne.
Qed.

(** ** The mutexes under a change of the scheduler *)

Lemma mutex_of_sched l Q y Q' i : Q' !! NMutex i = Q !! NMutex i → mutex_of (upd_sched y l) Q' i = mutex_of l Q i.
Proof. intros H. by apply mutex_of_frame. Qed.

Lemma use_inv_sched l Q holds wants y Q' :
  use_inv l Q holds wants → sched_inv y Q' → (∀ t, pid (pcbs y t) = pid (pcbs (r_sched l) t)) →
  (∀ t, live (r_sched l) t → holds t ≠ ∅ ∨ wants t ≠ None → live y t) →
  (∀ i, Q' !! NMutex i = Q !! NMutex i) → use_inv (upd_sched y l) Q' holds wants.
Proof.
  intros [HL HW HQ HH HO] HS Hp Hl Hq.
  assert (∀ t i, i ∈ holds t → holds t ≠ ∅) as Hne by (intros; set_solver).
  split.
  - by eapply res_frame.
  - intros t i Ht. destruct (HW t i Ht) as (Hlt & p & ws & Hm & Hin). split; [apply Hl; [done|right; by rewrite Ht]|].
    exists p, ws. rewrite (mutex_of_sched l Q y Q') by done. cbn. by rewrite Hp.
  - intros t i ws. rewrite Hq. apply HQ.
  - intros t i Hi. destruct (HH t i Hi) as (Hlt & ws & Hm). split; [apply Hl; [done|left; by eapply Hne]|].
    exists ws. rewrite (mutex_of_sched l Q y Q') by done. cbn. by rewrite Hp.
  - intros p i ws. rewrite (mutex_of_sched l Q y Q') by done. intros Hm. destruct (HO p i ws Hm) as (t & Hlt & Hpt & Hc).
    exists t. cbn. rewrite Hp. split; [|done]. apply Hl; [done|]. destruct Hc as [Hi|[Hi _]]; [left; by eapply Hne|right; by rewrite Hi].
Qed.

(** [do_scheduler] of processes that use mutexes. *)
Lemma reschedule_ok l Q o holds wants :
  procs_inv (r_sched l) Q o → use_inv l Q holds wants →
  wp reschedule l (λ _ l', ∃ Q', procs_inv (r_sched l') Q' o ∧ here_inv (r_sched l') Q' ∧
    use_inv l' Q' holds wants ∧ (∀ t, pid (pcbs (r_sched l') t) = pid (pcbs (r_sched l) t)) ∧
    ∀ i, mutex_of l' Q' i = mutex_of l Q i).
Proof.
  intros HP HU. destruct (reschedule_procs _ _ _ HP) as (next & y & Q' & Hs & H1 & H2 & [Sp Sk Sl] & Hq).
  assert (∀ i, Q' !! NMutex i = Q !! NMutex i) as Hm by by intros i; apply Hq.
  eapply wp_ok; [by apply on_sched_ok|]. exists Q'. split; [done|]. split; [done|]. split; [|split; [done|]].
  - apply (use_inv_sched l Q); [done|apply H1|done| |done]. intros t Ht _. by apply Sl.
  - intros i. by apply mutex_of_sched.
Qed.

(** ** Taking a mutex *)

Lemma runs_here s Q o : procs_inv s Q o → here_inv s Q → live s (current s) → runs s Q.
Proof. intros HP HH Hl. split; [apply Hl|apply HH|by apply (pi_alive _ _ _ HP)]. Qed.

Lemma mutex_of_some l Q i : lock_inv l Q → valid_idx i → is_Some (mutex_of l Q i).
Proof.
  intros HI Hi. destruct (res_get NMutex LOCK_NUM mutex_ok l Q i HI Hi) as (m & ws & Hm & _ & Hws & _).
  rewrite (mutex_of_lookup l Q i m ws) by done. by eexists.
Qed.

Lemma mutex_of_queue l Q i p ws : mutex_of l Q i = Some (Held p ws) → Q !! NMutex i = Some ws.
Proof.
  unfold mutex_of. destruct (mlocks l !! i); [|done]. simpl. destruct (Q !! NMutex i); [|done]. simpl.
  unfold abs_mutex. destruct (ml_status _); [done|]. by intros [= _ ->].
Qed.

Lemma mutex_of_free l Q i : lock_inv l Q → mutex_of l Q i = Some Free → Q !! NMutex i = Some [].
Proof.
  intros HI Hm. unfold mutex_of in Hm. destruct (mlocks l !! i) as [m|] eqn:E; [|done]. simpl in Hm.
  destruct (ri_slot _ _ _ _ _ HI i m E) as (ws & Hws & _ & Hok). rewrite Hws in Hm. simpl in Hm.
  unfold abs_mutex in Hm. destruct (ml_status m) eqn:Es; [|done]. by destruct (Hok Es) as [_ ->].
Qed.

(** The caller gets mutex [i]: at once, or when it comes back to its call. *)
Lemma use_inv_get l Q l' holds wants wants' t i ws :
  use_inv l Q holds wants → lock_inv l' Q → r_sched l' = r_sched l → live (r_sched l) t →
  (∀ j, j ≠ i → mlocks l' !! j = mlocks l !! j) →
  mutex_of l' Q i = Some (Held (pid (pcbs (r_sched l) t)) ws) → t ∉ ws →
  (mutex_of l Q i = Some Free ∨ mlocks l' !! i = mlocks l !! i) →
  (∀ u, u ≠ t → wants' u = wants u) → wants' t = None → (∀ j, wants t = Some j → j = i) →
  use_inv l' Q (<[t := {[i]} ∪ holds t]> holds) wants'.
Proof.
  intros [HL HW HQ HH HO] HL' Hs Hlt Ho Hi Hnw Hold Hw Hwt Hwi.
  assert (∀ j, j ≠ i → mutex_of l' Q j = mutex_of l Q j) as Hoth by (intros j Hj; apply mutex_of_frame; [by apply Ho|done]).
  assert (∀ p ws', mutex_of l Q i = Some (Held p ws') → mutex_of l' Q i = mutex_of l Q i) as Hsame.
  { intros p ws' E. destruct Hold as [E'|E']; [by rewrite E' in E|]. by apply mutex_of_frame. }
  split.
  - done.
  - intros u j Hj. rewrite Hs. destruct (decide (u = t)) as [->|Hu]; [by rewrite Hwt in Hj|]. rewrite Hw in Hj by done.
    destruct (HW u j Hj) as (Hlu & p & ws' & Hm & Hin). split; [done|]. exists p, ws'. split; [|done].
    destruct (decide (j = i)) as [->|Hji]; [by rewrite (Hsame _ _ Hm)|by rewrite Hoth].
  - intros u j ws' Hq Hin. destruct (decide (u = t)) as [->|Hu].
    + exfalso. pose proof (Hwi j (HQ t j ws' Hq Hin)) as ->. pose proof (mutex_of_queue _ _ _ _ _ Hi). congruence.
    + rewrite Hw by done. by eapply HQ.
  - intros u j Hj. rewrite Hs. destruct (decide (u = t)) as [->|Hu].
    + rewrite fn_lookup_insert in Hj. split; [done|]. destruct (decide (j = i)) as [->|Hji]; [by exists ws|].
      rewrite Hoth by done. apply HH. set_solver.
    + rewrite fn_lookup_insert_ne in Hj by done. destruct (HH u j Hj) as (Hlu & ws' & Hm). split; [done|].
      exists ws'. destruct (decide (j = i)) as [->|Hji]; [by rewrite (Hsame _ _ Hm)|by rewrite Hoth].
  - intros p j ws' Hm. rewrite Hs. destruct (decide (j = i)) as [->|Hji].
    + exists t. split; [done|]. rewrite Hi in Hm. injection Hm as <- <-. split; [done|]. left.
      rewrite fn_lookup_insert. set_solver.
    + rewrite Hoth in Hm by done. destruct (HO p j ws' Hm) as (u & Hlu & Hpu & Hc). exists u. split; [done|]. split; [done|].
      destruct (decide (u = t)) as [->|Hu].
      * left. rewrite fn_lookup_insert. destruct Hc as [?|[E _]]; [set_solver|]. by rewrite (Hwi j E) in Hji.
      * rewrite fn_lookup_insert_ne, Hw by done. done.
Qed.

Lemma use_inv_block l Q l' Q' holds wants t i p ws :
  use_inv l Q holds wants → lock_inv l' Q' → same_procs (r_sched l) (r_sched l') →
  Q' = <[NMutex i := ws ++ [t]]> Q → (∀ j, j ≠ i → mlocks l' !! j = mlocks l !! j) →
  mutex_of l Q i = Some (Held p ws) → mutex_of l' Q' i = Some (Held p (ws ++ [t])) →
  wants t = None → live (r_sched l) t → use_inv l' Q' holds (<[t := Some i]> wants).
Proof.
  intros [HL HW HQ HH HO] HL' [Sp _ Sl] HQ' Ho Hi Hi' Hwt Hlt.
  assert (∀ j, j ≠ i → mutex_of l' Q' j = mutex_of l Q j) as Hoth.
  { intros j Hj. apply mutex_of_frame; [by apply Ho|]. by rewrite HQ', lookup_insert_ne by congruence. }
  assert (∀ j q ws', mutex_of l Q j = Some (Held q ws') → ∃ ws2, mutex_of l' Q' j = Some (Held q ws2) ∧ ∀ u, u ∈ ws' → u ∈ ws2) as Hkeep.
  { intros j q ws' Hm. destruct (decide (j = i)) as [->|Hj]; [|by exists ws'; rewrite Hoth].
    rewrite Hi in Hm. injection Hm as <- <-. exists (ws ++ [t]). split; [done|]. set_solver. }
  split.
  - done.
  - intros u j. destruct (decide (u = t)) as [->|Hu].
    + rewrite fn_lookup_insert. intros [= <-]. split; [by apply Sl|]. exists p, (ws ++ [t]). split; [done|left; set_solver].
    + rewrite fn_lookup_insert_ne by done. intros Hj. destruct (HW u j Hj) as (Hlu & q & ws' & Hm & Hin).
      split; [by apply Sl|]. destruct (Hkeep _ _ _ Hm) as (ws2 & Hm2 & Hsub). exists q, ws2. split; [done|].
      rewrite Sp. naive_solver.
  - intros u j ws'. rewrite HQ', lookup_insert_Some. intros [[[= <-] <-]|[Hne Hq]] Hin.
    + apply elem_of_app in Hin as [Hin| ->%list_elem_of_singleton]; [|apply fn_lookup_insert].
      pose proof (HQ u i ws (mutex_of_queue _ _ _ _ _ Hi) Hin) as Hu. rewrite fn_lookup_insert_ne; [done|]. congruence.
    + pose proof (HQ u j ws' Hq Hin) as Hu. rewrite fn_lookup_insert_ne; [done|]. congruence.
  - intros u j Hj. destruct (HH u j Hj) as (Hlu & ws' & Hm). split; [by apply Sl|].
    destruct (Hkeep _ _ _ Hm) as (ws2 & Hm2 & _). exists ws2. by rewrite Sp.
  - intros q j ws' Hm. destruct (decide (j = i)) as [->|Hj].
    + rewrite Hi' in Hm. injection Hm as <- <-. destruct (HO p i ws Hi) as (u & Hlu & Hpu & Hc). exists u.
      rewrite Sp. split; [by apply Sl|]. split; [done|]. destruct Hc as [?|[Hu Hn]]; [by left|right].
      assert (u ≠ t) by congruence. rewrite fn_lookup_insert_ne by done. split; [done|]. set_solver.
    + rewrite Hoth in Hm by done. destruct (HO q j ws' Hm) as (u & Hlu & Hpu & Hc). exists u.
      rewrite Sp. split; [by apply Sl|]. split; [done|]. destruct Hc as [?|[Hu Hn]]; [by left|right].
      rewrite fn_lookup_insert_ne by congruence. done.
Qed.

(** The scheduler's state when the caller has blocked. *)
Lemma procs_inv_block s Q y Q' o p : procs_inv s Q o → live s (current s) → sched_inv y Q' →
  (∀ t, pcbs y t = if decide (t = current s) then set_status TASK_BLOCKED p else pcbs s t) →
  pid p = pid (pcbs s (current s)) → killed p = killed (pcbs s (current s)) →
  current y = current s → cpu y = cpu s → ¬ queued Q' o →
  (∀ t, is_Some (Q !! NWait t) → is_Some (Q' !! NWait t)) → procs_inv y Q' o ∧ same_procs s y.
Proof.
  intros HP [Hl Hs] HS Hy Hp Hk Hc Hu Hq Hw.
  assert (same_procs s y) as Hsame.
  { apply same_procs_of. intros t. rewrite Hy. case_decide as E; [subst t|done]. cbn. naive_solver. }
  split; [|done]. eapply procs_inv_same; [exact HP|done|done|done|rewrite Hc; apply HP| |done|done].
  rewrite Hy, decide_False; [apply HP|]. intros E. by destruct (pi_apart _ _ _ HP).
Qed.

(** Only mutex [i] moves. *)
Lemma advance_one x Q l Q' o holds wants given i mu mu' n :
  (∀ t, pid (pcbs (r_sched l) t) = pid_of x t) →
  mutex_of (s_lk x) Q i = Some mu → mutex_of l Q' i = Some mu' → moves (pid_of x) mu mu' n →
  given i = (s_given x i + n)%nat →
  (∀ j, j ≠ i → mutex_of l Q' j = mutex_of (s_lk x) Q j ∧ given j = s_given x j) →
  advance x Q (mk_sys l o holds wants given) Q'.
Proof.
  intros Hp Hi Hi' Hmv Hg Ho. split; [done|]. intros j nu Hj. destruct (decide (j = i)) as [->|Hne].
  - rewrite Hi in Hj. injection Hj as <-. by exists mu', n.
  - destruct (Ho j Hne) as [Hm Hgj]. exists nu, 0%nat. simpl. rewrite Hm, Hgj. split; [done|]. split; [constructor|lia].
Qed.

Lemma advance_stay x Q l o holds wants Q' :
  (∀ t, pid (pcbs (r_sched l) t) = pid_of x t) → (∀ i, mutex_of l Q' i = mutex_of (s_lk x) Q i) →
  advance x Q (mk_sys l o holds wants (s_given x)) Q'.
Proof.
  intros Hp Hm. split; [done|]. intros i mu Hmu. exists mu, 0%nat. simpl.
  rewrite Hm. split; [done|]. split; [constructor|lia].
Qed.

Lemma acquire_ok x Q i : sys_inv x Q → can_call x → valid_idx i →
  wp (acquire_call i) (s_lk x) (λ b l, ∃ Q',
    sys_inv (after_acquire x i b l) Q' ∧ advance x Q (after_acquire x i b l) Q').
Proof.
  intros [HP HH HU] [Hl Hw] Hi. set (cur := s_cur x) in *. pose proof (ui_lock _ _ _ _ HU) as HL.
  destruct (mutex_of_some _ _ i HL Hi) as [mu Hmu]. pose proof (runs_here _ _ _ HP HH Hl) as Hrun.
  unfold acquire_call. rewrite wp_bind. eapply wp_mono; [by apply (do_mutex_lock_acquire_ok _ Q i mu)|].
  intros b l (Q' & HL' & Ho & H). destruct mu as [|p ws].
  - destruct H as (-> & Hm & -> & Hs). rewrite wp_ret. exists Q. split.
    + split; simpl; [by rewrite Hs|by rewrite Hs|].
      eapply (use_inv_get _ _ _ _ _ _ cur i []); [exact HU|done|done|done|done|exact Hm|by apply not_elem_of_nil|by left|done|done|].
      intros j Hj. congruence.
    + eapply advance_one; [intros t; by rewrite Hs|exact Hmu|exact Hm|constructor|lia|].
      intros j Hj. split; [|done]. apply mutex_of_frame; [by apply Ho|done].
  - destruct H as (-> & Hm & HQ' & h & Hs).
    destruct (procs_inv_block (r_sched (s_lk x)) Q (r_sched l) Q' (s_other x) (pcbs (r_sched (s_lk x)) cur) HP Hl)
      as [HP' Hsame]; [apply HL'|by rewrite Hs|done|done|by rewrite Hs|by rewrite Hs| |rewrite HQ'; by auto|].
    { rewrite HQ'. apply not_queued_insert; [apply HP|]. rewrite elem_of_app, list_elem_of_singleton.
      intros [Hin|E]; [|by destruct (pi_apart _ _ _ HP)]. apply (pi_free _ _ _ HP).
      exists (NMutex i), ws. split; [by eapply mutex_of_queue|done]. }
    assert (use_inv l Q' (s_holds x) (<[cur := Some i]> (s_wants x))) as HU' by by eapply use_inv_block.
    rewrite wp_bind. eapply wp_mono; [exact (reschedule_ok _ _ _ _ _ HP' HU')|].
    intros next l' (Q2 & HP2 & HH2 & HU2 & Hp2 & Hm2). rewrite wp_ret. exists Q2. split; [by split|].
    eapply advance_one; [intros t; by rewrite Hp2, (sp_pid _ _ Hsame)|exact Hmu|by rewrite Hm2|constructor|lia|].
    intros j Hj. split; [|done]. rewrite Hm2. apply mutex_of_frame; [by apply Ho|]. by rewrite HQ', lookup_insert_ne by congruence.
Qed.

(** The call for which the process waited ends. *)
Lemma return_ok x Q i : sys_inv x Q → s_wants x (s_cur x) = Some i →
  sys_inv (after_return x i) Q ∧ advance x Q (after_return x i) Q.
Proof.
  intros [HP HH HU] Hw. split; [|by apply advance_stay]. split; [done|done|]. simpl.
  destruct (ui_wants _ _ _ _ HU _ _ Hw) as (Hl & p & ws & Hm & Hc).
  assert (s_cur x ∉ ws) as Hn.
  { intros Hin. apply (hi_free _ _ HH). exists (NMutex i), ws. split; [by eapply mutex_of_queue|done]. }
  destruct Hc as [?| ->]; [done|].
  eapply (use_inv_get _ _ _ _ _ _ (s_cur x) i ws); [exact HU|apply HU|done|done|done|exact Hm|done|by right| | |].
  - intros u Hu. by rewrite fn_lookup_insert_ne.
  - by rewrite fn_lookup_insert.
  - congruence.
Qed.

(** ** Letting a mutex go *)

(** Somebody who wakes up is neither the caller nor the other core's process. *)
Lemma wake_one_procs s Q o hd t ts rs h y : procs_inv s Q o → here_inv s Q →
  Q !! hd = Some (t :: ts) → Q !! NReady = Some rs → y = with_pcbs_heap (wake_pcbs [t] (pcbs s)) h s →
  sched_inv y (<[NReady := rs ++ [t]]> (<[hd := ts]> Q)) →
  procs_inv y (<[NReady := rs ++ [t]]> (<[hd := ts]> Q)) o ∧
  here_inv y (<[NReady := rs ++ [t]]> (<[hd := ts]> Q)) ∧ same_procs s y.
Proof.
  intros HP HH Hq Hr Hy HS. pose proof (pi_sched _ _ _ HP) as HS0.
  assert (same_procs s y) as Hsame.
  { subst y. eapply (same_procs_wake s h [t]); [done|exact Hq|]. intros u ->%list_elem_of_singleton. left. }
  assert (∀ u, ¬ queued Q u → u ≠ t ∧ ¬ queued (<[NReady := rs ++ [t]]> (<[hd := ts]> Q)) u) as Hfree.
  { intros u Hu. assert (u ∉ t :: ts) as Hn by (intros ?; apply Hu; by exists hd, (t :: ts)).
    assert (u ∉ rs) as Hnr by (intros ?; apply Hu; by exists NReady, rs). apply not_elem_of_cons in Hn as [Hne Hn].
    split; [done|]. apply not_queued_insert; [by apply not_queued_insert|].
    rewrite elem_of_app, list_elem_of_singleton. by intros [?|?]. }
  assert (∀ u, u ≠ t → pcbs y u = pcbs s u) as Hkeep.
  { intros u Hu. subst y. cbn [pcbs with_pcbs_heap upd_heap upd_pcbs]. rewrite wake_pcbs_lookup, decide_False; [done|].
    by intros ?%list_elem_of_singleton. }
  assert (current y = current s ∧ cpu y = cpu s) as [Ec Eu] by by subst y.
  split; [|split; [|done]].
  - eapply procs_inv_same; [exact HP|done|done|done|rewrite Ec; apply HP| |by apply Hfree, HP|by auto].
    rewrite Hkeep by by apply Hfree, HP. apply HP.
  - split; rewrite Ec.
    + rewrite Eu. eapply on_core_same; [apply Hsame|apply HH].
    + by apply Hfree, HH.
    + rewrite Hkeep by by apply Hfree, HH. apply HH.
Qed.

(** The holder [c] lets mutex [i] go, whose next state is [nu]. *)
Lemma use_inv_give l Q l' Q' holds wants c i ws :
  use_inv l Q holds wants → lock_inv l' Q' → (∀ t, pid (pcbs (r_sched l') t) = pid (pcbs (r_sched l) t)) →
  (∀ t, live (r_sched l') t ↔ live (r_sched l) t) →
  (∀ t u, live (r_sched l) t → live (r_sched l) u → pid (pcbs (r_sched l) t) = pid (pcbs (r_sched l) u) → t = u) →
  (∀ j, j ≠ i → mutex_of l' Q' j = mutex_of l Q j ∧ Q' !! NMutex j = Q !! NMutex j) →
  mutex_of l Q i = Some (Held (pid (pcbs (r_sched l) c)) ws) → i ∈ holds c → wants c = None →
  Q' !! NMutex i = Some (tail ws) →
  mutex_of l' Q' i = Some (match ws with [] => Free | t :: ws' => Held (pid (pcbs (r_sched l) t)) ws' end) →
  use_inv l' Q' (<[c := holds c ∖ {[i]}]> holds) wants.
Proof.
  intros [HL HW HQ HH HO] HL' Sp Sl Hpid Hoth Hm Hc Hwc Hq' Hm'.
  pose proof (mutex_of_queue _ _ _ _ _ Hm) as Hq.
  assert (live (r_sched l) c) as Hlc by by apply (HH c i).
  assert (∀ u, live (r_sched l) u → pid (pcbs (r_sched l) c) = pid (pcbs (r_sched l) u) → u = c) as Hu.
  { intros u Hlu E. symmetry. by apply Hpid. }
  split.
  - done.
  - intros u j Hj. destruct (HW u j Hj) as (Hlu & p & ws2 & Hm2 & Hin). split; [by apply Sl|].
    setoid_rewrite Sp. destruct (decide (j = i)) as [->|Hne].
    + rewrite Hm in Hm2. injection Hm2 as <- <-. destruct Hin as [Hin|E]; [|rewrite (Hu u Hlu E) in Hj; congruence].
      destruct ws as [|t ws]; [by apply not_elem_of_nil in Hin|]. exists (pid (pcbs (r_sched l) t)), ws. split; [done|].
      apply elem_of_cons in Hin as [->|?]; [by right|by left].
    + exists p, ws2. by rewrite (proj1 (Hoth j Hne)).
  - intros u j ws2 Hj Hin. destruct (decide (j = i)) as [->|Hne].
    + rewrite Hq' in Hj. injection Hj as <-. apply (HQ u i ws Hq). destruct ws; [done|by right].
    + rewrite (proj2 (Hoth j Hne)) in Hj. by eapply HQ.
  - intros u j Hj. setoid_rewrite Sp. rewrite Sl. destruct (decide (u = c)) as [->|Hne].
    + rewrite fn_lookup_insert in Hj. apply elem_of_difference in Hj as [Hj Hne]. apply not_elem_of_singleton in Hne.
      rewrite (proj1 (Hoth j Hne)). by apply HH.
    + rewrite fn_lookup_insert_ne in Hj by done. destruct (HH u j Hj) as (Hlu & ws2 & Hm2). split; [done|].
      exists ws2. destruct (decide (j = i)) as [->|Hji]; [|by rewrite (proj1 (Hoth j Hji))].
      rewrite Hm in Hm2. injection Hm2 as E <-. by destruct (Hne (Hu u Hlu E)).
  - intros p j ws2 Hm2. destruct (decide (j = i)) as [->|Hne].
    + rewrite Hm' in Hm2. destruct ws as [|t ws]; [done|]. injection Hm2 as <- <-. exists t.
      assert (wants t = Some i) as Ht by (apply (HQ t i _ Hq); left).
      rewrite Sl, Sp. split; [by apply (HW t i)|]. split; [done|]. right. split; [done|].
      pose proof (queue_nodup _ _ (sv_linked _ _ (ri_sched _ _ _ _ _ HL)) _ _ Hq) as Hnd. by apply NoDup_cons in Hnd as [? _].
    + rewrite (proj1 (Hoth j Hne)) in Hm2. destruct (HO p j ws2 Hm2) as (u & Hlu & Hpu & Hcase). exists u.
      rewrite Sl, Sp. split; [done|]. split; [done|]. destruct Hcase as [Hj|?]; [left|by right].
      destruct (decide (u = c)) as [->|Huc]; [rewrite fn_lookup_insert; set_solver|by rewrite fn_lookup_insert_ne].
Qed.

Lemma release_ok l Q o holds wants i :
  procs_inv (r_sched l) Q o → here_inv (r_sched l) Q → use_inv l Q holds wants →
  wants (current (r_sched l)) = None → i ∈ holds (current (r_sched l)) →
  wp (release_call i) l (λ _ l', ∃ Q', procs_inv (r_sched l') Q' o ∧ here_inv (r_sched l') Q' ∧
    use_inv l' Q' (<[current (r_sched l) := holds (current (r_sched l)) ∖ {[i]}]> holds) wants ∧
    current (r_sched l') = current (r_sched l) ∧ same_procs (r_sched l) (r_sched l') ∧
    (∃ mu mu', mutex_of l Q i = Some mu ∧ mutex_of l' Q' i = Some mu' ∧ moves (λ t, pid (pcbs (r_sched l) t)) mu mu' 1) ∧
    ∀ j, j ≠ i → mutex_of l' Q' j = mutex_of l Q j).
Proof.
  intros HP HH HU Hw Hi. set (c := current (r_sched l)) in *. pose proof (ui_lock _ _ _ _ HU) as HL.
  destruct (ui_holds _ _ _ _ HU c i Hi) as (Hlc & ws & Hm). pose proof (mutex_of_queue _ _ _ _ _ Hm) as Hq.
  assert (valid_idx i) as Hv.
  { unfold mutex_of in Hm. destruct (mlocks l !! i) eqn:E; [|done]. apply lookup_lt_Some in E. by rewrite (ri_len _ _ _ _ _ HL) in E. }
  eapply wp_mono; [exact (do_mutex_lock_release_ok l Q i ws HL Hv Hm)|].
  intros _ l' (Q' & HL' & (Ho & Hc & Hp) & HQo & H). exists Q'.
  assert (∀ j, j ≠ i → mutex_of l' Q' j = mutex_of l Q j ∧ Q' !! NMutex j = Q !! NMutex j) as Hoth.
  { intros j Hj. assert (Q' !! NMutex j = Q !! NMutex j) as E by (apply HQo; congruence).
    split; [|done]. apply mutex_of_frame; [by apply Ho|done]. }
  assert (procs_inv (r_sched l') Q' o ∧ here_inv (r_sched l') Q' ∧ same_procs (r_sched l) (r_sched l')) as (HP' & HH' & Hsame).
  { destruct ws as [|t ws].
    - destruct H as (_ & -> & ->). do 2 (split; [done|]). by apply same_procs_of.
    - destruct H as (_ & rs & h & Hr & -> & Hs). eapply wake_one_procs; [done|done|done|done|exact Hs|apply HL']. }
  split; [done|]. split; [done|]. split; [|split; [done|split; [done|split; [|intros j Hj; by apply Hoth]]]].
  - eapply use_inv_give; [exact HU|done|done|apply Hsame|apply HP|done|exact Hm|done|done| |].
    + destruct ws as [|t ws]; [by destruct H as (_ & -> & _)|]. destruct H as (_ & rs & h & _ & -> & _).
      rewrite lookup_insert_ne by done. apply lookup_insert_eq.
    + destruct ws; apply H.
  - exists (Held (pid (pcbs (r_sched l) c)) ws).
    destruct ws; (eexists; split; [exact Hm|split; [apply H|]]); [apply mv_free|apply (mv_hand (λ t, pid (pcbs (r_sched l) t)))].
Qed.

(** ** Exiting *)

Lemma use_inv_holds l Q holds holds' wants : (∀ t, holds' t = holds t) →
  use_inv l Q holds wants → use_inv l Q holds' wants.
Proof.
  intros E [HL HW HQ HH HO]. split; [done|done|done| |].
  - intros t i. rewrite E. apply HH.
  - intros p i ws Hm. destruct (HO p i ws Hm) as (t & ? & ? & ?). exists t. by rewrite E.
Qed.

(** What the mutexes have become when the first [n] were looked at. *)
Definition let_some_go (pd : tcb → Z) (c : gset nat) (n : nat) (mu : nat → option mutex) (mu' : nat → option mutex) : Prop :=
  ∀ j m, mu j = Some m → if decide (j < n ∧ j ∈ c)%nat then ∃ m', mu' j = Some m' ∧ moves pd m m' 1 else mu' j = Some m.

Definition freeing (l : lock_state) Q o (holds : tcb → gset nat) wants (c : tcb) (n : nat) (l' : lock_state) : Prop :=
  ∃ Q' holds', procs_inv (r_sched l') Q' o ∧ here_inv (r_sched l') Q' ∧ use_inv l' Q' holds' wants ∧
    (∀ t, holds' t = if decide (t = c) then filter (λ j, n ≤ j)%nat (holds c) else holds t) ∧
    current (r_sched l') = c ∧ same_procs (r_sched l) (r_sched l') ∧
    let_some_go (λ t, pid (pcbs (r_sched l) t)) (holds c) n (mutex_of l Q) (mutex_of l' Q').

(** What the slot of a mutex says of its owner. *)
Lemma held_by_slot l Q holds wants c i m :
  use_inv l Q holds wants → (∀ t u, live (r_sched l) t → live (r_sched l) u → pid (pcbs (r_sched l) t) = pid (pcbs (r_sched l) u) → t = u) →
  live (r_sched l) c → pid (pcbs (r_sched l) c) ≠ 0 → wants c = None →
  mlocks l !! i = Some m → i ∈ holds c ↔ ml_pid m = pid (pcbs (r_sched l) c).
Proof.
  intros HU Hu Hl Hp0 Hw Hm. destruct (ri_slot _ _ _ _ _ (ui_lock _ _ _ _ HU) i m Hm) as (ws & Hws & _ & Hok).
  pose proof (mutex_of_lookup l Q i m ws Hm Hws) as Hmu. split.
  - intros (_ & ws' & Hh)%(ui_holds _ _ _ _ HU). rewrite Hmu in Hh. unfold abs_mutex in Hh.
    destruct (ml_status m); [done|]. by injection Hh.
  - intros E. unfold abs_mutex in Hmu. destruct (ml_status m) eqn:Es; [destruct (Hok Es); congruence|].
    destruct (ui_owner _ _ _ _ HU _ _ _ Hmu) as (u & Hlu & Hpu & Hc). rewrite E in Hpu.
    rewrite (Hu u c Hlu Hl Hpu) in Hc. destruct Hc as [?|[? _]]; [done|congruence].
Qed.

Lemma let_some_go_S pd c n mu mu' mu'' :
  let_some_go pd c n mu mu' → (∀ j, j ≠ n → mu'' j = mu' j) →
  (n ∈ c → ∃ m m', mu' n = Some m ∧ mu'' n = Some m' ∧ moves pd m m' 1) → (n ∉ c → mu'' n = mu' n) →
  let_some_go pd c (S n) mu mu''.
Proof.
  intros H Ho Hin Hout j m Hj. specialize (H j m Hj). destruct (decide (j = n)) as [->|Hne].
  - rewrite decide_False in H by lia. case_decide as Hc.
    + destruct (Hin (proj2 Hc)) as (m1 & m2 & H1 & H2 & Hmv). rewrite H in H1. injection H1 as <-. by exists m2.
    + rewrite Hout; [done|]. intros ?. apply Hc. split; [lia|done].
  - rewrite Ho by done. destruct (decide (j < n ∧ j ∈ c)%nat) as [[? ?]|Hn].
    + by rewrite decide_True by (split; [lia|done]).
    + rewrite decide_False; [done|]. intros [? ?]. apply Hn. split; [lia|done].
Qed.

Lemma filter_le_S (n : nat) (c : gset nat) : filter (λ j, S n ≤ j)%nat c = filter (λ j, n ≤ j)%nat c ∖ {[n]}.
Proof. apply set_eq. intros j. rewrite elem_of_difference, !elem_of_filter, elem_of_singleton. intuition lia. Qed.

Lemma free_lock_ok l Q o holds wants :
  procs_inv (r_sched l) Q o → here_inv (r_sched l) Q → use_inv l Q holds wants →
  live (r_sched l) (current (r_sched l)) → wants (current (r_sched l)) = None →
  wp (free_lock (cur_pid l)) l (λ _ l', freeing l Q o holds wants (current (r_sched l)) LOCK_NUM l').
Proof.
  intros HP HH HU Hlc Hw. set (c := current (r_sched l)) in *.
  apply (wp_for (λ n, freeing l Q o holds wants c n)).
  { exists Q, holds. do 3 (split; [done|]). split; [|split; [done|split; [by apply same_procs_of|]]].
    - intros t. case_decide as E; [subst t|done]. apply set_eq. intros j. rewrite elem_of_filter. intuition lia.
    - intros j m Hj. by rewrite decide_False by lia. }
  intros i l1 Hi (Q1 & h1 & HP1 & HH1 & HU1 & Hh1 & Hc1 & Hsame & Hmv).
  assert (live (r_sched l1) c) as Hlc1 by by apply Hsame.
  destruct (res_get _ _ _ l1 Q1 i (ui_lock _ _ _ _ HU1) ltac:(unfold LOCK_NUM in *; lia)) as (m & ws & Hm & _).
  pose proof (held_by_slot l1 Q1 h1 wants c i m HU1 (pi_pid _ _ _ HP1) Hlc1 (pi_pid0 _ _ _ HP1 c Hlc1) Hw Hm) as Hiff.
  rewrite (sp_pid _ _ Hsame c) in Hiff. change (pid (pcbs (r_sched l) c)) with (cur_pid l) in Hiff.
  rewrite wp_bind, (wp_ok _ _ _ _ _ (slot_ok _ _ _ Hm)).
  assert (i ∈ h1 c ↔ i ∈ holds c) as Hic.
  { rewrite Hh1, decide_True, elem_of_filter by done. intuition lia. }
  destruct (Z.eqb_spec (ml_pid m) (cur_pid l)) as [E|E].
  - assert (i ∈ h1 c) as Hin by by apply Hiff. rewrite <- Hc1 in Hin.
    eapply wp_mono; [exact (release_ok l1 Q1 o h1 wants i HP1 HH1 HU1 ltac:(by rewrite Hc1) Hin)|].
    intros _ l2 (Q2 & HP2 & HH2 & HU2 & Hc2 & Hs2 & Hm2 & Ho2). rewrite Hc1 in *.
    eexists Q2, _. split; [done|]. split; [done|]. split; [exact HU2|]. split; [|split; [done|split; [by eapply same_procs_trans|]]].
    + intros t. destruct (decide (t = c)) as [->|Hne]; [|by rewrite fn_lookup_insert_ne, Hh1, decide_False].
      by rewrite fn_lookup_insert, Hh1, decide_True, filter_le_S.
    + eapply let_some_go_S; [exact Hmv|done| |intros Hn; by rewrite Hic in Hin].
      intros _. destruct Hm2 as (m1 & m2 & H1 & H2 & Hmv2). exists m1, m2. do 2 (split; [done|]).
      destruct Hmv2; try constructor. rewrite (sp_pid _ _ Hsame). constructor.
  - rewrite wp_ret. assert (i ∉ h1 c) as Hnin by by rewrite Hiff.
    exists Q1, h1. do 3 (split; [done|]). split; [|split; [done|split; [done|]]].
    + intros t. rewrite Hh1. case_decide; [|done]. rewrite filter_le_S. rewrite Hic in Hnin.
      apply set_eq. intros j. rewrite elem_of_difference, elem_of_singleton, elem_of_filter. naive_solver.
    + eapply let_some_go_S; [exact Hmv|done|by intros ?%Hic|done].
Qed.

Lemma mutex_of_valid l Q i mu : lock_inv l Q → mutex_of l Q i = Some mu → valid_idx i.
Proof.
  intros HI. unfold mutex_of. destruct (mlocks l !! i) eqn:E; [|done]. intros _.
  apply lookup_lt_Some in E. by rewrite (ri_len _ _ _ _ _ HI) in E.
Qed.

(** The end of [do_exit], when the process has no mutex any more. *)
Lemma leave_ok l Q o holds wants :
  procs_inv (r_sched l) Q o → here_inv (r_sched l) Q → use_inv l Q holds wants →
  live (r_sched l) (current (r_sched l)) → wants (current (r_sched l)) = None → holds (current (r_sched l)) = ∅ →
  wp (on_sched leave) l (λ _ l', ∃ Q', procs_inv (r_sched l') Q' o ∧ use_inv l' Q' holds wants ∧
    (∀ t, pid (pcbs (r_sched l') t) = pid (pcbs (r_sched l) t)) ∧ ∀ i, mutex_of l' Q' i = mutex_of l Q i).
Proof.
  intros HP HH HU [Hp Hlc] Hw Hh. set (s := r_sched l) in *. set (c := current s) in *.
  pose proof (pi_sched _ _ _ HP) as HS. destruct (sv_ready _ _ HS) as [rs Hr], (pi_waitq _ _ _ HP c Hp) as [ws Hws].
  destruct (proj1 (wp_iff _ _ _) (leave_spec s Q ws rs HS Hp (hi_free _ _ HH) Hws Hr))
    as ([] & y & Hl & Hy & Hyc & Hyw & Hyo & Hycur & Hycpu).
  change (current s) with c in Hy, Hyc, Hyo, Hycur.
  eapply wp_ok; [by apply on_sched_ok|]. set (Q' := <[NReady := _]> _) in *. exists Q'.
  assert (∀ t, t = c ∨ (t ≠ c ∧ t ∈ ws) ∨ (t ≠ c ∧ t ∉ ws)) as Hcases.
  { intros t. destruct (decide (t = c)), (decide (t ∈ ws)); naive_solver. }
  assert (∀ t, t ∈ ws → live s t) as Hwl by (intros t; by eapply queued_live).
  assert (∀ t, pid (pcbs y t) = pid (pcbs s t)) as Hpid.
  { intros t. destruct (Hcases t) as [->|[[_ ?]|[? ?]]]; [by rewrite Hyc|by rewrite Hyw|by rewrite Hyo]. }
  assert (∀ t, live y t ↔ live s t ∧ t ≠ c) as Hlive.
  { intros t. unfold live at 1. destruct (Hcases t) as [->|[[? Hin]|[? ?]]].
    - rewrite Hyc. cbn. naive_solver.
    - rewrite Hyw by done. cbn. destruct (Hwl t Hin). naive_solver.
    - rewrite Hyo by done. unfold live. naive_solver. }
  assert (o ≠ c) as Hoc by (intros E; by destruct (pi_apart _ _ _ HP)).
  assert (o ∉ rs ∧ o ∉ ws) as [Hor How].
  { split; intros ?; apply (pi_free _ _ _ HP); [by exists NReady, rs|by exists (NWait c), ws]. }
  split; [|split; [|split; [done|]]].
  - eapply procs_inv_fewer; [exact HP|done|done| | |done|by cbn; rewrite Hycur|cbn; rewrite Hyo by done; apply HP| |].
    + intros t Ht. pose proof (proj1 (Hlive t) Ht) as [Ht' Hne]. split; [done|]. cbn.
      destruct (Hcases t) as [?|[[_ ?]|[? ?]]]; [done|by rewrite Hyw|by rewrite Hyo].
    + intros Ht. by apply Hlive.
    + unfold Q'. apply not_queued_insert; [apply not_queued_insert; [apply HP|by apply not_elem_of_nil]|].
      rewrite elem_of_app. naive_solver.
    + unfold Q'. auto.
  - apply (use_inv_sched l Q); [done|done|done| |].
    + intros t Ht Hn. apply Hlive. split; [done|]. intros ->. naive_solver.
    + intros i. unfold Q'. by rewrite !lookup_insert_ne.
  - intros i. apply mutex_of_sched. unfold Q'. by rewrite !lookup_insert_ne.
Qed.

Lemma exit_ok x Q : sys_inv x Q → can_call x →
  wp exit_call (s_lk x) (λ _ l, ∃ Q', sys_inv (after_exit x l) Q' ∧ advance x Q (after_exit x l) Q').
Proof.
  intros [HP HH HU] [Hl Hw]. set (c := s_cur x) in *.
  unfold exit_call. rewrite wp_bind, wp_gets, wp_bind.
  eapply wp_mono; [exact (free_lock_ok _ _ _ _ _ HP HH HU Hl Hw)|].
  intros _ l1 (Q1 & h1 & HP1 & HH1 & HU1 & Hh1 & Hc1 & Hsame & Hmv).
  change (current (r_sched (s_lk x))) with c in Hh1, Hc1, Hmv.
  assert (h1 c = ∅) as Hempty.
  { rewrite Hh1, decide_True by done. apply set_eq. intros j. rewrite elem_of_filter. split; [|set_solver].
    intros [Hj (_ & ws & Hm)%(ui_holds _ _ _ _ HU)]. apply mutex_of_valid in Hm; [|apply HU]. unfold valid_idx in Hm. lia. }
  rewrite wp_bind. eapply wp_mono.
  { apply (leave_ok l1 Q1 _ h1 (s_wants x) HP1 HH1 HU1); rewrite Hc1; [by apply Hsame|done|done]. }
  intros _ l2 (Q2 & HP2 & HU2 & Hp2 & Hm2).
  eapply wp_mono; [exact (reschedule_ok _ _ _ _ _ HP2 HU2)|].
  intros next l3 (Q3 & HP3 & HH3 & HU3 & Hp3 & Hm3). exists Q3. split.
  - split; [done|done|]. eapply use_inv_holds; [|exact HU3]. simpl. intros t. rewrite Hh1. fold c.
    destruct (decide (t = c)) as [->|Hne]; [|by rewrite fn_lookup_insert_ne].
    rewrite fn_lookup_insert, <- Hempty, Hh1. by rewrite decide_True.
  - split.
    + intros t. unfold pid_of. simpl. by rewrite Hp3, Hp2, (sp_pid _ _ Hsame).
    + intros i mu Hmu. pose proof (mutex_of_valid _ _ _ _ (ui_lock _ _ _ _ HU) Hmu) as Hi. specialize (Hmv i mu Hmu).
      simpl. fold c. rewrite Hm3, Hm2. destruct (decide (i ∈ s_holds x c)) as [Hin|Hin].
      * rewrite decide_True in Hmv by done. destruct Hmv as (mu' & Hmu' & Hmv). exists mu', 1%nat. split; [done|]. split; [done|lia].
      * rewrite decide_False in Hmv by naive_solver. exists mu, 0%nat. split; [done|]. split; [constructor|lia].
Qed.

(** ** Sleeping, being preempted, the other core *)

Lemma switch_ok x Q l Q1 o : use_inv l Q1 (s_holds x) (s_wants x) → procs_inv (r_sched l) Q1 o → o = s_other x →
  (∀ t, pid (pcbs (r_sched l) t) = pid_of x t) → (∀ i, mutex_of l Q1 i = mutex_of (s_lk x) Q i) →
  wp reschedule l (λ _ l', ∃ Q', sys_inv (after_switch x l') Q' ∧ advance x Q (after_switch x l') Q').
Proof.
  intros HU HP -> Hp Hm. eapply wp_mono; [exact (reschedule_ok _ _ _ _ _ HP HU)|].
  intros next l' (Q' & HP' & HH' & HU' & Hp' & Hm'). exists Q'. split; [by split|].
  apply advance_stay; [intros t; by rewrite Hp', Hp|intros i; by rewrite Hm', Hm].
Qed.

Lemma preempt_ok x Q : sys_inv x Q →
  wp reschedule (s_lk x) (λ _ l, ∃ Q', sys_inv (after_switch x l) Q' ∧ advance x Q (after_switch x l) Q').
Proof. intros [HP HH HU]. by eapply switch_ok. Qed.

Lemma sleep_ok x Q d : sys_inv x Q → can_call x →
  wp (sleep_call d) (s_lk x) (λ _ l, ∃ Q', sys_inv (after_switch x l) Q' ∧ advance x Q (after_switch x l) Q').
Proof.
  intros [HP HH HU] [Hl Hw]. set (s := r_sched (s_lk x)) in *. change (s_cur x) with (current s) in *.
  pose proof (pi_sched _ _ _ HP) as HS. destruct (sv_sleep _ _ HS) as [xs Hx].
  set (f := set_wakeup_time (u64 (timer s + d))). set (s1 := upd_pcb (current s) f s).
  assert (sched_inv s1 Q) as HS1 by (apply sched_inv_pcb; [done|apply Hl|apply HH]).
  assert (killed (pcbs s1 (current s)) ≠ 1) as Hk by (cbn; rewrite decide_True by done; by apply (pi_alive _ _ _ HP)).
  destruct (do_block_ok s1 Q NSleep xs (current s)) as (h & Hb & HL);
    [apply HS1|done|apply HH|apply is_proc_valid, Hl|done|].
  set (y := upd_pcb _ _ _) in Hb.
  assert (sched_inv y (<[NSleep := xs ++ [current s]]> Q)) as HSy by (apply sched_inv_block; [done|done|done|apply Hl|apply HH|done]).
  unfold sleep_call. rewrite wp_bind. eapply wp_ok; [by apply on_sched_ok, Hb|].
  destruct (procs_inv_block s Q y (<[NSleep := xs ++ [current s]]> Q) (s_other x) (f (pcbs s (current s))) HP Hl HSy)
    as [HPy [Hpid _ Hlive]]; [|done|done|done|done| |by auto|].
  { intros t. subst y s1. cbn. repeat case_decide; congruence. }
  { apply not_queued_insert; [apply HP|]. rewrite elem_of_app, list_elem_of_singleton.
    intros [Hin|E]; [|by destruct (pi_apart _ _ _ HP)]. apply (pi_free _ _ _ HP). by exists NSleep, xs. }
  eapply switch_ok; [|exact HPy|done|done|].
  - apply (use_inv_sched _ Q); [done|done|done| |intros i; by rewrite lookup_insert_ne].
    intros t Ht _. by apply Hlive.
  - intros i. apply mutex_of_sched. by rewrite lookup_insert_ne.
Qed.

Lemma clock_ok x Q now : sys_inv x Q → sys_inv (set_clock now x) Q ∧ advance x Q (set_clock now x) Q.
Proof.
  intros [HP HH HU]. pose proof (pi_sched _ _ _ HP) as HS.
  assert (sched_inv (r_sched (s_lk (set_clock now x))) Q) as HS' by (split; apply HS).
  split; [|by apply advance_stay]. split.
  - eapply procs_inv_same; [exact HP|done|by apply same_procs_of|done|apply HP..|done].
  - split; apply HH.
  - by apply (use_inv_sched _ Q).
Qed.

Lemma core_ok x Q : sys_inv x Q → sys_inv (switch_core x) Q ∧ advance x Q (switch_core x) Q.
Proof.
  intros [HP HH HU]. pose proof (pi_sched _ _ _ HP) as HS. pose proof (sv_cpu _ _ HS) as Hc. unfold NR_CPUS in Hc.
  assert (sched_inv (r_sched (s_lk (switch_core x))) Q) as HS'.
  { split; try apply HS; simpl; [|unfold NR_CPUS; lia]. destruct (pi_other _ _ _ HP) as [[? _]| ->]; [by apply is_proc_valid|].
    unfold valid_tcb, NR_CPUS. lia. }
  split; [|by apply advance_stay]. split.
  - split; try apply HP; simpl; [done| |apply HH|apply HH|].
    + replace (1 - (1 - cpu (r_sched (s_lk x))))%nat with (cpu (r_sched (s_lk x))) by lia. apply HH.
    + intros E. by apply (pi_apart _ _ _ HP).
  - split; apply HP.
  - by apply (use_inv_sched _ Q).
Qed.

(** ** Every state that can be reached *)

Lemma release_step x Q i : sys_inv x Q → can_call x → i ∈ s_holds x (s_cur x) →
  wp (release_call i) (s_lk x) (λ _ l, ∃ Q', sys_inv (after_release x i l) Q' ∧ advance x Q (after_release x i l) Q').
Proof.
  intros [HP HH HU] [_ Hw] Hi. eapply wp_mono; [by apply (release_ok _ Q (s_other x) _ _ i HP HH HU)|].
  intros _ l (Q' & HP' & HH' & HU' & _ & Hsame & (mu & mu' & Hm & Hm' & Hmv) & Ho). exists Q'. split; [by split|].
  eapply advance_one; [apply Hsame|exact Hm|exact Hm'|exact Hmv| |].
  - rewrite fn_lookup_insert. lia.
  - intros j Hj. split; [by apply Ho|]. by rewrite fn_lookup_insert_ne.
Qed.

Lemma step_ok x y Q : sys_inv x Q → sys_step x y → ∃ Q', sys_inv y Q' ∧ advance x Q y Q'.
Proof.
  intros HI Hs. destruct Hs as [x i b l Hc Hv E|x i Hw|x i l Hc Hi E|x next l Hc E|x d next l Hc E|x next l E|x now|x].
  - apply (proj1 (wp_ok _ _ _ _ _ E) (acquire_ok x Q i HI Hc Hv)).
  - exists Q. by apply return_ok.
  - apply (proj1 (wp_ok _ _ _ _ _ E) (release_step x Q i HI Hc Hi)).
  - apply (proj1 (wp_ok _ _ _ _ _ E) (exit_ok x Q HI Hc)).
  - apply (proj1 (wp_ok _ _ _ _ _ E) (sleep_ok x Q d HI Hc)).
  - apply (proj1 (wp_ok _ _ _ _ _ E) (preempt_ok x Q HI)).
  - exists Q. by apply clock_ok.
  - exists Q. by apply core_ok.
Qed.

Lemma steps_ok x y Q : sys_inv x Q → rtc sys_step x y → ∃ Q', sys_inv y Q'.
Proof.
  intros HI Hs. revert Q HI. induction Hs as [x|x y z Hxy _ IH]; intros Q HI; [by exists Q|].
  destruct (step_ok x y Q HI Hxy) as (Q1 & H1 & _). by apply (IH Q1).
Qed.

(** The start: no mutex is locked. *)
Record started (x : sys) (Q : gmap node (list tcb)) : Prop := {
  sa_procs : procs_inv (r_sched (s_lk x)) Q (s_other x);
  sa_here : here_inv (r_sched (s_lk x)) Q;
  sa_lock : lock_inv (s_lk x) Q;
  sa_free i m : mlocks (s_lk x) !! i = Some m → ml_status m = UNLOCKED;
  sa_nobody i ws : Q !! NMutex i = Some ws → ws = [];
  sa_holds t : s_holds x t = ∅;
  sa_wants t : s_wants x t = None
}.

Lemma started_inv x Q : started x Q → sys_inv x Q.
Proof.
  intros [HP HH HL HF HN Hh Hw]. split; [done|done|].
  split; [done| | | |].
  - intros t i. by rewrite Hw.
  - intros t i ws Hq Hin. rewrite (HN i ws Hq) in Hin. by apply not_elem_of_nil in Hin.
  - intros t i. rewrite Hh. set_solver.
  - intros p i ws Hm. unfold mutex_of in Hm. destruct (mlocks (s_lk x) !! i) as [m|] eqn:E; [|done]. simpl in Hm.
    destruct (Q !! NMutex i); [|done]. simpl in Hm. unfold abs_mutex in Hm. by rewrite (HF i m E) in Hm.
Qed.

Definition ends {A} (m : M lock_state A) (l : lock_state) : Prop := ∃ a l', m l = Ok a l'.

Lemma wp_ends {A} (m : M lock_state A) l (P : A → lock_state → Prop) : wp m l P → ends m l.
Proof. intros (a & l' & H & _)%wp_iff. by exists a, l'. Qed.

(** C10: mutual exclusion among processes on two cores, whatever the order in
    which they take and let go mutexes, sleep, exit and are preempted: two
    processes never have the same mutex; the owner that the kernel records is
    the process that has the mutex or the one that it was given to; and every
    call that a process may make next ends: none spins on a lock. *)
Theorem mutex_exclusion x0 Q0 x : started x0 Q0 → rtc sys_step x0 x →
  (∀ i t u, i ∈ s_holds x t → i ∈ s_holds x u → t = u) ∧
  (∀ i t, i ∈ s_holds x t → ∃ m, mlocks (s_lk x) !! i = Some m ∧ ml_status m = LOCKED ∧ ml_pid m = pid_of x t) ∧
  (∀ i m, mlocks (s_lk x) !! i = Some m → ml_status m = LOCKED →
    ∃ t, live (r_sched (s_lk x)) t ∧ pid_of x t = ml_pid m ∧ (i ∈ s_holds x t ∨ s_wants x t = Some i)) ∧
  (can_call x →
    (∀ i, valid_idx i → ends (acquire_call i) (s_lk x)) ∧
    (∀ i, i ∈ s_holds x (s_cur x) → ends (release_call i) (s_lk x)) ∧
    (∀ d, ends (sleep_call d) (s_lk x)) ∧ ends exit_call (s_lk x)) ∧
  ends reschedule (s_lk x).
Proof.
  intros H0 Hs. destruct (steps_ok _ _ _ (started_inv _ _ H0) Hs) as [Q HI]. pose proof (si_use _ _ HI) as HU.
  pose proof (si_procs _ _ HI) as HP. split; [|split; [|split; [|split]]].
  - intros i t u (Ht & ws & Hm)%(ui_holds _ _ _ _ HU) (Hu & us & Hm')%(ui_holds _ _ _ _ HU).
    rewrite Hm in Hm'. injection Hm' as E _. by apply (pi_pid _ _ _ HP).
  - intros i t (Ht & ws & Hm)%(ui_holds _ _ _ _ HU). unfold mutex_of in Hm.
    destruct (mlocks (s_lk x) !! i) as [m|]; [|done]. simpl in Hm. destruct (Q !! NMutex i); [|done]. simpl in Hm.
    unfold abs_mutex in Hm. exists m. destruct (ml_status m); [done|]. by injection Hm.
  - intros i m Hm Hl. destruct (ri_slot _ _ _ _ _ (ui_lock _ _ _ _ HU) i m Hm) as (ws & Hws & _).
    pose proof (mutex_of_lookup (s_lk x) Q i m ws Hm Hws) as Hmu. unfold abs_mutex in Hmu. rewrite Hl in Hmu.
    destruct (ui_owner _ _ _ _ HU _ _ _ Hmu) as (t & Ht & Hp & Hc). exists t. naive_solver.
  - intros Hc. split; [|split; [|split]].
    + intros i Hi. by eapply wp_ends, acquire_ok.
    + intros i Hi. by eapply wp_ends, release_step.
    + intros d. by eapply wp_ends, sleep_ok.
    + by eapply wp_ends, exit_ok.
  - by eapply wp_ends, preempt_ok.
Qed.

(** ** Who waits gets the mutex in turn *)

(** Process [t] is at place [k] of those that wait for mutex [i]. *)
Definition waits_at (x : sys) (Q : gmap node (list tcb)) (i k : nat) (t : tcb) : Prop :=
  ∃ p ws, mutex_of (s_lk x) Q i = Some (Held p ws) ∧ ws !! k = Some t.

(** After mutex [i] was let go [n] times. *)
Definition turn (x : sys) (Q : gmap node (list tcb)) (i k n : nat) (t : tcb) : Prop :=
  ((n ≤ k)%nat → waits_at x Q i (k - n) t) ∧
  (n = S k → ∃ ws, mutex_of (s_lk x) Q i = Some (Held (pid_of x t) ws)).

Lemma turn_step x Q y Q' i k n t : advance x Q y Q' → is_Some (mutex_of (s_lk x) Q i) → turn x Q i k n t →
  ∃ m, turn y Q' i k (n + m) t ∧ s_given y i = (s_given x i + m)%nat ∧ is_Some (mutex_of (s_lk y) Q' i).
Proof.
  intros [Hp Hadv] [mu Hmu] [H1 H2]. destruct (Hadv i mu Hmu) as (mu' & m & Hmu' & Hmv & Hg).
  exists m. split; [|split; [done|by rewrite Hmu']].
  assert (∀ j, waits_at x Q i j t → ∃ p ws, mu = Held p ws ∧ ws !! j = Some t) as Hw.
  { intros j (p & ws & E & Hj). rewrite Hmu in E. injection E as ->. by exists p, ws. }
  unfold turn, waits_at. rewrite Hmu', Hp. destruct Hmv as [mu|p|p ws u|p|p u ws].
  - rewrite Nat.add_0_r. split; intros Hn; [destruct (Hw _ (H1 Hn)) as (p & ws & -> & ?); by exists p, ws|].
    destruct (H2 Hn) as [ws E]. rewrite Hmu in E. injection E as ->. by exists ws.
  - rewrite Nat.add_0_r. split; intros Hn; [by destruct (Hw _ (H1 Hn)) as (? & ? & ? & _)|].
    destruct (H2 Hn) as [ws E]. by rewrite Hmu in E.
  - rewrite Nat.add_0_r. split; intros Hn.
    + destruct (Hw _ (H1 Hn)) as (p' & ws' & [= <- <-] & Hj). exists p, (ws ++ [u]). split; [done|].
      by apply lookup_app_l_Some.
    + destruct (H2 Hn) as [ws' E]. rewrite Hmu in E. injection E as -> _. by eexists.
  - split; intros Hn.
    + destruct (Hw _ (H1 ltac:(lia))) as (p' & ws' & [= <- <-] & Hj). done.
    + destruct (Hw _ (H1 ltac:(lia))) as (p' & ws' & [= <- <-] & Hj). done.
  - split; intros Hn; destruct (Hw _ (H1 ltac:(lia))) as (p' & ws' & [= <- <-] & Hj).
    + replace (k - n)%nat with (S (k - (n + 1))) in Hj by lia. by eexists _, ws.
    + replace (k - n)%nat with 0%nat in Hj by lia. injection Hj as ->. by eexists.
Qed.

Lemma turn_steps x y i k t : rtc sys_step x y → ∀ Q n, sys_inv x Q → is_Some (mutex_of (s_lk x) Q i) → turn x Q i k n t →
  ∃ Q' m, sys_inv y Q' ∧ s_given y i = (s_given x i + m)%nat ∧ turn y Q' i k (n + m) t.
Proof.
  induction 1 as [x|x y z Hxy _ IH]; intros Q n HI Hm Ht.
  - exists Q, 0%nat. rewrite !Nat.add_0_r. done.
  - destruct (step_ok x y Q HI Hxy) as (Q1 & H1 & Hadv).
    destruct (turn_step _ _ _ _ _ _ _ _ Hadv Hm Ht) as (m1 & Ht1 & Hg1 & Hm1).
    destruct (IH Q1 (n + m1)%nat H1 Hm1 Ht1) as (Q2 & m2 & H2 & Hg2 & Ht2).
    exists Q2, (m1 + m2)%nat. split; [done|]. split; [lia|by rewrite Nat.add_assoc].
Qed.

(** C11: bounded waiting: a process that waits for a mutex behind [k] others
    moves up by one place each time the mutex is let go, by a release or by the
    exit of its holder, and has it when it was let go [k + 1] times, whatever
    the processes of the two cores do meanwhile. *)
Theorem bounded_waiting x Q y i k t : sys_inv x Q → waits_at x Q i k t → rtc sys_step x y →
  ∃ Q' n, sys_inv y Q' ∧ s_given y i = (s_given x i + n)%nat ∧
    ((n ≤ k)%nat → waits_at y Q' i (k - n) t) ∧
    (n = S k → ∃ ws, mutex_of (s_lk y) Q' i = Some (Held (pid_of y t) ws)).
Proof.
  intros HI (p & ws & Hm & Hk) Hs.
  destruct (turn_steps x y i k t Hs Q 0 HI) as (Q' & n & HI' & Hg & Ht); [by rewrite Hm| |exists Q', n; split; [done|split; [done|exact Ht]]].
  split; [|done]. intros _. exists p, ws. by rewrite Nat.sub_0_r.
Qed.

(** ** An example: the processes of the example of Sched; process 0 takes mutex
    0, is preempted, and process 1 waits for it *)

Definition run {A} (m : M lock_state A) (l : lock_state) : lock_state := match m l with Ok _ l' => l' | _ => l end.

Lemma run_ok {A} `{!EqDecision A} (m : M lock_state A) l a :
  (match m l with Ok b _ => bool_decide (b = a) | _ => false end) = true → m l = Ok a (run m l).
Proof. unfold run. destruct (m l); [|done..]. by intros ->%bool_decide_eq_true. Qed.

Definition ex_sys : sys :=
  mk_sys (mk_res ex_sched (replicate LOCK_NUM (mk_mutex UNLOCKED UNLOCKED 7 0))) (Idle 1) (λ _, ∅) (λ _, None) (λ _, 0%nat).

Lemma ex_live t : live ex_sched t → t ∈ [Proc 0; Proc 1; Proc 2; Proc 3].
Proof.
  intros [(i & -> & Hi) Hs]. destruct i as [|[|[|[|i]]]]; [set_solver..|]. by destruct Hs.
Qed.

Lemma ex_started : started ex_sys ex_queues.
Proof.
  split; [| | | | |reflexivity|reflexivity].
  - split; [apply ex_sched_inv| | | | | |reflexivity| |].
    + intros t u Ht%ex_live Hu%ex_live. rewrite !elem_of_cons, elem_of_nil in Ht, Hu.
      destruct Ht as [->|[->|[->|[->|[]]]]], Hu as [->|[->|[->|[->|[]]]]]; by vm_compute.
    + intros t Ht%ex_live. rewrite !elem_of_cons, elem_of_nil in Ht. by destruct Ht as [->|[->|[->|[->|[]]]]].
    + intros t Ht%ex_live. rewrite !elem_of_cons, elem_of_nil in Ht. by destruct Ht as [->|[->|[->|[->|[]]]]].
    + by right.
    + by apply ex_not_queued, not_elem_ex.
    + intros t (i & -> & Hi). do 32 (destruct i as [|i]; [by eexists|]). unfold TASK_MAXNUM in Hi. lia.
    + discriminate.
  - split; [left|by apply ex_not_queued, not_elem_ex|done].
    split; [exists 0%nat; split; [done|unfold TASK_MAXNUM; lia]|done].
  - split; [apply ex_sched_inv|done|]. intros i m [-> Hi]%lookup_replicate.
    exists []. split; [|by split]. unfold LOCK_NUM in Hi. do 16 (destruct i as [|i]; [by vm_compute|]). lia.
  - intros i m [-> _]%lookup_replicate. done.
  - intros i ws Hq. destruct ws as [|t ws]; [done|]. exfalso.
    assert (t ∈ t :: ws) as Hin by left. destruct (ex_queues_cases _ _ t Hq Hin) as [[? _]|[? _]]; done.
Qed.

Definition ex_held : sys := after_acquire ex_sys 0 false (run (acquire_call 0) (s_lk ex_sys)).
Definition ex_next : sys := after_switch ex_held (run reschedule (s_lk ex_held)).
Definition ex_waits : sys := after_acquire ex_next 0 true (run (acquire_call 0) (s_lk ex_next)).
Definition ex_third : sys := after_switch ex_waits (run reschedule (s_lk ex_waits)).
Definition ex_back : sys := after_switch ex_third (run reschedule (s_lk ex_third)).
Definition ex_given : sys := after_release ex_back 0 (run (release_call 0) (s_lk ex_back)).

Example ex_order : (s_cur ex_next, s_cur ex_waits, s_cur ex_third, s_cur ex_back) = (Proc 1, Proc 2, Proc 3, Proc 0).
Proof. by vm_compute. Qed.

Lemma ex_can_call x : (match status (pcbs (r_sched (s_lk x)) (s_cur x)), s_cur x, s_wants x (s_cur x) with
    | TASK_RUNNING, Proc i, None => (i <? TASK_MAXNUM)%nat | _, _, _ => false end) = true → can_call x.
Proof.
  unfold can_call, live. destruct (status _); try done. destruct (s_cur x) as [i|]; [|done].
  destruct (s_wants x (Proc i)); [done|]. intros Hi%Nat.ltb_lt. split; [|done]. split; [by exists i|done].
Qed.

Lemma ex_to_waits : rtc sys_step ex_sys ex_waits.
Proof.
  apply (rtc_l _ _ ex_held); [|apply (rtc_l _ _ ex_next); [|apply (rtc_l _ _ ex_waits); [|done]]].
  - apply (step_acquire _ 0); [apply ex_can_call; by vm_compute|unfold valid_idx, LOCK_NUM; lia|apply run_ok; by vm_compute].
  - apply (step_preempt _ (Proc 1)), run_ok. by vm_compute.
  - apply (step_acquire _ 0); [apply ex_can_call; by vm_compute|unfold valid_idx, LOCK_NUM; lia|apply run_ok; by vm_compute].
Qed.

Lemma ex_to_given : rtc sys_step ex_waits ex_given.
Proof.
  apply (rtc_l _ _ ex_third); [|apply (rtc_l _ _ ex_back); [|apply (rtc_l _ _ ex_given); [|done]]].
  - apply (step_preempt _ (Proc 3)), run_ok. by vm_compute.
  - apply (step_preempt _ (Proc 0)), run_ok. by vm_compute.
  - apply (step_release _ 0); [apply ex_can_call; by vm_compute|by vm_compute|apply run_ok; by vm_compute].
Qed.

(** While process 1 waits, no other process than 0 has the mutex. *)
Lemma mutex_exclusion_witness : 0%nat ∈ s_holds ex_waits (Proc 0) ∧ ∀ u, 0%nat ∈ s_holds ex_waits u → u = Proc 0.
Proof.
  assert (0%nat ∈ s_holds ex_waits (Proc 0)) as H0 by by vm_compute.
  split; [exact H0|]. intros u Hu.
  exact (proj1 (mutex_exclusion ex_sys ex_queues ex_waits ex_started ex_to_waits) 0%nat u (Proc 0) Hu H0).
Defined.

Lemma only_waiter x Q i t u : sys_inv x Q → i ∈ s_holds x t → s_wants x u = Some i →
  (∀ v, s_wants x v = Some i → v = u) → pid_of x t ≠ pid_of x u → waits_at x Q i 0 u.
Proof.
  intros HI Ht Hu Hone Hne. pose proof (si_use _ _ HI) as HU.
  destruct (ui_holds _ _ _ _ HU t i Ht) as (_ & ws & Hm). destruct (ui_wants _ _ _ _ HU u i Hu) as (_ & p & ws' & Hm' & Hc).
  rewrite Hm in Hm'. injection Hm' as <- <-. destruct Hc as [Hin|Hc]; [|by destruct Hne].
  eexists _, ws. split; [exact Hm|]. destruct ws as [|v ws]; [by apply not_elem_of_nil in Hin|].
  simpl. f_equal. apply Hone. eapply (ui_wait _ _ _ _ HU); [by eapply mutex_of_queue|left].
Qed.

Lemma ex_place Q : sys_inv ex_waits Q → waits_at ex_waits Q 0 0 (Proc 1).
Proof.
  intros HI. apply (only_waiter _ _ _ (Proc 0)); [exact HI|by vm_compute|by vm_compute| |].
  - assert (s_cur ex_next = Proc 1) as E by by vm_compute.
    intros v. change (s_wants ex_waits) with (<[s_cur ex_next := Some 0%nat]> (s_wants ex_next)). rewrite E.
    destruct (decide (v = Proc 1)) as [?|Hu]; [done|]. by rewrite fn_lookup_insert_ne.
  - apply Z.eqb_neq. by vm_compute.
Qed.

(** When process 0 lets the mutex go, process 1 has it. *)
Lemma bounded_waiting_witness : ∃ Q ws, mutex_of (s_lk ex_given) Q 0 = Some (Held 2 ws).
Proof.
  destruct (steps_ok _ _ _ (started_inv _ _ ex_started) ex_to_waits) as [Q HI].
  destruct (bounded_waiting ex_waits Q ex_given 0 0 (Proc 1) HI (ex_place Q HI) ex_to_given) as (Q' & n & _ & Hn & _ & Hh).
  assert (n = 1%nat) as ->.
  { assert (s_given ex_given 0 = 1%nat ∧ s_given ex_waits 0 = 0%nat) as [E1 E2] by (split; by vm_compute).
    rewrite E1, E2 in Hn. lia. }
  destruct (Hh eq_refl) as [ws Hm]. exists Q', ws.
  assert (pid_of ex_given (Proc 1) = 2) as Hp by by vm_compute.
  rewrite Hp in Hm. exact Hm.
Defined.
