(* ===== verification/FsDisk.v ===== *)
(** kernel/fs/fs_tools.c and the structures of include/os/fs.h: the file
    system's layout on the card.

    A sector is a list of 512 bytes, and each structure is encoded in the bytes
    that the compiler gives it, little endian. [tbuf] is TEMP_BUF of the running
    process, the buffer through which most of the functions work, so that
    what one function leaves there is what its caller finds. *)
From S2P Require Import Prelude KMonad Bytes Swap.

(** ** Constants *)

Definition SECTOR_LEN : nat := 512.
Definition FS_START_SECTOR : Z := 2 ^ 20.
Definition FS_SIZE : Z := 512 * 2 ^ 20.
Definition BLOCK_SIZE : Z := 4096.
Definition BLOCK_LEN : nat := 4096.
Definition SECTORS_PER_BLOCK : nat := 8.
Definition SUPERBLOCK_MAGIC : Z := 0xDF4C4459.
Definition SUPERBLOCK_SECTORS : Z := 1.
Definition NUM_FDESCS : nat := 16.
Definition FS_BLOCK_NUM : Z := FS_SIZE / BLOCK_SIZE.
Definition BLOCK_MAP_SECTORS : Z := FS_BLOCK_NUM / 8 / 512.
Definition NUM_INODES : Z := 4096.
Definition INODE_MAP_SECTORS : Z := NUM_INODES / 8 / 512.
Definition INODE_SIZE : Z := 64.
Definition INODE_TABLE_SECTORS : Z := NUM_INODES * INODE_SIZE / 512.
Definition FD_FILE : Z := 0.
Definition FD_DIR : Z := 1.
Definition ROOT_DIR_BLOCK : Z := 1.
Definition ROOT_INODE_NUM : Z := 0.
Definition MAX_PATH_LEN : nat := 80.
Definition BLOCK_BASE : Z :=
  FS_START_SECTOR + SUPERBLOCK_SECTORS + INODE_MAP_SECTORS + BLOCK_MAP_SECTORS + INODE_TABLE_SECTORS.
Definition MAX_FNAME_LEN : nat := 16.
Definition DIRECT_BLOCK_NUM : nat := 10.
Definition INDIRECT_BLOCK_NUM : nat := 1024.
Definition DOUBLE_INDIRECT_BLOCK_NUM : Z := 1024 * 1024.
Definition DENTRY_SIZE : nat := 20.
Definition DENTRIES : nat := 204.
Definition TEMP_BUF_LEN : nat := 16384.

(** ** The structures *)

Record superblock_t := mk_sb {
  magic : Z; fs_size : Z; start_sector : Z; sb_block_size : Z; inode_map_offset : Z;
  block_map_offset : Z; inode_offset : Z; data_offset : Z; inode_entry_size : Z; dentry_size : Z
}.
Definition sb_bytes (x : superblock_t) : list Z :=
  concat (bytes_of 8 <$> [magic x; fs_size x; start_sector x; sb_block_size x; inode_map_offset x;
    block_map_offset x; inode_offset x; data_offset x; inode_entry_size x; dentry_size x]).
Definition sb_of (b : list Z) : superblock_t :=
  mk_sb (word64 b 0) (word64 b 1) (word64 b 2) (word64 b 3) (word64 b 4) (word64 b 5) (word64 b 6)
    (word64 b 7) (word64 b 8) (word64 b 9).

Record inode_t := mk_inode {
  i_mode : Z; i_type : Z; i_size : Z; nlinks : Z;
  direct_ptr : list Z; indirect_ptr : Z; double_indirect_ptr : Z
}.
Definition inode_words (x : inode_t) : list Z :=
  [i_mode x; i_type x; i_size x; nlinks x] ++ direct_ptr x ++ [indirect_ptr x; double_indirect_ptr x].
Definition inode_bytes (x : inode_t) : list Z := concat (bytes_of 4 <$> inode_words x).
Definition inode_of (b : list Z) : inode_t :=
  mk_inode (word b 0) (word b 1) (word b 2) (word b 3) (word b <$> seq 4 DIRECT_BLOCK_NUM)
    (word b 14) (word b 15).
Definition no_inode : inode_t := mk_inode 0 0 0 0 (replicate DIRECT_BLOCK_NUM 0) 0 0.
Definition set_size (n : Z) (x : inode_t) : inode_t :=
  mk_inode (i_mode x) (i_type x) n (nlinks x) (direct_ptr x) (indirect_ptr x) (double_indirect_ptr x).
Definition set_nlinks (n : Z) (x : inode_t) : inode_t :=
  mk_inode (i_mode x) (i_type x) (i_size x) n (direct_ptr x) (indirect_ptr x) (double_indirect_ptr x).
Definition set_direct (k : nat) (b : Z) (x : inode_t) : inode_t :=
  mk_inode (i_mode x) (i_type x) (i_size x) (nlinks x) (<[k := b]> (direct_ptr x)) (indirect_ptr x)
    (double_indirect_ptr x).
Definition set_indirect (b : Z) (x : inode_t) : inode_t :=
  mk_inode (i_mode x) (i_type x) (i_size x) (nlinks x) (direct_ptr x) b (double_indirect_ptr x).
Definition set_double (b : Z) (x : inode_t) : inode_t :=
  mk_inode (i_mode x) (i_type x) (i_size x) (nlinks x) (direct_ptr x) (indirect_ptr x) b.

Record dentry_t := mk_dentry { d_name : list Z; d_inode : Z }.

Record fdesc_t := mk_fdesc { f_inode : Z; f_mode : Z; f_pos : Z; f_used : bool }.

Section FsDisk.
Context {D : Type} `{!BlockDevice SECTOR_LEN D}.

(** [fdesc_array] is [static] in the header, so that fs.c and fs_tools.c have
    an array each. [dir_inode] is that of [current_running]. *)
Record fs_state := mk_fs {
  fs_disk : D;
  tbuf : list Z;
  sb : superblock_t;
  sb_valid : bool;
  fdesc_array : list fdesc_t;
  tools_fdesc_array : list fdesc_t;
  cur_dir : Z
}.
Definition upd_disk (d : D) (s : fs_state) : fs_state :=
  mk_fs d (tbuf s) (sb s) (sb_valid s) (fdesc_array s) (tools_fdesc_array s) (cur_dir s).
Definition upd_tbuf (b : list Z) (s : fs_state) : fs_state :=
  mk_fs (fs_disk s) b (sb s) (sb_valid s) (fdesc_array s) (tools_fdesc_array s) (cur_dir s).
Definition upd_sb (x : superblock_t) (s : fs_state) : fs_state :=
  mk_fs (fs_disk s) (tbuf s) x (sb_valid s) (fdesc_array s) (tools_fdesc_array s) (cur_dir s).
Definition upd_sb_valid (s : fs_state) : fs_state :=
  mk_fs (fs_disk s) (tbuf s) (sb s) true (fdesc_array s) (tools_fdesc_array s) (cur_dir s).
Definition upd_fdescs (l : list fdesc_t) (s : fs_state) : fs_state :=
  mk_fs (fs_disk s) (tbuf s) (sb s) (sb_valid s) l (tools_fdesc_array s) (cur_dir s).
Definition upd_dir (n : Z) (s : fs_state) : fs_state :=
  mk_fs (fs_disk s) (tbuf s) (sb s) (sb_valid s) (fdesc_array s) (tools_fdesc_array s) n.

(** The sector number is an [unsigned] argument of the BIOS. *)
Definition read_sectors (n : nat) (sector : Z) : M fs_state (list Z) :=
  gets (λ s, sd_read (fs_disk s) (u32 sector) n).
Definition write_sectors (n : nat) (sector : Z) (bs : list Z) : M fs_state unit :=
  modify (λ s, upd_disk (sd_write (fs_disk s) (u32 sector) n bs) s).
Definition buf_set (off : nat) (bs : list Z) : M fs_state unit :=
  modify (λ s, upd_tbuf (splice off bs (tbuf s)) s).
Definition buf_get (off n : nat) : M fs_state (list Z) := gets (λ s, take n (drop off (tbuf s))).
Definition buf_word (k : nat) : M fs_state Z := gets (λ s, word (tbuf s) k).
Definition buf_set_word (k : nat) (v : Z) : M fs_state unit :=
  modify (λ s, upd_tbuf (set_word k v (tbuf s)) s).

Definition read_sb : M fs_state unit :=
  bs ← read_sectors 1 FS_START_SECTOR;
  buf_set 0 bs;;
  b ← buf_get 0 80;
  modify (upd_sb (sb_of b)).
Definition write_sb : M fs_state unit :=
  s ← get;
  buf_set 0 (sb_bytes (sb s));;
  bs ← buf_get 0 SECTOR_LEN;
  write_sectors 1 FS_START_SECTOR bs.

(** [buf] is the offset of the buffer in TEMP_BUF. *)
Definition block_sector (block_id : Z) : Z := BLOCK_BASE + u32 (block_id * Z.of_nat SECTORS_PER_BLOCK).
Definition read_block (block_id : Z) (buf : nat) : M fs_state unit :=
  bs ← read_sectors SECTORS_PER_BLOCK (block_sector block_id);
  buf_set buf bs.
Definition write_block (block_id : Z) (buf : nat) : M fs_state unit :=
  bs ← buf_get buf BLOCK_LEN;
  write_sectors SECTORS_PER_BLOCK (block_sector block_id) bs.

Definition inode_table_start : Z :=
  FS_START_SECTOR + SUPERBLOCK_SECTORS + INODE_MAP_SECTORS + BLOCK_MAP_SECTORS.
Definition inode_sector (inode_num : Z) : Z := u32 (inode_table_start + u32 (inode_num * INODE_SIZE / 512)).
Definition inode_off (inode_num : Z) : nat := Z.to_nat (inode_num * INODE_SIZE mod 512).
Definition get_inode (inode_num : Z) : M fs_state inode_t :=
  buffer ← read_sectors 1 (inode_sector inode_num);
  mret (inode_of (take 64 (drop (inode_off inode_num) buffer))).
Definition write_inode (inode_num : Z) (node : inode_t) : M fs_state unit :=
  buffer ← read_sectors 1 (inode_sector inode_num);
  write_sectors 1 (inode_sector inode_num) (splice (inode_off inode_num) (inode_bytes node) buffer).

(** ** The bitmaps *)

(** The first byte that is not [0xff] and its first bit that is 0. *)
Fixpoint find_bit (j : nat) (bs : list Z) : option (nat * nat) :=
  match bs with
  | [] => None
  | b :: bs' =>
      if b =? 0xff then find_bit (S j) bs' else
      match first_index 8 (λ bit, negb (Z.testbit b (Z.of_nat bit))) with
      | Some bit => Some (j, bit)
      | None => find_bit (S j) bs'
      end
  end.

Definition ensure_sb : M fs_state unit :=
  s ← get;
  if sb_valid s then mret () else read_sb;; modify upd_sb_valid.

(** [alloc_inode] and [alloc_block]: the map of [n] sectors at the offset
    [map_offset] of the superblock. *)
Definition alloc_bit (n : nat) (map_offset : superblock_t → Z) : M fs_state Z :=
  ensure_sb;;
  r ← for_ret 0 n (λ i,
    s ← get;
    let sector := start_sector (sb s) + map_offset (sb s) + Z.of_nat i in
    map_buf ← read_sectors 1 sector;
    match find_bit 0 map_buf with
    | None => mret None
    | Some (j, bit) =>
        let v := Z.lor (nth j map_buf 0) (Z.shiftl 1 (Z.of_nat bit)) in
        write_sectors 1 sector (<[j := v]> map_buf);;
        mret (Some (Z.of_nat i * 512 * 8 + Z.of_nat j * 8 + Z.of_nat bit))
    end);
  mret (default NEG1 r).
Definition alloc_inode : M fs_state Z := alloc_bit (Z.to_nat INODE_MAP_SECTORS) inode_map_offset.
Definition alloc_block : M fs_state Z := alloc_bit (Z.to_nat BLOCK_MAP_SECTORS) block_map_offset.

(** [free_inode] and [free_block]; the superblock is read through TEMP_BUF. *)
Definition free_bit (map_offset : superblock_t → Z) (n : Z) : M fs_state unit :=
  read_sb;;
  let sector_idx := n / (512 * 8) in
  let byte_idx := Z.to_nat (n mod (512 * 8) / 8) in
  let bit_idx := n mod 8 in
  s ← get;
  let sector := start_sector (sb s) + map_offset (sb s) + sector_idx in
  map_buf ← read_sectors 1 sector;
  write_sectors 1 sector
    (<[byte_idx := Z.land (nth byte_idx map_buf 0) (Z.lnot (Z.shiftl 1 bit_idx))]> map_buf).
Definition free_inode (n : Z) : M fs_state unit := free_bit inode_map_offset n.
Definition free_block (n : Z) : M fs_state unit := free_bit block_map_offset n.

(** ** From the blocks of a file to the blocks of the card *)

(** The entry [k] of the index block in the buffer: [pb] is the block's number;
    an entry that is 0 gets a block when [alloc]. *)
Definition index_entry (pb : Z) (k : nat) (alloc : bool) : M fs_state Z :=
  e ← buf_word k;
  if (e =? 0) && alloc then
    b ← alloc_block;
    buf_set_word k b;;
    e ← buf_word k;
    if e =? NEG1 then mret NEG1 else
    write_block pb 0;;
    buf_word k
  else mret e.

(** A fresh index block, all zero, hung into the inode by [hang]. *)
Definition new_index (inode_num : Z) (node : inode_t) (hang : Z → inode_t → inode_t) : M fs_state (inode_t * Z) :=
  b ← alloc_block;
  let node := hang b node in
  if b =? NEG1 then mret (node, NEG1) else
  buf_set 0 (replicate BLOCK_LEN 0);;
  write_block b 0;;
  write_inode inode_num node;;
  mret (node, b).

(** One level of index blocks: the entry [k] of the block [pb]. *)
Definition index_lookup (node : inode_t) (pb : Z) (k : nat) (alloc : bool) : M fs_state (inode_t * Z) :=
  read_block pb 0;;
  e ← index_entry pb k alloc;
  mret (node, e).

(** Two levels: the entry [first] of the block [pb] is the number of the second
    index block, which is made when it is missing and [alloc]. *)
Definition index_lookup2 (node : inode_t) (pb : Z) (first second : nat) (alloc : bool) : M fs_state (inode_t * Z) :=
  let level2 := level2_block ← buf_word first; index_lookup node level2_block second alloc in
  read_block pb 0;;
  e ← buf_word first;
  if e =? 0 then
    if negb alloc then mret (node, 0) else
    new_level2 ← alloc_block;
    if new_level2 =? NEG1 then mret (node, NEG1) else
    buf_set BLOCK_LEN (replicate BLOCK_LEN 0);;
    write_block new_level2 BLOCK_LEN;;
    buf_set_word first new_level2;;
    write_block pb 0;;
    level2
  else level2.

(** The index block [ptr] of the inode, made when it is missing and [alloc];
    [go] looks further. *)
Definition with_index (node : inode_t) (inode_num ptr : Z) (hang : Z → inode_t → inode_t) (alloc : bool)
    (go : inode_t → Z → M fs_state (inode_t * Z)) : M fs_state (inode_t * Z) :=
  if ptr =? 0 then
    if negb alloc then mret (node, 0) else
    r ← new_index inode_num node hang;
    if r.2 =? NEG1 then mret (r.1, NEG1) else go r.1 r.2
  else go node ptr.

(** The inode after the call, which the C function updates in place, and the
    number of the block: -1 on failure, 0 for a block that the file lacks. *)
Definition get_physical_block_id (node : inode_t) (inode_num logical_id : Z) (alloc : bool) : M fs_state (inode_t * Z) :=
  if logical_id <? Z.of_nat DIRECT_BLOCK_NUM then
    let k := Z.to_nat logical_id in
    p ← of_opt (direct_ptr node !! k);
    if (p =? 0) && alloc then
      b ← alloc_block;
      let node := set_direct k b node in
      if b =? NEG1 then mret (node, NEG1) else
      write_inode inode_num node;;
      mret (node, b)
    else mret (node, p)
  else
  let logical_id := logical_id - Z.of_nat DIRECT_BLOCK_NUM in
  if logical_id <? Z.of_nat INDIRECT_BLOCK_NUM then
    with_index node inode_num (indirect_ptr node) set_indirect alloc
      (λ node p, index_lookup node p (Z.to_nat logical_id) alloc)
  else
  let logical_id := logical_id - Z.of_nat INDIRECT_BLOCK_NUM in
  if logical_id <? DOUBLE_INDIRECT_BLOCK_NUM then
    with_index node inode_num (double_indirect_ptr node) set_double alloc
      (λ node p, index_lookup2 node p (Z.to_nat (logical_id / Z.of_nat INDIRECT_BLOCK_NUM))
        (Z.to_nat (logical_id mod Z.of_nat INDIRECT_BLOCK_NUM)) alloc)
  else mret (node, NEG1).
End FsDisk.

(** ** A card that is a finite map from sectors to their bytes: a sector that
    was never written is zero *)

Section SectorMap.
Context (per : nat).
Notation card := (gmap Z (list Z)).

Definition map_sector (d : card) (b : Z) : list Z :=
  let s := default [] (d !! b) in take per (s ++ replicate (per - length s) 0).
Fixpoint map_read (d : card) (b : Z) (n : nat) : list Z :=
  match n with O => [] | S n' => map_sector d b ++ map_read d (b + 1) n' end.
Fixpoint map_write (d : card) (b : Z) (n : nat) (ws : list Z) : card :=
  match n with O => d | S n' => <[b := take per ws]> (map_write d (b + 1) n' (drop per ws)) end.

Lemma length_map_sector d b : length (map_sector d b) = per.
Proof. unfold map_sector. rewrite length_take, length_app, length_replicate. lia. Qed.

Lemma map_write_lookup d b n ws c :
  map_write d b n ws !! c
  = if decide (b ≤ c < b + Z.of_nat n) then Some (take per (drop (Z.to_nat (c - b) * per) ws)) else d !! c.
Proof.
  revert b ws. induction n as [|n IH]; intros b ws; simpl; [by rewrite decide_False by lia|].
  destruct (decide (c = b)) as [->|Hc].
  - rewrite lookup_insert_eq, decide_True by lia. by rewrite Z.sub_diag.
  - rewrite lookup_insert_ne, IH by done. destruct (decide (b + 1 ≤ c < b + 1 + Z.of_nat n)).
    + rewrite decide_True, drop_drop by lia. do 3 f_equal.
      replace (Z.to_nat (c - b)) with (S (Z.to_nat (c - (b + 1)))) by lia. done.
    + by rewrite decide_False by lia.
Qed.

Lemma map_read_ext d d' b n :
  (∀ c, b ≤ c < b + Z.of_nat n → d' !! c = d !! c) → map_read d' b n = map_read d b n.
Proof.
  revert b. induction n as [|n IH]; intros b H; simpl; [done|].
  unfold map_sector. rewrite (H b) by lia. f_equal. apply IH. intros c Hc. apply H. lia.
Qed.

Lemma map_read_take d b n ws :
  length ws = (n * per)%nat →
  (∀ c, b ≤ c < b + Z.of_nat n → d !! c = Some (take per (drop (Z.to_nat (c - b) * per) ws))) →
  map_read d b n = ws.
Proof.
  revert b ws. induction n as [|n IH]; intros b ws Hl H; simpl; [by destruct ws|].
  rewrite (IH (b + 1) (drop per ws)).
  - assert (length (take per ws) = per) as Ht by (rewrite length_take; simpl in Hl; lia).
    unfold map_sector. rewrite (H b), Z.sub_diag by lia. simpl. rewrite drop_0, Ht, Nat.sub_diag, app_nil_r.
    rewrite take_take, Nat.min_id. apply take_drop.
  - rewrite length_drop. simpl in Hl. lia.
  - intros c Hc. rewrite H by lia. rewrite drop_drop. do 3 f_equal.
    replace (Z.to_nat (c - b)) with (S (Z.to_nat (c - (b + 1)))) by lia. done.
Qed.
End SectorMap.

#[export, refine] Instance map_device (per : nat) : BlockDevice per (gmap Z (list Z)) := {
  sd_read := map_read per;
  sd_write := map_write per
}.
Proof.
  - intros d b n. revert b. induction n as [|n IH]; intros b; simpl; [done|].
    by rewrite length_app, length_map_sector, IH.
  - intros d b n ws Hl. apply map_read_take; [done|]. intros c Hc. by rewrite map_write_lookup, decide_True.
  - intros d b n ws b' n' Hd. apply map_read_ext. intros c Hc. by rewrite map_write_lookup, decide_False by lia.
  - intros d b n n'. revert b. induction n as [|n IH]; intros b; simpl; [by rewrite Z.add_0_r|].
    rewrite IH, (assoc_L (++)). do 2 f_equal. lia.
Defined.

(** ** Inodes on the card *)

Record inode_ok (x : inode_t) : Prop := {
  io_words : Forall (λ w, 0 ≤ w < 2 ^ 32) (inode_words x);
  io_direct : length (direct_ptr x) = DIRECT_BLOCK_NUM
}.

Lemma inode_of_bytes x : inode_ok x → inode_of (inode_bytes x) = x.
Proof.
  intros [Hw Hd]. unfold inode_bytes, inode_of.
  assert (∀ k w, inode_words x !! k = Some w → word (concat (bytes_of 4 <$> inode_words x)) k = w) as H.
  { intros k w Hk. apply word_words; [done|]. by eapply Forall_lookup_1 in Hw. }
  destruct x as [m t z n dp ip di]. cbn [direct_ptr] in Hd. unfold inode_words in *.
  cbn [i_mode i_type i_size nlinks direct_ptr indirect_ptr double_indirect_ptr app] in *.
  rewrite (H 0%nat m), (H 1%nat t), (H 2%nat z), (H 3%nat n) by done.
  assert (∀ k, (k < 2)%nat → (m :: t :: z :: n :: dp ++ [ip; di]) !! (14 + k)%nat = [ip; di] !! k) as Hlast.
  { intros k Hk. change ((dp ++ [ip; di]) !! (10 + k)%nat = [ip; di] !! k).
    rewrite lookup_app_r by (rewrite Hd; unfold DIRECT_BLOCK_NUM; lia). f_equal. rewrite Hd. unfold DIRECT_BLOCK_NUM. lia. }
  rewrite (H 14%nat ip) by (apply (Hlast 0%nat); lia). rewrite (H 15%nat di) by (apply (Hlast 1%nat); lia).
  f_equal. apply list_eq. intros i. rewrite list_lookup_fmap. destruct (decide (i < DIRECT_BLOCK_NUM)%nat) as [Hi|Hi].
  - rewrite lookup_seq_lt by done. cbn [fmap option_fmap option_map].
    destruct (lookup_lt_is_Some_2 dp i) as [w Hi']; [by rewrite Hd|]. rewrite Hi'. f_equal.
    apply H. change ((dp ++ [ip; di]) !! i = Some w). by rewrite lookup_app_l by (by rewrite Hd).
  - rewrite lookup_seq_ge, lookup_ge_None_2 by lia. done.
Qed.

Lemma length_inode_bytes x : inode_ok x → length (inode_bytes x) = 64%nat.
Proof.
  intros [_ Hd]. unfold inode_bytes. rewrite length_words. unfold inode_words.
  rewrite !length_app, Hd. done.
Qed.

Lemma inode_place n : 0 ≤ n < NUM_INODES →
  inode_sector n = inode_table_start + n / 8 ∧ inode_off n = Z.to_nat (64 * (n mod 8)) ∧ 0 ≤ n / 8 < 512.
Proof.
  unfold NUM_INODES, inode_sector, inode_off, INODE_SIZE, inode_table_start, FS_START_SECTOR. intros Hn.
  assert (n * 64 / 512 = n / 8) as -> by (Z.to_euclidean_division_equations; lia).
  assert (n * 64 mod 512 = 64 * (n mod 8)) as -> by (Z.to_euclidean_division_equations; lia).
  assert (0 ≤ n / 8 < 512) by (Z.to_euclidean_division_equations; lia).
  rewrite (u32_id (n / 8)) by lia. rewrite u32_id; [done|].
  change (SUPERBLOCK_SECTORS + INODE_MAP_SECTORS + BLOCK_MAP_SECTORS) with 34.
  change (2 ^ 20 + SUPERBLOCK_SECTORS + INODE_MAP_SECTORS + BLOCK_MAP_SECTORS) with 1048610. lia.
Qed.

Section OnCard.
Context {D : Type} `{!BlockDevice SECTOR_LEN D}.
Implicit Types (s : fs_state (D := D)) (d : D).

(** The inode [n] as the card has it. *)
Definition inode_at (d : D) (n : Z) : inode_t :=
  inode_of (take 64 (drop (inode_off n) (sd_read d (inode_sector n) 1))).

Lemma u32_inode_sector n : u32 (inode_sector n) = inode_sector n.
Proof. unfold inode_sector. apply u32_id, u32_range. Qed.

Lemma get_inode_ok n s : get_inode n s = Ok (inode_at (fs_disk s) n) s.
Proof.
  unfold get_inode, read_sectors. rewrite bind_gets. unfold inode_at. by rewrite u32_inode_sector.
Qed.

(** The card after [write_inode]. *)
Definition with_inode (d : D) (n : Z) (x : inode_t) : D :=
  sd_write d (inode_sector n) 1 (splice (inode_off n) (inode_bytes x) (sd_read d (inode_sector n) 1)).

Lemma write_inode_ok n x s : write_inode n x s = Ok () (upd_disk (with_inode (fs_disk s) n x) s).
Proof.
  unfold write_inode, read_sectors, write_sectors. rewrite bind_gets. unfold modify, with_inode.
  by rewrite u32_inode_sector.
Qed.

Lemma with_inode_sector d n x :
  0 ≤ n < NUM_INODES → inode_ok x →
  sd_read (with_inode d n x) (inode_sector n) 1
  = splice (inode_off n) (inode_bytes x) (sd_read d (inode_sector n) 1).
Proof.
  intros Hn Hx. destruct (inode_place n Hn) as (_ & Ho & _). unfold with_inode. apply sd_read_same.
  rewrite length_splice; rewrite sd_read_length; [done|]. rewrite length_inode_bytes, Ho by done.
  unfold SECTOR_LEN. pose proof (Z.mod_pos_bound n 8). lia.
Qed.

Lemma with_inode_same d n x : 0 ≤ n < NUM_INODES → inode_ok x → inode_at (with_inode d n x) n = x.
Proof.
  intros Hn Hx. destruct (inode_place n Hn) as (_ & Ho & _). unfold inode_at.
  rewrite with_inode_sector by done. rewrite slice_splice_same; [by apply inode_of_bytes| |].
  - rewrite length_inode_bytes, sd_read_length, Ho by done. unfold SECTOR_LEN. pose proof (Z.mod_pos_bound n 8). lia.
  - by rewrite length_inode_bytes.
Qed.

Lemma with_inode_ne d n m x : 0 ≤ n < NUM_INODES → 0 ≤ m < NUM_INODES → n ≠ m → inode_ok x →
  inode_at (with_inode d n x) m = inode_at d m.
Proof.
  intros Hn Hm Hne Hx. destruct (inode_place n Hn) as (Hs & Ho & _), (inode_place m Hm) as (Hs' & Ho' & _).
  unfold inode_at. destruct (decide (n / 8 = m / 8)) as [E|E].
  - assert (inode_sector m = inode_sector n) as -> by by rewrite Hs, Hs', E.
    rewrite with_inode_sector by done. rewrite slice_splice_other; [done| |].
    + rewrite length_inode_bytes, sd_read_length, Ho by done. unfold SECTOR_LEN. pose proof (Z.mod_pos_bound n 8). lia.
    + rewrite length_inode_bytes, Ho, Ho' by done.
      pose proof (Z.mod_pos_bound n 8). pose proof (Z.mod_pos_bound m 8).
      assert (n mod 8 ≠ m mod 8) by (intros E'; apply Hne; Z.to_euclidean_division_equations; lia). lia.
  - unfold with_inode. rewrite sd_read_other; [done|]. rewrite Hs, Hs'. lia.
Qed.

(** An inode written to the card and read back is the same, and writing it
    changes no other inode and no other sector of the card. *)
Theorem write_get_inode s n x :
  0 ≤ n < NUM_INODES → inode_ok x →
  wp (write_inode n x) s (λ _ s',
    wp (get_inode n) s' (λ y s'', y = x ∧ s'' = s') ∧
    (∀ m, 0 ≤ m < NUM_INODES → m ≠ n → inode_at (fs_disk s') m = inode_at (fs_disk s) m) ∧
    ∀ b k, b + Z.of_nat k ≤ inode_sector n ∨ inode_sector n < b →
      sd_read (fs_disk s') b k = sd_read (fs_disk s) b k).
Proof.
  intros Hn Hx. rewrite (wp_ok _ _ _ _ _ (write_inode_ok n x s)). split; [|split].
  - rewrite (wp_ok _ _ _ _ _ (get_inode_ok n _)). split; [|done]. by apply with_inode_same.
  - intros m Hm Hne. by apply with_inode_ne.
  - intros b k Hb. apply sd_read_other. lia.
Qed.

(** ** The bitmaps *)

(** Bit [k] of the map whose first sector is [base]. *)
Definition map_byte (d : D) (base k : Z) : Z :=
  nth (Z.to_nat (k mod 4096 / 8)) (sd_read d (base + k / 4096) 1) 0.
Definition map_bit (d : D) (base k : Z) : bool := Z.testbit (map_byte d base k) (k mod 8).

Record map_ok (d : D) (base : Z) (n : nat) : Prop := {
  mk_base : 0 ≤ base ∧ base + Z.of_nat n ≤ 2 ^ 32;
  mk_bytes : ∀ b, base ≤ b < base + Z.of_nat n → Forall (λ x, 0 ≤ x < 256) (sd_read d b 1)
}.

(** The card with the byte [j] of a sector replaced. *)
Definition with_byte (d : D) (sector : Z) (j : nat) (x : Z) : D :=
  sd_write d sector 1 (<[j := x]> (sd_read d sector 1)).

Lemma with_byte_sector d b j x : sd_read (with_byte d b j x) b 1 = <[j := x]> (sd_read d b 1).
Proof. unfold with_byte. apply sd_read_same. by rewrite length_insert, sd_read_length. Qed.

Lemma with_byte_other d b j x b' n : b' + Z.of_nat n ≤ b ∨ b < b' →
  sd_read (with_byte d b j x) b' n = sd_read d b' n.
Proof. intros H. apply sd_read_other. lia. Qed.

Lemma with_byte_ok d base n k x : map_ok d base n → 0 ≤ x < 256 → map_ok (with_byte d (base + k / 4096) (Z.to_nat (k mod 4096 / 8)) x) base n.
Proof.
  intros [Hb Hby] Hx. split; [done|]. intros b Hr. destruct (decide (b = base + k / 4096)) as [->|Hne].
  - rewrite with_byte_sector. apply Forall_insert; [by apply Hby|done].
  - rewrite with_byte_other by lia. by apply Hby.
Qed.

Lemma bit_place k : 0 ≤ k → 0 ≤ k mod 4096 / 8 < 512 ∧ 0 ≤ k mod 8 < 8 ∧
  k = k / 4096 * 4096 + k mod 4096 / 8 * 8 + k mod 8.
Proof. intros Hk. Z.to_euclidean_division_equations; lia. Qed.

Lemma map_byte_with d base k x k' : 0 ≤ k → 0 ≤ k' →
  map_byte (with_byte d (base + k / 4096) (Z.to_nat (k mod 4096 / 8)) x) base k'
  = if decide (k' / 8 = k / 8) then x else map_byte d base k'.
Proof.
  intros Hk Hk'. destruct (bit_place k Hk) as (Hj & Hb & He), (bit_place k' Hk') as (Hj' & Hb' & He').
  unfold map_byte. destruct (decide (k' / 4096 = k / 4096)) as [E|E].
  - rewrite E, with_byte_sector. rewrite !nth_lookup. destruct (decide (k' / 8 = k / 8)) as [E'|E'].
    + assert (k' mod 4096 / 8 = k mod 4096 / 8) as -> by (Z.to_euclidean_division_equations; lia).
      rewrite list_lookup_insert_eq; [done|]. rewrite sd_read_length. unfold SECTOR_LEN. lia.
    + rewrite list_lookup_insert_ne; [done|]. intros Ej. apply E'. Z.to_euclidean_division_equations; lia.
  - rewrite with_byte_other by lia. rewrite decide_False; [done|]. intros E'. apply E.
    Z.to_euclidean_division_equations; lia.
Qed.

Lemma map_byte_range d base n k : map_ok d base n → 0 ≤ k < 4096 * Z.of_nat n → 0 ≤ map_byte d base k < 256.
Proof.
  intros [_ Hby] Hk. destruct (bit_place k) as (Hj & _); [lia|]. unfold map_byte.
  assert (base ≤ base + k / 4096 < base + Z.of_nat n) as Hs by (Z.to_euclidean_division_equations; lia).
  specialize (Hby _ Hs). rewrite nth_lookup.
  destruct (lookup_lt_is_Some_2 (sd_read d (base + k / 4096) 1) (Z.to_nat (k mod 4096 / 8))) as [y Hy].
  { rewrite sd_read_length. unfold SECTOR_LEN. lia. }
  rewrite Hy. simpl. by eapply Forall_lookup_1 in Hby.
Qed.

Lemma byte_full x : 0 ≤ x < 256 → (∀ i, (i < 8)%nat → Z.testbit x (Z.of_nat i) = true) → x = 255.
Proof.
  intros Hx H. apply Z.bits_inj'. intros i Hi. change 255 with (Z.ones 8). destruct (decide (i < 8)).
  - rewrite Z.ones_spec_low by lia. rewrite <- (Z2Nat.id i) by done. apply H. lia.
  - rewrite Z.ones_spec_high by lia. by apply (testbit_high 8); [change (2 ^ 8) with 256|lia].
Qed.

Lemma testbit_255 i : 0 ≤ i < 8 → Z.testbit 255 i = true.
Proof. intros. change 255 with (Z.ones 8). by apply Z.ones_spec_low. Qed.

(** [find_bit] finds the first bit that is 0. *)
Lemma find_bit_spec j bs : Forall (λ x, 0 ≤ x < 256) bs →
  match find_bit j bs with
  | Some (j', bit) => ∃ i, j' = (j + i)%nat ∧ (i < length bs)%nat ∧ (bit < 8)%nat ∧
      Z.testbit (nth i bs 0) (Z.of_nat bit) = false ∧
      (∀ c, (c < bit)%nat → Z.testbit (nth i bs 0) (Z.of_nat c) = true) ∧
      ∀ i' c, (i' < i)%nat → 0 ≤ c < 8 → Z.testbit (nth i' bs 0) c = true
  | None => ∀ i c, (i < length bs)%nat → 0 ≤ c < 8 → Z.testbit (nth i bs 0) c = true
  end.
Proof.
  revert j. induction bs as [|b bs IH]; intros j Hbs; simpl; [lia|].
  apply Forall_cons in Hbs as [Hb Hbs]. specialize (IH (S j) Hbs).
  assert ((∀ c, 0 ≤ c < 8 → Z.testbit b c = true) →
    match find_bit (S j) bs with
    | Some (j', bit) => ∃ i, j' = (j + i)%nat ∧ (i < S (length bs))%nat ∧ (bit < 8)%nat ∧
        Z.testbit (nth i (b :: bs) 0) (Z.of_nat bit) = false ∧
        (∀ c, (c < bit)%nat → Z.testbit (nth i (b :: bs) 0) (Z.of_nat c) = true) ∧
        ∀ i' c, (i' < i)%nat → 0 ≤ c < 8 → Z.testbit (nth i' (b :: bs) 0) c = true
    | None => ∀ i c, (i < S (length bs))%nat → 0 ≤ c < 8 → Z.testbit (nth i (b :: bs) 0) c = true
    end) as Hskip.
  { intros Hfull. destruct (find_bit (S j) bs) as [[j' bit]|].
    - destruct IH as (i & -> & Hi & Hbit & Hz & Hlow & Hprev). exists (S i).
      split; [lia|]. split; [lia|]. split; [done|]. split; [done|]. split; [done|].
      intros [|i'] c Hi' Hc; [by apply Hfull|]. apply Hprev; [lia|done].
    - intros [|i] c Hi Hc; [by apply Hfull|]. apply IH; [lia|done]. }
  destruct (Z.eqb_spec b 255) as [->|Hne]; [by apply Hskip, testbit_255|].
  destruct (first_index 8 _) as [bit|] eqn:E.
  - apply first_index_Some in E as (Hbit & Hz & Hlow). apply negb_true_iff in Hz. exists 0%nat.
    split; [lia|]. split; [lia|]. split; [done|]. split; [done|]. split; [|lia].
    intros c Hc. specialize (Hlow c Hc). by apply negb_false_iff in Hlow.
  - rewrite first_index_None in E. exfalso. apply Hne, byte_full; [done|].
    intros i Hi. specialize (E i Hi). by apply negb_false_iff in E.
Qed.

(** The card [d'] has the map of [d] but for the bit [k], which is [v]. *)
Record bit_changed (base : Z) (n : nat) (d d' : D) (k : Z) (v : bool) : Prop := {
  bc_ok : map_ok d' base n;
  bc_bits : ∀ k', 0 ≤ k' < 4096 * Z.of_nat n → map_bit d' base k' = if decide (k' = k) then v else map_bit d base k';
  bc_other : ∀ b m, b + Z.of_nat m ≤ base ∨ base + Z.of_nat n ≤ b → sd_read d' b m = sd_read d b m
}.

Lemma with_byte_bit d base n k x v :
  map_ok d base n → 0 ≤ k < 4096 * Z.of_nat n → 0 ≤ x < 256 →
  (∀ c, 0 ≤ c < 8 → Z.testbit x c = if decide (c = k mod 8) then v else Z.testbit (map_byte d base k) c) →
  bit_changed base n d (with_byte d (base + k / 4096) (Z.to_nat (k mod 4096 / 8)) x) k v.
Proof.
  intros Hok Hk Hx Hbits. split.
  - by apply with_byte_ok.
  - intros k' Hk'. unfold map_bit at 1. rewrite map_byte_with by lia.
    pose proof (Z.mod_pos_bound k' 8 ltac:(lia)). destruct (decide (k' / 8 = k / 8)) as [E|E].
    + rewrite Hbits by done. destruct (decide (k' = k)) as [->|Hne]; [by rewrite decide_True|].
      rewrite decide_False by (intros E'; apply Hne; Z.to_euclidean_division_equations; lia).
      unfold map_bit. assert (map_byte d base k = map_byte d base k') as ->; [|done].
      unfold map_byte. assert (k / 4096 = k' / 4096) as -> by (Z.to_euclidean_division_equations; lia).
      do 2 f_equal. Z.to_euclidean_division_equations; lia.
    + rewrite decide_False by congruence. done.
  - intros b m Hb. apply with_byte_other. Z.to_euclidean_division_equations; lia.
Qed.

Lemma lor_bit x c i : 0 ≤ c → 0 ≤ i → Z.testbit (Z.lor x (Z.shiftl 1 c)) i = if decide (i = c) then true else Z.testbit x i.
Proof.
  intros Hc Hi. rewrite Z.lor_spec, Z.shiftl_1_l, Z.pow2_bits_eqb by done.
  destruct (Z.eqb_spec c i), (decide (i = c)); try congruence; [apply orb_true_r|apply orb_false_r].
Qed.

Lemma clear_bit x c i : 0 ≤ c → 0 ≤ i →
  Z.testbit (Z.land x (Z.lnot (Z.shiftl 1 c))) i = if decide (i = c) then false else Z.testbit x i.
Proof.
  intros Hc Hi. rewrite Z.land_spec, Z.lnot_spec, Z.shiftl_1_l, Z.pow2_bits_eqb by done.
  destruct (Z.eqb_spec c i), (decide (i = c)); try congruence; [apply andb_false_r|apply andb_true_r].
Qed.

Lemma bits_byte x : (∀ i, 8 ≤ i → Z.testbit x i = false) → 0 ≤ x < 256.
Proof. intros H. apply (bits_range x 8); [lia|done]. Qed.

Lemma lor_byte x c : 0 ≤ x < 256 → 0 ≤ c < 8 → 0 ≤ Z.lor x (Z.shiftl 1 c) < 256.
Proof.
  intros Hx Hc. apply bits_byte. intros i Hi. rewrite lor_bit, decide_False by lia.
  by apply (testbit_high 8); [change (2 ^ 8) with 256|].
Qed.

Lemma clear_byte x c : 0 ≤ x < 256 → 0 ≤ c < 8 → 0 ≤ Z.land x (Z.lnot (Z.shiftl 1 c)) < 256.
Proof.
  intros Hx Hc. apply bits_byte. intros i Hi. rewrite clear_bit, decide_False by lia.
  by apply (testbit_high 8); [change (2 ^ 8) with 256|].
Qed.

(** One sector of the map: where its first free bit is. *)
Lemma find_bit_sector d base n i : map_ok d base n → (i < n)%nat →
  match find_bit 0 (sd_read d (base + Z.of_nat i) 1) with
  | Some (j, bit) => let k := Z.of_nat i * 512 * 8 + Z.of_nat j * 8 + Z.of_nat bit in
      k / 4096 = Z.of_nat i ∧ k mod 4096 / 8 = Z.of_nat j ∧ k mod 8 = Z.of_nat bit ∧
      nth j (sd_read d (base + Z.of_nat i) 1) 0 = map_byte d base k ∧
      map_bit d base k = false ∧ ∀ k', Z.of_nat i * 4096 ≤ k' < k → map_bit d base k' = true
  | None => ∀ k', Z.of_nat i * 4096 ≤ k' < Z.of_nat (S i) * 4096 → map_bit d base k' = true
  end.
Proof.
  intros [_ Hby] Hi. pose proof (find_bit_spec 0 _ (Hby (base + Z.of_nat i) ltac:(lia))) as Hf.
  assert (length (sd_read d (base + Z.of_nat i) 1) = 512%nat) as Hl by by rewrite sd_read_length.
  assert (∀ k', Z.of_nat i * 4096 ≤ k' < Z.of_nat (S i) * 4096 →
    map_bit d base k' = Z.testbit (nth (Z.to_nat (k' mod 4096 / 8)) (sd_read d (base + Z.of_nat i) 1) 0) (k' mod 8)) as Hbit.
  { intros k' Hk'. unfold map_bit, map_byte.
    assert (k' / 4096 = Z.of_nat i) as -> by (Z.to_euclidean_division_equations; lia). done. }
  destruct (find_bit 0 _) as [[j bit]|].
  - destruct Hf as (j' & -> & Hj & Hb & Hz & Hlow & Hprev). rewrite Hl in Hj. cbv zeta.
    change (0 + j')%nat with j' in *. set (k := Z.of_nat i * 512 * 8 + _ + _).
    assert (k / 4096 = Z.of_nat i ∧ k mod 4096 / 8 = Z.of_nat j' ∧ k mod 8 = Z.of_nat bit) as (E1 & E2 & E3).
    { subst k. Z.to_euclidean_division_equations; lia. }
    split; [done|]. split; [done|]. split; [done|].
    split; [unfold map_byte; by rewrite E1, E2, Nat2Z.id|].
    split; [rewrite Hbit by (subst k; lia); by rewrite E2, E3, Nat2Z.id|].
    intros k' Hk'. rewrite Hbit by (subst k; lia).
    destruct (decide (k' mod 4096 / 8 = Z.of_nat j')) as [E|E].
    + rewrite E, Nat2Z.id. rewrite <- (Z2Nat.id (k' mod 8)) by (apply Z.mod_pos_bound; lia). apply Hlow.
      subst k. Z.to_euclidean_division_equations; lia.
    + apply Hprev; [|apply Z.mod_pos_bound; lia]. subst k. Z.to_euclidean_division_equations; lia.
  - intros k' Hk'. rewrite Hbit by done. apply Hf; [|apply Z.mod_pos_bound; lia]. rewrite Hl.
    Z.to_euclidean_division_equations; lia.
Qed.

Definition map_base (map_offset : superblock_t → Z) s : Z := start_sector (sb s) + map_offset (sb s).

Lemma alloc_bit_ok n map_offset s :
  sb_valid s = true → map_ok (fs_disk s) (map_base map_offset s) n →
  let base := map_base map_offset s in
  wp (alloc_bit n map_offset) s (λ r s',
    (r = NEG1 ∧ s' = s ∧ ∀ k, 0 ≤ k < 4096 * Z.of_nat n → map_bit (fs_disk s) base k = true) ∨
    (0 ≤ r < 4096 * Z.of_nat n ∧ map_bit (fs_disk s) base r = false ∧
     (∀ k, 0 ≤ k < r → map_bit (fs_disk s) base k = true) ∧
     ∃ d', s' = upd_disk d' s ∧ bit_changed base n (fs_disk s) d' r true)).
Proof.
  intros Hv Hok base. unfold alloc_bit, ensure_sb. rewrite wp_bind, wp_bind, wp_get, Hv, wp_ret, wp_bind.
  set (d := fs_disk s) in *.
  apply (wp_for_ret (λ i s', s' = s ∧ ∀ k, 0 ≤ k < Z.of_nat i * 4096 → map_bit d base k = true)).
  - split; [done|]. lia.
  - intros i s' Hi [-> Hlow]. rewrite wp_bind, wp_get. cbv zeta. unfold read_sectors. rewrite wp_bind, wp_gets.
    fold d. change (start_sector (sb s) + map_offset (sb s)) with base.
    pose proof (mk_base _ _ _ Hok) as Hb. change (2 ^ 32) with 4294967296 in Hb.
    assert (u32 (base + Z.of_nat i) = base + Z.of_nat i) as Hu by (apply u32_id; subst base; lia).
    rewrite Hu. pose proof (find_bit_sector d base n i Hok ltac:(lia)) as Hf.
    destruct (find_bit 0 _) as [[j bit]|].
    + cbv zeta in Hf. destruct Hf as (E1 & E2 & E3 & Hbyte & Hz & Hprev).
      set (k := Z.of_nat i * 512 * 8 + _ + _) in *. rewrite wp_bind. unfold write_sectors. rewrite wp_modify, wp_ret.
      rewrite wp_ret. right. simpl default. rewrite Hu.
      assert (0 ≤ k < 4096 * Z.of_nat n) as Hk by (subst k; Z.to_euclidean_division_equations; lia).
      split; [done|]. split; [done|]. split.
      { intros k' Hk'. destruct (decide (k' < Z.of_nat i * 4096)); [apply Hlow; lia|apply Hprev; lia]. }
      eexists. split; [reflexivity|]. fold d. rewrite Hbyte, <- E3.
      pose proof (with_byte_bit d base n k (Z.lor (map_byte d base k) (Z.shiftl 1 (k mod 8))) true) as Hw.
      rewrite E1, E2, Nat2Z.id in Hw. unfold with_byte in Hw.
      pose proof (map_byte_range d base n k Hok Hk). apply Hw; try done.
      * apply lor_byte; [done|]. apply Z.mod_pos_bound. lia.
      * intros c Hc. apply lor_bit; [|lia]. apply Z.mod_pos_bound. lia.
    + rewrite wp_ret. split; [done|]. intros k Hk. destruct (decide (k < Z.of_nat i * 4096)); [apply Hlow; lia|apply Hf; lia].
  - intros s' [-> Hall]. rewrite wp_ret. left. split; [done|]. split; [done|]. intros k Hk. apply Hall. lia.
Qed.

(** [alloc_inode] and [alloc_block] hand out the least number whose bit in
    their map is clear, set exactly this bit, and write nothing else on the card;
    they answer -1, and write nothing, only when every bit of the map is set. *)
Theorem alloc_bit_spec n map_offset s :
  sb_valid s = true → map_ok (fs_disk s) (map_base map_offset s) n →
  let base := map_base map_offset s in
  wp (alloc_bit n map_offset) s (λ r s',
    (r = NEG1 ∧ s' = s ∧ ∀ k, 0 ≤ k < 4096 * Z.of_nat n → map_bit (fs_disk s) base k = true) ∨
    (0 ≤ r < 4096 * Z.of_nat n ∧ map_bit (fs_disk s) base r = false ∧
     (∀ k, 0 ≤ k < r → map_bit (fs_disk s) base k = true) ∧
     ∃ d', s' = upd_disk d' s ∧ bit_changed base n (fs_disk s) d' r true)).
Proof. apply alloc_bit_ok. Qed.

(** Freeing clears exactly the bit, when the superblock on the card is the one
    in memory. *)
Lemma free_bit_ok n map_offset s k :
  sb_of (take 80 (drop 0 (splice 0 (sd_read (fs_disk s) FS_START_SECTOR 1) (tbuf s)))) = sb s →
  map_ok (fs_disk s) (map_base map_offset s) n → 0 ≤ k < 4096 * Z.of_nat n →
  wp (free_bit map_offset k) s (λ _ s', ∃ d',
    s' = upd_disk d' (upd_tbuf (splice 0 (sd_read (fs_disk s) FS_START_SECTOR 1) (tbuf s)) s) ∧
    bit_changed (map_base map_offset s) n (fs_disk s) d' k false).
Proof.
  intros Hsb Hok Hk. unfold free_bit, read_sb, read_sectors, buf_set, buf_get.
  rewrite wp_bind, wp_bind, wp_gets, wp_bind, wp_modify, wp_bind, wp_gets, wp_modify.
  change (u32 FS_START_SECTOR) with FS_START_SECTOR. cbn [tbuf upd_tbuf]. rewrite Hsb. cbv zeta.
  rewrite wp_bind, wp_get, wp_bind, wp_gets. unfold write_sectors. rewrite wp_modify.
  cbn [fs_disk sb upd_sb upd_tbuf]. set (d := fs_disk s) in *. fold (map_base map_offset s).
  set (base := map_base map_offset s) in *.
  pose proof (mk_base _ _ _ Hok) as Hb. change (2 ^ 32) with 4294967296 in Hb. change (512 * 8) with 4096.
  destruct (bit_place k) as (Hj & Hbit & _); [lia|].
  rewrite u32_id by (Z.to_euclidean_division_equations; lia).
  eexists. split; [unfold upd_disk, upd_sb, upd_tbuf; simpl; reflexivity|].
  change (nth _ (sd_read d _ 1) 0) with (map_byte d base k).
  apply with_byte_bit; try done.
  - apply clear_byte; [|done]. by eapply map_byte_range.
  - intros c Hc. apply clear_bit; lia.
Qed.
End OnCard.

(** ** Examples *)

(** An empty card, a map of one sector at sector 1002. *)
Definition ex_fs0 : fs_state (D := gmap Z (list Z)) :=
  mk_fs ∅ (replicate TEMP_BUF_LEN 0) (mk_sb SUPERBLOCK_MAGIC 0 1000 0 1 2 0 0 0 0) true [] [] 0.

Lemma map_ok_empty base n : 0 ≤ base → base + Z.of_nat n ≤ 2 ^ 32 → map_ok (∅ : gmap Z (list Z)) base n.
Proof.
  intros Hb Hn. split; [done|]. intros b _. apply Forall_app. split; [|constructor].
  unfold map_sector. rewrite lookup_empty. by apply Forall_take, Forall_app_2, Forall_replicate.
Qed.

Lemma write_get_inode_witness :
  wp (write_inode 5 (set_size 77 no_inode)) ex_fs0 (λ _ s', i_size (inode_at (fs_disk s') 5) = 77).
Proof.
  eapply wp_mono.
  - apply (write_get_inode ex_fs0 5 (set_size 77 no_inode)); [by vm_compute|].
    split; [|done]. by repeat constructor; vm_compute.
  - intros _ s' (Hg & _). apply wp_iff in Hg as (y & s'' & Hg & -> & ->).
    rewrite get_inode_ok in Hg.
    assert (inode_at (fs_disk s') 5 = set_size 77 no_inode) as -> by congruence. done.
Defined.

Lemma alloc_bit_spec_witness : wp (alloc_bit 1 block_map_offset) ex_fs0 (λ r _, r = 0).
Proof.
  eapply wp_mono; [apply (alloc_bit_spec 1 block_map_offset ex_fs0); [done|by apply map_ok_empty; vm_compute]|].
  assert (map_bit (fs_disk ex_fs0) (map_base block_map_offset ex_fs0) 0 = false) as H0 by by vm_compute.
  intros r s' [(_ & _ & H)|(Hr & _ & H & _)].
  - rewrite H in H0; [done|lia].
  - destruct (decide (r = 0)) as [|Hne]; [done|]. rewrite H in H0; [done|lia].
Defined.
