(* ===== verification/FsDir.v ===== *)
(** kernel/fs/fs_tools.c: directories and paths.  A directory's blocks are
    arrays of 204 entries of 20 bytes, a name of 16 and the inode's number; an
    entry whose name is empty is free. *)
From S2P Require Import Prelude KMonad Bytes Swap FsDisk.

Definition SLASH : Z := 47.

(** The bytes of an entry. The bytes behind the name's end are not written by
    the callers; they are 0 here. *)
Definition dentry_bytes (d : dentry_t) : list Z :=
  d_name d ++ replicate (MAX_FNAME_LEN - length (d_name d)) 0 ++ bytes_of 4 (d_inode d).

(** [strcmp(b, name) == 0] for a string that starts at [b]. *)
Fixpoint str_eq (b name : list Z) : bool :=
  match name with
  | [] => match b with x :: _ => x =? 0 | [] => false end
  | c :: name' => match b with x :: b' => (x =? c) && str_eq b' name' | [] => false end
  end.

Definition entry_at (b : list Z) (j : nat) : list Z := drop (DENTRY_SIZE * j) b.
Definition entry_free (b : list Z) (j : nat) : bool := nth 0 (entry_at b j) 0 =? 0.
Definition entry_named (b name : list Z) (j : nat) : bool :=
  negb (entry_free b j) && str_eq (entry_at b j) name.
Definition entry_inode (b : list Z) (j : nat) : Z := of_bytes (take 4 (drop 16 (entry_at b j))).

Definition num_blocks (node : inode_t) : Z := u32 (i_size node + BLOCK_SIZE - 1) / BLOCK_SIZE.

Section FsDir.
Context {D : Type} `{!BlockDevice SECTOR_LEN D}.
#[local] Notation fs_state := (fs_state (D := D)).

(** The loop over the blocks of a directory: [body] works on the block [pb]
    that was read into the buffer. *)
Definition each_block {R} (node : inode_t) (inode_num : Z) (body : Z → M fs_state (option R)) : M fs_state (option R) :=
  for_ret 0 (Z.to_nat (num_blocks node)) (λ i,
    r ← get_physical_block_id node inode_num (Z.of_nat i) false;
    let p_block := r.2 in
    if (p_block =? NEG1) || (p_block =? 0) then mret None else
    read_block p_block 0;;
    body p_block).

(** The directory's inode after the call. *)
Definition append_dentry (dir_inode : inode_t) (dir_inode_num : Z) (dentry : dentry_t) : M fs_state inode_t :=
  done ← each_block dir_inode dir_inode_num (λ p_block,
    b ← gets tbuf;
    match first_index DENTRIES (entry_free b) with
    | Some j =>
        buf_set (DENTRY_SIZE * j) (dentry_bytes dentry);;
        write_block p_block 0;;
        mret (Some ())
    | None => mret None
    end);
  match done with
  | Some _ => mret dir_inode
  | None =>
      r ← get_physical_block_id dir_inode dir_inode_num (num_blocks dir_inode) true;
      let '(dir_inode, new_p_block) := r in
      if (new_p_block =? NEG1) || (new_p_block =? 0) then mret dir_inode else
      buf_set 0 (replicate BLOCK_LEN 0);;
      buf_set 0 (dentry_bytes dentry);;
      write_block new_p_block 0;;
      mret (set_size (u32 (i_size dir_inode + BLOCK_SIZE)) dir_inode)
  end.

Definition remove_dentry (p_inode : inode_t) (p_inode_num : Z) (name : list Z) : M fs_state unit :=
  each_block p_inode p_inode_num (λ p_block,
    b ← gets tbuf;
    match first_index DENTRIES (entry_named b name) with
    | Some j =>
        buf_set (DENTRY_SIZE * j) [0];;
        write_block p_block 0;;
        mret (Some ())
    | None => mret None
    end);;
  mret ().

Definition find_inode_by_name (dir_inode_num : Z) (name : list Z) : M fs_state Z :=
  dir_node ← get_inode dir_inode_num;
  if negb (i_type dir_node =? FD_DIR) then mret NEG1 else
  r ← each_block dir_node dir_inode_num (λ _,
    b ← gets tbuf;
    mret (entry_inode b <$> first_index DENTRIES (entry_named b name)));
  mret (default NEG1 r).

(** [strchr] and [strrchr] with '/': what comes before it and what behind. *)
Fixpoint split_first (p : list Z) : option (list Z * list Z) :=
  match p with
  | [] => None
  | c :: p' => if c =? SLASH then Some ([], p') else '(a, b) ← split_first p'; Some (c :: a, b)
  end.
Fixpoint split_last (p : list Z) : option (list Z * list Z) :=
  match p with
  | [] => None
  | c :: p' =>
      match split_last p' with
      | Some (a, b) => Some (c :: a, b)
      | None => if c =? SLASH then Some ([], p') else None
      end
  end.

(** One round of the loop of [find_inode_by_path] on [name] and [curr_inode]. *)
Definition path_step (l : list Z * Z) : M fs_state (list Z * Z + Z) :=
  let '(name, curr_inode) := l in
  match name with
  | [] => mret (inr curr_inode)
  | _ =>
      match split_first name with
      | Some (c, next) =>
          curr_inode ← find_inode_by_name curr_inode c;
          if curr_inode =? NEG1 then mret (inr NEG1) else mret (inl (next, curr_inode))
      | None => curr_inode ← find_inode_by_name curr_inode name; mret (inr curr_inode)
      end
  end.

(** The path is copied into an array of [MAX_PATH_LEN] bytes. *)
Definition find_inode_by_path (path : list Z) : M fs_state Z :=
  s ← get;
  let '(curr_inode, path) :=
    match path with
    | c :: path' => if c =? SLASH then (ROOT_INODE_NUM, path') else (cur_dir s, path)
    | [] => (cur_dir s, path)
    end in
  assert (bool_decide (length path < MAX_PATH_LEN)%nat);;
  while_ (S (length path)) path_step (path, curr_inode).

Definition alloc_fd : M fs_state Z :=
  s ← get;
  mret (match first_index NUM_FDESCS (λ fd,
          match tools_fdesc_array s !! fd with Some f => negb (f_used f) | None => false end) with
        | Some fd => Z.of_nat fd
        | None => -1
        end).
End FsDir.
