(* ===== verification/Fs.v ===== *)
(** kernel/fs/fs.c: the system calls of the file system.

    A path is the string at the argument. What [do_ls] and [do_statfs] print is
    a result of the model; the messages of [printk] are left out. *)
From S2P Require Import Prelude KMonad Bytes Swap FsDisk FsDir.

Definition O_RDONLY : Z := 1.
Definition O_WRONLY : Z := 2.
Definition O_RDWR : Z := 3.
Definition SEEK_SET : Z := 0.
Definition SEEK_CUR : Z := 1.
Definition SEEK_END : Z := 2.
Definition DOT : list Z := [46].
Definition DOTDOT : list Z := [46; 46].

(** The superblock that [do_mkfs] writes. *)
Definition new_sb : superblock_t :=
  mk_sb SUPERBLOCK_MAGIC (FS_SIZE / 512) FS_START_SECTOR BLOCK_SIZE SUPERBLOCK_SECTORS
    (SUPERBLOCK_SECTORS + INODE_MAP_SECTORS) (SUPERBLOCK_SECTORS + INODE_MAP_SECTORS + BLOCK_MAP_SECTORS)
    (SUPERBLOCK_SECTORS + INODE_MAP_SECTORS + BLOCK_MAP_SECTORS + INODE_TABLE_SECTORS)
    INODE_SIZE (Z.of_nat DENTRY_SIZE).

Definition new_dir (block : Z) : inode_t :=
  mk_inode 0 FD_DIR BLOCK_SIZE 2 (<[0%nat := block]> (replicate DIRECT_BLOCK_NUM 0)) 0 0.
Definition new_file : inode_t := mk_inode 0 FD_FILE 0 1 (replicate DIRECT_BLOCK_NUM 0) 0 0.

Definition popcount (b : Z) : Z := Z.of_nat (count_if (λ i, Z.testbit b (Z.of_nat i)) (seq 0 8)).

Section Fs.
Context {D : Type} `{!BlockDevice SECTOR_LEN D}.
#[local] Notation fs_state := (fs_state (D := D)).

(** ** Making and inspecting a file system *)

(** The first block of a directory: the entries "." and "..". *)
Definition write_dots (block self parent : Z) : M fs_state unit :=
  buf_set 0 (replicate BLOCK_LEN 0);;
  buf_set 0 (dentry_bytes (mk_dentry DOT self));;
  buf_set DENTRY_SIZE (dentry_bytes (mk_dentry DOTDOT parent));;
  write_block block 0.

Definition do_mkfs : M fs_state Z :=
  read_sb;;
  s ← get;
  if magic (sb s) =? SUPERBLOCK_MAGIC then modify upd_sb_valid;; mret (-1) else
  modify (upd_sb new_sb);;
  write_sb;;
  modify upd_sb_valid;;
  let map_sector := FS_START_SECTOR + inode_map_offset new_sb in
  buf_set 0 (replicate SECTOR_LEN 0);;
  for_ 0 (Z.to_nat (INODE_MAP_SECTORS + BLOCK_MAP_SECTORS)) (λ i,
    bs ← buf_get 0 SECTOR_LEN;
    write_sectors 1 (map_sector + Z.of_nat i) bs);;
  buf_set 0 (replicate SECTOR_LEN 0);;
  buf_set 0 (inode_bytes (new_dir ROOT_DIR_BLOCK));;
  write_inode ROOT_INODE_NUM (new_dir ROOT_DIR_BLOCK);;
  buf_set 0 (replicate BLOCK_LEN 0);;
  write_block 0 0;;
  write_dots ROOT_DIR_BLOCK ROOT_INODE_NUM ROOT_INODE_NUM;;
  buf_set 0 (replicate SECTOR_LEN 0);;
  buf_set 0 [1];;
  bs ← buf_get 0 SECTOR_LEN;
  write_sectors 1 map_sector bs;;
  buf_set 0 [3];;
  bs ← buf_get 0 SECTOR_LEN;
  write_sectors 1 (FS_START_SECTOR + block_map_offset new_sb) bs;;
  mret 0.

Definition free_fdesc (f : fdesc_t) : fdesc_t := mk_fdesc (f_inode f) (f_mode f) 0 false.
Definition init_fs : M fs_state unit :=
  read_sb;;
  s ← get;
  (if magic (sb s) =? SUPERBLOCK_MAGIC then modify upd_sb_valid else do_mkfs;; mret ());;
  modify (λ s, upd_fdescs (free_fdesc <$> fdesc_array s) s).

(** The number of bits that are set in [n] sectors of a map. *)
Definition count_map (n : nat) (sector : Z) : M fs_state Z :=
  foldr (λ i (m : M fs_state Z),
    map_buf ← read_sectors 1 (sector + Z.of_nat i);
    used ← m;
    mret (u32 (foldr (λ b k, popcount b + k) 0 map_buf + used))) (mret 0) (seq 0 n).

(** The result and the two counts that are printed. *)
Definition do_statfs : M fs_state (Z * Z * Z) :=
  ensure_sb;;
  s ← get;
  if negb (magic (sb s) =? SUPERBLOCK_MAGIC) then mret (-1, 0, 0) else
  used_inodes ← count_map (Z.to_nat INODE_MAP_SECTORS) (start_sector (sb s) + inode_map_offset (sb s));
  used_blocks ← count_map (Z.to_nat BLOCK_MAP_SECTORS) (start_sector (sb s) + block_map_offset (sb s));
  mret (0, used_inodes, used_blocks).

(** ** Directories *)

Definition do_cd (path : list Z) : M fs_state Z :=
  target_inode ← find_inode_by_path path;
  if target_inode =? NEG1 then mret (-1) else
  node ← get_inode target_inode;
  if negb (i_type node =? FD_DIR) then mret 1 else
  modify (upd_dir target_inode);;
  mret 0.

(** The directory that a new or old name lies in, and the name: the path is cut
    at its last slash. *)
Definition find_parent (path : list Z) : M fs_state (Z * list Z) :=
  assert (bool_decide (length path < MAX_PATH_LEN)%nat);;
  match split_last path with
  | None => s ← get; mret (cur_dir s, path)
  | Some (dir, name) => parent_inode_num ← find_inode_by_path dir; mret (parent_inode_num, name)
  end.

(** A name that does not fit into an entry is written over the stack. *)
Definition add_entry (parent_inode_num : Z) (name : list Z) (inode_num : Z) : M fs_state inode_t :=
  assert (bool_decide (length name < MAX_FNAME_LEN)%nat);;
  parent_node ← get_inode parent_inode_num;
  append_dentry parent_node parent_inode_num (mk_dentry name inode_num).

Definition do_mkdir (path : list Z) : M fs_state Z :=
  r ← find_parent path;
  let '(parent_inode_num, new_dir_name) := r in
  if bool_decide (is_Some (split_last path)) && (parent_inode_num =? NEG1) then mret (-1) else
  found ← find_inode_by_name parent_inode_num new_dir_name;
  if negb (found =? NEG1) then mret (-1) else
  new_inode_num ← alloc_inode;
  new_block_num ← alloc_block;
  write_inode new_inode_num (new_dir new_block_num);;
  write_dots new_block_num new_inode_num parent_inode_num;;
  parent_node ← add_entry parent_inode_num new_dir_name new_inode_num;
  write_inode parent_inode_num (set_nlinks (u32 (nlinks parent_node + 1)) parent_node);;
  mret 0.

(** The entries in use of a directory with the blocks [ptrs]. *)
Fixpoint count_entries (first : bool) (ptrs : list Z) : M fs_state Z :=
  match ptrs with
  | [] => mret 0
  | p :: ptrs' =>
      if (p =? 0) && negb first then mret 0 else
      read_block p 0;;
      b ← gets tbuf;
      n ← count_entries false ptrs';
      mret (Z.of_nat (count_if (λ j, negb (entry_free b j)) (seq 0 DENTRIES)) + n)
  end.

Definition for_each {A} (l : list A) (f : nat → A → M fs_state unit) : M fs_state unit :=
  for_ 0 (length l) (λ i, x ← of_opt (l !! i); f i x).

Definition do_rmdir (path : list Z) : M fs_state Z :=
  r ← find_parent path;
  let '(parent_inode_num, target_name) := r in
  target_inode_num ← find_inode_by_name parent_inode_num target_name;
  if target_inode_num =? NEG1 then mret (-1) else
  if target_inode_num =? ROOT_INODE_NUM then mret (-1) else
  target_node ← get_inode target_inode_num;
  if negb (i_type target_node =? FD_DIR) then mret (-1) else
  dentry_count ← count_entries true (direct_ptr target_node);
  if 2 <? dentry_count then mret (-1) else
  parent_inode ← get_inode parent_inode_num;
  remove_dentry parent_inode parent_inode_num target_name;;
  for_each (direct_ptr target_node) (λ i p,
    if negb (p =? 0) || (Nat.eqb i 0) then free_block p else mret ());;
  free_inode target_inode_num;;
  write_inode parent_inode_num (set_nlinks (u32 (nlinks parent_inode - 1)) parent_inode);;
  mret 0.

(** A line of [ls]: the name, and with -l the inode's number, links and size. *)
Record ls_entry := mk_ls { ls_name : list Z; ls_info : option (Z * Z * Z) }.
Definition cstring (b : list Z) : list Z := take (default (length b) (fst <$> list_find (λ x, x = 0) b)) b.
Definition ls_line (option_l : bool) (b : list Z) (j : nat) : M fs_state ls_entry :=
  let name := cstring (entry_at b j) in
  if option_l then
    tmp_node ← get_inode (entry_inode b j);
    mret (mk_ls name (Some (entry_inode b j, nlinks tmp_node, i_size tmp_node)))
  else mret (mk_ls name None).
Fixpoint ls_block (option_l : bool) (b : list Z) (js : list nat) : M fs_state (list ls_entry) :=
  match js with
  | [] => mret []
  | j :: js' =>
      if entry_free b j then ls_block option_l b js' else
      e ← ls_line option_l b j;
      es ← ls_block option_l b js';
      mret (e :: es)
  end.
Fixpoint ls_blocks (option_l : bool) (node : inode_t) (inode_num : Z) (blocks : list nat) : M fs_state (list ls_entry) :=
  match blocks with
  | [] => mret []
  | i :: blocks' =>
      r ← get_physical_block_id node inode_num (Z.of_nat i) false;
      let p_block := r.2 in
      es ← (if (p_block =? NEG1) || (p_block =? 0) then mret [] else
              read_block p_block 0;;
              b ← gets tbuf;
              ls_block option_l b (seq 0 DENTRIES));
      es' ← ls_blocks option_l node inode_num blocks';
      mret (es ++ es')
  end.

(** The last name of a path. *)
Definition base_name (path : list Z) : list Z :=
  match split_last path with Some (_, name) => name | None => path end.

Definition do_ls (path : list Z) (option : Z) : M fs_state (Z * list ls_entry) :=
  s ← get;
  target_inode ← (match path with [] => mret (cur_dir s) | _ => find_inode_by_path path end);
  if target_inode =? NEG1 then mret (-1, []) else
  dir_node ← get_inode target_inode;
  if negb (i_type dir_node =? FD_DIR) then mret (0, [mk_ls (base_name path) None]) else
  es ← ls_blocks (option =? 1) dir_node target_inode (seq 0 (Z.to_nat (num_blocks dir_node)));
  mret (0, es).

(** ** Files *)

(** The new file's inode number, or -1. *)
Definition do_touch (path : list Z) : M fs_state Z :=
  r ← find_parent path;
  let '(parent_inode_num, new_file_name) := r in
  if bool_decide (is_Some (split_last path)) && (parent_inode_num =? NEG1) then mret (-1) else
  found ← find_inode_by_name parent_inode_num new_file_name;
  if negb (found =? NEG1) then mret (-1) else
  new_inode_num ← alloc_inode;
  write_inode new_inode_num new_file;;
  parent_node ← add_entry parent_inode_num new_file_name new_inode_num;
  write_inode parent_inode_num parent_node;;
  mret (s32 new_inode_num).

Definition set_fdesc (fd : nat) (f : fdesc_t) : M fs_state unit :=
  modify (λ s, upd_fdescs (<[fd := f]> (fdesc_array s)) s).

(** The part of [do_open] from the inode on. *)
Definition open_inode (inode_num mode : Z) : M fs_state Z :=
  node ← get_inode inode_num;
  if negb (i_type node =? FD_FILE) then mret (-1) else
  fd ← alloc_fd;
  if fd =? -1 then mret (-1) else
  set_fdesc (Z.to_nat fd) (mk_fdesc inode_num mode 0 true);;
  mret fd.

Definition do_open (path : list Z) (mode : Z) : M fs_state Z :=
  inode_num ← find_inode_by_path path;
  if inode_num =? NEG1 then
    if (mode =? O_RDWR) || (mode =? O_WRONLY) then
      n ← do_touch path;
      let inode_num := u32 n in
      if inode_num <=? 0 then mret (-1) else open_inode inode_num mode
    else mret (-1)
  else open_inode inode_num mode.

(** The descriptor [fd] when it is in use. *)
Definition get_fdesc (s : fs_state) (fd : Z) : option fdesc_t :=
  if (fd <? 0) || (Z.of_nat NUM_FDESCS <=? fd) then None else
  f ← fdesc_array s !! Z.to_nat fd; if f_used f then Some f else None.

Definition set_pos (pos : Z) (f : fdesc_t) : fdesc_t := mk_fdesc (f_inode f) (f_mode f) pos (f_used f).

(** The part of a block that a round of [do_read] or [do_write] works on: the
    logical block, the offset in it, and how many of [left] bytes. *)
Definition chunk_of (pos left : Z) : Z * nat * Z :=
  (pos / BLOCK_SIZE, Z.to_nat (pos mod BLOCK_SIZE), Z.min left (BLOCK_SIZE - pos mod BLOCK_SIZE)).

(** Enough rounds for [len] bytes: one per block, and two for the ends. *)
Definition io_fuel (len : Z) : nat := Z.to_nat (Z.max 0 len / BLOCK_SIZE + 3).

(** The loop of [do_read]: what was copied into [buff] so far, and the rest.  *)
Definition read_step (fd : nat) (inode : inode_t) (real_read_len : Z) (buff : list Z) :
    M fs_state (list Z + list Z) :=
  let total_read := Z.of_nat (length buff) in
  if real_read_len <=? total_read then mret (inr buff) else
  s ← get;
  f ← of_opt (fdesc_array s !! fd);
  let '(logical_block, offset_in_block, bytes_to_copy) := chunk_of (f_pos f) (real_read_len - total_read) in
  r ← get_physical_block_id inode (f_inode f) logical_block false;
  if r.2 =? NEG1 then mret (inr buff) else
  read_block r.2 0;;
  bs ← buf_get offset_in_block (Z.to_nat bytes_to_copy);
  set_fdesc fd (set_pos (u32 (f_pos f + bytes_to_copy)) f);;
  mret (inl (buff ++ bs)).

(** The result and the bytes stored at [buff]. *)
Definition do_read (fd length : Z) : M fs_state (Z * list Z) :=
  s ← get;
  match get_fdesc s fd with
  | None => mret (-1, [])
  | Some f =>
      if f_mode f =? O_WRONLY then mret (-1, []) else
      inode ← get_inode (f_inode f);
      if i_size inode <=? f_pos f then mret (0, []) else
      let remain_in_file := s32 (i_size inode - f_pos f) in
      let real_read_len := if length <? remain_in_file then length else remain_in_file in
      bs ← while_ (io_fuel real_read_len) (read_step (Z.to_nat fd) inode real_read_len) [];
      mret (Z.of_nat (List.length bs), bs)
  end.

(** The loop of [do_write]: the inode, and the bytes of [buff] that are left. *)
Definition write_step (fd : nat) (l : inode_t * list Z) : M fs_state (inode_t * list Z + inode_t * list Z) :=
  let '(inode, rest) := l in
  match rest with
  | [] => mret (inr (inode, rest))
  | _ =>
      s ← get;
      f ← of_opt (fdesc_array s !! fd);
      let '(logical_block, offset_in_block, bytes_to_copy) := chunk_of (f_pos f) (Z.of_nat (length rest)) in
      r ← get_physical_block_id inode (f_inode f) logical_block true;
      let '(inode, physical_block) := r in
      if physical_block =? NEG1 then mret (inr (inode, rest)) else
      let n := Z.to_nat bytes_to_copy in
      read_block physical_block 0;;
      buf_set offset_in_block (take n rest);;
      write_block physical_block 0;;
      let pos := u32 (f_pos f + bytes_to_copy) in
      set_fdesc fd (set_pos pos f);;
      mret (inl (if i_size inode <? pos then set_size pos inode else inode, drop n rest))
  end.

(** [buff]: the [length] bytes at the argument; none when [length] is negative. *)
Definition do_write (fd : Z) (buff : list Z) : M fs_state Z :=
  s ← get;
  match get_fdesc s fd with
  | None => mret (-1)
  | Some f =>
      if f_mode f =? O_RDONLY then mret (-1) else
      inode ← get_inode (f_inode f);
      r ← while_ (io_fuel (Z.of_nat (length buff))) (write_step (Z.to_nat fd)) (inode, buff);
      let '(inode, rest) := r in
      write_inode (f_inode f) inode;;
      mret (Z.of_nat (length buff) - Z.of_nat (length rest))
  end.

Definition do_close (fd : Z) : M fs_state Z :=
  s ← get;
  match get_fdesc s fd with
  | None => mret (-1)
  | Some f => set_fdesc (Z.to_nat fd) (free_fdesc f);; mret 0
  end.

Definition do_ln (src_path dst_path : list Z) : M fs_state Z :=
  src_inode_num ← find_inode_by_path src_path;
  if src_inode_num =? NEG1 then mret (-1) else
  src_node ← get_inode src_inode_num;
  if i_type src_node =? FD_DIR then mret (-1) else
  r ← find_parent dst_path;
  let '(parent_inode_num, new_name) := r in
  if parent_inode_num =? NEG1 then mret (-1) else
  found ← find_inode_by_name parent_inode_num new_name;
  if negb (found =? NEG1) then mret (-1) else
  parent_inode ← add_entry parent_inode_num new_name src_inode_num;
  write_inode parent_inode_num parent_inode;;
  write_inode src_inode_num (set_nlinks (u32 (nlinks src_node + 1)) src_node);;
  mret 0.

(** The loops over an index block that lies in the buffer from the word [base]
    on; [free] may work through the buffer as well. *)
Definition each_entry (base : nat) (free : Z → M fs_state unit) : M fs_state unit :=
  for_ 0 INDIRECT_BLOCK_NUM (λ i,
    e ← buf_word (base + i);
    if negb (e =? 0) then free e else mret ()).

Definition free_blocks (node : inode_t) : M fs_state unit :=
  for_each (direct_ptr node) (λ _ p, if negb (p =? 0) then free_block p else mret ());;
  (if negb (indirect_ptr node =? 0) then
     buf_set 0 (replicate BLOCK_LEN 0);;
     read_block (indirect_ptr node) 0;;
     each_entry 0 free_block;;
     free_block (indirect_ptr node)
   else mret ());;
  (if negb (double_indirect_ptr node =? 0) then
     read_block (double_indirect_ptr node) 0;;
     for_ 0 INDIRECT_BLOCK_NUM (λ i,
       e ← buf_word i;
       if negb (e =? 0) then
         read_block e BLOCK_LEN;;
         each_entry INDIRECT_BLOCK_NUM free_block;;
         e ← buf_word i;
         free_block e
       else mret ());;
     free_block (double_indirect_ptr node)
   else mret ()).

Definition do_rm (path : list Z) : M fs_state Z :=
  r ← find_parent path;
  let '(parent_inode_num, target_name) := r in
  if parent_inode_num =? NEG1 then mret (-1) else
  target_inode_num ← find_inode_by_name parent_inode_num target_name;
  if target_inode_num =? NEG1 then mret (-1) else
  target_inode ← get_inode target_inode_num;
  if i_type target_inode =? FD_DIR then mret (-1) else
  parent_inode ← get_inode parent_inode_num;
  remove_dentry parent_inode parent_inode_num target_name;;
  let target_inode := set_nlinks (u32 (nlinks target_inode - 1)) target_inode in
  (if nlinks target_inode =? 0 then
     free_blocks target_inode;;
     free_inode target_inode_num
   else write_inode target_inode_num target_inode);;
  mret 0.

Definition do_lseek (fd offset whence : Z) : M fs_state Z :=
  s ← get;
  match get_fdesc s fd with
  | None => mret (-1)
  | Some f =>
      inode ← get_inode (f_inode f);
      let new_pos :=
        if whence =? SEEK_SET then Some (u32 offset)
        else if whence =? SEEK_CUR then Some (u32 (f_pos f + offset))
        else if whence =? SEEK_END then Some (u32 (i_size inode + offset))
        else None in
      match new_pos with
      | None => mret (-1)
      | Some pos => set_fdesc (Z.to_nat fd) (set_pos pos f);; mret (s32 pos)
      end
  end.
End Fs.
