(* ===== verification/FsFile.v ===== *)
(** The contents of files: what [do_read] and [do_write] of Fs mean in terms of
    the bytes of a file, across direct, indirect and doubly indirect blocks. *)
From S2P Require Import Prelude KMonad Bytes Swap FsDisk FsDir Fs.

Section FsFile.
Context {D : Type} `{!BlockDevice SECTOR_LEN D}.
Implicit Types (s : fs_state (D := D)) (d : D) (node : inode_t) (b l x : Z).

(** ** Blocks on the card *)

Definition block_bytes d b : list Z := sd_read d (u32 (block_sector b)) SECTORS_PER_BLOCK.
Definition index_word d b (k : nat) : Z := word (block_bytes d b) k.

(** The block [l] of a file, as its inode and index blocks say. *)
Definition file_block d node l : Z :=
  if l <? 10 then nth (Z.to_nat l) (direct_ptr node) 0
  else if l <? 1034 then
    if indirect_ptr node =? 0 then 0 else index_word d (indirect_ptr node) (Z.to_nat (l - 10))
  else if l <? 1049610 then
    if double_indirect_ptr node =? 0 then 0 else
    let p := index_word d (double_indirect_ptr node) (Z.to_nat ((l - 1034) / 1024)) in
    if p =? 0 then 0 else index_word d p (Z.to_nat ((l - 1034) mod 1024))
  else NEG1.

(** The index blocks on the way to the block [l]. *)
Definition file_index d node l : list Z :=
  if l <? 10 then []
  else if l <? 1034 then [indirect_ptr node]
  else [double_indirect_ptr node;
        index_word d (double_indirect_ptr node) (Z.to_nat ((l - 1034) / 1024))].

Definition file_byte d node x : Z := nth (Z.to_nat (x mod BLOCK_SIZE)) (block_bytes d (file_block d node (x / BLOCK_SIZE))) 0.
Definition file_bytes d node p (n : nat) : list Z := (λ i, file_byte d node (p + Z.of_nat i)) <$> seq 0 n.

Lemma length_block d b : length (block_bytes d b) = BLOCK_LEN.
Proof. unfold block_bytes. rewrite sd_read_length. done. Qed.

Lemma buf_room : (BLOCK_LEN ≤ TEMP_BUF_LEN)%nat.
Proof. apply Nat.leb_le. by vm_compute. Qed.

(** [s'] is [s] but for the buffer, which has kept its length. *)
Definition same_but_buf s s' : Prop := ∃ t, length t = length (tbuf s) ∧ s' = upd_tbuf t s.

Lemma same_but_buf_refl s : same_but_buf s s.
Proof. exists (tbuf s). split; [done|by destruct s]. Qed.

Lemma same_but_buf_trans s1 s2 s3 : same_but_buf s1 s2 → same_but_buf s2 s3 → same_but_buf s1 s3.
Proof. intros (t & Ht & ->) (t' & Ht' & ->). exists t'. simpl in Ht'. split; [congruence|done]. Qed.

Lemma read_block_ok b s : length (tbuf s) = TEMP_BUF_LEN →
  read_block b 0 s = Ok () (upd_tbuf (splice 0 (block_bytes (fs_disk s) b) (tbuf s)) s) ∧
  length (splice 0 (block_bytes (fs_disk s) b) (tbuf s)) = TEMP_BUF_LEN.
Proof.
  intros Hl. split.
  - unfold read_block, read_sectors. by rewrite bind_gets.
  - rewrite length_splice; [done|]. rewrite length_block, Hl. apply buf_room.
Qed.

Lemma slice_block o n d b t : length t = TEMP_BUF_LEN → (o + n ≤ BLOCK_LEN)%nat →
  take n (drop o (splice 0 (block_bytes d b) t)) = take n (drop o (block_bytes d b)).
Proof.
  intros Ht Hn. apply list_eq. intros i. destruct (decide (i < n)%nat); [|by rewrite !lookup_take_ge by lia].
  rewrite !lookup_take_lt, !lookup_drop by done. rewrite splice_lookup.
  - rewrite length_block, decide_True by lia. f_equal. lia.
  - rewrite length_block, Ht. apply buf_room.
Qed.

Lemma word_block k d b t : length t = TEMP_BUF_LEN → (k < 1024)%nat →
  word (splice 0 (block_bytes d b) t) k = index_word d b k.
Proof. intros Ht Hk. unfold index_word, word. rewrite slice_block; [done|done|unfold BLOCK_LEN; lia]. Qed.

(** ** Finding a block that is there, or not asking for one *)

Lemma index_lookup_ok node pb k alloc s :
  length (tbuf s) = TEMP_BUF_LEN → (k < 1024)%nat →
  alloc = false ∨ index_word (fs_disk s) pb k ≠ 0 →
  ∃ s', index_lookup node pb k alloc s = Ok (node, index_word (fs_disk s) pb k) s' ∧ same_but_buf s s'.
Proof.
  intros Hl Hk Ha. destruct (read_block_ok pb s Hl) as [Hr Hl'].
  eexists. split; [|exists (splice 0 (block_bytes (fs_disk s) pb) (tbuf s)); split; [by rewrite Hl, Hl'|reflexivity]].
  unfold index_lookup. rewrite (bind_ok _ _ _ _ _ Hr). unfold index_entry, buf_word.
  assert (∀ w, (w =? 0) && alloc = false ∨ w ≠ index_word (fs_disk s) pb k) as Hw.
  { intros w. destruct (decide (w = index_word (fs_disk s) pb k)) as [->|]; [left|by right].
    destruct Ha as [->|Ha]; [apply andb_false_r|]. by rewrite (proj2 (Z.eqb_neq _ _)). }
  assert (word (splice 0 (block_bytes (fs_disk s) pb) (tbuf s)) k = index_word (fs_disk s) pb k) as E by by apply word_block.
  unfold mbind, M_bind, gets. cbn [tbuf upd_tbuf]. rewrite E.
  by destruct (Hw (index_word (fs_disk s) pb k)) as [->|].
Qed.

Lemma index_lookup2_ok node pb k1 k2 alloc s :
  length (tbuf s) = TEMP_BUF_LEN → (k1 < 1024)%nat → (k2 < 1024)%nat →
  let p := index_word (fs_disk s) pb k1 in
  let v := if p =? 0 then 0 else index_word (fs_disk s) p k2 in
  alloc = false ∨ v ≠ 0 →
  ∃ s', index_lookup2 node pb k1 k2 alloc s = Ok (node, v) s' ∧ same_but_buf s s'.
Proof.
  intros Hl Hk1 Hk2 p v Ha. destruct (read_block_ok pb s Hl) as [Hr Hl'].
  unfold index_lookup2. rewrite (bind_ok _ _ _ _ _ Hr).
  set (s1 := upd_tbuf (splice 0 (block_bytes (fs_disk s) pb) (tbuf s)) s) in *.
  assert (same_but_buf s s1) as Hs1 by (eexists; split; [|reflexivity]; by rewrite Hl, Hl').
  assert (∀ {B} (k : Z → M (fs_state (D := D)) B), (buf_word k1 ≫= k) s1 = k p s1) as Hw.
  { intros B k. unfold buf_word. rewrite bind_gets. cbn [tbuf upd_tbuf s1]. by rewrite word_block. }
  rewrite Hw. subst v. destruct (Z.eqb_spec p 0) as [E|E].
  - destruct Ha as [->|]; [|done]. exists s1. done.
  - rewrite Hw. destruct (index_lookup_ok node p k2 alloc s1) as (s' & Hi & Hs'); [done|done|done|].
    exists s'. split; [exact Hi|]. by eapply same_but_buf_trans.
Qed.

(** [get_physical_block_id] computes [file_block], with or without [alloc] when
    the block is there, and changes nothing but the buffer. *)
Lemma get_physical_ok node n l alloc s :
  length (tbuf s) = TEMP_BUF_LEN → length (direct_ptr node) = DIRECT_BLOCK_NUM → 0 ≤ l →
  alloc = false ∨ file_block (fs_disk s) node l ≠ 0 →
  ∃ s', get_physical_block_id node n l alloc s = Ok (node, file_block (fs_disk s) node l) s' ∧ same_but_buf s s'.
Proof.
  intros Hl Hd Hl0. unfold get_physical_block_id, file_block.
  change (Z.of_nat DIRECT_BLOCK_NUM) with 10. change (Z.of_nat INDIRECT_BLOCK_NUM) with 1024.
  change DOUBLE_INDIRECT_BLOCK_NUM with 1048576.
  replace (l - 10 <? 1024) with (l <? 1034) by (destruct (Z.ltb_spec l 1034), (Z.ltb_spec (l - 10) 1024); done || lia).
  replace (l - 10 - 1024 <? 1048576) with (l <? 1049610)
    by (destruct (Z.ltb_spec l 1049610), (Z.ltb_spec (l - 10 - 1024) 1048576); done || lia).
  replace (l - 10 - 1024) with (l - 1034) by lia.
  destruct (Z.ltb_spec l 10) as [H1|H1]; [|destruct (Z.ltb_spec l 1034) as [H2|H2];
    [|destruct (Z.ltb_spec l 1049610) as [H3|H3]]].
  - intros Ha. exists s. split; [|apply same_but_buf_refl].
    destruct (lookup_lt_is_Some_2 (direct_ptr node) (Z.to_nat l)) as [p Hp]; [rewrite Hd; unfold DIRECT_BLOCK_NUM; lia|].
    rewrite (nth_lookup_Some _ _ _ _ Hp) in *. rewrite (bind_opt _ _ _ _ Hp).
    destruct Ha as [->|Ha]; [by rewrite andb_false_r|]. by rewrite (proj2 (Z.eqb_neq _ _)).
  - intros Ha. unfold with_index. destruct (Z.eqb_spec (indirect_ptr node) 0).
    + destruct Ha as [->|]; [|done]. exists s. split; [done|apply same_but_buf_refl].
    + apply index_lookup_ok; [done|lia|done].
  - intros Ha. unfold with_index. destruct (Z.eqb_spec (double_indirect_ptr node) 0).
    + destruct Ha as [->|]; [|done]. exists s. split; [done|apply same_but_buf_refl].
    + apply index_lookup2_ok; [done|Z.to_euclidean_division_equations; lia|Z.to_euclidean_division_equations; lia|done].
  - intros _. exists s. split; [done|apply same_but_buf_refl].
Qed.

(** ** Chunks *)

Lemma chunk_bounds pos len : 0 ≤ pos → 0 < len →
  let '(l, off, c) := chunk_of pos len in
  l = pos / BLOCK_SIZE ∧ off = Z.to_nat (pos mod BLOCK_SIZE) ∧ 0 < c ≤ len ∧
  pos mod BLOCK_SIZE + c ≤ BLOCK_SIZE ∧ 0 ≤ pos mod BLOCK_SIZE < BLOCK_SIZE.
Proof.
  intros Hp Hl. unfold chunk_of, BLOCK_SIZE. pose proof (Z.mod_pos_bound pos 4096). lia.
Qed.

Lemma file_bytes_app d node p n m :
  file_bytes d node p (n + m) = file_bytes d node p n ++ file_bytes d node (p + Z.of_nat n) m.
Proof.
  unfold file_bytes. rewrite seq_app, fmap_app. f_equal. apply list_eq. intros i.
  rewrite !list_lookup_fmap. destruct (decide (i < m)%nat).
  - rewrite !lookup_seq_lt by done. simpl. do 2 f_equal. lia.
  - by rewrite !lookup_seq_ge by lia.
Qed.

Lemma length_file_bytes d node p n : length (file_bytes d node p n) = n.
Proof. unfold file_bytes. by rewrite length_fmap, length_seq. Qed.

Lemma block_slice d node pos n : 0 ≤ pos → (Z.to_nat (pos mod BLOCK_SIZE) + n ≤ BLOCK_LEN)%nat →
  take n (drop (Z.to_nat (pos mod BLOCK_SIZE)) (block_bytes d (file_block d node (pos / BLOCK_SIZE))))
  = file_bytes d node pos n.
Proof.
  intros Hp Hn. apply slice_eq; [apply length_file_bytes|]. intros i Hi. unfold file_bytes.
  rewrite list_lookup_fmap, lookup_seq_lt by done. simpl. unfold file_byte.
  unfold BLOCK_LEN, BLOCK_SIZE in *.
  assert ((pos + Z.of_nat i) / 4096 = pos / 4096) as -> by (Z.to_euclidean_division_equations; lia).
  assert (Z.to_nat ((pos + Z.of_nat i) mod 4096) = (Z.to_nat (pos mod 4096) + i)%nat) as ->.
  { Z.to_euclidean_division_equations; lia. }
  rewrite nth_lookup. destruct (lookup_lt_is_Some_2 (block_bytes d (file_block d node (pos / 4096)))
    (Z.to_nat (pos mod 4096) + i)%nat) as [y ->]; [|done]. rewrite length_block. unfold BLOCK_LEN. lia.
Qed.

(** The rounds that a loop over [len] bytes from [pos] on takes. *)
Definition blocks_left (pos len : Z) : Z :=
  if len <=? 0 then 0 else (pos + len - 1) / BLOCK_SIZE - pos / BLOCK_SIZE + 1.

Lemma blocks_left_nonneg pos len : 0 ≤ pos → 0 ≤ blocks_left pos len.
Proof.
  intros Hp. unfold blocks_left, BLOCK_SIZE. destruct (Z.leb_spec len 0); [done|].
  Z.to_euclidean_division_equations; lia.
Qed.

Lemma blocks_left_next pos len : 0 ≤ pos → 0 < len →
  let c := Z.min len (BLOCK_SIZE - pos mod BLOCK_SIZE) in
  blocks_left (pos + c) (len - c) < blocks_left pos len.
Proof.
  intros Hp Hl c. unfold blocks_left. rewrite (proj2 (Z.leb_gt len 0)) by done. subst c. unfold BLOCK_SIZE.
  pose proof (Z.mod_pos_bound pos 4096 ltac:(lia)) as Hm. pose proof (Z.div_mod pos 4096 ltac:(lia)) as Hd.
  destruct (Z.leb_spec (len - Z.min len (4096 - pos mod 4096)) 0) as [H|H].
  - Z.to_euclidean_division_equations; lia.
  - assert (Z.min len (4096 - pos mod 4096) = 4096 - pos mod 4096) as -> by lia.
    replace (pos + (4096 - pos mod 4096) + (len - (4096 - pos mod 4096)) - 1) with (pos + len - 1) by lia.
    replace (pos + (4096 - pos mod 4096)) with ((pos / 4096 + 1) * 4096) by lia.
    rewrite Z.div_mul by done. lia.
Qed.

Lemma blocks_left_fuel pos len : 0 ≤ pos → (Z.to_nat (blocks_left pos len) < io_fuel len)%nat.
Proof.
  intros Hp. unfold blocks_left, io_fuel, BLOCK_SIZE. destruct (Z.leb_spec len 0).
  - rewrite Z.max_l by lia. change (Z.to_nat (0 / 4096 + 3)) with 3%nat. lia.
  - rewrite Z.max_r by lia. Z.to_euclidean_division_equations; lia.
Qed.

(** ** Reading *)

(** [s'] is [s] but for the buffer and the position of descriptor [fd]. *)
Definition at_pos (fd : nat) (f : fdesc_t) (pos : Z) s s' : Prop :=
  ∃ t, length t = TEMP_BUF_LEN ∧ s' = upd_tbuf t (upd_fdescs (<[fd := set_pos pos f]> (fdesc_array s)) s).

Lemma at_pos_fdesc fd f pos s s' : at_pos fd f pos s s' → (fd < length (fdesc_array s))%nat →
  fdesc_array s' !! fd = Some (set_pos pos f) ∧ fs_disk s' = fs_disk s ∧ length (tbuf s') = TEMP_BUF_LEN.
Proof. intros (t & Ht & ->) Hl. split; [by apply list_lookup_insert_eq|done]. Qed.

Lemma at_pos_step fd f pos pos' s s1 s2 : at_pos fd f pos s s1 → same_but_buf s1 s2 →
  at_pos fd f pos' s (upd_fdescs (<[fd := set_pos pos' (set_pos pos f)]> (fdesc_array s2)) s2).
Proof.
  intros (t & Ht & ->) (t' & Ht' & ->). exists t'. split; [simpl in Ht'; congruence|].
  unfold upd_fdescs, upd_tbuf. simpl. by rewrite list_insert_insert_eq.
Qed.

Lemma at_pos_start fd f s : fdesc_array s !! fd = Some f → length (tbuf s) = TEMP_BUF_LEN → at_pos fd f (f_pos f) s s.
Proof.
  intros Hf Hl. exists (tbuf s). split; [done|]. unfold upd_tbuf, upd_fdescs. simpl.
  destruct f as [a b p u]. unfold set_pos. simpl. rewrite list_insert_id by done. by destruct s.
Qed.

(** The blocks below [size] bytes are within the reach of the inode. *)
Definition readable d node : Prop :=
  ∀ x, 0 ≤ x < i_size node → file_block d node (x / BLOCK_SIZE) ≠ NEG1.

Lemma read_step_ok fd f node n w s s1 :
  at_pos fd f (f_pos f + Z.of_nat w) s s1 → (fd < length (fdesc_array s))%nat → 0 ≤ f_pos f →
  length (direct_ptr node) = DIRECT_BLOCK_NUM → readable (fs_disk s) node →
  f_pos f + n ≤ i_size node < 2 ^ 31 → Z.of_nat w < n →
  wp (read_step fd node n (file_bytes (fs_disk s) node (f_pos f) w)) s1 (λ r s2, ∃ w',
    r = inl (file_bytes (fs_disk s) node (f_pos f) w') ∧ Z.of_nat w' ≤ n ∧
    at_pos fd f (f_pos f + Z.of_nat w') s s2 ∧
    blocks_left (f_pos f + Z.of_nat w') (n - Z.of_nat w') < blocks_left (f_pos f + Z.of_nat w) (n - Z.of_nat w)).
Proof.
  intros Hat Hfd Hp Hd Hok Hn Hw. change (2 ^ 31) with 2147483648 in Hn.
  destruct (at_pos_fdesc _ _ _ _ _ Hat Hfd) as (Hf & Hdisk & Hbuf).
  unfold read_step. rewrite length_file_bytes. rewrite (proj2 (Z.leb_gt _ _)) by lia.
  rewrite wp_bind, wp_get, wp_bind, (wp_of_opt_Some _ _ _ _ Hf).
  set (pos := f_pos f + Z.of_nat w) in *. change (f_pos (set_pos pos f)) with pos. change (f_inode (set_pos pos f)) with (f_inode f).
  pose proof (chunk_bounds pos (n - Z.of_nat w) ltac:(lia) ltac:(lia)) as Hc.
  destruct (chunk_of pos (n - Z.of_nat w)) as [[l off] c] eqn:Ec. destruct Hc as (-> & -> & Hc & Hoff & Hm).
  assert (c = Z.min (n - Z.of_nat w) (BLOCK_SIZE - pos mod BLOCK_SIZE)) as Hceq by (unfold chunk_of in Ec; congruence).
  assert (0 ≤ pos / BLOCK_SIZE) as Hl0 by (apply Z.div_pos; unfold BLOCK_SIZE; lia).
  destruct (get_physical_ok node (f_inode f) (pos / BLOCK_SIZE) false s1 Hbuf Hd Hl0) as (s2 & Hg & Hs2); [by left|].
  rewrite Hdisk in Hg. rewrite wp_bind, (wp_ok _ _ _ _ _ Hg). cbn [snd].
  rewrite (proj2 (Z.eqb_neq _ _)) by (apply Hok; lia).
  assert (length (tbuf s2) = TEMP_BUF_LEN ∧ fs_disk s2 = fs_disk s) as [Hbuf2 Hd2].
  { destruct Hs2 as (t & Ht & ->). simpl. split; [congruence|done]. }
  destruct (read_block_ok (file_block (fs_disk s) node (pos / BLOCK_SIZE)) s2 Hbuf2) as [Hr Hl2].
  rewrite wp_bind, (wp_ok _ _ _ _ _ Hr), wp_bind. unfold buf_get. rewrite wp_gets. cbn [tbuf upd_tbuf].
  rewrite Hd2, slice_block, block_slice by (done || lia || (unfold BLOCK_SIZE, BLOCK_LEN in *; lia)).
  unfold set_fdesc. rewrite wp_bind, wp_modify, wp_ret.
  exists (w + Z.to_nat c)%nat. split; [|split; [lia|split]].
  - rewrite file_bytes_app. done.
  - rewrite u32_id by lia. replace (f_pos f + Z.of_nat (w + Z.to_nat c)) with (pos + c) by lia.
    eapply at_pos_step; [exact Hat|]. eapply same_but_buf_trans; [exact Hs2|].
    exists (splice 0 (block_bytes (fs_disk s) (file_block (fs_disk s) node (pos / BLOCK_SIZE))) (tbuf s2)).
    rewrite Hd2 in Hl2. split; [congruence|done].
  - replace (f_pos f + Z.of_nat (w + Z.to_nat c)) with (pos + c) by lia.
    replace (n - Z.of_nat (w + Z.to_nat c)) with (n - Z.of_nat w - c) by lia. rewrite Hceq.
    apply blocks_left_next; lia.
Qed.

Lemma read_loop_ok fd f node n s :
  fdesc_array s !! fd = Some f → length (tbuf s) = TEMP_BUF_LEN → 0 ≤ f_pos f →
  length (direct_ptr node) = DIRECT_BLOCK_NUM → readable (fs_disk s) node →
  f_pos f + n ≤ i_size node < 2 ^ 31 →
  wp (while_ (io_fuel n) (read_step fd node n) []) s (λ bs s',
    bs = file_bytes (fs_disk s) node (f_pos f) (Z.to_nat n) ∧ at_pos fd f (f_pos f + Z.max 0 n) s s').
Proof.
  intros Hf Hl Hp Hd Hok Hn. assert (fd < length (fdesc_array s))%nat as Hfd by by eapply lookup_lt_Some.
  apply (wp_while (λ bs s', ∃ w, bs = file_bytes (fs_disk s) node (f_pos f) w ∧ (Z.of_nat w ≤ n ∨ w = 0%nat) ∧
      at_pos fd f (f_pos f + Z.of_nat w) s s')
    (λ bs _, Z.to_nat (blocks_left (f_pos f + Z.of_nat (length bs)) (n - Z.of_nat (length bs))))).
  - exists 0%nat. split; [done|]. split; [by right|]. rewrite Z.add_0_r. by apply at_pos_start.
  - simpl. rewrite Z.add_0_r, Z.sub_0_r. by apply blocks_left_fuel.
  - intros bs s1 (w & -> & Hw & Hat). rewrite !length_file_bytes. destruct (decide (Z.of_nat w < n)) as [Hlt|Hge].
    + eapply wp_mono; [by apply (read_step_ok fd f node n w s s1)|].
      intros r s2 (w' & -> & Hw' & Hat' & Hm). rewrite length_file_bytes. split; [by exists w'; auto|].
      pose proof (blocks_left_nonneg (f_pos f + Z.of_nat w') (n - Z.of_nat w')). lia.
    + unfold read_step. rewrite length_file_bytes, (proj2 (Z.leb_le _ _)) by lia. rewrite wp_ret.
      assert (w = Z.to_nat n) as -> by lia. split; [done|].
      by replace (f_pos f + Z.max 0 n) with (f_pos f + Z.of_nat (Z.to_nat n)) by lia.
Qed.

Lemma get_fdesc_lookup s fd f : get_fdesc s fd = Some f → fdesc_array s !! Z.to_nat fd = Some f.
Proof.
  unfold get_fdesc. destruct ((fd <? 0) || _); [done|]. intros H.
  destruct (fdesc_array s !! Z.to_nat fd) as [g|]; [|done]. simpl in H. destruct (f_used g); congruence.
Qed.

Lemma do_read_ok s fd f len :
  let node := inode_at (fs_disk s) (f_inode f) in
  get_fdesc s fd = Some f → f_mode f ≠ O_WRONLY → length (tbuf s) = TEMP_BUF_LEN → 0 ≤ f_pos f →
  i_size node < 2 ^ 31 → readable (fs_disk s) node →
  let n := Z.max 0 (Z.min len (i_size node - f_pos f)) in
  wp (do_read fd len) s (λ r s',
    r = (n, file_bytes (fs_disk s) node (f_pos f) (Z.to_nat n)) ∧ fs_disk s' = fs_disk s ∧
    fdesc_array s' !! Z.to_nat fd = Some (set_pos (f_pos f + n) f)).
Proof.
  intros node Hf Hm Hl Hp Hsz Hok n. pose proof (get_fdesc_lookup s fd f Hf) as Hlk.
  assert (length (direct_ptr node) = DIRECT_BLOCK_NUM) as Hd by by unfold node, inode_at, inode_of; simpl; rewrite ?length_fmap, ?length_seq.
  unfold do_read. rewrite wp_bind, wp_get, Hf. rewrite (proj2 (Z.eqb_neq _ _)) by done.
  rewrite wp_bind, (wp_ok _ _ _ _ _ (get_inode_ok _ _)). fold node.
  destruct (Z.leb_spec (i_size node) (f_pos f)) as [Hend|Hend].
  - rewrite wp_ret. assert (n = 0) as -> by lia. split; [done|]. split; [done|].
    rewrite Z.add_0_r, Hlk. by destruct f.
  - change (2 ^ 31) with 2147483648 in Hsz. rewrite s32_id by lia. cbv zeta.
    set (m := if len <? i_size node - f_pos f then len else i_size node - f_pos f).
    assert (m = Z.min len (i_size node - f_pos f)) as Hmin.
    { unfold m. destruct (Z.ltb_spec len (i_size node - f_pos f)); lia. }
    rewrite wp_bind. eapply wp_mono; [apply (read_loop_ok (Z.to_nat fd) f node m s); try done|].
    + change (2 ^ 31) with 2147483648. lia.
    + intros bs s' [-> Hat]. rewrite wp_ret, length_file_bytes.
      assert (Z.to_nat m = Z.to_nat n ∧ Z.max 0 m = n) as [E1 E2] by lia. rewrite E1. rewrite E2 in Hat.
      destruct (at_pos_fdesc _ _ _ _ _ Hat) as (Hpos & Hdisk & _); [by eapply lookup_lt_Some|].
      split; [|done]. f_equal. lia.
Qed.

(** C32: [do_read] ends, and reads exactly the bytes of the file from the
    descriptor's position on, as many as asked for and as the file has left,
    through direct and indirect blocks; a block that the file lacks reads as the
    block 0. The position moves by what was read, and the card is not written. *)
Theorem do_read_spec s fd f len :
  let node := inode_at (fs_disk s) (f_inode f) in
  get_fdesc s fd = Some f → f_mode f ≠ O_WRONLY → length (tbuf s) = TEMP_BUF_LEN → 0 ≤ f_pos f →
  i_size node < 2 ^ 31 → readable (fs_disk s) node →
  let n := Z.max 0 (Z.min len (i_size node - f_pos f)) in
  wp (do_read fd len) s (λ r s',
    r = (n, file_bytes (fs_disk s) node (f_pos f) (Z.to_nat n)) ∧ fs_disk s' = fs_disk s ∧
    fdesc_array s' !! Z.to_nat fd = Some (set_pos (f_pos f + n) f)).
Proof. apply do_read_ok. Qed.

(** ** Writing a block *)

Definition valid_block b : Prop := 0 < b < FS_BLOCK_NUM.

Lemma block_sector_valid b : 0 ≤ b < FS_BLOCK_NUM →
  u32 (block_sector b) = BLOCK_BASE + 8 * b ∧ BLOCK_BASE = 1049122.
Proof.
  unfold block_sector. change FS_BLOCK_NUM with 131072. change BLOCK_BASE with 1049122.
  change (Z.of_nat SECTORS_PER_BLOCK) with 8. intros Hb. rewrite (u32_id (b * 8)), u32_id by lia. lia.
Qed.

Definition with_block d b (bs : list Z) : D := sd_write d (u32 (block_sector b)) SECTORS_PER_BLOCK bs.

Lemma with_block_same d b bs : length bs = BLOCK_LEN → block_bytes (with_block d b bs) b = bs.
Proof. intros Hl. by apply sd_read_same. Qed.

Lemma with_block_ne d b b' bs : valid_block b → valid_block b' → b ≠ b' →
  block_bytes (with_block d b bs) b' = block_bytes d b'.
Proof.
  intros Hb Hb' Hne. apply sd_read_other. destruct (block_sector_valid b) as [-> _]; [unfold valid_block in *; lia|].
  destruct (block_sector_valid b') as [-> _]; [unfold valid_block in *; lia|].
  change (Z.of_nat SECTORS_PER_BLOCK) with 8. lia.
Qed.

Lemma inode_sector_low n : 0 ≤ n < NUM_INODES → inode_sector n < 1049122.
Proof. intros Hn. destruct (inode_place n Hn) as (-> & _ & ?). change inode_table_start with 1048610. lia. Qed.

Lemma with_block_inode d b bs n : valid_block b → 0 ≤ n < NUM_INODES →
  inode_at (with_block d b bs) n = inode_at d n.
Proof.
  intros Hb Hn. unfold inode_at, with_block. rewrite sd_read_other; [done|].
  destruct (block_sector_valid b) as [-> ->]; [unfold valid_block in *; lia|].
  pose proof (inode_sector_low n Hn). unfold valid_block in Hb. lia.
Qed.

Lemma with_inode_block d n node b : valid_block b → 0 ≤ n < NUM_INODES →
  block_bytes (with_inode d n node) b = block_bytes d b.
Proof.
  intros Hb Hn. apply sd_read_other. destruct (block_sector_valid b) as [-> ->]; [unfold valid_block in *; lia|].
  pose proof (inode_sector_low n Hn). unfold valid_block in Hb. lia.
Qed.

(** The first [nb] blocks of the file are there, each in a place of its own, and
    the index blocks that lead to them are not among them. *)
Record laid_out d node (nb : Z) : Prop := {
  lo_range : nb ≤ 1049610;
  lo_valid l : 0 ≤ l < nb → valid_block (file_block d node l);
  lo_inj l l' : 0 ≤ l < nb → 0 ≤ l' < nb → file_block d node l = file_block d node l' → l = l';
  lo_index l l' b : 0 ≤ l < nb → 0 ≤ l' < nb → b ∈ file_index d node l →
    valid_block b ∧ b ≠ file_block d node l'
}.

(** Two cards with the same contents in the index blocks of a file. *)
Definition same_index d d' node nb : Prop :=
  ∀ l b, 0 ≤ l < nb → b ∈ file_index d node l → block_bytes d' b = block_bytes d b.

Lemma same_index_block d d' node nb l : same_index d d' node nb → 0 ≤ l < nb →
  file_block d' node l = file_block d node l ∧ file_index d' node l = file_index d node l.
Proof.
  intros Hs Hl. specialize (Hs l). unfold file_block, file_index in *.
  destruct (Z.ltb_spec l 10); [done|]. destruct (Z.ltb_spec l 1034).
  - split; [|done]. unfold index_word. rewrite (Hs (indirect_ptr node)); [done|done|left].
  - assert (∀ k, index_word d' (double_indirect_ptr node) k = index_word d (double_indirect_ptr node) k) as E1.
    { intros k. unfold index_word. rewrite (Hs (double_indirect_ptr node)); [done|done|left]. }
    rewrite E1. split; [|done]. set (p := index_word d _ _) in *.
    assert (∀ k, index_word d' p k = index_word d p k) as E2.
    { intros k. unfold index_word at 1 2. rewrite (Hs p); [done|done|right; left]. }
    by rewrite E2.
Qed.

Lemma same_index_laid_out d d' node nb : same_index d d' node nb → laid_out d node nb → laid_out d' node nb.
Proof.
  intros Hs [Hr Hv Hi Hx]. assert (∀ l, 0 ≤ l < nb →
    file_block d' node l = file_block d node l ∧ file_index d' node l = file_index d node l) as E.
  { intros l. by apply same_index_block. }
  split; [done| | |].
  - intros l Hl. rewrite (proj1 (E l Hl)). by apply Hv.
  - intros l l' Hl Hl'. rewrite (proj1 (E l Hl)), (proj1 (E l' Hl')). by apply Hi.
  - intros l l' b Hl Hl'. rewrite (proj2 (E l Hl)), (proj1 (E l' Hl')). by apply Hx.
Qed.

(** After writing the bytes [ws] at [pos] into the block they belong to. *)
Lemma with_block_file d node nb pos ws :
  laid_out d node nb → 0 ≤ pos → pos / BLOCK_SIZE < nb → pos mod BLOCK_SIZE + Z.of_nat (length ws) ≤ BLOCK_SIZE →
  let b := file_block d node (pos / BLOCK_SIZE) in
  let d' := with_block d b (splice (Z.to_nat (pos mod BLOCK_SIZE)) ws (block_bytes d b)) in
  same_index d d' node nb ∧
  ∀ x, 0 ≤ x < nb * BLOCK_SIZE → file_byte d' node x =
    if decide (pos ≤ x < pos + Z.of_nat (length ws)) then nth (Z.to_nat (x - pos)) ws 0 else file_byte d node x.
Proof.
  intros Hlo Hp Hnb Hlen b d'. unfold BLOCK_SIZE in *.
  pose proof (Z.mod_pos_bound pos 4096 ltac:(lia)) as Hm.
  assert (0 ≤ pos / 4096 < nb) as Hl0 by (split; [apply Z.div_pos; lia|done]).
  pose proof (lo_valid _ _ _ Hlo _ Hl0) as Hb. fold b in Hb.
  assert (same_index d d' node nb) as Hsi.
  { intros l c Hl Hc. destruct (lo_index _ _ _ Hlo l (pos / 4096) c Hl Hl0 Hc). by apply with_block_ne. }
  split; [done|]. intros x Hx. unfold file_byte, BLOCK_SIZE.
  assert (0 ≤ x / 4096 < nb) as Hlx by (Z.to_euclidean_division_equations; lia).
  rewrite (proj1 (same_index_block _ _ _ _ _ Hsi Hlx)). rewrite nth_lookup.
  pose proof (Z.mod_pos_bound x 4096 ltac:(lia)) as Hmx.
  destruct (decide (x / 4096 = pos / 4096)) as [E|E].
  - rewrite E. fold b. unfold d'. rewrite with_block_same.
    + rewrite splice_lookup by (rewrite length_block; unfold BLOCK_LEN; lia).
      assert (x - pos = x mod 4096 - pos mod 4096) as Ed by (Z.to_euclidean_division_equations; lia).
      destruct (decide (pos ≤ x < pos + Z.of_nat (length ws))) as [Hin|Hout].
      * rewrite decide_True by lia. rewrite nth_lookup. do 2 f_equal. lia.
      * rewrite decide_False by lia. by rewrite nth_lookup.
    + rewrite length_splice; rewrite length_block; [done|]. unfold BLOCK_LEN. lia.
  - rewrite decide_False by (Z.to_euclidean_division_equations; lia). unfold d'.
    rewrite with_block_ne; [by rewrite nth_lookup|done|by apply (lo_valid _ _ _ Hlo)|].
    intros Eb. apply E. symmetry. by apply (lo_inj _ _ _ Hlo).
Qed.

(** ** The loop of [do_write] *)

(** The card [d1] is [d] with the [w] first bytes of [data] written at [p]. *)
Record written d d1 node nb p (w : nat) (data : list Z) : Prop := {
  wn_index : same_index d d1 node nb;
  wn_laid : laid_out d1 node nb;
  wn_bytes x : 0 ≤ x < nb * BLOCK_SIZE → file_byte d1 node x =
    if decide (p ≤ x < p + Z.of_nat w) then nth (Z.to_nat (x - p)) data 0 else file_byte d node x;
  wn_inodes n : 0 ≤ n < NUM_INODES → inode_at d1 n = inode_at d n
}.

Lemma written_start d node nb p data : laid_out d node nb → written d d node nb p 0 data.
Proof. intros Hlo. split; try done. intros x Hx. by rewrite decide_False by lia. Qed.

Lemma written_step d d1 node nb p w data n :
  written d d1 node nb p w data → 0 ≤ p → p + Z.of_nat (w + n) ≤ nb * BLOCK_SIZE → (0 < n)%nat →
  (w + n ≤ length data)%nat → (p + Z.of_nat w) mod BLOCK_SIZE + Z.of_nat n ≤ BLOCK_SIZE →
  let pos := p + Z.of_nat w in
  let b := file_block d1 node (pos / BLOCK_SIZE) in
  written d (with_block d1 b (splice (Z.to_nat (pos mod BLOCK_SIZE)) (take n (drop w data)) (block_bytes d1 b)))
    node nb p (w + n) data.
Proof.
  intros [Hsi Hlo Hby Hin] Hp Hnb Hn Hlen Hfit pos b.
  assert (length (take n (drop w data)) = n) as Hl by (rewrite length_take, length_drop; lia).
  assert (0 ≤ pos / BLOCK_SIZE < nb) as Hb.
  { unfold pos, BLOCK_SIZE in *. Z.to_euclidean_division_equations; lia. }
  destruct (with_block_file d1 node nb pos (take n (drop w data)) Hlo) as [Hsi' Hby'];
    [unfold pos; lia|lia|by rewrite Hl|]. fold b in Hsi', Hby'. split.
  - intros l c Hlr Hc. rewrite Hsi'; [by eapply Hsi|done|].
    by rewrite (proj2 (same_index_block _ _ _ _ _ Hsi Hlr)).
  - by eapply same_index_laid_out.
  - intros x Hx. rewrite Hby' by done. rewrite Hl, Hby by done. unfold pos.
    destruct (decide (p + Z.of_nat w ≤ x < p + Z.of_nat w + Z.of_nat n)).
    + rewrite decide_True by lia. rewrite !nth_lookup, lookup_take_lt, lookup_drop by lia. do 2 f_equal. lia.
    + destruct (decide (p ≤ x < p + Z.of_nat w)); [by rewrite decide_True by lia|by rewrite decide_False by lia].
  - intros m Hm. rewrite with_block_inode; [by apply Hin|by apply (lo_valid _ _ _ Hlo)|done].
Qed.

(** The state of the loop after [w] bytes. *)
Record writing (fd : nat) (f : fdesc_t) node nb (data : list Z) s s1 (w : nat) (inode : inode_t) : Prop := {
  wg_state : ∃ t d1, length t = TEMP_BUF_LEN ∧ written (fs_disk s) d1 node nb (f_pos f) w data ∧
    s1 = upd_disk d1 (upd_tbuf t (upd_fdescs (<[fd := set_pos (f_pos f + Z.of_nat w) f]> (fdesc_array s)) s));
  wg_size : inode = set_size (if decide (w = 0%nat) then i_size node
                              else Z.max (i_size node) (f_pos f + Z.of_nat w)) node;
  wg_len : (w ≤ length data)%nat
}.

Lemma file_block_size d node z l : file_block d (set_size z node) l = file_block d node l.
Proof. done. Qed.

Lemma splice_prefix off ws t : length t = TEMP_BUF_LEN → (off + length ws ≤ BLOCK_LEN)%nat →
  take BLOCK_LEN (drop 0 (splice off ws t)) = splice off ws (take BLOCK_LEN (drop 0 t)).
Proof.
  intros Hl Hfit. pose proof buf_room as Hroom.
  assert (length (take BLOCK_LEN (drop 0 t)) = BLOCK_LEN) as Hlb by (rewrite length_take, length_drop; lia).
  apply slice_eq; [by rewrite length_splice; rewrite Hlb|]. intros i Hi.
  rewrite !splice_lookup by (rewrite ?Hlb; lia). simpl Nat.add. case_decide; [done|].
  by rewrite lookup_take_lt, lookup_drop by done.
Qed.

(** The bytes [ws] go into a block that is in the buffer, at the offset [off]. *)
Lemma store_chunk_ok {A} b bs (off : nat) (ws : list Z) (k : M (fs_state (D := D)) A) s Q :
  length (tbuf s) = TEMP_BUF_LEN → take BLOCK_LEN (drop 0 (tbuf s)) = bs → (off + length ws ≤ BLOCK_LEN)%nat →
  (∀ t, length t = TEMP_BUF_LEN → wp k (upd_disk (with_block (fs_disk s) b (splice off ws bs)) (upd_tbuf t s)) Q) →
  wp (buf_set off ws;; write_block b 0;; k) s Q.
Proof.
  intros Hl <- Hfit Hk. pose proof buf_room as Hroom. unfold buf_set. rewrite wp_bind, wp_modify.
  unfold write_block, buf_get, write_sectors. rewrite wp_bind, wp_bind, wp_gets, wp_modify. cbn [fs_disk tbuf upd_tbuf].
  rewrite splice_prefix by done. apply Hk. rewrite length_splice; lia.
Qed.

(** The part of a round from the block on. *)
Lemma write_chunk_ok {A} b (off : nat) (ws : list Z) (k : M (fs_state (D := D)) A) s Q :
  length (tbuf s) = TEMP_BUF_LEN → (off + length ws ≤ BLOCK_LEN)%nat →
  (∀ t, length t = TEMP_BUF_LEN →
     wp k (upd_disk (with_block (fs_disk s) b (splice off ws (block_bytes (fs_disk s) b))) (upd_tbuf t s)) Q) →
  wp (read_block b 0;; buf_set off ws;; write_block b 0;; k) s Q.
Proof.
  intros Hl Hfit Hk. destruct (read_block_ok b s Hl) as [Hr Hl2]. pose proof buf_room.
  rewrite wp_bind, (wp_ok _ _ _ _ _ Hr). apply (store_chunk_ok b (block_bytes (fs_disk s) b)); try done.
  apply slice_splice_same; rewrite length_block; [lia|done].
Qed.

Lemma write_step_ok fd f node nb data s s1 w inode :
  writing fd f node nb data s s1 w inode → (fd < length (fdesc_array s))%nat → 0 ≤ f_pos f →
  length (direct_ptr node) = DIRECT_BLOCK_NUM →
  f_pos f + Z.of_nat (length data) ≤ nb * BLOCK_SIZE < 2 ^ 32 → (w < length data)%nat →
  wp (write_step fd (inode, drop w data)) s1 (λ r s2, ∃ w' inode',
    r = inl (inode', drop w' data) ∧ writing fd f node nb data s s2 w' inode' ∧
    blocks_left (f_pos f + Z.of_nat w') (Z.of_nat (length (drop w' data))) <
    blocks_left (f_pos f + Z.of_nat w) (Z.of_nat (length (drop w data)))).
Proof.
  intros [(t & d1 & Ht & Hw & Hs1) -> _] Hfd Hp Hd Hnb Hlt. change (2 ^ 32) with 4294967296 in Hnb.
  set (node1 := set_size _ node). set (pos := f_pos f + Z.of_nat w) in *. set (rest := drop w data).
  assert (Z.of_nat (length rest) = Z.of_nat (length data) - Z.of_nat w) as Hrest.
  { unfold rest. rewrite length_drop. lia. }
  assert (fdesc_array s1 !! fd = Some (set_pos pos f) ∧ fs_disk s1 = d1 ∧ length (tbuf s1) = TEMP_BUF_LEN) as (Hf & Hd1 & Hb1).
  { subst s1. split; [by apply list_lookup_insert_eq|done]. }
  unfold write_step. destruct rest as [|y ys] eqn:Er; [simpl in Hrest; lia|]. rewrite <- Er in *.
  rewrite wp_bind, wp_get, wp_bind, (wp_of_opt_Some _ _ _ _ Hf).
  change (f_pos (set_pos pos f)) with pos. change (f_inode (set_pos pos f)) with (f_inode f).
  pose proof (chunk_bounds pos (Z.of_nat (length rest)) ltac:(lia) ltac:(lia)) as Hc.
  destruct (chunk_of pos (Z.of_nat (length rest))) as [[l off] c] eqn:Ec. destruct Hc as (-> & -> & Hc & Hoff & Hm).
  assert (c = Z.min (Z.of_nat (length rest)) (BLOCK_SIZE - pos mod BLOCK_SIZE)) as Hceq by (unfold chunk_of in Ec; congruence).
  assert (0 ≤ pos / BLOCK_SIZE < nb) as Hl0 by (unfold BLOCK_SIZE in *; Z.to_euclidean_division_equations; lia).
  pose proof (lo_valid _ _ _ (wn_laid _ _ _ _ _ _ _ Hw) _ Hl0) as Hvb.
  destruct (get_physical_ok node1 (f_inode f) (pos / BLOCK_SIZE) true s1 Hb1) as (s2 & Hg & Hs2); [done|lia| |].
  { right. rewrite Hd1. change (file_block d1 node1) with (file_block d1 node). unfold valid_block in Hvb. lia. }
  rewrite Hd1 in Hg. change (file_block d1 node1) with (file_block d1 node) in Hg.
  set (b := file_block d1 node (pos / BLOCK_SIZE)) in *.
  rewrite wp_bind, (wp_ok _ _ _ _ _ Hg). cbv iota beta.
  rewrite (proj2 (Z.eqb_neq _ _)) by (unfold valid_block in Hvb; change FS_BLOCK_NUM with 131072 in Hvb; change NEG1 with 4294967295; lia).
  destruct Hs2 as (t2 & Ht2 & ->). rewrite Hb1 in Ht2. set (n := Z.to_nat c).
  assert (length (take n rest) = n) as Hln by (rewrite length_take; lia).
  apply write_chunk_ok; [done|rewrite Hln; unfold BLOCK_LEN, BLOCK_SIZE in *; lia|]. intros t4 Ht4.
  unfold set_fdesc. rewrite wp_bind, wp_modify, wp_ret. cbn [fs_disk tbuf upd_tbuf upd_fdescs upd_disk fdesc_array].
  rewrite Hd1, u32_id by lia.
  exists (w + n)%nat, (set_size (Z.max (i_size node) (pos + c)) node). split; [|split].
  - unfold rest. rewrite drop_drop. do 2 f_equal. subst node1. unfold set_size. simpl.
    destruct (Z.ltb_spec (if decide (w = 0%nat) then i_size node else Z.max (i_size node) pos) (pos + c));
      f_equal; destruct (decide (w = 0%nat)); lia.
  - split.
    + exists t4, (with_block d1 b (splice (Z.to_nat (pos mod BLOCK_SIZE)) (take n rest) (block_bytes d1 b))).
      split; [done|]. split.
      * apply written_step; try done; try lia; unfold pos in *; lia.
      * subst s1. unfold upd_disk, upd_tbuf, upd_fdescs, set_pos. simpl. rewrite list_insert_insert_eq.
        unfold with_block. do 3 f_equal. lia.
    + rewrite decide_False by lia. do 2 f_equal. lia.
    + lia.
  - rewrite !length_drop. replace (f_pos f + Z.of_nat (w + n)) with (pos + c) by lia.
    replace (Z.of_nat (length data - (w + n))) with (Z.of_nat (length rest) - c) by lia.
    replace (Z.of_nat (length data - w)) with (Z.of_nat (length rest)) by lia. rewrite Hceq.
    apply blocks_left_next; lia.
Qed.

Lemma write_loop_ok fd f node nb data s :
  fdesc_array s !! fd = Some f → length (tbuf s) = TEMP_BUF_LEN → 0 ≤ f_pos f →
  length (direct_ptr node) = DIRECT_BLOCK_NUM → laid_out (fs_disk s) node nb →
  f_pos f + Z.of_nat (length data) ≤ nb * BLOCK_SIZE < 2 ^ 32 →
  wp (while_ (io_fuel (Z.of_nat (length data))) (write_step fd) (node, data)) s (λ r s',
    r.2 = [] ∧ writing fd f node nb data s s' (length data) r.1).
Proof.
  intros Hf Hl Hp Hd Hlo Hnb. assert (fd < length (fdesc_array s))%nat as Hfd by by eapply lookup_lt_Some.
  apply (wp_while (λ (l : inode_t * list Z) s', ∃ w, l.2 = drop w data ∧ writing fd f node nb data s s' w l.1)
    (λ (l : inode_t * list Z) _, Z.to_nat (blocks_left (f_pos f + (Z.of_nat (length data) - Z.of_nat (length l.2))) (Z.of_nat (length l.2))))).
  - exists 0%nat. split; [done|]. split; [|by destruct node|lia].
    exists (tbuf s), (fs_disk s). split; [done|]. split; [by apply written_start|]. rewrite Z.add_0_r.
    unfold upd_disk, upd_tbuf, upd_fdescs. simpl. destruct f as [a b c u]. unfold set_pos. simpl.
    rewrite list_insert_id by done. by destruct s.
  - cbn [snd]. rewrite Z.sub_diag, Z.add_0_r. by apply blocks_left_fuel.
  - intros [inode rest] s1 (w & Hrest & Hw). cbn [fst snd] in *. subst rest. pose proof (wg_len _ _ _ _ _ _ _ _ _ Hw) as Hwl.
    destruct (decide (w < length data)%nat) as [Hlt|Hge].
    + eapply wp_mono; [by apply (write_step_ok fd f node nb data s s1 w inode)|].
      intros r s2 (w' & inode' & -> & Hw' & Hm). cbn [fst snd]. split; [by exists w'|].
      pose proof (wg_len _ _ _ _ _ _ _ _ _ Hw'). rewrite !length_drop in *.
      pose proof (blocks_left_nonneg (f_pos f + Z.of_nat w') (Z.of_nat (length data - w'))).
      replace (f_pos f + (Z.of_nat (length data) - Z.of_nat (length data - w'))) with (f_pos f + Z.of_nat w') by lia.
      replace (f_pos f + (Z.of_nat (length data) - Z.of_nat (length data - w))) with (f_pos f + Z.of_nat w) by lia.
      lia.
    + assert (w = length data) as -> by lia. rewrite drop_all. unfold write_step. rewrite wp_ret. done.
Qed.

(** A new size is all that [do_write] changes in the inode. *)
Definition grown node (pos : Z) (data : list Z) : inode_t :=
  if decide (length data = 0%nat) then node
  else set_size (Z.max (i_size node) (pos + Z.of_nat (length data))) node.

Lemma inode_ok_size node z : inode_ok node → 0 ≤ z < 2 ^ 32 → inode_ok (set_size z node).
Proof.
  intros [Hw Hd] Hz. split; [|done]. unfold inode_words in *. simpl in *.
  repeat (apply Forall_cons in Hw as [? Hw]; apply Forall_cons; split; [done|]). done.
Qed.

(** [do_write] over blocks that the file has: it ends, reports every byte
    as written, and afterwards the file's bytes are the data from the
    descriptor's position on and as they were elsewhere; the file's size covers
    what was written, every other inode is as it was, and the position moves. *)
Theorem do_write_spec s fd f data nb :
  let n := f_inode f in
  let node := inode_at (fs_disk s) n in
  get_fdesc s fd = Some f → f_mode f ≠ O_RDONLY → length (tbuf s) = TEMP_BUF_LEN → 0 ≤ f_pos f →
  0 ≤ n < NUM_INODES → inode_ok node → laid_out (fs_disk s) node nb →
  f_pos f + Z.of_nat (length data) ≤ nb * BLOCK_SIZE < 2 ^ 32 →
  wp (do_write fd data) s (λ r s', r = Z.of_nat (length data) ∧
    inode_at (fs_disk s') n = grown node (f_pos f) data ∧
    (∀ m, 0 ≤ m < NUM_INODES → m ≠ n → inode_at (fs_disk s') m = inode_at (fs_disk s) m) ∧
    (∀ x, 0 ≤ x < nb * BLOCK_SIZE → file_byte (fs_disk s') (grown node (f_pos f) data) x =
       if decide (f_pos f ≤ x < f_pos f + Z.of_nat (length data)) then nth (Z.to_nat (x - f_pos f)) data 0
       else file_byte (fs_disk s) node x) ∧
    fdesc_array s' !! Z.to_nat fd = Some (set_pos (f_pos f + Z.of_nat (length data)) f)).
Proof.
  intros n node Hf Hm Hl Hp Hn Hok Hlo Hnb. pose proof (get_fdesc_lookup s fd f Hf) as Hlk.
  unfold do_write. rewrite wp_bind, wp_get, Hf. rewrite (proj2 (Z.eqb_neq _ _)) by done.
  rewrite wp_bind, (wp_ok _ _ _ _ _ (get_inode_ok _ _)). fold n node. rewrite wp_bind.
  eapply wp_mono; [apply (write_loop_ok (Z.to_nat fd) f node nb data s); try done; apply Hok|].
  intros [inode rest] s1 [Hrest [(t & d1 & Ht & Hw & ->) Hsz _]]. cbn [fst snd] in *. subst rest. rewrite wp_bind.
  assert (inode = grown node (f_pos f) data) as Ei.
  { rewrite Hsz. unfold grown. destruct (decide (length data = 0%nat)); [by destruct node|done]. }
  clear Hsz. subst inode. set (node' := grown node (f_pos f) data).
  assert (inode_ok node') as Hok'.
  { unfold node', grown. destruct (decide _); [done|]. apply inode_ok_size; [done|].
    assert (0 ≤ i_size node < 2 ^ 32) by (destruct Hok as [Hok _]; unfold inode_words in Hok; simpl in Hok;
      do 3 (apply Forall_cons in Hok as [? Hok]); done). lia. }
  rewrite (wp_ok _ _ _ _ _ (write_inode_ok _ _ _)), wp_ret. cbn [fs_disk upd_disk upd_tbuf upd_fdescs fdesc_array].
  fold n. split; [simpl; lia|]. split; [by apply with_inode_same|]. split; [|split].
  - intros m Hmr Hne. rewrite with_inode_ne by done. by apply (wn_inodes _ _ _ _ _ _ _ Hw).
  - intros x Hx. rewrite <- (wn_bytes _ _ _ _ _ _ _ Hw x Hx).
    assert (∀ l, file_block d1 node' l = file_block d1 node l ∧ file_index d1 node' l = file_index d1 node l) as E.
    { intros l. unfold node', grown. by destruct (decide _). }
    pose proof (wn_laid _ _ _ _ _ _ _ Hw) as Hlo1.
    assert (same_index d1 (with_inode d1 n node') node nb) as Hsi.
    { intros l b Hlr Hb. apply with_inode_block; [|done]. by apply (lo_index _ _ _ Hlo1 l l b). }
    assert (0 ≤ x / BLOCK_SIZE < nb) as Hlx by (unfold BLOCK_SIZE in *; Z.to_euclidean_division_equations; lia).
    unfold file_byte. assert (file_block (with_inode d1 n node') node' (x / BLOCK_SIZE) = file_block d1 node (x / BLOCK_SIZE)) as ->.
    { rewrite <- (proj1 (same_index_block _ _ _ _ _ Hsi Hlx)). unfold node', grown. by destruct (decide _). }
    rewrite with_inode_block; [done| |done]. by apply (lo_valid _ _ _ Hlo1).
  - apply list_lookup_insert_eq. by eapply lookup_lt_Some.
Qed.
End FsFile.

(** ** Examples: file 5 has 100 bytes in block 7 *)

Definition ex_file : inode_t := set_size 100 (set_direct 0 7 no_inode).
Definition ex_file_fs : fs_state (D := gmap Z (list Z)) :=
  mk_fs (with_inode ∅ 5 ex_file) (replicate TEMP_BUF_LEN 0) (mk_sb SUPERBLOCK_MAGIC 0 1000 0 1 2 0 0 0 0) true
    [mk_fdesc 5 O_RDWR 10 true] [] 0.

Lemma ex_file_ok : inode_ok ex_file.
Proof. split; [|done]. by repeat constructor; vm_compute. Qed.

Lemma ex_file_at : inode_at (fs_disk ex_file_fs) 5 = ex_file.
Proof. apply with_inode_same; [done|apply ex_file_ok]. Qed.

Lemma ex_file_laid : laid_out (fs_disk ex_file_fs) ex_file 1.
Proof.
  assert (∀ l, 0 ≤ l < 1 → l = 0) as H by lia. split; [done| | |].
  - intros l ->%H. by vm_compute.
  - intros l l' Hl Hl' _. lia.
  - intros l l' b ->%H Hl' Hb. by apply not_elem_of_nil in Hb.
Qed.

Lemma do_read_spec_witness : wp (do_read 0 200) ex_file_fs (λ r _, r.1 = 90).
Proof.
  eapply wp_mono.
  - apply (do_read_spec ex_file_fs 0 (mk_fdesc 5 O_RDWR 10 true) 200); try done.
    + cbn [f_inode]. rewrite ex_file_at. intros x Hx. simpl in Hx. rewrite Z.div_small by (unfold BLOCK_SIZE; lia). done.
  - intros r s' (-> & _). cbn [f_inode]. rewrite ex_file_at. by vm_compute.
Defined.

Lemma do_write_spec_witness : wp (do_write 0 [1; 2; 3]) ex_file_fs (λ r s', r = 3 ∧
  file_byte (fs_disk s') ex_file 11 = 2).
Proof.
  eapply wp_mono.
  - apply (do_write_spec ex_file_fs 0 (mk_fdesc 5 O_RDWR 10 true) [1; 2; 3] 1); try done.
    + cbn [f_inode]. rewrite ex_file_at. apply ex_file_ok.
    + cbn [f_inode]. rewrite ex_file_at. apply ex_file_laid.
  - intros r s' (-> & _ & _ & Hby & _). split; [done|]. cbn [f_inode] in Hby. rewrite ex_file_at in Hby.
    specialize (Hby 11 ltac:(unfold BLOCK_SIZE; lia)). done.
Defined.
