(* ===== verification/FsPath.v ===== *)
(** Directories and paths: what the lookups of FsDir mean on the card. *)
From S2P Require Import Prelude KMonad Bytes Swap FsDisk FsDir Fs FsFile.

(** ** The names of a path *)

(** The names between the slashes; [cur] is the start of the name, reversed.
    Nothing comes after a slash at the end. *)
Fixpoint split_path (cur p : list Z) : list (list Z) :=
  match p with
  | [] => match cur with [] => [] | _ => [rev cur] end
  | c :: p' => if c =? SLASH then rev cur :: split_path [] p' else split_path (c :: cur) p'
  end.
Definition path_names (p : list Z) : list (list Z) := split_path [] p.

Lemma split_path_app cur a p : SLASH ∉ a → split_path cur (a ++ p) = split_path (rev a ++ cur) p.
Proof.
  revert cur. induction a as [|c a IH]; intros cur Ha; [done|].
  apply not_elem_of_cons in Ha as [Hc Ha]. simpl. rewrite (proj2 (Z.eqb_neq _ _)) by done.
  rewrite IH by done. by rewrite <- (assoc_L (++)).
Qed.

Lemma split_first_Some p a b : split_first p = Some (a, b) → p = a ++ SLASH :: b ∧ SLASH ∉ a.
Proof.
  revert a. induction p as [|c p IH]; intros a; simpl; [done|]. destruct (Z.eqb_spec c SLASH) as [->|Hc].
  - intros [= <- <-]. split; [done|]. apply not_elem_of_nil.
  - destruct (split_first p) as [[a' b']|]; simpl; [|done]. intros [= <- <-].
    destruct (IH a' eq_refl) as [-> Ha]. split; [done|]. by apply not_elem_of_cons.
Qed.

Lemma split_first_None p : split_first p = None → SLASH ∉ p.
Proof.
  induction p as [|c p IH]; simpl; [intros _; apply not_elem_of_nil|]. destruct (Z.eqb_spec c SLASH); [done|].
  destruct (split_first p) as [[]|]; simpl; [done|]. intros _. apply not_elem_of_cons. auto.
Qed.

Lemma path_names_slash a b : SLASH ∉ a → path_names (a ++ SLASH :: b) = a :: path_names b.
Proof. intros Ha. unfold path_names. rewrite split_path_app by done. simpl. by rewrite app_nil_r, rev_involutive. Qed.

Lemma path_names_last a : SLASH ∉ a → a ≠ [] → path_names a = [a].
Proof.
  intros Ha Hne. unfold path_names. rewrite <- (app_nil_r a) at 1. rewrite split_path_app by done. simpl.
  rewrite app_nil_r. destruct (rev a) eqn:E; [|by rewrite <- E, rev_involutive].
  exfalso. apply Hne. by rewrite <- (rev_involutive a), E.
Qed.

Section FsPath.
Context {D : Type} `{!BlockDevice SECTOR_LEN D}.
Implicit Types (s : fs_state (D := D)) (d : D).

(** ** Looking up a name *)

Definition block_lookup d (name : list Z) p : option Z :=
  if (p =? NEG1) || (p =? 0) then None
  else entry_inode (block_bytes d p) <$> first_index DENTRIES (entry_named (block_bytes d p) name).
Fixpoint first_block d node (name : list Z) (i n : nat) : option Z :=
  match n with
  | O => None
  | S n' => match block_lookup d name (file_block d node (Z.of_nat i)) with
            | Some r => Some r
            | None => first_block d node name (S i) n'
            end
  end.

(** The inode of [name] in the directory [n], or -1. *)
Definition dir_lookup d (n : Z) (name : list Z) : Z :=
  let node := inode_at d n in
  if negb (i_type node =? FD_DIR) then NEG1
  else default NEG1 (first_block d node name 0 (Z.to_nat (num_blocks node))).

Lemma str_eq_take b name : str_eq b name = str_eq (take (S (length name)) b) name.
Proof.
  revert b. induction name as [|c name IH]; intros [|x b]; try done. simpl. by rewrite IH.
Qed.

Lemma nth_drop_take (b : list Z) o : nth 0 (drop o b) 0 = nth 0 (take 1 (drop o b)) 0.
Proof. by destruct (drop o b). Qed.

(** An entry is its 20 bytes. *)
Lemma entry_eq b b' j j' name : (length name < MAX_FNAME_LEN)%nat →
  take DENTRY_SIZE (entry_at b j) = take DENTRY_SIZE (entry_at b' j') →
  entry_free b j = entry_free b' j' ∧ entry_named b name j = entry_named b' name j' ∧ entry_inode b j = entry_inode b' j'.
Proof.
  unfold MAX_FNAME_LEN, DENTRY_SIZE. intros Hn E20.
  assert (∀ n, (n ≤ 20)%nat → take n (entry_at b j) = take n (entry_at b' j')) as E.
  { intros n Hn'. replace n with (n `min` 20)%nat by lia. by rewrite <- !take_take, E20. }
  assert (entry_free b j = entry_free b' j') as Ef.
  { unfold entry_free, entry_at in *. rewrite nth_drop_take, (nth_drop_take b'). by rewrite (E 1%nat) by lia. }
  split; [done|]. split.
  - unfold entry_named. rewrite Ef, (str_eq_take (entry_at b j)), (str_eq_take (entry_at b' j')). by rewrite E by lia.
  - unfold entry_inode. assert (∀ c : list Z, take 4 (drop 16 c) = take 4 (drop 16 (take 20 c))) as Hs.
    { intros c. rewrite <- (drop_0 c) at 2. rewrite slice_slice by lia. done. }
    by rewrite (Hs (entry_at b j)), E20, <- Hs.
Qed.

(** The entries of a block are the same in the buffer. *)
Lemma entry_in_buf d p t j name : length t = TEMP_BUF_LEN → (j < DENTRIES)%nat → (length name < MAX_FNAME_LEN)%nat →
  entry_free (splice 0 (block_bytes d p) t) j = entry_free (block_bytes d p) j ∧
  entry_named (splice 0 (block_bytes d p) t) name j = entry_named (block_bytes d p) name j ∧
  entry_inode (splice 0 (block_bytes d p) t) j = entry_inode (block_bytes d p) j.
Proof.
  intros Ht Hj Hn. apply entry_eq; [done|]. unfold entry_at. apply slice_block; [done|].
  unfold DENTRIES, DENTRY_SIZE, BLOCK_LEN in *. lia.
Qed.

Lemma named_in_buf d p t name : length t = TEMP_BUF_LEN → (length name < MAX_FNAME_LEN)%nat →
  entry_inode (splice 0 (block_bytes d p) t) <$> first_index DENTRIES (entry_named (splice 0 (block_bytes d p) t) name)
  = entry_inode (block_bytes d p) <$> first_index DENTRIES (entry_named (block_bytes d p) name).
Proof.
  intros Ht Hn. rewrite (first_index_ext _ _ (entry_named (block_bytes d p) name)).
  - destruct (first_index DENTRIES _) as [j|] eqn:E; [|done]. apply first_index_Some in E as [Hj _]. simpl. f_equal.
    by apply (entry_in_buf d p t j name).
  - intros j Hj. by apply entry_in_buf.
Qed.

(** The body of the loop of [find_inode_by_name]. *)
Lemma block_lookup_ok node n i name s :
  length (tbuf s) = TEMP_BUF_LEN → length (direct_ptr node) = DIRECT_BLOCK_NUM → (length name < MAX_FNAME_LEN)%nat →
  wp (r ← get_physical_block_id node n (Z.of_nat i) false;
      let p_block := r.2 in
      if (p_block =? NEG1) || (p_block =? 0) then mret None else
      read_block p_block 0;;
      b ← gets tbuf;
      mret (entry_inode b <$> first_index DENTRIES (entry_named b name))) s
    (λ r s', r = block_lookup (fs_disk s) name (file_block (fs_disk s) node (Z.of_nat i)) ∧ same_but_buf s s').
Proof.
  intros Hl Hd Hn. destruct (get_physical_ok node n (Z.of_nat i) false s Hl Hd ltac:(lia)) as (s1 & Hg & Hs1); [by left|].
  rewrite wp_bind, (wp_ok _ _ _ _ _ Hg). cbn [snd]. unfold block_lookup.
  destruct ((_ =? NEG1) || _); [by rewrite wp_ret|].
  assert (length (tbuf s1) = TEMP_BUF_LEN ∧ fs_disk s1 = fs_disk s) as [Hl1 Hd1].
  { destruct Hs1 as (t & Ht & ->). simpl. split; [congruence|done]. }
  destruct (read_block_ok (file_block (fs_disk s) node (Z.of_nat i)) s1 Hl1) as [Hr Hl2].
  rewrite wp_bind, (wp_ok _ _ _ _ _ Hr), wp_bind, wp_gets, wp_ret. cbn [tbuf upd_tbuf]. rewrite Hd1 in *.
  split; [by apply named_in_buf|]. eapply same_but_buf_trans; [exact Hs1|]. eexists. split; [|reflexivity]. congruence.
Qed.

Lemma find_inode_by_name_ok n name s :
  length (tbuf s) = TEMP_BUF_LEN → (length name < MAX_FNAME_LEN)%nat →
  wp (find_inode_by_name n name) s (λ r s', r = dir_lookup (fs_disk s) n name ∧ same_but_buf s s').
Proof.
  intros Hl Hn. unfold find_inode_by_name. rewrite wp_bind, (wp_ok _ _ _ _ _ (get_inode_ok _ _)).
  unfold dir_lookup. set (node := inode_at (fs_disk s) n). destruct (negb _).
  { rewrite wp_ret. split; [done|apply same_but_buf_refl]. }
  assert (length (direct_ptr node) = DIRECT_BLOCK_NUM) as Hd by by unfold node, inode_at, inode_of; simpl; rewrite ?length_fmap, ?length_seq.
  rewrite wp_bind. unfold each_block. generalize (Z.to_nat (num_blocks node)) as m.
  assert (∀ m i s1, same_but_buf s s1 →
    wp (for_ret i m (λ i, r ← get_physical_block_id node n (Z.of_nat i) false;
      let p_block := r.2 in
      if (p_block =? NEG1) || (p_block =? 0) then mret None else
      read_block p_block 0;;
      b ← gets tbuf;
      mret (entry_inode b <$> first_index DENTRIES (entry_named b name)))) s1
    (λ r s', r = first_block (fs_disk s) node name i m ∧ same_but_buf s s')) as Hloop.
  { induction m as [|m IH]; intros i s1 Hs1; simpl; [by rewrite wp_ret|].
    assert (length (tbuf s1) = TEMP_BUF_LEN ∧ fs_disk s1 = fs_disk s) as [Hl1 Hd1].
    { destruct Hs1 as (t & Ht & ->). simpl. split; [congruence|done]. }
    rewrite wp_bind. eapply wp_mono; [by apply block_lookup_ok|]. intros r s2 [-> Hs2]. rewrite Hd1.
    assert (same_but_buf s s2) as Hs by by eapply same_but_buf_trans.
    destruct (block_lookup _ _ _); [by rewrite wp_ret|]. by apply IH. }
  intros m. eapply wp_mono; [apply Hloop, same_but_buf_refl|]. intros r s' [-> Hs]. by rewrite wp_ret.
Qed.

(** ** Paths *)

Fixpoint walk d (n : Z) (names : list (list Z)) : Z :=
  match names with
  | [] => n
  | c :: names' => let n' := dir_lookup d n c in if n' =? NEG1 then NEG1 else walk d n' names'
  end.

Lemma path_loop_ok fuel p n s :
  length (tbuf s) = TEMP_BUF_LEN → Forall (λ c, length c < MAX_FNAME_LEN)%nat (path_names p) → (length p < fuel)%nat →
  wp (while_ fuel path_step (p, n)) s (λ r s', r = walk (fs_disk s) n (path_names p) ∧ same_but_buf s s').
Proof.
  revert p n s. induction fuel as [|fuel IH]; intros p n s Hl Hc Hf; [lia|]. simpl. rewrite wp_bind.
  destruct p as [|x p].
  { simpl. rewrite !wp_ret. split; [done|apply same_but_buf_refl]. }
  cbn [path_step]. destruct (split_first (x :: p)) as [[a b]|] eqn:E.
  - apply split_first_Some in E as [E Ha]. rewrite E in *. rewrite path_names_slash in * by done.
    apply Forall_cons in Hc as [Hca Hcb]. rewrite wp_bind.
    eapply wp_mono; [by apply find_inode_by_name_ok|]. intros r s1 [-> Hs1]. simpl.
    assert (length (tbuf s1) = TEMP_BUF_LEN ∧ fs_disk s1 = fs_disk s) as [Hl1 Hd1].
    { destruct Hs1 as (t & Ht & ->). simpl. split; [congruence|done]. }
    destruct (dir_lookup (fs_disk s) n a =? NEG1) eqn:En; [by rewrite !wp_ret|]. rewrite wp_ret.
    eapply wp_mono; [apply IH; [done|done|]|].
    + rewrite length_app in Hf. simpl in Hf. lia.
    + intros r s2 [-> Hs2]. rewrite Hd1. split; [done|]. by eapply same_but_buf_trans.
  - apply split_first_None in E. rewrite path_names_last in * by done. apply Forall_cons in Hc as [Hca _].
    rewrite wp_bind. eapply wp_mono; [by apply find_inode_by_name_ok|]. intros r s1 [-> Hs1]. rewrite !wp_ret.
    split; [|done]. simpl. destruct (Z.eqb_spec (dir_lookup (fs_disk s) n (x :: p)) NEG1); done.
Qed.

(** Where a path starts, and what is left of it. *)
Definition path_start (cwd : Z) (path : list Z) : Z * list Z :=
  match path with
  | c :: path' => if c =? SLASH then (ROOT_INODE_NUM, path') else (cwd, path)
  | [] => (cwd, path)
  end.

Lemma find_inode_by_path_ok s path :
  length (tbuf s) = TEMP_BUF_LEN → (length path < MAX_PATH_LEN)%nat →
  let '(n, p) := path_start (cur_dir s) path in
  Forall (λ c, length c < MAX_FNAME_LEN)%nat (path_names p) →
  wp (find_inode_by_path path) s (λ r s',
    r = walk (fs_disk s) n (path_names p) ∧ same_but_buf s s').
Proof.
  intros Hl Hp. unfold path_start. set (np := match path with [] => _ | _ => _ end).
  assert (find_inode_by_path path s = (let '(n, p) := np in
    assert (bool_decide (length p < MAX_PATH_LEN)%nat);; while_ (S (length p)) path_step (p, n)) s) as E.
  { unfold find_inode_by_path. rewrite bind_get. done. }
  assert (length np.2 ≤ length path)%nat as Hlen.
  { subst np. destruct path as [|c path']; [done|]. destruct (c =? SLASH); simpl; lia. }
  destruct np as [n p]. simpl in Hlen. intros Hc. unfold wp. rewrite E. fold (wp (assert (bool_decide (length p < MAX_PATH_LEN)%nat);; while_ (S (length p)) path_step (p, n)) s
    (λ r s', r = walk (fs_disk s) n (path_names p) ∧ same_but_buf s s')).
  rewrite wp_bind, wp_assert. split; [by apply bool_decide_eq_true; lia|]. apply path_loop_ok; [done|done|lia].
Qed.

(** C33: resolving a path ends, and gives what walking its names from the root
    (when it starts with a slash) or from the working directory gives, each name
    looked up in the directory before it; -1 as soon as a name is missing or
    its parent is not a directory. Neither the card nor the descriptors change. *)
Theorem find_inode_by_path_spec s path :
  length (tbuf s) = TEMP_BUF_LEN → (length path < MAX_PATH_LEN)%nat →
  let '(n, p) := path_start (cur_dir s) path in
  Forall (λ c, length c < MAX_FNAME_LEN)%nat (path_names p) →
  wp (find_inode_by_path path) s (λ r s',
    r = walk (fs_disk s) n (path_names p) ∧ same_but_buf s s').
Proof. apply find_inode_by_path_ok. Qed.

(** ** What goes wrong: a new name directly under the root is made in the
    working directory, since the path before its slash is empty *)
Lemma find_parent_root s name :
  SLASH ∉ name → (S (length name) < MAX_PATH_LEN)%nat →
  find_parent (SLASH :: name) s = Ok (cur_dir s, name) s.
Proof.
  intros Hn Hl. unfold find_parent. assert (∀ l, SLASH ∉ l → split_last l = None) as Hnone.
  { induction l as [|c l IH]; [done|]. intros [Hc Hl']%not_elem_of_cons. simpl. rewrite IH by done.
    by rewrite (proj2 (Z.eqb_neq _ _)). }
  unfold mbind at 1, M_bind at 1, assert. rewrite bool_decide_true by done. cbn [split_last]. rewrite Hnone by done.
  done.
Qed.
End FsPath.

(** ** Example: a fresh file system with the directory "a" and the file "a/b" *)

Definition ex_blank : fs_state (D := gmap Z (list Z)) :=
  mk_fs ∅ (replicate TEMP_BUF_LEN 0) (sb_of []) false (replicate NUM_FDESCS (mk_fdesc 0 0 0 false))
    (replicate NUM_FDESCS (mk_fdesc 0 0 0 false)) ROOT_INODE_NUM.
Definition ex_tree : fs_state (D := gmap Z (list Z)) :=
  match (init_fs;; do_mkdir [97];; do_touch [97; 47; 98]) ex_blank with Ok _ s => s | _ => ex_blank end.

Lemma find_inode_by_path_spec_witness : wp (find_inode_by_path [47; 97; 47; 98]) ex_tree (λ r _, r = 2).
Proof.
  pose proof (find_inode_by_path_spec ex_tree [47; 97; 47; 98]) as H.
  unfold path_start in H. change (47 =? SLASH) with true in H. cbv iota in H.
  eapply wp_mono.
  - apply H.
    + by vm_compute.
    + apply Nat.ltb_lt. by vm_compute.
    + change (path_names _) with [[97]; [98]]. apply (bool_decide_unpack _). by vm_compute.
  - intros r s' [-> _]. by vm_compute.
Defined.

(** Two files opened one after the other have the same descriptor: [alloc_fd]
    looks at the copy of the table that belongs to fs_tools.c. *)
Lemma open_twice :
  wp (a ← do_open [97; 47; 98] O_RDWR; b ← do_open [97; 47; 99] O_RDWR; mret (a, b)) ex_tree
    (λ r s', r = (0, 0) ∧ f_inode <$> (fdesc_array s' !! 0%nat) = Some 3).
Proof. by vm_compute. Qed.

(** Removing a file with an index block: [free_block] reads the superblock into
    the buffer that holds the index, so that after the first block of the index
    words of the superblock are taken for blocks. The second block of the file
    stays marked in the map, and the block of the root directory is freed, since
    the offset of the map of inodes is its number: the next file gets it. *)
Definition ex_big : fs_state (D := gmap Z (list Z)) :=
  match (fd ← do_open [97; 47; 98] O_RDWR; do_lseek fd 40960 SEEK_SET;; do_write fd (replicate 4097 1)) ex_tree with
  | Ok _ s => s | _ => ex_tree end.
Lemma rm_leaks_blocks :
  let base := map_base block_map_offset ex_big in
  let node := inode_at (fs_disk ex_big) 2 in
  map_bit (fs_disk ex_big) base (file_block (fs_disk ex_big) node 11) = true ∧
  wp (do_rm [97; 47; 98]) ex_big (λ r s', r = 0 ∧
    map_bit (fs_disk s') base (file_block (fs_disk ex_big) node 10) = false ∧
    map_bit (fs_disk s') base (file_block (fs_disk ex_big) node 11) = true).
Proof. by vm_compute. Qed.

Lemma rm_frees_root :
  let base := map_base block_map_offset ex_big in
  direct_ptr (inode_at (fs_disk ex_big) ROOT_INODE_NUM) !! 0%nat = Some ROOT_DIR_BLOCK ∧
  map_bit (fs_disk ex_big) base ROOT_DIR_BLOCK = true ∧
  wp (do_rm [97; 47; 98];; alloc_block) ex_big (λ b _, b = ROOT_DIR_BLOCK).
Proof. by vm_compute. Qed.
