(* ===== verification/FsGrow.v ===== *)
(** Files that grow: the blocks that [get_physical_block_id] of FsDisk allocates,
    and what they leave alone.

    A file reaches its blocks through places: the pointers of its inode and the
    entries of its index blocks. [file_ok] says that the blocks at the places of
    a file are its own; to allocate a block fills one empty place with a block
    that was free ([grew]), and a call fills at most three of them. *)
From S2P Require Import Prelude KMonad Bytes Swap FsDisk FsDir Fs FsFile.

(** ** The places of a file *)

Inductive place :=
| Direct (k : nat)
| Indirect
| Double
| Entry (p : place) (k : nat).
#[export] Instance place_eq_dec : EqDecision place.
Proof. solve_decision. Defined.

(** The places of index blocks, whose entries are places again. *)
Definition is_index (p : place) : bool :=
  match p with Indirect | Double | Entry Double _ => true | _ => false end.
Fixpoint place_ok (p : place) : Prop :=
  match p with
  | Direct k => (k < DIRECT_BLOCK_NUM)%nat
  | Indirect | Double => True
  | Entry q k => is_index q = true ∧ place_ok q ∧ (k < INDIRECT_BLOCK_NUM)%nat
  end.
Fixpoint place_depth (p : place) : nat := match p with Entry q _ => S (place_depth q) | _ => 0 end.
Definition is_root (p : place) : bool := match p with Entry _ _ => false | _ => true end.

(** The place of the block [l] of a file. *)
Definition data_place (l : Z) : place :=
  if l <? 10 then Direct (Z.to_nat l)
  else if l <? 1034 then Entry Indirect (Z.to_nat (l - 10))
  else Entry (Entry Double (Z.to_nat ((l - 1034) / 1024))) (Z.to_nat ((l - 1034) mod 1024)).
Definition MAX_BLOCKS : Z := 1049610.

(** The pointer of the inode at a place. *)
Definition set_ptr (p : place) (b : Z) (node : inode_t) : inode_t :=
  match p with
  | Direct k => set_direct k b node
  | Indirect => set_indirect b node
  | Double => set_double b node
  | Entry _ _ => node
  end.

(** The first sector and the length of the map of blocks. *)
Definition MAP_BASE : Z := FS_START_SECTOR + SUPERBLOCK_SECTORS + INODE_MAP_SECTORS.
Definition MAP_LEN : nat := Z.to_nat BLOCK_MAP_SECTORS.

(** The map of inodes is the sector before it. *)
Definition IMAP_BASE : Z := FS_START_SECTOR + SUPERBLOCK_SECTORS.

Lemma data_place_ok l : 0 ≤ l < MAX_BLOCKS → place_ok (data_place l) ∧ is_index (data_place l) = false.
Proof.
  unfold MAX_BLOCKS, data_place. intros Hl. destruct (Z.ltb_spec l 10); [|destruct (Z.ltb_spec l 1034)]; simpl;
    unfold DIRECT_BLOCK_NUM, INDIRECT_BLOCK_NUM; repeat split; Z.to_euclidean_division_equations; lia.
Qed.

Lemma data_place_inj l l' : 0 ≤ l < MAX_BLOCKS → 0 ≤ l' < MAX_BLOCKS → data_place l = data_place l' → l = l'.
Proof.
  unfold MAX_BLOCKS, data_place. intros Hl Hl'.
  destruct (Z.ltb_spec l 10), (Z.ltb_spec l' 10); [| | |destruct (Z.ltb_spec l 1034), (Z.ltb_spec l' 1034)];
    repeat case_match; intros E; try done; simplify_eq; Z.to_euclidean_division_equations; lia.
Qed.

Section FsGrow.
Context {D : Type} `{!BlockDevice SECTOR_LEN D}.
Implicit Types (s : fs_state (D := D)) (d : D) (node : inode_t) (b c l n : Z) (p q : place).

Fixpoint block_at d node p : Z :=
  match p with
  | Direct k => nth k (direct_ptr node) 0
  | Indirect => indirect_ptr node
  | Double => double_indirect_ptr node
  | Entry q k => if block_at d node q =? 0 then 0 else index_word d (block_at d node q) k
  end.

Lemma file_block_place d node l : 0 ≤ l < MAX_BLOCKS → file_block d node l = block_at d node (data_place l).
Proof.
  unfold MAX_BLOCKS, file_block, data_place. intros Hl. destruct (Z.ltb_spec l 10); [done|].
  destruct (Z.ltb_spec l 1034); [done|]. rewrite (proj2 (Z.ltb_lt l 1049610)) by lia. simpl.
  by destruct (double_indirect_ptr node =? 0).
Qed.

Lemma block_at_nlinks d node z p : block_at d (set_nlinks z node) p = block_at d node p.
Proof. induction p as [| | |q IH k]; try done. simpl. by rewrite IH. Qed.

Lemma block_at_size d node z p : block_at d (set_size z node) p = block_at d node p.
Proof. induction p as [| | |q IH k]; try done. simpl. by rewrite IH. Qed.

(** The inode's pointers and the entries of the index blocks decide it all. *)
Lemma block_at_eq d d' node node' p :
  (∀ r, is_root r = true → block_at d' node' r = block_at d node r) →
  (∀ q, is_index q = true → place_ok q → block_at d node q ≠ 0 →
     ∀ k, (k < INDIRECT_BLOCK_NUM)%nat → index_word d' (block_at d node q) k = index_word d (block_at d node q) k) →
  place_ok p → block_at d' node' p = block_at d node p.
Proof.
  intros Hr Hi. induction p as [k| | |q IH k]; intros Hp; [by apply Hr..|].
  destruct Hp as (Hq & Hok & Hk). simpl. rewrite IH by done.
  destruct (Z.eqb_spec (block_at d node q) 0); [done|]. by apply Hi.
Qed.

Lemma block_at_kept d node node' p :
  (∀ r, is_root r = true → block_at d node r ≠ 0 → block_at d node' r = block_at d node r) →
  block_at d node p ≠ 0 → block_at d node' p = block_at d node p.
Proof.
  intros Hr. induction p as [k| | |q IH k]; [by apply Hr..|]. simpl.
  destruct (Z.eqb_spec (block_at d node q) 0) as [|Hq]; [done|]. rewrite IH by done.
  by rewrite (proj2 (Z.eqb_neq _ _)).
Qed.

(** ** The map of blocks *)

Definition bit d c : bool := map_bit d MAP_BASE c.
Definition maps d : Prop := map_ok d MAP_BASE MAP_LEN.
Definition full d : Prop := ∀ c, 0 ≤ c < FS_BLOCK_NUM → bit d c = true.

(** [m] blocks are free. *)
Definition room d (m : nat) : Prop :=
  ∃ cs, NoDup cs ∧ length cs = m ∧ Forall (λ c, 0 ≤ c < FS_BLOCK_NUM ∧ bit d c = false) cs.

Lemma room_full d m : full d → room d m → m = 0%nat.
Proof.
  intros Hf ([|c cs] & _ & <- & Hc); [done|]. apply Forall_cons in Hc as [[Hr Hc] _].
  by rewrite (Hf c Hr) in Hc.
Qed.

Lemma room_less d m m' : room d m → (m' ≤ m)%nat → room d m'.
Proof.
  intros (cs & Hnd & <- & Hc) Hm. exists (take m' cs). split; [|split; [by rewrite length_take_le|by apply Forall_take]].
  rewrite <- (take_drop m' cs) in Hnd. by apply NoDup_app in Hnd as [? _].
Qed.

(** All but one of the free blocks are free afterwards. *)
Lemma room_step d d' b m :
  (∀ c, 0 ≤ c < FS_BLOCK_NUM → c ≠ b → bit d' c = bit d c) → room d m → room d' (pred m).
Proof.
  intros Hb (cs & Hnd & <- & Hc). rewrite Forall_forall in Hc.
  assert (length (filter (λ c, c ≠ b) cs) = length cs ∨ length (filter (λ c, c ≠ b) cs) = pred (length cs)) as Hl.
  { clear Hc. induction Hnd as [|c cs Hni Hnd IH]; [by left|]. rewrite filter_cons. destruct (decide (c ≠ b)) as [|E].
    - simpl. destruct IH as [->|E]; [by left|]. destruct cs; simpl in *; lia.
    - right. simpl. f_equal. assert (c = b) as -> by (by destruct (decide (c = b))).
      clear IH Hnd. induction cs as [|c cs IH]; [done|]. apply not_elem_of_cons in Hni as [Hne Hni].
      rewrite filter_cons_True by done. by rewrite IH. }
  apply (room_less _ (length (filter (λ c, c ≠ b) cs))); [|lia].
  exists (filter (λ c, c ≠ b) cs). split; [by apply NoDup_filter|]. split; [done|]. apply Forall_forall.
  intros c [Hne Hin]%list_elem_of_filter. destruct (Hc c Hin) as [Hr Hz]. split; [done|]. by rewrite Hb.
Qed.

Lemma room_bits d d' m : (∀ c, 0 ≤ c < FS_BLOCK_NUM → bit d' c = bit d c) → room d m → room d' m.
Proof.
  intros Hb (cs & Hnd & Hl & Hc). exists cs. split; [done|]. split; [done|]. eapply Forall_impl; [done|].
  intros c [Hr Hz]. split; [done|]. by rewrite Hb.
Qed.

Lemma map_frame d d' : (∀ x, MAP_BASE ≤ x < MAP_BASE + 32 → sd_read d' x 1 = sd_read d x 1) →
  (∀ c, 0 ≤ c < FS_BLOCK_NUM → bit d' c = bit d c) ∧ (maps d → maps d').
Proof.
  intros H. split.
  - change FS_BLOCK_NUM with 131072. intros c Hc. unfold bit, map_bit, map_byte.
    rewrite H; [done|]. Z.to_euclidean_division_equations; lia.
  - intros [Hb Hby]. split; [done|]. change (Z.of_nat MAP_LEN) with 32 in *. intros x Hx. rewrite H by done. by apply Hby.
Qed.

Lemma map_base_eq : MAP_BASE = 1048578.
Proof. done. Qed.

Definition imap d : list Z := sd_read d IMAP_BASE 1.
Definition sb_sector d : list Z := sd_read d FS_START_SECTOR 1.
(** The superblock that is on the card. *)
Definition sb_at d : superblock_t := sb_of (take 80 (sb_sector d)).
Definition heads d : list Z * list Z := (sb_sector d, imap d).

Lemma low_heads d x k bs : IMAP_BASE < x → heads (sd_write d x k bs) = heads d.
Proof.
  change IMAP_BASE with 1048577. intros Hx. unfold heads, sb_sector, imap. change FS_START_SECTOR with 1048576.
  change IMAP_BASE with 1048577. by rewrite !sd_read_other by lia.
Qed.

Lemma with_block_heads d b bs : valid_block b → heads (with_block d b bs) = heads d.
Proof.
  intros Hb. apply low_heads. change IMAP_BASE with 1048577. destruct (block_sector_valid b) as [-> ->]; unfold valid_block in Hb; lia.
Qed.

Lemma with_inode_heads d n node : 0 ≤ n < NUM_INODES → heads (with_inode d n node) = heads d.
Proof.
  intros Hn. destruct (inode_place n Hn) as (E & _ & ?). apply low_heads. rewrite E. change IMAP_BASE with 1048577.
  change inode_table_start with 1048610. lia.
Qed.

Lemma heads_sb d d' : heads d' = heads d → sb_at d' = sb_at d.
Proof. unfold heads, sb_at. by intros [= -> _]. Qed.

Lemma with_block_map d b bs : valid_block b →
  (∀ c, 0 ≤ c < FS_BLOCK_NUM → bit (with_block d b bs) c = bit d c) ∧ (maps d → maps (with_block d b bs)).
Proof.
  intros Hb. apply map_frame. rewrite map_base_eq. intros x Hx. apply sd_read_other.
  destruct (block_sector_valid b) as [-> ->]; unfold valid_block in Hb; lia.
Qed.

Lemma with_inode_map d n node : 0 ≤ n < NUM_INODES →
  (∀ c, 0 ≤ c < FS_BLOCK_NUM → bit (with_inode d n node) c = bit d c) ∧ (maps d → maps (with_inode d n node)).
Proof.
  intros Hn. apply map_frame. rewrite map_base_eq. intros x Hx. apply sd_read_other.
  destruct (inode_place n Hn) as (-> & _ & ?). change inode_table_start with 1048610. lia.
Qed.

(** ** A block from the map *)

(** The card [d1] is [d] but for the bit of the block [b], which is [v]. *)
Record marked d d1 b (v : bool) : Prop := {
  mk_maps : maps d1;
  mk_heads : heads d1 = heads d;
  mk_bits c : 0 ≤ c < FS_BLOCK_NUM → bit d1 c = if decide (c = b) then v else bit d c;
  mk_inodes m : 0 ≤ m < NUM_INODES → inode_at d1 m = inode_at d m;
  mk_bytes c : valid_block c → block_bytes d1 c = block_bytes d c
}.

Lemma bit_changed_marked d d1 b v : bit_changed MAP_BASE MAP_LEN d d1 b v → marked d d1 b v.
Proof.
  intros [Hok Hbits Ho]. change (Z.of_nat MAP_LEN) with 32 in Ho. rewrite map_base_eq in Ho. split; [done| |exact Hbits| |].
  - unfold heads, sb_sector, imap. change IMAP_BASE with 1048577. change FS_START_SECTOR with 1048576. by rewrite !Ho by lia.
  - intros m Hmr. unfold inode_at. rewrite Ho; [done|].
    destruct (inode_place m Hmr) as (-> & _ & ?). change inode_table_start with 1048610. lia.
  - intros c Hc. apply Ho. destruct (block_sector_valid c) as [-> ->]; unfold valid_block in Hc; lia.
Qed.

(** The card [d1] is [d] with the free block [b] taken, and zeroed if [z]. *)
Record fresh d d1 b (z : bool) : Prop := {
  fr_valid : valid_block b;
  fr_clear : bit d b = false;
  fr_map : maps d1;
  fr_heads : heads d1 = heads d;
  fr_bits c : 0 ≤ c < FS_BLOCK_NUM → bit d1 c = if decide (c = b) then true else bit d c;
  fr_inodes m : 0 ≤ m < NUM_INODES → inode_at d1 m = inode_at d m;
  fr_bytes c : valid_block c → c ≠ b → block_bytes d1 c = block_bytes d c;
  fr_zero k : z = true → (k < INDIRECT_BLOCK_NUM)%nat → index_word d1 b k = 0
}.

(** The file system is mounted: the superblock in memory says where the map is,
    and the block 0 is taken. *)
Record ready s : Prop := {
  rd_sb : sb_valid s = true;
  rd_base : map_base block_map_offset s = MAP_BASE;
  rd_ibase : map_base inode_map_offset s = IMAP_BASE;
  rd_buf : length (tbuf s) = TEMP_BUF_LEN;
  rd_maps : maps (fs_disk s);
  rd_zero : bit (fs_disk s) 0 = true;
  rd_card : sb_at (fs_disk s) = sb s
}.

Lemma ready_disk d s : ready s → maps d → bit d 0 = true → sb_at d = sb_at (fs_disk s) → ready (upd_disk d s).
Proof. intros [H1 H2 H3 H4 _ _ H] Hm H0 Hs. split; try done. cbn [fs_disk upd_disk]. by rewrite Hs. Qed.

Lemma ready_buf s t : ready s → length t = TEMP_BUF_LEN → ready (upd_tbuf t s).
Proof. intros [] Ht. by split. Qed.

Lemma alloc_block_ok s : ready s →
  wp alloc_block s (λ b s', (b = NEG1 ∧ s' = s ∧ full (fs_disk s)) ∨
    ∃ d1, s' = upd_disk d1 s ∧ fresh (fs_disk s) d1 b false).
Proof.
  intros [Hv Hb _ _ Hm H0 _]. unfold alloc_block.
  eapply wp_mono; [apply (alloc_bit_ok _ block_map_offset s Hv); by rewrite Hb|].
  rewrite Hb. change (4096 * Z.of_nat _) with FS_BLOCK_NUM.
  intros b s' [(-> & -> & Hf)|(Hr & Hz & Hlow & d1 & -> & Hc)]; [by left|]. right. exists d1. split; [done|].
  apply bit_changed_marked in Hc as [Hok Hh Hbits Hi Hby].
  assert (valid_block b) as Hvb.
  { unfold valid_block. destruct (decide (b = 0)) as [->|]; [|lia]. unfold bit in H0. congruence. }
  split; try done. intros c Hcv _. by apply Hby.
Qed.

Lemma index_word_zeros d b bs k : bs = replicate BLOCK_LEN 0 → (k < INDIRECT_BLOCK_NUM)%nat →
  index_word (with_block d b bs) b k = 0.
Proof.
  intros -> Hk. unfold index_word. rewrite with_block_same by apply length_replicate.
  unfold word. rewrite drop_replicate, take_replicate. unfold BLOCK_LEN, INDIRECT_BLOCK_NUM in *.
  by replace (4 `min` _)%nat with 4%nat by lia.
Qed.

Lemma zero_fresh d d1 b : fresh d d1 b false → fresh d (with_block d1 b (replicate BLOCK_LEN 0)) b true.
Proof.
  intros [Hv Hc Hm Him Hb Hi Hby _]. destruct (with_block_map d1 b (replicate BLOCK_LEN 0) Hv) as [Hb' Hm'].
  split; try done.
  - by apply Hm'.
  - by rewrite with_block_heads.
  - intros c Hr. rewrite Hb' by done. by apply Hb.
  - intros m Hr. rewrite with_block_inode by done. by apply Hi.
  - intros c Hvc Hne. rewrite with_block_ne by done. by apply Hby.
  - intros k _ Hk. by apply index_word_zeros.
Qed.

(** ** Files that own their blocks *)

(** The blocks at the places of the file are data blocks of the card, marked in
    the map, and no two places share one. *)
Record file_ok d node : Prop := {
  fo_inode : inode_ok node;
  fo_valid p : place_ok p → block_at d node p ≠ 0 → valid_block (block_at d node p) ∧ bit d (block_at d node p) = true;
  fo_inj p q : place_ok p → place_ok q → block_at d node p ≠ 0 → block_at d node p = block_at d node q → p = q
}.

Lemma file_block_valid d node l : file_ok d node → 0 ≤ l < MAX_BLOCKS → file_block d node l ≠ 0 → valid_block (file_block d node l).
Proof.
  intros Hf Hl. destruct (data_place_ok l Hl). rewrite file_block_place by done. intros Hz. by apply (fo_valid _ _ Hf).
Qed.

(** An inode without pointers has no blocks. *)
Lemma empty_block d node p : direct_ptr node = replicate DIRECT_BLOCK_NUM 0 →
  indirect_ptr node = 0 → double_indirect_ptr node = 0 → block_at d node p = 0.
Proof.
  intros Hd Hi Hdo. induction p as [k| | |q IH k]; [|done|done|by simpl; rewrite IH]. simpl. rewrite Hd, nth_lookup.
  destruct (replicate DIRECT_BLOCK_NUM 0 !! k) as [y|] eqn:E; [|done]. by apply lookup_replicate in E as [-> _].
Qed.

(** Between [d] and [d'] nothing happens to the blocks of other files, to other
    inodes, or to a place of the file that has a block. *)
Record kept n d node d' node' : Prop := {
  kp_map : maps d';
  kp_heads : heads d' = heads d;
  kp_bits c : 0 ≤ c < FS_BLOCK_NUM → bit d c = true → bit d' c = true;
  kp_others c : valid_block c → bit d c = true → (∀ p, place_ok p → block_at d node p ≠ c) →
    block_bytes d' c = block_bytes d c;
  kp_inodes m : 0 ≤ m < NUM_INODES → m ≠ n → inode_at d' m = inode_at d m;
  kp_blocks p : place_ok p → block_at d node p ≠ 0 → block_at d' node' p = block_at d node p;
  kp_inode : inode_ok node';
  kp_meta : i_mode node' = i_mode node ∧ i_type node' = i_type node
}.

(** The places that have become full hold blocks that were free. *)
Record extends n d node d' node' : Prop := {
  ex_kept : kept n d node d' node';
  ex_ok : file_ok d' node';
  ex_fresh p : place_ok p → block_at d node p = 0 → block_at d' node' p ≠ 0 → bit d (block_at d' node' p) = false
}.

Definition data_kept d node d' : Prop :=
  ∀ p, place_ok p → is_index p = false → block_at d node p ≠ 0 →
  block_bytes d' (block_at d node p) = block_bytes d (block_at d node p).

Lemma extends_refl n d node : maps d → file_ok d node → extends n d node d node.
Proof. intros Hm Hf. split; [split; try done|done|by intros]. apply Hf. Qed.

Lemma kept_trans n d0 node0 d1 node1 d2 node2 :
  extends n d0 node0 d1 node1 → kept n d1 node1 d2 node2 → kept n d0 node0 d2 node2.
Proof.
  intros [[Hm Him Hb Ho Hi Hk Hin Hme] Hf Hx] [Hm' Him' Hb' Ho' Hi' Hk' Hin' Hme']. split; try done.
  - congruence.
  - intros c Hr Hc. by apply Hb', Hb.
  - intros c Hv Hc Hown. rewrite Ho'; [by apply Ho|done| |].
    + apply Hb; [unfold valid_block in Hv; lia|done].
    + intros p Hp E. destruct (decide (block_at d0 node0 p = 0)) as [Ez|Hne].
      * rewrite <- E in Hc. rewrite Hx in Hc; [done|done|done|]. rewrite E. unfold valid_block in Hv. lia.
      * apply (Hown p Hp). by rewrite <- Hk.
  - intros m Hr Hne. rewrite Hi' by done. by apply Hi.
  - intros p Hp Hne. rewrite Hk'; [by apply Hk|done|]. by rewrite Hk.
  - destruct Hme as [? ?], Hme' as [-> ->]. done.
Qed.
Lemma extends_trans n d0 node0 d1 node1 d2 node2 :
  extends n d0 node0 d1 node1 → extends n d1 node1 d2 node2 → extends n d0 node0 d2 node2.
Proof.
  intros H1 [Hk Hf Hx]. split; [by eapply kept_trans|done|]. destruct H1 as [Hk1 Hf1 Hx1].
  intros p Hp Hz Hne. destruct (decide (block_at d1 node1 p = 0)) as [E|E].
  - destruct (bit d0 (block_at d2 node2 p)) eqn:Eb; [|done]. rewrite <- (Hx p Hp E Hne). symmetry.
    apply (kp_bits _ _ _ _ _ Hk1); [|done]. destruct (fo_valid _ _ Hf p Hp Hne) as [Hv _]. unfold valid_block in Hv. lia.
  - rewrite (kp_blocks _ _ _ _ _ Hk p Hp E) in Hne |- *. by apply Hx1.
Qed.

Lemma data_kept_trans n d node d1 node1 d2 :
  kept n d node d1 node1 → data_kept d node d1 → data_kept d1 node1 d2 → data_kept d node d2.
Proof.
  intros Hk H1 H2 p Hp Hi Hne. rewrite <- (H1 p Hp Hi Hne), <- (kp_blocks _ _ _ _ _ Hk p Hp Hne).
  apply H2; try done. by rewrite (kp_blocks _ _ _ _ _ Hk p Hp Hne).
Qed.

(** ** Filling an empty place *)

(** The index block that holds the pointer of a place; 0 for the inode's. *)
Definition holder d node p : Z := match p with Entry q _ => block_at d node q | _ => 0 end.

(** The empty place [p] of the file gets the free block [b], which is zeroed if
    it is to be an index block. *)
Record grew n d node d' node' p b : Prop := {
  gw_valid : valid_block b;
  gw_clear : bit d b = false;
  gw_map : maps d';
  gw_heads : heads d' = heads d;
  gw_bits c : 0 ≤ c < FS_BLOCK_NUM → bit d' c = if decide (c = b) then true else bit d c;
  gw_inodes m : 0 ≤ m < NUM_INODES → m ≠ n → inode_at d' m = inode_at d m;
  gw_bytes c : valid_block c → c ≠ b → c ≠ holder d node p → block_bytes d' c = block_bytes d c;
  gw_zero k : is_index p = true → (k < INDIRECT_BLOCK_NUM)%nat → index_word d' b k = 0;
  gw_root r : is_root r = true → block_at d' node' r = if decide (r = p) then b else block_at d node r;
  gw_parent q k : p = Entry q k → block_at d node q ≠ 0 ∧ ∀ j, (j < INDIRECT_BLOCK_NUM)%nat →
    index_word d' (block_at d node q) j = if decide (j = k) then b else index_word d (block_at d node q) j;
  gw_inode : inode_ok node';
  gw_meta : i_mode node' = i_mode node ∧ i_type node' = i_type node
}.

Lemma grew_block n d node d' node' p b q :
  grew n d node d' node' p b → file_ok d node → place_ok p → block_at d node p = 0 → place_ok q →
  block_at d' node' q = if decide (q = p) then b else block_at d node q.
Proof.
  intros Hg Hf Hp Hz. pose proof (gw_valid _ _ _ _ _ _ _ Hg) as Hvb. unfold valid_block in Hvb.
  induction q as [k| | |q IH k]; [intros; by rewrite (gw_root _ _ _ _ _ _ _ Hg)..|].
  intros Hok. pose proof Hok as (Hi & Hq & Hk). simpl. rewrite IH by done. destruct (decide (q = p)) as [->|Hne].
  - rewrite (proj2 (Z.eqb_neq _ _)) by lia. rewrite (gw_zero _ _ _ _ _ _ _ Hg) by done. rewrite Hz. simpl.
    rewrite decide_False; [done|]. intros E. by apply (f_equal place_depth) in E; simpl in E; lia.
  - destruct (Z.eqb_spec (block_at d node q) 0) as [E|Hnz].
    + rewrite decide_False; [done|]. intros <-. by destruct (gw_parent _ _ _ _ _ _ _ Hg q k eq_refl).
    + destruct (fo_valid _ _ Hf q Hq Hnz) as [Hv Hb].
      assert (block_at d node q ≠ b) as Hnb by (intros E; rewrite E, (gw_clear _ _ _ _ _ _ _ Hg) in Hb; done).
      destruct (decide (block_at d node q = holder d node p)) as [E|Hnp].
      * destruct p as [| | |q' k']; [done..|]. simpl in E.
        assert (q = q') as <- by by apply (fo_inj _ _ Hf); [..|apply Hp| |].
        destruct (gw_parent _ _ _ _ _ _ _ Hg q k' eq_refl) as [_ ->]; [|done].
        destruct (decide (k = k')) as [->|]; [by rewrite decide_True|by rewrite decide_False by congruence].
      * rewrite decide_False by (intros <-; done). unfold index_word. by rewrite (gw_bytes _ _ _ _ _ _ _ Hg).
Qed.

Lemma grew_extends n d node d' node' p b :
  grew n d node d' node' p b → maps d → file_ok d node → place_ok p → block_at d node p = 0 →
  extends n d node d' node' ∧ data_kept d node d' ∧ block_at d' node' p = b ∧ valid_block b.
Proof.
  intros Hg Hm Hf Hp Hz.
  assert (∀ q, place_ok q → block_at d' node' q = if decide (q = p) then b else block_at d node q) as Hat
    by (intros; by eapply grew_block).
  pose proof (gw_valid _ _ _ _ _ _ _ Hg) as Hvb. pose proof (gw_clear _ _ _ _ _ _ _ Hg) as Hcl.
  assert (∀ q, place_ok q → block_at d node q ≠ 0 → valid_block (block_at d node q) ∧ block_at d node q ≠ b ∧ q ≠ p) as Hold.
  { intros q Hq Hne. destruct (fo_valid _ _ Hf q Hq Hne) as [Hv Hb]. split; [done|]. split; [|by intros ->].
    intros E. rewrite E in Hb. congruence. }
  assert (holder d node p = 0 ∨ ∃ q, is_index q = true ∧ place_ok q ∧ holder d node p = block_at d node q) as Hpar.
  { destruct p as [| | |q k]; [by left..|]. right. exists q. by destruct Hp as (? & ? & _). }
  split; [split|split; [|split; [by rewrite Hat, decide_True|done]]].
  - split; try apply Hg.
    + intros c Hr Hc. rewrite (gw_bits _ _ _ _ _ _ _ Hg) by done. by case_decide.
    + intros c Hv Hc Hown. apply (gw_bytes _ _ _ _ _ _ _ Hg); [done|congruence|].
      destruct Hpar as [->|(q & _ & Hq & ->)]; [unfold valid_block in Hv; lia|]. by apply not_eq_sym, Hown.
    + intros q Hq Hne. rewrite Hat, decide_False; [done|by apply Hold|done].
  - split; [apply Hg| |].
    + intros q Hq. rewrite Hat by done. case_decide.
      * intros _. split; [done|]. rewrite (gw_bits _ _ _ _ _ _ _ Hg) by (unfold valid_block in Hvb; lia). by rewrite decide_True.
      * intros Hne. destruct (fo_valid _ _ Hf q Hq Hne) as [Hv Hb]. split; [done|].
        rewrite (gw_bits _ _ _ _ _ _ _ Hg) by (unfold valid_block in Hv; lia). by rewrite Hb, decide_False by (by apply Hold).
    + intros q q' Hq Hq'. rewrite !Hat by done. repeat case_decide; subst; [done| | |by apply (fo_inj _ _ Hf)].
      * intros Hne E. destruct (Hold q' Hq') as (_ & ? & _); [by rewrite <- E|]. congruence.
      * intros Hne E. by destruct (Hold q Hq Hne) as (_ & ? & _).
  - intros q Hq E. rewrite Hat by done. by case_decide.
  - intros q Hq Hi Hne. destruct (Hold q Hq Hne) as (Hv & Hnb & Hnp). apply (gw_bytes _ _ _ _ _ _ _ Hg); [done..|].
    destruct Hpar as [->|(q' & Hi' & Hq' & ->)]; [unfold valid_block in Hv; lia|].
    intros E. apply (fo_inj _ _ Hf) in E as ->; try done. congruence.
Qed.
Lemma block_at_set_ptr d node r r' b :
  length (direct_ptr node) = DIRECT_BLOCK_NUM → place_ok r → is_root r = true → is_root r' = true →
  block_at d (set_ptr r b node) r' = if decide (r' = r) then b else block_at d node r'.
Proof.
  intros Hl Hr Hroot Hroot'. destruct r as [k| | |], r' as [k'| | |]; try done. simpl in *.
  rewrite !nth_lookup. destruct (decide (k' = k)) as [->|Hne].
  - by rewrite list_lookup_insert_eq, decide_True by (done || lia).
  - rewrite list_lookup_insert_ne by done. rewrite decide_False; [done|congruence].
Qed.

Lemma set_ptr_inode_ok r b node : 0 ≤ b < 2 ^ 32 → inode_ok node → inode_ok (set_ptr r b node).
Proof.
  intros Hb [Hw Hd]. unfold inode_words in Hw. rewrite !Forall_app in Hw. destruct Hw as (Hw1 & Hw2 & Hw3).
  split; [unfold inode_words; rewrite !Forall_app|by destruct r; simpl; rewrite ?length_insert].
  apply Forall_cons in Hw3 as [H1 [H2 _]%Forall_cons].
  destruct r as [k| | |]; simpl; (split; [done|]); split; try done; try (by apply Forall_insert); 
    by repeat (apply Forall_cons_2 || apply Forall_nil_2).
Qed.

Lemma set_ptr_meta r b node :
  i_mode (set_ptr r b node) = i_mode node ∧ i_type (set_ptr r b node) = i_type node.
Proof. by destruct r. Qed.

Lemma set_ptr_size r b node : i_size (set_ptr r b node) = i_size node.
Proof. by destruct r. Qed.

Lemma valid_word b : valid_block b → 0 ≤ b < 2 ^ 32 ∧ b ≠ NEG1 ∧ b ≠ 0.
Proof. unfold valid_block. change FS_BLOCK_NUM with 131072. change NEG1 with 4294967295. lia. Qed.

(** A pointer of the inode is set, and the inode written. *)
Lemma grew_root n d d1 node r b :
  is_root r = true → place_ok r → inode_ok node → 0 ≤ n < NUM_INODES → fresh d d1 b (is_index r) →
  grew n d node (with_inode d1 n (set_ptr r b node)) (set_ptr r b node) r b.
Proof.
  intros Hr Hp Hn Hnr [Hv Hc Hm Him Hb Hi Hby Hz]. destruct (valid_word b Hv) as [Hw _].
  assert (inode_ok (set_ptr r b node)) as Hok' by by apply set_ptr_inode_ok.
  destruct (with_inode_map d1 n (set_ptr r b node) Hnr) as [Hb' Hm']. split; try done.
  - by apply Hm'.
  - by rewrite with_inode_heads.
  - intros c Hcr. rewrite Hb' by done. by apply Hb.
  - intros m Hmr Hne. rewrite with_inode_ne by done. by apply Hi.
  - intros c Hvc Hne _. rewrite with_inode_block by done. by apply Hby.
  - intros k Hx Hk. unfold index_word. rewrite with_inode_block by done. by apply Hz.
  - intros r' Hr'. rewrite (block_at_set_ptr _ node r r' b) by (done || apply Hn). case_decide; [done|]. by destruct r'.
  - intros q k ->. done.
  - apply set_ptr_meta.
Qed.

(** An entry of an index block is set, and the index block written. *)
Lemma grew_entry n d d1 node q k b :
  place_ok (Entry q k) → file_ok d node → block_at d node q ≠ 0 → 0 ≤ n < NUM_INODES →
  fresh d d1 b (is_index (Entry q k)) →
  let c := block_at d node q in
  grew n d node (with_block d1 c (set_word k b (block_bytes d c))) node (Entry q k) b.
Proof.
  intros (Hi & Hq & Hk) Hf Hne Hnr [Hv Hc Hm Him Hb Hin Hby Hz] c. destruct (valid_word b Hv) as [Hw _].
  destruct (fo_valid _ _ Hf q Hq Hne) as [Hvc Hbc]. fold c in Hvc, Hbc.
  assert (c ≠ b) as Hcb by (intros E; rewrite E in Hbc; congruence).
  assert (4 * k + 4 ≤ length (block_bytes d c))%nat as Hlen.
  { rewrite length_block. unfold BLOCK_LEN, INDIRECT_BLOCK_NUM in *. lia. }
  destruct (with_block_map d1 c (set_word k b (block_bytes d c)) Hvc) as [Hb' Hm']. split; try done.
  - by apply Hm'.
  - by rewrite with_block_heads.
  - intros x Hx. rewrite Hb' by done. by apply Hb.
  - intros m Hmr _. rewrite with_block_inode by done. by apply Hin.
  - intros x Hx Hxb Hxp. rewrite with_block_ne by done. by apply Hby.
  - intros j Hj Hjr. unfold index_word. rewrite with_block_ne by done. by apply Hz.
  - intros r Hr. rewrite decide_False by (by intros ->). by destruct r.
  - intros q' k' E. simplify_eq. split; [done|]. intros j Hj. unfold index_word. rewrite with_block_same.
    + rewrite word_set_word by done. case_decide; [|done]. by apply Z.mod_small.
    + by rewrite length_set_word, length_block.
  - apply Hf.
Qed.
End FsGrow.
