(* ===== verification/FsAlloc.v ===== *)
(** [get_physical_block_id] of FsDisk with [alloc]: the index blocks and the block
    that it makes on the way, as steps of FsGrow. *)
From S2P Require Import Prelude KMonad Bytes Swap FsDisk FsDir Fs FsFile FsGrow.

Section FsAlloc.
Context {D : Type} `{!BlockDevice SECTOR_LEN D}.
Implicit Types (s : fs_state (D := D)) (d : D) (node : inode_t) (b c l n : Z) (p q : place).

(** ** What a call of [get_physical_block_id] with [alloc] comes to *)

(** The block at the place [p], after up to [k] blocks were allocated, or -1 when
    the card has less than [k] free blocks and the map is full now. *)
Inductive found n s node p (k : nat) : inode_t * Z → fs_state → Prop :=
| found_block node' d' t b :
    length t = TEMP_BUF_LEN → extends n (fs_disk s) node d' node' → data_kept (fs_disk s) node d' →
    i_size node' = i_size node → (∀ m, room (fs_disk s) m → room d' (m - k)) →
    b = block_at d' node' p → valid_block b →
    found n s node p k (node', b) (upd_disk d' (upd_tbuf t s))
| found_full node' d' t :
    length t = TEMP_BUF_LEN → kept n (fs_disk s) node d' node' → data_kept (fs_disk s) node d' →
    i_size node' = i_size node → (∀ m, room (fs_disk s) m → (m < k)%nat) → full d' →
    found n s node p k (node', NEG1) (upd_disk d' (upd_tbuf t s)).

Lemma ready_step n s node d' node' t :
  ready s → kept n (fs_disk s) node d' node' → length t = TEMP_BUF_LEN → ready (upd_disk d' (upd_tbuf t s)).
Proof.
  intros Hr Hk Ht. apply ready_disk; [by apply ready_buf|apply Hk| |apply heads_sb, Hk].
  apply (kp_bits _ _ _ _ _ Hk); [done|]. apply Hr.
Qed.

(** A block that is there. *)
Lemma found_here n s node p k s' :
  ready s → file_ok (fs_disk s) node → place_ok p → block_at (fs_disk s) node p ≠ 0 → same_but_buf s s' →
  found n s node p k (node, block_at (fs_disk s) node p) s'.
Proof.
  intros Hr Hf Hp Hne (t & Ht & ->). replace (upd_tbuf t s) with (upd_disk (fs_disk s) (upd_tbuf t s)) by done.
  apply found_block; try done; [by rewrite Ht; apply Hr|apply extends_refl; [apply Hr|done]| |by apply (fo_valid _ _ Hf)].
  intros m Hm. eapply room_less; [done|lia].
Qed.

(** The pointers changed, but no block was taken. *)
Lemma found_none n s node node' p k t :
  ready s → length t = TEMP_BUF_LEN → full (fs_disk s) → (0 < k)%nat →
  kept n (fs_disk s) node (fs_disk s) node' → i_size node' = i_size node →
  found n s node p k (node', NEG1) (upd_tbuf t s).
Proof.
  intros Hr Ht Hf Hk Hkept Hsz. replace (upd_tbuf t s) with (upd_disk (fs_disk s) (upd_tbuf t s)) by done.
  apply found_full; try done. intros m Hm. by rewrite (room_full _ _ Hf Hm).
Qed.

Lemma found_grew n s node p b d' node' t :
  ready s → file_ok (fs_disk s) node → place_ok p → block_at (fs_disk s) node p = 0 →
  grew n (fs_disk s) node d' node' p b → i_size node' = i_size node → length t = TEMP_BUF_LEN →
  found n s node p 1 (node', b) (upd_disk d' (upd_tbuf t s)).
Proof.
  intros Hr Hf Hp Hz Hg Hsz Ht. destruct (grew_extends n (fs_disk s) node d' node' p b Hg (rd_maps _ Hr) Hf Hp Hz) as (Hx & Hk & Hat & Hv).
  apply found_block; try done. intros m Hm. replace (m - 1)%nat with (pred m) by lia.
  apply (room_step (fs_disk s) _ b m); [|done]. intros c Hc Hne. rewrite (gw_bits _ _ _ _ _ _ _ Hg) by done. by rewrite decide_False.
Qed.

Lemma found_more n s node p k k' r s' : (k ≤ k')%nat → found n s node p k r s' → found n s node p k' r s'.
Proof.
  intros Hk Hf. inversion Hf as [node' d' t b Ht Hx Hd Hsz Hr Hb Hv|node' d' t Ht Hx Hd Hsz Hr Hf']; subst.
  - apply found_block; try done. intros m Hm. eapply room_less; [by apply Hr|lia].
  - apply found_full; try done. intros m Hm. specialize (Hr m Hm). lia.
Qed.

Lemma found_then n s node node1 d1 t1 p k1 k2 r s' :
  extends n (fs_disk s) node d1 node1 → data_kept (fs_disk s) node d1 → i_size node1 = i_size node →
  (∀ m, room (fs_disk s) m → room d1 (m - k1)) →
  found n (upd_disk d1 (upd_tbuf t1 s)) node1 p k2 r s' → found n s node p (k1 + k2) r s'.
Proof.
  intros Hx Hk Hsz Hroom Hf. inversion Hf as [node2 d2 t2 b Ht2 Hx2 Hk2 Hsz2 Hr2 Hb2 Hv2|node2 d2 t2 Ht2 Hx2 Hk2 Hsz2 Hr2 Hf2]; subst;
    cbn [fs_disk upd_disk upd_tbuf] in *.
  - change (upd_disk d2 (upd_tbuf t2 (upd_disk d1 (upd_tbuf t1 s)))) with (upd_disk d2 (upd_tbuf t2 s)).
    apply found_block; try done.
    + by eapply extends_trans.
    + by eapply data_kept_trans; [apply Hx|..].
    + congruence.
    + intros m Hm. replace (m - (k1 + k2))%nat with (m - k1 - k2)%nat by lia. by apply Hr2, Hroom.
  - change (upd_disk d2 (upd_tbuf t2 (upd_disk d1 (upd_tbuf t1 s)))) with (upd_disk d2 (upd_tbuf t2 s)).
    apply found_full; try done.
    + by eapply kept_trans.
    + by eapply data_kept_trans; [apply Hx|..].
    + congruence.
    + intros m Hm. specialize (Hr2 _ (Hroom m Hm)). lia.
Qed.

(** Hanging -1 into the inode, as a failing call does, changes no place that has
    a block. *)
Lemma hang_full n d node r :
  maps d → inode_ok node → is_root r = true → place_ok r → block_at d node r = 0 →
  kept n d node d (set_ptr r NEG1 node).
Proof.
  intros Hm Hn Hr Hp Hz. split; try done.
  - intros p Hpp Hne. apply block_at_kept; [|done]. intros r' Hr' Hne'.
    rewrite block_at_set_ptr by (done || apply Hn). case_decide; [|done]. congruence.
  - by apply set_ptr_inode_ok.
  - apply set_ptr_meta.
Qed.

(** ** The functions that allocate *)

Lemma block_of_buf k v t bs : length t = TEMP_BUF_LEN → (k < INDIRECT_BLOCK_NUM)%nat →
  take BLOCK_LEN (drop 0 t) = bs → take BLOCK_LEN (drop 0 (set_word k v t)) = set_word k v bs.
Proof.
  intros Ht Hk <-. pose proof buf_room as Hroom.
  assert (4 * k + 4 ≤ BLOCK_LEN)%nat as Hfit by (unfold BLOCK_LEN, INDIRECT_BLOCK_NUM in *; lia).
  assert (length (take BLOCK_LEN (drop 0 t)) = BLOCK_LEN) as Hl by (rewrite length_take, length_drop; lia).
  apply slice_eq; [by rewrite length_set_word; rewrite Hl|]. intros i Hi. simpl Nat.add. unfold set_word.
  rewrite !splice_lookup by (rewrite length_bytes_of, ?Hl; lia). case_decide; [done|].
  by rewrite lookup_take_lt, lookup_drop by done.
Qed.

Lemma read_block_buf d c t : length t = TEMP_BUF_LEN →
  take BLOCK_LEN (drop 0 (splice 0 (block_bytes d c) t)) = block_bytes d c.
Proof. intros Ht. pose proof buf_room. apply slice_splice_same; rewrite length_block; [lia|done]. Qed.

(** There is room for two blocks in the buffer. *)
Lemma buf_room2 : (BLOCK_LEN + length (replicate BLOCK_LEN 0) ≤ TEMP_BUF_LEN)%nat.
Proof. rewrite length_replicate. apply Nat.leb_le. by vm_compute. Qed.

(** The buffer in which the second index block was zeroed, behind the first. *)
Lemma level2_buf i b t bs : length t = TEMP_BUF_LEN → (i < INDIRECT_BLOCK_NUM)%nat → 0 ≤ b < 2 ^ 32 →
  take BLOCK_LEN (drop 0 t) = bs →
  let t1 := splice BLOCK_LEN (replicate BLOCK_LEN 0) t in
  take BLOCK_LEN (drop BLOCK_LEN t1) = replicate BLOCK_LEN 0 ∧ length (set_word i b t1) = TEMP_BUF_LEN ∧
  word (set_word i b t1) i = b ∧ take BLOCK_LEN (drop 0 (set_word i b t1)) = set_word i b bs.
Proof.
  intros Ht Hi Hb Hbs t1. pose proof buf_room as Hroom. pose proof buf_room2 as Hroom2.
  assert (length t1 = TEMP_BUF_LEN) as Hl1 by (unfold t1; rewrite length_splice; rewrite Ht; [reflexivity|exact Hroom2]).
  assert (4 * i + 4 ≤ length t1)%nat as Hfit by (rewrite Hl1; unfold BLOCK_LEN, INDIRECT_BLOCK_NUM in *; lia).
  split; [|split; [by rewrite length_set_word|split]].
  - apply slice_splice_same; [rewrite Ht; exact Hroom2|by rewrite length_replicate].
  - by rewrite word_set_word, decide_True, Z.mod_small.
  - apply block_of_buf; [done|done|]. rewrite <- Hbs.
    apply slice_splice_other; [rewrite Ht; exact Hroom2|left; lia].
Qed.

Section Calls.
Context (n : Z) (Hn : 0 ≤ n < NUM_INODES).

Lemma new_index_grows node p s :
  ready s → file_ok (fs_disk s) node → is_root p = true → is_index p = true → place_ok p →
  block_at (fs_disk s) node p = 0 →
  wp (new_index n node (set_ptr p)) s (found n s node p 1).
Proof.
  intros Hr Hf Hroot Hi Hp Hz. unfold new_index. rewrite wp_bind. eapply wp_mono; [by apply alloc_block_ok|].
  intros b s1 [(-> & -> & Hfull)|(d1 & -> & Hfr)].
  - rewrite Z.eqb_refl, wp_ret. replace s with (upd_tbuf (tbuf s) s) at 2 by by destruct s.
    apply found_none; try done; [apply Hr|lia| |apply set_ptr_size]. apply hang_full; try done; [apply Hr|apply Hf].
  - destruct (valid_word b (fr_valid _ _ _ _ Hfr)) as (_ & Hb & _). rewrite (proj2 (Z.eqb_neq _ _)) by done.
    unfold buf_set, write_block, buf_get, write_sectors. rewrite wp_bind, wp_modify, wp_bind, wp_bind, wp_gets, wp_modify.
    cbn [tbuf fs_disk upd_tbuf upd_disk]. pose proof buf_room.
    rewrite slice_splice_same by (rewrite ?length_replicate, ?(rd_buf _ Hr); done || lia).
    rewrite wp_bind, (wp_ok _ _ _ _ _ (write_inode_ok _ _ _)), wp_ret. cbn [fs_disk upd_tbuf upd_disk].
    set (t := splice 0 _ _).
    change (upd_disk _ (upd_disk _ (upd_tbuf t (upd_disk d1 s)))) with
      (upd_disk (with_inode (with_block d1 b (replicate BLOCK_LEN 0)) n (set_ptr p b node)) (upd_tbuf t s)).
    apply found_grew; try done; [|apply set_ptr_size|].
    + apply grew_root; try done; [apply Hf|]. rewrite Hi. by apply zero_fresh.
    + unfold t. rewrite length_splice; [apply Hr|]. rewrite length_replicate, (rd_buf _ Hr). lia.
Qed.
(** An entry of an index block, found or made. *)
Lemma index_lookup_grows node q k s :
  ready s → file_ok (fs_disk s) node → place_ok (Entry q k) → is_index (Entry q k) = false →
  block_at (fs_disk s) node q ≠ 0 →
  wp (index_lookup node (block_at (fs_disk s) node q) k true) s (found n s node (Entry q k) 1).
Proof.
  intros Hr Hf Hp Hd Hq. set (c := block_at (fs_disk s) node q) in *. pose proof (rd_buf _ Hr) as Hl.
  pose proof Hp as (_ & _ & Hk). change INDIRECT_BLOCK_NUM with 1024%nat in Hk.
  assert (block_at (fs_disk s) node (Entry q k) = index_word (fs_disk s) c k) as Hat.
  { simpl. fold c. by rewrite (proj2 (Z.eqb_neq _ _)). }
  destruct (decide (index_word (fs_disk s) c k = 0)) as [Hz|Hne].
  2:{ destruct (index_lookup_ok node c k true s Hl Hk ltac:(by right)) as (s' & Hs' & Hsame).
      rewrite (wp_ok _ _ _ _ _ Hs'). rewrite <- Hat in Hne |- *. by apply found_here. }
  destruct (read_block_ok c s Hl) as [Hrd Hl']. unfold index_lookup. rewrite wp_bind, (wp_ok _ _ _ _ _ Hrd).
  set (t := splice 0 (block_bytes (fs_disk s) c) (tbuf s)) in *. unfold index_entry, buf_word.
  rewrite wp_bind, wp_bind, wp_gets. cbn [tbuf upd_tbuf]. assert (word t k = 0) as -> by (unfold t; by rewrite word_block).
  cbn [Z.eqb andb]. rewrite wp_bind. pose proof buf_room.
  assert (4 * k + 4 ≤ length t)%nat as Hfit by (unfold BLOCK_LEN in *; lia).
  eapply wp_mono; [by apply alloc_block_ok, ready_buf|].
  cbn [fs_disk upd_tbuf]. intros b s1 Hb. unfold buf_set_word. rewrite wp_bind, wp_modify, wp_bind, wp_gets.
  destruct Hb as [(-> & -> & Hfull)|(d1 & -> & Hfr)]; cbn [tbuf upd_tbuf upd_disk]; rewrite word_set_word, decide_True by done.
  - change (NEG1 mod 2 ^ 32) with NEG1. rewrite Z.eqb_refl, wp_ret, wp_ret.
    change (upd_tbuf ?x (upd_tbuf t s)) with (upd_tbuf x s). apply found_none; try done; [by rewrite length_set_word|lia|].
    by apply extends_refl; [apply Hr|].
  - destruct (valid_word b (fr_valid _ _ _ _ Hfr)) as (Hw & Hb & _). rewrite Z.mod_small by done.
    rewrite (proj2 (Z.eqb_neq _ _)) by done. unfold write_block, buf_get, write_sectors.
    rewrite wp_bind, wp_bind, wp_gets, wp_modify, wp_gets. cbn [tbuf fs_disk upd_tbuf upd_disk].
    rewrite word_set_word, decide_True, Z.mod_small, wp_ret by done. rewrite (block_of_buf k b t (block_bytes (fs_disk s) c)) by (done || by apply read_block_buf).
    change (upd_disk _ _) with (upd_disk (with_block d1 c (set_word k b (block_bytes (fs_disk s) c))) (upd_tbuf (set_word k b t) s)).
    apply found_grew; try done; [by rewrite Hat| |by rewrite length_set_word].
    apply grew_entry; try done. by rewrite Hd.
Qed.
(** The second index block is made if it is missing, and then the block. *)
Lemma index_lookup2_grows node i j s :
  ready s → file_ok (fs_disk s) node → (i < INDIRECT_BLOCK_NUM)%nat → (j < INDIRECT_BLOCK_NUM)%nat →
  block_at (fs_disk s) node Double ≠ 0 →
  wp (index_lookup2 node (block_at (fs_disk s) node Double) i j true) s (found n s node (Entry (Entry Double i) j) 2).
Proof.
  intros Hr Hf Hi Hj Hq. set (c := block_at (fs_disk s) node Double) in *. pose proof (rd_buf _ Hr) as Hl.
  assert (block_at (fs_disk s) node (Entry Double i) = index_word (fs_disk s) c i) as Hat.
  { change (block_at _ _ (Entry Double i)) with (if c =? 0 then 0 else index_word (fs_disk s) c i). by rewrite (proj2 (Z.eqb_neq _ _)). }
  assert (place_ok (Entry Double i) ∧ place_ok (Entry (Entry Double i) j)) as [Hp1 Hp2] by done.
  destruct (read_block_ok c s Hl) as [Hrd Hl']. unfold index_lookup2, buf_word. cbv zeta. rewrite wp_bind, (wp_ok _ _ _ _ _ Hrd).
  set (t := splice 0 (block_bytes (fs_disk s) c) (tbuf s)) in *. rewrite wp_bind, wp_gets. cbn [tbuf upd_tbuf].
  assert (word t i = index_word (fs_disk s) c i) as Ew by by (apply word_block).
  rewrite Ew. destruct (Z.eqb_spec (index_word (fs_disk s) c i) 0) as [Hz|Hne].
  - cbn [negb]. rewrite wp_bind. eapply wp_mono; [by apply alloc_block_ok, ready_buf|]. cbn [fs_disk upd_tbuf].
    intros b s1 [(-> & -> & Hfull)|(d1 & -> & Hfr)].
    + rewrite Z.eqb_refl, wp_ret. apply found_none; try done; [lia|]. by apply extends_refl; [apply Hr|].
    + destruct (valid_word b (fr_valid _ _ _ _ Hfr)) as (Hw & Hb & Hb0). rewrite (proj2 (Z.eqb_neq _ _)) by done.
      set (zeros := replicate BLOCK_LEN 0). set (t1 := set_word i b (splice BLOCK_LEN zeros t)).
      destruct (level2_buf i b t (block_bytes (fs_disk s) c)) as (E1 & Hl1 & E2 & E3); [done|done|done|by apply read_block_buf|].
      fold zeros in E1, E2, E3, Hl1. fold t1 in E2, E3, Hl1.
      unfold buf_set, buf_set_word, write_block, buf_get, write_sectors.
      rewrite wp_bind, wp_modify, wp_bind, wp_bind, wp_gets, wp_modify, wp_bind, wp_modify, wp_bind, wp_bind, wp_gets, wp_modify.
      rewrite wp_bind, wp_gets. cbn [tbuf fs_disk upd_tbuf upd_disk]. fold zeros. fold t1. rewrite E1, E2, E3.
      change (upd_disk _ _) with (upd_disk (with_block (with_block d1 b zeros) c (set_word i b (block_bytes (fs_disk s) c))) (upd_tbuf t1 s)).
      set (d2 := with_block (with_block d1 b zeros) c _).
      assert (grew n (fs_disk s) node d2 node (Entry Double i) b) as Hg.
      { apply grew_entry; try done. by apply zero_fresh. }
      destruct (grew_extends n (fs_disk s) node d2 node (Entry Double i) b) as (Hx & Hk & Hb2 & _); try done; [apply Hr|by rewrite Hat|].
      assert (ready (upd_disk d2 (upd_tbuf t1 s))) as Hr2 by (eapply ready_step; [done|apply Hx|done]).
      rewrite <- Hb2 at 1. eapply wp_mono; [apply (index_lookup_grows node (Entry Double i) j (upd_disk d2 (upd_tbuf t1 s))); try done|].
      * apply Hx.
      * cbn [fs_disk upd_disk]. by rewrite Hb2.
      * intros r s' Hfound. change 2%nat with (1 + 1)%nat. eapply (found_then n s node node d2 t1); try done.
        intros m Hm. replace (m - 1)%nat with (pred m) by lia.
        apply (room_step (fs_disk s) _ b m); [|done]. intros x Hx' Hne. rewrite (gw_bits _ _ _ _ _ _ _ Hg) by done. by rewrite decide_False.
  - rewrite wp_bind, wp_gets. cbn [tbuf upd_tbuf]. rewrite Ew. rewrite <- Hat in Hne |- *.
    eapply wp_mono; [apply (index_lookup_grows node (Entry Double i) j (upd_tbuf t s)); try done; by apply ready_buf|].
    intros r s' Hfound. change 2%nat with (0 + 2)%nat.
    eapply (found_then n s node node (fs_disk s) t); [apply extends_refl; [apply Hr|done]|done|done| |].
    + intros m Hm. eapply room_less; [done|lia].
    + apply (found_more n _ node _ 1); [lia|exact Hfound].
Qed.
(** The pointer of the inode to an index block, made if it is missing. *)
Lemma with_index_grows node p (go : inode_t → Z → M fs_state (inode_t * Z)) q k s :
  ready s → file_ok (fs_disk s) node → is_root p = true → is_index p = true → place_ok p →
  (∀ node1 s1, ready s1 → file_ok (fs_disk s1) node1 → block_at (fs_disk s1) node1 p ≠ 0 →
     wp (go node1 (block_at (fs_disk s1) node1 p)) s1 (found n s1 node1 q k)) →
  wp (with_index node n (block_at (fs_disk s) node p) (set_ptr p) true go) s (found n s node q (1 + k)).
Proof.
  intros Hr Hf Hroot Hi Hp Hgo. unfold with_index. destruct (Z.eqb_spec (block_at (fs_disk s) node p) 0) as [Hz|Hne].
  - cbn [negb]. rewrite wp_bind. eapply wp_mono; [by apply new_index_grows|].
    intros r s1 Hfound. inversion Hfound as [node1 d1 t1 b Ht Hx Hd Hsz Hroom Hb Hv|node1 d1 t1 Ht Hk Hd Hsz Hroom Hfull]; subst r s1; cbn [fst snd].
    + destruct (valid_word b Hv) as (_ & Hb1 & Hb0). rewrite (proj2 (Z.eqb_neq _ _)) by done. rewrite Hb.
      eapply wp_mono; [apply (Hgo node1 (upd_disk d1 (upd_tbuf t1 s)))|].
      * eapply ready_step; [done|apply Hx|done].
      * apply Hx.
      * cbn [fs_disk upd_disk]. by rewrite <- Hb.
      * intros r s2 Hf2. by eapply found_then.
    + rewrite Z.eqb_refl, wp_ret. apply (found_more n _ node _ 1); [lia|]. by apply found_full.
  - eapply wp_mono; [by apply Hgo|]. intros r s2 Hf2. by apply (found_more n _ node _ k); [lia|].
Qed.

Lemma direct_grows node k s :
  ready s → file_ok (fs_disk s) node → (k < DIRECT_BLOCK_NUM)%nat → block_at (fs_disk s) node (Direct k) = 0 →
  wp (b ← alloc_block;
      let node := set_direct k b node in
      if b =? NEG1 then mret (node, NEG1) else
      write_inode n node;;
      mret (node, b)) s (found n s node (Direct k) 1).
Proof.
  intros Hr Hf Hk Hz. rewrite wp_bind. eapply wp_mono; [by apply alloc_block_ok|].
  intros b s1 [(-> & -> & Hfull)|(d1 & -> & Hfr)]; cbv zeta.
  - rewrite Z.eqb_refl, wp_ret. replace s with (upd_tbuf (tbuf s) s) at 2 by by destruct s.
    apply (found_none n s node (set_ptr (Direct k) NEG1 node)); try done; [apply Hr|lia|].
    apply hang_full; try done; [apply Hr|apply Hf].
  - destruct (valid_word b (fr_valid _ _ _ _ Hfr)) as (_ & Hb & _). rewrite (proj2 (Z.eqb_neq _ _)) by done.
    rewrite wp_bind, (wp_ok _ _ _ _ _ (write_inode_ok _ _ _)), wp_ret. cbn [fs_disk upd_disk].
    replace (upd_disk _ (upd_disk d1 s)) with (upd_disk (with_inode d1 n (set_direct k b node)) (upd_tbuf (tbuf s) s)) by by destruct s.
    apply (found_grew n s node (Direct k) b _ (set_ptr (Direct k) b node)); try done; [|apply Hr].
    apply (grew_root n (fs_disk s) d1 node (Direct k) b); try done. apply Hf.
Qed.

(** [get_physical_block_id] with [alloc] finds or makes every block that the
    index reaches. *)
Lemma get_physical_grows node l s :
  ready s → file_ok (fs_disk s) node → 0 ≤ l < MAX_BLOCKS →
  wp (get_physical_block_id node n l true) s (found n s node (data_place l) 3).
Proof.
  intros Hr Hf Hl. pose proof (data_place_ok l Hl) as [Hp Hd]. unfold get_physical_block_id, data_place in *.
  change (Z.of_nat DIRECT_BLOCK_NUM) with 10. change (Z.of_nat INDIRECT_BLOCK_NUM) with 1024.
  change DOUBLE_INDIRECT_BLOCK_NUM with 1048576. unfold MAX_BLOCKS in Hl.
  replace (l - 10 <? 1024) with (l <? 1034) by (destruct (Z.ltb_spec l 1034), (Z.ltb_spec (l - 10) 1024); done || lia).
  replace (l - 10 - 1024) with (l - 1034) by lia. rewrite (proj2 (Z.ltb_lt (l - 1034) _)) by lia.
  destruct (l <? 10); [|destruct (l <? 1034)].
  - destruct (lookup_lt_is_Some_2 (direct_ptr node) (Z.to_nat l)) as [b Hb]; [by rewrite (io_direct _ (fo_inode _ _ Hf))|].
    assert (block_at (fs_disk s) node (Direct (Z.to_nat l)) = b) as Hat by (simpl; by apply nth_lookup_Some).
    cbv zeta. rewrite wp_bind, (wp_of_opt_Some _ _ _ _ Hb). destruct (Z.eqb_spec b 0) as [E|Hne]; cbn [andb].
    + eapply wp_mono; [apply direct_grows; try done; by rewrite Hat|]. intros r s' Hf'. eapply found_more; [|done]. lia.
    + rewrite wp_ret. rewrite <- Hat in Hne |- *. apply found_here; try done. apply same_but_buf_refl.
  - destruct Hp as (_ & _ & Hk). eapply wp_mono; [apply (with_index_grows node Indirect _ (Entry Indirect (Z.to_nat (l - 10))) 1); try done|].
    + intros node1 s1 Hr1 Hf1 Hne. by apply index_lookup_grows.
    + intros r s' Hf'. eapply found_more; [|done]. lia.
  - destruct Hp as (_ & (_ & _ & Hk1) & Hk2). apply (with_index_grows node Double); try done.
    intros node1 s1 Hr1 Hf1 Hne. by apply index_lookup2_grows.
Qed.
End Calls.
End FsAlloc.
