(* ===== verification/FsWrite.v ===== *)
(** [do_write] of Fs on files that grow: every block that the bytes need is
    allocated on the way, until the card is full. *)
From S2P Require Import Prelude KMonad Bytes Swap FsDisk FsDir Fs FsFile FsGrow FsAlloc.

Section FsWrite.
Context {D : Type} `{!BlockDevice SECTOR_LEN D}.
Implicit Types (s : fs_state (D := D)) (d : D) (node inode : inode_t) (b l x : Z).
Context (n : Z) (Hn : 0 ≤ n < NUM_INODES).

(** ** Small steps of a file that [kept] and [extends] allow *)

Lemma block_of_byte x : 0 ≤ x < 2 ^ 32 → 0 ≤ x / BLOCK_SIZE < MAX_BLOCKS.
Proof. change (2 ^ 32) with 4294967296. unfold BLOCK_SIZE, MAX_BLOCKS. intros Hx. Z.to_euclidean_division_equations; lia. Qed.

Lemma kept_size d node d1 node1 z : 0 ≤ z < 2 ^ 32 → kept n d node d1 node1 → kept n d node d1 (set_size z node1).
Proof.
  intros Hz [Hm Him Hb Ho Hi Hk Hin Hme]. split; try done; [|by apply inode_ok_size].
  intros p Hp Hne. rewrite block_at_size. by apply Hk.
Qed.

Lemma extends_size d node d1 node1 z : 0 ≤ z < 2 ^ 32 → extends n d node d1 node1 → extends n d node d1 (set_size z node1).
Proof.
  intros Hz [Hk [Hi Hv Hj] Hx]. split; [by apply kept_size| |].
  - split; [by apply inode_ok_size| |].
    + intros p. rewrite block_at_size. apply Hv.
    + intros p q. rewrite !block_at_size. apply Hj.
  - intros p. rewrite block_at_size. apply Hx.
Qed.

Lemma inode_ok_size_range node : inode_ok node → 0 ≤ i_size node < 2 ^ 32.
Proof.
  intros [Hw _]. unfold inode_words in Hw. simpl in Hw. by do 3 (apply Forall_cons in Hw as [? Hw]).
Qed.

Lemma inode_ok_nlinks_range node : inode_ok node → 0 ≤ nlinks node < 2 ^ 32.
Proof.
  intros [Hw _]. unfold inode_words in Hw. simpl in Hw. by do 4 (apply Forall_cons in Hw as [? Hw]).
Qed.

Lemma inode_ok_nlinks node z : inode_ok node → 0 ≤ z < 2 ^ 32 → inode_ok (set_nlinks z node).
Proof.
  intros [Hw Hd] Hz. split; [|done]. unfold inode_words in *. simpl in *.
  repeat (apply Forall_cons in Hw as [? Hw]; apply Forall_cons; split; [done|]). done.
Qed.

Lemma extends_nlinks d node d1 node1 z : 0 ≤ z < 2 ^ 32 → extends n d node d1 node1 → extends n d node d1 (set_nlinks z node1).
Proof.
  intros Hz [[Hm Him Hb Ho Hi Hk Hin Hme] [Hi' Hv Hj] Hx]. split; [split|split|]; try done.
  - intros p Hp Hne. rewrite block_at_nlinks. by apply Hk.
  - by apply inode_ok_nlinks.
  - by apply inode_ok_nlinks.
  - intros p. rewrite block_at_nlinks. apply Hv.
  - intros p q. rewrite !block_at_nlinks. apply Hj.
  - intros p. rewrite block_at_nlinks. apply Hx.
Qed.

(** The contents of a data block change. *)
Lemma with_block_extends d node l bs :
  maps d → file_ok d node → 0 ≤ l < MAX_BLOCKS → let b := file_block d node l in b ≠ 0 →
  extends n d node (with_block d b bs) node ∧ ∀ p, place_ok p → block_at (with_block d b bs) node p = block_at d node p.
Proof.
  intros Hm Hf Hl b Hb. destruct (data_place_ok l Hl) as [Hp Hd]. unfold b in *. rewrite (file_block_place d node l Hl) in Hb |- *.
  set (c := block_at d node (data_place l)) in *. destruct (fo_valid _ _ Hf _ Hp Hb) as [Hv Hc]. fold c in Hv, Hc.
  destruct (with_block_map d c bs Hv) as [Hbits Hmaps].
  assert (∀ p, place_ok p → block_at (with_block d c bs) node p = block_at d node p) as Hat.
  { intros p. apply block_at_eq; [by intros []|]. intros q Hi Hq Hne k Hk. unfold index_word.
    rewrite with_block_ne; [done|done|by apply (fo_valid _ _ Hf)|]. intros E. symmetry in E.
    apply (fo_inj _ _ Hf) in E as ->; try done. congruence. }
  split; [|done]. split; [split; try done| |].
  - by apply Hmaps.
  - by apply with_block_heads.
  - intros x Hx. by rewrite Hbits.
  - intros x Hx _ Hown. apply with_block_ne; [done|done|]. intros <-. by apply (Hown (data_place l)).
  - intros m Hmr _. by apply with_block_inode.
  - intros p Hpp _. by apply Hat.
  - apply Hf.
  - split; [apply Hf| |].
    + intros p Hpp. rewrite Hat by done. intros Hne. destruct (fo_valid _ _ Hf p Hpp Hne) as [Hv' Hb'].
      split; [done|]. rewrite Hbits; [done|]. unfold valid_block in Hv'. lia.
    + intros p q Hpp Hq. rewrite !Hat by done. by apply (fo_inj _ _ Hf).
  - intros p Hpp E. rewrite Hat by done. done.
Qed.

(** The inode is written. *)
Lemma kept_write_inode d node d1 node1 :
  file_ok d node → kept n d node d1 node1 → kept n d node (with_inode d1 n node1) node1.
Proof.
  intros Hf [Hm Him Hb Ho Hi Hk Hin Hme]. destruct (with_inode_map d1 n node1 Hn) as [Hbits Hmaps]. split; try done.
  - by apply Hmaps.
  - by rewrite with_inode_heads.
  - intros c Hc E. rewrite Hbits by done. by apply Hb.
  - intros c Hc E Hown. rewrite with_inode_block by done. by apply Ho.
  - intros m Hmr Hne. rewrite with_inode_ne by done. by apply Hi.
  - intros p. induction p as [k| | |q IH k]; intros Hp Hne; [by apply Hk in Hne..|].
    pose proof (Hk _ Hp Hne) as Ek. destruct Hp as (Hx & Hq & Hk'). simpl in Hne, Ek |- *.
    destruct (Z.eqb_spec (block_at d node q) 0) as [|Hqne]; [done|].
    rewrite IH by done. rewrite (Hk q Hq Hqne) in Ek. rewrite (proj2 (Z.eqb_neq _ _)) in Ek |- * by done.
    rewrite <- Ek. unfold index_word. rewrite with_inode_block; [done|by apply (fo_valid _ _ Hf)|done].
Qed.
Lemma write_inode_block d node p : file_ok d node → place_ok p → block_at (with_inode d n node) node p = block_at d node p.
Proof.
  intros Hf. apply block_at_eq; [by intros []|]. intros q Hi Hq Hne k Hk. unfold index_word.
  rewrite with_inode_block; [done|by apply (fo_valid _ _ Hf)|done].
Qed.

Lemma write_inode_extends d node : maps d → file_ok d node → extends n d node (with_inode d n node) node.
Proof.
  intros Hm Hf. destruct (with_inode_map d n node Hn) as [Hbits Hmaps].
  assert (∀ p, place_ok p → block_at (with_inode d n node) node p = block_at d node p) as Hat by (intros; by apply write_inode_block).
  split; [apply kept_write_inode; [done|]; by apply extends_refl| |].
  - split; [apply Hf| |].
    + intros p Hp. rewrite Hat by done. intros Hne. destruct (fo_valid _ _ Hf p Hp Hne) as [Hv Hb]. split; [done|].
      rewrite Hbits; [done|]. unfold valid_block in Hv. lia.
    + intros p q Hp Hq. rewrite !Hat by done. by apply (fo_inj _ _ Hf).
  - intros p Hp E. rewrite Hat by done. done.
Qed.

(** ** The bytes of the file *)

(** The file has the [w] first bytes of [data] from [p] on, and elsewhere, in the
    blocks that it had, its old bytes. *)
Record contents d node d' node' (p : Z) (w : nat) (data : list Z) : Prop := {
  ct_in x : p ≤ x < p + Z.of_nat w →
    file_block d' node' (x / BLOCK_SIZE) ≠ 0 ∧ file_byte d' node' x = nth (Z.to_nat (x - p)) data 0;
  ct_out x : 0 ≤ x < 2 ^ 32 → ¬ (p ≤ x < p + Z.of_nat w) → file_block d node (x / BLOCK_SIZE) ≠ 0 →
    file_byte d' node' x = file_byte d node x
}.

Lemma kept_block d node d' node' l : kept n d node d' node' → 0 ≤ l < MAX_BLOCKS → file_block d node l ≠ 0 →
  file_block d' node' l = file_block d node l.
Proof.
  intros Hk Hl. rewrite !file_block_place by done. apply (kp_blocks _ _ _ _ _ Hk). by apply data_place_ok.
Qed.

Lemma data_kept_byte d node d' node' x :
  kept n d node d' node' → data_kept d node d' → 0 ≤ x < 2 ^ 32 → file_block d node (x / BLOCK_SIZE) ≠ 0 →
  file_block d' node' (x / BLOCK_SIZE) ≠ 0 ∧ file_byte d' node' x = file_byte d node x.
Proof.
  intros Hk Hd Hx Hne. pose proof (block_of_byte x Hx) as Hl. unfold file_byte. rewrite (kept_block d node) by done.
  split; [done|]. rewrite (file_block_place d node _ Hl) in Hne |- *. destruct (data_place_ok _ Hl). by rewrite Hd.
Qed.

Lemma contents_kept d node d1 node1 d2 node2 p w data :
  0 ≤ p → p + Z.of_nat w ≤ 2 ^ 32 → kept n d node d1 node1 → kept n d1 node1 d2 node2 → data_kept d1 node1 d2 →
  contents d node d1 node1 p w data → contents d node d2 node2 p w data.
Proof.
  intros Hp Hw Hk1 Hk2 Hd [Hin Hout]. split.
  - intros x Hx. destruct (Hin x Hx) as [Hne <-]. by apply data_kept_byte; [..|lia|].
  - intros x Hx Hnot Hne. rewrite <- (Hout x Hx Hnot Hne).
    apply (data_kept_byte d1 node1 d2 node2 x); try done. rewrite (kept_block d node d1 node1); try done. by apply block_of_byte.
Qed.

Lemma with_block_byte d node pos ws x :
  maps d → file_ok d node → 0 ≤ pos < 2 ^ 32 → 0 ≤ x < 2 ^ 32 →
  pos mod BLOCK_SIZE + Z.of_nat (length ws) ≤ BLOCK_SIZE →
  let b := file_block d node (pos / BLOCK_SIZE) in
  let d' := with_block d b (splice (Z.to_nat (pos mod BLOCK_SIZE)) ws (block_bytes d b)) in
  b ≠ 0 → file_block d node (x / BLOCK_SIZE) ≠ 0 →
  file_block d' node (x / BLOCK_SIZE) ≠ 0 ∧ file_byte d' node x =
    if decide (pos ≤ x < pos + Z.of_nat (length ws)) then nth (Z.to_nat (x - pos)) ws 0 else file_byte d node x.
Proof.
  intros Hm Hf Hpos Hx Hlen b d' Hb Hne. pose proof (block_of_byte _ Hpos) as Hpl. pose proof (block_of_byte _ Hx) as Hxl.
  set (bs := splice _ _ _) in d'. destruct (with_block_extends d node _ bs Hm Hf Hpl Hb) as [_ Hat]. fold b in Hat. fold d' in Hat.
  assert (file_block d' node (x / BLOCK_SIZE) = file_block d node (x / BLOCK_SIZE)) as E.
  { rewrite !file_block_place by done. apply Hat. by apply data_place_ok. }
  rewrite E. split; [done|]. unfold file_byte. rewrite E, !nth_lookup. unfold BLOCK_SIZE in *.
  pose proof (Z.mod_pos_bound x 4096 ltac:(lia)). pose proof (Z.mod_pos_bound pos 4096 ltac:(lia)).
  assert (valid_block b) as Hvb.
  { unfold b in Hb |- *. rewrite file_block_place in Hb |- * by done. apply (fo_valid _ _ Hf); [|done]. by apply data_place_ok. }
  destruct (decide (x / 4096 = pos / 4096)) as [Ex|Ex].
  - rewrite Ex. fold b. unfold d', bs. rewrite with_block_same.
    + rewrite splice_lookup by (rewrite length_block; unfold BLOCK_LEN; lia).
      assert (x - pos = x mod 4096 - pos mod 4096) as Ed by (Z.to_euclidean_division_equations; lia).
      destruct (decide (pos ≤ x < pos + Z.of_nat (length ws))).
      * rewrite decide_True by lia. do 2 f_equal. lia.
      * by rewrite decide_False by lia.
    + rewrite length_splice; rewrite length_block; [done|]. unfold BLOCK_LEN. lia.
  - rewrite decide_False by (Z.to_euclidean_division_equations; lia). unfold d'. rewrite with_block_ne; [done|done| |].
    + rewrite file_block_place in Hne |- * by done. apply (fo_valid _ _ Hf); [|done]. by apply data_place_ok.
    + intros Eb. apply Ex. apply data_place_inj; [done|done|]. rewrite file_block_place in Hne by done.
      apply (fo_inj _ _ Hf); [by apply data_place_ok|by apply data_place_ok|done|].
      unfold b in Eb. rewrite !file_block_place in Eb by done. done.
Qed.

(** A chunk goes into its block. *)
Lemma contents_write d node d1 node1 p w c data :
  maps d1 → file_ok d1 node1 → kept n d node d1 node1 → contents d node d1 node1 p w data →
  0 ≤ p → p + Z.of_nat (w + c) ≤ 2 ^ 32 → (0 < c)%nat → (w + c ≤ length data)%nat →
  (p + Z.of_nat w) mod BLOCK_SIZE + Z.of_nat c ≤ BLOCK_SIZE →
  let pos := p + Z.of_nat w in
  let b := file_block d1 node1 (pos / BLOCK_SIZE) in
  b ≠ 0 →
  contents d node (with_block d1 b (splice (Z.to_nat (pos mod BLOCK_SIZE)) (take c (drop w data)) (block_bytes d1 b))) node1
    p (w + c) data.
Proof.
  intros Hm Hf Hk [Hin Hout] Hp Hend Hc Hlen Hfit pos b Hb.
  assert (length (take c (drop w data)) = c) as Hl by (rewrite length_take, length_drop; lia).
  set (ws := take c (drop w data)) in *. set (bs := splice _ ws _). change (2 ^ 32) with 4294967296 in *.
  assert (0 ≤ pos / BLOCK_SIZE < MAX_BLOCKS) as Hpl by (apply block_of_byte; change (2 ^ 32) with 4294967296; unfold pos; lia).
  destruct (with_block_extends d1 node1 (pos / BLOCK_SIZE) bs Hm Hf Hpl Hb) as [Hx Hat]. fold b in Hx, Hat.
  set (d2 := with_block d1 b bs) in *.
  assert (0 ≤ pos mod BLOCK_SIZE < BLOCK_SIZE) as Hmod by (apply Z.mod_pos_bound; done).
  assert (∀ x, 0 ≤ x < 4294967296 → file_block d1 node1 (x / BLOCK_SIZE) ≠ 0 →
    file_block d2 node1 (x / BLOCK_SIZE) ≠ 0 ∧ file_byte d2 node1 x =
    if decide (pos ≤ x < pos + Z.of_nat c) then nth (Z.to_nat (x - pos)) ws 0 else file_byte d1 node1 x) as Hbyte.
  { intros x Hxr Hne. rewrite <- Hl. apply with_block_byte; rewrite ?Hl; done || (unfold pos; lia). }
  split.
  - intros x Hxr. destruct (decide (x < pos)) as [Hlt|Hge].
    + destruct (Hin x) as [Hne <-]; [unfold pos in *; lia|]. destruct (Hbyte x) as [? ->]; [lia|done|].
      rewrite decide_False by lia. done.
    + assert (x / BLOCK_SIZE = pos / BLOCK_SIZE) as E.
      { unfold BLOCK_SIZE in *. Z.to_euclidean_division_equations; lia. }
      destruct (Hbyte x) as [? ->]; [lia|by rewrite E|]. rewrite decide_True by lia. split; [done|].
      unfold ws. rewrite !nth_lookup, lookup_take_lt, lookup_drop by lia. do 2 f_equal. unfold pos in *. lia.
  - intros x Hxr Hnot Hne. rewrite <- (Hout x) by (done || lia). destruct (Hbyte x) as [_ ->]; [done| |].
    + rewrite (kept_block d node d1 node1); [done|done|by apply block_of_byte|done].
    + by rewrite decide_False by (unfold pos in *; lia).
Qed.
(** ** The loop *)

Definition end_size node (p : Z) (w : nat) : Z :=
  if decide (w = 0%nat) then i_size node else Z.max (i_size node) (p + Z.of_nat w).

(** [w] bytes of [data] were written through the descriptor [fd]. The file that
    has them, [node0] on the card [d0], is as it should be; a call that fails may
    have left its mark on the inode since. *)
Record stored (fd : nat) (f : fdesc_t) node (data : list Z) s (w : nat) inode s1 : Prop := {
  st_len : (w ≤ length data)%nat;
  st_state : ∃ t d1, length t = TEMP_BUF_LEN ∧
    s1 = upd_disk d1 (upd_tbuf t (upd_fdescs (<[fd := set_pos (f_pos f + Z.of_nat w) f]> (fdesc_array s)) s));
  st_base : ∃ d0 node0, extends n (fs_disk s) node d0 node0 ∧ contents (fs_disk s) node d0 node0 (f_pos f) w data ∧
    kept n d0 node0 (fs_disk s1) inode ∧ data_kept d0 node0 (fs_disk s1);
  st_size : i_size inode = end_size node (f_pos f) w
}.

(** The blocks that writing [data] from [p] on can take. *)
Definition cost (p : Z) (m : nat) : nat := 3 * Z.to_nat (blocks_left p (Z.of_nat m)).
Definition used (p : Z) (data : list Z) (w : nat) : nat :=
  cost p (length data) - cost (p + Z.of_nat w) (length data - w).

(** The loop goes on. *)
Record going (fd : nat) (f : fdesc_t) node (data : list Z) s (w : nat) inode s1 : Prop := {
  go_stored : stored fd f node data s w inode s1;
  go_ext : extends n (fs_disk s) node (fs_disk s1) inode;
  go_room m : room (fs_disk s) m → room (fs_disk s1) (m - used (f_pos f) data w)
}.

(** The card is full. *)
Record ran_out (fd : nat) (f : fdesc_t) node (data : list Z) s (w : nat) inode s1 : Prop := {
  ro_stored : stored fd f node data s w inode s1;
  ro_short : (w < length data)%nat;
  ro_full : full (fs_disk s1);
  ro_room m : room (fs_disk s) m → (m < cost (f_pos f) (length data))%nat
}.

Lemma stored_kept fd f node data s w inode s1 : stored fd f node data s w inode s1 → kept n (fs_disk s) node (fs_disk s1) inode.
Proof. intros [_ _ (d0 & node0 & Hx & _ & Hk & _) _]. by eapply kept_trans. Qed.

Lemma stored_bytes fd f node data s w inode s1 :
  stored fd f node data s w inode s1 → 0 ≤ f_pos f → f_pos f + Z.of_nat w ≤ 2 ^ 32 →
  contents (fs_disk s) node (fs_disk s1) inode (f_pos f) w data.
Proof.
  intros [_ _ (d0 & node0 & Hx & Hc & Hk & Hd) _] Hp Hw. eapply (contents_kept _ _ d0 node0); try done. apply Hx.
Qed.

Lemma stored_fdesc fd f node data s w inode s1 : stored fd f node data s w inode s1 → (fd < length (fdesc_array s))%nat →
  fdesc_array s1 !! fd = Some (set_pos (f_pos f + Z.of_nat w) f).
Proof. intros [_ (t & d1 & _ & ->) _ _] Hl. by apply list_lookup_insert_eq. Qed.

Lemma stored_ready fd f node data s w inode s1 : ready s → stored fd f node data s w inode s1 → ready s1.
Proof.
  intros Hr Hst. pose proof (stored_kept _ _ _ _ _ _ _ _ Hst) as Hk. destruct Hst as [_ (t & d1 & Ht & ->) _ _].
  destruct (ready_step n s node d1 inode t Hr Hk Ht) as [H1 H2 H3 H4 H5 H6 H7]. by split.
Qed.

(** What is left after a round: fewer rounds. *)
Lemma used_step p (data : list Z) w c : 0 ≤ p → (w < length data)%nat →
  let pos := p + Z.of_nat w in
  c = Z.min (Z.of_nat (length data - w)) (BLOCK_SIZE - pos mod BLOCK_SIZE) →
  let w' := (w + Z.to_nat c)%nat in
  (cost (p + Z.of_nat w') (length data - w') + 3 ≤ cost pos (length data - w))%nat ∧
  (w' ≤ length data)%nat ∧ (0 < Z.to_nat c)%nat ∧ pos mod BLOCK_SIZE + Z.of_nat (Z.to_nat c) ≤ BLOCK_SIZE.
Proof.
  intros Hp Hw pos Hc w'. assert (0 ≤ pos mod BLOCK_SIZE < BLOCK_SIZE) as Hm by (apply Z.mod_pos_bound; done).
  pose proof (blocks_left_next pos (Z.of_nat (length data - w)) ltac:(unfold pos; lia) ltac:(lia)) as Hn'. cbv zeta in Hn'.
  rewrite <- Hc in Hn'. pose proof (blocks_left_nonneg (pos + c) (Z.of_nat (length data - w) - c) ltac:(unfold pos; lia)).
  split; [|lia]. unfold cost, w'. replace (p + Z.of_nat (w + Z.to_nat c)) with (pos + c) by (unfold pos; lia).
  replace (Z.of_nat (length data - (w + Z.to_nat c))) with (Z.of_nat (length data - w) - c) by lia. lia.
Qed.

Lemma grow_size node node1 p w c :
  i_size node1 = end_size node p w → (0 < c)%nat → 
  (if i_size node1 <? p + Z.of_nat (w + c) then set_size (p + Z.of_nat (w + c)) node1 else node1)
  = set_size (end_size node p (w + c)) node1.
Proof.
  intros E Hc. assert (set_size (i_size node1) node1 = node1) as Ei by by destruct node1.
  rewrite E in *. unfold end_size in *. rewrite (decide_False (P := (w + c = 0)%nat)) by lia.
  destruct (Z.ltb_spec (if decide (w = 0%nat) then i_size node else Z.max (i_size node) (p + Z.of_nat w)) (p + Z.of_nat (w + c))).
  - f_equal. case_decide; lia.
  - rewrite <- Ei at 1. f_equal. case_decide; lia.
Qed.

Lemma contents_size d node d1 node1 z p w data : contents d node d1 node1 p w data → contents d node d1 (set_size z node1) p w data.
Proof. intros [Hin Hout]. split; [exact Hin|exact Hout]. Qed.

(** A round: a block was found, or made, and [c] bytes written into it. *)
Lemma going_step fd f node data s s1 w inode inode2 d2 t c :
  going fd f node data s w inode s1 → 0 ≤ f_pos f → 0 ≤ i_size node < 2 ^ 32 →
  f_pos f + Z.of_nat (w + c) < 2 ^ 32 → (0 < c)%nat → (w + c ≤ length data)%nat →
  extends n (fs_disk s1) inode d2 inode2 → data_kept (fs_disk s1) inode d2 → i_size inode2 = i_size inode →
  (∀ m, room (fs_disk s1) m → room d2 (m - 3)) → (used (f_pos f) data w + 3 ≤ used (f_pos f) data (w + c))%nat →
  let pos := f_pos f + Z.of_nat w in
  let b := file_block d2 inode2 (pos / BLOCK_SIZE) in
  b ≠ 0 → pos mod BLOCK_SIZE + Z.of_nat c ≤ BLOCK_SIZE → length t = TEMP_BUF_LEN →
  let d3 := with_block d2 b (splice (Z.to_nat (pos mod BLOCK_SIZE)) (take c (drop w data)) (block_bytes d2 b)) in
  going fd f node data s (w + c) (set_size (end_size node (f_pos f) (w + c)) inode2)
    (upd_disk d3 (upd_tbuf t (upd_fdescs (<[fd := set_pos (f_pos f + Z.of_nat (w + c)) f]> (fdesc_array s)) s))).
Proof.
  intros [Hst Hx Hroom] Hp Hsz Hend Hc Hwc Hx2 Hd2 Hsz2 Hroom2 Hused pos b Hb Hfit Ht d3.
  pose proof (stored_kept _ _ _ _ _ _ _ _ Hst) as Hk.
  pose proof (stored_bytes _ _ _ _ _ _ _ _ Hst Hp ltac:(lia)) as Hct. destruct Hst as [Hle _ _ Hs1].
  assert (extends n (fs_disk s) node d2 inode2) as Hx3 by by eapply extends_trans.
  assert (contents (fs_disk s) node d2 inode2 (f_pos f) w data) as Hct2.
  { eapply (contents_kept _ _ (fs_disk s1) inode); try done; [lia|apply Hx2]. }
  assert (0 ≤ pos / BLOCK_SIZE < MAX_BLOCKS) as Hl by (apply block_of_byte; unfold pos; lia).
  assert (maps d2) as Hm2 by apply Hx3. assert (file_ok d2 inode2) as Hf2 by apply Hx3.
  destruct (with_block_extends d2 inode2 (pos / BLOCK_SIZE) (splice (Z.to_nat (pos mod BLOCK_SIZE)) (take c (drop w data)) (block_bytes d2 b))
    Hm2 Hf2 Hl Hb) as [Hx4 _]. fold b in Hx4. fold d3 in Hx4.
  assert (0 ≤ end_size node (f_pos f) (w + c) < 2 ^ 32) as Hes by (unfold end_size; case_decide; lia).
  assert (extends n (fs_disk s) node d3 inode2) as Hx5 by by eapply extends_trans.
  split; [split|..]; cbn [fs_disk upd_disk].
  - done.
  - by exists t, d3.
  - exists d3, (set_size (end_size node (f_pos f) (w + c)) inode2).
    assert (extends n (fs_disk s) node d3 (set_size (end_size node (f_pos f) (w + c)) inode2)) as Hx6 by by apply extends_size.
    split; [done|]. split; [|by split; [apply extends_refl; apply Hx6|]].
    apply contents_size, contents_write; try done; [apply Hx3|unfold pos in *; lia].
  - done.
  - by apply extends_size.
  - intros m Hm. specialize (Hroom2 _ (Hroom m Hm)).
    assert (room d3 (m - used (f_pos f) data w - 3)) as H4.
    { eapply room_bits; [|exact Hroom2]. apply with_block_map.
      unfold b in Hb |- *. rewrite file_block_place in Hb |- * by done. apply (fo_valid _ _ Hf2); [|done]. by apply data_place_ok. }
    eapply room_less; [exact H4|]. lia.
Qed.

Lemma state_after fd f g d1 d2 d4 t1 t2 t4 s :
  upd_fdescs (<[fd := g]> (<[fd := f]> (fdesc_array s)))
    (upd_disk d4 (upd_tbuf t4 (upd_disk d2 (upd_tbuf t2 (upd_disk d1 (upd_tbuf t1
      (upd_fdescs (<[fd := f]> (fdesc_array s)) s))))))) =
  upd_disk d4 (upd_tbuf t4 (upd_fdescs (<[fd := g]> (fdesc_array s)) s)).
Proof. by rewrite list_insert_insert_eq. Qed.

Lemma write_round fd f node data s s1 w inode :
  going fd f node data s w inode s1 → ready s → (fd < length (fdesc_array s))%nat → f_inode f = n → 0 ≤ f_pos f →
  f_pos f + Z.of_nat (length data) < 2 ^ 32 → 0 ≤ i_size node < 2 ^ 32 → (w < length data)%nat →
  (used (f_pos f) data w + cost (f_pos f + Z.of_nat w) (length data - w) = cost (f_pos f) (length data))%nat →
  wp (write_step fd (inode, drop w data)) s1 (λ r s2,
    (∃ w' inode', r = inl (inode', drop w' data) ∧ going fd f node data s w' inode' s2 ∧
       (used (f_pos f) data w' + cost (f_pos f + Z.of_nat w') (length data - w') = cost (f_pos f) (length data))%nat ∧
       (cost (f_pos f + Z.of_nat w') (length data - w') < cost (f_pos f + Z.of_nat w) (length data - w))%nat) ∨
    ∃ inode', r = inr (inode', drop w data) ∧ ran_out fd f node data s w inode' s2).
Proof.
  intros Hgo Hr Hfd Hfn Hp Hend Hsz Hlt Hused. pose proof Hgo as [Hst Hx Hroom].
  pose proof (stored_fdesc _ _ _ _ _ _ _ _ Hst Hfd) as Hf. pose proof (stored_ready _ _ _ _ _ _ _ _ Hr Hst) as Hr1.
  set (pos := f_pos f + Z.of_nat w) in *. set (rest := drop w data).
  assert (length rest = (length data - w)%nat) as Hrest by apply length_drop.
  unfold write_step. destruct rest as [|y ys] eqn:Er; [simpl in Hrest; lia|]. rewrite <- Er in *.
  rewrite wp_bind, wp_get, wp_bind, (wp_of_opt_Some _ _ _ _ Hf).
  change (f_pos (set_pos pos f)) with pos. change (f_inode (set_pos pos f)) with (f_inode f). rewrite Hfn.
  pose proof (chunk_bounds pos (Z.of_nat (length rest)) ltac:(unfold pos; lia) ltac:(lia)) as Hc.
  destruct (chunk_of pos (Z.of_nat (length rest))) as [[l off] c] eqn:Ec. destruct Hc as (-> & -> & _).
  assert (c = Z.min (Z.of_nat (length data - w)) (BLOCK_SIZE - pos mod BLOCK_SIZE)) as Hc.
  { rewrite <- Hrest. unfold chunk_of in Ec. congruence. }
  destruct (used_step (f_pos f) data w c Hp Hlt Hc) as (Hcost & Hw' & Hc0 & Hfit).
  set (n' := Z.to_nat c) in *. fold pos in Hcost, Hfit.
  assert (0 ≤ pos / BLOCK_SIZE < MAX_BLOCKS) as Hl by (apply block_of_byte; unfold pos; lia).
  rewrite wp_bind. eapply wp_mono; [apply (get_physical_grows n Hn inode (pos / BLOCK_SIZE) s1); [done|apply Hx|done]|].
  intros r s2 Hfound. 
  pose proof (stored_bytes _ _ _ _ _ _ _ _ Hst Hp ltac:(lia)) as Hct. destruct Hst as [Hle (t & d1 & Ht & ->) _ Hs1]. cbn [fs_disk upd_disk] in *.
  inversion Hfound as [inode2 d2 t2 b Ht2 Hx2 Hd2 Hsz2 Hroom2 Hb Hv|inode2 d2 t2 Ht2 Hk2 Hd2 Hsz2 Hroom2 Hfull]; subst r s2; cbn [fs_disk upd_disk] in *.
  - destruct (valid_word b Hv) as (_ & Hb1 & Hb0). rewrite (proj2 (Z.eqb_neq _ _)) by done.
    rewrite <- file_block_place in Hb by done. set (ws := take n' rest).
    assert (length ws = n') as Hlws by (unfold ws; rewrite length_take; lia).
    pose proof (Z.mod_pos_bound pos BLOCK_SIZE ltac:(done)) as Hmod.
    apply write_chunk_ok; [done|rewrite Hlws; unfold BLOCK_LEN, BLOCK_SIZE in *; lia|]. intros t4 Ht4.
    unfold set_fdesc. rewrite wp_bind, wp_modify, wp_ret. cbn [fs_disk tbuf upd_tbuf upd_fdescs upd_disk fdesc_array].
    rewrite u32_id by (unfold pos; lia). left. exists (w + n')%nat, (set_size (end_size node (f_pos f) (w + n')) inode2).
    assert (f_pos f + Z.of_nat (w + n') = pos + c) as Epos by (unfold pos; lia).
    split; [|split; [|split]].
    + unfold rest. rewrite drop_drop. do 2 f_equal. rewrite <- Epos. apply grow_size; [congruence|done].
    + pose proof (going_step fd f node data s _ w inode inode2 d2 t4 n' Hgo Hp Hsz ltac:(lia) Hc0 Hw' Hx2 Hd2 Hsz2 Hroom2
        ltac:(unfold used in *; lia)) as Hg. cbv zeta in Hg. fold pos in Hg. rewrite <- Hb, Epos in Hg.
      specialize (Hg Hb0 Hfit Ht4). rewrite state_after. exact Hg.
    + unfold used. lia.
    + lia.
  - rewrite Z.eqb_refl, wp_ret. right. exists inode2. split; [done|]. split; [|done|done|].
    + split; cbn [fs_disk upd_disk]; [done|by exists t2, d2|by exists d1, inode|congruence].
    + intros m Hm. specialize (Hroom2 _ (Hroom m Hm)). lia.
Qed.
Lemma going_start fd f node data s :
  fdesc_array s !! fd = Some f → ready s → file_ok (fs_disk s) node → going fd f node data s 0 node s.
Proof.
  intros Hf Hr Hok. pose proof (extends_refl n _ node (rd_maps _ Hr) Hok) as Hx. split; [split|done|].
  - lia.
  - exists (tbuf s), (fs_disk s). split; [apply Hr|]. rewrite Z.add_0_r.
    unfold upd_disk, upd_tbuf, upd_fdescs. simpl. destruct f as [a b c u]. unfold set_pos. simpl.
    rewrite list_insert_id by done. by destruct s.
  - exists (fs_disk s), node. split; [done|]. split; [|by split; [apply Hx|]]. split; [intros; lia|done].
  - done.
  - intros m Hm. eapply room_less; [done|lia].
Qed.

Lemma write_rounds fd f node data s :
  fdesc_array s !! fd = Some f → ready s → file_ok (fs_disk s) node → f_inode f = n → 0 ≤ f_pos f →
  f_pos f + Z.of_nat (length data) < 2 ^ 32 →
  wp (while_ (io_fuel (Z.of_nat (length data))) (write_step fd) (node, data)) s (λ r s', ∃ w,
    r.2 = drop w data ∧ ((w = length data ∧ going fd f node data s w r.1 s') ∨ ran_out fd f node data s w r.1 s')).
Proof.
  intros Hf Hr Hok Hfn Hp Hend. assert (fd < length (fdesc_array s))%nat as Hfd by by eapply lookup_lt_Some.
  assert (0 ≤ i_size node < 2 ^ 32) as Hsz.
  { destruct Hok as [[Hw _] _ _]. unfold inode_words in Hw. simpl in Hw. by do 3 (apply Forall_cons in Hw as [? Hw]). }
  set (left w := (cost (f_pos f + Z.of_nat w) (length data - w))%nat).
  apply (wp_while (λ (l : inode_t * list Z) s', ∃ w, l.2 = drop w data ∧ going fd f node data s w l.1 s' ∧
      (used (f_pos f) data w + left w = cost (f_pos f) (length data))%nat)
    (λ (l : inode_t * list Z) _, (left (length data - length l.2) / 3)%nat)).
  - exists 0%nat. split; [done|]. split; [by apply going_start|]. unfold used, left. rewrite Z.add_0_r, Nat.sub_0_r. lia.
  - cbn [snd]. rewrite Nat.sub_diag. unfold left, cost. rewrite Z.add_0_r, Nat.sub_0_r, Nat.mul_comm, Nat.div_mul by done.
    by apply blocks_left_fuel.
  - intros [inode rest] s1 (w & Hrest & Hgo & Hused). cbn [fst snd] in *. subst rest.
    pose proof (st_len _ _ _ _ _ _ _ _ (go_stored _ _ _ _ _ _ _ _ Hgo)) as Hle. destruct (decide (w < length data)%nat) as [Hlt|Hge].
    + eapply wp_mono; [by apply (write_round fd f node data s s1 w inode)|].
      intros r s2 [(w' & inode' & -> & Hgo' & Hu' & Hm)|(inode' & -> & Hro)]; cbn [fst snd].
      * split; [by exists w'|]. pose proof (st_len _ _ _ _ _ _ _ _ (go_stored _ _ _ _ _ _ _ _ Hgo')) as Hle'.
        rewrite !length_drop. replace (length data - (length data - w'))%nat with w' by lia.
        replace (length data - (length data - w))%nat with w by lia. unfold left, cost in *.
        rewrite !(Nat.mul_comm 3), !Nat.div_mul by done. lia.
      * exists w. split; [done|by right].
    + assert (w = length data) as -> by lia. rewrite drop_all. unfold write_step. rewrite wp_ret.
      exists (length data). split; [by rewrite drop_all|by left].
Qed.

(** What [do_write] comes to: [w] bytes of [data] are in the file. *)
Record wrote (fd : nat) (f : fdesc_t) node (data : list Z) s (w : nat) s' : Prop := {
  wr_len : (w ≤ length data)%nat;
  wr_kept : kept n (fs_disk s) node (fs_disk s') (inode_at (fs_disk s') n);
  wr_bytes : contents (fs_disk s) node (fs_disk s') (inode_at (fs_disk s') n) (f_pos f) w data;
  wr_size : i_size (inode_at (fs_disk s') n) = end_size node (f_pos f) w;
  wr_fdescs : fdesc_array s' = <[fd := set_pos (f_pos f + Z.of_nat w) f]> (fdesc_array s);
  wr_ready : ready s'
}.

Lemma do_write_ok s fd f data :
  let node := inode_at (fs_disk s) n in
  get_fdesc s fd = Some f → f_inode f = n → f_mode f ≠ O_RDONLY → ready s → file_ok (fs_disk s) node → 0 ≤ f_pos f →
  f_pos f + Z.of_nat (length data) < 2 ^ 32 →
  wp (do_write fd data) s (λ r s', ∃ w, r = Z.of_nat w ∧ wrote (Z.to_nat fd) f node data s w s' ∧
    ((w = length data ∧ extends n (fs_disk s) node (fs_disk s') (inode_at (fs_disk s') n)) ∨
     ((w < length data)%nat ∧ full (fs_disk s') ∧ ∀ m, room (fs_disk s) m → (m < cost (f_pos f) (length data))%nat))).
Proof.
  intros node Hf Hfn Hm Hr Hok Hp Hend. pose proof (get_fdesc_lookup s fd f Hf) as Hlk.
  unfold do_write. rewrite wp_bind, wp_get, Hf. rewrite (proj2 (Z.eqb_neq _ _)) by done.
  rewrite wp_bind, (wp_ok _ _ _ _ _ (get_inode_ok _ _)). rewrite Hfn. fold node. rewrite wp_bind.
  eapply wp_mono; [by apply (write_rounds (Z.to_nat fd) f node data s)|].
  intros [inode rest] s1 (w & Hrest & Hw). cbn [fst snd] in *. subst rest. rewrite wp_bind.
  rewrite (wp_ok _ _ _ _ _ (write_inode_ok _ _ _)), wp_ret. cbn [fs_disk upd_disk fdesc_array].
  assert (stored (Z.to_nat fd) f node data s w inode s1) as Hst by by destruct Hw as [[_ []]|[]].
  pose proof (stored_ready _ _ _ _ _ _ _ _ Hr Hst) as Hr1. pose proof (stored_kept _ _ _ _ _ _ _ _ Hst) as Hk.
  destruct Hst as [Hle (t & d1 & Ht & Es1) (d0 & node0 & Hx0 & Hct & Hk0 & Hd0) Hsz].
  exists w. rewrite length_drop. split; [lia|].
  assert (inode_at (with_inode (fs_disk s1) n inode) n = inode) as Eat by (apply with_inode_same; [done|apply Hk]).
  assert (kept n (fs_disk s) node (with_inode (fs_disk s1) n inode) inode) as Hk' by by apply kept_write_inode.
  split.
  - split; cbn [fs_disk upd_disk fdesc_array]; rewrite ?Eat; try done.
    + eapply (contents_kept _ _ d0 node0); [done|lia|apply Hx0|apply kept_write_inode; [apply Hx0|done]| |done].
      intros p Hpp Hi Hne. rewrite with_inode_block; [by apply Hd0| |done].
      by apply (fo_valid _ _ (ex_ok _ _ _ _ _ Hx0)).
    + by rewrite Es1.
    + destruct (with_inode_map (fs_disk s1) n inode Hn) as [Hb Hm']. apply ready_disk; [done|apply Hm', Hr1| |].
      * rewrite Hb by done. apply Hr1.
      * by apply heads_sb, with_inode_heads.
  - rewrite Eat. destruct Hw as [[-> [_ Hx _]]|[_ Hlt Hfull Hroom]]; [left|right].
    + split; [done|]. eapply extends_trans; [exact Hx|]. apply write_inode_extends; apply Hx.
    + split; [done|]. split; [|done]. intros c Hc. rewrite (proj1 (with_inode_map _ n inode Hn)) by done. by apply Hfull.
Qed.
(** ** The theorems *)

(** C26: [do_write] on a file whose blocks are its own, anywhere below 4 GiB and
    past the end as well: it ends, and answers how many bytes of the data are in
    the file from the descriptor's position on. All other bytes in the blocks
    that the file had, every other inode and every block of another file are as
    they were; the size covers what was written; the blocks are allocated across
    the direct, indirect and doubly indirect levels, and no block is given to two
    places. It stops short only when every block of the card is taken, and not if
    three blocks for each block of the range were free. *)
Theorem do_write_grows s fd f data :
  let node := inode_at (fs_disk s) n in
  get_fdesc s fd = Some f → f_inode f = n → f_mode f ≠ O_RDONLY → ready s → file_ok (fs_disk s) node → 0 ≤ f_pos f →
  f_pos f + Z.of_nat (length data) < 2 ^ 32 →
  wp (do_write fd data) s (λ r s', ∃ w, r = Z.of_nat w ∧ wrote (Z.to_nat fd) f node data s w s' ∧
    (w = length data → file_ok (fs_disk s') (inode_at (fs_disk s') n)) ∧
    ((w < length data)%nat → full (fs_disk s')) ∧
    (room (fs_disk s) (cost (f_pos f) (length data)) → w = length data)).
Proof.
  intros node Hf Hfn Hm Hr Hok Hp Hend. eapply wp_mono; [by apply (do_write_ok s fd f data)|].
  intros r s' (w & -> & Hw & [[-> Hx]|(Hlt & Hfull & Hroom)]); (eexists; split; [done|]; split; [done|]; split; [|split]).
  - intros _. apply Hx.
  - lia.
  - done.
  - lia.
  - done.
  - intros Hm'. specialize (Hroom _ Hm'). lia.
Qed.

Lemma do_lseek_set s fd f pos : get_fdesc s fd = Some f → 0 ≤ pos < 2 ^ 31 →
  do_lseek fd pos SEEK_SET s = Ok pos (upd_fdescs (<[Z.to_nat fd := set_pos pos f]> (fdesc_array s)) s).
Proof.
  intros Hf Hp. change (2 ^ 31) with 2147483648 in Hp. unfold do_lseek. rewrite bind_get, Hf.
  rewrite (bind_ok _ _ _ _ _ (get_inode_ok _ _)). change (SEEK_SET =? SEEK_SET) with true. cbv zeta iota beta.
  rewrite u32_id by lia. unfold set_fdesc. rewrite bind_modify. by rewrite s32_id by lia.
Qed.

Lemma get_fdesc_set s s' fd f f' : get_fdesc s fd = Some f → f_used f' = true →
  fdesc_array s' = <[Z.to_nat fd := f']> (fdesc_array s) → get_fdesc s' fd = Some f'.
Proof.
  intros Hf Hu E. pose proof (get_fdesc_lookup s fd f Hf) as Hlk. unfold get_fdesc in *.
  destruct ((fd <? 0) || _); [done|]. rewrite E, list_lookup_insert_eq by by eapply lookup_lt_Some. simpl. by rewrite Hu.
Qed.

Lemma get_fdesc_used s fd f : get_fdesc s fd = Some f → f_used f = true.
Proof.
  unfold get_fdesc. destruct ((fd <? 0) || _); [done|]. destruct (fdesc_array s !! Z.to_nat fd) as [g|]; [|done].
  simpl. destruct (f_used g) eqn:E; [|done]. congruence.
Qed.

(** A file whose blocks are its own can be read. *)
Lemma file_ok_readable d node : file_ok d node → i_size node < 2 ^ 32 → readable d node.
Proof.
  intros Hf Hsz x Hx. pose proof (block_of_byte x ltac:(lia)) as Hl. rewrite file_block_place by done.
  destruct (decide (block_at d node (data_place (x / BLOCK_SIZE)) = 0)) as [->|Hne]; [done|].
  apply valid_word. apply (fo_valid _ _ Hf); [by apply data_place_ok|done].
Qed.

Lemma contents_bytes d node d' node' p data :
  contents d node d' node' p (length data) data → file_bytes d' node' p (length data) = data.
Proof.
  intros [Hin _]. apply list_eq. intros i. destruct (decide (i < length data)%nat) as [Hi|Hi].
  - unfold file_bytes. rewrite list_lookup_fmap, lookup_seq_lt by done. simpl.
    destruct (Hin (p + Z.of_nat i) ltac:(lia)) as [_ ->]. replace (Z.to_nat (p + Z.of_nat i - p)) with i by lia.
    destruct (lookup_lt_is_Some_2 data i Hi) as [y Hy]. by rewrite (nth_lookup_Some _ _ _ _ Hy).
  - rewrite !lookup_ge_None_2; [done|lia|rewrite length_file_bytes; lia].
Qed.

Lemma write_then_read_ok s fd f data :
  let node := inode_at (fs_disk s) n in
  get_fdesc s fd = Some f → f_inode f = n → f_mode f = O_RDWR → ready s → file_ok (fs_disk s) node → 0 ≤ f_pos f →
  f_pos f + Z.of_nat (length data) < 2 ^ 31 → i_size node < 2 ^ 31 → room (fs_disk s) (cost (f_pos f) (length data)) →
  wp (do_write fd data;; do_lseek fd (f_pos f) SEEK_SET;; do_read fd (Z.of_nat (length data))) s (λ r s',
    r = (Z.of_nat (length data), data) ∧ i_size (inode_at (fs_disk s') n) = end_size node (f_pos f) (length data) ∧
    extends n (fs_disk s) node (fs_disk s') (inode_at (fs_disk s') n)).
Proof.
  intros node Hf Hfn Hm Hr Hok Hp Hend Hsz Hroom. change (2 ^ 31) with 2147483648 in *. rewrite wp_bind.
  eapply wp_mono; [apply (do_write_ok s fd f data); try done; [by rewrite Hm|change (2 ^ 32) with 4294967296; lia]|].
  intros r s1 (w & -> & [_ Hk Hct Hs1 Hfd Hr1] & [[-> Hx]|(_ & _ & Hno)]); [|specialize (Hno _ Hroom); lia].
  fold node in Hk, Hct, Hs1, Hx. set (node1 := inode_at (fs_disk s1) n) in *. pose proof (get_fdesc_used _ _ _ Hf) as Hu.
  assert (get_fdesc s1 fd = Some (set_pos (f_pos f + Z.of_nat (length data)) f)) as Hf1.
  { by eapply get_fdesc_set; [exact Hf| |exact Hfd]. }
  assert (0 ≤ end_size node (f_pos f) (length data) < 2147483648) as Hes.
  { pose proof (inode_ok_size_range node (fo_inode _ _ Hok)). unfold end_size. case_decide; lia. }
  rewrite wp_bind, (wp_ok _ _ _ _ _ (do_lseek_set s1 fd _ (f_pos f) Hf1 ltac:(change (2 ^ 31) with 2147483648; lia))).
  set (s2 := upd_fdescs _ s1). change (set_pos (f_pos f) (set_pos _ f)) with (set_pos (f_pos f) f) in s2.
  eapply wp_mono; [apply (do_read_ok s2 fd (set_pos (f_pos f) f))|].
  - by eapply get_fdesc_set; [exact Hf1| |reflexivity].
  - simpl. by rewrite Hm.
  - apply Hr1.
  - done.
  - cbn [f_inode set_pos fs_disk s2 upd_fdescs]. rewrite Hfn. fold node1. rewrite Hs1. change (2 ^ 31) with 2147483648. lia.
  - cbn [f_inode set_pos fs_disk s2 upd_fdescs]. rewrite Hfn. apply file_ok_readable; [apply Hx|]. fold node1. rewrite Hs1.
    change (2 ^ 32) with 4294967296. lia.
  - cbn [f_inode set_pos fs_disk s2 upd_fdescs f_pos]. rewrite Hfn. fold node1. intros r s3 (-> & Hd & _). rewrite Hd.
    cbn [fs_disk s2 upd_fdescs]. fold node1. split; [|done].
    assert (Z.max 0 (Z.min (Z.of_nat (length data)) (i_size node1 - f_pos f)) = Z.of_nat (length data)) as ->.
    { rewrite Hs1. unfold end_size. case_decide as E; [rewrite E; lia|lia]. }
    f_equal. rewrite Nat2Z.id. by eapply contents_bytes.
Qed.

(** What [do_write] writes anywhere in a file, [do_lseek] back to the place
    and [do_read] give back, when enough blocks are free. *)
Theorem write_then_read s fd f data :
  let node := inode_at (fs_disk s) n in
  get_fdesc s fd = Some f → f_inode f = n → f_mode f = O_RDWR → ready s → file_ok (fs_disk s) node → 0 ≤ f_pos f →
  f_pos f + Z.of_nat (length data) < 2 ^ 31 → i_size node < 2 ^ 31 → room (fs_disk s) (cost (f_pos f) (length data)) →
  wp (do_write fd data;; do_lseek fd (f_pos f) SEEK_SET;; do_read fd (Z.of_nat (length data))) s (λ r s',
    r = (Z.of_nat (length data), data) ∧ i_size (inode_at (fs_disk s') n) = end_size node (f_pos f) (length data)).
Proof.
  intros node Hf Hfn Hm Hr Hok Hp Hend Hsz Hroom. eapply wp_mono; [by apply (write_then_read_ok s fd f data)|].
  by intros r s' (-> & Hs & _).
Qed.

Lemma alloc_block_full s : ready s → full (fs_disk s) → alloc_block s = Ok NEG1 s.
Proof.
  intros Hr Hf. pose proof (alloc_block_ok s Hr) as Hw. apply wp_iff in Hw as (b & s' & E & [(-> & -> & _)|(d1 & _ & [Hv Hc _ _ _ _ _ _])]); [done|].
  rewrite Hf in Hc; [done|]. unfold valid_block in Hv. lia.
Qed.

(** A write whose first block is not to be had. *)
Lemma do_write_stops s fd f data node' s' :
  get_fdesc s fd = Some f → f_inode f = n → f_mode f ≠ O_RDONLY → 0 ≤ f_pos f → data ≠ [] →
  get_physical_block_id (inode_at (fs_disk s) n) n (f_pos f / BLOCK_SIZE) true s = Ok (node', NEG1) s' →
  do_write fd data s = Ok 0 (upd_disk (with_inode (fs_disk s') n node') s').
Proof.
  intros Hf Hfn Hm Hp Hd Hg. pose proof (get_fdesc_lookup s fd f Hf) as Hlk.
  unfold do_write. rewrite bind_get, Hf. rewrite (proj2 (Z.eqb_neq _ _)) by done.
  rewrite (bind_ok _ _ _ _ _ (get_inode_ok _ _)). rewrite Hfn.
  assert (while_ (io_fuel (Z.of_nat (length data))) (write_step (Z.to_nat fd)) (inode_at (fs_disk s) n, data) s = Ok (node', data) s') as Hw.
  { assert (∃ k, io_fuel (Z.of_nat (length data)) = S k) as [k ->].
    { unfold io_fuel. exists (pred (Z.to_nat (Z.max 0 (Z.of_nat (length data)) / BLOCK_SIZE + 3))).
      assert (0 ≤ Z.max 0 (Z.of_nat (length data)) / BLOCK_SIZE) by (apply Z.div_pos; [lia|done]). lia. }
    cbn [while_]. rewrite (bind_ok _ _ s (inr (node', data)) s'); [done|]. unfold write_step. destruct data as [|y ys]; [done|].
    rewrite bind_get, (bind_opt _ _ _ _ Hlk). unfold chunk_of. rewrite Hfn. by rewrite (bind_ok _ _ _ _ _ Hg). }
  rewrite (bind_ok _ _ _ _ _ Hw). rewrite (bind_ok _ _ _ _ _ (write_inode_ok _ _ _)). by rewrite Z.sub_diag.
Qed.

(** C31: On a full card, a write that needs a new direct block fails, but leaves
    the -1 of [alloc_block] in the inode and stores it on the card: from then on a
    write at this place of the file fails, however many blocks are free. *)
Theorem do_write_full s fd f data :
  let node := inode_at (fs_disk s) n in
  let k := Z.to_nat (f_pos f / BLOCK_SIZE) in
  get_fdesc s fd = Some f → f_inode f = n → f_mode f ≠ O_RDONLY → ready s → file_ok (fs_disk s) node →
  data ≠ [] → 0 ≤ f_pos f < 10 * BLOCK_SIZE → file_block (fs_disk s) node (f_pos f / BLOCK_SIZE) = 0 →
  full (fs_disk s) →
  wp (do_write fd data) s (λ r s', r = 0 ∧ inode_at (fs_disk s') n = set_direct k NEG1 node ∧
    ∀ s2, inode_at (fs_disk s2) n = inode_at (fs_disk s') n → get_fdesc s2 fd = Some f →
      wp (do_write fd data) s2 (λ r _, r = 0)).
Proof.
  intros node k Hf Hfn Hm Hr Hok Hd Hp Hz Hfull.
  assert (0 ≤ f_pos f / BLOCK_SIZE < 10) as Hl by (unfold BLOCK_SIZE in *; Z.to_euclidean_division_equations; lia).
  pose proof (io_direct _ (fo_inode _ _ Hok)) as Hlen.
  assert (k < length (direct_ptr node))%nat as Hk by (rewrite Hlen; unfold k, DIRECT_BLOCK_NUM; lia).
  destruct (lookup_lt_is_Some_2 _ _ Hk) as [p Hpk].
  assert (p = 0) as ->.
  { unfold file_block in Hz. rewrite (proj2 (Z.ltb_lt _ _)) in Hz by lia. by rewrite (nth_lookup_Some _ _ _ _ Hpk) in Hz. }
  assert (inode_ok (set_direct k NEG1 node)) as Hok' by (apply (set_ptr_inode_ok (Direct k)); [done|apply Hok]).
  assert (∀ alloc s0 nd, direct_ptr nd !! k = Some NEG1 →
    get_physical_block_id nd n (f_pos f / BLOCK_SIZE) alloc s0 = Ok (nd, NEG1) s0) as Hbad.
  { intros alloc s0 nd Hnd. unfold get_physical_block_id. rewrite (proj2 (Z.ltb_lt _ _)) by (change (Z.of_nat DIRECT_BLOCK_NUM) with 10; lia).
    fold k. cbv zeta. by rewrite (bind_opt _ _ _ _ Hnd). }
  assert (get_physical_block_id node n (f_pos f / BLOCK_SIZE) true s = Ok (set_direct k NEG1 node, NEG1) s) as Hg.
  { unfold get_physical_block_id. rewrite (proj2 (Z.ltb_lt _ _)) by (change (Z.of_nat DIRECT_BLOCK_NUM) with 10; lia).
    fold k. cbv zeta. rewrite (bind_opt _ _ _ _ Hpk). cbn [Z.eqb andb]. by rewrite (bind_ok _ _ _ _ _ (alloc_block_full s Hr Hfull)). }
  rewrite (wp_ok _ _ _ _ _ (do_write_stops s fd f data (set_direct k NEG1 node) s Hf Hfn Hm ltac:(lia) Hd Hg)).
  cbn [fs_disk upd_disk]. rewrite with_inode_same by done. split; [done|]. split; [done|]. intros s2 Hs2 Hf2.
  pose proof (Hbad true s2 (inode_at (fs_disk s2) n)) as Hg2.
  rewrite (wp_ok _ _ _ _ _ (do_write_stops s2 fd f data (inode_at (fs_disk s2) n) s2 Hf2 Hfn Hm ltac:(lia) Hd
    (Hg2 ltac:(rewrite Hs2; by apply list_lookup_insert_eq)))). done.
Qed.
End FsWrite.

(** ** Examples: the empty file 5, written across the blocks 9 and 10 *)

Section Examples.
#[local] Notation card := (Z → Z).

Lemma file_ok_empty (d : card) node : inode_ok node → direct_ptr node = replicate DIRECT_BLOCK_NUM 0 →
  indirect_ptr node = 0 → double_indirect_ptr node = 0 → file_ok d node.
Proof.
  intros Hok Hd Hi Hdo. assert (∀ p, block_at d node p = 0) as Hz by (intros p; by apply empty_block).
  split; [done| |]; intros p; by rewrite Hz.
Qed.

Lemma fun_maps (d : card) : (∀ c, 0 ≤ d c < 256) → maps d.
Proof.
  intros H. split; [done|]. intros b _. apply Forall_forall. intros x [i [-> _]]%list_elem_of_fmap. apply H.
Qed.

Definition ex_map : card := sd_write (per := SECTOR_LEN) (λ _, 0) MAP_BASE 1 (3 :: replicate 511 0).
(** The card with the superblock that [do_mkfs] writes. *)
Definition ex_card (d : card) : card :=
  sd_write (per := SECTOR_LEN) d FS_START_SECTOR 1 (sb_bytes new_sb ++ replicate (SECTOR_LEN - length (sb_bytes new_sb)) 0).
Definition ex_grow_fs (d : card) (pos : Z) : fs_state (D := card) :=
  mk_fs (with_inode (ex_card d) 5 new_file) (replicate TEMP_BUF_LEN 0) new_sb true [mk_fdesc 5 O_RDWR pos true] [] 0.

Lemma ex_card_map d : (∀ c, 0 ≤ c < FS_BLOCK_NUM → bit (ex_card d) c = bit d c) ∧ (maps d → maps (ex_card d)).
Proof.
  apply map_frame. rewrite map_base_eq. intros x Hx. apply sd_read_other. change FS_START_SECTOR with 1048576. lia.
Qed.

Lemma ex_card_sb d : sb_at (ex_card d) = new_sb.
Proof. unfold sb_at, sb_sector, ex_card. rewrite sd_read_same by by vm_compute. by vm_compute. Qed.

Lemma ex_grow_bits d pos c : 0 ≤ c < FS_BLOCK_NUM → bit (fs_disk (ex_grow_fs d pos)) c = bit d c.
Proof.
  intros Hc. cbn [fs_disk ex_grow_fs]. rewrite (proj1 (with_inode_map (ex_card d) 5 new_file ltac:(done))) by done.
  by apply ex_card_map.
Qed.

Lemma new_file_ok : inode_ok new_file.
Proof. split; [|done]. by repeat constructor; vm_compute. Qed.

Lemma ex_grow_ready d pos : maps d → bit d 0 = true → ready (ex_grow_fs d pos).
Proof.
  intros Hm H0. split; [done|done|done|done| | |].
  - by apply (with_inode_map (ex_card d) 5 new_file), ex_card_map.
  - by rewrite ex_grow_bits.
  - cbn [fs_disk ex_grow_fs]. rewrite (heads_sb (ex_card d)) by by apply with_inode_heads. apply ex_card_sb.
Qed.

Lemma ex_grow_at d pos : inode_at (fs_disk (ex_grow_fs d pos)) 5 = new_file.
Proof. apply with_inode_same; [done|apply new_file_ok]. Qed.

Lemma ex_map_maps : maps ex_map.
Proof.
  apply fun_maps. intros c. unfold ex_map, sd_write, fun_device, fun_write. case_decide; [|lia].
  destruct ((3 :: replicate 511 0) !! _) as [y|] eqn:E; simpl; [|lia].
  apply (Forall_lookup_1 (λ y, 0 ≤ y < 256)) in E; [done|]. constructor; [lia|]. by apply Forall_replicate.
Qed.

Lemma ex_map_room pos : room (fs_disk (ex_grow_fs ex_map pos)) 6.
Proof.
  apply (room_bits ex_map); [apply ex_grow_bits|]. exists [2; 3; 4; 5; 6; 7].
  split; [by apply (bool_decide_unpack _); vm_compute|]. split; [done|]. by repeat constructor; vm_compute.
Qed.

Lemma do_write_grows_witness : wp (do_write 0 (replicate 10 7)) (ex_grow_fs ex_map 40955) (λ r _, r = 10).
Proof.
  eapply wp_mono.
  - apply (do_write_grows (D := card) 5 ltac:(done) (ex_grow_fs ex_map 40955) 0 (mk_fdesc 5 O_RDWR 40955 true)); try done.
    + apply ex_grow_ready; [apply ex_map_maps|by vm_compute].
    + rewrite ex_grow_at. by apply file_ok_empty; [apply new_file_ok|..].
  - intros r s' (w & -> & _ & _ & _ & Hroom). rewrite Hroom; [done|]. exact (ex_map_room 40955).
Defined.

Lemma write_then_read_witness :
  wp (do_write 0 (replicate 10 7);; do_lseek 0 40955 SEEK_SET;; do_read 0 10) (ex_grow_fs ex_map 40955)
    (λ r _, r = (10, replicate 10 7)).
Proof.
  eapply wp_mono.
  - apply (write_then_read (D := card) 5 ltac:(done) (ex_grow_fs ex_map 40955) 0 (mk_fdesc 5 O_RDWR 40955 true) (replicate 10 7)); try done.
    + apply ex_grow_ready; [apply ex_map_maps|by vm_compute].
    + rewrite ex_grow_at. by apply file_ok_empty; [apply new_file_ok|..].
    + exact (ex_map_room 40955).
  - by intros r s' (-> & _).
Defined.

Lemma full_card pos : full (fs_disk (ex_grow_fs (λ _, 255) pos)).
Proof.
  intros c Hc. rewrite ex_grow_bits by done. unfold bit, map_bit, map_byte. destruct (bit_place c) as (Hj & Hb & _); [lia|].
  replace (sd_read (λ _ : Z, 255) _ 1) with (replicate SECTOR_LEN 255) by by vm_compute.
  rewrite nth_lookup, lookup_replicate_2 by (unfold SECTOR_LEN; lia). by apply testbit_255.
Qed.

Lemma do_write_full_witness : wp (do_write 0 [1]) (ex_grow_fs (λ _, 255) 4096)
  (λ r s', r = 0 ∧ direct_ptr (inode_at (fs_disk s') 5) !! 1%nat = Some NEG1).
Proof.
  eapply wp_mono.
  - apply (do_write_full (D := card) 5 ltac:(done) (ex_grow_fs (λ _, 255) 4096) 0 (mk_fdesc 5 O_RDWR 4096 true) [1]); try done.
    + apply ex_grow_ready; [by apply fun_maps|by vm_compute].
    + rewrite ex_grow_at. by apply file_ok_empty; [apply new_file_ok|..].
    + apply full_card.
  - intros r s' (-> & -> & _). rewrite ex_grow_at. done.
Defined.
End Examples.
