(* ===== verification/FsInv.v ===== *)
(** The file system as a whole: which inodes are in use, that their files share
    no block, that directories lead to inodes in use; [do_write] of Fs keeps it. *)
From S2P Require Import Prelude KMonad Bytes Swap FsDisk FsDir Fs FsFile FsPath FsGrow FsAlloc FsWrite.

Section FsInv.
Context {D : Type} `{!BlockDevice SECTOR_LEN D}.
Implicit Types (s : fs_state (D := D)) (d : D) (node : inode_t) (b l m n : Z) (p q : place) (name : list Z).

Definition ibit d m : bool := map_bit d IMAP_BASE m.
Definition imaps d : Prop := map_ok d IMAP_BASE 1.
Definition used_inode d m : Prop := 0 ≤ m < NUM_INODES ∧ ibit d m = true.
Definition is_dir d m : Prop := i_type (inode_at d m) = FD_DIR.

(** A name that a C string can be, and that fits into an entry. *)
Definition name_ok name : Prop := name ≠ [] ∧ (length name < MAX_FNAME_LEN)%nat ∧ Forall (λ c, c ≠ 0) name.

(** The block [l] of a directory. *)
Definition entries_at d node l : list Z := block_bytes d (file_block d node l).

(** None of a directory's blocks is missing; its entries in use lead to inodes in
    use and have different names. *)
Record dir_ok d node : Prop := {
  do_block l : 0 ≤ l < num_blocks node → file_block d node l ≠ 0;
  do_used l j : 0 ≤ l < num_blocks node → (j < DENTRIES)%nat → entry_free (entries_at d node l) j = false →
    used_inode d (entry_inode (entries_at d node l) j);
  do_unique l l' j j' name : 0 ≤ l < num_blocks node → 0 ≤ l' < num_blocks node → (j < DENTRIES)%nat → (j' < DENTRIES)%nat →
    name_ok name → entry_named (entries_at d node l) name j = true → entry_named (entries_at d node l') name j' = true →
    l = l' ∧ j = j'
}.

Lemma dir_ok_same d d' node node' :
  num_blocks node' = num_blocks node →
  (∀ l, 0 ≤ l < num_blocks node → file_block d node l ≠ 0 →
    file_block d' node' l = file_block d node l ∧ block_bytes d' (file_block d node l) = block_bytes d (file_block d node l)) →
  (∀ x, used_inode d x → used_inode d' x) → dir_ok d node → dir_ok d' node'.
Proof.
  intros En Hs Hu [Hb He Hn].
  assert (∀ l, 0 ≤ l < num_blocks node → file_block d' node' l = file_block d node l ∧ entries_at d' node' l = entries_at d node l) as Hl.
  { intros l Hl. destruct (Hs l Hl (Hb l Hl)) as [E1 E2]. unfold entries_at. by rewrite E1, E2. }
  split; rewrite En.
  - intros l Hr. rewrite (proj1 (Hl l Hr)). by apply Hb.
  - intros l j Hr Hj. rewrite (proj2 (Hl l Hr)). intros Hf. by apply Hu, He.
  - intros l l' j j' name Hr Hr'. rewrite (proj2 (Hl l Hr)), (proj2 (Hl l' Hr')). by apply Hn.
Qed.

Record fs_inv d : Prop := {
  fi_maps : maps d;
  fi_imaps : imaps d;
  fi_zero : bit d 0 = true;
  fi_file m : used_inode d m → file_ok d (inode_at d m);
  fi_apart m m' p q : used_inode d m → used_inode d m' → m ≠ m' → place_ok p → place_ok q →
    block_at d (inode_at d m) p ≠ 0 → block_at d (inode_at d m) p ≠ block_at d (inode_at d m') q;
  fi_dir m : used_inode d m → is_dir d m → dir_ok d (inode_at d m)
}.

Lemma ibit_imap d d' m : heads d' = heads d → 0 ≤ m < NUM_INODES → ibit d' m = ibit d m.
Proof.
  intros E Hm. unfold ibit, map_bit, map_byte. change NUM_INODES with 4096 in Hm. rewrite (Z.div_small m 4096) by done.
  rewrite Z.add_0_r. fold (imap d') (imap d). by injection E as _ ->.
Qed.

Lemma used_imap d d' m : heads d' = heads d → used_inode d' m ↔ used_inode d m.
Proof. intros E. split; intros [Hm Hb]; (split; [done|]); by rewrite (ibit_imap d d' m E Hm) in *. Qed.

Lemma imaps_imap d d' : heads d' = heads d → imaps d → imaps d'.
Proof.
  intros E [Hb Hby]. split; [done|]. intros x Hx. assert (x = IMAP_BASE) as -> by lia.
  fold (imap d'). injection E as _ ->. by apply Hby.
Qed.

Lemma num_blocks_range node : i_size node < 2 ^ 32 → 0 ≤ num_blocks node < MAX_BLOCKS.
Proof.
  intros _. unfold num_blocks, BLOCK_SIZE, MAX_BLOCKS. pose proof (u32_range (i_size node + 4096 - 1)) as H.
  change (2 ^ 32) with 4294967296 in H. Z.to_euclidean_division_equations; lia.
Qed.

(** ** What a change of one file does to the others *)

Section Others.
Context (n : Z) (d d' : D).
Hypothesis (Hinv : fs_inv d) (Hn : used_inode d n).
Hypothesis Hk : kept n d (inode_at d n) d' (inode_at d' n).

Lemma other_inode m : used_inode d m → m ≠ n → inode_at d' m = inode_at d m.
Proof. intros [Hm _] Hne. by apply (kp_inodes _ _ _ _ _ Hk). Qed.

Lemma other_bytes m p : used_inode d m → m ≠ n → place_ok p → block_at d (inode_at d m) p ≠ 0 →
  block_bytes d' (block_at d (inode_at d m) p) = block_bytes d (block_at d (inode_at d m) p).
Proof.
  intros Hm Hne Hp Hz. destruct (fo_valid _ _ (fi_file _ Hinv m Hm) p Hp Hz) as [Hv Hb].
  apply (kp_others _ _ _ _ _ Hk); [done|done|]. intros q Hq E. symmetry in E. by apply (fi_apart _ Hinv m n p q) in E.
Qed.

Lemma other_block m p : used_inode d m → m ≠ n → place_ok p →
  block_at d' (inode_at d' m) p = block_at d (inode_at d m) p.
Proof.
  intros Hm Hne Hp. rewrite other_inode by done. apply block_at_eq; [by intros []| |done].
  intros q Hi Hq Hz k Hkk. unfold index_word. by rewrite (other_bytes m q).
Qed.

Lemma other_file m : used_inode d m → m ≠ n → file_ok d' (inode_at d' m).
Proof.
  intros Hm Hne. destruct (fi_file _ Hinv m Hm) as [Hi Hv Hj]. split; [by rewrite other_inode| |].
  - intros p Hp. rewrite other_block by done. intros Hz. destruct (Hv p Hp Hz) as [Hvb Hb]. split; [done|].
    apply (kp_bits _ _ _ _ _ Hk); [unfold valid_block in Hvb; lia|done].
  - intros p q Hp Hq. rewrite !other_block by done. by apply Hj.
Qed.

Lemma other_file_block m l : used_inode d m → m ≠ n → 0 ≤ l < MAX_BLOCKS →
  file_block d' (inode_at d' m) l = file_block d (inode_at d m) l ∧
  (file_block d (inode_at d m) l ≠ 0 →
   block_bytes d' (file_block d (inode_at d m) l) = block_bytes d (file_block d (inode_at d m) l)).
Proof.
  intros Hm Hne Hl. destruct (data_place_ok l Hl) as [Hp _]. rewrite !file_block_place by done.
  split; [by apply other_block|]. by apply other_bytes.
Qed.

Lemma other_dir m : used_inode d m → m ≠ n → is_dir d m → dir_ok d' (inode_at d' m).
Proof.
  intros Hm Hne Hdir. eapply dir_ok_same; [by rewrite other_inode| | |by apply (fi_dir _ Hinv)].
  - intros l Hl Hz. pose proof (num_blocks_range (inode_at d m)).
    pose proof (inode_ok_size_range _ (fo_inode _ _ (fi_file _ Hinv m Hm))).
    destruct (other_file_block m l Hm Hne ltac:(lia)) as [E Hb]. by rewrite E, Hb.
  - intros x. apply (used_imap d), (kp_heads _ _ _ _ _ Hk).
Qed.

(** Names in other directories are looked up as before. *)
Lemma first_block_ext d1 d2 node1 node2 name i k :
  (∀ l, Z.of_nat i ≤ l < Z.of_nat i + Z.of_nat k →
     block_lookup d2 name (file_block d2 node2 l) = block_lookup d1 name (file_block d1 node1 l)) →
  first_block d2 node2 name i k = first_block d1 node1 name i k.
Proof.
  revert i. induction k as [|k IH]; intros i H; [done|]. simpl. rewrite H by lia.
  destruct (block_lookup d1 name (file_block d1 node1 (Z.of_nat i))); [done|]. apply IH. intros l Hl. apply H. lia.
Qed.

Lemma other_lookup m name : used_inode d m → m ≠ n → dir_lookup d' m name = dir_lookup d m name.
Proof.
  intros Hm Hne. unfold dir_lookup. rewrite other_inode by done. destruct (negb _); [done|]. f_equal.
  apply first_block_ext. intros l Hl.
  assert (0 ≤ l < MAX_BLOCKS) as Hlm.
  { pose proof (num_blocks_range (inode_at d m)). pose proof (inode_ok_size_range _ (fo_inode _ _ (fi_file _ Hinv m Hm))). lia. }
  destruct (other_file_block m l Hm Hne Hlm) as [E Hb]. rewrite (other_inode m Hm Hne) in E. rewrite E.
  unfold block_lookup. destruct (Z.eqb_spec (file_block d (inode_at d m) l) 0) as [Ez|Hz]; [by rewrite orb_true_r|].
  by rewrite Hb.
Qed.
End Others.

(** A file grows, or a block of it changes. *)
Lemma extends_inv n d d' :
  fs_inv d → used_inode d n → extends n d (inode_at d n) d' (inode_at d' n) →
  (is_dir d n → dir_ok d' (inode_at d' n)) → fs_inv d'.
Proof.
  intros Hinv Hn Hx Hdir. pose proof (ex_kept _ _ _ _ _ Hx) as Hk.
  assert (∀ m, used_inode d' m ↔ used_inode d m) as Hu by (intros m; apply used_imap, Hk).
  assert (∀ m p q, used_inode d m → m ≠ n → place_ok p → place_ok q →
    block_at d (inode_at d m) p ≠ 0 → block_at d (inode_at d m) p ≠ block_at d' (inode_at d' n) q) as Hap.
  { intros m p q Hm Hne Hp Hq Hz E. destruct (fo_valid _ _ (fi_file _ Hinv m Hm) p Hp Hz) as [Hv Hb].
    destruct (decide (block_at d (inode_at d n) q = 0)) as [E0|Hnz].
    - rewrite E in Hb, Hz. by rewrite (ex_fresh _ _ _ _ _ Hx q Hq E0 Hz) in Hb.
    - rewrite (kp_blocks _ _ _ _ _ Hk q Hq Hnz) in E. by apply (fi_apart _ Hinv m n p q) in E. }
  split.
  - apply Hk.
  - eapply imaps_imap; [apply Hk|apply Hinv].
  - apply (kp_bits _ _ _ _ _ Hk); [done|apply Hinv].
  - intros m Hm%Hu. destruct (decide (m = n)) as [->|Hne]; [apply Hx|]. by apply (other_file n d).
  - intros m m' p q Hm%Hu Hm'%Hu Hne Hp Hq. destruct (decide (m = n)) as [->|Hn1]; [|destruct (decide (m' = n)) as [->|Hn2]].
    + rewrite (other_block n d d' Hinv Hn Hk m' q) by done. intros Hz E. symmetry in E. eapply Hap in E; try done. by rewrite E.
    + rewrite (other_block n d d' Hinv Hn Hk m p) by done. intros Hz. by apply Hap.
    + rewrite (other_block n d d' Hinv Hn Hk m p), (other_block n d d' Hinv Hn Hk m' q) by done. by apply (fi_apart _ Hinv).
  - intros m Hm%Hu Hd. destruct (decide (m = n)) as [->|Hne].
    + apply Hdir. unfold is_dir in *. destruct (kp_meta _ _ _ _ _ Hk) as [_ Et]. congruence.
    + apply (other_dir n d); try done. unfold is_dir in *. by rewrite <- (other_inode n d d' Hk m).
Qed.
(** Writing into a file keeps the file system consistent, unless the card runs
    out of blocks, and every name leads where it led. *)
Theorem do_write_inv s fd f data n :
  get_fdesc s fd = Some f → f_inode f = n → f_mode f ≠ O_RDONLY → ready s → fs_inv (fs_disk s) →
  used_inode (fs_disk s) n → ¬ is_dir (fs_disk s) n → 0 ≤ f_pos f → f_pos f + Z.of_nat (length data) < 2 ^ 32 →
  wp (do_write fd data) s (λ r s', ready s' ∧
    (r = Z.of_nat (length data) → fs_inv (fs_disk s')) ∧
    ∀ m name, used_inode (fs_disk s) m → m ≠ n → dir_lookup (fs_disk s') m name = dir_lookup (fs_disk s) m name).
Proof.
  intros Hf Hfn Hm Hr Hinv Hn Hnd Hp Hend. pose proof (fi_file _ Hinv n Hn) as Hok.
  eapply wp_mono; [by apply (do_write_ok n (proj1 Hn) s fd f data)|].
  intros r s' (w & -> & [_ Hk _ _ _ Hr'] & Hw). split; [done|]. split.
  - intros E. destruct Hw as [[_ Hx]|[Hlt _]]; [|lia]. by eapply extends_inv.
  - intros m name Hmu Hne. by apply (other_lookup n (fs_disk s)).
Qed.
End FsInv.
