(* ===== verification/FsTouch.v ===== *)
(** New files: [do_touch] of Fs makes an empty file with its name in the directory,
    and what that leaves alone. *)
From S2P Require Import Prelude KMonad Bytes Swap FsDisk FsDir Fs FsFile FsPath FsGrow FsAlloc FsWrite FsInv.

Section FsTouch.
Context {D : Type} `{!BlockDevice SECTOR_LEN D}.
Implicit Types (s : fs_state (D := D)) (d : D) (node : inode_t) (b l m n : Z) (p q : place) (name : list Z).

(** ** A new inode *)

(** The card [d1] is [d] but for the bit of the inode [m], which is [v]. *)
Record imarked d d1 m (v : bool) : Prop := {
  im_maps : maps d1;
  im_imaps : imaps d1;
  im_sb : sb_at d1 = sb_at d;
  im_bits c : 0 ≤ c < FS_BLOCK_NUM → bit d1 c = bit d c;
  im_ibits x : 0 ≤ x < NUM_INODES → ibit d1 x = if decide (x = m) then v else ibit d x;
  im_inodes x : 0 ≤ x < NUM_INODES → inode_at d1 x = inode_at d x;
  im_bytes c : valid_block c → block_bytes d1 c = block_bytes d c
}.

Lemma bit_changed_imarked d d1 m v : maps d → bit_changed IMAP_BASE 1 d d1 m v → imarked d d1 m v.
Proof.
  intros Hm [Hok Hbits Ho]. change (4096 * Z.of_nat 1) with NUM_INODES in Hbits. change (Z.of_nat 1) with 1 in Ho.
  change IMAP_BASE with 1048577 in Ho.
  destruct (map_frame d d1) as [Hb1 Hm1].
  { rewrite map_base_eq. intros x Hx. apply Ho. lia. }
  split; [by apply Hm1|done| |done|exact Hbits| |].
  - unfold sb_at, sb_sector. rewrite Ho; [done|]. change FS_START_SECTOR with 1048576. lia.
  - intros x Hx. unfold inode_at. rewrite Ho; [done|].
    destruct (inode_place x Hx) as (-> & _ & ?). change inode_table_start with 1048610. lia.
  - intros c Hc. apply Ho. destruct (block_sector_valid c) as [-> ->]; unfold valid_block in Hc; lia.
Qed.

(** The card [d1] is [d] with the bit of the free inode [m] set. *)
Record taken d d1 m : Prop := {
  tk_range : 0 ≤ m < NUM_INODES;
  tk_clear : ibit d m = false;
  tk_marked : imarked d d1 m true;
  tk_used x : used_inode d1 x ↔ x = m ∨ used_inode d x
}.

(** The card [d'] is [d] with the free inode [m] taken; it is [node]. *)
Record created d d' m node : Prop := {
  cr_range : 0 ≤ m < NUM_INODES;
  cr_clear : ibit d m = false;
  cr_maps : maps d';
  cr_imaps : imaps d';
  cr_sb : sb_at d' = sb_at d;
  cr_bits c : 0 ≤ c < FS_BLOCK_NUM → bit d c = true → bit d' c = true;
  cr_used x : used_inode d' x ↔ x = m ∨ used_inode d x;
  cr_node : inode_at d' m = node;
  cr_inodes x : 0 ≤ x < NUM_INODES → x ≠ m → inode_at d' x = inode_at d x;
  cr_bytes c : valid_block c → bit d c = true → block_bytes d' c = block_bytes d c
}.

Lemma alloc_inode_ok s : ready s → imaps (fs_disk s) →
  wp alloc_inode s (λ m s',
    (m = NEG1 ∧ s' = s ∧ ∀ x, 0 ≤ x < NUM_INODES → ibit (fs_disk s) x = true) ∨
    ∃ d1, s' = upd_disk d1 s ∧ taken (fs_disk s) d1 m).
Proof.
  intros Hr Hm. unfold alloc_inode.
  eapply wp_mono; [apply (alloc_bit_ok _ inode_map_offset s (rd_sb _ Hr)); by rewrite (rd_ibase _ Hr)|].
  rewrite (rd_ibase _ Hr). change (4096 * Z.of_nat _) with NUM_INODES.
  intros m s' [(-> & -> & Hf)|(Hmr & Hz & _ & d1 & -> & Hc)]; [by left|]. right. exists d1. split; [done|].
  change (Z.to_nat INODE_MAP_SECTORS) with 1%nat in *. apply bit_changed_imarked in Hc; [|apply Hr].
  split; try done. intros x. unfold used_inode. split.
  - intros [Hx Hxb]. rewrite (im_ibits _ _ _ _ Hc) in Hxb by done. case_decide; [by left|by right].
  - intros [->|[Hx Hxb]]; (split; [done|]); rewrite (im_ibits _ _ _ _ Hc) by done; by case_decide.
Qed.

(** The inode is written. *)
Lemma taken_created d d1 m node : taken d d1 m → inode_ok node →
  created d (with_inode d1 m node) m node ∧ ∀ c, 0 ≤ c < FS_BLOCK_NUM → bit (with_inode d1 m node) c = bit d c.
Proof.
  intros [Hr Hc [Hm Him Hsb Hb _ Hi Hby] Hu] Hn. destruct (with_inode_map d1 m node Hr) as [Hb' Hm'].
  pose proof (with_inode_heads d1 m node Hr) as Hh.
  assert (∀ c, 0 ≤ c < FS_BLOCK_NUM → bit (with_inode d1 m node) c = bit d c) as Hbits
    by (intros c Hcr; rewrite Hb' by done; by apply Hb).
  split; [|done]. split; try done.
  - by apply Hm'.
  - by eapply imaps_imap.
  - rewrite <- Hsb. by apply heads_sb.
  - intros c Hcr. by rewrite Hbits.
  - intros x. rewrite (used_imap d1) by done. apply Hu.
  - by apply with_inode_same.
  - intros x Hx Hne. rewrite with_inode_ne by done. by apply Hi.
  - intros c Hvc _. rewrite with_inode_block by done. by apply Hby.
Qed.

Section Created.
Context (d d' : D) (m : Z) (node : inode_t).
Hypothesis (Hinv : fs_inv d) (Hc : created d d' m node).

Lemma created_old x : used_inode d x → x ≠ m.
Proof. intros [_ Hb] ->. by rewrite (cr_clear _ _ _ _ Hc) in Hb. Qed.

Lemma created_inode x : used_inode d x → inode_at d' x = inode_at d x.
Proof. intros Hx. apply (cr_inodes _ _ _ _ Hc); [apply Hx|by apply created_old]. Qed.

Lemma created_block x p : used_inode d x → place_ok p → block_at d' (inode_at d' x) p = block_at d (inode_at d x) p.
Proof.
  intros Hx Hp. rewrite created_inode by done. apply block_at_eq; [by intros []| |done].
  intros q Hi Hq Hz k Hk. unfold index_word. rewrite (cr_bytes _ _ _ _ Hc); [done|..]; by apply (fo_valid _ _ (fi_file _ Hinv x Hx)).
Qed.

Lemma created_file_block x l : used_inode d x → 0 ≤ l < MAX_BLOCKS →
  file_block d' (inode_at d' x) l = file_block d (inode_at d x) l ∧
  (file_block d (inode_at d x) l ≠ 0 →
   block_bytes d' (file_block d (inode_at d x) l) = block_bytes d (file_block d (inode_at d x) l)).
Proof.
  intros Hx Hl. destruct (data_place_ok l Hl) as [Hp _]. rewrite !file_block_place by done.
  split; [by apply created_block|]. intros Hz. apply (cr_bytes _ _ _ _ Hc); by apply (fo_valid _ _ (fi_file _ Hinv x Hx)).
Qed.

Lemma num_blocks_used x : used_inode d x → 0 ≤ num_blocks (inode_at d x) < MAX_BLOCKS.
Proof. intros Hx. apply num_blocks_range. apply (inode_ok_size_range _ (fo_inode _ _ (fi_file _ Hinv x Hx))). Qed.

Lemma created_lookup x name : used_inode d x → dir_lookup d' x name = dir_lookup d x name.
Proof.
  intros Hx. unfold dir_lookup. rewrite created_inode by done. destruct (negb _); [done|]. f_equal.
  apply first_block_ext. intros l Hl. pose proof (num_blocks_used x Hx).
  destruct (created_file_block x l Hx ltac:(lia)) as [E Hb]. rewrite created_inode in E by done. rewrite E.
  unfold block_lookup. destruct (Z.eqb_spec (file_block d (inode_at d x) l) 0) as [Ez|Hz]; [by rewrite orb_true_r|].
  by rewrite Hb.
Qed.

(** The new file's blocks were free. *)
Lemma created_inv : file_ok d' node → (∀ p, place_ok p → block_at d' node p ≠ 0 → bit d (block_at d' node p) = false) →
  (i_type node = FD_DIR → dir_ok d' node) → fs_inv d'.
Proof.
  intros Hf Hfresh Hdir.
  assert (∀ x p q, used_inode d x → place_ok p → place_ok q → block_at d (inode_at d x) p ≠ 0 →
    block_at d (inode_at d x) p ≠ block_at d' node q) as Hap.
  { intros x p q Hx Hp Hq Hz E. destruct (fo_valid _ _ (fi_file _ Hinv x Hx) p Hp Hz) as [_ Hb].
    rewrite E in Hb, Hz. by rewrite Hfresh in Hb. }
  split.
  - apply Hc.
  - apply Hc.
  - apply (cr_bits _ _ _ _ Hc); [done|apply Hinv].
  - intros x [->|Hx]%(cr_used _ _ _ _ Hc); [by rewrite (cr_node _ _ _ _ Hc)|].
    destruct (fi_file _ Hinv x Hx) as [Hi Hv Hj]. split; [by rewrite created_inode| |].
    + intros p Hp. rewrite created_block by done. intros Hne. destruct (Hv p Hp Hne) as [Hvb Hb]. split; [done|].
      apply (cr_bits _ _ _ _ Hc); [unfold valid_block in Hvb; lia|done].
    + intros p q Hp Hq. rewrite !created_block by done. by apply Hj.
  - intros x x' p q [->|Hx]%(cr_used _ _ _ _ Hc) [->|Hx']%(cr_used _ _ _ _ Hc) Hne Hp Hq; [done| | |].
    + rewrite (cr_node _ _ _ _ Hc), created_block by done. intros Hz E. symmetry in E. apply Hap in E; try done. by rewrite E.
    + rewrite (cr_node _ _ _ _ Hc), created_block by done. intros Hz. by apply Hap.
    + rewrite !created_block by done. by apply (fi_apart _ Hinv).
  - intros x [->|Hx]%(cr_used _ _ _ _ Hc) Hd; unfold is_dir in Hd.
    + rewrite (cr_node _ _ _ _ Hc) in *. by apply Hdir.
    + rewrite created_inode in Hd by done. eapply dir_ok_same; [by rewrite created_inode| | |by apply (fi_dir _ Hinv)].
      * intros l Hl Hz. pose proof (num_blocks_used x Hx). destruct (created_file_block x l Hx ltac:(lia)) as [E Hb]. by rewrite E, Hb.
      * intros y Hy. apply (cr_used _ _ _ _ Hc). by right.
Qed.

(** A file without blocks. *)
Lemma created_empty : inode_ok node → i_type node = FD_FILE → (∀ p, block_at d' node p = 0) → fs_inv d'.
Proof.
  intros Hok Ht Hz. apply created_inv.
  - split; [done| |]; intros p; by rewrite Hz.
  - intros p _. by rewrite Hz.
  - by rewrite Ht.
Qed.
End Created.
(** ** A new entry *)

Lemma length_dentry e : (length (d_name e) < MAX_FNAME_LEN)%nat → length (dentry_bytes e) = DENTRY_SIZE.
Proof.
  unfold MAX_FNAME_LEN, DENTRY_SIZE, dentry_bytes. intros Hl. rewrite !length_app, length_replicate, length_bytes_of.
  unfold MAX_FNAME_LEN. lia.
Qed.

(** The block [bs] with the entry [e] in its place [j]. *)
Definition put_entry (j : nat) (e : dentry_t) (bs : list Z) : list Z := splice (DENTRY_SIZE * j) (dentry_bytes e) bs.

Lemma put_entry_other j j' e bs name :
  length bs = BLOCK_LEN → (length (d_name e) < MAX_FNAME_LEN)%nat → (length name < MAX_FNAME_LEN)%nat →
  (j < DENTRIES)%nat → (j' < DENTRIES)%nat → j' ≠ j →
  entry_free (put_entry j e bs) j' = entry_free bs j' ∧ entry_named (put_entry j e bs) name j' = entry_named bs name j' ∧
  entry_inode (put_entry j e bs) j' = entry_inode bs j'.
Proof.
  intros Hl He Hn Hj Hj' Hne. apply entry_eq; [done|]. unfold entry_at, put_entry. pose proof (length_dentry e He) as Hle.
  unfold DENTRY_SIZE, DENTRIES, BLOCK_LEN in *. apply slice_splice_other; rewrite Hle; [rewrite Hl|]; lia.
Qed.

Lemma put_entry_at j e bs : length bs = BLOCK_LEN → (length (d_name e) < MAX_FNAME_LEN)%nat → (j < DENTRIES)%nat →
  take DENTRY_SIZE (entry_at (put_entry j e bs) j) = dentry_bytes e.
Proof.
  intros Hl He Hj. unfold entry_at, put_entry. pose proof (length_dentry e He) as Hle.
  unfold DENTRY_SIZE, DENTRIES, BLOCK_LEN in *. apply slice_splice_same; rewrite Hle; [rewrite Hl|]; lia.
Qed.

Lemma str_eq_names name name' rest : Forall (λ c, c ≠ 0) name → Forall (λ c, c ≠ 0) name' →
  str_eq (name ++ 0 :: rest) name' = bool_decide (name' = name).
Proof.
  intros Hn Hn'. revert name Hn. induction Hn' as [|c name' Hc Hn' IH]; intros name Hn.
  - destruct Hn as [|x name Hx Hn]; simpl; [done|]. rewrite (proj2 (Z.eqb_neq x 0)) by done. done || by rewrite bool_decide_false.
  - destruct Hn as [|x name Hx Hn]; simpl.
    + destruct c; [done|done|done].
    + rewrite IH by done. destruct (Z.eqb_spec x c) as [->|Hne]; simpl.
      * apply bool_decide_ext. split; [by intros ->|by intros [=]].
      * rewrite bool_decide_false; [done|]. congruence.
Qed.

Lemma put_entry_same j e bs name :
  length bs = BLOCK_LEN → name_ok (d_name e) → name_ok name → (j < DENTRIES)%nat → 0 ≤ d_inode e < 2 ^ 32 →
  entry_free (put_entry j e bs) j = false ∧
  entry_named (put_entry j e bs) name j = bool_decide (name = d_name e) ∧ entry_inode (put_entry j e bs) j = d_inode e.
Proof.
  intros Hl (Hne & Hle & Hz) (Hne' & Hl' & Hz') Hj Hi. pose proof (length_dentry e Hle) as Hlen.
  destruct (entry_eq (put_entry j e bs) (dentry_bytes e) j 0 name Hl') as (-> & -> & ->).
  { rewrite put_entry_at by done. unfold entry_at. rewrite Nat.mul_0_r, drop_0. symmetry. by apply take_ge; rewrite Hlen. }
  unfold entry_named, entry_free, entry_inode, entry_at. rewrite Nat.mul_0_r, !drop_0.
  assert (nth 0 (dentry_bytes e) 0 =? 0 = false) as ->.
  { unfold dentry_bytes. destruct (d_name e) as [|c cs]; [done|]. simpl. apply Forall_cons in Hz as [Hc _]. by apply Z.eqb_neq. }
  split; [done|]. cbn [negb andb]. split.
  - unfold dentry_bytes. destruct (MAX_FNAME_LEN - length (d_name e))%nat as [|k] eqn:Ek; [lia|]. simpl replicate.
    rewrite <- app_comm_cons. by apply str_eq_names.
  - unfold dentry_bytes. rewrite (assoc_L (++)). rewrite drop_app_length'.
    + rewrite take_ge by by rewrite length_bytes_of. rewrite of_bytes_of. by apply Z.mod_small.
    + rewrite length_app, length_replicate. unfold MAX_FNAME_LEN in *. lia.
Qed.
Lemma free_in_buf d b t : length t = TEMP_BUF_LEN →
  first_index DENTRIES (entry_free (splice 0 (block_bytes d b) t)) = first_index DENTRIES (entry_free (block_bytes d b)).
Proof.
  intros Ht. apply first_index_ext. intros j Hj. apply (entry_in_buf d b t j []); [done|done|unfold MAX_FNAME_LEN; simpl; lia].
Qed.

Lemma entry_fits j : (j < DENTRIES)%nat → (DENTRY_SIZE * j + DENTRY_SIZE ≤ BLOCK_LEN)%nat.
Proof. unfold DENTRIES, DENTRY_SIZE, BLOCK_LEN. lia. Qed.

(** The entry [e] is in a free place of a block that the directory has. *)
Definition put_in_block d node e d' : Prop := ∃ l j, 0 ≤ l < num_blocks node ∧ (j < DENTRIES)%nat ∧
  let b := file_block d node l in
  b ≠ 0 ∧ b ≠ NEG1 ∧ entry_free (block_bytes d b) j = true ∧ d' = with_block d b (put_entry j e (block_bytes d b)).

Lemma append_loop_ok node n e s :
  length (tbuf s) = TEMP_BUF_LEN → length (direct_ptr node) = DIRECT_BLOCK_NUM → (length (d_name e) < MAX_FNAME_LEN)%nat →
  wp (each_block node n (λ p_block,
    b ← gets tbuf;
    match first_index DENTRIES (entry_free b) with
    | Some j =>
        buf_set (DENTRY_SIZE * j) (dentry_bytes e);;
        write_block p_block 0;;
        mret (Some ())
    | None => mret None
    end)) s (λ r s', match r with
      | None => same_but_buf s s'
      | Some _ => ∃ d' t, length t = TEMP_BUF_LEN ∧ put_in_block (fs_disk s) node e d' ∧ s' = upd_disk d' (upd_tbuf t s)
      end).
Proof.
  intros Hl Hd He. unfold each_block. apply (wp_for_ret (λ _ s', same_but_buf s s')); [apply same_but_buf_refl| |done].
  intros i s1 Hi Hs1. assert (length (tbuf s1) = TEMP_BUF_LEN ∧ fs_disk s1 = fs_disk s) as [Hl1 Hd1].
  { destruct Hs1 as (t & Ht & ->). simpl. split; [congruence|done]. }
  destruct (get_physical_ok node n (Z.of_nat i) false s1 Hl1 Hd ltac:(lia)) as (s2 & Hg & Hs2); [by left|].
  rewrite wp_bind, (wp_ok _ _ _ _ _ Hg), Hd1. cbn [snd]. set (b := file_block (fs_disk s) node (Z.of_nat i)).
  assert (same_but_buf s s2) as Hs by by eapply same_but_buf_trans.
  destruct (Z.eqb_spec b NEG1) as [|Hb1], (Z.eqb_spec b 0) as [|Hb0]; cbn [orb]; [done..|].
  assert (length (tbuf s2) = TEMP_BUF_LEN ∧ fs_disk s2 = fs_disk s) as [Hl2 Hd2].
  { destruct Hs as (t & Ht & ->). simpl. split; [congruence|done]. }
  destruct (read_block_ok b s2 Hl2) as [Hr Hl3]. rewrite wp_bind, (wp_ok _ _ _ _ _ Hr), wp_bind, wp_gets. cbn [tbuf upd_tbuf].
  rewrite free_in_buf by done. rewrite Hd2 in *. destruct (first_index DENTRIES (entry_free (block_bytes (fs_disk s) b))) as [j|] eqn:E.
  - apply first_index_Some in E as (Hj & Hfree & _). pose proof (length_dentry e He) as Hle. pose proof (entry_fits j Hj).
    apply (store_chunk_ok b (block_bytes (fs_disk s) b)); [done|by apply read_block_buf|rewrite Hle; lia|].
    intros t Ht. rewrite wp_ret. destruct Hs as (t2 & Ht2 & ->). eexists _, t. split; [done|]. split; [|reflexivity].
    exists (Z.of_nat i), j. split; [lia|]. done.
  - rewrite wp_ret. eapply same_but_buf_trans; [exact Hs|]. eexists. split; [|reflexivity]. cbn [tbuf upd_tbuf]. congruence.
Qed.
(** The directory [node'] has the entry [e], in what was a free place of its
    block [l0], and all other entries of [node]. *)
Record added n d node e d' node' : Prop := {
  ad_ext : extends n d node d' node';
  ad_entry : ∃ l0 j bs, 0 ≤ l0 < num_blocks node' ∧ (j < DENTRIES)%nat ∧ length bs = BLOCK_LEN ∧ entry_free bs j = true ∧
    block_bytes d' (file_block d' node' l0) = put_entry j e bs ∧
    (bs = block_bytes d (file_block d node l0) ∧ l0 < num_blocks node ∨ bs = replicate BLOCK_LEN 0 ∧ num_blocks node ≤ l0) ∧
    ∀ l, 0 ≤ l < num_blocks node' → l ≠ l0 → l < num_blocks node ∧ file_block d' node' l = file_block d node l ∧
      block_bytes d' (file_block d node l) = block_bytes d (file_block d node l);
  ad_blocks : num_blocks node ≤ num_blocks node' < MAX_BLOCKS ∧ ∀ l, 0 ≤ l < num_blocks node' → file_block d' node' l ≠ 0
}.

Lemma put_other_block d node l l' bs :
  maps d → file_ok d node → 0 ≤ l < MAX_BLOCKS → 0 ≤ l' < MAX_BLOCKS → l' ≠ l →
  file_block d node l ≠ 0 → file_block d node l' ≠ 0 →
  block_bytes (with_block d (file_block d node l) bs) (file_block d node l') = block_bytes d (file_block d node l').
Proof.
  intros Hm Hf Hl Hl' Hne Hz Hz'. destruct (data_place_ok l Hl) as [Hp _], (data_place_ok l' Hl') as [Hp' _].
  rewrite !file_block_place in * by done. apply with_block_ne; [by apply (fo_valid _ _ Hf)|by apply (fo_valid _ _ Hf)|].
  intros E. apply Hne. symmetry. apply data_place_inj; [done|done|]. by apply (fo_inj _ _ Hf).
Qed.

Lemma same_file_block d d' node l : (∀ p, place_ok p → block_at d' node p = block_at d node p) → 0 ≤ l < MAX_BLOCKS →
  file_block d' node l = file_block d node l.
Proof. intros H Hl. rewrite !file_block_place by done. apply H. by apply data_place_ok. Qed.

Lemma put_in_block_added n d node e d' :
  maps d → file_ok d node → 0 ≤ num_blocks node < MAX_BLOCKS →
  (∀ l, 0 ≤ l < num_blocks node → file_block d node l ≠ 0) →
  (length (d_name e) < MAX_FNAME_LEN)%nat → put_in_block d node e d' → added n d node e d' node.
Proof.
  intros Hm Hf Hnb Hall He (l & j & Hl & Hj & Hb0 & _ & Hfree & ->). set (b := file_block d node l) in *.
  assert (0 ≤ l < MAX_BLOCKS) as Hlm by lia. set (bs := put_entry j e (block_bytes d b)).
  destruct (with_block_extends n d node l bs Hm Hf Hlm Hb0) as [Hx Hat]. fold b in Hx, Hat.
  assert (∀ l, 0 ≤ l < MAX_BLOCKS → file_block (with_block d b bs) node l = file_block d node l) as Hfb
    by (intros; by apply same_file_block).
  split; [done| |].
  - exists l, j, (block_bytes d b). split; [done|]. split; [done|]. split; [apply length_block|]. split; [done|]. split; [|split].
    + rewrite Hfb by done. fold b. apply with_block_same. unfold bs, put_entry. pose proof (entry_fits j Hj).
      rewrite length_splice; rewrite length_block; [done|]. by rewrite length_dentry.
    + left. split; [done|apply Hl].
    + intros l' Hl' Hne. split; [lia|]. rewrite Hfb by lia. split; [done|]. apply put_other_block; try done; [lia|]. by apply Hall.
  - split; [lia|]. intros l' Hl'. rewrite Hfb by lia. by apply Hall.
Qed.

Lemma num_blocks_next node : 0 ≤ i_size node < 2 ^ 31 →
  num_blocks (set_size (u32 (i_size node + BLOCK_SIZE)) node) = num_blocks node + 1 ∧ 0 ≤ num_blocks node < MAX_BLOCKS - 1 ∧
  0 ≤ u32 (i_size node + BLOCK_SIZE) < 2 ^ 32.
Proof.
  change (2 ^ 31) with 2147483648. intros Hs. unfold num_blocks, BLOCK_SIZE, MAX_BLOCKS. simpl.
  rewrite (u32_id (i_size node + 4096)), !u32_id by lia. change (2 ^ 32) with 4294967296.
  split; [|split]; Z.to_euclidean_division_equations; lia.
Qed.

Lemma new_block_added n d node e d1 node1 :
  maps d → file_ok d node → 0 ≤ i_size node < 2 ^ 31 →
  (∀ l, 0 ≤ l < num_blocks node → file_block d node l ≠ 0) → (length (d_name e) < MAX_FNAME_LEN)%nat →
  extends n d node d1 node1 → data_kept d node d1 → i_size node1 = i_size node →
  let b := file_block d1 node1 (num_blocks node) in
  b ≠ 0 →
  added n d node e (with_block d1 b (put_entry 0 e (replicate BLOCK_LEN 0)))
    (set_size (u32 (i_size node1 + BLOCK_SIZE)) node1).
Proof.
  intros Hm Hf Hsz Hall He Hx Hdk Hsz1 b Hb. destruct (num_blocks_next node Hsz) as (Hnext & Hnb & Hsz').
  set (bs := put_entry 0 e _). set (node2 := set_size _ node1).
  assert (num_blocks node2 = num_blocks node + 1) as Hn2 by (unfold node2; rewrite <- Hnext, <- Hsz1; done).
  assert (maps d1 ∧ file_ok d1 node1) as [Hm1 Hf1] by by split; apply Hx.
  destruct (with_block_extends n d1 node1 (num_blocks node) bs Hm1 Hf1 ltac:(lia) Hb) as [Hx1 Hat]. fold b in Hx1, Hat.
  set (d2 := with_block d1 b bs) in *.
  assert (∀ l, 0 ≤ l < MAX_BLOCKS → file_block d2 node2 l = file_block d1 node1 l) as Hfb.
  { intros l Hl. change (file_block d2 node2 l) with (file_block d2 node1 l). by apply same_file_block. }
  assert (∀ l, 0 ≤ l < num_blocks node → file_block d1 node1 l = file_block d node l) as Hold.
  { intros l Hl. apply (kept_block n d node d1 node1); [apply Hx|lia|by apply Hall]. }
  split.
  - apply extends_size; [by rewrite Hsz1|]. by eapply extends_trans.
  - exists (num_blocks node), 0%nat, (replicate BLOCK_LEN 0). rewrite Hn2. split; [lia|]. split; [unfold DENTRIES; lia|].
    split; [apply length_replicate|]. split; [done|]. split; [|split].
    + rewrite Hfb by lia. fold b. apply with_block_same. unfold bs, put_entry.
      rewrite length_splice; rewrite length_replicate; [done|]. rewrite length_dentry by done. unfold DENTRY_SIZE, BLOCK_LEN. lia.
    + right. split; [done|lia].
    + intros l Hl Hne. split; [lia|]. rewrite Hfb, Hold by lia. split; [done|]. rewrite <- (Hold l) by lia. unfold d2, b.
      rewrite put_other_block; [|done|done|lia|lia|done|done|rewrite Hold by lia; apply Hall; lia].
      rewrite Hold by lia. assert (file_block d node l ≠ 0) as Hz by (apply Hall; lia).
      destruct (data_place_ok l ltac:(lia)). rewrite file_block_place in Hz |- * by lia. by apply Hdk.
  - rewrite Hn2. split; [lia|]. intros l Hl. rewrite Hfb by lia.
    destruct (decide (l = num_blocks node)) as [->|]; [done|]. rewrite Hold by lia. apply Hall. lia.
Qed.
Lemma wp_buf_set off bs s (Q : unit → fs_state → Prop) :
  wp (buf_set off bs) s Q ↔ Q () (upd_tbuf (splice off bs (tbuf s)) s).
Proof. done. Qed.

Lemma append_dentry_ok n node e s :
  0 ≤ n < NUM_INODES → ready s → file_ok (fs_disk s) node → 0 ≤ i_size node < 2 ^ 31 →
  (∀ l, 0 ≤ l < num_blocks node → file_block (fs_disk s) node l ≠ 0) →
  (length (d_name e) < MAX_FNAME_LEN)%nat → room (fs_disk s) 3 →
  wp (append_dentry node n e) s (λ node' s', ∃ d' t, length t = TEMP_BUF_LEN ∧ s' = upd_disk d' (upd_tbuf t s) ∧
    added n (fs_disk s) node e d' node' ∧ ∀ k, room (fs_disk s) k → room d' (k - 3)).
Proof.
  intros Hn Hr Hf Hsz Hall He Hroom. destruct (num_blocks_next node Hsz) as (_ & Hnb & _).
  unfold append_dentry. rewrite wp_bind.
  eapply wp_mono; [apply append_loop_ok; [apply Hr|apply Hf|done]|]. intros [u|] s1.
  - intros (d' & t & Ht & Hp & ->). rewrite wp_ret. exists d', t. split; [done|]. split; [done|].
    split; [by apply put_in_block_added; [apply Hr|done|lia|..]|]. intros k Hk.
    destruct Hp as (l & j & Hl & _ & Hb & _ & _ & ->). apply (room_less _ k); [|lia]. eapply room_bits; [|exact Hk].
    apply with_block_map. apply file_block_valid; [done|lia|done].
  - intros (t & Ht & ->). assert (ready (upd_tbuf t s)) as Hr1 by (apply ready_buf; [done|rewrite Ht; apply Hr]).
    rewrite wp_bind. eapply wp_mono; [by apply (get_physical_grows n Hn node (num_blocks node) (upd_tbuf t s)); [..|lia]|].
    intros r s2 Hfound. inversion Hfound as [node1 d1 t1 b Ht1 Hx Hdk Hsz1 Hroom1 Hb Hv|node1 d1 t1 Ht1 Hk Hdk Hsz1 Hroom1 Hfull]; subst r s2.
    2:{ specialize (Hroom1 _ Hroom). lia. }
    cbn [fs_disk upd_tbuf] in *. destruct (valid_word b Hv) as (_ & Hb1 & Hb0). rewrite !(proj2 (Z.eqb_neq _ _)) by done. cbn [orb].
    rewrite wp_bind, wp_buf_set. cbn [tbuf upd_tbuf upd_disk]. pose proof buf_room as Hbr.
    apply (store_chunk_ok b (replicate BLOCK_LEN 0)).
    + cbn [tbuf upd_tbuf]. rewrite length_splice; rewrite ?length_replicate; [done|lia].
    + cbn [tbuf upd_tbuf]. apply slice_splice_same; rewrite length_replicate; [lia|done].
    + rewrite length_dentry by done. unfold DENTRY_SIZE, BLOCK_LEN. lia.
    + intros t2 Ht2. rewrite wp_ret. cbn [fs_disk upd_tbuf upd_disk]. eexists _, t2. split; [done|]. split; [reflexivity|].
      rewrite <- file_block_place in Hb by lia. rewrite Hb. split; [apply new_block_added; try done; [apply Hr|congruence]|]. intros k Hk.
      eapply room_bits; [|by apply Hroom1]. apply with_block_map. by rewrite <- Hb.
Qed.

(** ** Names in the directory afterwards *)

Lemma block_put_other j e bs name :
  length bs = BLOCK_LEN → name_ok (d_name e) → name_ok name → (j < DENTRIES)%nat → entry_free bs j = true →
  0 ≤ d_inode e < 2 ^ 32 → name ≠ d_name e →
  entry_inode (put_entry j e bs) <$> first_index DENTRIES (entry_named (put_entry j e bs) name)
  = entry_inode bs <$> first_index DENTRIES (entry_named bs name).
Proof.
  intros Hl He Hn Hj Hfree Hi Hne. assert (entry_named bs name j = false) as Hj0 by (unfold entry_named; by rewrite Hfree).
  rewrite (first_index_ext _ _ (entry_named bs name)).
  - destruct (first_index DENTRIES (entry_named bs name)) as [j'|] eqn:E; [|done]. apply first_index_Some in E as (Hj' & Hnm & _).
    simpl. f_equal. apply (put_entry_other j j' e bs name); try done; [apply He|apply Hn|]. intros ->. congruence.
  - intros j' Hj'. destruct (decide (j' = j)) as [->|Hjj].
    + rewrite Hj0. destruct (put_entry_same j e bs name) as (_ & -> & _); try done. by apply bool_decide_false.
    + apply put_entry_other; try done; [apply He|apply Hn].
Qed.

Lemma block_put_same j e bs :
  length bs = BLOCK_LEN → name_ok (d_name e) → (j < DENTRIES)%nat → 0 ≤ d_inode e < 2 ^ 32 →
  first_index DENTRIES (entry_named bs (d_name e)) = None →
  entry_inode (put_entry j e bs) <$> first_index DENTRIES (entry_named (put_entry j e bs) (d_name e)) = Some (d_inode e).
Proof.
  intros Hl He Hj Hi Hnone. rewrite first_index_None in Hnone. destruct (put_entry_same j e bs (d_name e)) as (_ & Hnm & Hin); try done.
  rewrite bool_decide_true in Hnm by done.
  assert (first_index DENTRIES (entry_named (put_entry j e bs) (d_name e)) = Some j) as ->; [|simpl; by rewrite Hin].
  apply first_index_Some. split; [done|]. split; [done|]. intros j' Hj'.
  destruct (put_entry_other j j' e bs (d_name e)) as (_ & -> & _); try done; [apply He..|lia|lia|]. apply Hnone. lia.
Qed.

Lemma zeros_free j : entry_free (replicate BLOCK_LEN 0) j = true.
Proof.
  unfold entry_free, entry_at. rewrite drop_replicate, nth_lookup. destruct (replicate _ 0 !! 0%nat) as [y|] eqn:E; [|done].
  by apply lookup_replicate in E as [-> _].
Qed.

Lemma zeros_none name : first_index DENTRIES (entry_named (replicate BLOCK_LEN 0) name) = None.
Proof. apply first_index_None. intros j _. unfold entry_named. by rewrite zeros_free. Qed.
Lemma first_block_None d node name i k :
  first_block d node name i k = None ↔
  ∀ l, Z.of_nat i ≤ l < Z.of_nat i + Z.of_nat k → block_lookup d name (file_block d node l) = None.
Proof.
  revert i. induction k as [|k IH]; intros i; simpl; [split; [intros; lia|done]|]. split.
  - destruct (block_lookup d name (file_block d node (Z.of_nat i))) eqn:E; [done|]. intros H l Hl.
    destruct (decide (l = Z.of_nat i)) as [->|]; [done|]. apply (proj1 (IH (S i)) H). lia.
  - intros H. rewrite H by lia. apply IH. intros l Hl. apply H. lia.
Qed.

Lemma first_block_only d node name i k l r :
  Z.of_nat i ≤ l < Z.of_nat i + Z.of_nat k → block_lookup d name (file_block d node l) = Some r →
  (∀ l', Z.of_nat i ≤ l' < Z.of_nat i + Z.of_nat k → l' ≠ l → block_lookup d name (file_block d node l') = None) →
  first_block d node name i k = Some r.
Proof.
  revert i. induction k as [|k IH]; intros i Hl Hr Hn; simpl; [lia|].
  destruct (decide (l = Z.of_nat i)) as [->|Hne]; [by rewrite Hr|]. rewrite Hn by lia.
  apply IH; [lia|done|]. intros l' Hl'. apply Hn. lia.
Qed.

Lemma first_block_app d node name i k1 k2 :
  first_block d node name i (k1 + k2) =
  match first_block d node name i k1 with Some r => Some r | None => first_block d node name (i + k1) k2 end.
Proof.
  revert i. induction k1 as [|k1 IH]; intros i; simpl; [by rewrite Nat.add_0_r|].
  destruct (block_lookup d name (file_block d node (Z.of_nat i))); [done|]. rewrite IH.
  destruct (first_block d node name (S i) k1); [done|]. f_equal. lia.
Qed.

Lemma block_lookup_valid d name b : valid_block b →
  block_lookup d name b = entry_inode (block_bytes d b) <$> first_index DENTRIES (entry_named (block_bytes d b) name).
Proof.
  intros Hv. destruct (valid_word b Hv) as (_ & H1 & H0). unfold block_lookup. by rewrite !(proj2 (Z.eqb_neq _ _)).
Qed.

Section Added.
Context (n : Z) (d : D) (node : inode_t) (e : dentry_t) (d' : D) (node' : inode_t).
Hypothesis (Hf : file_ok d node) (Hnb : 0 ≤ num_blocks node < MAX_BLOCKS).
Hypothesis Hall : ∀ l, 0 ≤ l < num_blocks node → file_block d node l ≠ 0.
Hypothesis (He : name_ok (d_name e)) (Hi : 0 ≤ d_inode e < 2 ^ 32).
Hypothesis Hadd : added n d node e d' node'.

Lemma added_valid l : 0 ≤ l < num_blocks node' → valid_block (file_block d' node' l).
Proof.
  intros Hl. destruct (ad_blocks _ _ _ _ _ _ Hadd) as [Hb Hz].
  apply file_block_valid; [apply (ex_ok _ _ _ _ _ (ad_ext _ _ _ _ _ _ Hadd))|lia|by apply Hz].
Qed.

Lemma old_valid l : 0 ≤ l < num_blocks node → valid_block (file_block d node l).
Proof. intros Hl. apply file_block_valid; [done|lia|by apply Hall]. Qed.

Lemma added_other_name name l : name_ok name → name ≠ d_name e → 0 ≤ l < num_blocks node' →
  block_lookup d' name (file_block d' node' l)
  = if decide (l < num_blocks node) then block_lookup d name (file_block d node l) else None.
Proof.
  intros Hn Hne Hl. rewrite block_lookup_valid by by apply added_valid.
  destruct (ad_entry _ _ _ _ _ _ Hadd) as (l0 & j & bs & Hl0 & Hj & Hlen & Hfree & Hput & Hbs & Hold).
  destruct (decide (l = l0)) as [->|Hll].
  - rewrite Hput, block_put_other by done. destruct Hbs as [[-> Hlt]|[-> Hge]].
    + rewrite decide_True by done. by rewrite block_lookup_valid by (apply old_valid; lia).
    + rewrite decide_False by lia. by rewrite zeros_none.
  - destruct (Hold l Hl Hll) as (Hlt & -> & ->). rewrite decide_True by done.
    by rewrite block_lookup_valid by (apply old_valid; lia).
Qed.

Lemma added_first_other name : name_ok name → name ≠ d_name e →
  first_block d' node' name 0 (Z.to_nat (num_blocks node')) = first_block d node name 0 (Z.to_nat (num_blocks node)).
Proof.
  intros Hn Hne. destruct (ad_blocks _ _ _ _ _ _ Hadd) as [Hb _].
  replace (Z.to_nat (num_blocks node')) with (Z.to_nat (num_blocks node) + Z.to_nat (num_blocks node' - num_blocks node))%nat by lia.
  rewrite first_block_app. rewrite (first_block_ext d d' node node').
  - destruct (first_block d node name 0 _); [done|]. apply first_block_None. intros l Hl.
    rewrite added_other_name by (done || lia). by rewrite decide_False by lia.
  - intros l Hl. rewrite added_other_name by (done || lia). by rewrite decide_True by lia.
Qed.

Lemma added_first_same :
  first_block d node (d_name e) 0 (Z.to_nat (num_blocks node)) = None →
  first_block d' node' (d_name e) 0 (Z.to_nat (num_blocks node')) = Some (d_inode e).
Proof.
  rewrite first_block_None. intros Hnone.
  destruct (ad_entry _ _ _ _ _ _ Hadd) as (l0 & j & bs & Hl0 & Hj & Hlen & Hfree & Hput & Hbs & Hold).
  assert (∀ l, 0 ≤ l < num_blocks node → first_index DENTRIES (entry_named (block_bytes d (file_block d node l)) (d_name e)) = None) as Hno.
  { intros l Hl. specialize (Hnone l ltac:(lia)). rewrite block_lookup_valid in Hnone by by apply old_valid.
    by destruct (first_index _ _). }
  apply (first_block_only _ _ _ _ _ l0); [lia| |].
  - rewrite block_lookup_valid by by apply added_valid. rewrite Hput. apply block_put_same; try done.
    destruct Hbs as [[-> Hlt]|[-> _]]; [by apply Hno; lia|apply zeros_none].
  - intros l Hl Hne. rewrite block_lookup_valid by (apply added_valid; lia).
    destruct (Hold l ltac:(lia) Hne) as (Hlt & -> & ->). by rewrite Hno by lia.
Qed.

(** Every entry in use is the new one, or an old one in its place. *)
Lemma added_entry : ∃ l0 j0, ∀ l j, 0 ≤ l < num_blocks node' → (j < DENTRIES)%nat → entry_free (entries_at d' node' l) j = false →
  (l = l0 ∧ j = j0 ∧ entry_inode (entries_at d' node' l) j = d_inode e ∧
   ∀ name, name_ok name → entry_named (entries_at d' node' l) name j = bool_decide (name = d_name e)) ∨
  (l < num_blocks node ∧ entry_free (entries_at d node l) j = false ∧
   entry_inode (entries_at d' node' l) j = entry_inode (entries_at d node l) j ∧
   ∀ name, name_ok name → entry_named (entries_at d' node' l) name j = entry_named (entries_at d node l) name j).
Proof.
  destruct (ad_entry _ _ _ _ _ _ Hadd) as (l0 & j0 & bs & Hl0 & Hj0 & Hlen & Hfree & Hput & Hbs & Hold).
  exists l0, j0. intros l j Hl Hj. unfold entries_at. destruct (decide (l = l0)) as [->|Hne].
  - rewrite Hput. destruct (decide (j = j0)) as [->|Hjj].
    + intros _. left. split; [done|]. split; [done|].
      split; [by apply (put_entry_same j0 e bs (d_name e))|]. intros name Hname. by apply put_entry_same.
    + intros Hnf. right. destruct (put_entry_other j0 j e bs (d_name e)) as (Ef & _ & Ei); try done; [apply He..|].
      rewrite Ef in Hnf. destruct Hbs as [[-> Hlt]|[-> _]]; [|by rewrite zeros_free in Hnf].
      split; [done|]. split; [done|]. split; [done|]. intros name Hname.
      apply put_entry_other; try done; [apply He|apply Hname].
  - destruct (Hold l Hl Hne) as (Hlt & -> & ->). intros Hnf. by right.
Qed.

Lemma none_named name l j : first_block d node name 0 (Z.to_nat (num_blocks node)) = None →
  0 ≤ l < num_blocks node → (j < DENTRIES)%nat → entry_named (entries_at d node l) name j = false.
Proof.
  rewrite first_block_None. intros Hnone Hl Hj. specialize (Hnone l ltac:(lia)). rewrite block_lookup_valid in Hnone by by apply old_valid.
  apply fmap_None in Hnone. rewrite first_index_None in Hnone. by apply Hnone.
Qed.

Lemma named_used bs name j : entry_named bs name j = true → entry_free bs j = false.
Proof. unfold entry_named. by intros [H%negb_true_iff _]%andb_true_iff. Qed.

Lemma added_dir_ok : dir_ok d node → used_inode d (d_inode e) →
  first_block d node (d_name e) 0 (Z.to_nat (num_blocks node)) = None → dir_ok d' node'.
Proof.
  intros Hdir Hu Hnone. destruct added_entry as (l0 & j0 & Hent). split.
  - intros l Hl. by apply (ad_blocks _ _ _ _ _ _ Hadd).
  - intros l j Hl Hj Hnf.
    apply (used_imap d); [apply (kp_heads _ _ _ _ _ (ex_kept _ _ _ _ _ (ad_ext _ _ _ _ _ _ Hadd)))|].
    destruct (Hent l j Hl Hj Hnf) as [(_ & _ & -> & _)|(Hlt & Hnf' & -> & _)]; [done|]. apply (do_used _ _ Hdir); [lia|done|done].
  - intros l l' j j' name Hl Hl' Hj Hj' Hname H1 H2.
    destruct (Hent l j Hl Hj (named_used _ _ _ H1)) as [(-> & -> & _ & E1)|(Hlt & _ & _ & E1)],
      (Hent l' j' Hl' Hj' (named_used _ _ _ H2)) as [(-> & -> & _ & E2)|(Hlt' & _ & _ & E2)];
      rewrite E1 in H1 by done; rewrite E2 in H2 by done.
    + done.
    + apply bool_decide_eq_true in H1 as ->. by rewrite none_named in H2 by (done || lia).
    + apply bool_decide_eq_true in H2 as ->. by rewrite none_named in H1 by (done || lia).
    + apply (do_unique _ _ Hdir l l' j j' name); (done || lia).
Qed.
End Added.
(** ** [do_touch] *)

(** The directory and the name that a path means for a new file. *)
Definition parent_of d (cwd : Z) (path : list Z) : Z * list Z :=
  match split_last path with
  | None => (cwd, path)
  | Some (dir, name) => let '(n, p) := path_start cwd dir in (walk d n (path_names p), name)
  end.
Definition path_ok (cwd : Z) (path : list Z) : Prop :=
  (length path < MAX_PATH_LEN)%nat ∧
  match split_last path with
  | None => True
  | Some (dir, _) => Forall (λ c, length c < MAX_FNAME_LEN)%nat (path_names (path_start cwd dir).2)
  end.

Lemma split_last_length path dir name : split_last path = Some (dir, name) → (length dir < length path)%nat.
Proof.
  revert dir. induction path as [|c path IH]; intros dir; simpl; [done|]. destruct (split_last path) as [[a b]|].
  - intros [= <- <-]. simpl. specialize (IH a eq_refl). lia.
  - destruct (c =? SLASH); [|done]. intros [= <- _]. simpl. lia.
Qed.

Lemma find_parent_ok path s : length (tbuf s) = TEMP_BUF_LEN → path_ok (cur_dir s) path →
  wp (find_parent path) s (λ r s', r = parent_of (fs_disk s) (cur_dir s) path ∧ same_but_buf s s').
Proof.
  intros Hl [Hp Hc]. unfold find_parent, parent_of. rewrite wp_bind, wp_assert. split; [by apply bool_decide_eq_true|].
  destruct (split_last path) as [[dir name]|] eqn:E.
  - apply split_last_length in E. rewrite wp_bind.
    pose proof (find_inode_by_path_ok s dir Hl ltac:(lia)) as Hw. destruct (path_start (cur_dir s) dir) as [n p].
    eapply wp_mono; [by apply Hw|]. intros r s' [-> Hs]. by rewrite wp_ret.
  - rewrite wp_bind, wp_get, wp_ret. split; [done|apply same_but_buf_refl].
Qed.

(** What a directory leads to is in use. *)
Lemma first_block_used d node name i k r : file_ok d node → num_blocks node < MAX_BLOCKS → dir_ok d node →
  (i + k ≤ Z.to_nat (num_blocks node))%nat → first_block d node name i k = Some r → used_inode d r.
Proof.
  intros Hf Hnb Hd. revert i. induction k as [|k IH]; intros i Hk; simpl; [done|].
  assert (0 ≤ Z.of_nat i < num_blocks node) as Hi by lia. pose proof (do_block _ _ Hd _ Hi) as Hz.
  rewrite block_lookup_valid by (apply file_block_valid; [done|lia|done]).
  destruct (first_index DENTRIES _) as [j|] eqn:E; simpl; [|apply IH; lia]. intros [= <-].
  apply first_index_Some in E as (Hj & Hnm & _). apply (do_used _ _ Hd); [done|done|]. by eapply named_used.
Qed.

Lemma used_word d m : used_inode d m → 0 ≤ m < 2 ^ 32.
Proof. intros [Hm _]. change NUM_INODES with 4096 in Hm. change (2 ^ 32) with 4294967296. lia. Qed.

Lemma used_not_neg d m : used_inode d m → m ≠ NEG1.
Proof. intros [Hm _]. change NUM_INODES with 4096 in Hm. change NEG1 with 4294967295. lia. Qed.

Lemma dir_lookup_dir d n name : is_dir d n →
  dir_lookup d n name = default NEG1 (first_block d (inode_at d n) name 0 (Z.to_nat (num_blocks (inode_at d n)))).
Proof. unfold is_dir, dir_lookup. intros ->. done. Qed.

Lemma dir_lookup_used d n name : fs_inv d → used_inode d n → dir_lookup d n name ≠ NEG1 → used_inode d (dir_lookup d n name).
Proof.
  intros Hinv Hn. pose proof (num_blocks_used d Hinv n Hn) as Hnb. unfold dir_lookup.
  destruct (Z.eqb_spec (i_type (inode_at d n)) FD_DIR) as [Ht|]; cbn [negb]; [|done].
  destruct (first_block d _ name 0 _) as [r|] eqn:E; [|done]. intros _. simpl.
  eapply first_block_used in E; [done|by apply (fi_file _ Hinv)|lia|by apply (fi_dir _ Hinv)|lia].
Qed.

Lemma dir_lookup_none d n name : fs_inv d → used_inode d n → is_dir d n → dir_lookup d n name = NEG1 →
  first_block d (inode_at d n) name 0 (Z.to_nat (num_blocks (inode_at d n))) = None.
Proof.
  intros Hinv Hn Hd. pose proof (num_blocks_used d Hinv n Hn) as Hnb. rewrite dir_lookup_dir by done.
  destruct (first_block d _ name 0 _) as [r|] eqn:E; [|done]. simpl. intros ->.
  eapply first_block_used in E; [by apply used_not_neg in E|by apply (fi_file _ Hinv)|lia|by apply (fi_dir _ Hinv)|lia].
Qed.
Lemma added_write_inode n d node e d' node' : 0 ≤ n < NUM_INODES → added n d node e d' node' →
  added n d node e (with_inode d' n node') node'.
Proof.
  intros Hn [Hx He [Hb Hz]]. assert (maps d' ∧ file_ok d' node') as [Hm Hf] by by split; apply Hx.
  assert (∀ l, 0 ≤ l < num_blocks node' → file_block (with_inode d' n node') node' l = file_block d' node' l ∧
    block_bytes (with_inode d' n node') (file_block d' node' l) = block_bytes d' (file_block d' node' l)) as Hsame.
  { intros l Hl. split; [apply same_file_block; [|lia]; intros; by apply write_inode_block|].
    apply with_inode_block; [|done]. apply file_block_valid; [done|lia|by apply Hz]. }
  split.
  - eapply extends_trans; [exact Hx|]. by apply write_inode_extends.
  - destruct He as (l0 & j & bs & Hl0 & Hj & Hlen & Hfree & Hput & Hbs & Hold). exists l0, j, bs.
    destruct (Hsame l0 Hl0) as [E1 E2]. split; [done|]. split; [done|]. split; [done|]. split; [done|].
    split; [by rewrite E1, E2|]. split; [done|]. intros l Hl Hne. destruct (Hold l Hl Hne) as (Hlt & E3 & E4).
    destruct (Hsame l Hl) as [E5 E6]. split; [done|]. rewrite E5. split; [done|]. rewrite <- E3, E6, E3. done.
  - split; [done|]. intros l Hl. rewrite (proj1 (Hsame l Hl)). by apply Hz.
Qed.

(** Other files and directories: same inode, same blocks with the same bytes. *)
Definition same_file d d' x : Prop :=
  inode_at d' x = inode_at d x ∧ ∀ l, 0 ≤ l < MAX_BLOCKS →
    file_block d' (inode_at d' x) l = file_block d (inode_at d x) l ∧
    (file_block d (inode_at d x) l ≠ 0 →
     block_bytes d' (file_block d (inode_at d x) l) = block_bytes d (file_block d (inode_at d x) l)).

Lemma same_file_trans d1 d2 d3 x : same_file d1 d2 x → same_file d2 d3 x → same_file d1 d3 x.
Proof.
  intros [Hi Hl] [Hi' Hl']. split; [congruence|]. intros l Hlr. destruct (Hl l Hlr) as [E Hb], (Hl' l Hlr) as [E' Hb'].
  split; [congruence|]. intros Hz. rewrite <- Hb by done. rewrite E in Hb'. by apply Hb'.
Qed.

(** A directory with a new entry, on a card where the new inode is in use. *)
Lemma added_inv n d e d' :
  fs_inv d → used_inode d n → is_dir d n → name_ok (d_name e) → used_inode d (d_inode e) →
  dir_lookup d n (d_name e) = NEG1 → added n d (inode_at d n) e d' (inode_at d' n) →
  fs_inv d' ∧ dir_lookup d' n (d_name e) = d_inode e ∧
  (∀ x name, used_inode d x → name_ok name → x ≠ n ∨ name ≠ d_name e → dir_lookup d' x name = dir_lookup d x name) ∧
  (∀ x, used_inode d x → x ≠ n → same_file d d' x).
Proof.
  intros Hinv Hn Hd He Hu Hnone Hadd. pose proof (ad_ext _ _ _ _ _ _ Hadd) as Hx. pose proof (ex_kept _ _ _ _ _ Hx) as Hk.
  pose proof (fi_file _ Hinv n Hn) as Hf. pose proof (num_blocks_used d Hinv n Hn) as Hnb. pose proof (fi_dir _ Hinv n Hn Hd) as Hdir.
  assert (∀ l, 0 ≤ l < num_blocks (inode_at d n) → file_block d (inode_at d n) l ≠ 0) as Hall by (intros l Hl; by apply Hdir).
  assert (0 ≤ d_inode e < 2 ^ 32) as Hi.
  { destruct Hu as [Hu _]. change NUM_INODES with 4096 in Hu. change (2 ^ 32) with 4294967296. lia. }
  assert (is_dir d' n) as Hd'. { unfold is_dir in *. destruct (kp_meta _ _ _ _ _ Hk) as [_ E]. congruence. }
  split; [|split; [|split]].
  - apply (extends_inv n d); try done. intros _. eapply added_dir_ok; try done. by apply dir_lookup_none.
  - rewrite dir_lookup_dir by done. erewrite added_first_same; [done|..]; try done. by apply dir_lookup_none.
  - intros x name Hxu Hname Hne. destruct (decide (x = n)) as [->|Hxn].
    + destruct Hne as [|Hne]; [done|]. rewrite !dir_lookup_dir by done. by erewrite added_first_other.
    + by apply (other_lookup n d).
  - intros x Hxu Hxn. split; [by apply (other_inode n d)|]. intros l Hl. by apply (other_file_block n d).
Qed.
Lemma add_entry_ok n name m s :
  0 ≤ n < NUM_INODES → ready s → file_ok (fs_disk s) (inode_at (fs_disk s) n) → i_size (inode_at (fs_disk s) n) < 2 ^ 31 →
  dir_ok (fs_disk s) (inode_at (fs_disk s) n) → (length name < MAX_FNAME_LEN)%nat → room (fs_disk s) 3 →
  wp (add_entry n name m) s (λ node' s', ∃ d' t, length t = TEMP_BUF_LEN ∧ s' = upd_disk d' (upd_tbuf t s) ∧
    added n (fs_disk s) (inode_at (fs_disk s) n) (mk_dentry name m) d' node' ∧ ∀ k, room (fs_disk s) k → room d' (k - 3)).
Proof.
  intros Hn Hr Hf Hsz Hd Hl Hroom. unfold add_entry. rewrite wp_bind, wp_assert. split; [by apply bool_decide_eq_true|].
  rewrite wp_bind, (wp_ok _ _ _ _ _ (get_inode_ok _ _)). apply append_dentry_ok; try done.
  - pose proof (inode_ok_size_range _ (fo_inode _ _ Hf)). lia.
  - intros l Hlr. by apply Hd.
Qed.

(** What making the file [m] in the directory [n] under [name] comes to. *)
Record made d n name m node d' : Prop := {
  md_inv : fs_inv d';
  md_new : used_inode d' m ∧ ¬ used_inode d m ∧ inode_at d' m = node;
  md_name : dir_lookup d' n name = m;
  md_names x name' : used_inode d x → name_ok name' → x ≠ n ∨ name' ≠ name → dir_lookup d' x name' = dir_lookup d x name';
  md_files x : used_inode d x → x ≠ n → same_file d d' x;
  md_used x : used_inode d' x ↔ x = m ∨ used_inode d x;
  md_sole x l j : used_inode d' x → x ≠ m → is_dir d' x → 0 ≤ l < num_blocks (inode_at d' x) → (j < DENTRIES)%nat →
    entry_free (entries_at d' (inode_at d' x) l) j = false → entry_inode (entries_at d' (inode_at d' x) l) j = m →
    x = n ∧ entry_named (entries_at d' (inode_at d' x) l) name j = true
}.

Lemma same_entries d d' x l : fs_inv d → used_inode d x → is_dir d x → same_file d d' x → 0 ≤ l < num_blocks (inode_at d x) →
  entries_at d' (inode_at d' x) l = entries_at d (inode_at d x) l.
Proof.
  intros Hinv Hx Hd [_ Hs] Hl. pose proof (num_blocks_used d Hinv x Hx). destruct (Hs l ltac:(lia)) as [E Hb].
  unfold entries_at. rewrite E. apply Hb. by apply (fi_dir _ Hinv).
Qed.

Lemma created_same d d' m node x : fs_inv d → created d d' m node → used_inode d x → same_file d d' x.
Proof. intros Hinv Hc Hx. split; [by eapply created_inode|]. intros l Hl. by eapply created_file_block. Qed.

(** Only the new entry leads to the new inode. *)
Lemma entered_sole n d d2 d' name m node x l j :
  fs_inv d → created d d2 m node → fs_inv d2 → used_inode d n → is_dir d n → name_ok name →
  added n d2 (inode_at d2 n) (mk_dentry name m) d' (inode_at d' n) → (∀ x, used_inode d2 x → x ≠ n → same_file d2 d' x) →
  used_inode d x → is_dir d' x → 0 ≤ l < num_blocks (inode_at d' x) → (j < DENTRIES)%nat →
  entry_free (entries_at d' (inode_at d' x) l) j = false → entry_inode (entries_at d' (inode_at d' x) l) j = m →
  x = n ∧ entry_named (entries_at d' (inode_at d' x) l) name j = true.
Proof.
  intros Hinv Hcr Hinv2 Hn Hd Hname Hadd Hfiles Hx Hdx Hl Hj Hnf Hm.
  assert (∀ y, used_inode d y → used_inode d2 y) as Hu by (intros y Hy; apply (cr_used _ _ _ _ Hcr); by right).
  assert (∀ y l, used_inode d y → is_dir d y → 0 ≤ l < num_blocks (inode_at d y) →
    entry_free (entries_at d2 (inode_at d2 y) l) j = false → entry_inode (entries_at d2 (inode_at d2 y) l) j ≠ m) as Hold.
  { intros y l' Hy Hdy Hl'. rewrite (same_entries d d2 y) by (done || by eapply created_same). intros Hf E.
    apply (do_used _ _ (fi_dir _ Hinv y Hy Hdy)) in Hf; [|done..]. rewrite E in Hf. by eapply created_old in Hf. }
  destruct (decide (x = n)) as [->|Hxn].
  - split; [done|]. pose proof (created_inode d d2 m node Hcr n Hn) as En.
    assert (is_dir d2 n) as Hd2 by (unfold is_dir; by rewrite En).
    destruct (added_entry n d2 (inode_at d2 n) (mk_dentry name m) d' (inode_at d' n)) as (l0 & j0 & Hent); try done.
    { by apply (used_word d2), (cr_used _ _ _ _ Hcr); left. }
    destruct (Hent l j Hl Hj Hnf) as [(_ & _ & _ & E)|(Hlt & Hf & Ei & _)]; [rewrite E by done; by apply bool_decide_eq_true|].
    rewrite Ei in Hm. rewrite En in Hlt. destruct (Hold n l Hn Hd ltac:(lia) Hf Hm).
  - pose proof (Hfiles x (Hu x Hx) Hxn) as Hs. pose proof (created_inode d d2 m node Hcr x Hx) as Ex.
    pose proof (proj1 Hs) as Ei. assert (is_dir d x) as Hd0 by (unfold is_dir in *; congruence).
    rewrite Ei, Ex in Hl. rewrite (same_entries d2 d' x) in Hnf, Hm by (done || (by apply Hu) || unfold is_dir in *; congruence).
    by destruct (Hold x l Hx Hd0 Hl Hnf Hm).
Qed.

Lemma added_nlinks n d node e d' node' z : 0 ≤ z < 2 ^ 32 → added n d node e d' node' → added n d node e d' (set_nlinks z node').
Proof. intros Hz [Hx He Hb]. split; [by apply extends_nlinks|exact He|exact Hb]. Qed.

(** The entry of the new inode [m], which is on the card [s] already, goes into
    the directory [n], whose links become [g] of what they were. *)
Lemma enter_ok {A} n name m node d (g : Z → Z) (r : A) s :
  fs_inv d → created d (fs_disk s) m node → fs_inv (fs_disk s) → ready s → used_inode d n → is_dir d n → name_ok name →
  i_size (inode_at d n) < 2 ^ 31 → room (fs_disk s) 3 → dir_lookup d n name = NEG1 → (∀ k, 0 ≤ k < 2 ^ 32 → 0 ≤ g k < 2 ^ 32) →
  wp (parent_node ← add_entry n name m;
      write_inode n (set_nlinks (g (nlinks parent_node)) parent_node);;
      mret r) s (λ r' s', r' = r ∧ made d n name m node (fs_disk s') ∧ ready s' ∧
    (∀ k, room (fs_disk s) k → room (fs_disk s') (k - 3)) ∧ (∃ d' t, s' = upd_disk d' (upd_tbuf t s)) ∧
    ∀ name', name_ok name' → dir_lookup (fs_disk s') m name' = dir_lookup (fs_disk s) m name').
Proof.
  intros Hinv Hcr Hinv2 Hr2 Hn Hd Hname Hsz Hroom Hnone Hg. set (d2 := fs_disk s) in *. rewrite wp_bind.
  assert (used_inode d2 n) as Hn2 by (apply (cr_used _ _ _ _ Hcr); by right).
  assert (inode_at d2 n = inode_at d n) as En by by eapply created_inode.
  assert (is_dir d2 n) as Hdir2 by (unfold is_dir; by rewrite En).
  eapply wp_mono; [apply (add_entry_ok n name m s)|]; fold d2; rewrite ?En; try done.
  - apply Hn2.
  - rewrite <- En. by apply Hinv2.
  - rewrite <- En. by apply (fi_dir _ Hinv2 n Hn2).
  - apply Hname.
  - rewrite <- En. intros node' s3 (d3 & t & Ht & -> & Hadd & Hroom3).
    rewrite wp_bind, (wp_ok _ _ _ _ _ (write_inode_ok _ _ _)), wp_ret. cbn [fs_disk upd_disk upd_tbuf].
    assert (0 ≤ nlinks node' < 2 ^ 32) as Hnl by apply inode_ok_nlinks_range, (ex_ok _ _ _ _ _ (ad_ext _ _ _ _ _ _ Hadd)).
    apply (added_nlinks _ _ _ _ _ _ (g (nlinks node'))) in Hadd; [|by apply Hg]. set (node2 := set_nlinks _ node') in *.
    apply added_write_inode in Hadd; [|apply Hn2]. set (d4 := with_inode d3 n node2) in *.
    assert (inode_at d4 n = node2) as En4.
    { apply with_inode_same; [apply Hn2|]. apply (fo_inode d4), Hadd. }
    rewrite <- En4 in Hadd.
    assert (used_inode d2 m) as Hm2 by (apply (cr_used _ _ _ _ Hcr); by left).
    assert (m ≠ n) as Hmn by (apply not_eq_sym; by eapply created_old).
    destruct (added_inv n d2 (mk_dentry name m) d4) as (Hinv4 & Hlk & Hother & Hfiles); try done.
    { cbn [d_name]. by rewrite (created_lookup d d2 m node). }
    pose proof (kp_heads _ _ _ _ _ (ex_kept _ _ _ _ _ (ad_ext _ _ _ _ _ _ Hadd))) as Him.
    split; [done|]. split; [split|split; [|split; [|split]]].
    + done.
    + split; [by apply (used_imap d2)|]. split; [by intros [_ Hb]; rewrite (cr_clear _ _ _ _ Hcr) in Hb|].
      rewrite (proj1 (Hfiles m Hm2 Hmn)). apply Hcr.
    + done.
    + intros x name' Hx' Hname' Hne. rewrite Hother; [|by apply (cr_used _ _ _ _ Hcr); right|done|done].
      by apply (created_lookup d d2 m node).
    + intros x Hx' Hne. eapply same_file_trans; [|by apply Hfiles; [apply (cr_used _ _ _ _ Hcr); right|]].
      by eapply created_same.
    + intros x. rewrite (used_imap d2) by done. apply Hcr.
    + intros x l j Hx' Hxm. apply (entered_sole n d d2 d4 name m node x l j); try done.
      apply (used_imap d2), (cr_used _ _ _ _ Hcr) in Hx' as [->|]; done.
    + apply (ready_disk d4 (upd_tbuf t s)); [by apply ready_buf|apply Hinv4..|]. by apply heads_sb.
    + intros k Hk. eapply room_bits; [by apply with_inode_map, Hn2|]. by apply Hroom3.
    + eexists _, _. reflexivity.
    + intros name' Hname'. apply Hother; [done|done|by left].
Qed.

(** The part of [do_touch] from the free inode on. *)
Lemma touch_new_ok n name s :
  fs_inv (fs_disk s) → ready s → used_inode (fs_disk s) n → is_dir (fs_disk s) n → name_ok name →
  i_size (inode_at (fs_disk s) n) < 2 ^ 31 → room (fs_disk s) 3 → dir_lookup (fs_disk s) n name = NEG1 →
  (∃ x, 0 ≤ x < NUM_INODES ∧ ibit (fs_disk s) x = false) →
  wp (new_inode_num ← alloc_inode;
      write_inode new_inode_num new_file;;
      parent_node ← add_entry n name new_inode_num;
      write_inode n parent_node;;
      mret (s32 new_inode_num)) s (λ m s', made (fs_disk s) n name m new_file (fs_disk s') ∧ ready s' ∧
    (∀ k, room (fs_disk s) k → room (fs_disk s') (k - 3)) ∧ ∃ d' t, s' = upd_disk d' (upd_tbuf t s)).
Proof.
  intros Hinv Hr Hn Hd Hname Hsz Hroom Hnone (x0 & Hx0 & Hfree). rewrite wp_bind.
  eapply wp_mono; [apply alloc_inode_ok; [done|apply Hinv]|].
  intros m s1 [(_ & _ & Hall)|(d1 & -> & Htk)]; [rewrite Hall in Hfree; done|].
  rewrite wp_bind, (wp_ok _ _ _ _ _ (write_inode_ok _ _ _)). cbn [fs_disk upd_disk].
  destruct (taken_created _ d1 m new_file Htk new_file_ok) as [Hcr Hbits]. set (d2 := with_inode d1 m new_file) in *.
  assert (fs_inv d2) as Hinv2.
  { eapply created_empty; [done|done|apply new_file_ok|done|]. intros p. by apply empty_block. }
  assert (ready (upd_disk d2 (upd_disk d1 s))) as Hr2.
  { apply (ready_disk d2 s); [done|apply Hinv2..|apply Hcr]. }
  assert (room d2 3) as Hroom2 by (by eapply room_bits).
  destruct (tk_range _ _ _ Htk) as [Hm0 Hm1]. change NUM_INODES with 4096 in Hm1. rewrite s32_id by lia.
  pose proof (enter_ok n name m new_file (fs_disk s) id m (upd_disk d2 (upd_disk d1 s)) Hinv Hcr Hinv2 Hr2 Hn Hd Hname Hsz
    Hroom2 Hnone (λ _ H, H)) as Hw. rewrite wp_bind in Hw |- *. eapply wp_mono; [exact Hw|].
  intros node' s3 Hw3. replace (set_nlinks (id (nlinks node')) node') with node' in Hw3 by by destruct node'.
  eapply wp_mono; [exact Hw3|]. intros r s4 (-> & Hmd & Hr4 & Hrm & (d' & t & ->) & _). split; [done|]. split; [done|].
  split; [|by exists d', t]. intros k Hk. apply Hrm. by eapply room_bits.
Qed.
End FsTouch.
