(* ===== verification/FsDots.v ===== *)
(** A directory with no entries but ["."] and [".."], as [do_mkfs] and [do_mkdir]
    of Fs make it. *)
From S2P Require Import Prelude KMonad Bytes Swap FsDisk FsDir Fs FsFile FsPath FsGrow FsAlloc FsWrite FsInv FsTouch.

Definition dots (self parent : Z) : list Z :=
  put_entry 1 (mk_dentry DOTDOT parent) (put_entry 0 (mk_dentry DOT self) (replicate BLOCK_LEN 0)).

Lemma dot_ok : name_ok DOT ∧ name_ok DOTDOT.
Proof. split; (split; [done|split; [unfold MAX_FNAME_LEN; simpl; lia|by repeat constructor]]). Qed.

Lemma new_dir_ok b : 0 ≤ b < 2 ^ 32 → inode_ok (new_dir b).
Proof.
  intros Hb. split; [|done]. change (2 ^ 32) with 4294967296 in *. unfold inode_words, new_dir. simpl.
  repeat (apply Forall_cons_2; [try done; change BLOCK_SIZE with 4096; lia|]). done.
Qed.

Lemma new_dir_num_blocks b : num_blocks (new_dir b) = 1.
Proof. done. Qed.

Lemma length_put j e bs : length bs = BLOCK_LEN → (length (d_name e) < MAX_FNAME_LEN)%nat → (j < DENTRIES)%nat →
  length (put_entry j e bs) = BLOCK_LEN.
Proof.
  intros Hl He Hj. pose proof (entry_fits j Hj). unfold put_entry. rewrite length_splice; [done|]. rewrite length_dentry by done. lia.
Qed.

Lemma length_dots self parent : length (dots self parent) = BLOCK_LEN.
Proof.
  destruct dot_ok as [(_ & H1 & _) (_ & H2 & _)].
  unfold dots. assert (0 < DENTRIES ∧ 1 < DENTRIES)%nat as [? ?] by (unfold DENTRIES; lia).
  by rewrite !length_put by (done || by rewrite length_put by (done || apply length_replicate) || apply length_replicate).
Qed.

(** The two entries, and no others. *)
Lemma dots_entry self parent j name : (j < DENTRIES)%nat → name_ok name → 0 ≤ self < 2 ^ 32 → 0 ≤ parent < 2 ^ 32 →
  entry_named (dots self parent) name j = bool_decide (name = DOT ∧ j = 0%nat ∨ name = DOTDOT ∧ j = 1%nat) ∧
  (entry_free (dots self parent) j = false → entry_inode (dots self parent) j = if decide (j = 0%nat) then self else parent).
Proof.
  intros Hj Hn Hs Hp. destruct dot_ok as [H1 H2]. unfold dots. set (z := replicate BLOCK_LEN 0).
  assert (length z = BLOCK_LEN) as Hz by apply length_replicate.
  assert (length (put_entry 0 (mk_dentry DOT self) z) = BLOCK_LEN) as Hz1.
  { apply length_put; [done|apply H1|unfold DENTRIES; lia]. }
  assert (0 < DENTRIES ∧ 1 < DENTRIES)%nat as [Hd0 Hd1] by (unfold DENTRIES; lia).
  destruct (decide (j = 1%nat)) as [->|Hj1].
  { destruct (put_entry_same 1 (mk_dentry DOTDOT parent) (put_entry 0 (mk_dentry DOT self) z) name) as (_ & -> & ->); try done.
    split; [|done]. apply bool_decide_ext. cbn [d_name]. split; [by right|]. by intros [[_ ?]|[? _]]. }
  destruct (put_entry_other 1 j (mk_dentry DOTDOT parent) _ name Hz1 (proj1 (proj2 H2)) (proj1 (proj2 Hn)) Hd1 Hj Hj1) as (-> & -> & ->).
  destruct (decide (j = 0%nat)) as [->|Hj0].
  { destruct (put_entry_same 0 (mk_dentry DOT self) z name) as (_ & -> & ->); try done.
    split; [|done]. apply bool_decide_ext. cbn [d_name]. split; [by left|]. by intros [[? _]|[_ ?]]. }
  destruct (put_entry_other 0 j (mk_dentry DOT self) z name Hz (proj1 (proj2 H1)) (proj1 (proj2 Hn)) Hd0 Hj Hj0) as (-> & -> & ->).
  unfold entry_named, z. rewrite zeros_free. split; [|done]. symmetry. apply bool_decide_false. by intros [[_ ?]|[_ ?]].
Qed.

Lemma dots_first self parent name : name_ok name → 0 ≤ self < 2 ^ 32 → 0 ≤ parent < 2 ^ 32 →
  entry_inode (dots self parent) <$> first_index DENTRIES (entry_named (dots self parent) name) =
    if decide (name = DOT) then Some self else if decide (name = DOTDOT) then Some parent else None.
Proof.
  intros Hn Hs Hp. assert (∀ i, (i < DENTRIES)%nat → entry_named (dots self parent) name i =
    bool_decide (name = DOT ∧ i = 0%nat ∨ name = DOTDOT ∧ i = 1%nat)) as Hnm by (intros; by apply dots_entry).
  assert (∀ j, (j < DENTRIES)%nat → (∀ i, (i < DENTRIES)%nat → entry_named (dots self parent) name i = bool_decide (i = j)) →
    entry_inode (dots self parent) <$> first_index DENTRIES (entry_named (dots self parent) name) =
    Some (if decide (j = 0%nat) then self else parent)) as Hat.
  { intros j Hj Hi. assert (first_index DENTRIES (entry_named (dots self parent) name) = Some j) as ->.
    { apply first_index_Some. split; [done|]. split; [by rewrite Hi, bool_decide_true|]. intros i Hij.
      rewrite Hi by lia. apply bool_decide_false. lia. }
    simpl. f_equal. apply (dots_entry self parent j name); try done. specialize (Hi j Hj). rewrite bool_decide_true in Hi by done.
    unfold entry_named in Hi. apply andb_true_iff in Hi as [Hf _]. by apply negb_true_iff. }
  case_decide as E1; [|case_decide as E2].
  - apply (Hat 0%nat); [unfold DENTRIES; lia|]. intros i Hi. rewrite Hnm by done. apply bool_decide_ext. subst name. naive_solver.
  - apply (Hat 1%nat); [unfold DENTRIES; lia|]. intros i Hi. rewrite Hnm by done. apply bool_decide_ext. subst name. naive_solver.
  - assert (first_index DENTRIES (entry_named (dots self parent) name) = None) as ->; [|done].
    apply first_index_None. intros i Hi. rewrite Hnm by done. apply bool_decide_false. naive_solver.
Qed.

Section FsDots.
Context {D : Type} `{!BlockDevice SECTOR_LEN D}.
Implicit Types (s : fs_state (D := D)) (d : D) (node : inode_t) (b l m n : Z) (name : list Z).

Lemma new_dir_block d b p : place_ok p → block_at d (new_dir b) p = if decide (p = Direct 0) then b else 0.
Proof.
  induction p as [k| | |q IH k]; [|done|done|].
  - intros _. destruct k as [|k]; [done|]. rewrite decide_False by done. simpl. by do 10 (destruct k as [|k]; [done|]).
  - intros (Hi & Hq & _). rewrite (decide_False (P := Entry q k = Direct 0)) by done. simpl. rewrite IH by done.
    rewrite decide_False; [done|]. by intros ->.
Qed.

Lemma new_dir_file_block d b : file_block d (new_dir b) 0 = b.
Proof. done. Qed.

Lemma new_dir_file_ok d b : valid_block b → bit d b = true → file_ok d (new_dir b).
Proof.
  intros Hv Hb. split; [by apply new_dir_ok, valid_word| |].
  - intros p Hp. rewrite new_dir_block by done. by case_decide.
  - intros p q Hp Hq. rewrite !new_dir_block by done. repeat case_decide; congruence.
Qed.

Lemma dots_dir_ok d b m n : valid_block b → block_bytes d b = dots m n → used_inode d m → used_inode d n → dir_ok d (new_dir b).
Proof.
  intros Hv Hb Hm Hn. pose proof (used_word d m Hm). pose proof (used_word d n Hn).
  assert (∀ l, 0 ≤ l < 1 → entries_at d (new_dir b) l = dots m n) as Hent.
  { intros l Hl. assert (l = 0) as -> by lia. exact Hb. }
  split; rewrite new_dir_num_blocks.
  - intros l Hl. assert (l = 0) as -> by lia. by apply valid_word.
  - intros l j Hl Hj. rewrite Hent by done. intros Hnf.
    destruct (dots_entry m n j DOT Hj (proj1 dot_ok)) as [_ ->]; [done|done|by case_decide|done].
  - intros l l' j j' name Hl Hl' Hj Hj' Hname. rewrite !Hent by done.
    rewrite (proj1 (dots_entry m n j name Hj Hname ltac:(done) ltac:(done))), (proj1 (dots_entry m n j' name Hj' Hname ltac:(done) ltac:(done))).
    rewrite !bool_decide_eq_true. intros H1 H2. split; [lia|]. naive_solver.
Qed.

(** What the names in it lead to. *)
Lemma dots_lookup d b m n x name : inode_at d x = new_dir b → valid_block b → block_bytes d b = dots m n →
  0 ≤ m < 2 ^ 32 → 0 ≤ n < 2 ^ 32 → name_ok name →
  dir_lookup d x name = if decide (name = DOT) then m else if decide (name = DOTDOT) then n else NEG1.
Proof.
  intros Hx Hv Hb Hm Hn Hname. unfold dir_lookup. rewrite Hx. change (negb _) with false. cbv iota. rewrite new_dir_num_blocks.
  change (Z.to_nat 1) with 1%nat. cbn [first_block]. change (Z.of_nat 0) with 0.
  rewrite new_dir_file_block, block_lookup_valid, Hb, dots_first by done. by repeat case_decide.
Qed.

Lemma write_dots_ok b self parent s : length (tbuf s) = TEMP_BUF_LEN →
  ∃ t, length t = TEMP_BUF_LEN ∧ write_dots b self parent s = Ok () (upd_disk (with_block (fs_disk s) b (dots self parent)) (upd_tbuf t s)).
Proof.
  intros Hl. pose proof buf_room as Hroom. destruct dot_ok as [(_ & H1 & _) (_ & H2 & _)].
  pose proof (length_dentry (mk_dentry DOT self) H1) as L1. pose proof (length_dentry (mk_dentry DOTDOT parent) H2) as L2.
  set (t1 := splice 0 (replicate BLOCK_LEN 0) (tbuf s)). set (t2 := splice 0 (dentry_bytes (mk_dentry DOT self)) t1).
  assert (length t1 = TEMP_BUF_LEN) as Ht1 by (unfold t1; rewrite length_splice; [done|rewrite length_replicate; lia]).
  assert (DENTRY_SIZE + DENTRY_SIZE ≤ BLOCK_LEN)%nat as Hfit by (unfold DENTRY_SIZE, BLOCK_LEN; lia).
  assert (length t2 = TEMP_BUF_LEN) as Ht2 by (unfold t2; rewrite length_splice; [done|rewrite L1; lia]).
  exists (splice DENTRY_SIZE (dentry_bytes (mk_dentry DOTDOT parent)) t2). split; [rewrite length_splice; [done|rewrite L2; lia]|].
  unfold write_dots, buf_set. rewrite !bind_modify. cbn [tbuf upd_tbuf]. fold t1. fold t2.
  unfold write_block, buf_get. rewrite bind_gets. cbn [tbuf upd_tbuf]. rewrite splice_prefix by (done || rewrite L2; lia).
  unfold t2. rewrite splice_prefix by (done || rewrite L1; lia). unfold t1.
  rewrite slice_splice_same by (rewrite length_replicate; done || lia). done.
Qed.

End FsDots.
