(* ===== verification/FsMkfs.v ===== *)
(** [do_mkfs] of Fs: the file system that it makes is consistent, and holds the
    root directory and nothing else. *)
From S2P Require Import Prelude KMonad Bytes Swap FsDisk FsDir Fs FsFile FsPath FsGrow FsAlloc FsWrite FsInv FsTouch FsDots.

Definition zero_sector : list Z := replicate SECTOR_LEN 0.

Section FsMkfs.
Context {D : Type} `{!BlockDevice SECTOR_LEN D}.
Implicit Types (s : fs_state (D := D)) (d : D) (node : inode_t) (b l m n x : Z) (name : list Z).

(** ** The card afterwards *)

(** The root directory is all there is: inode 0, block 1. *)
Record only_root d : Prop := {
  or_imap : imap d = <[0%nat := 1]> zero_sector;
  or_map0 : sd_read d MAP_BASE 1 = <[0%nat := 3]> zero_sector;
  or_maps x : MAP_BASE < x < MAP_BASE + 32 → sd_read d x 1 = zero_sector;
  or_root : inode_at d ROOT_INODE_NUM = new_dir ROOT_DIR_BLOCK;
  or_dots : block_bytes d ROOT_DIR_BLOCK = dots ROOT_INODE_NUM ROOT_INODE_NUM
}.

Lemma zero_sector_bytes (i : nat) v : 0 ≤ v < 256 → Forall (λ y, 0 ≤ y < 256) (<[i := v]> zero_sector).
Proof. intros Hv. apply Forall_insert; [|done]. by apply Forall_replicate. Qed.

Lemma nth_zero_sector v (k : nat) : (0 < k)%nat → nth k (<[0%nat := v]> zero_sector) 0 = 0.
Proof.
  intros Hk. rewrite nth_lookup, list_lookup_insert_ne by lia. unfold zero_sector.
  destruct (replicate SECTOR_LEN 0 !! k) as [y|] eqn:E; [|done]. by apply lookup_replicate in E as [-> _].
Qed.

Section Root.
Context (d : D).
Hypothesis Hd : only_root d.

Lemma root_ibit m : 0 ≤ m < NUM_INODES → ibit d m = bool_decide (m = 0).
Proof.
  intros Hm. unfold ibit, map_bit, map_byte. change NUM_INODES with 4096 in Hm. rewrite (Z.div_small m 4096), (Z.mod_small m 4096) by done.
  rewrite Z.add_0_r. fold (imap d). rewrite (or_imap _ Hd). destruct (decide (m < 8)) as [Hlt|Hge].
  - rewrite Z.div_small, Z.mod_small by lia. change (nth (Z.to_nat 0) _ 0) with 1.
    assert (m = 0 ∨ m = 1 ∨ m = 2 ∨ m = 3 ∨ m = 4 ∨ m = 5 ∨ m = 6 ∨ m = 7) as Hcase by lia.
    by repeat destruct Hcase as [->|Hcase]; [..|subst].
  - rewrite nth_zero_sector by (Z.to_euclidean_division_equations; lia). rewrite Z.bits_0, bool_decide_false by lia. done.
Qed.

Lemma root_bit c : 0 ≤ c < FS_BLOCK_NUM → bit d c = bool_decide (c < 2).
Proof.
  intros Hc. unfold bit, map_bit, map_byte. change FS_BLOCK_NUM with 131072 in Hc. destruct (decide (c < 4096)) as [Hs|Hs].
  - rewrite (Z.div_small c 4096), (Z.mod_small c 4096) by lia. rewrite Z.add_0_r, (or_map0 _ Hd). destruct (decide (c < 8)) as [Hlt|Hge].
    + rewrite Z.div_small, Z.mod_small by lia. change (nth (Z.to_nat 0) _ 0) with 3.
      assert (c = 0 ∨ c = 1 ∨ c = 2 ∨ c = 3 ∨ c = 4 ∨ c = 5 ∨ c = 6 ∨ c = 7) as Hcase by lia.
      by repeat destruct Hcase as [->|Hcase]; [..|subst].
    + rewrite nth_zero_sector by (Z.to_euclidean_division_equations; lia). rewrite Z.bits_0, bool_decide_false by lia. done.
  - rewrite (or_maps _ Hd) by (Z.to_euclidean_division_equations; lia). rewrite nth_lookup. unfold zero_sector.
    rewrite bool_decide_false by lia. destruct (replicate SECTOR_LEN 0 !! _) as [y|] eqn:E; [|by rewrite Z.bits_0].
    apply lookup_replicate in E as [-> _]. by rewrite Z.bits_0.
Qed.

Lemma root_used m : used_inode d m ↔ m = ROOT_INODE_NUM.
Proof.
  split.
  - intros [Hm Hb]. rewrite root_ibit in Hb by done. by apply bool_decide_eq_true in Hb.
  - intros ->. split; [done|]. by rewrite root_ibit.
Qed.

Lemma root_inv : fs_inv d.
Proof.
  split.
  - split; [done|]. intros x Hx. change (Z.of_nat MAP_LEN) with 32 in Hx. destruct (decide (x = MAP_BASE)) as [->|].
    + rewrite (or_map0 _ Hd). by apply zero_sector_bytes.
    + rewrite (or_maps _ Hd) by lia. by apply Forall_replicate.
  - split; [done|]. intros x Hx. assert (x = IMAP_BASE) as -> by lia. fold (imap d). rewrite (or_imap _ Hd). by apply zero_sector_bytes.
  - by rewrite root_bit.
  - intros m ->%root_used. rewrite (or_root _ Hd). apply new_dir_file_ok; [done|]. by rewrite root_bit.
  - intros m m' p q ->%root_used ->%root_used. done.
  - intros m ->%root_used _. rewrite (or_root _ Hd).
    by apply (dots_dir_ok d ROOT_DIR_BLOCK ROOT_INODE_NUM ROOT_INODE_NUM); [|apply Hd|apply root_used..].
Qed.

Lemma root_lookup name : name_ok name →
  dir_lookup d ROOT_INODE_NUM name = if decide (name = DOT ∨ name = DOTDOT) then ROOT_INODE_NUM else NEG1.
Proof.
  intros Hn. rewrite (dots_lookup d ROOT_DIR_BLOCK ROOT_INODE_NUM ROOT_INODE_NUM); [|apply Hd|done|apply Hd|done..].
  repeat case_decide; naive_solver.
Qed.

Lemma root_room k : Z.of_nat k ≤ 131070 → room d k.
Proof.
  intros Hk. exists (Z.of_nat <$> seq 2 k). split; [|split].
  - apply NoDup_fmap; [intros x y; lia|]. apply NoDup_seq.
  - by rewrite length_fmap, length_seq.
  - apply Forall_forall. intros c [i [-> Hi]]%list_elem_of_fmap. apply elem_of_seq in Hi.
    assert (0 ≤ Z.of_nat i < FS_BLOCK_NUM) as Hr by (change FS_BLOCK_NUM with 131072; lia).
    split; [done|]. rewrite root_bit by done. apply bool_decide_false. lia.
Qed.
End Root.
(** ** [do_mkfs] *)

Lemma wp_write_sectors k sector bs s (Q : unit → fs_state → Prop) :
  wp (write_sectors k sector bs) s Q ↔ Q () (upd_disk (sd_write (fs_disk s) (u32 sector) k bs) s).
Proof. done. Qed.

Lemma wp_buf_get off k s (Q : list Z → fs_state → Prop) : wp (buf_get off k) s Q ↔ Q (take k (drop off (tbuf s))) s.
Proof. done. Qed.

Lemma wp_write_block b off s (Q : unit → fs_state → Prop) :
  wp (write_block b off) s Q ↔ Q () (upd_disk (with_block (fs_disk s) b (take BLOCK_LEN (drop off (tbuf s)))) s).
Proof. done. Qed.

Lemma sb_in_buf d t : sb_of (take 80 (drop 0 (splice 0 (sd_read d FS_START_SECTOR 1) t))) = sb_at d.
Proof.
  pose proof (sd_read_length d FS_START_SECTOR 1) as Hr. unfold sb_at, sb_sector. f_equal.
  rewrite drop_0. unfold splice. rewrite take_0, app_nil_l, take_app_le; [done|]. rewrite Hr. unfold SECTOR_LEN. lia.
Qed.

Lemma read_sb_ok s : length (tbuf s) = TEMP_BUF_LEN →
  ∃ t, length t = TEMP_BUF_LEN ∧ read_sb s = Ok () (upd_sb (sb_at (fs_disk s)) (upd_tbuf t s)).
Proof.
  intros Hl. pose proof (sd_read_length (fs_disk s) FS_START_SECTOR 1) as Hr.
  assert (SECTOR_LEN ≤ TEMP_BUF_LEN)%nat as Hroom by (apply Nat.leb_le; by vm_compute).
  exists (splice 0 (sd_read (fs_disk s) FS_START_SECTOR 1) (tbuf s)). split; [rewrite length_splice; [done|]; rewrite Hr; lia|].
  unfold read_sb, read_sectors. rewrite bind_gets. unfold buf_set. rewrite bind_modify. unfold buf_get. rewrite bind_gets.
  change (u32 FS_START_SECTOR) with FS_START_SECTOR. cbn [tbuf upd_tbuf]. unfold modify. by rewrite sb_in_buf.
Qed.

(** What is written behind the superblock leaves it alone. *)
Lemma high_sb d x k bs : FS_START_SECTOR < x → sb_sector (sd_write d x k bs) = sb_sector d.
Proof. intros Hx. apply sd_read_other. lia. Qed.

(** The superblock as [write_sb] writes it. *)
Lemma new_sb_at d t : length t = TEMP_BUF_LEN →
  sb_at (sd_write d FS_START_SECTOR 1 (take SECTOR_LEN (drop 0 (splice 0 (sb_bytes new_sb) t)))) = new_sb.
Proof.
  intros Ht. assert (SECTOR_LEN ≤ TEMP_BUF_LEN)%nat as Hroom by (apply Nat.leb_le; by vm_compute).
  unfold sb_at, sb_sector. rewrite sd_read_same.
  - rewrite drop_0, take_take. unfold splice. rewrite take_0, app_nil_l, take_app_le by (apply Nat.leb_le; by vm_compute). by vm_compute.
  - rewrite drop_0, length_take, length_splice, Ht; [lia|]. rewrite Ht. by apply Nat.leb_le; vm_compute.
Qed.

(** The loop that clears the maps. *)
Lemma clear_maps_ok s k : take SECTOR_LEN (drop 0 (tbuf s)) = zero_sector → Z.of_nat k ≤ 33 →
  wp (for_ 0 k (λ i, bs ← buf_get 0 SECTOR_LEN; write_sectors 1 (IMAP_BASE + Z.of_nat i) bs)) s (λ _ s',
    ∃ d', s' = upd_disk d' s ∧ sb_sector d' = sb_sector (fs_disk s) ∧
      ∀ x, IMAP_BASE ≤ x < IMAP_BASE + Z.of_nat k → sd_read d' x 1 = zero_sector).
Proof.
  intros Hz Hk. eapply wp_mono.
  - apply (wp_for (λ i s', ∃ d', s' = upd_disk d' s ∧ sb_sector d' = sb_sector (fs_disk s) ∧ ∀ x, IMAP_BASE ≤ x < IMAP_BASE + Z.of_nat i → sd_read d' x 1 = zero_sector)).
    + exists (fs_disk s). split; [by destruct s|]. split; [done|]. intros x Hx. lia.
    + intros i s' Hi (d' & -> & Hsb & Hd'). rewrite wp_bind, wp_buf_get, wp_write_sectors. cbn [tbuf fs_disk upd_disk]. rewrite Hz.
      change IMAP_BASE with 1048577 in *. rewrite u32_id by lia. eexists. split; [reflexivity|].
      split; [rewrite high_sb by (change FS_START_SECTOR with 1048576; lia); done|]. intros x Hx.
      destruct (decide (x = 1048577 + Z.of_nat i)) as [->|Hne].
      * apply sd_read_same. unfold zero_sector. rewrite length_replicate. lia.
      * rewrite sd_read_other by lia. apply Hd'. lia.
  - intros _ s' (d' & -> & Hd'). by exists d'.
Qed.

Lemma length_inode_bytes_dir b : length (inode_bytes (new_dir b)) = 64%nat.
Proof. unfold inode_bytes. by rewrite length_words. Qed.

Lemma with_block0_inode d bs n : 0 ≤ n < NUM_INODES → inode_at (with_block d 0 bs) n = inode_at d n.
Proof.
  intros Hn. unfold inode_at, with_block. rewrite sd_read_other; [done|].
  destruct (block_sector_valid 0) as [-> ->]; [done|]. pose proof (inode_sector_low n Hn). lia.
Qed.

(** The card after [do_mkfs], [d1] being the one with cleared maps. *)
Lemma only_root_card d1 :
  (∀ x, IMAP_BASE ≤ x < IMAP_BASE + 33 → sd_read d1 x 1 = zero_sector) →
  let d2 := with_inode d1 ROOT_INODE_NUM (new_dir ROOT_DIR_BLOCK) in
  let d3 := with_block d2 0 (replicate BLOCK_LEN 0) in
  let d4 := with_block d3 ROOT_DIR_BLOCK (dots ROOT_INODE_NUM ROOT_INODE_NUM) in
  let d5 := sd_write d4 IMAP_BASE 1 (<[0%nat := 1]> zero_sector) in
  only_root (sd_write d5 MAP_BASE 1 (<[0%nat := 3]> zero_sector)).
Proof.
  intros Hz d2 d3 d4 d5.
  assert (∀ v, length (<[0%nat := v]> zero_sector) = (1 * SECTOR_LEN)%nat) as Hl.
  { intros v. rewrite length_insert. unfold zero_sector. rewrite length_replicate. lia. }
  assert (∀ x, x < inode_table_start → sd_read d4 x 1 = sd_read d1 x 1) as Hlow.
  { change inode_table_start with 1048610. intros x Hx. unfold d4, d3, d2, with_block, with_inode.
    destruct (block_sector_valid 0) as [-> ->]; [done|]. destruct (block_sector_valid ROOT_DIR_BLOCK) as [-> _]; [done|].
    change BLOCK_BASE with 1049122. change ROOT_DIR_BLOCK with 1. destruct (inode_place ROOT_INODE_NUM) as (-> & _ & _); [done|].
    change inode_table_start with 1048610. rewrite !sd_read_other by (unfold ROOT_INODE_NUM; Z.to_euclidean_division_equations; lia). done. }
  assert (∀ b k, inode_table_start ≤ b → sd_read (sd_write d5 MAP_BASE 1 (<[0%nat := 3]> zero_sector)) b k = sd_read d4 b k) as Hhigh.
  { change inode_table_start with 1048610. intros b k Hb. unfold d5. rewrite map_base_eq. change IMAP_BASE with 1048577.
    rewrite !sd_read_other by lia. done. }
  split.
  - unfold imap. rewrite sd_read_other by (rewrite map_base_eq; change IMAP_BASE with 1048577; lia). by apply sd_read_same.
  - by apply sd_read_same.
  - intros x Hx. rewrite map_base_eq in *. rewrite sd_read_other by lia. unfold d5. change IMAP_BASE with 1048577 in *.
    rewrite sd_read_other by lia. rewrite Hlow by (change inode_table_start with 1048610; lia). apply Hz. lia.
  - unfold inode_at. destruct (inode_place ROOT_INODE_NUM) as (Hs & Ho & _); [done|]. rewrite Hhigh.
    + fold (inode_at d4 ROOT_INODE_NUM). unfold d4, d3. rewrite with_block_inode by done.
      rewrite with_block0_inode by done. apply with_inode_same; [done|by apply new_dir_ok].
    + rewrite Hs. unfold ROOT_INODE_NUM. change (0 / 8) with 0. lia.
  - unfold block_bytes. rewrite Hhigh.
    + fold (block_bytes d4 ROOT_DIR_BLOCK). unfold d4. apply with_block_same, length_dots.
    + destruct (block_sector_valid ROOT_DIR_BLOCK) as [-> ->]; [done|]. change inode_table_start with 1048610. unfold ROOT_DIR_BLOCK. lia.
Qed.
Lemma length_buf off ws t : length t = TEMP_BUF_LEN → (off + length ws ≤ TEMP_BUF_LEN)%nat → length (splice off ws t) = TEMP_BUF_LEN.
Proof. intros Hl Hf. rewrite length_splice; [done|]. by rewrite Hl. Qed.

(** A sector's worth of zeroes in the buffer, and a first byte. *)
Lemma first_byte v t : length t = TEMP_BUF_LEN →
  take SECTOR_LEN (drop 0 (splice 0 [v] (splice 0 (replicate SECTOR_LEN 0) t))) = <[0%nat := v]> zero_sector.
Proof.
  intros Hl. assert (SECTOR_LEN ≤ TEMP_BUF_LEN)%nat as Hroom by (apply Nat.leb_le; by vm_compute).
  assert (1 ≤ SECTOR_LEN)%nat as Hs by (unfold SECTOR_LEN; lia).
  assert (length (splice 0 (replicate SECTOR_LEN 0) t) = TEMP_BUF_LEN) as Hl1 by (rewrite length_splice; [done|rewrite length_replicate; lia]).
  apply slice_eq; [rewrite length_insert; apply length_replicate|]. intros i Hi. simpl Nat.add.
  rewrite splice_lookup by (simpl; lia). simpl length. destruct (decide (i = 0%nat)) as [->|Hne].
  - by rewrite decide_True, list_lookup_insert_eq by (unfold zero_sector; rewrite ?length_replicate; lia).
  - rewrite decide_False, list_lookup_insert_ne by lia. rewrite splice_lookup by (rewrite length_replicate; lia).
    rewrite length_replicate, decide_True by lia. by rewrite Nat.sub_0_r.
Qed.

Lemma do_mkfs_ok s : length (tbuf s) = TEMP_BUF_LEN → magic (sb_at (fs_disk s)) ≠ SUPERBLOCK_MAGIC →
  wp do_mkfs s (λ r s', r = 0 ∧ only_root (fs_disk s') ∧ ready s' ∧ fdesc_array s' = fdesc_array s ∧
    tools_fdesc_array s' = tools_fdesc_array s ∧ cur_dir s' = cur_dir s).
Proof.
  intros Hl Hm. destruct (read_sb_ok s Hl) as (t & Ht & E). unfold do_mkfs. rewrite wp_bind, (wp_ok _ _ _ _ _ E), wp_bind, wp_get.
  cbn [sb upd_sb]. rewrite (proj2 (Z.eqb_neq _ _)) by done. rewrite wp_bind, wp_modify. unfold write_sb.
  rewrite wp_bind, wp_bind, wp_get, wp_bind, wp_buf_set, wp_bind, wp_buf_get, wp_write_sectors, wp_bind, wp_modify.
  cbn [tbuf fs_disk sb upd_disk upd_sb upd_tbuf upd_sb_valid]. set (t1 := splice 0 (sb_bytes new_sb) t).
  assert (length t1 = TEMP_BUF_LEN) as Ht1.
  { unfold t1. rewrite length_splice; [done|]. rewrite Ht. by apply Nat.leb_le; vm_compute. }
  cbv zeta. rewrite wp_bind, wp_buf_set, wp_bind. change (FS_START_SECTOR + inode_map_offset new_sb) with IMAP_BASE.
  change (Z.to_nat (INODE_MAP_SECTORS + BLOCK_MAP_SECTORS)) with 33%nat. cbn [tbuf upd_disk upd_tbuf upd_sb_valid].
  assert (SECTOR_LEN ≤ TEMP_BUF_LEN)%nat as Hroom by (apply Nat.leb_le; by vm_compute).
  set (t2 := splice 0 (replicate SECTOR_LEN 0) t1).
  assert (length t2 = TEMP_BUF_LEN) as Ht2 by (unfold t2; rewrite length_splice; [done|rewrite length_replicate; lia]).
  eapply wp_mono; [apply (clear_maps_ok _ 33)|].
  { cbn [tbuf upd_tbuf]. unfold t2, zero_sector. apply slice_splice_same; rewrite length_replicate; [lia|done]. }
  { lia. }
  intros _ s1 (d1 & -> & Hsb1 & Hz). change (IMAP_BASE + Z.of_nat 33) with (IMAP_BASE + 33) in Hz.
  rewrite wp_bind, wp_buf_set, wp_bind, wp_buf_set, wp_bind, (wp_ok _ _ _ _ _ (write_inode_ok _ _ _)).
  cbn [tbuf fs_disk upd_disk upd_tbuf upd_sb_valid].
  set (d2 := with_inode d1 ROOT_INODE_NUM (new_dir ROOT_DIR_BLOCK)).
  set (t3 := splice 0 (inode_bytes (new_dir ROOT_DIR_BLOCK)) (splice 0 (replicate SECTOR_LEN 0) t2)).
  assert (length t3 = TEMP_BUF_LEN) as Ht3.
  { assert (64 ≤ TEMP_BUF_LEN)%nat by (apply Nat.leb_le; by vm_compute).
    unfold t3. rewrite !length_splice; rewrite ?length_splice; rewrite ?length_inode_bytes_dir, ?length_replicate; lia. }
  pose proof buf_room as Hbr.
  rewrite wp_bind, wp_buf_set, wp_bind, wp_write_block. cbn [tbuf fs_disk upd_disk upd_tbuf upd_sb_valid].
  set (t4 := splice 0 (replicate BLOCK_LEN 0) t3).
  assert (length t4 = TEMP_BUF_LEN) as Ht4 by (unfold t4; rewrite length_splice; [done|rewrite length_replicate; lia]).
  assert (take BLOCK_LEN (drop 0 t4) = replicate BLOCK_LEN 0) as -> by (unfold t4; apply slice_splice_same; rewrite length_replicate; lia).
  set (d3 := with_block d2 0 _). rewrite wp_bind.
  match goal with |- wp (write_dots _ _ _) ?st _ => destruct (write_dots_ok ROOT_DIR_BLOCK ROOT_INODE_NUM ROOT_INODE_NUM st Ht4) as (t5 & Ht5 & E5) end.
  rewrite (wp_ok _ _ _ _ _ E5). clear E5. cbn [tbuf fs_disk upd_disk upd_tbuf upd_sb_valid].
  set (d4 := with_block d3 ROOT_DIR_BLOCK _).
  rewrite wp_bind, wp_buf_set, wp_bind, wp_buf_set, wp_bind, wp_buf_get, wp_bind, wp_write_sectors.
  cbn [tbuf fs_disk upd_disk upd_tbuf upd_sb_valid]. rewrite first_byte by done.
  rewrite wp_bind, wp_buf_set, wp_bind, wp_buf_get, wp_bind, wp_write_sectors, wp_ret.
  cbn [tbuf fs_disk upd_disk upd_tbuf upd_sb_valid].
  change (splice 0 [3] (splice 0 [1] ?x)) with (splice 0 [3] x). rewrite first_byte by done.
  set (d5 := sd_write d4 _ 1 (<[0%nat := 1]> zero_sector)). set (d6 := sd_write d5 _ 1 _).
  assert (only_root d6) as Hor by by apply only_root_card.
  assert (length (splice 0 [3] (splice 0 (replicate SECTOR_LEN 0) t5)) = TEMP_BUF_LEN) as Ht6.
  { apply length_buf; [apply length_buf; [done|rewrite length_replicate; lia]|]. cbn [length]. unfold SECTOR_LEN in *. lia. }
  cbn [fs_disk fdesc_array tools_fdesc_array cur_dir upd_disk upd_tbuf upd_sb upd_sb_valid].
  split; [done|]. split; [done|]. split; [|split; [|split]; reflexivity].
  split; [reflexivity|reflexivity|reflexivity|exact Ht6|apply (root_inv d6 Hor)|apply (root_inv d6 Hor)|].
  cbn [fs_disk sb upd_disk upd_tbuf upd_sb upd_sb_valid] in Hsb1 |- *.
  assert (sb_sector d6 = sb_sector d1) as E6.
  { unfold d6, d5, d4, d3, d2, with_block, with_inode. change FS_START_SECTOR with 1048576.
    rewrite !high_sb by (apply Z.ltb_lt; by vm_compute). done. }
  unfold sb_at. rewrite E6, Hsb1. by apply (new_sb_at (fs_disk s) t).
Qed.
(** C29: [do_mkfs] on a card without a file system makes a consistent one: inode 0,
    the root directory in block 1, is all that is taken, ["."] and [".."] lead
    to itself, and no other name is found; the system is ready to allocate. On a
    card that has one it answers -1 and writes nothing. *)
Theorem do_mkfs_spec s : length (tbuf s) = TEMP_BUF_LEN →
  wp do_mkfs s (λ r s',
    if decide (magic (sb_at (fs_disk s)) = SUPERBLOCK_MAGIC) then r = -1 ∧ fs_disk s' = fs_disk s else
    r = 0 ∧ fs_inv (fs_disk s') ∧ ready s' ∧
    (∀ m, used_inode (fs_disk s') m ↔ m = ROOT_INODE_NUM) ∧
    (∀ c, 0 ≤ c < FS_BLOCK_NUM → bit (fs_disk s') c = bool_decide (c < 2)) ∧
    is_dir (fs_disk s') ROOT_INODE_NUM ∧
    ∀ name, name_ok name → dir_lookup (fs_disk s') ROOT_INODE_NUM name =
      if decide (name = DOT ∨ name = DOTDOT) then ROOT_INODE_NUM else NEG1).
Proof.
  intros Hl. destruct (decide (magic (sb_at (fs_disk s)) = SUPERBLOCK_MAGIC)) as [Hm|Hm].
  - destruct (read_sb_ok s Hl) as (t & Ht & E). unfold do_mkfs. rewrite wp_bind, (wp_ok _ _ _ _ _ E), wp_bind, wp_get.
    cbn [sb upd_sb]. rewrite Hm, Z.eqb_refl. done.
  - eapply wp_mono; [by apply do_mkfs_ok|]. intros r s' (-> & Hor & Hr & _). split; [done|]. split; [by apply root_inv|].
    split; [done|]. split; [intros m; by apply root_used|]. split; [intros c; by apply root_bit|].
    split; [unfold is_dir; by rewrite (or_root _ Hor)|]. intros name Hn. by apply root_lookup.
Qed.
End FsMkfs.

(** ** Example: an empty card *)

Definition ex_empty : fs_state (D := Z → Z) :=
  mk_fs (λ _, 0) (replicate TEMP_BUF_LEN 0) (sb_of []) false (replicate NUM_FDESCS (mk_fdesc 0 0 0 false))
    (replicate NUM_FDESCS (mk_fdesc 0 0 0 false)) ROOT_INODE_NUM.

Lemma do_mkfs_spec_witness : wp do_mkfs ex_empty (λ r s', r = 0 ∧ fs_inv (fs_disk s')).
Proof.
  eapply wp_mono; [apply (do_mkfs_spec (D := Z → Z) ex_empty); done|]. intros r s'. cbv beta.
  rewrite decide_False by by vm_compute. by intros (-> & Hinv & _).
Defined.
