(* ===== verification/FsCreate.v ===== *)
(** Creating files: what [do_touch] and [do_open] of Fs promise, and a file from
    its creation to what is read from it. *)
From S2P Require Import Prelude KMonad Bytes Swap FsDisk FsDir Fs FsFile FsPath FsGrow FsAlloc FsWrite FsInv FsTouch FsMkfs.

(** ** The names of a path, from the end *)

(** The directory part of the path can be read as a path: it is not empty, and
    the name comes after one slash. *)
Definition plain_path (path : list Z) : Prop :=
  match split_last path with
  | None => path ≠ []
  | Some (dir, name) => name ≠ [] ∧ dir ≠ [] ∧ last dir ≠ Some SLASH
  end.

Lemma split_last_None path : split_last path = None → SLASH ∉ path.
Proof.
  induction path as [|c path IH]; simpl; [intros _; apply not_elem_of_nil|].
  destruct (split_last path) as [[]|]; [done|]. destruct (Z.eqb_spec c SLASH); [done|]. intros _.
  apply not_elem_of_cons. auto.
Qed.

Lemma split_last_Some path dir name : split_last path = Some (dir, name) → path = dir ++ SLASH :: name ∧ SLASH ∉ name.
Proof.
  revert dir. induction path as [|c path IH]; intros dir; simpl; [done|].
  destruct (split_last path) as [[a b]|] eqn:E.
  - intros [= <- <-]. destruct (IH a eq_refl) as [-> Hn]. done.
  - destruct (Z.eqb_spec c SLASH) as [->|]; [|done]. intros [= <- <-]. split; [done|]. by apply split_last_None.
Qed.

Lemma split_path_snoc cur dir name : SLASH ∉ name → name ≠ [] → last dir ≠ Some SLASH → cur ≠ [] ∨ dir ≠ [] →
  split_path cur (dir ++ SLASH :: name) = split_path cur dir ++ [name].
Proof.
  intros Hn Hne. revert cur. induction dir as [|c dir IH]; intros cur Hl Hc; simpl.
  - destruct cur as [|x cur]; [by destruct Hc|]. change (split_path [] name) with (path_names name).
    by rewrite path_names_last.
  - assert (last dir ≠ Some SLASH) as Hl' by (destruct dir; [done|by rewrite last_cons_cons in Hl]).
    destruct (Z.eqb_spec c SLASH) as [->|Hcs]; simpl; rewrite IH; try done; [|by left].
    right. by intros ->.
Qed.

Lemma path_names_snoc path dir name cwd : plain_path path → split_last path = Some (dir, name) →
  (path_start cwd path).1 = (path_start cwd dir).1 ∧
  path_names (path_start cwd path).2 = path_names (path_start cwd dir).2 ++ [name].
Proof.
  unfold plain_path. intros Hp E. rewrite E in Hp. destruct Hp as (Hne & Hd & Hl).
  apply split_last_Some in E as [-> Hn]. destruct dir as [|c dir]; [done|]. simpl. destruct (Z.eqb_spec c SLASH) as [->|Hc]; simpl.
  - split; [done|]. destruct dir as [|c' dir]; [by simpl in Hl|]. apply split_path_snoc; [done|done|by rewrite last_cons_cons in Hl|by right].
  - split; [done|]. unfold path_names. change (c :: dir ++ SLASH :: name) with ((c :: dir) ++ SLASH :: name).
    apply split_path_snoc; try done. by right.
Qed.

Section FsCreate.
Context {D : Type} `{!BlockDevice SECTOR_LEN D}.
Implicit Types (s : fs_state (D := D)) (d : D) (node : inode_t) (b l m n : Z) (name : list Z).

Lemma walk_snoc d n names name : walk d n names ≠ NEG1 →
  walk d n (names ++ [name]) = dir_lookup d (walk d n names) name.
Proof.
  revert n. induction names as [|c names IH]; intros n; simpl.
  - intros _. by destruct (Z.eqb_spec (dir_lookup d n name) NEG1).
  - destruct (Z.eqb_spec (dir_lookup d n c) NEG1); [done|]. apply IH.
Qed.

(** A walk that succeeds goes the same way after a file was made. *)
Lemma walk_made d n name m node d' x names :
  fs_inv d → made d n name m node d' → dir_lookup d n name = NEG1 → used_inode d x → Forall name_ok names →
  walk d x names ≠ NEG1 → walk d' x names = walk d x names.
Proof.
  intros Hinv Hmd Hnone Hx Hnames. revert x Hx. induction Hnames as [|c names Hc Hnames IH]; intros x Hx; simpl; [done|].
  destruct (Z.eqb_spec (dir_lookup d x c) NEG1) as [|Hne]; [done|]. intros Hw.
  assert (dir_lookup d' x c = dir_lookup d x c) as ->.
  { apply (md_names _ _ _ _ _ _ Hmd); [done|done|]. destruct (decide (x = n)) as [->|]; [|by left]. right. by intros ->. }
  rewrite (proj2 (Z.eqb_neq _ _)) by done. apply IH; [|done]. by apply dir_lookup_used.
Qed.

(** ** [do_touch] *)

(** What [do_touch] and [do_open] need: a consistent file system with an inode
    and three blocks free, and a path whose directory exists. *)
Record can_create s (path : list Z) (n : Z) (name : list Z) : Prop := {
  cc_inv : fs_inv (fs_disk s);
  cc_ready : ready s;
  cc_path : path_ok (cur_dir s) path;
  cc_parent : parent_of (fs_disk s) (cur_dir s) path = (n, name);
  cc_used : used_inode (fs_disk s) n;
  cc_dir : is_dir (fs_disk s) n;
  cc_size : i_size (inode_at (fs_disk s) n) < 2 ^ 31;
  cc_name : name_ok name;
  cc_room : room (fs_disk s) 3;
  cc_inode : ∃ x, 0 ≤ x < NUM_INODES ∧ ibit (fs_disk s) x = false
}.

(** What [do_touch] and [do_mkdir] begin with: a name that exists is refused. *)
Lemma creating_ok s path n name (body : Z → list Z → M fs_state Z) (Q : Z → fs_state → Prop) : can_create s path n name →
  (dir_lookup (fs_disk s) n name ≠ NEG1 → ∀ s', same_but_buf s s' → Q (-1) s') →
  (dir_lookup (fs_disk s) n name = NEG1 → ∀ s1, ready s1 → same_but_buf s s1 → wp (body n name) s1 Q) →
  wp (r ← find_parent path;
      let '(parent_inode_num, new_name) := r in
      if bool_decide (is_Some (split_last path)) && (parent_inode_num =? NEG1) then mret (-1) else
      found ← find_inode_by_name parent_inode_num new_name;
      if negb (found =? NEG1) then mret (-1) else body parent_inode_num new_name) s Q.
Proof.
  intros [Hinv Hr Hpath Hpar Hn Hd Hsz Hname Hroom Hfree] Hold Hnew. rewrite wp_bind.
  eapply wp_mono; [apply find_parent_ok; [apply Hr|done]|]. intros r s1 [-> Hs1]. rewrite Hpar.
  rewrite (proj2 (Z.eqb_neq n NEG1)) by (by eapply used_not_neg). rewrite andb_false_r. rewrite wp_bind.
  assert (∀ s1, same_but_buf s s1 → ready s1 ∧ fs_disk s1 = fs_disk s) as Hsame.
  { intros s2 (t & Ht & ->). split; [|done]. apply ready_buf; [done|]. by rewrite Ht; apply Hr. }
  destruct (Hsame _ Hs1) as [Hr1 Hd1].
  eapply wp_mono; [apply find_inode_by_name_ok; [apply Hr1|apply Hname]|]. intros r s2 [-> Hs2]. rewrite Hd1.
  assert (same_but_buf s s2) as Hs by by eapply same_but_buf_trans.
  destruct (Z.eqb_spec (dir_lookup (fs_disk s) n name) NEG1) as [Hnone|Hne]; cbn [negb].
  - apply Hnew; [done| |done]. by apply Hsame.
  - rewrite wp_ret. by apply Hold.
Qed.

Lemma do_touch_ok s path n name : can_create s path n name →
  wp (do_touch path) s (λ r s',
    (dir_lookup (fs_disk s) n name ≠ NEG1 ∧ r = -1 ∧ same_but_buf s s') ∨
    (dir_lookup (fs_disk s) n name = NEG1 ∧ made (fs_disk s) n name r new_file (fs_disk s') ∧ ready s' ∧
     (∀ k, room (fs_disk s) k → room (fs_disk s') (k - 3)) ∧ ∃ d' t, s' = upd_disk d' (upd_tbuf t s))).
Proof.
  intros Hcc. apply (creating_ok s path n name); [done| |].
  - intros Hne s' Hs. by left.
  - intros Hnone s1 Hr1 (t & Ht & ->). destruct Hcc.
    eapply wp_mono; [by apply (touch_new_ok n name (upd_tbuf t s))|]. intros m s2 (Hmd & Hr2 & Hrm & d' & t' & ->). right.
    split; [done|]. split; [done|]. split; [done|]. split; [done|]. by exists d', t'.
Qed.

(** C27: [do_touch] makes an empty file with a free inode, under the path's name in
    the path's directory, and returns the inode's number: the name is found
    there from then on, every other name in every directory leads where it led,
    every file and directory but this one has its inode, its blocks and
    their bytes, and the file system stays consistent. A name that exists already
    is refused, and the card is not written. *)
Theorem do_touch_spec s path n name : can_create s path n name →
  wp (do_touch path) s (λ r s',
    if decide (dir_lookup (fs_disk s) n name = NEG1) then made (fs_disk s) n name r new_file (fs_disk s') ∧ ready s'
    else r = -1 ∧ fs_disk s' = fs_disk s).
Proof.
  intros Hcc. eapply wp_mono; [by apply (do_touch_ok s path n name)|].
  intros r s' [(Hne & -> & t & _ & ->)|(Hnone & Hmd & Hr & _)]; [by rewrite decide_False|by rewrite decide_True].
Qed.

(** Where the walk along a new path leads. *)
Lemma walk_path s path n name : can_create s path n name → plain_path path →
  let '(x, p) := path_start (cur_dir s) path in
  (∃ names, path_names p = names ++ [name] ∧ walk (fs_disk s) x names = n).
Proof.
  intros Hcc Hp. pose proof (cc_parent _ _ _ _ Hcc) as Hpar. unfold parent_of in Hpar.
  destruct (split_last path) as [[dir name']|] eqn:E.
  - destruct (path_names_snoc path dir name' (cur_dir s) Hp E) as [E1 E2].
    destruct (path_start (cur_dir s) path) as [x p], (path_start (cur_dir s) dir) as [x' p'].
    cbn [fst snd] in E1, E2. subst x'. injection Hpar as <- ->. exists (path_names p'). done.
  - injection Hpar as <- <-. unfold plain_path in Hp. rewrite E in Hp. apply split_last_None in E.
    unfold path_start. destruct path as [|c path]; [done|]. apply not_elem_of_cons in E as E'. destruct E' as [Hc _].
    rewrite (proj2 (Z.eqb_neq c SLASH)) by done. exists []. split; [by apply path_names_last|done].
Qed.
(** The path leads into directories in use, and its names fit. *)
Definition path_found d (cwd : Z) (path : list Z) : Prop :=
  let '(x, p) := path_start cwd path in used_inode d x ∧ Forall name_ok (path_names p).

Lemma names_short names : Forall name_ok names → Forall (λ c, length c < MAX_FNAME_LEN)%nat names.
Proof. intros H. eapply Forall_impl; [exact H|]. by intros name (_ & ? & _). Qed.

(** Before the file exists, its path leads nowhere; afterwards, to the file. *)
Lemma find_new_path s path n name : can_create s path n name → plain_path path → path_found (fs_disk s) (cur_dir s) path →
  wp (find_inode_by_path path) s (λ r s', r = dir_lookup (fs_disk s) n name ∧ same_but_buf s s').
Proof.
  intros Hcc Hp Hpf. pose proof (walk_path s path n name Hcc Hp) as Hw. unfold path_found in Hpf.
  pose proof (find_inode_by_path_ok s path (rd_buf _ (cc_ready _ _ _ _ Hcc)) (proj1 (cc_path _ _ _ _ Hcc))) as Hf.
  destruct (path_start (cur_dir s) path) as [x p]. destruct Hpf as [Hx Hnames], Hw as (names & E & Hw).
  eapply wp_mono; [by apply Hf, names_short|]. intros r s' [-> Hs]. split; [|done].
  rewrite E, walk_snoc, Hw; [done|]. rewrite Hw. by eapply used_not_neg, Hcc.
Qed.

Lemma find_made_path s s1 path n name m node :
  can_create s path n name → plain_path path → path_found (fs_disk s) (cur_dir s) path →
  dir_lookup (fs_disk s) n name = NEG1 → made (fs_disk s) n name m node (fs_disk s1) → cur_dir s1 = cur_dir s →
  length (tbuf s1) = TEMP_BUF_LEN →
  wp (find_inode_by_path path) s1 (λ r s', r = m ∧ same_but_buf s1 s').
Proof.
  intros Hcc Hp Hpf Hnone Hmd Hcwd Hl. pose proof (walk_path s path n name Hcc Hp) as Hw. unfold path_found in Hpf.
  pose proof (find_inode_by_path_ok s1 path Hl (proj1 (cc_path _ _ _ _ Hcc))) as Hf. rewrite Hcwd in Hf.
  destruct (path_start (cur_dir s) path) as [x p]. destruct Hpf as [Hx Hnames], Hw as (names & E & Hw).
  eapply wp_mono; [by apply Hf, names_short|]. intros r s' [-> Hs]. split; [|done]. rewrite E in Hnames |- *.
  apply Forall_app in Hnames as [Hnames _]. pose proof (used_not_neg _ _ (cc_used _ _ _ _ Hcc)) as Hnn.
  assert (walk (fs_disk s1) x names = n) as Hw1.
  { rewrite <- Hw. eapply walk_made; try done; [apply Hcc|]. by rewrite Hw. }
  rewrite walk_snoc, Hw1; [by apply (md_name _ _ _ _ _ _ Hmd)|]. by rewrite Hw1.
Qed.

(** The descriptor that [alloc_fd] finds. *)
Definition next_fd s : option nat :=
  first_index NUM_FDESCS (λ fd, match tools_fdesc_array s !! fd with Some f => negb (f_used f) | None => false end).

Lemma open_inode_ok s m fd : next_fd s = Some fd → i_type (inode_at (fs_disk s) m) = FD_FILE →
  open_inode m O_RDWR s = Ok (Z.of_nat fd) (upd_fdescs (<[fd := mk_fdesc m O_RDWR 0 true]> (fdesc_array s)) s).
Proof.
  intros Hfd Ht. unfold open_inode. rewrite (bind_ok _ _ _ _ _ (get_inode_ok _ _)), Ht.
  change (negb (FD_FILE =? FD_FILE)) with false. cbv iota.
  assert (alloc_fd s = Ok (Z.of_nat fd) s) as Ha by (unfold alloc_fd; rewrite bind_get; fold (next_fd s); by rewrite Hfd).
  rewrite (bind_ok _ _ _ _ _ Ha).
  rewrite (proj2 (Z.eqb_neq _ _)) by lia. unfold set_fdesc. rewrite bind_modify, Nat2Z.id. done.
Qed.

Lemma do_open_new s path n name fd :
  can_create s path n name → plain_path path → path_found (fs_disk s) (cur_dir s) path →
  dir_lookup (fs_disk s) n name = NEG1 → used_inode (fs_disk s) ROOT_INODE_NUM → next_fd s = Some fd →
  wp (do_open path O_RDWR) s (λ r s', ∃ m, r = Z.of_nat fd ∧ made (fs_disk s) n name m new_file (fs_disk s') ∧ ready s' ∧
    (∀ k, room (fs_disk s) k → room (fs_disk s') (k - 3)) ∧
    fdesc_array s' = <[fd := mk_fdesc m O_RDWR 0 true]> (fdesc_array s)).
Proof.
  intros Hcc Hp Hpf Hnone Hroot Hfd. unfold do_open. rewrite wp_bind.
  eapply wp_mono; [by apply (find_new_path s path n name)|]. intros r s1 [-> (t & Ht & ->)]. rewrite Hnone, Z.eqb_refl.
  change ((O_RDWR =? O_RDWR) || (O_RDWR =? O_WRONLY)) with true. cbv iota. rewrite wp_bind.
  assert (can_create (upd_tbuf t s) path n name) as Hcc1.
  { destruct Hcc. split; try done. apply ready_buf; [done|]. by rewrite Ht; apply cc_ready0. }
  eapply wp_mono; [by apply (do_touch_ok (upd_tbuf t s) path n name)|]. cbn [fs_disk upd_tbuf].
  intros m s2 [(Hne & _)|(_ & Hmd & Hr2 & Hrm & d2 & t2 & ->)]; [done|]. cbn [fs_disk upd_disk upd_tbuf] in *.
  destruct (md_new _ _ _ _ _ _ Hmd) as ([[Hm0 Hm1] _] & Hnew & Hat). change NUM_INODES with 4096 in Hm1.
  assert (m ≠ 0) as Hmz by (intros ->; done). rewrite u32_id by lia. rewrite (proj2 (Z.leb_gt m 0)) by lia.
  assert (i_type (inode_at d2 m) = FD_FILE) as Ht2 by by rewrite Hat.
  set (s2 := upd_disk d2 (upd_tbuf t2 (upd_tbuf t s))) in *. rewrite (wp_ok _ _ _ _ _ (open_inode_ok s2 m fd Hfd Ht2)).
  exists m. split; [done|]. split; [done|]. split; [by destruct Hr2|]. done.
Qed.

(** C30: A file that does not exist yet is created by [do_open] for reading and
    writing; what is written into it then, anywhere its pointers reach, is read
    back after seeking to the start; its path leads to the new inode, whose size is
    that of the data, and the file system is as consistent as it was. *)
Theorem file_from_open_to_read s path n name data fd :
  can_create s path n name → plain_path path → path_found (fs_disk s) (cur_dir s) path →
  dir_lookup (fs_disk s) n name = NEG1 → used_inode (fs_disk s) ROOT_INODE_NUM →
  next_fd s = Some fd → (fd < length (fdesc_array s))%nat → Z.of_nat (length data) < 2 ^ 31 →
  room (fs_disk s) (3 + cost 0 (length data)) →
  wp (fd ← do_open path O_RDWR; do_write fd data;; do_lseek fd 0 SEEK_SET;; do_read fd (Z.of_nat (length data))) s
    (λ r s', r = (Z.of_nat (length data), data) ∧ fs_inv (fs_disk s') ∧
       ∃ m, ¬ used_inode (fs_disk s) m ∧ used_inode (fs_disk s') m ∧
         i_size (inode_at (fs_disk s') m) = Z.of_nat (length data) ∧ dir_lookup (fs_disk s') n name = m).
Proof.
  intros Hcc Hp Hpf Hnone Hroot Hfd Hlen Hdata Hroom. rewrite wp_bind.
  eapply wp_mono; [by apply (do_open_new s path n name fd)|]. intros r s1 (m & -> & Hmd & Hr1 & Hrm & Hfds).
  destruct (md_new _ _ _ _ _ _ Hmd) as (Hum & Hnew & Hat).
  assert (get_fdesc s1 (Z.of_nat fd) = Some (mk_fdesc m O_RDWR 0 true)) as Hgf.
  { unfold get_fdesc. rewrite Nat2Z.id, Hfds, list_lookup_insert_eq by done. simpl.
    apply first_index_Some in Hfd as (Hlt & _). rewrite (proj2 (Z.ltb_ge _ _)), (proj2 (Z.leb_gt _ _)) by lia. done. }
  assert (file_ok (fs_disk s1) (inode_at (fs_disk s1) m)) as Hok by by apply (fi_file _ (md_inv _ _ _ _ _ _ Hmd)).
  eapply wp_mono; [apply (write_then_read_ok m (proj1 Hum) s1 (Z.of_nat fd) (mk_fdesc m O_RDWR 0 true) data); try done|].
  - by rewrite Hat.
  - specialize (Hrm _ Hroom). by replace (3 + cost 0 (length data) - 3)%nat with (cost 0 (length data)) in Hrm by lia.
  - intros r s2 (-> & Hsz & Hx). cbn [f_pos] in Hsz. rewrite Hat in Hsz. split; [done|].
    assert (¬ is_dir (fs_disk s1) m) as Hnd by (unfold is_dir; by rewrite Hat).
    assert (m ≠ n) as Hmn by (intros ->; by apply Hnew, Hcc).
    split; [|exists m; split; [done|split; [|split]]].
    + eapply extends_inv; [apply Hmd|done|done|done].
    + apply (used_imap (fs_disk s1)); [|done]. apply Hx.
    + rewrite Hsz. unfold end_size. simpl. case_decide as E; [by rewrite E|lia].
    + rewrite (other_lookup m (fs_disk s1)); [apply Hmd|apply Hmd|done|apply Hx| |done].
      apply (md_used _ _ _ _ _ _ Hmd). right. apply Hcc.
Qed.
End FsCreate.

(** ** Examples: a file in the root of a new file system *)

Lemma fresh_can_create {D} `{!BlockDevice SECTOR_LEN D} (s : fs_state (D := D)) name :
  only_root (fs_disk s) → ready s → cur_dir s = ROOT_INODE_NUM → name_ok name → name ≠ DOT → name ≠ DOTDOT → SLASH ∉ name →
  can_create s name ROOT_INODE_NUM name ∧ plain_path name ∧ path_found (fs_disk s) (cur_dir s) name ∧
  dir_lookup (fs_disk s) ROOT_INODE_NUM name = NEG1 ∧ used_inode (fs_disk s) ROOT_INODE_NUM.
Proof.
  intros Hor Hr Hc Hn H1 H2 Hs. pose proof Hn as (Hne & Hl & _).
  assert (split_last name = None) as E.
  { clear -Hs. induction name as [|c name IH]; [done|]. apply not_elem_of_cons in Hs as [Hc Hs]. simpl. rewrite IH by done.
    by rewrite (proj2 (Z.eqb_neq _ _)). }
  assert (path_start (cur_dir s) name = (ROOT_INODE_NUM, name)) as Ep.
  { unfold path_start. rewrite Hc. destruct name as [|c name]; [done|]. apply not_elem_of_cons in Hs as [Hcs _].
    by rewrite (proj2 (Z.eqb_neq _ _)). }
  assert (used_inode (fs_disk s) ROOT_INODE_NUM) as Hu by by apply root_used.
  split; [|split; [|split; [|split; [rewrite root_lookup by done; by rewrite decide_False by naive_solver|done]]]].
  - split; try done.
    + by apply root_inv.
    + unfold path_ok. rewrite E. split; [|done]. unfold MAX_PATH_LEN, MAX_FNAME_LEN in *. lia.
    + unfold parent_of. by rewrite E, Hc.
    + unfold is_dir. by rewrite (or_root _ Hor).
    + by rewrite (or_root _ Hor).
    + apply root_room; [done|lia].
    + exists 1. split; [done|]. by rewrite root_ibit.
  - unfold plain_path. by rewrite E.
  - unfold path_found. rewrite Ep. split; [done|]. rewrite path_names_last by done. by apply Forall_singleton.
Qed.

Lemma ex_name : name_ok [97] ∧ [97] ≠ DOT ∧ [97] ≠ DOTDOT ∧ SLASH ∉ [97].
Proof. by apply (bool_decide_unpack _); vm_compute. Qed.

Lemma do_touch_spec_witness : wp (do_mkfs;; do_touch [97]) ex_empty (λ r s', inode_at (fs_disk s') r = new_file).
Proof.
  rewrite wp_bind. eapply wp_mono; [apply (do_mkfs_ok (D := Z → Z) ex_empty); by vm_compute|].
  intros r s1 (_ & Hor & Hr & _ & _ & Hc). destruct ex_name as (Hn & H1 & H2 & Hs).
  destruct (fresh_can_create s1 [97] Hor Hr Hc Hn H1 H2 Hs) as (Hcc & _ & _ & Hnone & _).
  eapply wp_mono; [by apply (do_touch_spec (D := Z → Z) s1 [97] ROOT_INODE_NUM [97])|]. intros m s2. cbv beta.
  rewrite decide_True by done. intros (Hmd & _). by apply (md_new _ _ _ _ _ _ Hmd).
Defined.

Lemma file_from_open_to_read_witness :
  wp (do_mkfs;; fd ← do_open [97] O_RDWR; do_write fd (replicate 10 7);; do_lseek fd 0 SEEK_SET;; do_read fd 10) ex_empty
    (λ r _, r = (10, replicate 10 7)).
Proof.
  rewrite wp_bind. eapply wp_mono; [apply (do_mkfs_ok (D := Z → Z) ex_empty); by vm_compute|].
  intros r s1 (_ & Hor & Hr & Hf & Ht & Hc). destruct ex_name as (Hn & H1 & H2 & Hs).
  destruct (fresh_can_create s1 [97] Hor Hr Hc Hn H1 H2 Hs) as (Hcc & Hp & Hpf & Hnone & Hu).
  eapply wp_mono.
  - apply (file_from_open_to_read (D := Z → Z) s1 [97] ROOT_INODE_NUM [97] (replicate 10 7) 0); try done.
    + unfold next_fd. by rewrite Ht.
    + rewrite Hf. by vm_compute; lia.
    + apply root_room; [done|]. by vm_compute.
  - by intros r' s' (-> & _).
Defined.
