(* ===== verification/FsMkdir.v ===== *)
(** New directories: what [do_mkdir] of Fs promises. *)
From S2P Require Import Prelude KMonad Bytes Swap FsDisk FsDir Fs FsFile FsPath FsGrow FsAlloc FsWrite FsInv FsTouch FsDots FsMkfs FsCreate.

Section FsMkdir.
Context {D : Type} `{!BlockDevice SECTOR_LEN D}.
Implicit Types (s : fs_state (D := D)) (d : D) (node : inode_t) (b l m n : Z) (name : list Z).

(** The card after the inode [m] and the block [b] were taken and written. *)
Lemma dir_created d d1 d2 m n b : fs_inv d → taken d d1 m → fresh d1 d2 b false → used_inode d n →
  let d' := with_block (with_inode d2 m (new_dir b)) b (dots m n) in
  created d d' m (new_dir b) ∧ fs_inv d' ∧ block_bytes d' b = dots m n ∧
  ∀ c, 0 ≤ c < FS_BLOCK_NUM → bit d' c = if decide (c = b) then true else bit d c.
Proof.
  intros Hinv [Hr Hc [Hm Him Hsb Hb _ Hi Hby] Hu] [Hv Hfc Hfm Hfim Hfb Hfi Hfby _] Hn d'.
  set (d3 := with_inode d2 m (new_dir b)) in *. destruct (with_inode_map d2 m (new_dir b) Hr) as [Hb3 Hm3].
  destruct (with_block_map d3 b (dots m n) Hv) as [Hb4 Hm4]. fold d3 in Hb3, Hm3. fold d' in Hb4, Hm4.
  assert (0 ≤ b < FS_BLOCK_NUM) as Hbr by (unfold valid_block in Hv; lia).
  assert (∀ c, 0 ≤ c < FS_BLOCK_NUM → bit d' c = if decide (c = b) then true else bit d c) as Hbits.
  { intros c Hcr. rewrite Hb4, Hb3, Hfb by done. case_decide; [done|]. by apply Hb. }
  assert (bit d b = false) as Hfree by by rewrite <- Hb.
  assert (heads d' = heads d1) as Himap.
  { unfold d', d3. by rewrite with_block_heads, with_inode_heads. }
  assert (block_bytes d' b = dots m n) as Hdots by apply with_block_same, length_dots.
  assert (created d d' m (new_dir b)) as Hcr.
  { split; try done.
    - by apply Hm4, Hm3.
    - by eapply imaps_imap.
    - rewrite <- Hsb. by apply heads_sb.
    - intros c Hcr Hcb. rewrite Hbits by done. by case_decide.
    - intros x. rewrite (used_imap d1) by done. apply Hu.
    - unfold d'. rewrite with_block_inode by done. apply with_inode_same; [done|]. by apply new_dir_ok, valid_word.
    - intros x Hx Hne. unfold d', d3. rewrite with_block_inode, with_inode_ne by (done || by apply new_dir_ok, valid_word). rewrite Hfi by done. by apply Hi.
    - intros c Hvc Hcb. assert (b ≠ c) as Hne by congruence. unfold d', d3.
      rewrite with_block_ne, with_inode_block by done. by rewrite Hfby, Hby by done. }
  split; [done|]. split; [|done].
  eapply (created_inv d d' m (new_dir b)); [done|done|apply new_dir_file_ok; [done|by rewrite Hbits, decide_True]| |].
  - intros p Hp. rewrite new_dir_block by done. by case_decide.
  - intros _. apply (dots_dir_ok d' b m n); try done; apply (cr_used _ _ _ _ Hcr); [by left|by right].
Qed.

(** The part of [do_mkdir] from the free inode on. *)
Lemma mkdir_new_ok n name s :
  fs_inv (fs_disk s) → ready s → used_inode (fs_disk s) n → is_dir (fs_disk s) n → name_ok name →
  i_size (inode_at (fs_disk s) n) < 2 ^ 31 → room (fs_disk s) 4 → dir_lookup (fs_disk s) n name = NEG1 →
  (∃ x, 0 ≤ x < NUM_INODES ∧ ibit (fs_disk s) x = false) →
  wp (new_inode_num ← alloc_inode;
      new_block_num ← alloc_block;
      write_inode new_inode_num (new_dir new_block_num);;
      write_dots new_block_num new_inode_num n;;
      parent_node ← add_entry n name new_inode_num;
      write_inode n (set_nlinks (u32 (nlinks parent_node + 1)) parent_node);;
      mret 0) s (λ r s', r = 0 ∧ ready s' ∧ ∃ m b, made (fs_disk s) n name m (new_dir b) (fs_disk s') ∧
    ∀ name', name_ok name' → dir_lookup (fs_disk s') m name' =
      if decide (name' = DOT) then m else if decide (name' = DOTDOT) then n else NEG1).
Proof.
  intros Hinv Hr Hn Hd Hname Hsz Hroom Hnone (x0 & Hx0 & Hfree). set (d := fs_disk s) in *. rewrite wp_bind.
  eapply wp_mono; [apply alloc_inode_ok; [done|apply Hinv]|].
  intros m s1 [(_ & _ & Hall)|(d1 & -> & Htk)]; [by rewrite Hall in Hfree|]. fold d in Htk.
  assert (ready (upd_disk d1 s)) as Hr1.
  { destruct (tk_marked _ _ _ Htk) as [H1 _ H2 H3 _ _ _]. apply ready_disk; [done|done| |done]. by rewrite H3; [apply Hr|]. }
  rewrite wp_bind. eapply wp_mono; [by apply alloc_block_ok|]. cbn [fs_disk upd_disk].
  intros b s2 [(_ & _ & Hfull)|(d2 & -> & Hfr)].
  { assert (room d1 4) as H4 by (eapply room_bits; [|exact Hroom]; apply (tk_marked _ _ _ Htk)). by apply (room_full _ _ Hfull) in H4. }
  rewrite wp_bind, (wp_ok _ _ _ _ _ (write_inode_ok _ _ _)), wp_bind. cbn [fs_disk upd_disk].
  match goal with |- wp (write_dots _ _ _) ?st _ => destruct (write_dots_ok b m n st (rd_buf _ Hr)) as (t & Ht & E) end.
  rewrite (wp_ok _ _ _ _ _ E). clear E. cbn [fs_disk upd_disk upd_tbuf].
  destruct (dir_created d d1 d2 m n b Hinv Htk Hfr Hn) as (Hcr & Hinv' & Hdots & Hbits). set (d4 := with_block _ _ _) in *.
  assert (ready (upd_disk d4 (upd_tbuf t s))) as Hr4.
  { apply ready_disk; [by apply ready_buf|apply Hinv'..|apply Hcr]. }
  assert (room d4 3) as Hroom4.
  { apply (room_step d d4 b 4); [|done]. intros c Hc Hne. rewrite Hbits by done. by rewrite decide_False. }
  eapply wp_mono; [apply (enter_ok n name m (new_dir b) d (λ k, u32 (k + 1)) 0 (upd_disk d4 (upd_tbuf t s))); try done|].
  - intros k _. apply u32_range.
  - intros r s' (-> & Hmd & Hr' & _ & _ & Hnames). split; [done|]. split; [done|]. exists m, b. split; [done|].
    intros name' Hname'. rewrite Hnames by done. cbn [fs_disk upd_disk].
    apply (dots_lookup d4 b m n); try done; [apply Hcr|apply Hfr| |by eapply used_word].
    apply (used_word d4 m). apply (cr_used _ _ _ _ Hcr). by left.
Qed.

(** C28: [do_mkdir] makes a directory with a free inode and a free block under the
    path's name in the path's directory: the name leads to it from then on, in it
    ["."] leads to itself, [".."] to the directory that it is in, and no other
    name to anything; every other name leads where it led, every other file and
    directory has its inode, its blocks and their bytes, and the file system stays consistent.
    A name that exists already is refused, and the card is not written. *)
Theorem do_mkdir_spec s path n name : can_create s path n name → room (fs_disk s) 4 →
  wp (do_mkdir path) s (λ r s',
    if decide (dir_lookup (fs_disk s) n name = NEG1) then
      r = 0 ∧ ready s' ∧ ∃ m b, made (fs_disk s) n name m (new_dir b) (fs_disk s') ∧
        ∀ name', name_ok name' → dir_lookup (fs_disk s') m name' =
          if decide (name' = DOT) then m else if decide (name' = DOTDOT) then n else NEG1
    else r = -1 ∧ fs_disk s' = fs_disk s).
Proof.
  intros Hcc Hroom. unfold do_mkdir.
  apply (creating_ok s path n name); [done| |].
  - intros Hne s' (t & _ & ->). by rewrite decide_False.
  - intros Hnone s1 Hr1 (t & Ht & ->). destruct Hcc.
    eapply wp_mono; [by apply (mkdir_new_ok n name (upd_tbuf t s))|]. intros r s' H. by rewrite decide_True.
Qed.
End FsMkdir.

(** A directory in the root of a new file system. *)
Lemma do_mkdir_spec_witness : wp (do_mkfs;; do_mkdir [97]) ex_empty (λ r s', r = 0 ∧ fs_inv (fs_disk s') ∧
  dir_lookup (fs_disk s') (dir_lookup (fs_disk s') ROOT_INODE_NUM [97]) DOTDOT = ROOT_INODE_NUM).
Proof.
  rewrite wp_bind. eapply wp_mono; [apply (do_mkfs_ok (D := Z → Z) ex_empty); by vm_compute|].
  intros r s1 (_ & Hor & Hr & _ & _ & Hc). destruct ex_name as (Hn & H1 & H2 & Hs).
  destruct (fresh_can_create s1 [97] Hor Hr Hc Hn H1 H2 Hs) as (Hcc & _ & _ & Hnone & _).
  eapply wp_mono; [apply (do_mkdir_spec (D := Z → Z) s1 [97] ROOT_INODE_NUM [97]); [done|by apply root_room]|].
  intros r' s2. cbv beta. rewrite decide_True by done. intros (-> & _ & m & b & Hmd & Hnames). split; [done|]. split; [apply Hmd|].
  rewrite (md_name _ _ _ _ _ _ Hmd), Hnames by apply dot_ok. by apply (bool_decide_unpack _); vm_compute.
Defined.

(** With the block number -1, that is what a full map gives and [do_mkdir] does not
    test, [write_dots] would write over the last 64 inodes. *)
Lemma neg1_block_sectors (k : nat) : (k < SECTORS_PER_BLOCK)%nat →
  u32 (block_sector NEG1) + Z.of_nat k = inode_sector (4032 + 8 * Z.of_nat k).
Proof. change SECTORS_PER_BLOCK with 8%nat. intros Hk. do 8 (destruct k as [|k]; [by vm_compute|]). lia. Qed.
