(* ===== verification/FsRemove.v ===== *)
(** Removing files: what [do_rm] of Fs promises for a file without index blocks. *)
From S2P Require Import Prelude KMonad Bytes Swap FsDisk FsDir Fs FsFile FsPath FsGrow FsAlloc FsWrite FsInv FsTouch FsDots FsMkfs FsCreate.

(** ** An entry less *)

Lemma str_eq_inj b name name' : Forall (λ c, c ≠ 0) name → Forall (λ c, c ≠ 0) name' →
  str_eq b name = true → str_eq b name' = true → name = name'.
Proof.
  intros Hn. revert b name'. induction Hn as [|c name Hc Hn IH]; intros b name' Hn'; destruct Hn' as [|c' name' Hc' Hn'], b as [|x b]; simpl; try done.
  - intros ->%Z.eqb_eq [E%Z.eqb_eq _]%andb_true_iff. congruence.
  - intros [E%Z.eqb_eq _]%andb_true_iff ->%Z.eqb_eq. congruence.
  - intros [<-%Z.eqb_eq H1]%andb_true_iff [<-%Z.eqb_eq H2]%andb_true_iff. f_equal. by apply (IH b).
Qed.

Lemma named_inj bs name name' j : name_ok name → name_ok name' →
  entry_named bs name j = true → entry_named bs name' j = true → name = name'.
Proof.
  intros (_ & _ & H1) (_ & _ & H2) [_ E1]%andb_true_iff [_ E2]%andb_true_iff. by eapply str_eq_inj.
Qed.

(** The block [bs] with the entry in the place [j] freed. *)
Definition cut_entry (j : nat) (bs : list Z) : list Z := splice (DENTRY_SIZE * j) [0] bs.

Lemma length_cut j bs : length bs = BLOCK_LEN → (j < DENTRIES)%nat → length (cut_entry j bs) = BLOCK_LEN.
Proof.
  intros Hl Hj. pose proof (entry_fits j Hj). unfold cut_entry. rewrite length_splice; [done|]. cbn [length]. unfold DENTRY_SIZE in *. lia.
Qed.

Lemma cut_entry_same j bs : length bs = BLOCK_LEN → (j < DENTRIES)%nat → entry_free (cut_entry j bs) j = true.
Proof.
  intros Hl Hj. pose proof (entry_fits j Hj). unfold entry_free, entry_at, cut_entry. rewrite nth_lookup, lookup_drop, Nat.add_0_r.
  assert (DENTRY_SIZE * j < length bs)%nat by (unfold DENTRY_SIZE in *; lia).
  rewrite splice_lookup by (cbn [length]; lia). cbn [length]. rewrite decide_True by lia. by rewrite Nat.sub_diag.
Qed.

Lemma cut_entry_other j j' bs name : length bs = BLOCK_LEN → (length name < MAX_FNAME_LEN)%nat →
  (j < DENTRIES)%nat → (j' < DENTRIES)%nat → j' ≠ j →
  entry_free (cut_entry j bs) j' = entry_free bs j' ∧ entry_named (cut_entry j bs) name j' = entry_named bs name j' ∧
  entry_inode (cut_entry j bs) j' = entry_inode bs j'.
Proof.
  intros Hl Hn Hj Hj' Hne. apply entry_eq; [done|]. unfold entry_at, cut_entry.
  unfold DENTRY_SIZE, DENTRIES, BLOCK_LEN in *. apply slice_splice_other; cbn [length]; [rewrite Hl|]; lia.
Qed.

Lemma first_entry_ext bs bs' name :
  (∀ j, (j < DENTRIES)%nat → entry_named bs' name j = entry_named bs name j) →
  (∀ j, (j < DENTRIES)%nat → entry_named bs name j = true → entry_inode bs' j = entry_inode bs j) →
  entry_inode bs' <$> first_index DENTRIES (entry_named bs' name) = entry_inode bs <$> first_index DENTRIES (entry_named bs name).
Proof.
  intros Hn Hi. rewrite (first_index_ext _ _ (entry_named bs name)) by done.
  destruct (first_index DENTRIES (entry_named bs name)) as [j|] eqn:E; [|done].
  apply first_index_Some in E as (Hj & Hnm & _). cbn [fmap option_fmap option_map]. by rewrite Hi.
Qed.

Section FsRemove.
Context {D : Type} `{!BlockDevice SECTOR_LEN D}.
Implicit Types (s : fs_state (D := D)) (d : D) (node : inode_t) (b l m n x : Z) (p q : place) (name : list Z).

(** No entry leads to the inode [m]. *)
Definition unlinked d m : Prop := ∀ x l j, used_inode d x → is_dir d x → 0 ≤ l < num_blocks (inode_at d x) → (j < DENTRIES)%nat →
  entry_free (entries_at d (inode_at d x) l) j = false → entry_inode (entries_at d (inode_at d x) l) j ≠ m.
(** Only entries [name] of the directory [n] lead to it. *)
Definition sole_link d n name m : Prop := ∀ x l j, used_inode d x → is_dir d x → 0 ≤ l < num_blocks (inode_at d x) →
  (j < DENTRIES)%nat → entry_free (entries_at d (inode_at d x) l) j = false → entry_inode (entries_at d (inode_at d x) l) j = m →
  x = n ∧ entry_named (entries_at d (inode_at d x) l) name j = true.

(** The card [d'] is [d] with an entry of the name freed. *)
Definition cut d node name d' : Prop := ∃ l j, 0 ≤ l < num_blocks node ∧ (j < DENTRIES)%nat ∧
  file_block d node l ≠ 0 ∧ entry_named (entries_at d node l) name j = true ∧
  d' = with_block d (file_block d node l) (cut_entry j (entries_at d node l)).

Lemma named_in_buf_index d b t name : length t = TEMP_BUF_LEN → (length name < MAX_FNAME_LEN)%nat →
  first_index DENTRIES (entry_named (splice 0 (block_bytes d b) t) name) = first_index DENTRIES (entry_named (block_bytes d b) name).
Proof. intros Ht Hn. apply first_index_ext. intros j Hj. by apply entry_in_buf. Qed.

Lemma remove_dentry_ok node n name s :
  length (tbuf s) = TEMP_BUF_LEN → length (direct_ptr node) = DIRECT_BLOCK_NUM → (length name < MAX_FNAME_LEN)%nat →
  first_block (fs_disk s) node name 0 (Z.to_nat (num_blocks node)) ≠ None →
  wp (remove_dentry node n name) s (λ _ s', ∃ d' t, length t = TEMP_BUF_LEN ∧ cut (fs_disk s) node name d' ∧
    s' = upd_disk d' (upd_tbuf t s)).
Proof.
  intros Hl Hd Hn Hsome. unfold remove_dentry. rewrite wp_bind. unfold each_block.
  eapply wp_mono with (Q := λ _ s', ∃ d' t, length t = TEMP_BUF_LEN ∧ cut (fs_disk s) node name d' ∧ s' = upd_disk d' (upd_tbuf t s));
    [|intros r s' H; by rewrite wp_ret].
  apply (wp_for_ret (λ i s', same_but_buf s s' ∧
    ∀ l, 0 ≤ l < Z.of_nat i → block_lookup (fs_disk s) name (file_block (fs_disk s) node l) = None)).
  - split; [apply same_but_buf_refl|]. intros l Hlr. lia.
  - intros i s1 Hi [Hs1 Hnone]. assert (length (tbuf s1) = TEMP_BUF_LEN ∧ fs_disk s1 = fs_disk s) as [Hl1 Hd1].
    { destruct Hs1 as (t & Ht & ->). simpl. split; [congruence|done]. }
    destruct (get_physical_ok node n (Z.of_nat i) false s1 Hl1 Hd ltac:(lia)) as (s2 & Hg & Hs2); [by left|].
    rewrite wp_bind, (wp_ok _ _ _ _ _ Hg), Hd1. cbn [snd]. set (b := file_block (fs_disk s) node (Z.of_nat i)).
    assert (same_but_buf s s2) as Hs by by eapply same_but_buf_trans.
    assert (block_lookup (fs_disk s) name b = None →
      ∀ l, 0 ≤ l < Z.of_nat (S i) → block_lookup (fs_disk s) name (file_block (fs_disk s) node l) = None) as Hnext.
    { intros Hb l Hlr. destruct (decide (l = Z.of_nat i)) as [->|]; [done|]. apply Hnone. lia. }
    assert (length (tbuf s2) = TEMP_BUF_LEN ∧ fs_disk s2 = fs_disk s) as [Hl2 Hd2].
    { destruct Hs as (t & Ht & ->). simpl. split; [congruence|done]. }
    destruct ((b =? NEG1) || (b =? 0)) eqn:Eb.
    { rewrite wp_ret. split; [done|]. apply Hnext. unfold block_lookup. by rewrite Eb. }
    apply orb_false_iff in Eb as [Eb1 Eb0]. apply Z.eqb_neq in Eb0.
    destruct (read_block_ok b s2 Hl2) as [Hr Hl3]. rewrite wp_bind, (wp_ok _ _ _ _ _ Hr), wp_bind, wp_gets. cbn [tbuf upd_tbuf].
    rewrite named_in_buf_index by done. rewrite Hd2 in *.
    destruct (first_index DENTRIES (entry_named (block_bytes (fs_disk s) b) name)) as [j|] eqn:E.
    + apply first_index_Some in E as (Hj & Hnm & _). pose proof (entry_fits j Hj).
      apply (store_chunk_ok b (block_bytes (fs_disk s) b)); [done|by apply read_block_buf|simpl; unfold DENTRY_SIZE in *; lia|].
      intros t Ht. rewrite wp_ret. destruct Hs as (t2 & Ht2 & ->). eexists _, t. split; [done|]. split; [|reflexivity].
      exists (Z.of_nat i), j. split; [lia|]. done.
    + rewrite wp_ret. split.
      * eapply same_but_buf_trans; [exact Hs|]. eexists. split; [|reflexivity]. cbn [tbuf upd_tbuf]. congruence.
      * apply Hnext. unfold block_lookup. rewrite Eb1, (proj2 (Z.eqb_neq _ _)) by done. simpl. by rewrite E.
  - intros s' [_ Hnone]. destruct Hsome. apply first_block_None. intros l Hlr. apply Hnone. lia.
Qed.

(** ** The directory afterwards *)

Section Cut.
Context (n : Z) (d : D) (name : list Z) (d' : D).
Hypothesis (Hinv : fs_inv d) (Hn : used_inode d n) (Hd : is_dir d n) (Hname : name_ok name).
Hypothesis Hcut : cut d (inode_at d n) name d'.
#[local] Notation node := (inode_at d n).

(** Where the entry was, and what is left. *)
Record cut_at (l0 : Z) (j0 : nat) : Prop := {
  ct_ext : extends n d node d' node;
  ct_inode : inode_at d' n = node;
  ct_bits c : 0 ≤ c < FS_BLOCK_NUM → bit d' c = bit d c;
  ct_named : 0 ≤ l0 < num_blocks node ∧ (j0 < DENTRIES)%nat ∧ entry_named (entries_at d node l0) name j0 = true;
  ct_block l : 0 ≤ l < num_blocks node → file_block d' node l = file_block d node l;
  ct_free : entry_free (entries_at d' node l0) j0 = true;
  ct_other l j name' : 0 ≤ l < num_blocks node → (j < DENTRIES)%nat → name_ok name' → ¬ (l = l0 ∧ j = j0) →
    entry_free (entries_at d' node l) j = entry_free (entries_at d node l) j ∧
    entry_named (entries_at d' node l) name' j = entry_named (entries_at d node l) name' j ∧
    entry_inode (entries_at d' node l) j = entry_inode (entries_at d node l) j
}.

Lemma cut_facts : ∃ l0 j0, cut_at l0 j0.
Proof.
  destruct Hcut as (l0 & j0 & Hl0 & Hj0 & Hz & Hnm & Ed). exists l0, j0. pose proof (num_blocks_used d Hinv n Hn) as Hnb.
  pose proof (fi_file _ Hinv n Hn) as Hf. pose proof (fi_dir _ Hinv n Hn Hd) as Hdir. set (b := file_block d node l0) in *.
  set (bs := cut_entry j0 (entries_at d node l0)) in *. assert (length (entries_at d node l0) = BLOCK_LEN) as Hlen by apply length_block.
  destruct (with_block_extends n d node l0 bs (fi_maps _ Hinv) Hf ltac:(lia) Hz) as [Hx Hat]. fold b in Hx, Hat. rewrite <- Ed in Hx, Hat.
  assert (valid_block b) as Hv by (apply file_block_valid; [done|lia|done]).
  assert (∀ l, 0 ≤ l < num_blocks node → file_block d' node l = file_block d node l) as Hfb
    by (intros l Hl; by apply same_file_block; [|lia]).
  assert (entries_at d' node l0 = bs) as Hb0.
  { unfold entries_at. rewrite Hfb, Ed by done. apply with_block_same. by apply length_cut. }
  split; [exact Hx| | |done|exact Hfb| |].
  - rewrite Ed. apply with_block_inode; [done|apply Hn].
  - intros c Hc. rewrite Ed. by apply with_block_map.
  - rewrite Hb0. by apply cut_entry_same.
  - intros l j name' Hl Hj Hname' Hne. destruct (decide (l = l0)) as [->|Hll].
    + rewrite Hb0. apply cut_entry_other; try done; [apply Hname'|]. intros ->. by apply Hne.
    + assert (entries_at d' node l = entries_at d node l) as ->; [|done].
      unfold entries_at. rewrite Hfb, Ed by done. apply put_other_block; try done; [apply Hinv|lia|lia|]. by apply (do_block _ _ Hdir).
Qed.

Context (l0 : Z) (j0 : nat) (Hc : cut_at l0 j0).
#[local] Notation Hdir := (fi_dir _ Hinv n Hn Hd).

Lemma cut_named_other l j name' : 0 ≤ l < num_blocks node → (j < DENTRIES)%nat → name_ok name' → name' ≠ name →
  entry_named (entries_at d' node l) name' j = entry_named (entries_at d node l) name' j.
Proof.
  intros Hl Hj Hn' Hne. destruct (decide (l = l0 ∧ j = j0)) as [[-> ->]|Hlj]; [|by apply (ct_other _ _ Hc)].
  unfold entry_named at 1. rewrite (ct_free _ _ Hc). simpl. symmetry. apply not_true_is_false. intros E.
  apply Hne. eapply named_inj; [done|done|exact E|apply (ct_named _ _ Hc)].
Qed.

Lemma cut_named_same l j : 0 ≤ l < num_blocks node → (j < DENTRIES)%nat → entry_named (entries_at d' node l) name j = false.
Proof.
  intros Hl Hj. destruct (decide (l = l0 ∧ j = j0)) as [[-> ->]|Hlj].
  - unfold entry_named. by rewrite (ct_free _ _ Hc).
  - destruct (ct_other _ _ Hc l j name Hl Hj Hname Hlj) as (_ & -> & _). apply not_true_is_false. intros E.
    destruct (ct_named _ _ Hc) as (Hl0 & Hj0 & E0). apply Hlj. by apply (do_unique _ _ Hdir l l0 j j0 name).
Qed.

Lemma cut_valid l : 0 ≤ l < num_blocks node → valid_block (file_block d node l).
Proof.
  intros Hl. pose proof (num_blocks_used d Hinv n Hn). apply file_block_valid; [by apply (fi_file _ Hinv)|lia|by apply (do_block _ _ Hdir)].
Qed.

Lemma cut_lookup name' : name_ok name' →
  dir_lookup d' n name' = if decide (name' = name) then NEG1 else dir_lookup d n name'.
Proof.
  intros Hn'. assert (is_dir d' n) as Hd' by (unfold is_dir; by rewrite (ct_inode _ _ Hc)).
  rewrite !dir_lookup_dir, (ct_inode _ _ Hc) by done. case_decide as E.
  - subst name'. assert (first_block d' node name 0 (Z.to_nat (num_blocks node)) = None) as ->; [|done].
    apply first_block_None. intros l Hl. rewrite (ct_block _ _ Hc) by lia.
    rewrite block_lookup_valid by (apply cut_valid; lia). rewrite <- (ct_block _ _ Hc) by lia.
    apply fmap_None, first_index_None. intros j Hj. apply cut_named_same; [lia|done].
  - f_equal. apply first_block_ext. intros l Hl. rewrite (ct_block _ _ Hc) by lia.
    rewrite !block_lookup_valid by (apply cut_valid; lia). rewrite <- (ct_block _ _ Hc) at 1 2 by lia.
    change (block_bytes d' (file_block d' node l)) with (entries_at d' node l). change (block_bytes d (file_block d node l)) with (entries_at d node l).
    apply first_entry_ext.
    + intros j Hj. apply cut_named_other; done || lia.
    + intros j Hj Hnm. apply (ct_other _ _ Hc l j name'); [lia|done|done|]. intros [-> ->]. apply E.
      eapply named_inj; [done|done|exact Hnm|apply (ct_named _ _ Hc)].
Qed.

Lemma cut_inv : fs_inv d' ∧
  (∀ x name', used_inode d x → name_ok name' → x ≠ n ∨ name' ≠ name → dir_lookup d' x name' = dir_lookup d x name') ∧
  (∀ x, used_inode d x → x ≠ n → same_file d d' x).
Proof.
  pose proof (ct_ext _ _ Hc) as Hx. rewrite <- (ct_inode _ _ Hc) in Hx at 2. pose proof (ex_kept _ _ _ _ _ Hx) as Hk.
  split; [|split].
  - apply (extends_inv n d); try done. intros _. rewrite (ct_inode _ _ Hc). split.
    + intros l Hl. rewrite (ct_block _ _ Hc) by done. by apply (do_block _ _ Hdir).
    + intros l j Hl Hj Hnf. apply (used_imap d); [by apply kp_heads with (1 := Hk)|].
      destruct (decide (l = l0 ∧ j = j0)) as [[-> ->]|Hlj]; [by rewrite (ct_free _ _ Hc) in Hnf|].
      destruct (ct_other _ _ Hc l j name Hl Hj Hname Hlj) as (E1 & _ & ->). rewrite E1 in Hnf. by apply (do_used _ _ Hdir).
    + intros l l' j j' name' Hl Hl' Hj Hj' Hn' H1 H2. destruct (decide (name' = name)) as [->|Hne].
      * by rewrite cut_named_same in H1.
      * rewrite cut_named_other in H1, H2 by done. by apply (do_unique _ _ Hdir l l' j j' name').
  - intros x name' Hxu Hn' Hne. destruct (decide (x = n)) as [->|Hxn]; [|by apply (other_lookup n d)].
    rewrite cut_lookup by done. rewrite decide_False; [done|]. by destruct Hne.
  - intros x Hxu Hxn. split; [by apply (other_inode n d)|]. intros l Hl. by apply (other_file_block n d).
Qed.

(** No entry leads to the inode. *)
Lemma cut_unlinked m : sole_link d n name m → unlinked d' m.
Proof.
  intros Hsole x l j Hx Hdx Hl Hj Hnf Hm. destruct cut_inv as (_ & _ & Hfiles).
  assert (used_inode d x) as Hxd.
  { apply (used_imap d d'); [|done]. apply (kp_heads _ _ _ _ _ (ex_kept _ _ _ _ _ (ct_ext _ _ Hc))). }
  destruct (decide (x = n)) as [->|Hne].
  - rewrite (ct_inode _ _ Hc) in *. destruct (decide (l = l0 ∧ j = j0)) as [[-> ->]|Hlj]; [by rewrite (ct_free _ _ Hc) in Hnf|].
    destruct (ct_other _ _ Hc l j name Hl Hj Hname Hlj) as (E1 & E2 & E3). rewrite E1 in Hnf. rewrite E3 in Hm.
    destruct (Hsole n l j Hn Hd Hl Hj Hnf Hm) as [_ Hnm]. rewrite <- E2 in Hnm. by rewrite cut_named_same in Hnm.
  - pose proof (Hfiles x Hxd Hne) as Hs. pose proof (proj1 Hs) as Ei.
    assert (is_dir d x) as Hd0 by (unfold is_dir in *; congruence). rewrite Ei in Hl.
    rewrite (same_entries d d' x) in Hnf, Hm by done. by destruct (Hsole x l j).
Qed.
End Cut.

(** ** A file less *)

(** The card [d'] is [d] without the inode [m] and the direct blocks of its file. *)
Record deleted d d' m : Prop := {
  dl_maps : maps d';
  dl_imaps : imaps d';
  dl_bits c : 0 ≤ c < FS_BLOCK_NUM →
    bit d' c = if decide (c ≠ 0 ∧ c ∈ direct_ptr (inode_at d m)) then false else bit d c;
  dl_used x : used_inode d' x ↔ used_inode d x ∧ x ≠ m;
  dl_inodes x : 0 ≤ x < NUM_INODES → inode_at d' x = inode_at d x;
  dl_bytes c : valid_block c → block_bytes d' c = block_bytes d c
}.

Lemma direct_place node c : length (direct_ptr node) = DIRECT_BLOCK_NUM → c ∈ direct_ptr node →
  ∃ p, place_ok p ∧ ∀ d, block_at d node p = c.
Proof.
  intros Hl [k Hk]%list_elem_of_lookup. exists (Direct k). split.
  - simpl. rewrite <- Hl. by eapply lookup_lt_Some.
  - intros d. simpl. by apply nth_lookup_Some.
Qed.

Section Deleted.
Context (d d' : D) (m : Z).
Hypothesis (Hinv : fs_inv d) (Hm : used_inode d m) (Hdel : deleted d d' m).

Lemma deleted_block x p : used_inode d x → place_ok p → block_at d' (inode_at d' x) p = block_at d (inode_at d x) p.
Proof.
  intros Hx Hp. rewrite (dl_inodes _ _ _ Hdel) by apply Hx. apply block_at_eq; [by intros []| |done].
  intros q Hi Hq Hz k Hk. unfold index_word. rewrite (dl_bytes _ _ _ Hdel); [done|]. by apply (fo_valid _ _ (fi_file _ Hinv x Hx)).
Qed.

Lemma deleted_same x : used_inode d x → same_file d d' x.
Proof.
  intros Hx. split; [apply (dl_inodes _ _ _ Hdel), Hx|]. intros l Hl. destruct (data_place_ok l Hl) as [Hp _].
  rewrite !file_block_place by done. split; [by apply deleted_block|]. intros Hz.
  apply (dl_bytes _ _ _ Hdel). by apply (fo_valid _ _ (fi_file _ Hinv x Hx)).
Qed.

Lemma deleted_bit x p : used_inode d x → x ≠ m → place_ok p → block_at d (inode_at d x) p ≠ 0 →
  bit d' (block_at d (inode_at d x) p) = true.
Proof.
  intros Hx Hne Hp Hz. destruct (fo_valid _ _ (fi_file _ Hinv x Hx) p Hp Hz) as [Hv Hb].
  rewrite (dl_bits _ _ _ Hdel) by (unfold valid_block in Hv; lia). rewrite decide_False; [done|]. intros [_ Hin].
  apply direct_place in Hin as (q & Hq & E); [|apply (fi_file _ Hinv m Hm)].
  symmetry in E. by apply (fi_apart _ Hinv x m p q) in E.
Qed.

Lemma deleted_inv : unlinked d m → fs_inv d'.
Proof.
  intros Hun. split.
  - apply Hdel.
  - apply Hdel.
  - rewrite (dl_bits _ _ _ Hdel) by done. rewrite decide_False; [apply Hinv|]. by intros [].
  - intros x [Hx Hne]%(dl_used _ _ _ Hdel). destruct (fi_file _ Hinv x Hx) as [Hi Hv Hj].
    split; [by rewrite (dl_inodes _ _ _ Hdel) by apply Hx| |].
    + intros p Hp. rewrite deleted_block by done. intros Hz. split; [by apply Hv|by apply deleted_bit].
    + intros p q Hp Hq. rewrite !deleted_block by done. by apply Hj.
  - intros x x' p q [Hx _]%(dl_used _ _ _ Hdel) [Hx' _]%(dl_used _ _ _ Hdel) Hne Hp Hq.
    rewrite !deleted_block by done. by apply (fi_apart _ Hinv).
  - intros x [Hx Hne]%(dl_used _ _ _ Hdel) Hd. pose proof (deleted_same x Hx) as Hs.
    assert (is_dir d x) as Hdx by (unfold is_dir in *; by rewrite <- (proj1 Hs)).
    pose proof (fi_dir _ Hinv x Hx Hdx) as [Hb Hu Hn].
    split; rewrite (proj1 Hs); intros l.
    + intros Hl. pose proof (num_blocks_used d Hinv x Hx). rewrite <- (proj1 Hs). rewrite (proj1 (proj2 Hs l ltac:(lia))). by apply Hb.
    + intros j Hl Hj. rewrite <- (proj1 Hs), (same_entries d d' x) by done. intros Hnf. apply (dl_used _ _ _ Hdel).
      split; [by apply Hu|by apply (Hun x l j)].
    + intros l' j j' name Hl Hl'. rewrite <- (proj1 Hs), !(same_entries d d' x) by done. by apply Hn.
Qed.

Lemma deleted_lookup x name : used_inode d x → dir_lookup d' x name = dir_lookup d x name.
Proof.
  intros Hx. pose proof (deleted_same x Hx) as Hs. unfold dir_lookup. rewrite (proj1 Hs). destruct (negb _); [done|]. f_equal.
  apply first_block_ext. intros l Hl. pose proof (num_blocks_used d Hinv x Hx).
  destruct (proj2 Hs l ltac:(lia)) as [E Hb]. rewrite (proj1 Hs) in E. rewrite E.
  unfold block_lookup. destruct (Z.eqb_spec (file_block d (inode_at d x) l) 0) as [Ez|Hz]; [by rewrite orb_true_r|].
  by rewrite Hb.
Qed.
End Deleted.

(** ** Freeing *)

Lemma length_sb_buf d t : length t = TEMP_BUF_LEN → length (splice 0 (sd_read d FS_START_SECTOR 1) t) = TEMP_BUF_LEN.
Proof.
  intros Ht. pose proof (sd_read_length d FS_START_SECTOR 1) as Hr.
  assert (SECTOR_LEN ≤ TEMP_BUF_LEN)%nat as Hroom by (apply Nat.leb_le; by vm_compute).
  rewrite length_splice; [done|]. rewrite Hr. lia.
Qed.

Lemma free_block_ok b s : ready s → valid_block b →
  wp (free_block b) s (λ _ s', ∃ d' t, length t = TEMP_BUF_LEN ∧ s' = upd_disk d' (upd_tbuf t s) ∧ marked (fs_disk s) d' b false).
Proof.
  intros Hr Hv. unfold free_block. eapply wp_mono; [apply (free_bit_ok MAP_LEN block_map_offset s b)|].
  - rewrite sb_in_buf. apply Hr.
  - rewrite (rd_base _ Hr). apply Hr.
  - unfold valid_block in Hv. change (4096 * Z.of_nat MAP_LEN) with FS_BLOCK_NUM. lia.
  - intros _ s' (d' & -> & Hc). rewrite (rd_base _ Hr) in Hc. eexists d', _.
    split; [apply length_sb_buf, Hr|]. split; [done|]. by apply bit_changed_marked.
Qed.

Lemma free_inode_ok m s : ready s → imaps (fs_disk s) → 0 ≤ m < NUM_INODES →
  wp (free_inode m) s (λ _ s', ∃ d' t, length t = TEMP_BUF_LEN ∧ s' = upd_disk d' (upd_tbuf t s) ∧ imarked (fs_disk s) d' m false).
Proof.
  intros Hr Him Hm. unfold free_inode. eapply wp_mono; [apply (free_bit_ok 1 inode_map_offset s m)|].
  - rewrite sb_in_buf. apply Hr.
  - by rewrite (rd_ibase _ Hr).
  - done.
  - intros _ s' (d' & -> & Hc). rewrite (rd_ibase _ Hr) in Hc. eexists d', _.
    split; [apply length_sb_buf, Hr|]. split; [done|]. apply bit_changed_imarked; [apply Hr|done].
Qed.

(** The card [d'] is [d] with the blocks [cs], as far as they are blocks, freed. *)
Record freed d (cs : list Z) d' : Prop := {
  fd_maps : maps d';
  fd_heads : heads d' = heads d;
  fd_bits c : 0 ≤ c < FS_BLOCK_NUM → bit d' c = if decide (c ≠ 0 ∧ c ∈ cs) then false else bit d c;
  fd_inodes x : 0 ≤ x < NUM_INODES → inode_at d' x = inode_at d x;
  fd_bytes c : valid_block c → block_bytes d' c = block_bytes d c
}.

Lemma freed_nil d : maps d → freed d [] d.
Proof. intros Hm. split; try done. intros c _. rewrite decide_False; [done|]. intros [_ H]. by apply elem_of_nil in H. Qed.

Lemma freed_zero d cs d' : freed d cs d' → freed d (cs ++ [0]) d'.
Proof.
  intros [Hm Hh Hb Hi Hby]. split; try done. intros c Hc. rewrite Hb by done.
  destruct (decide (c ≠ 0 ∧ c ∈ cs)) as [[H0 H]|H].
  - rewrite decide_True; [done|]. split; [done|]. apply elem_of_app. by left.
  - rewrite decide_False; [done|]. intros [H0 [Hin|Hin]%elem_of_app]; [by apply H|]. by apply list_elem_of_singleton in Hin.
Qed.

Lemma freed_snoc d cs d1 b d' : freed d cs d1 → valid_block b → marked d1 d' b false → freed d (cs ++ [b]) d'.
Proof.
  intros [Hm Hh Hb Hi Hby] Hv [Hm' Hh' Hb' Hi' Hby']. destruct (valid_word b Hv) as (_ & _ & Hb0). split; [done|congruence| | |].
  - intros c Hc. rewrite Hb' by done. destruct (decide (c = b)) as [->|Hne].
    + rewrite decide_True; [done|]. split; [done|]. apply elem_of_app. right. by apply list_elem_of_singleton.
    + rewrite Hb by done. apply decide_ext. rewrite elem_of_app, list_elem_of_singleton. naive_solver.
  - intros x Hx. rewrite Hi' by done. by apply Hi.
  - intros c Hc. rewrite Hby' by done. by apply Hby.
Qed.

Lemma free_direct_ok node s : ready s → Forall (λ b, b ≠ 0 → valid_block b) (direct_ptr node) →
  indirect_ptr node = 0 → double_indirect_ptr node = 0 →
  wp (free_blocks node) s (λ _ s', ∃ d' t, length t = TEMP_BUF_LEN ∧ s' = upd_disk d' (upd_tbuf t s) ∧
    freed (fs_disk s) (direct_ptr node) d' ∧ ready s').
Proof.
  intros Hr Hv Hi Hd. unfold free_blocks. rewrite wp_bind. set (l := direct_ptr node) in *.
  eapply wp_mono.
  - unfold for_each. apply (wp_for (λ i s', ∃ d' t, length t = TEMP_BUF_LEN ∧ s' = upd_disk d' (upd_tbuf t s) ∧
      freed (fs_disk s) (take i l) d' ∧ ready s')).
    + exists (fs_disk s), (tbuf s). split; [apply Hr|]. split; [by destruct s|]. split; [|done]. apply freed_nil, Hr.
    + intros i s1 Hil (d1 & t & Ht & -> & Hf & Hr1). destruct (lookup_lt_is_Some_2 l i) as [b Hb]; [lia|].
      rewrite wp_bind, (wp_of_opt_Some _ _ _ _ Hb). rewrite (take_S_r _ _ _ Hb).
      destruct (Z.eqb_spec b 0) as [->|Hb0]; cbn [negb].
      * rewrite wp_ret. exists d1, t. split; [done|]. split; [done|]. split; [by apply freed_zero|done].
      * assert (valid_block b) as Hvb by by apply (Forall_lookup_1 _ _ _ _ Hv Hb).
        eapply wp_mono; [by apply free_block_ok|]. intros _ s2 (d2 & t2 & Ht2 & -> & Hmk). cbn [fs_disk upd_disk] in Hmk.
        exists d2, t2. split; [done|]. split; [done|]. split; [by eapply freed_snoc|].
        apply (ready_disk d2 (upd_tbuf t2 (upd_disk d1 (upd_tbuf t s)))); [by apply ready_buf|apply Hmk| |by apply heads_sb, Hmk].
        rewrite (mk_bits _ _ _ _ Hmk) by done. rewrite decide_False by congruence. apply Hr1.
  - intros _ s1 (d1 & t & Ht & -> & Hf & Hr1). rewrite Hi, Hd. cbn [Z.eqb negb]. rewrite wp_bind, wp_ret, wp_ret.
    exists d1, t. rewrite Nat.add_0_l, firstn_all in Hf. done.
Qed.

(** ** A link less *)

Section Relink.
Context (d : D) (m z : Z).
Hypothesis (Hinv : fs_inv d) (Hm : used_inode d m) (Hfile : ¬ is_dir d m) (Hz : 0 ≤ z < 2 ^ 32).
#[local] Notation node := (inode_at d m).
Let d' := with_inode d m (set_nlinks z node).

Lemma relinked_node : inode_at d' m = set_nlinks z node.
Proof. apply with_inode_same; [apply Hm|]. apply inode_ok_nlinks; [|done]. apply (fo_inode d). by apply (fi_file _ Hinv). Qed.

Lemma relinked_extends : extends m d node d' (inode_at d' m).
Proof.
  rewrite relinked_node. pose proof (fi_file _ Hinv m Hm) as Hf. pose proof (proj1 Hm) as Hr.
  assert (extends m d node d (set_nlinks z node)) as H1 by (apply extends_nlinks; [done|]; apply extends_refl; [apply Hinv|done]).
  eapply extends_trans; [exact H1|]. apply write_inode_extends; [done|apply Hinv|apply H1].
Qed.

Lemma relinked_inv : fs_inv d' ∧ (∀ x, used_inode d' x ↔ used_inode d x) ∧
  (∀ x name, used_inode d x → dir_lookup d' x name = dir_lookup d x name) ∧
  (∀ x, used_inode d x → x ≠ m → same_file d d' x) ∧
  ∀ c, 0 ≤ c < FS_BLOCK_NUM → bit d' c = bit d c.
Proof.
  pose proof relinked_extends as Hx. pose proof (ex_kept _ _ _ _ _ Hx) as Hk. split; [|split; [|split; [|split]]].
  - by apply (extends_inv m d).
  - intros x. apply used_imap, Hk.
  - intros x name Hxu. destruct (decide (x = m)) as [->|Hne]; [|by apply (other_lookup m d)].
    unfold dir_lookup. rewrite relinked_node. cbn [i_type set_nlinks].
    unfold is_dir in Hfile. rewrite (proj2 (Z.eqb_neq _ _)) by done. done.
  - intros x Hxu Hne. split; [by apply (other_inode m d)|]. intros l Hl. by apply (other_file_block m d).
  - apply with_inode_map, Hm.
Qed.
End Relink.

(** ** [do_rm] *)

(** What [do_rm] needs: the path leads to a file in a consistent file system. *)
Record can_remove s (path : list Z) (n : Z) (name : list Z) : Prop := {
  rm_inv : fs_inv (fs_disk s);
  rm_ready : ready s;
  rm_path : path_ok (cur_dir s) path;
  rm_parent : parent_of (fs_disk s) (cur_dir s) path = (n, name);
  rm_used : used_inode (fs_disk s) n;
  rm_dir : is_dir (fs_disk s) n;
  rm_name : name_ok name;
  rm_found : dir_lookup (fs_disk s) n name ≠ NEG1;
  rm_file : ¬ is_dir (fs_disk s) (dir_lookup (fs_disk s) n name)
}.

(** What is the same for the last link and for one of several. *)
Record removed d n name m d' : Prop := {
  re_inv : fs_inv d';
  re_gone : dir_lookup d' n name = NEG1;
  re_names x name' : used_inode d x → name_ok name' → x ≠ n ∨ name' ≠ name → dir_lookup d' x name' = dir_lookup d x name';
  re_files x : used_inode d x → x ≠ n → x ≠ m → same_file d d' x
}.

(** The end of [do_rm] for a file with other links. *)
Lemma unlink_ok n name m d d1 s : fs_disk s = d1 → removed d n name m d1 → (∀ x, used_inode d1 x ↔ used_inode d x) →
  (∀ c, 0 ≤ c < FS_BLOCK_NUM → bit d1 c = bit d c) →
  same_file d d1 m → used_inode d n → used_inode d m → ¬ is_dir d m → ready s →
  let node := set_nlinks (u32 (nlinks (inode_at d m) - 1)) (inode_at d m) in
  wp (write_inode m node) s (λ _ s', ready s' ∧ removed d n name m (fs_disk s') ∧
    (∀ x, used_inode (fs_disk s') x ↔ used_inode d x) ∧ (∀ c, 0 ≤ c < FS_BLOCK_NUM → bit (fs_disk s') c = bit d c) ∧
    inode_at (fs_disk s') m = node).
Proof.
  intros Hd1 [Hinv1 Hgone Hnames Hfiles] Hu Hb [Em Hm] Hnu Hmu Hfile Hr node.
  rewrite (wp_ok _ _ _ _ _ (write_inode_ok _ _ _)), Hd1. cbn [fs_disk upd_disk].
  assert (used_inode d1 m) as Hmu1 by by apply Hu. assert (¬ is_dir d1 m) as Hfile1 by (unfold is_dir in *; by rewrite Em).
  unfold node. rewrite <- Em. set (z := u32 _). assert (0 ≤ z < 2 ^ 32) as Hz by apply u32_range.
  destruct (relinked_inv d1 m z Hinv1 Hmu1 Hfile1 Hz) as (Hinv2 & Hu2 & Hl2 & Hf2 & Hb2).
  pose proof (relinked_node d1 m z Hinv1 Hmu1 Hz) as En. pose proof (with_inode_heads d1 m (set_nlinks z (inode_at d1 m)) (proj1 Hmu1)) as Hh.
  set (d2 := with_inode d1 m _) in *. split; [|split; [split|split; [|split]]]; try done.
  - subst d1. apply ready_disk; [done|apply Hinv2..|by apply heads_sb].
  - rewrite Hl2; [done|]. by apply Hu.
  - intros x name' Hx Hn' Hne. rewrite Hl2 by by apply Hu. by apply Hnames.
  - intros x Hx Hxn Hxm. eapply same_file_trans; [by apply Hfiles|]. by apply Hf2; [apply Hu|].
  - intros x. by rewrite Hu2, Hu.
  - intros c Hc. by rewrite Hb2, Hb.
Qed.

(** The end of [do_rm] for the last link of a file with direct blocks only. *)
Lemma delete_ok n name m d d1 s : fs_disk s = d1 → removed d n name m d1 → (∀ x, used_inode d1 x ↔ used_inode d x) →
  (∀ c, 0 ≤ c < FS_BLOCK_NUM → bit d1 c = bit d c) → unlinked d1 m →
  same_file d d1 m → used_inode d n → used_inode d m → ready s →
  indirect_ptr (inode_at d m) = 0 → double_indirect_ptr (inode_at d m) = 0 → ∀ z,
  wp (free_blocks (set_nlinks z (inode_at d m));; free_inode m) s (λ _ s', ready s' ∧ removed d n name m (fs_disk s') ∧
    (∀ x, used_inode (fs_disk s') x ↔ used_inode d x ∧ x ≠ m) ∧
    ∀ c, 0 ≤ c < FS_BLOCK_NUM →
      bit (fs_disk s') c = if decide (c ≠ 0 ∧ c ∈ direct_ptr (inode_at d m)) then false else bit d c).
Proof.
  intros Hd1 [Hinv1 Hgone Hnames Hfiles] Hu Hb Hun [Em Hm] Hnu Hmu Hr Hi Hdo z. rewrite wp_bind.
  assert (used_inode d1 m) as Hmu1 by by apply Hu. pose proof (fi_file _ Hinv1 m Hmu1) as Hf. rewrite Em in Hf.
  assert (Forall (λ b, b ≠ 0 → valid_block b) (direct_ptr (inode_at d m))) as Hv.
  { apply Forall_forall. intros b Hin Hb0. apply direct_place in Hin as (p & Hp & E); [|apply Hf].
    rewrite <- (E d1) in *. by apply (fo_valid _ _ Hf). }
  eapply wp_mono; [by apply (free_direct_ok (set_nlinks z (inode_at d m)) s)|].
  cbn [direct_ptr set_nlinks]. intros _ s2 (d2 & t & Ht & -> & [Hm2 Hh2 Hb2 Hi2 Hby2] & Hr2). rewrite Hd1 in *.
  eapply wp_mono; [apply (free_inode_ok m); [done| |apply Hmu]|].
  { cbn [fs_disk upd_disk]. eapply imaps_imap; [exact Hh2|apply Hinv1]. }
  cbn [fs_disk upd_disk]. intros _ s3 (d3 & t3 & Ht3 & -> & [Hm3 Him3 Hsb3 Hb3 Hib3 Hi3 Hby3]). cbn [fs_disk upd_disk upd_tbuf].
  assert (deleted d1 d3 m) as Hdel.
  { split; [done|done| | | |].
    - intros c Hc. rewrite Hb3, Hb2 by done. by rewrite Em.
    - intros x. rewrite <- (used_imap d1 d2 x Hh2). unfold used_inode. split.
      + intros [Hx Hbx]. rewrite Hib3 in Hbx by done. case_decide; done.
      + intros [[Hx Hbx] Hne]. split; [done|]. rewrite Hib3 by done. by rewrite decide_False.
    - intros x Hx. rewrite Hi3 by done. by apply Hi2.
    - intros c Hc. rewrite Hby3 by done. by apply Hby2. }
  pose proof (deleted_inv d1 d3 m Hinv1 Hmu1 Hdel Hun) as Hinv3.
  assert (∀ x, used_inode d x → ∀ name', dir_lookup d3 x name' = dir_lookup d1 x name') as Hlk.
  { intros x Hx name'. apply (deleted_lookup d1 d3 m); [done|done|]. by apply Hu. }
  split; [|split; [split|split]].
  - apply (ready_disk d3 (upd_tbuf t3 (upd_disk d2 (upd_tbuf t s)))); [by apply ready_buf|apply Hinv3..|done].
  - done.
  - by rewrite Hlk.
  - intros x name' Hx Hn' Hne. rewrite Hlk by done. by apply Hnames.
  - intros x Hx Hxn Hxm. eapply same_file_trans; [by apply Hfiles|]. apply (deleted_same d1 d3 m); [done|done|]. by apply Hu.
  - intros x. by rewrite (dl_used _ _ _ Hdel), Hu.
  - intros c Hc. rewrite (dl_bits _ _ _ Hdel), Em by done. by rewrite Hb.
Qed.

Lemma do_rm_ok s path n name :
  can_remove s path n name →
  let d := fs_disk s in let m := dir_lookup d n name in let node := inode_at d m in
  (nlinks node = 1 → indirect_ptr node = 0 ∧ double_indirect_ptr node = 0 ∧ sole_link d n name m) →
  wp (do_rm path) s (λ r s', r = 0 ∧ ready s' ∧ removed d n name m (fs_disk s') ∧
    if decide (nlinks node = 1) then
      (∀ x, used_inode (fs_disk s') x ↔ used_inode d x ∧ x ≠ m) ∧
      ∀ c, 0 ≤ c < FS_BLOCK_NUM → bit (fs_disk s') c = if decide (c ≠ 0 ∧ c ∈ direct_ptr node) then false else bit d c
    else
      (∀ x, used_inode (fs_disk s') x ↔ used_inode d x) ∧ (∀ c, 0 ≤ c < FS_BLOCK_NUM → bit (fs_disk s') c = bit d c) ∧
      inode_at (fs_disk s') m = set_nlinks (u32 (nlinks node - 1)) node).
Proof.
  intros [Hinv Hr Hpath Hpar Hn Hd Hname Hfound Hfile] d m node Hlast. fold d m in Hinv, Hfound, Hfile, Hn, Hd.
  assert (used_inode d m) as Hm by by apply dir_lookup_used. assert (m ≠ n) as Hmn by by intros E; rewrite E in Hfile.
  unfold do_rm. rewrite wp_bind.
  eapply wp_mono; [apply find_parent_ok; [apply Hr|done]|]. intros r s1 [-> (t1 & Ht1 & ->)]. rewrite Hpar.
  rewrite (proj2 (Z.eqb_neq n NEG1)) by (by eapply used_not_neg). rewrite wp_bind.
  assert (length (tbuf s) = TEMP_BUF_LEN) as Hl by apply Hr.
  eapply wp_mono; [apply find_inode_by_name_ok; [cbn [tbuf upd_tbuf]; congruence|apply Hname]|]. cbn [fs_disk upd_tbuf]. fold d.
  intros r s1 [-> (t2 & Ht2 & ->)]. fold m. rewrite (proj2 (Z.eqb_neq m NEG1)) by done.
  rewrite wp_bind, (wp_ok _ _ _ _ _ (get_inode_ok _ _)). cbn [fs_disk upd_tbuf]. fold d. fold node.
  rewrite (proj2 (Z.eqb_neq _ _)) by done. rewrite wp_bind, (wp_ok _ _ _ _ _ (get_inode_ok _ _)), wp_bind. cbn [fs_disk upd_tbuf]. fold d.
  eapply wp_mono; [apply remove_dentry_ok|].
  { cbn [tbuf upd_tbuf] in *. congruence. }
  { apply (io_direct _ (fo_inode _ _ (fi_file _ Hinv n Hn))). }
  { apply Hname. }
  { cbn [fs_disk upd_tbuf]. fold d. intros E. apply Hfound. unfold m. rewrite dir_lookup_dir by done. by rewrite E. }
  cbn [fs_disk upd_tbuf]. fold d. intros _ s1 (d1 & t & Ht & Hcut & ->).
  destruct (cut_facts n d name d1 Hinv Hn Hd Hcut) as (l0 & j0 & Hc).
  destruct (cut_inv n d name d1 Hinv Hn Hd Hname l0 j0 Hc) as (Hinv1 & Hnames & Hfiles).
  pose proof (ex_kept _ _ _ _ _ (ct_ext _ _ _ _ _ _ Hc)) as Hk. pose proof (kp_heads _ _ _ _ _ Hk) as Hh.
  assert (removed d n name m d1) as Hrem.
  { split; [done| |done|by intros x Hx Hxn _; apply Hfiles].
    rewrite (cut_lookup n d name d1 Hinv Hn Hd Hname l0 j0 Hc) by done. by rewrite decide_True. }
  assert (ready (upd_disk d1 (upd_tbuf t s))) as Hr1.
  { apply ready_disk; [by apply ready_buf|apply Hinv1..|by apply heads_sb]. }
  pose proof (inode_ok_nlinks_range _ (fo_inode _ _ (fi_file _ Hinv m Hm))) as Hnl. fold node in Hnl. cbv zeta. rewrite wp_bind.
  change (upd_disk d1 (upd_tbuf t (upd_tbuf t2 (upd_tbuf t1 s)))) with (upd_disk d1 (upd_tbuf t s)). cbn [nlinks set_nlinks].
  destruct (decide (nlinks node = 1)) as [E1|E1].
  - destruct (Hlast E1) as (Hi & Hdo & Hsole). rewrite E1. change (u32 (1 - 1)) with 0. cbn [Z.eqb].
    eapply wp_mono; [apply (delete_ok n name m d d1); try done|].
    + intros x. by apply used_imap.
    + apply Hc.
    + by apply (cut_unlinked n d name d1 Hinv Hn Hd Hname l0 j0 Hc).
    + by apply Hfiles.
    + intros _ s2 (Hr2 & Hrem2 & Hu & Hb). rewrite wp_ret. done.
  - rewrite (proj2 (Z.eqb_neq (u32 (nlinks node - 1)) 0)).
    2:{ unfold u32. change (2 ^ 32) with 4294967296 in *. intros E. apply E1. Z.to_euclidean_division_equations; lia. }
    eapply wp_mono; [apply (unlink_ok n name m d d1); try done|].
    + intros x. by apply used_imap.
    + apply Hc.
    + by apply Hfiles.
    + intros _ s2 (Hr2 & Hrem2 & Hu & Hb & En). rewrite wp_ret. done.
Qed.

(** C0: [do_rm] of a file: the name is gone, every other name in every directory
    leads where it led, every other file and directory has its inode, its blocks
    and their bytes, and the file system stays consistent. The last link of a file
    without index blocks takes the inode and exactly its blocks out of use; one of
    several links takes one from the count of links, and the file stays. *)
Theorem do_rm_spec s path n name :
  can_remove s path n name →
  let d := fs_disk s in let m := dir_lookup d n name in let node := inode_at d m in
  (nlinks node = 1 → indirect_ptr node = 0 ∧ double_indirect_ptr node = 0 ∧ sole_link d n name m) →
  wp (do_rm path) s (λ r s', r = 0 ∧ ready s' ∧ removed d n name m (fs_disk s') ∧
    if decide (nlinks node = 1) then
      (∀ x, used_inode (fs_disk s') x ↔ used_inode d x ∧ x ≠ m) ∧
      ∀ c, 0 ≤ c < FS_BLOCK_NUM → bit (fs_disk s') c = if decide (c ≠ 0 ∧ c ∈ direct_ptr node) then false else bit d c
    else
      (∀ x, used_inode (fs_disk s') x ↔ used_inode d x) ∧ (∀ c, 0 ≤ c < FS_BLOCK_NUM → bit (fs_disk s') c = bit d c) ∧
      inode_at (fs_disk s') m = set_nlinks (u32 (nlinks node - 1)) node).
Proof. apply do_rm_ok. Qed.

(** ** A file that was created is removed *)

(** The directory part of the path leads through directories in use. *)
Definition parent_found d (cwd : Z) (path : list Z) : Prop :=
  match split_last path with None => True | Some (dir, _) => path_found d cwd dir end.

Lemma parent_made d cwd path n name m node d' : fs_inv d → parent_of d cwd path = (n, name) → parent_found d cwd path →
  used_inode d n → made d n name m node d' → dir_lookup d n name = NEG1 → parent_of d' cwd path = (n, name).
Proof.
  unfold parent_of, parent_found, path_found. intros Hinv Hpar Hf Hn Hmd Hnone.
  destruct (split_last path) as [[dir name']|]; [|done]. destruct (path_start cwd dir) as [x p], Hf as [Hx Hnames].
  injection Hpar as Hw <-. rewrite (walk_made d n name' m node); try done. { by rewrite Hw. }
  rewrite Hw. by eapply used_not_neg.
Qed.

Lemma made_can_remove s s1 path n name m : can_create s path n name → parent_found (fs_disk s) (cur_dir s) path →
  dir_lookup (fs_disk s) n name = NEG1 → made (fs_disk s) n name m new_file (fs_disk s1) → ready s1 → cur_dir s1 = cur_dir s →
  can_remove s1 path n name ∧ sole_link (fs_disk s1) n name m.
Proof.
  intros Hcc Hpf Hnone Hmd Hr Hcwd. destruct (md_new _ _ _ _ _ _ Hmd) as (Hm & _ & Em). pose proof (md_name _ _ _ _ _ _ Hmd) as Hlk.
  pose proof (used_not_neg _ _ Hm) as Hmn. split; [split; try done|].
  - apply Hmd.
  - rewrite Hcwd. apply Hcc.
  - rewrite Hcwd. eapply parent_made; try done; apply Hcc.
  - apply (md_used _ _ _ _ _ _ Hmd). right. apply Hcc.
  - unfold dir_lookup in Hlk. unfold is_dir. by destruct (Z.eqb_spec (i_type (inode_at (fs_disk s1) n)) FD_DIR).
  - apply Hcc.
  - by rewrite Hlk.
  - rewrite Hlk. unfold is_dir. by rewrite Em.
  - intros x l j Hx Hd. apply (md_sole _ _ _ _ _ _ Hmd); [done| |done]. intros ->. unfold is_dir in Hd. by rewrite Em in Hd.
Qed.

(** Creating a file and removing it leaves every name, inode and file as it was. *)
Lemma touch_then_rm s path n name : can_create s path n name → parent_found (fs_disk s) (cur_dir s) path →
  dir_lookup (fs_disk s) n name = NEG1 →
  wp (do_touch path;; do_rm path) s (λ r s', r = 0 ∧ ready s' ∧ fs_inv (fs_disk s') ∧
    (∀ x, used_inode (fs_disk s') x ↔ used_inode (fs_disk s) x) ∧
    (∀ x name', used_inode (fs_disk s) x → name_ok name' → dir_lookup (fs_disk s') x name' = dir_lookup (fs_disk s) x name') ∧
    ∀ x, used_inode (fs_disk s) x → x ≠ n → same_file (fs_disk s) (fs_disk s') x).
Proof.
  intros Hcc Hpf Hnone. rewrite wp_bind. eapply wp_mono; [by apply (do_touch_ok s path n name)|].
  intros m s1 [(? & _)|(_ & Hmd & Hr1 & _ & d' & t & Es)]; [done|].
  destruct (made_can_remove s s1 path n name m) as [Hcr Hsole]; try done; [by rewrite Es|].
  destruct (md_new _ _ _ _ _ _ Hmd) as (Hm & Hnm & Em). pose proof (md_name _ _ _ _ _ _ Hmd) as Hlk.
  eapply wp_mono; [apply (do_rm_ok s1 path n name Hcr)|]; cbv zeta; rewrite Hlk, Em; [done|].
  intros r s2 (-> & Hr2 & [Hinv2 Hgone Hnames Hfiles] & Hrest). rewrite decide_True in Hrest by done. destruct Hrest as [Hu _].
  assert (∀ x, used_inode (fs_disk s) x → used_inode (fs_disk s1) x ∧ x ≠ m) as Hold.
  { intros x Hx. split; [apply (md_used _ _ _ _ _ _ Hmd); by right|]. by intros ->. }
  split; [done|]. split; [done|]. split; [done|]. split; [|split].
  - intros x. rewrite Hu, (md_used _ _ _ _ _ _ Hmd). naive_solver.
  - intros x name' Hx Hn'. destruct (Hold x Hx) as [Hx1 Hxm]. destruct (decide (x = n ∧ name' = name)) as [[-> ->]|Hne]; [by rewrite Hgone|].
    assert (x ≠ n ∨ name' ≠ name) as Hor by (destruct (decide (x = n)); naive_solver).
    rewrite Hnames by done. by apply (md_names _ _ _ _ _ _ Hmd).
  - intros x Hx Hxn. destruct (Hold x Hx) as [Hx1 Hxm]. eapply same_file_trans; [by apply (md_files _ _ _ _ _ _ Hmd)|]. by apply Hfiles.
Qed.
End FsRemove.

Lemma do_rm_spec_witness : wp (do_mkfs;; do_touch [97];; do_rm [97]) ex_empty (λ r s', r = 0 ∧ fs_inv (fs_disk s') ∧
  ∀ x, used_inode (fs_disk s') x ↔ x = ROOT_INODE_NUM).
Proof.
  rewrite wp_bind. eapply wp_mono; [apply (do_mkfs_ok (D := Z → Z) ex_empty); by vm_compute|].
  intros r s1 (_ & Hor & Hr & _ & _ & Hc). destruct ex_name as (Hn & H1 & H2 & Hs).
  destruct (fresh_can_create s1 [97] Hor Hr Hc Hn H1 H2 Hs) as (Hcc & _ & _ & Hnone & _).
  rewrite wp_bind. eapply wp_mono; [by apply (do_touch_ok (D := Z → Z) s1 [97] ROOT_INODE_NUM [97])|].
  intros m s2 [(? & _)|(_ & Hmd & Hr2 & _ & d' & t & Es)]; [done|].
  destruct (made_can_remove (D := Z → Z) s1 s2 [97] ROOT_INODE_NUM [97] m) as [Hcr Hsole]; try done; [by rewrite Es|].
  destruct (md_new _ _ _ _ _ _ Hmd) as (Hm & Hnm & Em). pose proof (md_name _ _ _ _ _ _ Hmd) as Hlk.
  eapply wp_mono; [apply (do_rm_spec (D := Z → Z) s2 [97] ROOT_INODE_NUM [97] Hcr)|]; cbv zeta; rewrite Hlk, Em; [done|].
  intros r' s3 (-> & _ & [Hinv3 _ _ _] & Hrest). rewrite decide_True in Hrest by done. split; [done|]. split; [done|].
  intros x. rewrite (proj1 Hrest x), (md_used _ _ _ _ _ _ Hmd), (root_used _ Hor). rewrite (root_used _ Hor) in Hnm. naive_solver.
Defined.
