(* ===== verification/Printk.v ===== *)
(** libs/printk.c: the kernel's small vsnprintf.

    A character is a byte (char is unsigned on RISC-V), a buffer a list of
    bytes of the size of the C array; a store outside of it has no result
    ([None] or [Stuck]).  A format is the list of the characters of the
    literal; its end reads as NUL.  An argument of the variable list is a
    number or the address of a string. *)
From S2P Require Import Prelude KMonad CString.

Fixpoint mini_strlen (fuel : nat) (m : bmem) (s len : Z) : option Z :=
  match fuel with
  | O => None
  | S fuel' => if m (s + len) =? 0 then Some len else mini_strlen fuel' m s (u32 (len + 1))
  end.

(** ** mini_itoa *)

Definition digit_char (uppercase : bool) (digit : Z) : Z :=
  u8 (if digit <? 10 then 48 + digit else (if uppercase then 65 else 97) + digit - 10).

(** The [do]-[while] loop: the digits from the last one on, stored from [p] on. *)
Fixpoint itoa_digits (fuel : nat) (value radix : Z) (uppercase unsig : bool) (buffer : list Z) (p : Z) :
    option (list Z * Z) :=
  match fuel with
  | O => None
  | S fuel' =>
      let digit := if unsig then u64 value mod radix else Z.rem value radix in
      buffer ← arr_set buffer p (digit_char uppercase digit);
      let value := if unsig then s64 (u64 value / radix) else Z.quot value radix in
      if value =? 0 then Some (buffer, p + 1)
      else itoa_digits fuel' value radix uppercase unsig buffer (p + 1)
  end.

Fixpoint store_chars (buffer : list Z) (p : Z) (n : nat) (c : Z) : option (list Z) :=
  match n with
  | O => Some buffer
  | S n' => buffer ← arr_set buffer p c; store_chars buffer (p + 1) n' c
  end.

(** [n] rounds, from [i] on, of the loop that turns the first [len] characters round. *)
Fixpoint reverse_loop (n : nat) (i len : Z) (buffer : list Z) : option (list Z) :=
  match n with
  | O => Some buffer
  | S n' =>
      j ← arr_get buffer i;
      k ← arr_get buffer (len - i - 1);
      buffer ← arr_set buffer i k;
      buffer ← arr_set buffer (len - i - 1) j;
      reverse_loop n' (i + 1) len buffer
  end.

(** A [long] has at most 64 digits. *)
Definition ITOA_FUEL : nat := 64.

(** The length of the text and the buffer it lies in. *)
Definition mini_itoa (value radix : Z) (uppercase unsig : bool) (buffer : list Z) (n_pad cpad : Z) :
    option (Z * list Z) :=
  if 16 <? radix then Some (0, buffer) else
  let negative := (value <? 0) && negb unsig in
  let value := if negative then s64 (- value) else value in
  d ← itoa_digits ITOA_FUEL value radix uppercase unsig buffer 0;
  let '(buffer, p) := d in
  let n := Z.to_nat (n_pad - p) in
  buffer ← store_chars buffer p n cpad;
  let p := p + Z.of_nat n in
  buffer ← (if negative then arr_set buffer p 45 else Some buffer);
  let p := if negative then p + 1 else p in
  buffer ← arr_set buffer p 0;
  buffer ← reverse_loop (Z.to_nat (p / 2)) 0 p buffer;
  Some (p, buffer).

(** ** The output buffer *)

(** [pbuffer] is the offset [b.pbuffer - b.buffer]. *)
Record mini_buff := mk_buff { buffer : list Z; pbuffer : Z; buffer_len : Z }.

Definition put (ch : Z) : M mini_buff unit :=
  b ← get;
  l ← of_opt (arr_set (buffer b) (pbuffer b) (u8 ch));
  modify (λ b, mk_buff l (pbuffer b + 1) (buffer_len b)).
Definition put_nul : M mini_buff unit :=
  b ← get;
  l ← of_opt (arr_set (buffer b) (pbuffer b) 0);
  modify (λ b, mk_buff l (pbuffer b) (buffer_len b)).

Definition _putc (ch : Z) : M mini_buff Z :=
  b ← get;
  if buffer_len b <=? u32 (pbuffer b + 1) then mret 0 else
  put ch;;
  put_nul;;
  mret 1.

(** [s] reads a character of the string; [None] is the NULL pointer. *)
Definition _puts (s : option (Z → option Z)) (len : Z) : M mini_buff Z :=
  b ← get;
  let room := buffer_len b - pbuffer b - 1 in
  let len := if room <? len then room else len in
  for_ 0 (Z.to_nat len) (λ i,
    match s with
    | None => put 32
    | Some s => c ← of_opt (s (Z.of_nat i)); put c
    end);;
  put_nul;;
  mret len.

(** ** mini_vsnprintf *)

Inductive va_arg := Num (v : Z) | Str (p : Z).

(** [ch = *(fmt++)] *)
Definition next_char (fmt : list Z) : Z * list Z :=
  match fmt with [] => (0, []) | c :: r => (c, r) end.

Definition is_digit (ch : Z) : bool := (48 <=? ch) && (ch <=? 57).

(** The loop over the digits of the width: the width, the character that
    ended it, and the rest of the format. *)
Fixpoint width_loop (fmt : list Z) (n_pad : Z) : Z * Z * list Z :=
  match fmt with
  | [] => (n_pad, 0, [])
  | ch :: r =>
      if is_digit ch then width_loop r (u32 (u32 (n_pad * 10) + ch - 48))
      else (n_pad, ch, r)
  end.

Record directive := mk_dir { n_pad : Z; c_pad : Z; longflag : bool; conv : Z; rest : list Z }.

(** What follows a percent sign, up to the [switch]. *)
Definition read_directive (fmt : list Z) : directive :=
  let '(ch, r) := next_char fmt in
  let '(np, cp, ch, r) :=
    if is_digit ch then
      let '(np, ch', r') := width_loop fmt 0 in
      (np, if ch =? 48 then 48 else 32, ch', r')
    else (0, 32, ch, r) in
  if ch =? 108 then let '(ch, r) := next_char r in mk_dir np cp true ch r
  else mk_dir np cp false ch r.

(** [va_arg(va, int)] and the like: the value of the next argument in the type asked for. *)
Definition next_num (va : list va_arg) : option (Z * list va_arg) :=
  match va with Num v :: va' => Some (v, va') | _ => None end.
Definition next_str (va : list va_arg) : option (Z * list va_arg) :=
  match va with Str p :: va' => Some (p, va') | _ => None end.

(** The locals of the loop: the format, the arguments and the array [bf]. *)
Record pr_vars := mk_pv { fmt : list Z; va : list va_arg; bf : list Z }.

Definition put_number (value radix : Z) (uppercase unsig : bool) (d : directive) (bf : list Z) :
    M mini_buff (list Z) :=
  r ← of_opt (mini_itoa value radix uppercase unsig bf (n_pad d) (c_pad d));
  _puts (Some (arr_get r.2)) r.1;;
  mret r.2.

(** One turn of the [switch]; [inr ()] is [goto end]. *)
Definition convert (fuel : nat) (m : bmem) (d : directive) (va : list va_arg) (bf : list Z) :
    M mini_buff (pr_vars + unit) :=
  let ch := conv d in
  if ch =? 0 then mret (inr ())
  else if ch =? 108 then mret (inl (mk_pv (rest d) va bf))
  else if ch =? 117 then
    a ← of_opt (next_num va);
    bf ← put_number (s64 (if longflag d then u64 a.1 else u32 a.1)) 10 false true d bf;
    mret (inl (mk_pv (rest d) a.2 bf))
  else if ch =? 100 then
    a ← of_opt (next_num va);
    bf ← put_number (if longflag d then s64 a.1 else s32 a.1) 10 false false d bf;
    mret (inl (mk_pv (rest d) a.2 bf))
  else if (ch =? 120) || (ch =? 88) then
    a ← of_opt (next_num va);
    bf ← put_number (s64 (if longflag d then u64 a.1 else u32 a.1)) 16 (ch =? 88) true d bf;
    mret (inl (mk_pv (rest d) a.2 bf))
  else if ch =? 99 then
    a ← of_opt (next_num va);
    _putc (u8 a.1);;
    mret (inl (mk_pv (rest d) a.2 bf))
  else if ch =? 115 then
    a ← of_opt (next_str va);
    len ← of_opt (mini_strlen fuel m a.1 0);
    _puts (Some (λ i, Some (m (a.1 + i)))) len;;
    (if len <? n_pad d then _puts None (n_pad d - len);; mret () else mret ());;
    mret (inl (mk_pv (rest d) a.2 bf))
  else _putc ch;; mret (inl (mk_pv (rest d) va bf)).

Definition vsn_step (fuel : nat) (m : bmem) (l : pr_vars) : M mini_buff (pr_vars + unit) :=
  let '(ch, r) := next_char (fmt l) in
  if ch =? 0 then mret (inr ()) else
  b ← get;
  if buffer_len b <=? u32 (pbuffer b + 1) then mret (inr ()) else
  if negb (ch =? 37) then _putc ch;; mret (inl (mk_pv r (va l) (bf l)))
  else convert fuel m (read_directive r) (va l) (bf l).

(** [bf0]: what the uninitialised local array holds. *)
Definition mini_vsnprintf (fuel : nat) (m : bmem) (bf0 : list Z) (fmt : list Z) (va : list va_arg) :
    M mini_buff Z :=
  while_ (S (length fmt)) (vsn_step fuel m) (mk_pv fmt va bf0);;
  gets pbuffer.

Definition PRINT_BUFFER : Z := 256.

(** The text handed to [output]: [buff0] is what the local [buff] holds. *)
Definition _vprint (fuel : nat) (m : bmem) (bf0 buff0 : list Z) (fmt : list Z) (va : list va_arg) :
    option (Z * list Z) :=
  match mini_vsnprintf fuel m bf0 fmt va (mk_buff buff0 0 PRINT_BUFFER) with
  | Ok ret b => buff ← arr_set (buffer b) ret 0; Some (ret, buff)
  | _ => None
  end.

(** ** The text of a number *)

(** The digits of [v], the last one first. *)
Fixpoint digits (fuel : nat) (radix v : Z) : list Z :=
  match fuel with
  | O => []
  | S fuel' => v mod radix :: (if v / radix =? 0 then [] else digits fuel' radix (v / radix))
  end.

Fixpoint number (radix : Z) (ds : list Z) : Z :=
  match ds with [] => 0 | d :: ds' => d + radix * number radix ds' end.

Definition itoa_digit_list (value radix : Z) (unsig : bool) : list Z :=
  digits ITOA_FUEL radix (if unsig then u64 value else Z.abs value).

Definition is_negative (value : Z) (unsig : bool) : bool := (value <? 0) && negb unsig.

Definition itoa_text (value radix : Z) (uppercase unsig : bool) (n_pad cpad : Z) : list Z :=
  let ds := itoa_digit_list value radix unsig in
  (if is_negative value unsig then [45] else [])
  ++ replicate (Z.to_nat (n_pad - Z.of_nat (length ds))) cpad
  ++ reverse (digit_char uppercase <$> ds).

Lemma arr_set_app {A} (pre post : list A) x y p :
  p = Z.of_nat (length pre) → arr_set (pre ++ x :: post) p y = Some (pre ++ y :: post).
Proof.
  intros ->. rewrite arr_set_Some by (rewrite length_app; simpl; lia).
  by rewrite Nat2Z.id, insert_app_r_alt, Nat.sub_diag by done.
Qed.

Lemma arr_get_app {A} (pre post : list A) x p :
  p = Z.of_nat (length pre) → arr_get (pre ++ x :: post) p = Some x.
Proof. intros ->. apply arr_get_Some. split; [lia|]. rewrite Nat2Z.id. by apply list_lookup_middle. Qed.

Lemma number_digits radix fuel v :
  2 ≤ radix → 0 ≤ v < 2 ^ Z.of_nat fuel →
  number radix (digits fuel radix v) = v ∧ Forall (λ d, 0 ≤ d < radix) (digits fuel radix v).
Proof.
  intros Hr. revert v. induction fuel as [|fuel IH]; intros v Hv; simpl digits.
  - simpl in *. split; [lia|constructor].
  - rewrite Nat2Z.inj_succ, Z.pow_succ_r in Hv by lia.
    pose proof (Z.mod_pos_bound v radix ltac:(lia)). pose proof (Z.div_mod v radix ltac:(lia)).
    destruct (Z.eqb_spec (v / radix) 0) as [E|E].
    + simpl. split; [nia|]. repeat constructor; lia.
    + destruct (IH (v / radix)) as [Hn Hf].
      { split; [apply Z.div_pos; lia|]. apply Z.div_lt_upper_bound; nia. }
      simpl. rewrite Hn. split; [lia|]. by constructor.
Qed.

Lemma digits_length radix fuel v k :
  2 ≤ radix → 0 ≤ v < radix ^ Z.of_nat k → (1 ≤ k)%nat → (length (digits fuel radix v) ≤ k)%nat.
Proof.
  intros Hr. revert v k. induction fuel as [|fuel IH]; intros v k Hv Hk; simpl; [lia|].
  destruct (Z.eqb_spec (v / radix) 0) as [E|E]; simpl; [lia|].
  destruct k as [|k]; [lia|].
  assert (Hdiv : 0 ≤ v / radix < radix ^ Z.of_nat k).
  { rewrite Nat2Z.inj_succ, Z.pow_succ_r in Hv by lia.
    split; [apply Z.div_pos; lia|]. apply Z.div_lt_upper_bound; lia. }
  destruct k as [|k]; [simpl in Hdiv; lia|]. specialize (IH _ (S k) Hdiv). lia.
Qed.

(** ** The loops of mini_itoa *)

Lemma itoa_digits_ok fuel (value radix : Z) uppercase (unsig : bool) v pre post :
  2 ≤ radix → v = (if unsig then u64 value else value) → 0 ≤ v < 2 ^ Z.of_nat fuel → v < 2 ^ 64 →
  (length (digits fuel radix v) ≤ length post)%nat → (0 < fuel)%nat →
  itoa_digits fuel value radix uppercase unsig (pre ++ post) (Z.of_nat (length pre))
  = Some (pre ++ (digit_char uppercase <$> digits fuel radix v) ++ drop (length (digits fuel radix v)) post,
          Z.of_nat (length pre + length (digits fuel radix v))).
Proof.
  intros Hr. revert value v pre post.
  induction fuel as [|fuel IH]; intros value v pre post Hval Hv H64 Hlen Hf; [lia|].
  cbn [itoa_digits]. cbn [digits] in *.
  rewrite Nat2Z.inj_succ, Z.pow_succ_r in Hv by lia. set (P := 2 ^ Z.of_nat fuel) in *.
  destruct post as [|x post]; [simpl in Hlen; lia|].
  rewrite arr_set_app by done. cbn [mbind option_bind].
  assert (Hdig : (if unsig then u64 value mod radix else Z.rem value radix) = v mod radix).
  { destruct unsig; subst v; [done|]. apply Z.rem_mod_nonneg; lia. }
  assert (Hq : (if unsig then s64 (u64 value / radix) else Z.quot value radix) = v / radix).
  { destruct unsig; subst v; [|apply Z.quot_div_nonneg; lia]. apply s64_id.
    split; [transitivity 0; [lia|apply Z.div_pos; lia]|]. apply Z.div_lt_upper_bound; nia. }
  rewrite Hdig, Hq. destruct (Z.eqb_spec (v / radix) 0) as [E|E].
  - simpl. rewrite drop_0. f_equal. f_equal. lia.
  - assert (0 ≤ v / radix < 2 ^ Z.of_nat fuel).
    { split; [apply Z.div_pos; lia|]. apply Z.div_lt_upper_bound; nia. }
    assert (v / radix < 2 ^ 64) by (apply Z.div_lt_upper_bound; nia).
    rewrite cons_middle, app_assoc.
    replace (Z.of_nat (length pre) + 1) with (Z.of_nat (length (pre ++ [digit_char uppercase (v mod radix)])))
      by (rewrite length_app; simpl; lia).
    simpl in Hlen. rewrite (IH (v / radix) (v / radix)); [| |done|done|lia|].
    + rewrite length_app. simpl. rewrite <- app_assoc. simpl. f_equal. f_equal. lia.
    + destruct unsig; [|done]. symmetry. apply u64_id. lia.
    + destruct fuel; [simpl in *; lia|lia].
Qed.

Lemma store_chars_ok n c pre post :
  (n ≤ length post)%nat →
  store_chars (pre ++ post) (Z.of_nat (length pre)) n c = Some (pre ++ replicate n c ++ drop n post).
Proof.
  revert pre post. induction n as [|n IH]; intros pre post Hn; simpl; [by rewrite drop_0|].
  destruct post as [|x post]; [simpl in Hn; lia|].
  rewrite arr_set_app by done. cbn [mbind option_bind].
  rewrite cons_middle, app_assoc.
  replace (Z.of_nat (length pre) + 1) with (Z.of_nat (length (pre ++ [c]))) by (rewrite length_app; simpl; lia).
  rewrite IH by (simpl in Hn; lia). by rewrite <- app_assoc.
Qed.

(** [n] rounds exchange the ends of a middle part of [2 n] or [2 n + 1] characters. *)
Lemma reverse_loop_ok n mid pre post tl :
  length mid = (2 * n)%nat ∨ length mid = (2 * n + 1)%nat → length pre = length post →
  reverse_loop n (Z.of_nat (length pre)) (Z.of_nat (length (pre ++ mid ++ post))) (pre ++ mid ++ post ++ tl)
  = Some (pre ++ reverse mid ++ post ++ tl).
Proof.
  revert mid pre post tl. induction n as [|n IH]; intros mid pre post tl Hm Hp; cbn [reverse_loop].
  - destruct mid as [|a [|b mid]]; simpl in Hm; [done|done|lia].
  - destruct mid as [|a mid]; [simpl in Hm; lia|].
    destruct mid as [|b mid _] using rev_ind; [simpl in Hm; lia|].
    rewrite reverse_cons, reverse_snoc. set (len := Z.of_nat (length (pre ++ (a :: mid ++ [b]) ++ post))).
    assert (Hlen : len = Z.of_nat (length pre + 1 + (length mid + S (length post)))).
    { subst len. rewrite !length_app. simpl. rewrite length_app. simpl. f_equal. lia. }
    assert (Hi : len - Z.of_nat (length pre) - 1 = Z.of_nat (length (pre ++ a :: mid))).
    { rewrite Hlen, length_app. simpl. lia. }
    assert (E : ∀ x y, pre ++ (x :: mid ++ [y]) ++ post ++ tl = (pre ++ x :: mid) ++ y :: post ++ tl).
    { intros x y. rewrite <- !app_assoc. simpl. by rewrite <- app_assoc. }
    simpl app. rewrite (arr_get_app pre _ a (Z.of_nat (length pre))) by done. cbn [mbind option_bind].
    change (a :: (mid ++ [b]) ++ post ++ tl) with ((a :: mid ++ [b]) ++ post ++ tl).
    rewrite E at 1. rewrite (arr_get_app _ _ b (len - Z.of_nat (length pre) - 1)) by exact Hi. cbn [mbind option_bind]. simpl app.
    rewrite (arr_set_app pre _ a b (Z.of_nat (length pre))) by done. cbn [mbind option_bind].
    change (b :: (mid ++ [b]) ++ post ++ tl) with ((b :: mid ++ [b]) ++ post ++ tl).
    rewrite E, (arr_set_app _ _ b a) by (rewrite Hi, !length_app; done). cbn [mbind option_bind].
    specialize (IH mid (pre ++ [b]) (a :: post) tl). rewrite !length_app in IH. simpl in IH.
    rewrite Hlen. replace (Z.of_nat (length pre) + 1) with (Z.of_nat (length pre + 1)) by lia.
    rewrite <- !app_assoc in *. simpl in *. apply IH; [simpl in Hm; rewrite length_app in Hm; simpl in Hm; lia|lia].
Qed.

Lemma half_nat n : Z.to_nat (Z.of_nat n / 2) = (n / 2)%nat.
Proof. rewrite <- (Nat2Z.id (n / 2)). by rewrite Nat2Z.inj_div. Qed.

(** Padding, sign, NUL and reversal after the digits [cs]. *)
Lemma itoa_finish_ok (cs : list Z) n cpad (negative : bool) buffer :
  let txt := (if negative then [45] else []) ++ replicate n cpad ++ reverse cs in
  (length txt < length buffer)%nat →
  (b ← store_chars (cs ++ drop (length cs) buffer) (Z.of_nat (length cs)) n cpad;
   let p := Z.of_nat (length cs) + Z.of_nat n in
   b ← (if negative then arr_set b p 45 else Some b);
   let p := if negative then p + 1 else p in
   b ← arr_set b p 0;
   b ← reverse_loop (Z.to_nat (p / 2)) 0 p b;
   Some (p, b))
  = Some (Z.of_nat (length txt), txt ++ 0 :: drop (S (length txt)) buffer).
Proof.
  intros txt Hlen. set (sg := if negative then [45] else [] : list Z) in *.
  assert (Htl : length txt = (length cs + n + length sg)%nat).
  { unfold txt. rewrite !length_app, length_replicate, length_reverse. lia. }
  assert (Hdrop : ∃ x, drop (length txt) buffer = x :: drop (S (length txt)) buffer).
  { destruct (drop (length txt) buffer) as [|x post] eqn:Hd.
    - apply (f_equal length) in Hd. rewrite length_drop in Hd. simpl in Hd. lia.
    - exists x. by rewrite <- Nat.add_1_r, <- drop_drop, Hd. }
  destruct Hdrop as [x Hx].
  rewrite store_chars_ok by (rewrite length_drop; lia). cbn [mbind option_bind]. rewrite drop_drop.
  set (xs := cs ++ replicate n cpad ++ sg).
  assert (Hxs : length xs = length txt).
  { unfold xs. rewrite Htl, !length_app, length_replicate. lia. }
  assert (Hsg : (if negative then arr_set (cs ++ replicate n cpad ++ drop (length cs + n) buffer)
                    (Z.of_nat (length cs) + Z.of_nat n) 45
                 else Some (cs ++ replicate n cpad ++ drop (length cs + n) buffer))
    = Some (xs ++ drop (length txt) buffer)).
  { rewrite Htl. unfold xs, sg. destruct negative.
    - rewrite app_assoc. simpl length.
      destruct (drop (length cs + n) buffer) as [|y post] eqn:Hd.
      { apply (f_equal length) in Hd. rewrite length_drop in Hd. unfold sg in Htl. cbn [length] in Hd, Htl. lia. }
      rewrite arr_set_app by (rewrite length_app, length_replicate; lia).
      rewrite <- drop_drop, Hd. simpl. by rewrite drop_0, <- !app_assoc.
    - simpl length. by rewrite Nat.add_0_r, app_nil_r, <- app_assoc. }
  cbv zeta. rewrite Hsg. cbn [mbind option_bind].
  assert (Hp : (if negative then Z.of_nat (length cs) + Z.of_nat n + 1 else Z.of_nat (length cs) + Z.of_nat n)
               = Z.of_nat (length txt)).
  { rewrite Htl. unfold sg. destruct negative; simpl length; lia. }
  rewrite Hp, Hx, arr_set_app by (by rewrite Hxs). cbn [mbind option_bind].
  pose proof (reverse_loop_ok (length xs / 2) xs [] [] (0 :: drop (S (length txt)) buffer)) as Hrev.
  cbn [app length] in Hrev. rewrite app_nil_r, Hxs in Hrev. rewrite half_nat. change (Z.of_nat 0) with 0 in Hrev.
  rewrite Hrev; [| |done].
  - cbn [mbind option_bind]. f_equal. f_equal. f_equal. unfold xs, txt.
    rewrite !reverse_app, reverse_replicate, <- app_assoc. unfold sg. by destruct negative.
  - pose proof (Nat.div_mod_eq (length txt) 2). pose proof (Nat.mod_upper_bound (length txt) 2). lia.
Qed.

Lemma itoa_text_eq value radix uppercase unsig n_pad cpad :
  itoa_text value radix uppercase unsig n_pad cpad
  = (if is_negative value unsig then [45] else [])
    ++ replicate (Z.to_nat (n_pad - Z.of_nat (length (itoa_digit_list value radix unsig)))) cpad
    ++ reverse (digit_char uppercase <$> itoa_digit_list value radix unsig).
Proof. done. Qed.

(** [mini_itoa] writes the text and its NUL and keeps what lies beyond. *)
Lemma mini_itoa_ok value radix uppercase unsig buffer n_pad cpad :
  2 ≤ radix ≤ 16 → - 2 ^ 63 ≤ value < 2 ^ 63 → unsig = true ∨ value ≠ - 2 ^ 63 →
  let txt := itoa_text value radix uppercase unsig n_pad cpad in
  (length txt < length buffer)%nat →
  mini_itoa value radix uppercase unsig buffer n_pad cpad
  = Some (Z.of_nat (length txt), txt ++ 0 :: drop (S (length txt)) buffer).
Proof.
  intros Hr Hv Hmin txt Hlen. unfold mini_itoa. destruct (Z.ltb_spec 16 radix); [lia|].
  fold (is_negative value unsig). cbv zeta.
  assert (Hdg : itoa_digits ITOA_FUEL (if is_negative value unsig then s64 (- value) else value) radix uppercase unsig buffer 0
    = Some ((digit_char uppercase <$> itoa_digit_list value radix unsig)
            ++ drop (length (itoa_digit_list value radix unsig)) buffer,
            Z.of_nat (length (itoa_digit_list value radix unsig)))).
  { rewrite (itoa_digits_ok _ _ _ _ _ (if unsig then u64 value else Z.abs value) [] buffer); [done|lia| | | | |].
    - unfold is_negative. destruct unsig; cbn [negb]; [by rewrite andb_false_r|].
      rewrite andb_true_r. destruct (Z.ltb_spec value 0); [|lia]. rewrite s64_id; destruct Hmin; [done|lia|done|lia].
    - change (2 ^ Z.of_nat ITOA_FUEL) with (2 ^ 64). destruct unsig; [apply u64_range|lia].
    - destruct unsig; [apply u64_range|lia].
    - fold (itoa_digit_list value radix unsig). unfold txt in Hlen.
      rewrite itoa_text_eq, !length_app, length_reverse, length_fmap in Hlen. lia.
    - unfold ITOA_FUEL. lia. }
  rewrite Hdg. cbn [mbind option_bind].
  pose proof (itoa_finish_ok (digit_char uppercase <$> itoa_digit_list value radix unsig)
    (Z.to_nat (n_pad - Z.of_nat (length (itoa_digit_list value radix unsig)))) cpad
    (is_negative value unsig) buffer) as Hfin.
  cbv zeta in Hfin. rewrite <- itoa_text_eq, length_fmap in Hfin. apply Hfin. exact Hlen.
Qed.

Lemma digit_list_length value radix unsig :
  10 ≤ radix → - 2 ^ 63 ≤ value < 2 ^ 63 →
  (length (itoa_digit_list value radix unsig) ≤ if unsig then 20 else 19)%nat.
Proof.
  intros Hr Hv. unfold itoa_digit_list. generalize ITOA_FUEL. intros fuel. destruct unsig.
  - apply digits_length; [lia| |lia]. pose proof (u64_range value).
    pose proof (Z.pow_le_mono_l 10 radix (Z.of_nat 20) ltac:(lia)).
    change (10 ^ Z.of_nat 20) with 100000000000000000000 in *. lia.
  - apply digits_length; [lia| |lia].
    pose proof (Z.pow_le_mono_l 10 radix (Z.of_nat 19) ltac:(lia)).
    change (10 ^ Z.of_nat 19) with 10000000000000000000 in *. change (2 ^ 63) with 9223372036854775808 in *. lia.
Qed.

Lemma itoa_text_short value radix uppercase unsig n_pad cpad :
  10 ≤ radix → - 2 ^ 63 ≤ value < 2 ^ 63 → n_pad ≤ 22 →
  (length (itoa_text value radix uppercase unsig n_pad cpad) ≤ 23)%nat.
Proof.
  intros Hr Hv Hn. pose proof (digit_list_length value radix unsig Hr Hv) as Hd.
  rewrite itoa_text_eq, !length_app, length_replicate, length_reverse, length_fmap.
  revert Hd. generalize (length (itoa_digit_list value radix unsig)). intros k Hd.
  unfold is_negative. destruct unsig, (value <? 0); cbn [negb andb length]; lia.
Qed.

(** converting a number with a width of at most 22 writes the minus sign
    of a negative number, the padding, the digits of its absolute value in the
    radix, most significant first, and a NUL, within the 24 characters of the
    caller's array, and returns the length of the text; the smallest long is the
    only number excluded, as it has no negation. *)
Theorem mini_itoa_spec value radix uppercase unsig buffer n_pad cpad :
  10 ≤ radix ≤ 16 → - 2 ^ 63 ≤ value < 2 ^ 63 → unsig = true ∨ value ≠ - 2 ^ 63 →
  n_pad ≤ 22 → length buffer = 24%nat →
  ∃ ds txt, mini_itoa value radix uppercase unsig buffer n_pad cpad
            = Some (Z.of_nat (length txt), txt ++ 0 :: drop (S (length txt)) buffer)
  ∧ txt = (if is_negative value unsig then [45] else [])
          ++ replicate (Z.to_nat (n_pad - Z.of_nat (length ds))) cpad
          ++ reverse (digit_char uppercase <$> ds)
  ∧ Forall (λ d, 0 ≤ d < radix) ds
  ∧ number radix ds = (if unsig then u64 value else Z.abs value)
  ∧ (length txt < 24)%nat.
Proof.
  intros Hr Hv Hmin Hn Hlen.
  pose proof (itoa_text_short value radix uppercase unsig n_pad cpad ltac:(lia) Hv Hn) as Hs.
  destruct (number_digits radix ITOA_FUEL (if unsig then u64 value else Z.abs value)) as [Hnum Hf].
  - lia.
  - change (2 ^ Z.of_nat ITOA_FUEL) with (2 ^ 64). destruct unsig; [apply u64_range|lia].
  - exists (itoa_digit_list value radix unsig), (itoa_text value radix uppercase unsig n_pad cpad).
    split; [apply mini_itoa_ok; [lia|done|done|lia]|]. split; [done|]. split; [done|]. split; [done|lia].
Qed.

Lemma mini_itoa_spec_witness :
  ∃ ds txt, mini_itoa (-305) 10 false false (replicate 24 0) 5 48
            = Some (Z.of_nat (length txt), txt ++ 0 :: drop (S (length txt)) (replicate 24 0))
  ∧ txt = [45] ++ replicate (Z.to_nat (5 - Z.of_nat (length ds))) 48 ++ reverse (digit_char false <$> ds)
  ∧ Forall (λ d, 0 ≤ d < 10) ds
  ∧ number 10 ds = 305
  ∧ (length txt < 24)%nat.
Proof.
  apply (mini_itoa_spec (-305) 10 false false (replicate 24 0) 5 48); [lia|lia|right; lia|lia|reflexivity].
Defined.

(** The smallest [long] is printed with characters that are no digits. *)
Example mini_itoa_min :
  (λ r, take 20 r.2) <$> mini_itoa (- 2 ^ 63) 10 false false (replicate 24 0) 0 32
  = Some (45 :: ((λ d, 48 - d) <$> [9; 2; 2; 3; 3; 7; 2; 0; 3; 6; 8; 5; 4; 7; 7; 5; 8; 0; 8])).
Proof. vm_compute. reflexivity. Qed.

(** A width of 24 overruns [bf]. *)
Example mini_itoa_overrun : mini_itoa 1 10 false false (replicate 24 0) 24 32 = None.
Proof. vm_compute. reflexivity. Qed.

(** ** The output buffer as the text it holds *)

Section Buffer.
Context (L : nat) (buff0 : list Z).
Context (HL : (0 < L)%nat) (Hlen : length buff0 = L) (HL32 : Z.of_nat L < 2 ^ 31).

(** [out] is in the buffer, [x] follows it, the rest is as it was. *)
Definition holding (out : list Z) (x : Z) : mini_buff :=
  mk_buff (out ++ x :: drop (S (length out)) buff0) (Z.of_nat (length out)) (Z.of_nat L).

Lemma put_ok out x c :
  (S (length out) < L)%nat → ∃ y, put c (holding out x) = Ok () (holding (out ++ [u8 c]) y).
Proof.
  intros Ho. destruct (drop (S (length out)) buff0) as [|y post] eqn:Hd.
  { apply (f_equal length) in Hd. rewrite length_drop in Hd. simpl in Hd. lia. }
  exists y. unfold put. rewrite bind_get. cbn [buffer pbuffer holding].
  rewrite arr_set_app by done. rewrite (bind_opt _ _ _ _ eq_refl). unfold modify, holding. cbn [buffer pbuffer buffer_len].
  do 2 f_equal.
  - rewrite <- app_assoc. simpl. do 2 f_equal. rewrite length_app, Nat.add_1_r. simpl.
    by rewrite <- (Nat.add_1_r (S (length out))), <- drop_drop, Hd.
  - rewrite length_app. simpl. lia.
Qed.

Lemma put_nul_ok out x : put_nul (holding out x) = Ok () (holding out 0).
Proof.
  unfold put_nul. rewrite bind_get. cbn [buffer pbuffer holding].
  rewrite arr_set_app by done. by rewrite (bind_opt _ _ _ _ eq_refl).
Qed.

Lemma put_all (body : nat → M mini_buff unit) cs i0 out x :
  (∀ i c, cs !! i = Some c → body (i0 + i)%nat = put c) → (length out + length cs < L)%nat →
  ∃ y, for_ i0 (length cs) body (holding out x) = Ok () (holding (out ++ (u8 <$> cs)) y).
Proof.
  revert i0 out x. induction cs as [|c cs IH]; intros i0 out x Hb Hr; simpl.
  - exists x. by rewrite app_nil_r.
  - pose proof (Hb 0%nat c eq_refl) as H0. rewrite Nat.add_0_r in H0. rewrite H0. simpl in Hr.
    destruct (put_ok out x c) as [y Hy]; [lia|]. rewrite (bind_ok _ _ _ _ _ Hy).
    destruct (IH (S i0) (out ++ [u8 c]) y) as [z Hz].
    + intros i c' Hc. rewrite <- (Hb (S i) c') by done. f_equal. lia.
    + rewrite length_app. simpl. lia.
    + exists z. rewrite Hz. by rewrite <- app_assoc.
Qed.

(** The text [out] cut to what fits. *)
Definition fit (out : list Z) : list Z := take (L - 1) out.

Lemma fit_app out txt : fit (out ++ txt) = fit out ++ take (L - 1 - length (fit out)) txt.
Proof.
  unfold fit. rewrite take_app, length_take.
  destruct (decide (length out ≤ L - 1)%nat).
  - by rewrite Nat.min_r by lia.
  - replace (L - 1 - length out)%nat with 0%nat by lia.
    by replace (L - 1 - _ `min` _)%nat with 0%nat by lia.
Qed.

Lemma fit_length out : (length (fit out) ≤ L - 1)%nat.
Proof. unfold fit. rewrite length_take. lia. Qed.

Lemma fit_full out txt : length (fit out) = (L - 1)%nat → fit (out ++ txt) = fit out.
Proof. intros H. rewrite fit_app, H, Nat.sub_diag. apply app_nil_r. Qed.

Lemma room_test out x :
  (buffer_len (holding (fit out) x) <=? u32 (pbuffer (holding (fit out) x) + 1))
  = bool_decide (length (fit out) = (L - 1)%nat).
Proof.
  pose proof (fit_length out). cbn [buffer_len pbuffer holding]. rewrite u32_id by lia.
  case_bool_decide; [apply Z.leb_le|apply Z.leb_gt]; lia.
Qed.

Lemma putc_ok out x c :
  0 ≤ c < 256 → ∃ r y, _putc c (holding (fit out) x) = Ok r (holding (fit (out ++ [c])) y).
Proof.
  intros Hc. unfold _putc. rewrite bind_get, room_test. case_bool_decide as E.
  - exists 0, x. by rewrite fit_full.
  - pose proof (fit_length out). destruct (put_ok (fit out) x c) as [y Hy]; [lia|].
    rewrite (bind_ok _ _ _ _ _ Hy), (bind_ok _ _ _ _ _ (put_nul_ok _ _)). rewrite u8_id by done.
    exists 1, 0. rewrite fit_app. by rewrite (take_ge [c]) by (simpl; lia).
Qed.

Lemma puts_ok (s : option (Z → option Z)) txt out x :
  Forall (λ c, 0 ≤ c < 256) txt →
  (∀ i c, txt !! i = Some c → match s with None => c = 32 | Some f => f (Z.of_nat i) = Some c end) →
  ∃ r, _puts s (Z.of_nat (length txt)) (holding (fit out) x) = Ok r (holding (fit (out ++ txt)) 0).
Proof.
  intros Hf Hs. unfold _puts. rewrite bind_get. cbn [buffer_len pbuffer holding].
  pose proof (fit_length out) as Hfl. set (room := (L - 1 - length (fit out))%nat).
  set (cs := take room txt).
  assert (Hn : Z.to_nat (if Z.of_nat L - Z.of_nat (length (fit out)) - 1 <? Z.of_nat (length txt)
                then Z.of_nat L - Z.of_nat (length (fit out)) - 1 else Z.of_nat (length txt)) = length cs).
  { unfold cs, room. rewrite length_take. destruct (Z.ltb_spec (Z.of_nat L - Z.of_nat (length (fit out)) - 1) (Z.of_nat (length txt))); lia. }
  cbv zeta. rewrite Hn.
  match goal with |- context[for_ 0 _ ?b] => set (body := b) end.
  destruct (put_all body cs 0 (fit out) x) as [y Hy].
  - intros i c Hc. unfold cs in Hc. apply lookup_take_Some in Hc as [Hc _]. pose proof (Hs i c Hc) as H.
    unfold body. cbn [Nat.add]. destruct s as [f|]; [|by rewrite H]. by rewrite H.
  - unfold cs, room. rewrite length_take. lia.
  - rewrite (bind_ok _ _ _ _ _ Hy), (bind_ok _ _ _ _ _ (put_nul_ok _ _)). eexists.
    rewrite fit_app. fold room. fold cs. unfold mret, M_ret. do 3 f_equal.
    assert (Hfc : Forall (λ c, 0 ≤ c < 256) cs) by (by apply Forall_take).
    clear -Hfc. induction Hfc as [|c cs Hc _ IH]; [done|]. rewrite fmap_cons, IH, u8_id; done.
Qed.
End Buffer.

(** ** What a format means *)

Lemma s64_range z : - 2 ^ 63 ≤ s64 z < 2 ^ 63.
Proof. unfold s64. pose proof (Z.mod_pos_bound (z + 2 ^ 63) (2 ^ 64)). lia. Qed.

(** [piece d va txt va']: the directive prints [txt] and leaves the arguments [va']. *)
Inductive piece (fuel : nat) (m : bmem) (d : directive) : list va_arg → list Z → list va_arg → Prop :=
| piece_l va : conv d = 108 → piece fuel m d va [] va
| piece_u a va : conv d = 117 → n_pad d ≤ 22 →
    piece fuel m d (Num a :: va)
      (itoa_text (s64 (if longflag d then u64 a else u32 a)) 10 false true (n_pad d) (c_pad d)) va
| piece_d a va : conv d = 100 → n_pad d ≤ 22 → s64 a ≠ - 2 ^ 63 →
    piece fuel m d (Num a :: va)
      (itoa_text (if longflag d then s64 a else s32 a) 10 false false (n_pad d) (c_pad d)) va
| piece_x a va : conv d = 120 ∨ conv d = 88 → n_pad d ≤ 22 →
    piece fuel m d (Num a :: va)
      (itoa_text (s64 (if longflag d then u64 a else u32 a)) 16 (conv d =? 88) true (n_pad d) (c_pad d)) va
| piece_c a va : conv d = 99 → piece fuel m d (Num a :: va) [u8 a] va
| piece_s p s va : conv d = 115 → cstr m p s → (length s < fuel)%nat → Z.of_nat (length s) < 2 ^ 32 →
    piece fuel m d (Str p :: va) (s ++ replicate (Z.to_nat (n_pad d - Z.of_nat (length s))) 32) va
| piece_other va : conv d ∉ [0; 108; 117; 100; 120; 88; 99; 115] → piece fuel m d va [conv d] va.

(** [formats fmt va out]: with enough room the format prints [out]. *)
Inductive formats (fuel : nat) (m : bmem) : list Z → list va_arg → list Z → Prop :=
| formats_end va : formats fuel m [] va []
| formats_char c r va out :
    c ≠ 37 → formats fuel m r va out → formats fuel m (c :: r) va (c :: out)
| formats_conv r va txt va' out :
    piece fuel m (read_directive r) va txt va' →
    formats fuel m (rest (read_directive r)) va' out →
    formats fuel m (37 :: r) va (txt ++ out)
| formats_stop r va : conv (read_directive r) = 0 → formats fuel m (37 :: r) va [].

Lemma next_char_ok f :
  string_ok f → let '(c, r) := next_char f in
  0 ≤ c < 256 ∧ string_ok r ∧ (length r ≤ length f)%nat.
Proof.
  intros Hf. destruct Hf as [|c r Hc Hr]; simpl; [split; [lia|]; split; [constructor|lia]|].
  split; [lia|]. split; [done|lia].
Qed.

Lemma width_loop_ok f np :
  string_ok f → let '(_, c, r) := width_loop f np in
  0 ≤ c < 256 ∧ string_ok r ∧ (length r ≤ length f)%nat.
Proof.
  intros Hf. revert np. induction Hf as [|c r Hc Hr IH]; intros np; cbn [width_loop].
  - split; [lia|]. split; [constructor|done].
  - destruct (is_digit c).
    + specialize (IH (u32 (u32 (np * 10) + c - 48))). destruct (width_loop r _) as [[? ?] ?].
      destruct IH as (? & ? & ?). split; [done|]. split; [done|]. simpl. lia.
    + split; [lia|]. split; [done|]. simpl. lia.
Qed.

Lemma read_directive_ok f :
  string_ok f → 0 ≤ conv (read_directive f) < 256 ∧ string_ok (rest (read_directive f))
  ∧ (length (rest (read_directive f)) ≤ length f)%nat.
Proof.
  intros Hf. unfold read_directive. pose proof (next_char_ok f Hf) as Hn. destruct (next_char f) as [c r].
  assert (Hw : ∀ (np cp c : Z) r, 0 ≤ c < 256 ∧ string_ok r ∧ (length r ≤ length f)%nat →
    let d := if c =? 108 then let '(ch, r) := next_char r in mk_dir np cp true ch r else mk_dir np cp false c r in
    0 ≤ conv d < 256 ∧ string_ok (rest d) ∧ (length (rest d) ≤ length f)%nat).
  { intros np cp c' r' (H1 & H2 & H3). destruct (c' =? 108); [|done].
    pose proof (next_char_ok r' H2) as Hn'. destruct (next_char r') as [c'' r'']. cbv zeta. cbn [conv rest].
    destruct Hn' as (? & ? & ?). split; [done|]. split; [done|lia]. }
  destruct (is_digit c).
  - pose proof (width_loop_ok f 0 Hf) as Hl. destruct (width_loop f 0) as [[np c'] r']. by apply Hw.
  - by apply Hw.
Qed.

Lemma mini_strlen_ok fuel m p s i :
  cstr m p s → (i ≤ length s)%nat → (length s - i < fuel)%nat → Z.of_nat (length s) < 2 ^ 32 →
  mini_strlen fuel m p (Z.of_nat i) = Some (Z.of_nat (length s)).
Proof.
  intros [Hb Hs] Hi Hf H32. rewrite bytes_at_lookup in Hb. revert i Hi Hf.
  induction fuel as [|fuel IH]; intros i Hi Hf; [lia|]. cbn [mini_strlen].
  destruct (decide (i = length s)) as [->|].
  - rewrite (Hb (length s) 0) by (by apply list_lookup_middle). done.
  - destruct (lookup_lt_is_Some_2 s i) as [c Hc]; [lia|].
    rewrite (Hb i c) by (by apply lookup_app_l_Some).
    assert (0 < c < 256) by (by eapply Forall_lookup_1 in Hs; [|exact Hc]).
    destruct (Z.eqb_spec c 0); [lia|]. rewrite u32_id by lia.
    replace (Z.of_nat i + 1) with (Z.of_nat (S i)) by lia. apply IH; lia.
Qed.

Lemma itoa_text_bytes value radix uppercase unsig n_pad cpad :
  0 ≤ cpad < 256 → Forall (λ c, 0 ≤ c < 256) (itoa_text value radix uppercase unsig n_pad cpad).
Proof.
  intros Hc. rewrite itoa_text_eq. repeat apply Forall_app_2.
  - destruct (is_negative value unsig); repeat constructor; lia.
  - by apply Forall_replicate.
  - apply Forall_reverse, Forall_fmap, Forall_true. intros d. unfold compose, digit_char. apply u8_range.
Qed.

Lemma c_pad_range f : 0 ≤ c_pad (read_directive f) < 256.
Proof.
  unfold read_directive. destruct (next_char f) as [c r].
  destruct (is_digit c); [destruct (width_loop f 0) as [[? ch] ?]; destruct (c =? 48)|destruct (c =? 108)];
    try destruct (ch =? 108); repeat case_match; simpl; lia.
Qed.

Section Formats.
Context (L : nat) (buff0 : list Z).
Context (HL : (0 < L)%nat) (Hlen : length buff0 = L) (HL32 : Z.of_nat L < 2 ^ 31).
Context (fuel : nat) (m : bmem).

Lemma put_number_ok value radix uppercase unsig d bf out x :
  10 ≤ radix ≤ 16 → - 2 ^ 63 ≤ value < 2 ^ 63 → unsig = true ∨ value ≠ - 2 ^ 63 →
  n_pad d ≤ 22 → 0 ≤ c_pad d < 256 → length bf = 24%nat →
  ∃ bf', length bf' = 24%nat ∧
    put_number value radix uppercase unsig d bf (holding L buff0 (fit L out) x)
    = Ok bf' (holding L buff0 (fit L (out ++ itoa_text value radix uppercase unsig (n_pad d) (c_pad d))) 0).
Proof.
  intros Hr Hv Hmin Hn Hc Hbf. set (txt := itoa_text value radix uppercase unsig (n_pad d) (c_pad d)).
  pose proof (itoa_text_short value radix uppercase unsig (n_pad d) (c_pad d) ltac:(lia) Hv Hn) as Hs.
  fold txt in Hs. unfold put_number. rewrite (bind_opt _ _ _ _ (mini_itoa_ok value radix uppercase unsig bf (n_pad d) (c_pad d)
    ltac:(lia) Hv Hmin ltac:(fold txt; lia))). fold txt. cbn [fst snd].
  destruct (puts_ok L buff0 HL Hlen (Some (arr_get (txt ++ 0 :: drop (S (length txt)) bf))) txt out x) as [r Hr'].
  - by apply itoa_text_bytes.
  - intros i c Hi. apply arr_get_Some. split; [lia|]. rewrite Nat2Z.id. by apply lookup_app_l_Some.
  - rewrite (bind_ok _ _ _ _ _ Hr'). eexists. split; [|done].
    rewrite length_app. simpl. rewrite length_drop. lia.
Qed.

Ltac conv_is H := rewrite ?H; cbn [Z.eqb Pos.eqb orb].

Lemma convert_ok d va txt va' bf out x :
  piece fuel m d va txt va' → 0 ≤ conv d < 256 → 0 ≤ c_pad d < 256 → length bf = 24%nat →
  ∃ bf' y, length bf' = 24%nat ∧
    convert fuel m d va bf (holding L buff0 (fit L out) x)
    = Ok (inl (mk_pv (rest d) va' bf')) (holding L buff0 (fit L (out ++ txt)) y).
Proof.
  intros Hp Hcv Hcp Hbf. unfold convert.
  destruct Hp as [va Hc|a va Hc Hn|a va Hc Hn Hmin|a va Hc Hn|a va Hc|p s va Hc Hs Hf H32|va Hc].
  - conv_is Hc. exists bf, x. by rewrite app_nil_r.
  - conv_is Hc. cbn [next_num next_str]; rewrite (bind_opt _ _ _ _ eq_refl). cbn [fst snd].
    destruct (put_number_ok (s64 (if longflag d then u64 a else u32 a)) 10 false true d bf out x)
      as (bf' & Hb & He); [lia|apply s64_range|by left|done|done|done|].
    rewrite (bind_ok _ _ _ _ _ He). by exists bf', 0.
  - conv_is Hc. cbn [next_num next_str]; rewrite (bind_opt _ _ _ _ eq_refl). cbn [fst snd].
    destruct (put_number_ok (if longflag d then s64 a else s32 a) 10 false false d bf out x)
      as (bf' & Hb & He); [lia| | |done|done|done|].
    + destruct (longflag d); [apply s64_range|]. unfold s32. pose proof (Z.mod_pos_bound (a + 2 ^ 31) (2 ^ 32)). lia.
    + right. destruct (longflag d); [done|]. unfold s32. pose proof (Z.mod_pos_bound (a + 2 ^ 31) (2 ^ 32)). lia.
    + rewrite (bind_ok _ _ _ _ _ He). by exists bf', 0.
  - destruct (put_number_ok (s64 (if longflag d then u64 a else u32 a)) 16 (conv d =? 88) true d bf out x)
      as (bf' & Hb & He); [lia|apply s64_range|by left|done|done|done|].
    exists bf', 0. split; [done|].
    destruct Hc as [Hc|Hc]; conv_is Hc; cbn [next_num next_str]; rewrite (bind_opt _ _ _ _ eq_refl); cbn [fst snd];
      rewrite Hc in He; cbn [Z.eqb Pos.eqb] in He; by rewrite (bind_ok _ _ _ _ _ He).
  - conv_is Hc. cbn [next_num next_str]; rewrite (bind_opt _ _ _ _ eq_refl). cbn [fst snd].
    destruct (putc_ok L buff0 HL Hlen HL32 out x (u8 a)) as (r & y & He); [apply u8_range|].
    rewrite (bind_ok _ _ _ _ _ He). by exists bf, y.
  - conv_is Hc. cbn [next_num next_str]; rewrite (bind_opt _ _ _ _ eq_refl). cbn [fst snd].
    rewrite (bind_opt _ _ _ _ (mini_strlen_ok fuel m p s 0 Hs ltac:(lia) ltac:(lia) H32)).
    destruct Hs as [Hb Hs].
    destruct (puts_ok L buff0 HL Hlen (Some (λ i, Some (m (p + i)))) s out x) as [r He].
    { eapply Forall_impl; [exact Hs|]. intros c ?. cbv beta in *. lia. }
    { intros i c Hi. f_equal. rewrite bytes_at_lookup in Hb. apply Hb. by apply lookup_app_l_Some. }
    rewrite (bind_ok _ _ _ _ _ He). exists bf, 0. split; [done|].
    destruct (Z.ltb_spec (Z.of_nat (length s)) (n_pad d)) as [Hlt|Hge].
    + destruct (puts_ok L buff0 HL Hlen None (replicate (Z.to_nat (n_pad d - Z.of_nat (length s))) 32) (out ++ s) 0)
        as [r' He'].
      { by apply Forall_replicate. }
      { intros i c Hi. by apply lookup_replicate in Hi as [-> _]. }
      rewrite length_replicate, Z2Nat.id in He' by lia.
      unfold mbind at 1, M_bind. rewrite (bind_ok _ _ _ _ _ He'). unfold mret, M_ret. by rewrite app_assoc.
    + replace (Z.to_nat (n_pad d - Z.of_nat (length s))) with 0%nat by lia. by rewrite app_nil_r.
  - rewrite !not_elem_of_cons in Hc. destruct Hc as (H0 & H1 & H2 & H3 & H4 & H5 & H6 & H7 & _).
    repeat match goal with |- context[conv d =? ?k] => destruct (Z.eqb_spec (conv d) k); [done|] end. cbn [orb].
    destruct (putc_ok L buff0 HL Hlen HL32 out x (conv d)) as (r & y & He); [done|].
    rewrite (bind_ok _ _ _ _ _ He). by exists bf, y.
Qed.

Lemma vsn_loop_ok f va out :
  formats fuel m f va out → string_ok f → ∀ n bf out0 x, (length f < n)%nat → length bf = 24%nat →
  ∃ y, while_ n (vsn_step fuel m) (mk_pv f va bf) (holding L buff0 (fit L out0) x)
       = Ok () (holding L buff0 (fit L (out0 ++ out)) y).
Proof.
  induction 1 as [va|c r va out Hc Hfm IH|r va txt va' out Hp Hfm IH|r va Hc];
    intros Hok [|n] bf out0 x Hn Hbf; try (simpl in Hn; lia); rewrite while_eq; unfold vsn_step at 1; cbn [fmt Printk.va Printk.bf next_char].
  - exists x. by rewrite app_nil_r.
  - apply Forall_cons_1 in Hok as [Hc0 Hr]. simpl in Hn. destruct (Z.eqb_spec c 0); [lia|].
    rewrite bind_get, room_test by done. case_bool_decide as E; [exists x; by rewrite (fit_full L buff0)|].
    destruct (Z.eqb_spec c 37); [done|]. cbn [negb].
    destruct (putc_ok L buff0 HL Hlen HL32 out0 x c) as (r' & y & He); [lia|].
    rewrite (bind_ok _ _ _ _ _ He). unfold mret, M_ret. cbv beta iota. cbn [next_char fst snd].
    destruct (IH Hr n bf (out0 ++ [c]) y) as [z Hz]; [lia|done|]. exists z. rewrite Hz. by rewrite <- app_assoc.
  - apply Forall_cons_1 in Hok as [Hc0 Hr]. simpl in Hn. cbn [Z.eqb Pos.eqb].
    rewrite bind_get, room_test by done. case_bool_decide as E; [exists x; by rewrite (fit_full L buff0)|]. cbn [negb].
    destruct (read_directive_ok r Hr) as (Hcv & Hrest & Hlr).
    destruct (convert_ok _ _ _ _ bf out0 x Hp Hcv (c_pad_range r) Hbf) as (bf' & y & Hb' & He). rewrite He.
    destruct (IH Hrest n bf' (out0 ++ txt) y) as [z Hz]; [lia|done|]. exists z. rewrite Hz. by rewrite <- app_assoc.
  - apply Forall_cons_1 in Hok as [Hc0 Hr]. cbn [Z.eqb Pos.eqb].
    rewrite bind_get, room_test by done. case_bool_decide as E; [exists x; by rewrite (fit_full L buff0)|]. cbn [negb].
    unfold convert. rewrite Hc. exists x. by rewrite app_nil_r.
Qed.
End Formats.

Lemma vprint_ok fuel m bf0 buff0 f va out :
  formats fuel m f va out → string_ok f → length bf0 = 24%nat → length buff0 = 256%nat →
  let ret := length (take 255 out) in
  _vprint fuel m bf0 buff0 f va = Some (Z.of_nat ret, take 255 out ++ 0 :: drop (S ret) buff0).
Proof.
  intros Hf Hok Hbf Hb ret. unfold _vprint, mini_vsnprintf, PRINT_BUFFER.
  destruct buff0 as [|x b0] eqn:E; [done|]. rewrite <- E in *.
  replace (mk_buff buff0 0 256) with (holding 256 buff0 (fit 256 []) x) by (by rewrite E).
  destruct (vsn_loop_ok 256 buff0 ltac:(lia) Hb ltac:(lia) fuel m f va out Hf Hok (S (length f)) bf0 [] x)
    as [y Hy]; [lia|done|].
  rewrite (bind_ok _ _ _ _ _ Hy). unfold gets. cbn [app].
  change (fit 256 out) with (take 255 out). unfold holding. cbn [pbuffer buffer]. fold ret.
  by rewrite arr_set_app by done.
Qed.


Lemma formats_example m :
  formats 10 m [97; 37; 51; 100; 37; 99] [Num (-7); Num 66] ([97] ++ [45; 32; 32; 55] ++ [66]).
Proof.
  apply formats_char; [done|].
  apply (formats_conv 10 m [51; 100; 37; 99] [Num (-7); Num 66] [45; 32; 32; 55] [Num 66] [66]).
  - pose proof (piece_d 10 m (read_directive [51; 100; 37; 99]) (-7) [Num 66] eq_refl) as H.
    vm_compute (itoa_text _ _ _ _ _ _) in H. apply H; vm_compute; done.
  - apply (formats_conv 10 m [99] [Num 66] [66] [] []).
    + apply piece_c. done.
    + apply formats_end.
Qed.

