(* ===== verification/Screen.v ===== *)
(** drivers/screen.c, and printk of libs/printk.c, which draws on the screen.

    The terminal at the serial port is the class [Terminal]: it takes bytes,
    and shows 80 by 50 cells; its laws are the documented effect of the three
    VT100 sequences that the driver sends and of a printable character. *)
From S2P Require Import Prelude KMonad Bytes CString Printk.

Definition SCREEN_WIDTH : Z := 80.
Definition SCREEN_HEIGHT : Z := 50.
Definition SCREEN_LOC (x y : Z) : Z := y * SCREEN_WIDTH + x.

(** [ds] are the decimal digits of [v]. *)
Definition decimal (ds : list Z) (v : Z) : Prop :=
  ds ≠ [] ∧ Forall (λ c, 48 ≤ c ≤ 57) ds ∧ foldl (λ a c, 10 * a + (c - 48)) 0 ds = v.

Definition on_screen (x y : Z) : Prop := 0 ≤ x < SCREEN_WIDTH ∧ 0 ≤ y < SCREEN_HEIGHT.
Definition printable (c : Z) : Prop := 32 ≤ c < 127.

(** [bios_putchar] and [bios_putstr], and what is seen: the cells and the
    cursor; [tm_ground] holds when no sequence is half sent. *)
Class Terminal (T : Type) := {
  bios_putchar : T → Z → T;
  bios_putstr : T → list Z → T;
  tm_cell : T → Z → Z → Z;
  tm_cursor : T → Z * Z;
  tm_ground : T → Prop
}.

Class TerminalLaws (T : Type) `{Terminal T} : Prop := {
  tm_move t dx dy x y :
    tm_ground t → on_screen x y → decimal dx (x + 1) → decimal dy (y + 1) →
    let t' := bios_putstr t ([27; 91] ++ dy ++ [59] ++ dx ++ [72]) in
    tm_ground t' ∧ tm_cursor t' = (x, y) ∧ ∀ i j, tm_cell t' i j = tm_cell t i j;
  tm_put t c x y :
    tm_ground t → tm_cursor t = (x, y) → on_screen x y → printable c →
    let t' := bios_putchar t c in
    tm_ground t' ∧ tm_cell t' x y = c ∧ ∀ i j, (i, j) ≠ (x, y) → tm_cell t' i j = tm_cell t i j;
  tm_clear t :
    tm_ground t → let t' := bios_putstr t [27; 91; 50; 74] in
    tm_ground t' ∧ ∀ i j, on_screen i j → tm_cell t' i j = 32;
  tm_hide t :
    tm_ground t → let t' := bios_putstr t [27; 91; 63; 50; 53; 108] in
    tm_ground t' ∧ ∀ i j, tm_cell t' i j = tm_cell t i j
}.

Section Screen.
Context {T : Type} `{!Terminal T}.
(** The memory that strings lie in, and what the local arrays of the printing
    functions hold before they are written. *)
Context (fuel : nat) (m : bmem) (bf0 buff0 : list Z).

(** The cursor is that of [current_running]. *)
Record screen_state := mk_screen {
  new_screen : list Z; old_screen : list Z; serial : T; cursor_x : Z; cursor_y : Z
}.
Definition set_new (l : list Z) (s : screen_state) : screen_state :=
  mk_screen l (old_screen s) (serial s) (cursor_x s) (cursor_y s).
Definition set_old (l : list Z) (s : screen_state) : screen_state :=
  mk_screen (new_screen s) l (serial s) (cursor_x s) (cursor_y s).
Definition send (f : T → T) (s : screen_state) : screen_state :=
  mk_screen (new_screen s) (old_screen s) (f (serial s)) (cursor_x s) (cursor_y s).
Definition set_cx (x : Z) (s : screen_state) : screen_state :=
  mk_screen (new_screen s) (old_screen s) (serial s) x (cursor_y s).
Definition set_cy (y : Z) (s : screen_state) : screen_state :=
  mk_screen (new_screen s) (old_screen s) (serial s) (cursor_x s) y.

(** The characters of a string in a buffer, up to its NUL. *)
Fixpoint chars_of (b : list Z) : list Z :=
  match b with [] => [] | c :: b' => if c =? 0 then [] else c :: chars_of b' end.

Definition printv (fmt : list Z) (va : list va_arg) : M screen_state Z :=
  r ← of_opt (_vprint fuel m bf0 buff0 fmt va);
  modify (send (λ t, bios_putstr t (chars_of r.2)));;
  mret r.1.

(** The formats "%c[%d;%dH", "%c[2J" and "%c[?25l". *)
Definition vt100_move_cursor (x y : Z) : M screen_state Z :=
  printv [37; 99; 91; 37; 100; 59; 37; 100; 72] [Num 27; Num y; Num x].
Definition vt100_clear : M screen_state Z := printv [37; 99; 91; 50; 74] [Num 27].
Definition vt100_hidden_cursor : M screen_state Z := printv [37; 99; 91; 63; 50; 53; 108] [Num 27].

Definition next_line : M screen_state unit :=
  modify (set_cx 0);;
  s ← get;
  if cursor_y s <? SCREEN_HEIGHT then modify (set_cy (s32 (cursor_y s + 1))) else mret ().

(** The last branch of [screen_write_ch]. *)
Definition write_visible (ch : Z) : M screen_state unit :=
  s ← get;
  l ← of_opt (arr_set (new_screen s) (SCREEN_LOC (cursor_x s) (cursor_y s)) ch);
  modify (set_new l);;
  let x := s32 (cursor_x s + 1) in
  modify (set_cx x);;
  if SCREEN_WIDTH <=? x then next_line else mret ().

(** The call for a blank takes the last branch. *)
Definition screen_write_ch (ch : Z) : M screen_state unit :=
  if ch =? 10 then next_line
  else if (ch =? 8) || (ch =? 127) then
    modify (λ s, set_cx (s32 (cursor_x s - 1)) s);;
    write_visible 32;;
    modify (λ s, set_cx (s32 (cursor_x s - 1)) s)
  else write_visible ch.

Definition screen_write (buff : list Z) : M screen_state unit :=
  for_ 0 (length (chars_of buff)) (λ i, c ← of_opt (buff !! i); screen_write_ch c).

Definition reflush_cell (i j : nat) : M screen_state unit :=
  s ← get;
  let loc := SCREEN_LOC (Z.of_nat j) (Z.of_nat i) in
  n ← of_opt (arr_get (new_screen s) loc);
  o ← of_opt (arr_get (old_screen s) loc);
  if n =? o then mret () else
  vt100_move_cursor (Z.of_nat j + 1) (Z.of_nat i + 1);;
  modify (send (λ t, bios_putchar t n));;
  l ← of_opt (arr_set (old_screen s) loc n);
  modify (set_old l).

Definition screen_reflush : M screen_state unit :=
  for_ 0 (Z.to_nat SCREEN_HEIGHT) (λ i, for_ 0 (Z.to_nat SCREEN_WIDTH) (reflush_cell i));;
  s ← get;
  vt100_move_cursor (s32 (cursor_x s + 1)) (s32 (cursor_y s + 1));;
  mret ().

Definition blank_cell (i j : nat) : M screen_state unit :=
  s ← get;
  let loc := SCREEN_LOC (Z.of_nat j) (Z.of_nat i) in
  n ← of_opt (arr_set (new_screen s) loc 32);
  o ← of_opt (arr_set (old_screen s) loc 32);
  modify (set_new n);;
  modify (set_old o).

Definition screen_clear : M screen_state unit :=
  vt100_clear;;
  for_ 0 (Z.to_nat SCREEN_HEIGHT) (λ i, for_ 0 (Z.to_nat SCREEN_WIDTH) (blank_cell i));;
  modify (set_cx 0);;
  modify (set_cy 0);;
  screen_reflush.

Definition init_screen : M screen_state unit :=
  vt100_hidden_cursor;;
  vt100_clear;;
  screen_clear.

Definition clamp (bound v : Z) : Z := if bound <=? v then bound - 1 else if v <? 0 then 0 else v.
Definition screen_move_cursor (x y : Z) : M screen_state unit :=
  let x := clamp SCREEN_WIDTH x in
  let y := clamp SCREEN_HEIGHT y in
  modify (set_cx x);;
  modify (set_cy y);;
  vt100_move_cursor (s32 (x + 1)) (s32 (y + 1));;
  mret ().

(** [vprintk], with [_output_wrapper] as the output. *)
Definition printk (fmt : list Z) (va : list va_arg) : M screen_state Z :=
  r ← of_opt (_vprint fuel m bf0 buff0 fmt va);
  screen_write r.2;;
  screen_reflush;;
  mret r.1.

(** ** What the sequences do *)

Context `{!TerminalLaws T} (Hbf : length bf0 = 24%nat) (Hbuff : length buff0 = 256%nat).

(** The text of a coordinate. *)
Definition coord (v : Z) : list Z := itoa_text (s32 v) 10 false false 0 32.

Lemma coord_ok v : 0 ≤ v ≤ 80 → decimal (coord v) v ∧ (length (coord v) ≤ 2)%nat.
Proof.
  intros Hv. assert (Hall : Forall (λ n, decimal (coord (Z.of_nat n)) (Z.of_nat n) ∧ (length (coord (Z.of_nat n)) ≤ 2)%nat) (seq 0 81)).
  { unfold decimal. apply (bool_decide_unpack _). by vm_compute. }
  rewrite Forall_forall in Hall. replace v with (Z.of_nat (Z.to_nat v)) by lia. apply Hall, elem_of_seq. lia.
Qed.

Lemma chars_of_string out r : string_ok out → chars_of (out ++ 0 :: r) = out.
Proof.
  induction 1 as [|c out Hc _ IH]; [done|]. simpl. destruct (Z.eqb_spec c 0); [lia|]. by rewrite IH.
Qed.

Lemma printv_ok f va out s :
  formats fuel m f va out → string_ok f → string_ok out → (length out ≤ 255)%nat →
  printv f va s = Ok (Z.of_nat (length out)) (send (λ t, bios_putstr t out) s).
Proof.
  intros Hf Hok Ho Hl. pose proof (vprint_ok fuel m bf0 buff0 f va out Hf Hok Hbf Hbuff) as He. cbv zeta in He.
  rewrite take_ge in He by done. unfold printv. rewrite (bind_opt _ _ _ _ He). cbn [fst snd].
  by rewrite bind_modify, chars_of_string.
Qed.

(** A conversion of a format with the directive read off. *)
Lemma formats_d c f a va out :
  s64 a ≠ - 2 ^ 63 → conv (read_directive (100 :: f)) = 100 →
  formats fuel m f va out → c = s32 a → formats fuel m (37 :: 100 :: f) (Num a :: va) (itoa_text c 10 false false 0 32 ++ out).
Proof.
  intros Ha Hc Hf ->. eapply (formats_conv fuel m (100 :: f) (Num a :: va) _ va out); [|exact Hf].
  apply (piece_d fuel m (read_directive (100 :: f)) a va); [done|done|done].
Qed.

Lemma formats_c f a va out :
  formats fuel m f va out → formats fuel m (37 :: 99 :: f) (Num a :: va) (u8 a :: out).
Proof.
  intros Hf. apply (formats_conv fuel m (99 :: f) (Num a :: va) [u8 a] va out); [|exact Hf].
  by apply (piece_c fuel m (read_directive (99 :: f)) a va).
Qed.

Lemma move_cursor_ok x y s :
  0 ≤ x ≤ 80 → 0 ≤ y ≤ 80 →
  ∃ n, vt100_move_cursor x y s = Ok n (send (λ t, bios_putstr t ([27; 91] ++ coord y ++ [59] ++ coord x ++ [72])) s).
Proof.
  intros Hx Hy. destruct (coord_ok x Hx) as [(_ & Hxd & _) Hxl]. destruct (coord_ok y Hy) as [(_ & Hyd & _) Hyl].
  assert (Hd : ∀ l, Forall (λ c, 48 ≤ c ≤ 57) l → string_ok l).
  { intros l Hl. eapply Forall_impl; [exact Hl|]. intros c Hc. cbv beta in *. lia. }
  assert (H64 : ∀ v, 0 ≤ v ≤ 80 → s64 v ≠ - 2 ^ 63) by (intros v Hv; rewrite s64_id; lia).
  eexists. apply printv_ok.
  - apply (formats_c _ 27). apply formats_char; [done|]. apply (formats_d (s32 y)); [by apply H64|done| |done].
    apply formats_char; [done|]. apply (formats_d (s32 x)); [by apply H64|done| |done].
    apply formats_char; [done|]. apply formats_end.
  - repeat (constructor; [lia|]). constructor.
  - fold (coord y) (coord x). change (u8 27) with 27. unfold string_ok. do 2 (apply Forall_cons; split; [lia|]). apply Forall_app; split; [by apply Hd|].
    apply Forall_cons; split; [lia|]. apply Forall_app; split; [by apply Hd|]. repeat constructor; lia.
  - fold (coord y) (coord x). repeat (rewrite length_cons || rewrite length_app). change (length ([] : list Z)) with 0%nat. lia.
Qed.

Lemma clear_ok s : vt100_clear s = Ok 4 (send (λ t, bios_putstr t [27; 91; 50; 74]) s).
Proof.
  apply (printv_ok _ _ [27; 91; 50; 74]); [|repeat (constructor; [lia|]); constructor..|simpl; lia].
  apply (formats_c _ 27). repeat (apply formats_char; [done|]). apply formats_end.
Qed.

Lemma hide_ok s : vt100_hidden_cursor s = Ok 6 (send (λ t, bios_putstr t [27; 91; 63; 50; 53; 108]) s).
Proof.
  apply (printv_ok _ _ [27; 91; 63; 50; 53; 108]); [|repeat (constructor; [lia|]); constructor..|simpl; lia].
  apply (formats_c _ 27). repeat (apply formats_char; [done|]). apply formats_end.
Qed.
(** ** The screen and its buffers *)

(** The terminal shows [l]. *)
Definition shows (t : T) (l : list Z) : Prop :=
  ∀ x y, on_screen x y → l !! Z.to_nat (SCREEN_LOC x y) = Some (tm_cell t x y).

Record screen_ok (s : screen_state) : Prop := {
  so_new : length (new_screen s) = 4000%nat;
  so_old : length (old_screen s) = 4000%nat;
  so_text : Forall printable (new_screen s);
  so_ground : tm_ground (serial s);
  so_shows : shows (serial s) (old_screen s)
}.

(** [k] cells have been compared; the rest of the state is that of [s0]. *)
Record flushing (s0 : screen_state) (k : nat) (s : screen_state) : Prop := {
  fl_ok : screen_ok s;
  fl_new : new_screen s = new_screen s0;
  fl_cursor : cursor_x s = cursor_x s0 ∧ cursor_y s = cursor_y s0;
  fl_done p : (p < k)%nat → old_screen s !! p = new_screen s !! p
}.

Lemma reflush_cell_ok s0 i j s :
  (i < 50)%nat → (j < 80)%nat → flushing s0 (80 * i + j) s →
  wp (reflush_cell i j) s (λ _, flushing s0 (80 * i + S j)).
Proof.
  intros Hi Hj [[Hn Ho Ht Hg Hs] Hn0 Hc Hd]. set (k := (80 * i + j)%nat) in *.
  assert (Hloc : SCREEN_LOC (Z.of_nat j) (Z.of_nat i) = Z.of_nat k) by (unfold SCREEN_LOC, SCREEN_WIDTH; lia).
  assert (Hon : on_screen (Z.of_nat j) (Z.of_nat i)) by (unfold on_screen, SCREEN_WIDTH, SCREEN_HEIGHT; lia).
  destruct (lookup_lt_is_Some_2 (new_screen s) k) as [n Hnk]; [lia|].
  destruct (lookup_lt_is_Some_2 (old_screen s) k) as [o Hok]; [lia|].
  unfold reflush_cell. rewrite wp_bind, wp_get. cbv zeta. rewrite Hloc.
  rewrite wp_bind, (wp_of_opt_Some _ n) by (apply arr_get_Some; rewrite Nat2Z.id; split; [lia|done]).
  rewrite wp_bind, (wp_of_opt_Some _ o) by (apply arr_get_Some; rewrite Nat2Z.id; split; [lia|done]).
  replace (80 * i + S j)%nat with (S k) by lia. destruct (Z.eqb_spec n o) as [->|Hne].
  { rewrite wp_ret. split; [by split|done|done|]. intros p Hp.
    destruct (decide (p = k)) as [->|]; [congruence|apply Hd; lia]. }
  destruct (move_cursor_ok (Z.of_nat j + 1) (Z.of_nat i + 1) s) as [r Hr]; [lia..|].
  rewrite wp_bind, (wp_ok _ _ _ _ _ Hr), wp_bind, wp_modify.
  rewrite wp_bind, (wp_of_opt_Some _ (<[k:=n]> (old_screen s))), wp_modify
    by (cbn [old_screen send]; rewrite arr_set_Some by lia; by rewrite Nat2Z.id).
  destruct (tm_move (serial s) (coord (Z.of_nat j + 1)) (coord (Z.of_nat i + 1)) (Z.of_nat j) (Z.of_nat i))
    as (Hg1 & Hc1 & Hs1); [done|done|apply coord_ok; lia|apply coord_ok; lia|].
  destruct (tm_put _ n (Z.of_nat j) (Z.of_nat i) Hg1 Hc1 Hon) as (Hg2 & Hx2 & Hs2); [by eapply Forall_lookup_1|].
  split; [split| | |]; cbn [new_screen old_screen serial cursor_x cursor_y send set_old]; try done.
  - by rewrite length_insert.
  - intros x y Hxy. destruct (decide ((x, y) = (Z.of_nat j, Z.of_nat i))) as [[= -> ->]|Hd'].
    + rewrite Hloc, Nat2Z.id, list_lookup_insert_eq by lia. by rewrite Hx2.
    + rewrite Hs2, Hs1 by done. rewrite list_lookup_insert_ne; [by apply Hs|].
      unfold on_screen, SCREEN_LOC, SCREEN_WIDTH, SCREEN_HEIGHT in *. intros E. apply Hd'. f_equal; lia.
  - intros p Hp. destruct (decide (p = k)) as [->|]; [by rewrite list_lookup_insert_eq by lia|].
    rewrite list_lookup_insert_ne by done. apply Hd. lia.
Qed.

Lemma reflush_cells_ok s0 : screen_ok s0 →
  wp (for_ 0 50 (λ i, for_ 0 80 (reflush_cell i))) s0 (λ _, flushing s0 4000).
Proof.
  intros H0. apply (wp_for (λ i, flushing s0 (80 * i)) 0 50).
  - split; [done|done|done|]. intros p. lia.
  - intros i s Hi HI. apply (wp_mono _ _ (λ _, flushing s0 (80 * i + (0 + 80)))).
    + apply (wp_for (λ j, flushing s0 (80 * i + j)) 0 80).
      * by rewrite Nat.add_0_r.
      * intros j s' Hj. apply reflush_cell_ok; lia.
    + intros _ s' HI'. by replace (80 * S i)%nat with (80 * i + (0 + 80))%nat by lia.
Qed.

(** What the user sees when the driver has caught up. *)
Record displayed (s : screen_state) : Prop := {
  di_ok : screen_ok s;
  di_same : old_screen s = new_screen s;
  di_shows : shows (serial s) (new_screen s);
  di_cursor : tm_cursor (serial s) = (cursor_x s, cursor_y s)
}.

Lemma screen_reflush_spec s :
  screen_ok s → on_screen (cursor_x s) (cursor_y s) →
  wp screen_reflush s (λ _ s', displayed s' ∧ new_screen s' = new_screen s ∧
    cursor_x s' = cursor_x s ∧ cursor_y s' = cursor_y s).
Proof.
  intros Hok Hon. unfold screen_reflush. rewrite wp_bind.
  change (Z.to_nat SCREEN_HEIGHT) with 50%nat. change (Z.to_nat SCREEN_WIDTH) with 80%nat.
  eapply wp_mono; [by apply reflush_cells_ok|]. intros _ s1 [[Hn Ho Ht Hg Hs] Hn0 [Hx Hy] Hd].
  rewrite wp_bind, wp_get, Hx, Hy. pose proof Hon as [Hox Hoy]. unfold SCREEN_WIDTH, SCREEN_HEIGHT in Hox, Hoy.
  rewrite !s32_id by lia. destruct (move_cursor_ok (cursor_x s + 1) (cursor_y s + 1) s1) as [r Hr]; [lia..|].
  rewrite wp_bind, (wp_ok _ _ _ _ _ Hr), wp_ret.
  destruct (tm_move (serial s1) (coord (cursor_x s + 1)) (coord (cursor_y s + 1)) (cursor_x s) (cursor_y s))
    as (Hg1 & Hc1 & Hs1); [done|done|apply coord_ok; lia|apply coord_ok; lia|].
  assert (Heq : old_screen s1 = new_screen s1).
  { apply list_eq. intros p. destruct (decide (p < 4000)%nat); [by apply Hd|]. by rewrite !lookup_ge_None_2 by lia. }
  assert (Hsh : shows (serial (send (λ t, bios_putstr t ([27; 91] ++ coord (cursor_y s + 1) ++ [59] ++ coord (cursor_x s + 1) ++ [72])) s1)) (new_screen s1)).
  { intros x y Hxy. cbn [serial send]. rewrite Hs1, <- Heq. by apply Hs. }
  split; [split|]; cbn [new_screen old_screen cursor_x cursor_y send]; try done.
  - split; try done. cbn [old_screen send]. by rewrite Heq.
  - cbn [serial send]. by rewrite Hc1, Hx, Hy.
Qed.
(** ** Text on the screen *)

(** What a character does to the cells and to the place of the cursor, counted
    along the lines. *)
Definition paint (st : list Z * Z) (c : Z) : list Z * Z :=
  if c =? 10 then (st.1, (st.2 / 80 + 1) * 80) else (<[Z.to_nat st.2 := c]> st.1, st.2 + 1).
Definition place (s : screen_state) : Z := SCREEN_LOC (cursor_x s) (cursor_y s).
Definition text_char (c : Z) : Prop := printable c ∨ c = 10.

Lemma paint_mono txt st : 0 ≤ st.2 → st.2 ≤ (foldl paint st txt).2.
Proof.
  revert st. induction txt as [|c txt IH]; intros st Hp; [done|]. simpl.
  assert (st.2 ≤ (paint st c).2); [|specialize (IH (paint st c)); lia].
  unfold paint. destruct (c =? 10); simpl; [|lia]. pose proof (Z.div_mod st.2 80). pose proof (Z.mod_pos_bound st.2 80). lia.
Qed.

(** [txt] has been written since [s0]; nothing has been sent yet. *)
Record drawn (s0 : screen_state) (txt : list Z) (s : screen_state) : Prop := {
  dr_place : (new_screen s, place s) = foldl paint (new_screen s0, place s0) txt;
  dr_cursor : 0 ≤ cursor_x s < 80 ∧ 0 ≤ cursor_y s;
  dr_old : old_screen s = old_screen s0 ∧ serial s = serial s0
}.

Lemma next_line_ok s :
  0 ≤ cursor_x s → 0 ≤ cursor_y s < 50 →
  next_line s = Ok () (set_cy (cursor_y s + 1) (set_cx 0 s)).
Proof.
  intros Hx Hy. unfold next_line. rewrite bind_modify, bind_get. cbn [cursor_y set_cx]. unfold SCREEN_HEIGHT.
  destruct (Z.ltb_spec (cursor_y s) 50); [|lia]. by rewrite s32_id by lia.
Qed.

Lemma write_ch_ok s0 txt c s :
  drawn s0 txt s → text_char c → length (new_screen s) = 4000%nat → place s < 4000 →
  wp (screen_write_ch c) s (λ _ s', drawn s0 (txt ++ [c]) s' ∧ length (new_screen s') = 4000%nat).
Proof.
  intros [Hp [Hx Hy] Ho] Hc Hl Hlt. unfold place, SCREEN_LOC, SCREEN_WIDTH in Hlt. unfold screen_write_ch.
  destruct (Z.eqb_spec c 10) as [->|Hnl].
  { rewrite (wp_ok _ _ _ _ _ (next_line_ok s ltac:(lia) ltac:(lia))). split; [|done]. split; [|simpl; lia|done].
    rewrite foldl_app, <- Hp. unfold paint, place, SCREEN_LOC, SCREEN_WIDTH. cbn [foldl fst snd set_cy set_cx new_screen cursor_x cursor_y].
    cbn [Z.eqb Pos.eqb]. f_equal. rewrite Z.div_add_l, Z.div_small by lia. lia. }
  destruct Hc as [[Hc1 Hc2]|]; [|done]. replace ((c =? 8) || (c =? 127)) with false by lia.
  unfold write_visible. rewrite wp_bind, wp_get. unfold SCREEN_LOC, SCREEN_WIDTH.
  pose proof (arr_set_Some (new_screen s) (cursor_y s * 80 + cursor_x s) c ltac:(lia)) as Hset.
  rewrite wp_bind, (wp_of_opt_Some _ _ _ _ Hset), wp_bind, wp_modify, s32_id by lia.
  rewrite wp_bind, wp_modify.
  match goal with |- wp _ ?x _ => set (s1 := x) end.
  assert (Hd : drawn s0 (txt ++ [c]) s1 ∨ (80 ≤ cursor_x s + 1 ∧ drawn s0 (txt ++ [c]) (set_cy (cursor_y s + 1) (set_cx 0 s1)))).
  { destruct (decide (80 ≤ cursor_x s + 1)); [right; split; [done|]|left]; (split; [|simpl; lia|done]);
      rewrite foldl_app, <- Hp; unfold paint, place, SCREEN_LOC, SCREEN_WIDTH, s1; cbn [foldl fst snd set_cy set_cx set_new new_screen cursor_x cursor_y];
      rewrite (proj2 (Z.eqb_neq _ _) Hnl); f_equal; lia. }
  destruct (Z.leb_spec 80 (cursor_x s + 1)).
  - rewrite (wp_ok _ _ _ _ _ (next_line_ok s1 ltac:(simpl; lia) ltac:(simpl; lia))). split; [|by cbn; rewrite length_insert].
    destruct Hd as [[_ [Hx1 _] _]|[_ Hd]]; [simpl in Hx1; lia|exact Hd].
  - rewrite wp_ret. split; [|by cbn; rewrite length_insert]. destruct Hd as [Hd|[? _]]; [exact Hd|lia].
Qed.

Lemma screen_write_ok txt r s :
  Forall text_char txt → on_screen (cursor_x s) (cursor_y s) → length (new_screen s) = 4000%nat →
  (foldl paint (new_screen s, place s) txt).2 < 4000 →
  wp (screen_write (txt ++ 0 :: r)) s (λ _ s', drawn s txt s' ∧ length (new_screen s') = 4000%nat).
Proof.
  intros Ht [Hx Hy] Hl Hfin. unfold SCREEN_WIDTH, SCREEN_HEIGHT in *. unfold screen_write. rewrite chars_of_string.
  2: { eapply Forall_impl; [exact Ht|]. intros c [[? ?]| ->]; cbv beta; lia. }
  eapply wp_mono; [apply (wp_for (λ i s', drawn s (take i txt) s' ∧ length (new_screen s') = 4000%nat) 0 (length txt))|].
  - split; [|done]. split; [done| |done]. lia.
  - intros i s' Hi [HI Hl']. destruct (lookup_lt_is_Some_2 txt i) as [c Hc]; [lia|].
    rewrite wp_bind, (wp_of_opt_Some _ c) by (by rewrite lookup_app_l by lia). rewrite (take_S_r _ _ _ Hc).
    apply write_ch_ok; [done|by eapply Forall_lookup_1|done|].
    pose proof (f_equal snd (dr_place _ _ _ HI)) as Hp. cbn [snd] in Hp. rewrite Hp.
    rewrite <- (take_drop i txt), foldl_app in Hfin.
    pose proof (paint_mono (drop i txt) (foldl paint (new_screen s, place s) (take i txt))) as Hm.
    pose proof (paint_mono (take i txt) (new_screen s, place s)) as Hm0. cbn [snd] in Hm0.
    unfold place, SCREEN_LOC, SCREEN_WIDTH in *. lia.
  - intros ? s' H. change (0 + length txt)%nat with (length txt) in H. by rewrite firstn_all in H.
Qed.

Lemma paint_printable txt st :
  Forall text_char txt → Forall printable st.1 → Forall printable (foldl paint st txt).1.
Proof.
  revert st. induction txt as [|c txt IH]; intros st Ht Hs; [done|]. apply Forall_cons in Ht as [Hc Ht]. simpl.
  apply IH; [done|]. unfold paint. destruct (Z.eqb_spec c 10); [done|]. cbn [fst].
  destruct Hc as [Hc|]; [|done]. by apply Forall_insert.
Qed.

(** ** Clearing *)

(** [k] cells have been blanked. *)
Record blanking (s0 : screen_state) (k : nat) (s : screen_state) : Prop := {
  bl_length : length (new_screen s) = 4000%nat ∧ length (old_screen s) = 4000%nat;
  bl_serial : serial s = serial s0;
  bl_done p : (p < k)%nat → new_screen s !! p = Some 32 ∧ old_screen s !! p = Some 32
}.

Lemma blank_cell_ok s0 i j s :
  (i < 50)%nat → (j < 80)%nat → blanking s0 (80 * i + j) s →
  wp (blank_cell i j) s (λ _, blanking s0 (80 * i + S j)).
Proof.
  intros Hi Hj [[Hn Ho] Hs Hd]. set (k := (80 * i + j)%nat) in *. replace (80 * i + S j)%nat with (S k) by lia.
  assert (Hloc : SCREEN_LOC (Z.of_nat j) (Z.of_nat i) = Z.of_nat k) by (unfold SCREEN_LOC, SCREEN_WIDTH; lia).
  unfold blank_cell. rewrite wp_bind, wp_get. cbv zeta. rewrite Hloc.
  pose proof (arr_set_Some (new_screen s) (Z.of_nat k) 32 ltac:(lia)) as H1.
  pose proof (arr_set_Some (old_screen s) (Z.of_nat k) 32 ltac:(lia)) as H2. rewrite Nat2Z.id in H1, H2.
  rewrite wp_bind, (wp_of_opt_Some _ _ _ _ H1), wp_bind, (wp_of_opt_Some _ _ _ _ H2), wp_bind, !wp_modify.
  split; cbn [new_screen old_screen serial set_new set_old]; [by rewrite !length_insert|done|].
  intros p Hp. destruct (decide (p = k)) as [->|]; [by rewrite !list_lookup_insert_eq by lia|].
  rewrite !list_lookup_insert_ne by done. apply Hd. lia.
Qed.

Lemma blank_cells_ok s0 : length (new_screen s0) = 4000%nat → length (old_screen s0) = 4000%nat →
  wp (for_ 0 50 (λ i, for_ 0 80 (blank_cell i))) s0 (λ _, blanking s0 4000).
Proof.
  intros Hn Ho. apply (wp_for (λ i, blanking s0 (80 * i)) 0 50).
  - split; [done|done|]. intros p. lia.
  - intros i s Hi HI. apply (wp_mono _ _ (λ _, blanking s0 (80 * i + (0 + 80)))).
    + apply (wp_for (λ j, blanking s0 (80 * i + j)) 0 80).
      * by rewrite Nat.add_0_r.
      * intros j s' Hj. apply blank_cell_ok; lia.
    + intros _ s' HI'. by replace (80 * S i)%nat with (80 * i + (0 + 80))%nat by lia.
Qed.

(** After [screen_clear] the terminal shows blanks, and the cursor is in the
    corner; it needs nothing of what the two buffers held before. *)
Lemma screen_clear_spec s :
  tm_ground (serial s) → length (new_screen s) = 4000%nat → length (old_screen s) = 4000%nat →
  wp screen_clear s (λ _ s', displayed s' ∧ new_screen s' = replicate 4000 32 ∧ cursor_x s' = 0 ∧ cursor_y s' = 0).
Proof.
  intros Hg Hn Ho. unfold screen_clear. destruct (tm_clear _ Hg) as [Hg' Hc].
  rewrite wp_bind, (wp_ok _ _ _ _ _ (clear_ok s)), wp_bind.
  change (Z.to_nat SCREEN_HEIGHT) with 50%nat. change (Z.to_nat SCREEN_WIDTH) with 80%nat.
  eapply wp_mono; [by apply blank_cells_ok|]. intros _ s1 [[Hn1 Ho1] Hs1 Hd].
  rewrite wp_bind, wp_modify, wp_bind, wp_modify. cbn [serial send] in Hs1.
  assert (Heq : ∀ l, length l = 4000%nat → (∀ p, (p < 4000)%nat → l !! p = Some 32) → l = replicate 4000 32).
  { intros l Hl Hp. apply list_eq. intros p. destruct (decide (p < 4000)%nat) as [Hlt|].
    - by rewrite Hp, lookup_replicate_2 by done.
    - rewrite !lookup_ge_None_2; [done|rewrite length_replicate; lia|lia]. }
  assert (En : new_screen s1 = replicate 4000 32) by (apply Heq; [done|]; intros p Hp; by apply Hd).
  assert (Eo : old_screen s1 = replicate 4000 32) by (apply Heq; [done|]; intros p Hp; by apply Hd).
  eapply wp_mono; [apply screen_reflush_spec|].
  - split; cbn [new_screen old_screen serial set_cx set_cy]; rewrite ?Hs1; try done.
    + rewrite En. apply Forall_replicate. done.
    + intros x y Hxy. rewrite Eo, lookup_replicate_2, Hc; [done|done|].
      unfold on_screen, SCREEN_LOC, SCREEN_WIDTH, SCREEN_HEIGHT in *. lia.
  - done.
  - intros _ s2 (Hdi & Hn2 & Hx2 & Hy2). cbn [new_screen cursor_x cursor_y set_cx set_cy] in *. by rewrite Hn2.
Qed.

Lemma init_screen_spec s :
  tm_ground (serial s) → length (new_screen s) = 4000%nat → length (old_screen s) = 4000%nat →
  wp init_screen s (λ _ s', displayed s' ∧ new_screen s' = replicate 4000 32 ∧ cursor_x s' = 0 ∧ cursor_y s' = 0).
Proof.
  intros Hg Hn Ho. unfold init_screen. rewrite wp_bind, (wp_ok _ _ _ _ _ (hide_ok s)), wp_bind, (wp_ok _ _ _ _ _ (clear_ok _)).
  apply screen_clear_spec; [|done|done]. apply tm_clear. by apply tm_hide.
Qed.

(** A text is written and shown. *)
Lemma write_flush_ok txt r (ret : Z) s :
  screen_ok s → on_screen (cursor_x s) (cursor_y s) → Forall text_char txt →
  let fin := foldl paint (new_screen s, place s) txt in
  fin.2 < 4000 →
  wp (screen_write (txt ++ 0 :: r);; screen_reflush;; mret ret) s (λ n s', n = ret ∧ displayed s' ∧
    new_screen s' = fin.1 ∧ place s' = fin.2).
Proof.
  intros Hok Hon Ht fin Hfin. rewrite wp_bind.
  eapply wp_mono; [apply screen_write_ok; [done|done|by apply so_new|done]|].
  intros _ s1 [[Hp [Hx Hy] [Ho Hs]] Hl]. fold fin in Hp. rewrite wp_bind.
  pose proof (f_equal fst Hp) as Hp1. pose proof (f_equal snd Hp) as Hp2. cbn [fst snd] in Hp1, Hp2.
  eapply wp_mono; [apply screen_reflush_spec|].
  - destruct Hok as [Hn Ho' Htx Hg Hsh]. split; rewrite ?Ho, ?Hs; try done. rewrite Hp1. by apply paint_printable.
  - unfold place, SCREEN_LOC, on_screen, SCREEN_WIDTH, SCREEN_HEIGHT in *. lia.
  - intros _ s2 (Hd & Hn2 & Hx2 & Hy2). rewrite wp_ret. split; [done|]. split; [done|].
    rewrite Hn2. split; [done|]. unfold place. rewrite Hx2, Hy2. exact Hp2.
Qed.

(** C38: printk of a format puts its text on the terminal: when the text, cut to
    255 characters, is printable characters and newlines and ends before the
    last cell, it is in the cells from the cursor on, the other cells are as
    they were, and the terminal shows exactly that, with its cursor behind the
    text. *)
Theorem printk_shows f va out s :
  screen_ok s → on_screen (cursor_x s) (cursor_y s) →
  formats fuel m f va out → string_ok f → Forall text_char (take 255 out) →
  let fin := foldl paint (new_screen s, place s) (take 255 out) in
  fin.2 < 4000 →
  wp (printk f va) s (λ n s', n = Z.of_nat (length (take 255 out)) ∧ displayed s' ∧
    new_screen s' = fin.1 ∧ place s' = fin.2).
Proof.
  intros Hok Hon Hf Hsf Ht fin Hfin. unfold printk.
  pose proof (vprint_ok fuel m bf0 buff0 f va out Hf Hsf Hbf Hbuff) as He. cbv zeta in He.
  rewrite wp_bind, (wp_of_opt_Some _ _ _ _ He). cbn [fst snd].
  by apply write_flush_ok.
Qed.
End Screen.

(** ** A terminal *)

Inductive vt_mode := Ground | Escape | Control (ps : list Z) (n : Z).
Record vt := mk_vt { vt_cells : Z → Z → Z; vt_cursor : Z * Z; vt_state : vt_mode }.

Definition vt_char (t : vt) (c : Z) : vt :=
  match vt_state t with
  | Ground =>
      if c =? 27 then mk_vt (vt_cells t) (vt_cursor t) Escape
      else if (32 <=? c) && (c <? 127) then
        mk_vt (λ x y, if decide ((x, y) = vt_cursor t) then c else vt_cells t x y)
          ((vt_cursor t).1 + 1, (vt_cursor t).2) Ground
      else t
  | Escape => mk_vt (vt_cells t) (vt_cursor t) (if c =? 91 then Control [] 0 else Ground)
  | Control ps n =>
      if (48 <=? c) && (c <=? 57) then mk_vt (vt_cells t) (vt_cursor t) (Control ps (10 * n + (c - 48)))
      else if c =? 59 then mk_vt (vt_cells t) (vt_cursor t) (Control (ps ++ [n]) 0)
      else if c =? 63 then mk_vt (vt_cells t) (vt_cursor t) (Control ps n)
      else if c =? 72 then mk_vt (vt_cells t) (n - 1, default 1 (head ps) - 1) Ground
      else if c =? 74 then mk_vt (λ _ _, 32) (vt_cursor t) Ground
      else mk_vt (vt_cells t) (vt_cursor t) Ground
  end.

#[export] Instance vt_terminal : Terminal vt := {
  bios_putchar := vt_char;
  bios_putstr t s := foldl vt_char t s;
  tm_cell := vt_cells;
  tm_cursor := vt_cursor;
  tm_ground t := vt_state t = Ground
}.

Lemma vt_digits ds f cur ps n :
  Forall (λ c, 48 ≤ c ≤ 57) ds →
  foldl vt_char (mk_vt f cur (Control ps n)) ds = mk_vt f cur (Control ps (foldl (λ a c, 10 * a + (c - 48)) n ds)).
Proof.
  intros Hd. revert n. induction Hd as [|c ds Hc _ IH]; intros n; [done|]. simpl. unfold vt_char at 2.
  cbn [vt_state vt_cells vt_cursor]. replace ((48 <=? c) && (c <=? 57)) with true by lia. apply IH.
Qed.

#[export] Instance vt_laws : TerminalLaws vt.
Proof.
  split; cbn [bios_putchar bios_putstr tm_cell tm_cursor tm_ground vt_terminal].
  - intros [f cur ?] dx dy x y [= ->] _ (_ & Hdx & Hx) (_ & Hdy & Hy).
    assert (He : foldl vt_char (mk_vt f cur Ground) ([27; 91] ++ dy ++ [59] ++ dx ++ [72]) = mk_vt f (x, y) Ground).
    { rewrite foldl_app. change (foldl vt_char (mk_vt f cur Ground) [27; 91]) with (mk_vt f cur (Control [] 0)).
      rewrite foldl_app, vt_digits, Hy by done. change ([59] ++ dx ++ [72]) with (59 :: dx ++ [72]). cbn [foldl].
      change (vt_char (mk_vt f cur (Control [] (y + 1))) 59) with (mk_vt f cur (Control [y + 1] 0)).
      rewrite foldl_app, vt_digits, Hx by done.
      change (mk_vt f (x + 1 - 1, y + 1 - 1) Ground = mk_vt f (x, y) Ground). do 2 f_equal; lia. }
    cbv zeta. rewrite He. done.
  - intros [f cur ?] c x y [= ->] [= ->] _ [Hc1 Hc2]. unfold vt_char. cbn [vt_state vt_cells vt_cursor].
    replace (c =? 27) with false by lia. replace ((32 <=? c) && (c <? 127)) with true by lia.
    cbn [vt_state vt_cells vt_cursor]. split; [done|]. split; [by rewrite decide_True|]. intros i j Hij. by rewrite decide_False.
  - intros [f cur ?] [= ->]. done.
  - intros [f cur ?] [= ->]. done.
Qed.

(** A cleared screen with the cursor in the middle. *)
Definition ex_vt : vt := mk_vt (λ _ _, 32) (0, 0) Ground.
Definition ex_screen (x y : Z) : screen_state := mk_screen (replicate 4000 32) (replicate 4000 32) ex_vt x y.

Lemma printk_shows_witness :
  wp (printk 10 (λ _, 0) (replicate 24 0) (replicate 256 0) [97; 37; 51; 100; 37; 99] [Num (-7); Num 66]) (ex_screen 78 3)
    (λ n s', n = 6 ∧ displayed s' ∧
      new_screen s' = foldl (λ l w, <[w.1 := w.2]> l) (replicate 4000 32) [(318%nat, 97); (319%nat, 45); (320%nat, 32); (321%nat, 32); (322%nat, 55); (323%nat, 66)] ∧
      place s' = 324).
Proof.
  apply (printk_shows 10 (λ _, 0) (replicate 24 0) (replicate 256 0) eq_refl eq_refl [97; 37; 51; 100; 37; 99] [Num (-7); Num 66]
    ([97] ++ [45; 32; 32; 55] ++ [66]) (ex_screen 78 3)).
  - split; [by rewrite <- (length_replicate 4000 32)..| |done|].
    + apply Forall_replicate. done.
    + intros x y Hxy. apply lookup_replicate_2. unfold on_screen, SCREEN_LOC, SCREEN_WIDTH, SCREEN_HEIGHT in *. lia.
  - done.
  - apply formats_example.
  - repeat constructor; lia.
  - unfold text_char, printable. apply (bool_decide_unpack _). by vm_compute.
  - by vm_compute.
Defined.

(** Fifty newlines put the cursor below the last line, and the next character
    is stored outside of [new_screen]. *)
Example below_the_screen :
  (for_ 0 50 (λ _, screen_write_ch 10);; screen_write_ch 97) (ex_screen 0 0) = Stuck.
Proof. by vm_compute. Qed.

(** A backspace in the first column leaves the cursor at -1. *)
Example backspace_column_zero :
  match screen_write_ch 8 (ex_screen 0 3) with Ok _ s => cursor_x s = -1 | _ => False end.
Proof. by vm_compute. Qed.
