(* ===== verification/Printf.v ===== *)
(** tiny_libc/printf.c: the formatted output of the user programs. It differs
    from the kernel's (Printk) in the numbers it can print and in the widths; the
    output buffer is the same code, and so is strlen. *)
From S2P Require Import Prelude KMonad CString Screen.
From S2P Require Printk.
Import Printk (mini_buff, mk_buff, buffer, pbuffer, buffer_len, _putc, put, put_nul, digit_char, store_chars, reverse_loop,
  ITOA_FUEL, PRINT_BUFFER, va_arg, Num, Str, next_char, is_digit, next_num, next_str, directive, mk_dir, n_pad, longflag, conv, rest,
  pr_vars, mk_pv, fmt, va, bf, itoa_text, holding, fit).

(** ** mini_itoa *)

(** The digits from the last one on; division is that of signed numbers. *)
Fixpoint itoa_digits (fuel : nat) (value radix : Z) (uppercase : bool) (buffer : list Z) (p : Z) : option (list Z * Z) :=
  match fuel with
  | O => None
  | S fuel' =>
      let digit := Z.rem value radix in
      buffer ← arr_set buffer p (digit_char uppercase digit);
      let value := Z.quot value radix in
      if 0 <? value then itoa_digits fuel' value radix uppercase buffer (p + 1)
      else Some (buffer, p + 1)
  end.

Definition mini_itoa (value radix : Z) (uppercase unsig : bool) (buffer : list Z) (zero_pad : Z) : option (Z * list Z) :=
  if 16 <? radix then Some (0, buffer) else
  let negative := (value <? 0) && negb unsig in
  let value := if negative then s64 (- value) else value in
  d ← itoa_digits ITOA_FUEL value radix uppercase buffer 0;
  let '(buffer, p) := d in
  let n := Z.to_nat (zero_pad - p) in
  buffer ← store_chars buffer p n 48;
  let p := p + Z.of_nat n in
  buffer ← (if negative then arr_set buffer p 45 else Some buffer);
  let p := if negative then p + 1 else p in
  buffer ← arr_set buffer p 0;
  buffer ← reverse_loop (Z.to_nat (p / 2)) 0 p buffer;
  Some (p, buffer).

Definition _puts (s : Z → option Z) (len : Z) : M mini_buff Z :=
  b ← get;
  let room := buffer_len b - pbuffer b - 1 in
  let len := if room <? len then room else len in
  for_ 0 (Z.to_nat len) (λ i, c ← of_opt (s (Z.of_nat i)); put c);;
  put_nul;;
  mret len.

(** ** mini_vsnprintf *)

(** The digits behind a 0: the width, a char, the character that ended it and
    the rest of the format. *)
Fixpoint width_loop (fmt : list Z) (zero_pad : Z) : Z * Z * list Z :=
  match fmt with
  | [] => (zero_pad, 0, [])
  | ch :: r => if is_digit ch then width_loop r (u8 (zero_pad * 10 + ch - 48)) else (zero_pad, ch, r)
  end.

(** What follows a percent sign, up to the [switch]; numbers are padded with 0. *)
Definition read_directive (fmt : list Z) : directive :=
  let '(ch, r) := next_char fmt in
  let '(zero_pad, ch, r) := if ch =? 48 then width_loop r 0 else (0, ch, r) in
  if ch =? 108 then let '(ch, r) := next_char r in mk_dir zero_pad 48 true ch r
  else mk_dir zero_pad 48 false ch r.

Definition put_number (value radix : Z) (uppercase unsig : bool) (d : directive) (bf : list Z) : M mini_buff (list Z) :=
  r ← of_opt (mini_itoa value radix uppercase unsig bf (n_pad d));
  _puts (arr_get r.2) r.1;;
  mret r.2.

Definition convert (fuel : nat) (m : bmem) (d : directive) (va : list va_arg) (bf : list Z) : M mini_buff (pr_vars + unit) :=
  let ch := conv d in
  if ch =? 0 then mret (inr ())
  else if ch =? 108 then mret (inl (mk_pv (rest d) va bf))
  else if ch =? 117 then
    a ← of_opt (next_num va);
    bf ← put_number (s64 (if longflag d then u64 a.1 else u32 a.1)) 10 false true d bf;
    mret (inl (mk_pv (rest d) a.2 bf))
  else if ch =? 100 then
    a ← of_opt (next_num va);
    bf ← put_number (if longflag d then s64 a.1 else s32 a.1) 10 false false d bf;
    mret (inl (mk_pv (rest d) a.2 bf))
  else if (ch =? 120) || (ch =? 88) then
    a ← of_opt (next_num va);
    bf ← put_number (s64 (if longflag d then u64 a.1 else u32 a.1)) 16 (ch =? 88) true d bf;
    mret (inl (mk_pv (rest d) a.2 bf))
  else if ch =? 99 then
    a ← of_opt (next_num va);
    _putc (u8 a.1);;
    mret (inl (mk_pv (rest d) a.2 bf))
  else if ch =? 115 then
    a ← of_opt (next_str va);
    len ← of_opt (strlen fuel m a.1);
    _puts (λ i, Some (m (a.1 + i))) len;;
    mret (inl (mk_pv (rest d) a.2 bf))
  else _putc ch;; mret (inl (mk_pv (rest d) va bf)).

Definition vsn_step (fuel : nat) (m : bmem) (l : pr_vars) : M mini_buff (pr_vars + unit) :=
  let '(ch, r) := next_char (fmt l) in
  if ch =? 0 then mret (inr ()) else
  b ← get;
  if buffer_len b <=? u32 (pbuffer b + 1) then mret (inr ()) else
  if negb (ch =? 37) then _putc ch;; mret (inl (mk_pv r (va l) (bf l)))
  else convert fuel m (read_directive r) (va l) (bf l).

Definition mini_vsnprintf (fuel : nat) (m : bmem) (bf0 : list Z) (fmt : list Z) (va : list va_arg) : M mini_buff Z :=
  while_ (S (length fmt)) (vsn_step fuel m) (mk_pv fmt va bf0);;
  gets pbuffer.

(** The text that [vprintf] hands to the kernel, and its result. *)
Definition vprintf_text (fuel : nat) (m : bmem) (bf0 buff0 : list Z) (fmt : list Z) (va : list va_arg) : option (Z * list Z) :=
  match mini_vsnprintf fuel m bf0 fmt va (mk_buff buff0 0 PRINT_BUFFER) with
  | Ok ret b => buff ← arr_set (buffer b) ret 0; Some (ret, buff)
  | _ => None
  end.

(** [vprintf] over the kernel's side of [sys_screen_write] and [sys_reflush];
    [kbf] and [kbuff] are the kernel's arrays. *)
Section Printf.
Context {T : Type} `{!Terminal T}.
Context (fuel : nat) (m : bmem) (bf0 buff0 kbf kbuff : list Z).

Definition vprintf (fmt : list Z) (va : list va_arg) : M (screen_state (T := T)) Z :=
  r ← of_opt (vprintf_text fuel m bf0 buff0 fmt va);
  screen_write r.2;;
  screen_reflush fuel m kbf kbuff;;
  mret r.1.
End Printf.

(** ** Numbers *)

Lemma itoa_digits_same fuel value radix uppercase buffer p : 0 ≤ value → 0 < radix →
  itoa_digits fuel value radix uppercase buffer p = Printk.itoa_digits fuel value radix uppercase false buffer p.
Proof.
  intros Hv Hr. revert value buffer p Hv. induction fuel as [|fuel IH]; intros value buffer p Hv; [done|].
  cbn [itoa_digits Printk.itoa_digits]. destruct (arr_set _ _ _) as [b|]; [|done]. cbn [mbind option_bind].
  pose proof (Z.quot_pos value radix Hv Hr). destruct (Z.ltb_spec 0 (Z.quot value radix)), (Z.eqb_spec (Z.quot value radix) 0); try lia; [|done].
  by apply IH.
Qed.

(** Where the numbers of the user programs agree with the kernel's. *)
Lemma mini_itoa_same value radix uppercase (unsig : bool) buffer n :
  0 < radix → - 2 ^ 63 < value < 2 ^ 63 → (unsig = true → 0 ≤ value) →
  mini_itoa value radix uppercase unsig buffer n = Printk.mini_itoa value radix uppercase false buffer n 48.
Proof.
  intros Hr Hv Hu. unfold mini_itoa, Printk.mini_itoa. destruct (16 <? radix); [done|].
  assert ((value <? 0) && negb unsig = (value <? 0) && negb false) as ->.
  { destruct unsig; [|done]. specialize (Hu eq_refl). by replace (value <? 0) with false by lia. }
  cbv zeta. rewrite itoa_digits_same; [done| |done].
  destruct (Z.ltb_spec value 0); simpl; [rewrite s64_id; lia|done].
Qed.

(** An unsigned number of 64 bits with its top bit set is printed as one character. *)
Theorem mini_itoa_top_bit value radix uppercase buffer :
  value < 0 → 2 ≤ radix ≤ 16 → (2 ≤ length buffer)%nat →
  mini_itoa value radix uppercase true buffer 0 = Some (1, digit_char uppercase (Z.rem value radix) :: 0 :: drop 2 buffer).
Proof.
  intros Hv Hr Hb. destruct buffer as [|a [|b buffer]]; simpl in Hb; try lia.
  unfold mini_itoa. destruct (Z.ltb_spec 16 radix); [lia|]. rewrite andb_false_r. cbv zeta.
  change ITOA_FUEL with (S 63). cbn [itoa_digits]. change (arr_set (a :: b :: buffer) 0 ?x) with (Some (x :: b :: buffer)).
  cbn [mbind option_bind]. assert (Z.quot value radix ≤ 0) as Hq.
  { pose proof (Z.quot_opp_l value radix ltac:(lia)). pose proof (Z.quot_pos (- value) radix ltac:(lia) ltac:(lia)). lia. }
  destruct (Z.ltb_spec 0 (Z.quot value radix)); [lia|]. set (c := digit_char _ _).
  assert (arr_set (c :: b :: buffer) 1 0 = Some (c :: 0 :: buffer)) as Hs by by apply (Printk.arr_set_app [c]).
  cbn [mbind option_bind]. change (0 + 1) with 1. change (Z.to_nat (0 - 1)) with 0%nat.
  cbn [store_chars mbind option_bind]. change (1 + Z.of_nat 0) with 1. rewrite Hs. reflexivity.
Qed.

Lemma puts_same s len : _puts s len = Printk._puts (Some s) len.
Proof. done. Qed.

Lemma put_number_same value radix uppercase (unsig : bool) d bf :
  0 < radix → - 2 ^ 63 < value < 2 ^ 63 → (unsig = true → 0 ≤ value) → Printk.c_pad d = 48 →
  put_number value radix uppercase unsig d bf = Printk.put_number value radix uppercase false d bf.
Proof.
  intros Hr Hv Hu Hc. unfold put_number, Printk.put_number. by rewrite mini_itoa_same, Hc.
Qed.

(** ** What a format means *)

Inductive piece (fuel : nat) (m : bmem) (d : directive) : list va_arg → list Z → list va_arg → Prop :=
| up_l va : conv d = 108 → piece fuel m d va [] va
| up_u a v va : conv d = 117 → n_pad d ≤ 22 → v = (if longflag d then u64 a else u32 a) → v < 2 ^ 63 →
    piece fuel m d (Num a :: va) (itoa_text v 10 false false (n_pad d) 48) va
| up_d a v va : conv d = 100 → n_pad d ≤ 22 → v = (if longflag d then s64 a else s32 a) → v ≠ - 2 ^ 63 →
    piece fuel m d (Num a :: va) (itoa_text v 10 false false (n_pad d) 48) va
| up_x a v va : conv d = 120 ∨ conv d = 88 → n_pad d ≤ 22 → v = (if longflag d then u64 a else u32 a) → v < 2 ^ 63 →
    piece fuel m d (Num a :: va) (itoa_text v 16 (conv d =? 88) false (n_pad d) 48) va
| up_c a va : conv d = 99 → piece fuel m d (Num a :: va) [u8 a] va
| up_s p s va : conv d = 115 → cstr m p s → (length s < fuel)%nat → piece fuel m d (Str p :: va) s va
| up_other va : conv d ∉ [0; 108; 117; 100; 120; 88; 99; 115] → piece fuel m d va [conv d] va.

Inductive formats (fuel : nat) (m : bmem) : list Z → list va_arg → list Z → Prop :=
| formats_end va : formats fuel m [] va []
| formats_char c r va out :
    c ≠ 37 → formats fuel m r va out → formats fuel m (c :: r) va (c :: out)
| formats_conv r va txt va' out :
    piece fuel m (read_directive r) va txt va' →
    formats fuel m (rest (read_directive r)) va' out →
    formats fuel m (37 :: r) va (txt ++ out)
| formats_stop r va : conv (read_directive r) = 0 → formats fuel m (37 :: r) va [].

Lemma user_width_loop_ok f zp : string_ok f → let '(_, c, r) := width_loop f zp in
  0 ≤ c < 256 ∧ string_ok r ∧ (length r ≤ length f)%nat.
Proof.
  intros Hf. revert zp. induction Hf as [|c r Hc Hr IH]; intros zp; cbn [width_loop].
  - split; [lia|]. split; [constructor|done].
  - destruct (is_digit c).
    + specialize (IH (u8 (zp * 10 + c - 48))). destruct (width_loop r _) as [[? ?] ?].
      destruct IH as (? & ? & ?). split; [done|]. split; [done|]. simpl. lia.
    + split; [lia|]. split; [done|]. simpl. lia.
Qed.

Lemma user_read_directive_ok f : string_ok f →
  0 ≤ conv (read_directive f) < 256 ∧ Printk.c_pad (read_directive f) = 48 ∧
  string_ok (rest (read_directive f)) ∧ (length (rest (read_directive f)) ≤ length f)%nat.
Proof.
  intros Hf. unfold read_directive. pose proof (Printk.next_char_ok f Hf) as Hn. destruct (next_char f) as [c r].
  destruct Hn as (Hc & Hr & Hl).
  assert (∀ (zp c : Z) r, 0 ≤ c < 256 ∧ string_ok r ∧ (length r ≤ length f)%nat →
    let d := if c =? 108 then let '(ch, r) := next_char r in mk_dir zp 48 true ch r else mk_dir zp 48 false c r in
    0 ≤ conv d < 256 ∧ Printk.c_pad d = 48 ∧ string_ok (rest d) ∧ (length (rest d) ≤ length f)%nat) as Hw.
  { intros zp c' r' (H1 & H2 & H3). destruct (c' =? 108); [|done].
    pose proof (Printk.next_char_ok r' H2) as Hn'. destruct (next_char r') as [c'' r'']. cbn.
    destruct Hn' as (? & ? & ?). repeat (split; [done|]). lia. }
  destruct (c =? 48); [|by apply Hw].
  pose proof (user_width_loop_ok r 0 Hr) as Hd. destruct (width_loop r 0) as [[zp c'] r']. apply Hw.
  destruct Hd as (? & ? & ?). split; [done|]. split; [done|lia].
Qed.

Section Formats.
Context (L : nat) (buff0 : list Z).
Context (HL : (0 < L)%nat) (Hlen : length buff0 = L) (HL32 : Z.of_nat L < 2 ^ 31).
Context (fuel : nat) (m : bmem).
#[local] Notation holds out x := (holding L buff0 (fit L out) x).

Lemma user_put_number_ok value v radix uppercase (unsig : bool) d bf out x :
  value = s64 v → - 2 ^ 63 < v < 2 ^ 63 → (unsig = true → 0 ≤ v) → 10 ≤ radix ≤ 16 →
  n_pad d ≤ 22 → Printk.c_pad d = 48 → length bf = 24%nat →
  ∃ bf', length bf' = 24%nat ∧ put_number value radix uppercase unsig d bf (holds out x)
    = Ok bf' (holds (out ++ itoa_text v radix uppercase false (n_pad d) 48) 0).
Proof.
  intros -> Hv Hu Hr Hn Hc Hb. rewrite s64_id by lia. rewrite put_number_same by (done || lia). rewrite <- Hc.
  apply Printk.put_number_ok; try done; [lia| |rewrite Hc]; lia.
Qed.

Ltac conv_is H := rewrite ?H; cbn [Z.eqb Pos.eqb orb].

Lemma user_convert_ok d va txt va' bf out x :
  piece fuel m d va txt va' → 0 ≤ conv d < 256 → Printk.c_pad d = 48 → length bf = 24%nat →
  ∃ bf' y, length bf' = 24%nat ∧
    convert fuel m d va bf (holds out x) = Ok (inl (mk_pv (rest d) va' bf')) (holds (out ++ txt) y).
Proof.
  intros Hp Hcv Hcp Hbf. unfold convert.
  destruct Hp as [va Hc|a v va Hc Hn Hv Hmin|a v va Hc Hn Hv Hmin|a v va Hc Hn Hv Hmin|a va Hc|p s va Hc Hs Hf|va Hc].
  - conv_is Hc. exists bf, x. by rewrite app_nil_r.
  - conv_is Hc. cbn [next_num]; rewrite (bind_opt _ _ _ _ eq_refl). cbn [fst snd]. rewrite <- Hv.
    assert (0 ≤ v) by (subst v; destruct (longflag d); [apply u64_range|apply u32_range]).
    destruct (user_put_number_ok (s64 v) v 10 false true d bf out x eq_refl) as (bf' & Hb & He); try done; [lia..|].
    rewrite (bind_ok _ _ _ _ _ He). by exists bf', 0.
  - conv_is Hc. cbn [next_num]; rewrite (bind_opt _ _ _ _ eq_refl). cbn [fst snd]. rewrite <- Hv.
    assert (- 2 ^ 63 ≤ v < 2 ^ 63).
    { subst v. destruct (longflag d); [apply Printk.s64_range|]. unfold s32. pose proof (Z.mod_pos_bound (a + 2 ^ 31) (2 ^ 32)). lia. }
    destruct (user_put_number_ok v v 10 false false d bf out x) as (bf' & Hb & He); try done; [by rewrite s64_id by lia|lia..|].
    rewrite (bind_ok _ _ _ _ _ He). by exists bf', 0.
  - assert (0 ≤ v) by (subst v; destruct (longflag d); [apply u64_range|apply u32_range]).
    destruct (user_put_number_ok (s64 v) v 16 (conv d =? 88) true d bf out x eq_refl) as (bf' & Hb & He); try done; [lia..|].
    exists bf', 0. split; [done|].
    destruct Hc as [Hc|Hc]; conv_is Hc; cbn [next_num]; rewrite (bind_opt _ _ _ _ eq_refl); cbn [fst snd];
      rewrite Hc in He; cbn [Z.eqb Pos.eqb] in He; rewrite <- Hv; by rewrite (bind_ok _ _ _ _ _ He).
  - conv_is Hc. cbn [next_num]; rewrite (bind_opt _ _ _ _ eq_refl). cbn [fst snd].
    destruct (Printk.putc_ok L buff0 HL Hlen HL32 out x (u8 a)) as (r & y & He); [apply u8_range|].
    rewrite (bind_ok _ _ _ _ _ He). by exists bf, y.
  - conv_is Hc. cbn [next_str]; rewrite (bind_opt _ _ _ _ eq_refl). cbn [fst snd].
    rewrite (bind_opt _ _ _ _ (strlen_ok m p s fuel Hs Hf)). destruct Hs as [Hb Hs]. rewrite puts_same.
    destruct (Printk.puts_ok L buff0 HL Hlen (Some (λ i, Some (m (p + i)))) s out x) as [r He].
    { eapply Forall_impl; [exact Hs|]. intros c ?. cbv beta in *. lia. }
    { intros i c Hi. f_equal. rewrite bytes_at_lookup in Hb. apply Hb. by apply lookup_app_l_Some. }
    rewrite (bind_ok _ _ _ _ _ He). by exists bf, 0.
  - rewrite !not_elem_of_cons in Hc. destruct Hc as (H0 & H1 & H2 & H3 & H4 & H5 & H6 & H7 & _).
    repeat match goal with |- context[conv d =? ?k] => destruct (Z.eqb_spec (conv d) k); [done|] end. cbn [orb].
    destruct (Printk.putc_ok L buff0 HL Hlen HL32 out x (conv d)) as (r & y & He); [done|].
    rewrite (bind_ok _ _ _ _ _ He). by exists bf, y.
Qed.

Lemma user_vsn_loop_ok f va out : formats fuel m f va out → string_ok f →
  ∀ n bf out0 x, (length f < n)%nat → length bf = 24%nat →
  ∃ y, while_ n (vsn_step fuel m) (mk_pv f va bf) (holds out0 x) = Ok () (holds (out0 ++ out) y).
Proof.
  induction 1 as [va|c r va out Hc Hfm IH|r va txt va' out Hp Hfm IH|r va Hc];
    intros Hok [|n] bf out0 x Hn Hbf; try (simpl in Hn; lia); rewrite while_eq; unfold vsn_step at 1; cbn [fmt Printk.va Printk.bf next_char];
    [exists x; by rewrite app_nil_r|..]; apply Forall_cons_1 in Hok as [Hc0 Hr]; simpl in Hn;
    [destruct (Z.eqb_spec c 0); [lia|]|cbn [Z.eqb Pos.eqb]..];
    (rewrite bind_get, Printk.room_test by done; case_bool_decide as E; [exists x; by rewrite (Printk.fit_full L buff0)|]).
  - destruct (Z.eqb_spec c 37); [done|]. cbn [negb].
    destruct (Printk.putc_ok L buff0 HL Hlen HL32 out0 x c) as (r' & y & He); [lia|].
    rewrite (bind_ok _ _ _ _ _ He). unfold mret, M_ret. cbv beta iota. cbn [next_char fst snd].
    destruct (IH Hr n bf (out0 ++ [c]) y) as [z Hz]; [lia|done|]. exists z. rewrite Hz. by rewrite <- app_assoc.
  - cbn [negb]. destruct (user_read_directive_ok r Hr) as (Hcv & Hcp & Hrest & Hlr).
    destruct (user_convert_ok _ _ _ _ bf out0 x Hp Hcv Hcp Hbf) as (bf' & y & Hb' & He). rewrite He.
    destruct (IH Hrest n bf' (out0 ++ txt) y) as [z Hz]; [lia|done|]. exists z. rewrite Hz. by rewrite <- app_assoc.
  - cbn [negb]. unfold convert. rewrite Hc. exists x. by rewrite app_nil_r.
Qed.
End Formats.

(** The text of a format, cut to the 255 characters that fit. *)
Lemma vprintf_text_ok fuel m bf0 buff0 f va out :
  formats fuel m f va out → string_ok f → length bf0 = 24%nat → length buff0 = 256%nat →
  let ret := length (take 255 out) in
  vprintf_text fuel m bf0 buff0 f va = Some (Z.of_nat ret, take 255 out ++ 0 :: drop (S ret) buff0).
Proof.
  intros Hf Hok Hbf Hb ret. unfold vprintf_text, mini_vsnprintf, PRINT_BUFFER.
  destruct buff0 as [|x b0] eqn:E; [done|]. rewrite <- E in *.
  replace (mk_buff buff0 0 256) with (holding 256 buff0 (fit 256 []) x) by (by rewrite E).
  destruct (user_vsn_loop_ok 256 buff0 ltac:(lia) Hb ltac:(lia) fuel m f va out Hf Hok (S (length f)) bf0 [] x)
    as [y Hy]; [lia|done|].
  rewrite (bind_ok _ _ _ _ _ Hy). unfold gets. cbn [app].
  change (fit 256 out) with (take 255 out). unfold holding. cbn [pbuffer buffer]. fold ret.
  by rewrite Printk.arr_set_app by done.
Qed.


(** [%05d] of -42 behind an [a]. *)
Lemma user_formats_example : formats 10 (λ _, 0) [97; 37; 48; 53; 100] [Num (-42)] ([97] ++ [45; 48; 48; 48; 52; 50]).
Proof.
  apply formats_char; [done|].
  apply (formats_conv 10 (λ _, 0) [48; 53; 100] [Num (-42)] [45; 48; 48; 48; 52; 50] [] []); [|apply formats_end].
  pose proof (up_d 10 (λ _, 0) (read_directive [48; 53; 100]) (-42) (-42) [] eq_refl) as H.
  vm_compute (itoa_text _ _ _ _ _ _) in H. apply H; vm_compute; done.
Qed.


(** The address of the kernel's first page in hexadecimal. *)
Example long_hex : (λ r, take 2 r.2) <$> mini_itoa (s64 0xffffffc050000000) 16 false true (replicate 24 0) 0 = Some [48; 0].
Proof. by vm_compute. Qed.
