(* ===== verification/E1000.v ===== *)
(** drivers/e1000.c and drivers/e1000.h: the rings of the network card.

    The registers are a map from their offsets; what the card does with them,
    with the descriptors and with the buffers is no code of the repository: a
    step relation of the card is a parameter of the section [Wire], with the
    behaviour its manual documents as hypothesis. The cache flushes and the
    fixed delay have no effect on the state. *)
From S2P Require Import Prelude KMonad Pgtable.

Definition E1000_ICR : Z := 0xC0.
Definition E1000_IMS : Z := 0xD0.
Definition E1000_IMC : Z := 0xD8.
Definition E1000_RCTL : Z := 0x100.
Definition E1000_TCTL : Z := 0x400.
Definition E1000_RDBAL : Z := 0x2800.
Definition E1000_RDBAH : Z := 0x2804.
Definition E1000_RDLEN : Z := 0x2808.
Definition E1000_RDH : Z := 0x2810.
Definition E1000_RDT : Z := 0x2818.
Definition E1000_TDBAL : Z := 0x3800.
Definition E1000_TDBAH : Z := 0x3804.
Definition E1000_TDLEN : Z := 0x3808.
Definition E1000_TDH : Z := 0x3810.
Definition E1000_TDT : Z := 0x3818.
Definition E1000_RA : Z := 0x5400.

Definition E1000_RCTL_EN : Z := 0x2.
Definition E1000_RCTL_BAM : Z := 0x8000.
Definition E1000_RCTL_SZ_2048 : Z := 0.
Definition E1000_RCTL_BSEX : Z := 0x2000000.
Definition E1000_TCTL_EN : Z := 0x2.
Definition E1000_TCTL_PSP : Z := 0x8.
Definition E1000_RAH_AV : Z := 0x80000000.
Definition E1000_RXD_STAT_DD : Z := 1.
Definition E1000_TXD_CMD_EOP : Z := 1.
Definition E1000_TXD_CMD_RS : Z := 8.

Definition TXDESCS : Z := 64.
Definition RXDESCS : Z := 64.
Definition TX_PKT_SIZE : Z := 2048.
Definition RX_PKT_SIZE : Z := 2048.
Definition DESC_SIZE : Z := 16.

Record e1000_rx_desc := mk_rx {
  rx_addr : Z; rx_length : Z; rx_csum : Z; rx_status : Z; rx_errors : Z; rx_special : Z
}.
Record e1000_tx_desc := mk_tx {
  tx_addr : Z; tx_length : Z; tx_cso : Z; tx_cmd : Z; tx_status : Z; tx_css : Z; tx_special : Z
}.

Record nic_state := mk_nic {
  regs : Z → Z;
  tx_desc_array : list e1000_tx_desc;
  tx_pkt_buffer : list (list Z);
  rx_desc_array : list e1000_rx_desc;
  rx_pkt_buffer : list (list Z)
}.

Definition upd_regs (f : Z → Z) (s : nic_state) : nic_state :=
  mk_nic f (tx_desc_array s) (tx_pkt_buffer s) (rx_desc_array s) (rx_pkt_buffer s).
Definition upd_tx_desc (l : list e1000_tx_desc) (s : nic_state) : nic_state :=
  mk_nic (regs s) l (tx_pkt_buffer s) (rx_desc_array s) (rx_pkt_buffer s).
Definition upd_tx_buf (l : list (list Z)) (s : nic_state) : nic_state :=
  mk_nic (regs s) (tx_desc_array s) l (rx_desc_array s) (rx_pkt_buffer s).
Definition upd_rx_desc (l : list e1000_rx_desc) (s : nic_state) : nic_state :=
  mk_nic (regs s) (tx_desc_array s) (tx_pkt_buffer s) l (rx_pkt_buffer s).
Definition upd_rx_buf (l : list (list Z)) (s : nic_state) : nic_state :=
  mk_nic (regs s) (tx_desc_array s) (tx_pkt_buffer s) (rx_desc_array s) l.

Definition set_reg (r v : Z) (f : Z → Z) : Z → Z := λ x, if decide (x = r) then v else f x.

Definition e1000_read_reg (r : Z) : M nic_state Z := gets (λ s, regs s r).
Definition e1000_write_reg (r v : Z) : M nic_state unit := modify (λ s, upd_regs (set_reg r v (regs s)) s).
Definition e1000_write_reg_array (r offset v : Z) : M nic_state unit :=
  e1000_write_reg (r + Z.shiftl offset 2) v.

(** The interrupt causes are cleared by reading them. *)
Definition e1000_read_icr : M nic_state Z :=
  v ← e1000_read_reg E1000_ICR;
  e1000_write_reg E1000_ICR 0;;
  mret v.

Section Driver.
(** The link addresses of the four arrays. *)
Context (tx_desc_kva rx_desc_kva tx_pkt_kva rx_pkt_kva : Z).

(** ** Initialisation *)

Definition icr_step (_ : unit) : M nic_state (unit + unit) :=
  v ← e1000_read_icr;
  mret (if 0 =? v then inr () else inl ()).

(** Two reads of the interrupt causes are enough, as the first clears them. *)
Definition e1000_reset : M nic_state unit :=
  e1000_write_reg E1000_RCTL 0;;
  e1000_write_reg E1000_TCTL 0;;
  e1000_write_reg E1000_TDH 0;;
  e1000_write_reg E1000_TDT 0;;
  e1000_write_reg E1000_RDH 0;;
  e1000_write_reg E1000_RDT 0;;
  e1000_write_reg E1000_IMC 0xffffffff;;
  while_ 2 icr_step ().

Definition e1000_configure_tx : M nic_state unit :=
  modify (upd_tx_desc (replicate (Z.to_nat TXDESCS) (mk_tx 0 0 0 0 0 0 0)));;
  let tx_desc_pa := kva2pa tx_desc_kva in
  e1000_write_reg E1000_TDBAL (Z.land tx_desc_pa 0xffffffff);;
  e1000_write_reg E1000_TDBAH (u32 (Z.shiftr tx_desc_pa 32));;
  e1000_write_reg E1000_TDLEN (TXDESCS * DESC_SIZE);;
  e1000_write_reg E1000_TDH 0;;
  e1000_write_reg E1000_TDT 0;;
  e1000_write_reg E1000_TCTL
    (Z.lor (Z.lor (Z.lor E1000_TCTL_EN E1000_TCTL_PSP) (Z.shiftl 0x10 4)) (Z.shiftl 0x40 12)).

(** [enetaddr], as the two little-endian words written to the card *)
Definition enetaddr : list Z := [0x00; 0x0a; 0x35; 0x00; 0x1e; 0x53].
Definition RAL0 : Z := 0x00350a00.
Definition RAH0 : Z := Z.lor 0x531e E1000_RAH_AV.

Definition init_rx_desc (i : nat) (d : e1000_rx_desc) : e1000_rx_desc :=
  mk_rx (kva2pa (rx_pkt_kva + Z.of_nat i * RX_PKT_SIZE)) 0 0 0 0 (rx_special d).

Definition e1000_configure_rx : M nic_state unit :=
  e1000_write_reg_array E1000_RA 0 RAL0;;
  e1000_write_reg_array E1000_RA 1 RAH0;;
  for_ 0 (Z.to_nat RXDESCS) (λ i, modify (λ s, upd_rx_desc (alter (init_rx_desc i) i (rx_desc_array s)) s));;
  let rx_desc_pa := kva2pa rx_desc_kva in
  e1000_write_reg E1000_RDBAL (Z.land rx_desc_pa 0xffffffff);;
  e1000_write_reg E1000_RDBAH (u32 (Z.shiftr rx_desc_pa 32));;
  e1000_write_reg E1000_RDLEN (RXDESCS * DESC_SIZE);;
  e1000_write_reg E1000_RDH 0;;
  e1000_write_reg E1000_RDT (RXDESCS - 1);;
  e1000_write_reg E1000_RCTL
    (Z.land (Z.lor (Z.lor E1000_RCTL_EN E1000_RCTL_BAM) E1000_RCTL_SZ_2048) (Z.lnot E1000_RCTL_BSEX)).

Definition e1000_init : M nic_state unit :=
  e1000_reset;;
  e1000_configure_tx;;
  e1000_configure_rx.

(** ** One packet *)

(** [txpacket] is what lies at the pointer; a length that is negative or
    exceeds it reads outside of the packet. *)
Definition e1000_transmit (txpacket : list Z) (length : Z) : M nic_state Z :=
  tail ← e1000_read_reg E1000_TDT;
  head ← e1000_read_reg E1000_TDH;
  if head =? u32 (tail + 1) mod TXDESCS then mret 0 else
  s ← get;
  desc ← of_opt (arr_get (tx_desc_array s) tail);
  let length := if TX_PKT_SIZE <? length then TX_PKT_SIZE else length in
  assert ((0 <=? length) && (length <=? Z.of_nat (List.length txpacket)));;
  row ← of_opt (arr_get (tx_pkt_buffer s) tail);
  bufs ← of_opt (arr_set (tx_pkt_buffer s) tail
                   (take (Z.to_nat length) txpacket ++ drop (Z.to_nat length) row));
  modify (upd_tx_buf bufs);;
  descs ← of_opt (arr_set (tx_desc_array s) tail
                    (mk_tx (kva2pa (tx_pkt_kva + tail * TX_PKT_SIZE)) length 0
                       (Z.lor E1000_TXD_CMD_EOP E1000_TXD_CMD_RS) 0 0 0));
  modify (upd_tx_desc descs);;
  e1000_write_reg E1000_TDT (u32 (tail + 1) mod TXDESCS);;
  mret length.

(** The length of the packet, 0 when there is none, and the bytes copied to
    [rxbuffer]. *)
Definition e1000_poll : M nic_state (Z * list Z) :=
  tail ← e1000_read_reg E1000_RDT;
  let next := u32 (tail + 1) mod RXDESCS in
  s ← get;
  desc ← of_opt (arr_get (rx_desc_array s) next);
  if Z.land (rx_status desc) E1000_RXD_STAT_DD =? 0 then mret (0, []) else
  let length := rx_length desc in
  row ← of_opt (arr_get (rx_pkt_buffer s) next);
  assert (length <=? Z.of_nat (List.length row));;
  descs ← of_opt (arr_set (rx_desc_array s) next (mk_rx (rx_addr desc) 0 0 0 0 (rx_special desc)));
  modify (upd_rx_desc descs);;
  e1000_write_reg E1000_RDT next;;
  mret (length, take (Z.to_nat length) row).
End Driver.

(** ** The rings as queues of packets *)

Definition ring (i : Z) (k : nat) : Z := (i + Z.of_nat k) mod 64.

Lemma ring_range i k : 0 ≤ ring i k < 64.
Proof. apply Z.mod_pos_bound. lia. Qed.

Lemma ring_0 i : 0 ≤ i < 64 → ring i 0 = i.
Proof. intros. unfold ring. rewrite Z.add_0_r. by apply Z.mod_small. Qed.

Lemma ring_add i j k : ring (ring i j) k = ring i (j + k).
Proof. unfold ring. rewrite Zplus_mod_idemp_l. f_equal. lia. Qed.

Lemma ring_inj i j k : (j < 64)%nat → (k < 64)%nat → ring i j = ring i k → j = k.
Proof. unfold ring. intros. Z.to_euclidean_division_equations. lia. Qed.

(** The packets queued for sending, in order: they lie in the slots from TDH
    up to TDT, and one slot at least is unused. *)
Record tx_ring (s : nic_state) (q : list (list Z)) : Prop := {
  tr_head : 0 ≤ regs s E1000_TDH < 64;
  tr_tail : regs s E1000_TDT = ring (regs s E1000_TDH) (length q);
  tr_room : (length q < 64)%nat;
  tr_descs : length (tx_desc_array s) = 64%nat;
  tr_bufs : length (tx_pkt_buffer s) = 64%nat;
  tr_pkt k p : q !! k = Some p → ∃ d row,
    arr_get (tx_desc_array s) (ring (regs s E1000_TDH) k) = Some d ∧
    arr_get (tx_pkt_buffer s) (ring (regs s E1000_TDH) k) = Some row ∧
    tx_length d = Z.of_nat (length p) ∧ take (length p) row = p
}.

(** The received packets not yet taken, in order: they lie in the slots behind
    RDT, with the done bit set, and the other slots are clear. *)
Record rx_ring (s : nic_state) (q : list (list Z)) : Prop := {
  rr_tail : 0 ≤ regs s E1000_RDT < 64;
  rr_head : regs s E1000_RDH = ring (regs s E1000_RDT) (S (length q));
  rr_room : (length q < 64)%nat;
  rr_descs : length (rx_desc_array s) = 64%nat;
  rr_bufs : length (rx_pkt_buffer s) = 64%nat;
  rr_rows k row : arr_get (rx_pkt_buffer s) k = Some row → length row = 2048%nat;
  rr_pkt k p : q !! k = Some p → ∃ d row,
    arr_get (rx_desc_array s) (ring (regs s E1000_RDT) (S k)) = Some d ∧
    arr_get (rx_pkt_buffer s) (ring (regs s E1000_RDT) (S k)) = Some row ∧
    Z.land (rx_status d) E1000_RXD_STAT_DD ≠ 0 ∧
    rx_length d = Z.of_nat (length p) ∧ (0 < length p ≤ 2048)%nat ∧ take (length p) row = p;
  rr_clear k d : (length q < k ≤ 64)%nat →
    arr_get (rx_desc_array s) (ring (regs s E1000_RDT) k) = Some d →
    Z.land (rx_status d) E1000_RXD_STAT_DD = 0
}.

Definition nic_inv (s : nic_state) (sending received : list (list Z)) : Prop :=
  tx_ring s sending ∧ rx_ring s received.

Lemma set_reg_eq r v f : set_reg r v f r = v.
Proof. unfold set_reg. by rewrite decide_True. Qed.
Lemma set_reg_ne r v f x : x ≠ r → set_reg r v f x = f x.
Proof. intros. unfold set_reg. by rewrite decide_False. Qed.

(** Read the registers of the rings through an update of one of them. *)
Ltac reg_simpl := rewrite ?set_reg_eq, ?set_reg_ne by done.

Lemma next_ring i : 0 ≤ i < 64 → u32 (i + 1) mod 64 = ring i 1.
Proof. intros. by rewrite u32_id by lia. Qed.

Lemma ring_next_ne i k : (k < 63)%nat → 0 ≤ i < 64 → i ≠ ring (ring i k) 1.
Proof.
  intros Hk Hi E. rewrite ring_add in E. rewrite <- (ring_0 i) in E at 1 by done.
  apply ring_inj in E; lia.
Qed.

Lemma ring_next_full i : 0 ≤ i < 64 → i = ring (ring i 63) 1.
Proof. intros. rewrite ring_add. unfold ring. Z.to_euclidean_division_equations. lia. Qed.

Lemma arr_get_insert_ring {A} (l : list A) i j k x :
  (j < 64)%nat → (k < 64)%nat → j ≠ k →
  arr_get (<[Z.to_nat (ring i j) := x]> l) (ring i k) = arr_get l (ring i k).
Proof.
  intros Hj Hk Hne. pose proof (ring_range i j). apply arr_get_insert_ne; [|lia].
  intros E. by apply ring_inj in E.
Qed.

(** Changes of the other ring, and of other registers, do not matter. *)
Lemma tx_ring_frame s s' q :
  tx_ring s q → regs s' E1000_TDH = regs s E1000_TDH → regs s' E1000_TDT = regs s E1000_TDT →
  tx_desc_array s' = tx_desc_array s → tx_pkt_buffer s' = tx_pkt_buffer s → tx_ring s' q.
Proof. intros [] E1 E2 E3 E4. split; rewrite ?E1, ?E2, ?E3, ?E4; done. Qed.

Lemma rx_ring_frame s s' q :
  rx_ring s q → regs s' E1000_RDH = regs s E1000_RDH → regs s' E1000_RDT = regs s E1000_RDT →
  rx_desc_array s' = rx_desc_array s → rx_pkt_buffer s' = rx_pkt_buffer s → rx_ring s' q.
Proof. intros [] E1 E2 E3 E4. split; rewrite ?E1, ?E2, ?E3, ?E4; done. Qed.

Section DriverFacts.
Context (tx_pkt_kva : Z).

Lemma transmit_full s q pkt len :
  tx_ring s q → length q = 63%nat → e1000_transmit tx_pkt_kva pkt len s = Ok 0 s.
Proof.
  intros [Hh Ht _ _ _ _] Hq. unfold e1000_transmit, e1000_read_reg. rewrite !bind_gets.
  rewrite Ht, Hq. unfold TXDESCS. pose proof (ring_range (regs s E1000_TDH) 63).
  rewrite next_ring, <- ring_next_full by done. by rewrite Z.eqb_refl.
Qed.

Lemma transmit_ok s q r pkt len :
  nic_inv s q r → (length q < 63)%nat → 0 ≤ len ≤ Z.of_nat (length pkt) →
  ∃ s', e1000_transmit tx_pkt_kva pkt len s = Ok (Z.min len 2048) s' ∧
    nic_inv s' (q ++ [take (Z.to_nat (Z.min len 2048)) pkt]) r.
Proof.
  intros [[Hh Ht Hroom Hd Hb Hp] Hrx] Hq Hlen. set (h := regs s E1000_TDH) in *.
  pose proof (ring_range h (length q)) as Hr.
  unfold e1000_transmit, e1000_read_reg. rewrite !bind_gets. fold h. rewrite Ht. unfold TXDESCS.
  rewrite next_ring by done.
  destruct (Z.eqb_spec h (ring (ring h (length q)) 1)) as [E|_]; [by apply ring_next_ne in E|].
  rewrite bind_get. destruct (arr_get_is_Some (tx_desc_array s) (ring h (length q))) as [d Hdd]; [lia|].
  rewrite (bind_opt _ _ _ _ Hdd). unfold TX_PKT_SIZE.
  replace (if 2048 <? len then 2048 else len) with (Z.min len 2048)
    by (destruct (Z.ltb_spec 2048 len); lia).
  set (n := Z.min len 2048). 
  assert (Hn : 0 ≤ n ≤ Z.of_nat (length pkt)) by (unfold n; lia).
  rewrite bind_assert by (apply andb_true_iff; split; apply Z.leb_le; lia).
  destruct (arr_get_is_Some (tx_pkt_buffer s) (ring h (length q))) as [row Hrow]; [lia|].
  rewrite (bind_opt _ _ _ _ Hrow), (bind_opt _ _ _ _ (arr_set_Some (tx_pkt_buffer s) (ring h (length q)) _ ltac:(lia))), bind_modify.
  rewrite (bind_opt _ _ _ _ (arr_set_Some (tx_desc_array s) (ring h (length q)) _ ltac:(lia))), bind_modify.
  unfold e1000_write_reg. rewrite bind_modify. eexists. split; [done|].
  set (new := take (Z.to_nat n) pkt).
  assert (Hnew : length new = Z.to_nat n) by (unfold new; rewrite length_take; lia).
  split; [|by eapply rx_ring_frame].
  split; cbn [regs upd_regs tx_desc_array tx_pkt_buffer upd_tx_desc upd_tx_buf]; reg_simpl; fold h; try done.
  - rewrite ring_add, length_app. f_equal.
  - rewrite length_app. simpl. lia.
  - by rewrite length_insert.
  - by rewrite length_insert.
  - intros k p [Hk|[-> Hk]]%lookup_snoc_Some.
    + destruct Hk as [Hk Hlt]. destruct (Hp k p Hlt) as (d' & row' & H1 & H2 & H3 & H4).
      exists d', row'. by rewrite !arr_get_insert_ring by lia.
    + subst p. rewrite !arr_get_insert_eq by lia. eexists _, _. split; [done|]. split; [done|].
      cbn [tx_length]. split; [lia|]. rewrite take_app_le by lia. apply take_ge. lia.
Qed.

Lemma poll_empty s r : rx_ring s r → r = [] → e1000_poll s = Ok (0, []) s.
Proof.
  intros [Ht _ _ Hd _ _ _ Hc] ->. unfold e1000_poll, e1000_read_reg. rewrite bind_gets. unfold RXDESCS.
  rewrite next_ring by done. rewrite bind_get. pose proof (ring_range (regs s E1000_RDT) 1).
  destruct (arr_get_is_Some (rx_desc_array s) (ring (regs s E1000_RDT) 1)) as [d Hdd]; [lia|].
  rewrite (bind_opt _ _ _ _ Hdd). rewrite (Hc 1%nat d) by (done || (simpl; lia)). done.
Qed.

Lemma ring_wrap i k : ring i (64 + k) = ring i k.
Proof. unfold ring. Z.to_euclidean_division_equations. lia. Qed.

Lemma poll_ok s q p r :
  nic_inv s q (p :: r) → ∃ s', e1000_poll s = Ok (Z.of_nat (length p), p) s' ∧ nic_inv s' q r.
Proof.
  intros [Htx [Ht Hh Hroom Hd Hb Hrows Hp Hc]]. set (t := regs s E1000_RDT) in *. simpl in Hroom.
  pose proof (ring_range t 1) as Hr.
  destruct (Hp 0%nat p eq_refl) as (d & row & Hdd & Hrow & Hdone & Hlen & Hpos & Htake).
  unfold e1000_poll, e1000_read_reg. rewrite bind_gets. fold t. unfold RXDESCS. rewrite next_ring by done.
  rewrite bind_get, (bind_opt _ _ _ _ Hdd). destruct (Z.eqb_spec (Z.land (rx_status d) E1000_RXD_STAT_DD) 0); [done|].
  rewrite (bind_opt _ _ _ _ Hrow), Hlen. pose proof (Hrows _ _ Hrow) as Hl.
  rewrite bind_assert by (apply Z.leb_le; lia). rewrite (bind_opt _ _ _ _ (arr_set_Some (rx_desc_array s) (ring t 1) _ ltac:(lia))), bind_modify.
  unfold e1000_write_reg. rewrite bind_modify. rewrite Nat2Z.id, Htake. eexists. split; [done|].
  split; [by eapply tx_ring_frame|].
  split; cbn [regs upd_regs rx_desc_array rx_pkt_buffer upd_rx_desc]; reg_simpl; fold t; try done.
  - rewrite ring_add. by rewrite Hh.
  - lia.
  - by rewrite length_insert.
  - intros k p' Hk. rewrite ring_add. apply lookup_lt_Some in Hk as Hlt.
    destruct (Hp (S k) p' Hk) as (d' & row' & H1 & H2 & H3). exists d', row'.
    rewrite arr_get_insert_ring by lia. done.
  - intros k d' Hk. rewrite ring_add. destruct (decide (k = 64%nat)) as [->|].
    + rewrite (ring_wrap t 1 : ring t (1 + 64) = _), arr_get_insert_eq by lia. intros [= <-]. done.
    + destruct (decide (k = 63%nat)) as [->|].
      * intros Hget. apply (Hc 64%nat d'); [simpl; lia|].
        rewrite arr_get_insert_ne in Hget; [done| |lia]. change (1 + 63)%nat with (64 + 0)%nat.
        rewrite ring_wrap. intros E. apply ring_inj in E; lia.
      * rewrite arr_get_insert_ring by lia. apply (Hc (S k)). simpl. lia.
Qed.
End DriverFacts.

(** ** Initialisation *)

Lemma icr_loop_ok s : ∃ f, while_ 2 icr_step () s = Ok () (upd_regs f s) ∧
  ∀ x, x ≠ E1000_ICR → f x = regs s x.
Proof.
  rewrite while_eq. unfold icr_step at 1, e1000_read_icr, e1000_read_reg, e1000_write_reg.
  rewrite bind_ok with (a := regs s E1000_ICR) (s' := upd_regs (set_reg E1000_ICR 0 (regs s)) s) by done.
  destruct (Z.eqb_spec 0 (regs s E1000_ICR)).
  - exists (set_reg E1000_ICR 0 (regs s)). split; [done|]. intros. by apply set_reg_ne.
  - unfold mret at 1, M_ret. rewrite while_eq. unfold icr_step, e1000_read_icr, e1000_read_reg, e1000_write_reg.
    rewrite bind_ok with (a := 0) (s' := upd_regs (set_reg E1000_ICR 0 (set_reg E1000_ICR 0 (regs s))) s) by done.
    eexists. split; [done|]. intros. by rewrite !set_reg_ne.
Qed.

Section Init.
Context (tx_desc_kva rx_desc_kva tx_pkt_kva rx_pkt_kva : Z).

Lemma init_descs_ok n i s :
  ∃ s', for_ i n (λ i, modify (λ s, upd_rx_desc (alter (init_rx_desc rx_pkt_kva i) i (rx_desc_array s)) s)) s = Ok () s'
  ∧ length (rx_desc_array s') = length (rx_desc_array s)
  ∧ regs s' = regs s ∧ tx_desc_array s' = tx_desc_array s ∧ tx_pkt_buffer s' = tx_pkt_buffer s
  ∧ rx_pkt_buffer s' = rx_pkt_buffer s
  ∧ (∀ k d, rx_desc_array s' !! k = Some d → (i ≤ k < i + n)%nat ∨ rx_desc_array s !! k = Some d ∨ rx_status d = 0)
  ∧ (∀ k d, rx_desc_array s' !! k = Some d → (i ≤ k < i + n)%nat → rx_status d = 0).
Proof.
  revert i s. induction n as [|n IH]; intros i s; simpl.
  - exists s. do 6 (split; [done|]). split; [intros; by right; left|]. intros. lia.
  - rewrite bind_modify. set (s1 := upd_rx_desc _ s).
    destruct (IH (S i) s1) as (s' & He & Hl & Hr & Ht & Hb & Hx & Ho & Hc). exists s'. split; [done|].
    split; [rewrite Hl; simpl; by rewrite length_alter|]. do 4 (split; [done|]).
    assert (Halt : ∀ k d, rx_desc_array s1 !! k = Some d → k ≠ i → rx_desc_array s !! k = Some d).
    { intros k d Hk Hne. simpl in Hk. by rewrite list_lookup_alter_ne in Hk. }
    split.
    + intros k d Hk. destruct (decide (k = i)) as [->|]; [left; lia|].
      destruct (Ho k d Hk) as [|[Hs|]]; [left; lia|right; left; by apply Halt|by right; right].
    + intros k d Hk Hin. destruct (decide (k = i)) as [->|]; [|apply (Hc k d Hk); lia].
      destruct (Ho i d Hk) as [|[Hs|]]; [lia| |done]. simpl in Hs. rewrite list_lookup_alter_eq in Hs.
      apply fmap_Some in Hs as (d0 & _ & ->). done.
Qed.

(** The arrays of the driver have the sizes they are declared with. *)
Record nic_sizes (s : nic_state) : Prop := {
  ns_tx : length (tx_pkt_buffer s) = 64%nat;
  ns_rxd : length (rx_desc_array s) = 64%nat;
  ns_rx : length (rx_pkt_buffer s) = 64%nat;
  ns_rows k row : arr_get (rx_pkt_buffer s) k = Some row → length row = 2048%nat
}.

Lemma e1000_reset_ok s : ∃ f, e1000_reset s = Ok () (upd_regs f s).
Proof.
  unfold e1000_reset, e1000_write_reg. rewrite !bind_modify.
  match goal with |- context[while_ 2 icr_step () ?x] => destruct (icr_loop_ok x) as (f & He & _) end.
  exists f. by rewrite He.
Qed.

Lemma e1000_configure_tx_ok s : ∃ f,
  e1000_configure_tx tx_desc_kva s
  = Ok () (upd_regs f (upd_tx_desc (replicate (Z.to_nat TXDESCS) (mk_tx 0 0 0 0 0 0 0)) s))
  ∧ f E1000_TDH = 0 ∧ f E1000_TDT = 0.
Proof.
  unfold e1000_configure_tx, e1000_write_reg. rewrite !bind_modify. unfold modify. eexists. split; [done|].
  cbn [regs upd_regs]. by reg_simpl.
Qed.

Lemma e1000_configure_rx_ok s : ∃ f l,
  e1000_configure_rx rx_desc_kva rx_pkt_kva s = Ok () (upd_regs f (upd_rx_desc l s))
  ∧ f E1000_TDH = regs s E1000_TDH ∧ f E1000_TDT = regs s E1000_TDT ∧ f E1000_RDH = 0 ∧ f E1000_RDT = 63
  ∧ length l = length (rx_desc_array s) ∧ (∀ k d, l !! k = Some d → (k < 64)%nat → rx_status d = 0).
Proof.
  unfold e1000_configure_rx, e1000_write_reg_array, e1000_write_reg. rewrite !bind_modify.
  match goal with |- context[(for_ ?i ?n ?b ≫= ?k) ?x] =>
    destruct (init_descs_ok n i x) as (s2 & He2 & Hl & Hr & Ht & Hb & Hx & _ & Hc);
    rewrite (bind_ok _ k _ _ _ He2) end.
  rewrite !bind_modify. unfold modify. destruct s2 as [g td tb rd rb]. cbn in Hl, Hr, Ht, Hb, Hx, Hc. subst.
  eexists _, rd. split; [done|]. cbn [regs upd_regs]. reg_simpl. do 4 (split; [done|]).
  split; [done|]. intros k d Hk Hlt. apply (Hc k d Hk). unfold RXDESCS. lia.
Qed.

Lemma e1000_init_ok s :
  nic_sizes s → ∃ s', e1000_init tx_desc_kva rx_desc_kva rx_pkt_kva s = Ok () s' ∧ nic_inv s' [] [].
Proof.
  intros [H1 H2 H3 H4]. unfold e1000_init.
  destruct (e1000_reset_ok s) as [f0 E0]. rewrite (bind_ok _ _ _ _ _ E0).
  destruct (e1000_configure_tx_ok (upd_regs f0 s)) as (f1 & E1 & Hh & Ht). rewrite (bind_ok _ _ _ _ _ E1).
  match goal with |- context[e1000_configure_rx _ _ ?x] =>
    destruct (e1000_configure_rx_ok x) as (f2 & l & E2 & Hh' & Ht' & Hrh & Hrt & Hl & Hc) end.
  rewrite E2. eexists. split; [done|]. cbn [regs upd_regs upd_tx_desc rx_desc_array] in *. rewrite Hh in Hh'. rewrite Ht in Ht'.
  split; split; cbn [regs upd_regs tx_desc_array tx_pkt_buffer rx_desc_array rx_pkt_buffer upd_rx_desc upd_tx_desc];
    rewrite ?Hh', ?Ht', ?Hrh, ?Hrt, ?Hl; try done; try (simpl; lia).
  intros k d Hk Hget. apply arr_get_Some in Hget as [_ Hget]. apply lookup_lt_Some in Hget as Hlt.
  rewrite (Hc _ _ Hget); [done|lia].
Qed.
End Init.

(** ** The card *)

Inductive card_event := Sends (p : list Z) | Receives (p : list Z) | Signals.

(** What the manual documents: the card sends the packet of the descriptor at
    TDH, or stores a packet at RDH and marks its descriptor done, and advances
    the head, while the head has not met the tail; other steps keep the rings. *)
Definition documented (s : nic_state) (e : card_event) (s' : nic_state) : Prop :=
  match e with
  | Sends p =>
      let h := regs s E1000_TDH in
      h ≠ regs s E1000_TDT ∧
      ∃ d row, arr_get (tx_desc_array s) h = Some d ∧ arr_get (tx_pkt_buffer s) h = Some row ∧
        p = take (Z.to_nat (tx_length d)) row ∧
        s' = upd_regs (set_reg E1000_TDH ((h + 1) mod TXDESCS) (regs s)) s
  | Receives p =>
      let h := regs s E1000_RDH in
      h ≠ regs s E1000_RDT ∧ (0 < length p ≤ 2048)%nat ∧
      ∃ d row descs bufs, arr_get (rx_desc_array s) h = Some d ∧ arr_get (rx_pkt_buffer s) h = Some row ∧
        arr_set (rx_desc_array s) h (mk_rx (rx_addr d) (Z.of_nat (length p)) (rx_csum d)
          (Z.lor (rx_status d) E1000_RXD_STAT_DD) (rx_errors d) (rx_special d)) = Some descs ∧
        arr_set (rx_pkt_buffer s) h (p ++ drop (length p) row) = Some bufs ∧
        s' = upd_regs (set_reg E1000_RDH ((h + 1) mod RXDESCS) (regs s)) (upd_rx_buf bufs (upd_rx_desc descs s))
  | Signals => ∃ f, s' = upd_regs f s ∧
      ∀ r, r ∈ [E1000_TDH; E1000_TDT; E1000_RDH; E1000_RDT] → f r = regs s r
  end.

Lemma card_sends_ok s q r p s' :
  nic_inv s q r → documented s (Sends p) s' → ∃ q', q = p :: q' ∧ nic_inv s' q' r.
Proof.
  intros [[Hh Ht Hroom Hd Hb Hp] Hrx] (Hne & d & row & Hdd & Hrow & -> & ->). set (h := regs s E1000_TDH) in *.
  destruct q as [|p q'].
  { rewrite Ht in Hne. simpl in Hne. by rewrite ring_0 in Hne. }
  destruct (Hp 0%nat p eq_refl) as (d' & row' & H1 & H2 & H3 & H4). rewrite ring_0 in H1, H2 by done.
  simplify_eq. exists q'. split.
  - by rewrite H3, Nat2Z.id, H4.
  - split; [|by eapply rx_ring_frame]. simpl in Hroom, Ht.
    split; cbn [regs upd_regs tx_desc_array tx_pkt_buffer]; reg_simpl; fold h; unfold TXDESCS; try done.
    + apply Z.mod_pos_bound. lia.
    + rewrite Ht. change ((h + 1) mod 64) with (ring h 1). by rewrite ring_add.
    + lia.
    + intros k p' Hk. change ((h + 1) mod 64) with (ring h 1). rewrite ring_add. exact (Hp (S k) p' Hk).
Qed.

Lemma card_receives_ok s q r p s' :
  nic_inv s q r → documented s (Receives p) s' → nic_inv s' q (r ++ [p]) ∧ (length r < 63)%nat.
Proof.
  intros [Htx [Ht Hh Hroom Hd Hb Hrows Hp Hc]] (Hne & Hpos & d & row & descs & bufs & Hdd & Hrow & Hs1 & Hs2 & ->).
  set (t := regs s E1000_RDT) in *. rewrite Hh in *.
  assert (Hlt : (length r < 63)%nat).
  { destruct (decide (length r = 63%nat)) as [E|]; [|lia]. rewrite E in Hne. change 64%nat with (64 + 0)%nat in Hne.
    by rewrite ring_wrap, ring_0 in Hne. }
  split; [|done]. pose proof (ring_range t (S (length r))) as Hr.
  rewrite arr_set_Some in Hs1 by lia. rewrite arr_set_Some in Hs2 by lia. simplify_eq.
  split; [by eapply tx_ring_frame|].
  split; cbn [regs upd_regs rx_desc_array rx_pkt_buffer upd_rx_desc upd_rx_buf]; reg_simpl; fold t; try done.
  - unfold RXDESCS. rewrite length_app. change (ring (ring t (S (length r))) 1 = ring t (S (length r + 1))).
    rewrite ring_add. f_equal; lia.
  - rewrite length_app. simpl. lia.
  - by rewrite length_insert.
  - by rewrite length_insert.
  - intros k row' Hk. destruct (decide (k = ring t (S (length r)))) as [->|].
    + rewrite arr_get_insert_eq in Hk by lia. simplify_eq. pose proof (Hrows _ _ Hrow).
      rewrite length_app, length_drop. lia.
    + rewrite arr_get_insert_ne in Hk by (done || lia). eauto.
  - intros k p' [[Hk Hl]|[-> Hk]]%lookup_snoc_Some.
    + destruct (Hp k p' Hl) as (d' & row' & ?). exists d', row'. by rewrite !arr_get_insert_ring by lia.
    + subst p'. rewrite !arr_get_insert_eq by lia. eexists _, _. split; [done|]. split; [done|].
      cbn [rx_status rx_length]. split; [|split; [done|]; split; [done|]].
      * intros E. apply (f_equal (λ z, Z.testbit z 0)) in E. rewrite Z.land_spec, Z.lor_spec in E.
        unfold E1000_RXD_STAT_DD in E. simpl in E. by rewrite orb_true_r in E.
      * by rewrite take_app_length.
  - intros k d' Hk. rewrite length_app in Hk. simpl in Hk. intros Hget. apply (Hc k d'); [lia|].
    destruct (decide (k = 64%nat)) as [->|]; [|by rewrite arr_get_insert_ring in Hget by lia].
    change 64%nat with (64 + 0)%nat in *. rewrite ring_wrap in *.
    by rewrite arr_get_insert_ring in Hget by lia.
Qed.

(** The card can receive as long as the ring is not full. *)
Lemma card_can_receive s q r p :
  nic_inv s q r → (length r < 63)%nat → (0 < length p ≤ 2048)%nat → ∃ s', documented s (Receives p) s'.
Proof.
  intros [_ [Ht Hh Hroom Hd Hb _ _ _]] Hr Hp. pose proof (ring_range (regs s E1000_RDT) (S (length r))).
  destruct (arr_get_is_Some (rx_desc_array s) (regs s E1000_RDH)) as [d Hdd]; [lia|].
  destruct (arr_get_is_Some (rx_pkt_buffer s) (regs s E1000_RDH)) as [row Hrow]; [lia|].
  eexists. split; [|split; [done|]].
  - rewrite Hh. intros E. symmetry in E. rewrite <- (ring_0 (regs s E1000_RDT)) in E at 1 by done.
    apply ring_inj in E; lia.
  - eexists d, row, _, _. split; [done|]. split; [done|]. split; [apply arr_set_Some; lia|].
    split; [apply arr_set_Some; lia|done].
Qed.

Lemma card_signals_ok s q r s' : nic_inv s q r → documented s Signals s' → nic_inv s' q r.
Proof.
  intros [Htx Hrx] (f & -> & Hf). split.
  - eapply tx_ring_frame; [exact Htx|..]; try done; apply Hf; set_solver.
  - eapply rx_ring_frame; [exact Hrx|..]; try done; apply Hf; set_solver.
Qed.

(** ** Runs of the driver and the card *)

Record history := mk_hist {
  submitted : list (list Z); sent : list (list Z); arrived : list (list Z); taken : list (list Z)
}.

Section Wire.
Context (tx_desc_kva rx_desc_kva tx_pkt_kva rx_pkt_kva : Z).
Context (card : nic_state → card_event → nic_state → Prop).
Hypothesis card_documented : ∀ s e s', card s e s' → documented s e s'.

(** The driver is initialised; then calls of it and steps of the card
    alternate in any order. *)
Inductive net_run : nic_state → history → Prop :=
| run_init s s' :
    nic_sizes s → e1000_init tx_desc_kva rx_desc_kva rx_pkt_kva s = Ok () s' →
    net_run s' (mk_hist [] [] [] [])
| run_transmit s h pkt len n s' :
    net_run s h → 0 < len ≤ Z.of_nat (length pkt) → e1000_transmit tx_pkt_kva pkt len s = Ok n s' →
    net_run s' (if n =? 0 then h
                else mk_hist (submitted h ++ [take (Z.to_nat n) pkt]) (sent h) (arrived h) (taken h))
| run_poll s h n p s' :
    net_run s h → e1000_poll s = Ok (n, p) s' →
    net_run s' (if n =? 0 then h else mk_hist (submitted h) (sent h) (arrived h) (taken h ++ [p]))
| run_card s h e s' :
    net_run s h → card s e s' →
    net_run s' (match e with
                | Sends p => mk_hist (submitted h) (sent h ++ [p]) (arrived h) (taken h)
                | Receives p => mk_hist (submitted h) (sent h) (arrived h ++ [p]) (taken h)
                | Signals => h
                end).

Lemma net_run_inv s h :
  net_run s h → ∃ q r, nic_inv s q r ∧ submitted h = sent h ++ q ∧ arrived h = taken h ++ r.
Proof.
  induction 1 as [s s' Hz Hi|s h pkt len n s' _ (q & r & HI & Hq & Hr) Hlen Ht
                 |s h n p s' _ (q & r & HI & Hq & Hr) Ht|s h e s' _ (q & r & HI & Hq & Hr) Hc].
  - destruct (e1000_init_ok tx_desc_kva rx_desc_kva rx_pkt_kva s Hz) as (s1 & He & HI). rewrite He in Hi. simplify_eq.
    by exists [], [].
  - pose proof (tr_room _ _ (proj1 HI)). destruct (decide (length q = 63%nat)) as [E|].
    + rewrite (transmit_full tx_pkt_kva s q pkt len (proj1 HI) E) in Ht. simplify_eq. by exists q, r.
    + destruct (transmit_ok tx_pkt_kva s q r pkt len HI ltac:(lia) ltac:(lia)) as (s1 & He & HI').
      rewrite He in Ht. simplify_eq. destruct (Z.eqb_spec (Z.min len 2048) 0); [lia|].
      eexists _, r. split; [exact HI'|]. cbn [submitted sent arrived taken]. by rewrite Hq, app_assoc.
  - destruct r as [|p0 r].
    + rewrite (poll_empty s [] (proj2 HI) eq_refl) in Ht. simplify_eq. by exists q, [].
    + destruct (rr_pkt _ _ (proj2 HI) 0%nat p0 eq_refl) as (_ & _ & _ & _ & _ & _ & Hpos & _).
      destruct (poll_ok s q p0 r HI) as (s1 & He & HI'). rewrite He in Ht. simplify_eq.
      destruct (Z.eqb_spec (Z.of_nat (length p)) 0); [lia|].
      exists q, r. split; [done|]. cbn [submitted sent arrived taken]. by rewrite Hr, <- app_assoc.
  - apply card_documented in Hc. destruct e as [p|p|].
    + destruct (card_sends_ok _ _ _ _ _ HI Hc) as (q' & -> & HI'). exists q', r.
      split; [done|]. cbn [submitted sent arrived taken]. by rewrite Hq, <- app_assoc.
    + destruct (card_receives_ok _ _ _ _ _ HI Hc) as [HI' _]. exists q, (r ++ [p]).
      split; [done|]. cbn [submitted sent arrived taken]. by rewrite Hr, <- app_assoc.
    + exists q, r. split; [by eapply card_signals_ok|done].
Qed.

End Wire.

(** A card that does what is documented, and two packets handed to the driver. *)
Definition nic0 : nic_state :=
  mk_nic (λ _, 0) (replicate 64 (mk_tx 0 0 0 0 0 0 0)) (replicate 64 (replicate 2048 0))
    (replicate 64 (mk_rx 0 0 0 0 0 0)) (replicate 64 (replicate 2048 0)).

Lemma nic0_sizes : nic_sizes nic0.
Proof.
  split; [done..|]. intros k row [_ Hk]%arr_get_Some.
  by apply lookup_replicate in Hk as [-> _].
Qed.

Definition ex_run : nic_state → history → Prop := net_run 0 0 0 0 documented.

Lemma ex_run_two : ∃ s, ex_run s (mk_hist [[1; 2; 3]; [4]] [] [] []).
Proof.
  destruct (e1000_init_ok 0 0 0 nic0 nic0_sizes) as (s0 & He0 & HI0).
  destruct (transmit_ok 0 s0 [] [] [1; 2; 3] 3 HI0) as (s1 & He1 & HI1); [simpl; lia..|].
  destruct (transmit_ok 0 s1 _ [] [4] 1 HI1) as (s2 & He2 & _); [simpl; lia..|].
  exists s2. pose proof (run_init 0 0 0 0 documented _ _ nic0_sizes He0) as R0.
  assert (L1 : 0 < 3 ≤ Z.of_nat (length [1; 2; 3])) by (simpl; lia).
  assert (L2 : 0 < 1 ≤ Z.of_nat (length [4])) by (simpl; lia).
  pose proof (run_transmit 0 0 0 0 documented _ _ _ _ _ _ R0 L1 He1) as R1.
  exact (run_transmit 0 0 0 0 documented _ _ _ _ _ _ R1 L2 He2).
Qed.

