(* ===== verification/Net.v ===== *)
(** kernel/net/net.c: sending and receiving packets with blocking, over the
    card's rings (E1000) and the scheduler (Sched).

    A call of [do_net_send] or [do_net_recv] is a sequence of segments: from its
    entry, or from the return of [do_scheduler], to where it returns or calls
    [do_scheduler]. The user's buffers are lists of bytes. *)
From S2P Require Import Prelude KMonad KList Sched Resource E1000.

Definition E1000_ICR_TXQE : Z := 0x2.
Definition E1000_ICR_RXDMT0 : Z := 0x10.

Record net_state := mk_net { nt_sched : sched_state; nt_nic : nic_state }.
Definition nt_upd_sched (x : sched_state) (s : net_state) : net_state := mk_net x (nt_nic s).
Definition nt_upd_nic (x : nic_state) (s : net_state) : net_state := mk_net (nt_sched s) x.
Definition n_sched {A} (m : M sched_state A) : M net_state A := zoom nt_sched nt_upd_sched m.
Definition n_nic {A} (m : M nic_state A) : M net_state A := zoom nt_nic nt_upd_nic m.

Lemma n_sched_ok {A} (m : M sched_state A) s a x :
  m (nt_sched s) = Ok a x → n_sched m s = Ok a (nt_upd_sched x s).
Proof. intros H. unfold n_sched, zoom. by rewrite H. Qed.
Lemma n_nic_ok {A} (m : M nic_state A) s a x :
  m (nt_nic s) = Ok a x → n_nic m s = Ok a (nt_upd_nic x s).
Proof. intros H. unfold n_nic, zoom. by rewrite H. Qed.

Definition init_net : M net_state unit :=
  n_sched (q_init NNetSend);;
  n_sched (q_init NNetRecv).

Section Net.
Context (tx_pkt_kva : Z).

(** Turn an interrupt on and wait for it. *)
Definition net_wait (interrupt : Z) (queue : node) : M net_state unit :=
  n_nic (e1000_write_reg E1000_IMS interrupt);;
  n_sched (s ← get; do_block (NList (current s)) queue).

(** [None]: blocked. *)
Definition do_net_send (txpacket : list Z) (length : Z) : M net_state (option Z) :=
  bytes_sent ← n_nic (e1000_transmit tx_pkt_kva txpacket length);
  if 0 <? bytes_sent then mret (Some bytes_sent) else
  net_wait E1000_ICR_TXQE NNetSend;;
  mret None.

(** The locals of [do_net_recv]: [i], what is at [rxbuffer] up to [curr_buf],
    and [pkt_lens]. *)
Record rv_vars := mk_rv { rv_i : Z; rv_buf : list Z; rv_lens : list Z }.
Inductive recv_result := RReturned (total_len : Z) (l : rv_vars) | RBlocked (l : rv_vars).

Definition net_recv_step (pkt_num : Z) (l : rv_vars) : M net_state (rv_vars + recv_result) :=
  if rv_i l <? pkt_num then
    r ← n_nic e1000_poll;
    let '(current_len, bytes) := r in
    if negb (current_len =? 0) then
      mret (inl (mk_rv (s32 (rv_i l + 1)) (rv_buf l ++ bytes) (rv_lens l ++ [current_len])))
    else
      net_wait E1000_ICR_RXDMT0 NNetRecv;;
      mret (inr (RBlocked l))
  else mret (inr (RReturned (Z.of_nat (length (rv_buf l))) l)).

Definition do_net_recv (pkt_num : Z) (l : rv_vars) : M net_state recv_result :=
  while_ (S (Z.to_nat (pkt_num - rv_i l))) (net_recv_step pkt_num) l.

Definition e1000_handle_txqe : M net_state unit :=
  n_sched (wakeup NNetSend);;
  n_nic (e1000_write_reg E1000_IMC E1000_ICR_TXQE).
Definition e1000_handle_rxdmt0 : M net_state unit :=
  n_sched (wakeup NNetRecv);;
  n_nic (e1000_write_reg E1000_IMC E1000_ICR_RXDMT0).

Definition net_handle_irq : M net_state unit :=
  icr ← n_nic e1000_read_icr;
  (if negb (Z.land icr E1000_ICR_TXQE =? 0) then e1000_handle_txqe else mret ());;
  (if negb (Z.land icr E1000_ICR_RXDMT0 =? 0) then e1000_handle_rxdmt0 else mret ()).

(** ** Invariant *)

Record net_inv (s : net_state) (Q : gmap node (list tcb)) (sending received : list (list Z)) : Prop := {
  ni_sched : sched_inv (nt_sched s) Q;
  ni_nic : nic_inv (nt_nic s) sending received;
  ni_send : is_Some (Q !! NNetSend);
  ni_recv : is_Some (Q !! NNetRecv)
}.

(** Writing a register that is none of the rings' keeps them. *)
Lemma nic_inv_reg s q r x v :
  nic_inv s q r → x ∉ [E1000_TDH; E1000_TDT; E1000_RDH; E1000_RDT] →
  nic_inv (upd_regs (set_reg x v (regs s)) s) q r.
Proof.
  intros HI Hx. eapply card_signals_ok; [exact HI|]. eexists. split; [done|].
  intros y Hy. apply set_reg_ne. by intros ->.
Qed.

(** Waiting turns the interrupt on and puts the caller at the tail of the queue. *)
Lemma net_wait_ok s Q q r v hd ws :
  net_inv s Q q r → runs (nt_sched s) Q → Q !! hd = Some ws → hd ≠ NReady →
  ∃ s', net_wait v hd s = Ok () s' ∧
    net_inv s' (<[hd := ws ++ [current (nt_sched s)]]> Q) q r ∧
    status (pcbs (nt_sched s') (current (nt_sched s))) = TASK_BLOCKED ∧
    regs (nt_nic s') E1000_IMS = v.
Proof.
  intros [HS HN H1 H2] [Hp Hq Hk] Hws Hne. unfold net_wait, e1000_write_reg.
  rewrite (bind_ok _ _ _ _ _ (n_nic_ok (modify (λ s, upd_regs (set_reg E1000_IMS v (regs s)) s)) s () _ eq_refl)).
  destruct (do_block_ok (nt_sched s) Q hd ws (current (nt_sched s))) as (h & Hb & HL);
    [apply HS|done|done|by apply is_proc_valid|done|].
  eexists. split; [apply n_sched_ok; rewrite bind_get; exact Hb|]. split; [split|split].
  - eapply sched_inv_block; try done.
  - apply nic_inv_reg; [exact HN|set_solver].
  - destruct (decide (hd = NNetSend)) as [->|]; [by rewrite lookup_insert_eq|by rewrite lookup_insert_ne].
  - destruct (decide (hd = NNetRecv)) as [->|]; [by rewrite lookup_insert_eq|by rewrite lookup_insert_ne].
  - simpl. by rewrite decide_True.
  - simpl. apply set_reg_eq.
Qed.

(** Sending hands the packet to the card, or waits while the ring is full. *)
Lemma do_net_send_ok s Q q r pkt len ws :
  net_inv s Q q r → runs (nt_sched s) Q → Q !! NNetSend = Some ws → 0 < len ≤ Z.of_nat (length pkt) →
  wp (do_net_send pkt len) s (λ o s',
    if decide (length q = 63%nat) then
      o = None ∧ net_inv s' (<[NNetSend := ws ++ [current (nt_sched s)]]> Q) q r ∧
      status (pcbs (nt_sched s') (current (nt_sched s))) = TASK_BLOCKED
    else
      o = Some (Z.min len TX_PKT_SIZE) ∧
      net_inv s' Q (q ++ [take (Z.to_nat (Z.min len TX_PKT_SIZE)) pkt]) r ∧ nt_sched s' = nt_sched s).
Proof.
  intros HI Hr Hws Hlen. pose proof (ni_nic _ _ _ _ HI) as HN. pose proof (tr_room _ _ (proj1 HN)).
  unfold do_net_send. rewrite wp_bind. case_decide as E.
  - rewrite (wp_ok _ _ _ _ _ (n_nic_ok _ s _ _ (transmit_full tx_pkt_kva _ q pkt len (proj1 HN) E))). simpl.
    rewrite wp_bind. destruct (net_wait_ok s Q q r E1000_ICR_TXQE NNetSend ws HI Hr Hws) as (s' & He & HI' & Hs & _); [done|].
    replace (nt_upd_nic (nt_nic s) s) with s by by destruct s.
    rewrite (wp_ok _ _ _ _ _ He). done.
  - destruct (transmit_ok tx_pkt_kva (nt_nic s) q r pkt len HN ltac:(lia) ltac:(lia)) as (x & He & HI').
    rewrite (wp_ok _ _ _ _ _ (n_nic_ok _ s _ _ He)). destruct (Z.ltb_spec 0 (Z.min len 2048)); [|lia].
    rewrite wp_ret. split; [done|]. split; [|done]. split; [apply HI|done|apply HI|apply HI].
Qed.

(** The packets [ps] are in the buffer, one behind the other, with their lengths. *)
Definition add_packets (ps : list (list Z)) (l : rv_vars) : rv_vars :=
  mk_rv (rv_i l + Z.of_nat (length ps)) (rv_buf l ++ concat ps) (rv_lens l ++ ((λ p, Z.of_nat (length p)) <$> ps)).

Lemma add_packets_cons p ps l :
  add_packets (p :: ps) l
  = add_packets ps (mk_rv (rv_i l + 1) (rv_buf l ++ p) (rv_lens l ++ [Z.of_nat (length p)])).
Proof.
  unfold add_packets. cbn [rv_i rv_buf rv_lens length]. rewrite fmap_cons. cbn [concat].
  f_equal; [lia|by rewrite <- app_assoc|by rewrite <- app_assoc].
Qed.

(** a call of [do_net_recv] takes the received packets in order, puts them
    one behind the other into the user's buffer with their lengths in the array,
    and returns the sum of the lengths when it has as many as were asked for;
    with fewer it turns the receive interrupt on and waits at the tail of the
    queue, keeping what it has, and goes on from there when it is woken. *)
Theorem do_net_recv_spec s Q q r pkt_num l ws :
  net_inv s Q q r → runs (nt_sched s) Q → Q !! NNetRecv = Some ws →
  0 ≤ rv_i l ≤ pkt_num → pkt_num < 2 ^ 31 →
  let n := Z.to_nat (pkt_num - rv_i l) in
  let l' := add_packets (take n r) l in
  wp (do_net_recv pkt_num l) s (λ res s',
    if decide (n ≤ length r)%nat then
      res = RReturned (Z.of_nat (length (rv_buf l'))) l' ∧ net_inv s' Q q (drop n r) ∧ nt_sched s' = nt_sched s
    else
      res = RBlocked l' ∧ net_inv s' (<[NNetRecv := ws ++ [current (nt_sched s)]]> Q) q [] ∧
      status (pcbs (nt_sched s') (current (nt_sched s))) = TASK_BLOCKED ∧
      regs (nt_nic s') E1000_IMS = E1000_ICR_RXDMT0).
Proof.
  intros HI Hr Hws Hi Hmax n l'. unfold do_net_recv. fold n.
  assert (Hn : n = Z.to_nat (pkt_num - rv_i l)) by done. clearbody n.
  assert (Hl' : l' = add_packets (take n r) l) by done. clearbody l'.
  revert s r l HI Hr Hi Hn Hl'. induction n as [|n IH]; intros s r l HI Hr Hi Hn Hl'; cbn [while_].
  - unfold net_recv_step. destruct (Z.ltb_spec (rv_i l) pkt_num); [lia|].
    rewrite wp_bind, wp_ret, wp_ret, decide_True by lia. rewrite take_0 in Hl'.
    assert (l' = l) as -> by (rewrite Hl'; destruct l; unfold add_packets; cbn; rewrite !app_nil_r; f_equal; lia).
    split; [done|]. by rewrite drop_0.
  - cbn [while_]. rewrite wp_bind. unfold net_recv_step at 1. destruct (Z.ltb_spec (rv_i l) pkt_num); [|lia].
    pose proof (ni_nic _ _ _ _ HI) as HN. rewrite wp_bind. destruct r as [|p r].
    + rewrite (wp_ok _ _ _ _ _ (n_nic_ok _ s _ _ (poll_empty _ [] (proj2 HN) eq_refl))). cbn [Z.eqb negb].
      replace (nt_upd_nic (nt_nic s) s) with s by by destruct s.
      rewrite wp_bind. destruct (net_wait_ok s Q q [] E1000_ICR_RXDMT0 NNetRecv ws HI Hr Hws) as (s' & He & HI' & Hs & Hreg); [done|].
      rewrite (wp_ok _ _ _ _ _ He), !wp_ret. rewrite decide_False by (simpl; lia). rewrite take_nil in Hl'.
      assert (l' = l) as -> by (rewrite Hl'; destruct l; unfold add_packets; cbn; rewrite !app_nil_r; f_equal; lia).
      done.
    + destruct (poll_ok (nt_nic s) q p r HN) as (x & He & HI').
      destruct (rr_pkt _ _ (proj2 HN) 0%nat p eq_refl) as (_ & _ & _ & _ & _ & _ & Hpos & _).
      rewrite (wp_ok _ _ _ _ _ (n_nic_ok _ s _ _ He)). destruct (Z.eqb_spec (Z.of_nat (length p)) 0); [lia|].
      cbn [negb]. rewrite wp_ret, s32_id by lia. cbn [firstn] in Hl'. rewrite add_packets_cons in Hl'.
      specialize (IH (nt_upd_nic x s) r (mk_rv (rv_i l + 1) (rv_buf l ++ p) (rv_lens l ++ [Z.of_nat (length p)]))).
      cbn [rv_i rv_buf rv_lens nt_upd_nic nt_sched] in IH. eapply wp_mono.
      { apply IH; [|done|lia|lia|exact Hl']. split; [apply HI|exact HI'|apply HI|apply HI]. }
      intros res s' H'. destruct (decide (n ≤ length r)%nat).
      * rewrite decide_True by (simpl; lia). done.
      * rewrite decide_False by (simpl; lia). done.
Qed.
End Net.

(** An interrupt of the card: exactly the processes that wait for the causes it
    reports become ready, in order, and those causes are masked. *)
Lemma net_handle_irq_recv s Q q r ws rs :
  net_inv s Q q r → Z.land (regs (nt_nic s) E1000_ICR) E1000_ICR_TXQE = 0 →
  Z.land (regs (nt_nic s) E1000_ICR) E1000_ICR_RXDMT0 ≠ 0 →
  Q !! NNetRecv = Some ws → Q !! NReady = Some rs →
  wp net_handle_irq s (λ _ s',
    net_inv s' (<[NReady := rs ++ ws]> (<[NNetRecv := []]> Q)) q r ∧
    (∀ t, t ∈ ws → status (pcbs (nt_sched s') t) = TASK_READY) ∧
    regs (nt_nic s') E1000_IMC = E1000_ICR_RXDMT0).
Proof.
  intros [HS HN H1 H2] Ht Hr Hws Hrs. unfold net_handle_irq, e1000_read_icr, e1000_write_reg.
  set (x1 := upd_regs (set_reg E1000_ICR 0 (regs (nt_nic s))) (nt_nic s)).
  set (s1 := nt_upd_nic x1 s). rewrite wp_bind.
  rewrite (wp_ok _ _ _ (regs (nt_nic s) E1000_ICR) s1) by done.
  rewrite Ht. cbn [Z.eqb negb]. destruct (Z.eqb_spec (Z.land (regs (nt_nic s) E1000_ICR) E1000_ICR_RXDMT0) 0); [done|].
  cbn [negb]. rewrite wp_bind, wp_ret. unfold e1000_handle_rxdmt0. rewrite wp_bind.
  assert (Hv : ∀ t, t ∈ ws → valid_tcb t).
  { intros t Hin. apply is_proc_valid. by apply (sv_proc _ _ HS NNetRecv ws). }
  destruct (wakeup_ok (nt_sched s1) Q NNetRecv ws rs (sv_linked _ _ HS)) as (h & Hw & HL); [done..|].
  rewrite (wp_ok _ _ _ _ _ (n_sched_ok _ s1 _ _ Hw)).
  unfold wp, n_nic, zoom, e1000_write_reg, modify. split; [split|split].
  - cbn [nt_sched nt_upd_sched nt_upd_nic]. eapply sched_inv_wake; try done.
    + intros t Hin. split; [done|]. apply not_elem_of_nil.
    + intros t Hin. by apply not_elem_of_nil in Hin.
  - cbn [nt_nic nt_upd_sched nt_upd_nic]. apply nic_inv_reg; [|set_solver]. apply nic_inv_reg; [done|set_solver].
  - rewrite !lookup_insert_ne by done. done.
  - rewrite lookup_insert_ne, lookup_insert_eq by done. by eexists.
  - intros t Hin. cbn. by rewrite wake_pcbs_lookup, decide_True.
  - cbn. apply set_reg_eq.
Qed.

(** An example: two packets have arrived, and three are asked for. *)
Lemma ex_received : ∃ x, nic_inv x [] [[1; 2]; [3]].
Proof.
  destruct (e1000_init_ok 0 0 0 nic0 nic0_sizes) as (s0 & _ & H0).
  destruct (card_can_receive s0 _ _ [1; 2] H0) as [s1 E1]; [simpl; lia..|].
  destruct (card_receives_ok _ _ _ _ _ H0 E1) as [H1 _].
  destruct (card_can_receive s1 _ _ [3] H1) as [s2 E2]; [simpl; lia..|].
  destruct (card_receives_ok _ _ _ _ _ H1 E2) as [H2 _]. by exists s2.
Qed.

Lemma ex_net_inv x q r : nic_inv x q r → net_inv (mk_net ex_sched x) ex_queues q r.
Proof.
  intros Hx. split; [apply ex_sched_inv|done| |].
  - exists []. by vm_compute.
  - exists []. by vm_compute.
Qed.

Lemma do_net_recv_spec_witness :
  ∃ x, nic_inv x [] [[1; 2]; [3]] ∧
  wp (do_net_recv 3 (mk_rv 0 [] [])) (mk_net ex_sched x) (λ res s',
    res = RBlocked (mk_rv 2 [1; 2; 3] [2; 1]) ∧ status (pcbs (nt_sched s') (Proc 0)) = TASK_BLOCKED).
Proof.
  destruct ex_received as [x Hx]. exists x. split; [exact Hx|].
  eapply wp_mono.
  - apply (do_net_recv_spec (mk_net ex_sched x) ex_queues [] [[1; 2]; [3]] 3 (mk_rv 0 [] []) []
      (ex_net_inv x _ _ Hx) ex_sched_runs); [by vm_compute|simpl; lia|lia].
  - intros res s'. cbn [rv_i]. rewrite decide_False by (simpl; lia). intros (-> & _ & Hs & _). by split.
Defined.
