(* ===== verification/Stream.v ===== *)
(** kernel/net/stream.c: the reliable byte stream over single packets, with
    the queue of packets that arrive out of order.

    The reorder queue is the pointer-level list of KList, whose nodes are the
    slots of [reorder_entries] and the head. What the stream needs from below
    (polling the card, sending a packet, the clock, sleeping) is the interface
    [RtpLink]; what it relies on is [RtpLaws]. A store outside of a buffer is
    stuck. *)
From S2P Require Import Prelude KMonad Bytes KList.

Definition E1000_RTP_OFFSET : nat := 54.
Definition RTP_HDR_SIZE : nat := 8.
Definition RTP_MAGIC : Z := 0x45.
Definition RTP_DAT : Z := 1.
Definition RTP_RSD : Z := 2.
Definition RTP_ACK : Z := 4.
Definition MIN_PKG_SIZE : nat := 64.
Definition RTP_WINDOW_SIZE : Z := 4096.
Definition MAX_REORDER_NUM : nat := 32.
Definition ENTRY_DATA : nat := 2048.
Definition RX_PKT : nat := 2048.
Definition RSD_TIMEOUT_TICKS : Z := 100000.
Definition RECV_TIMEOUT_TICKS : Z := RSD_TIMEOUT_TICKS * 30.
Definition RSD_SLEEP_TIME : Z := 1.

Definition ntohs (v : Z) : Z := u16 (Z.lor (Z.shiftl v 8) (Z.shiftr v 8)).
Definition htons (v : Z) : Z := u16 (Z.lor (Z.shiftl v 8) (Z.shiftr v 8)).
Definition ntohl (v : Z) : Z :=
  u32 (Z.lor (Z.lor (Z.lor (Z.shiftl v 24) (Z.shiftl (Z.land v 0xff00) 8))
         (Z.shiftr (Z.land v 0xff0000) 8)) (Z.shiftr v 24)).
Definition htonl (v : Z) : Z :=
  u32 (Z.lor (Z.lor (Z.lor (Z.shiftl v 24) (Z.shiftl (Z.land v 0xff00) 8))
         (Z.shiftr (Z.land v 0xff0000) 8)) (Z.shiftr v 24)).

(** [e1000_poll], [do_net_send], [get_ticks] and [do_sleep]. *)
Class RtpLink (S : Type) := {
  lk_poll : M S (Z * list Z);
  lk_send : list Z → Z → M S unit;
  lk_ticks : M S Z;
  lk_sleep : Z → M S unit
}.

(** [struct rtphdr], little endian as the processor stores it. *)
Record rtphdr := mk_hdr { h_magic : Z; h_flags : Z; h_len : Z; h_seq : Z }.
Definition hdr_bytes (h : rtphdr) : list Z :=
  bytes_of 1 (h_magic h) ++ bytes_of 1 (h_flags h) ++ bytes_of 2 (h_len h) ++ bytes_of 4 (h_seq h).
Definition hdr_of (b : list Z) : rtphdr :=
  mk_hdr (field 54 1 b) (field 55 1 b) (field 56 2 b) (field 58 4 b).

(** [len] is an [int]. *)
Record stream_buffer_entry := mk_entry { e_seq : Z; e_len : Z; e_data : list Z }.

(** The node of slot [i] is [Some i], the head of the queue [None]. *)
Record stream_state (S : Type) := mk_st {
  reorder_heap : gmap (option nat) (list_node (K := option nat));
  reorder_entries : list stream_buffer_entry;
  next_expect_seq : Z;
  last_valid_header : list Z;
  has_valid_header : Z;
  link : S
}.
Arguments mk_st {S}.
Arguments reorder_heap {S}.
Arguments reorder_entries {S}.
Arguments next_expect_seq {S}.
Arguments last_valid_header {S}.
Arguments has_valid_header {S}.
Arguments link {S}.

Section Stream.
Context {S : Type} `{RtpLink S}.
Implicit Types (s : stream_state S).

Definition upd_rheap h s := mk_st (S := S) h (reorder_entries s) (next_expect_seq s) (last_valid_header s) (has_valid_header s) (link s).
Definition upd_entries l s := mk_st (S := S) (reorder_heap s) l (next_expect_seq s) (last_valid_header s) (has_valid_header s) (link s).
Definition upd_next n s := mk_st (S := S) (reorder_heap s) (reorder_entries s) n (last_valid_header s) (has_valid_header s) (link s).
Definition upd_header h v s := mk_st (S := S) (reorder_heap s) (reorder_entries s) (next_expect_seq s) h v (link s).
Definition upd_link x s := mk_st (S := S) (reorder_heap s) (reorder_entries s) (next_expect_seq s) (last_valid_header s) (has_valid_header s) x.
Definition on_link {A} (m : M S A) : M (stream_state S) A := zoom link upd_link m.

Definition entry (i : nat) : M (stream_state S) stream_buffer_entry :=
  s ← get; of_opt (reorder_entries s !! i).
Definition set_entry (i : nat) (e : stream_buffer_entry) : M (stream_state S) unit :=
  modify (λ s, upd_entries (<[i := e]> (reorder_entries s)) s).

Definition init_stream : M (stream_state S) unit :=
  s ← get;
  h ← of_opt (init_queue (reorder_heap s) None);
  modify (upd_rheap h);;
  for_ 0 MAX_REORDER_NUM (λ i, e ← entry i; set_entry i (mk_entry 0 0 (e_data e))).

(** ** Control packets *)

(** The packet that is sent, and whether the saved header was used up. *)
Definition control_packet (flags seq : Z) s : list Z :=
  let packet := replicate MIN_PKG_SIZE 0 in
  let packet :=
    if negb (has_valid_header s =? 0) then
      let packet := splice 0 (last_valid_header s) packet in
      let tmp_mac := take 6 packet in
      let packet := splice 0 (take 6 (drop 6 packet)) packet in
      splice 6 tmp_mac packet
    else splice 0 (replicate 6 0xff) packet in
  splice E1000_RTP_OFFSET (hdr_bytes (mk_hdr RTP_MAGIC flags 0 (htonl seq))) packet.

Definition send_control_packet (flags seq : Z) : M (stream_state S) unit :=
  s ← get;
  let packet := control_packet flags seq s in
  (if negb (has_valid_header s =? 0) then modify (λ s, upd_header (last_valid_header s) 0 s) else mret ());;
  on_link (lk_send packet (Z.of_nat MIN_PKG_SIZE)).

(** ** The reorder queue *)

Definition get_entry_step (seq : Z) (nd : option nat) : M (stream_state S) (option nat + option nat) :=
  match nd with
  | None => mret (inr None)
  | Some i =>
      e ← entry i;
      if e_seq e =? seq then mret (inr (Some i)) else
      s ← get;
      nxt ← of_opt (ld_next (reorder_heap s) nd);
      mret (inl nxt)
  end.

(** At most every node of the heap is visited. *)
Definition get_reorder_entry (seq : Z) : M (stream_state S) (option nat) :=
  s ← get;
  nxt ← of_opt (ld_next (reorder_heap s) None);
  while_ (Datatypes.S (size (reorder_heap s))) (get_entry_step seq) nxt.

Definition get_reorder_slot : M (stream_state S) (option nat) :=
  s ← get;
  mret (first_index MAX_REORDER_NUM
          (λ i, match reorder_entries s !! i with Some e => e_len e =? 0 | None => false end)).

Definition free_reorder_slot (i : nat) : M (stream_state S) unit :=
  e ← entry i; set_entry i (mk_entry 0 0 (e_data e)).

Definition seq_of s (nd : option nat) : Z :=
  match nd with
  | Some i => match reorder_entries s !! i with Some e => e_seq e | None => 0 end
  | None => 0
  end.
Definition compare_seq s (node1 node2 : option nat) : Z := if seq_of s node2 <? seq_of s node1 then 1 else 0.

(** [data] is what lies at the pointer. *)
Definition insert_reorder_packet (seq len : Z) (data : list Z) : M (stream_state S) unit :=
  s ← get;
  if seq <? next_expect_seq s then mret () else
  if u32 (next_expect_seq s + RTP_WINDOW_SIZE) <? seq then mret () else
  there ← get_reorder_entry seq;
  match there with
  | Some _ => mret ()
  | None =>
      new_entry ← get_reorder_slot;
      match new_entry with
      | None => mret ()
      | Some i =>
          e ← entry i;
          assert ((0 <=? len) && (len <=? Z.of_nat ENTRY_DATA) && (len <=? Z.of_nat (length data)));;
          set_entry i (mk_entry seq len (splice 0 (take (Z.to_nat len) data) (e_data e)));;
          s ← get;
          h ← of_opt (list_insert (Datatypes.S (size (reorder_heap s))) (reorder_heap s) (Some i) None (compare_seq s));
          modify (upd_rheap h)
      end
  end.

Definition do_reset_stream : M (stream_state S) unit := modify (upd_next 0).

(** ** Receiving *)

(** The locals: what is at [buffer], [raw_buffer], and the two times. *)
Record sr_vars := mk_sr { received : list Z; raw_buffer : list Z; last_rsd_time : Z; last_progress_time : Z }.

(** The expected bytes are in the reorder queue, in slot [i]. *)
Definition take_buffered (wanted : Z) (i : nat) (l : sr_vars) : M (stream_state S) sr_vars :=
  s ← get;
  e ← entry i;
  let left := wanted - Z.of_nat (length (received l)) in
  let copy_len := if left <? e_len e then left else e_len e in
  assert ((0 <=? copy_len) && (copy_len <=? Z.of_nat (length (e_data e))));;
  send_control_packet RTP_ACK (u32 (next_expect_seq s + e_len e));;
  modify (λ s, upd_next (u32 (next_expect_seq s + copy_len)) s);;
  now ← on_link lk_ticks;
  (if copy_len <? e_len e then
     set_entry i (mk_entry (u32 (e_seq e + copy_len)) (e_len e - copy_len) (e_data e))
   else
     s ← get;
     h ← of_opt (del_node (reorder_heap s) (Some i));
     modify (upd_rheap h);;
     free_reorder_slot i);;
  mret (mk_sr (received l ++ take (Z.to_nat copy_len) (e_data e)) (raw_buffer l) (last_rsd_time l) now).

(** No packet: [None] on a timeout. *)
Definition wait_packet (l : sr_vars) : M (stream_state S) (option sr_vars) :=
  s ← get;
  current_time ← on_link lk_ticks;
  if RECV_TIMEOUT_TICKS <? u64 (current_time - last_progress_time l) then mret None else
  l ← (if RSD_TIMEOUT_TICKS <? u64 (current_time - last_rsd_time l) then
         send_control_packet RTP_RSD (next_expect_seq s);;
         mret (mk_sr (received l) (raw_buffer l) current_time (last_progress_time l))
       else mret l);
  on_link (lk_sleep RSD_SLEEP_TIME);;
  mret (Some l).

(** The header of the first packet since the last control packet is kept. *)
Definition save_header (raw : list Z) : M (stream_state S) unit :=
  modify (λ s, if has_valid_header s =? 0 then upd_header (take E1000_RTP_OFFSET raw) 1 s else s).

(** A data packet with [seq] and [len], whose payload is at [data]. *)
Definition take_packet (wanted seq len : Z) (data : list Z) (l : sr_vars) : M (stream_state S) sr_vars :=
  s ← get;
  if seq =? next_expect_seq s then
    let left := wanted - Z.of_nat (length (received l)) in
    let copy_len := if left <? len then left else len in
    assert ((0 <=? copy_len) && (copy_len <=? Z.of_nat (length data)));;
    send_control_packet RTP_ACK (u32 (next_expect_seq s + len));;
    modify (λ s, upd_next (u32 (next_expect_seq s + copy_len)) s);;
    (if copy_len <? len then
       insert_reorder_packet (u32 (next_expect_seq s + copy_len)) (len - copy_len) (drop (Z.to_nat copy_len) data)
     else mret ());;
    mret (mk_sr (received l ++ take (Z.to_nat copy_len) data) (raw_buffer l) (last_rsd_time l) (last_progress_time l))
  else if next_expect_seq s <? seq then
    insert_reorder_packet seq len data;;
    s ← get;
    send_control_packet RTP_RSD (next_expect_seq s);;
    now ← on_link lk_ticks;
    mret (mk_sr (received l) (raw_buffer l) now (last_progress_time l))
  else
    send_control_packet RTP_ACK (next_expect_seq s);;
    mret l.

Definition stream_step (wanted : Z) (l : sr_vars) : M (stream_state S) (sr_vars + sr_vars) :=
  if negb (Z.of_nat (length (received l)) <? wanted) then mret (inr l) else
  s ← get;
  e ← get_reorder_entry (next_expect_seq s);
  match e with
  | Some i => l ← take_buffered wanted i l; mret (inl l)
  | None =>
      r ← on_link lk_poll;
      let '(pkt_len, bytes) := r in
      let raw := splice 0 bytes (raw_buffer l) in
      let l := mk_sr (received l) raw (last_rsd_time l) (last_progress_time l) in
      if pkt_len =? 0 then
        o ← wait_packet l;
        mret (match o with None => inr l | Some l => inl l end)
      else if pkt_len <? Z.of_nat (E1000_RTP_OFFSET + RTP_HDR_SIZE) then mret (inl l)
      else
        let hdr := hdr_of raw in
        if negb (h_magic hdr =? RTP_MAGIC) then mret (inl l)
        else if negb (h_flags hdr =? RTP_DAT) then mret (inl l)
        else
          save_header raw;;
          l ← take_packet wanted (ntohl (h_seq hdr)) (ntohs (h_len hdr))
                (drop (E1000_RTP_OFFSET + RTP_HDR_SIZE) raw) l;
          mret (inl l)
  end.

(** [raw0]: what the local array holds. The bytes put into the user's buffer,
    whose number is returned. *)
Definition do_net_recv_stream (fuel : nat) (raw0 : list Z) (wanted : Z) : M (stream_state S) (list Z) :=
  now ← on_link lk_ticks;
  l ← while_ fuel (stream_step wanted) (mk_sr [] raw0 0 now);
  mret (received l).
End Stream.

(** ** What the stream relies on *)

(** The bytes from position [p] on of the stream that is sent. *)
Definition segment (stream : Z → Z) (p : Z) (n : nat) : list Z := (λ k, stream (p + Z.of_nat k)) <$> seq 0 n.

Definition is_data (p : list Z) : bool :=
  (h_magic (hdr_of p) =? RTP_MAGIC) && (h_flags (hdr_of p) =? RTP_DAT).
Definition data_seq (p : list Z) : Z := ntohl (h_seq (hdr_of p)).
Definition data_len (p : list Z) : Z := ntohs (h_len (hdr_of p)).

(** A data packet carries a piece of the stream, as long as its header says. *)
Definition truthful (stream : Z → Z) (p : list Z) : Prop :=
  (length p ≤ RX_PKT)%nat ∧
  ((62 ≤ length p)%nat → is_data p = true →
   0 < data_len p ∧ 62 + data_len p ≤ Z.of_nat (length p) ∧ 0 ≤ data_seq p ∧
   data_seq p + data_len p < 2 ^ 32 ∧
   take (Z.to_nat (data_len p)) (drop 62 p) = segment stream (data_seq p) (Z.to_nat (data_len p))).

(** [lk_ok n b now x]: at most [n] packets are still to come, the clock shows
    [now] and does not overflow within [b] more sleeps. *)
Class RtpLaws (S : Type) `{RtpLink S} (stream : Z → Z) := {
  lk_ok : nat → Z → Z → S → Prop;
  lk_time n b now x : lk_ok n b now x → 0 ≤ now < 2 ^ 64;
  lk_poll_law n b now x : lk_ok n b now x →
    wp lk_poll x (λ r x', ∃ n' now', lk_ok n' b now' x' ∧ now ≤ now' ∧ (n' ≤ n)%nat ∧
      r.1 = Z.of_nat (length r.2) ∧ truthful stream r.2 ∧ (r.2 ≠ [] → (n' < n)%nat));
  lk_send_law n b now x p len : lk_ok n b now x → 0 < len ≤ Z.of_nat (length p) →
    wp (lk_send p len) x (λ _ x', ∃ n' now', lk_ok n' b now' x' ∧ now ≤ now' ∧ (n' ≤ n)%nat);
  lk_ticks_law n b now x : lk_ok n b now x →
    wp lk_ticks x (λ t x', ∃ n', lk_ok n' b t x' ∧ now ≤ t ∧ (n' ≤ n)%nat);
  lk_sleep_law n b now x : lk_ok n b now x → 0 < b →
    wp (lk_sleep RSD_SLEEP_TIME) x (λ _ x', ∃ n' now', lk_ok n' (b - 1) now' x' ∧ now < now' ∧ (n' ≤ n)%nat)
}.

Section Segments.
Context (stream : Z → Z).

Lemma segment_length p n : length (segment stream p n) = n.
Proof. unfold segment. by rewrite length_fmap, length_seq. Qed.

Lemma segment_lookup p n i : (i < n)%nat → segment stream p n !! i = Some (stream (p + Z.of_nat i)).
Proof. intros Hi. unfold segment. by rewrite list_lookup_fmap, lookup_seq_lt. Qed.

Lemma segment_app p a b : segment stream p (a + b) = segment stream p a ++ segment stream (p + Z.of_nat a) b.
Proof.
  unfold segment. rewrite seq_app, fmap_app. f_equal. simpl. rewrite <- (Nat.add_0_r a) at 1.
  rewrite <- fmap_add_seq, <- list_fmap_compose. apply list_fmap_ext. intros i k _. unfold compose. f_equal. lia.
Qed.

Lemma segment_take p n k : (k ≤ n)%nat → take k (segment stream p n) = segment stream p k.
Proof.
  intros Hk. replace n with (k + (n - k))%nat by lia. rewrite segment_app.
  apply take_app_length'. by rewrite segment_length.
Qed.

Lemma segment_drop p n k : (k ≤ n)%nat → drop k (segment stream p n) = segment stream (p + Z.of_nat k) (n - k).
Proof.
  intros Hk. replace n with (k + (n - k))%nat at 1 by lia. rewrite segment_app.
  apply drop_app_length'. by rewrite segment_length.
Qed.
End Segments.

(** ** The invariant of the reorder queue *)

(** Slot [e] holds a piece of the stream. *)
Definition holds (stream : Z → Z) (e : stream_buffer_entry) : Prop :=
  0 < e_len e ≤ 2048 ∧ 0 ≤ e_seq e ∧ e_seq e + e_len e < 2 ^ 32 ∧
  take (Z.to_nat (e_len e)) (e_data e) = segment stream (e_seq e) (Z.to_nat (e_len e)).

Section Correct.
Context {S : Type} `{RtpLink S} (stream : Z → Z) `{!RtpLaws S stream}.
Implicit Types (s : stream_state S).

(** [xs]: the slots in the queue; exactly these are in use. *)
Record stream_ok s (xs : list nat) : Prop := {
  so_queue : queues (reorder_heap s) {[ None := Some <$> xs ]};
  so_nodes i : (i < 32)%nat → is_Some (reorder_heap s !! Some i);
  so_size : length (reorder_entries s) = 32%nat;
  so_data i e : reorder_entries s !! i = Some e → length (e_data e) = 2048%nat;
  so_slots i : i ∈ xs → (i < 32)%nat;
  so_used i e : reorder_entries s !! i = Some e → i ∈ xs → holds stream e;
  so_free i e : reorder_entries s !! i = Some e → i ∉ xs → e_len e = 0;
  so_next : 0 ≤ next_expect_seq s < 2 ^ 32;
  so_header : length (last_valid_header s) = E1000_RTP_OFFSET
}.

Lemma so_ring s xs : stream_ok s xs → is_queue (reorder_heap s) None (Some <$> xs).
Proof. intros HI. apply (q_ring _ _ (so_queue _ _ HI)). by rewrite lookup_singleton_eq. Qed.

Lemma so_entry s xs i : stream_ok s xs → (i < 32)%nat → ∃ e, reorder_entries s !! i = Some e.
Proof. intros HI Hi. apply lookup_lt_is_Some_2. by rewrite (so_size _ _ HI). Qed.

Lemma entry_ok s i e : reorder_entries s !! i = Some e → entry i s = Ok e s.
Proof. intros He. unfold entry. rewrite bind_get. unfold of_opt. by rewrite He. Qed.

Lemma get_entry_loop s xs q ys zs fuel :
  stream_ok s xs → xs = ys ++ zs → (length zs < fuel)%nat →
  ∃ r, while_ fuel (get_entry_step q) (default None (Some <$> head zs)) s = Ok r s ∧
    match r with
    | Some i => ∃ e, i ∈ xs ∧ reorder_entries s !! i = Some e ∧ e_seq e = q
    | None => ∀ i e, i ∈ zs → reorder_entries s !! i = Some e → e_seq e ≠ q
    end.
Proof.
  intros HI. revert ys zs. induction fuel as [|fuel IH]; intros ys zs -> Hf; [lia|]. rewrite while_eq.
  destruct zs as [|i zs]; [exists None; split; [done|]; intros i e Hi; by apply not_elem_of_nil in Hi|].
  cbn [head fmap option_fmap option_map default get_entry_step from_option id].
  assert (Hi : i ∈ ys ++ i :: zs) by set_solver.
  destruct (so_entry _ _ i HI (so_slots _ _ HI i Hi)) as [e He].
  rewrite (bind_ok _ _ _ _ _ (entry_ok _ _ _ He)).
  destruct (Z.eqb_spec (e_seq e) q) as [E|E]; [exists (Some i); split; [done|]; by exists e|].
  rewrite bind_get.
  assert (Hn : ld_next (reorder_heap s) (Some i) = Some (default None (Some <$> head zs))).
  { pose proof (so_ring _ _ HI) as HR. rewrite fmap_app, fmap_cons in HR.
    rewrite (ring_next _ _ _ _ _ HR). destruct zs; done. }
  rewrite (bind_opt _ _ _ _ Hn). unfold mret, M_ret.
  destruct (IH (ys ++ [i]) zs) as (r & Hr & HP); [by rewrite <- app_assoc|simpl in Hf; lia|].
  exists r. split; [exact Hr|]. destruct r as [j|]; [done|].
  intros j e' [->|Hj]%elem_of_cons He'; [congruence|by apply (HP j)].
Qed.

Lemma get_reorder_entry_ok s xs q :
  stream_ok s xs → ∃ r, get_reorder_entry q s = Ok r s ∧
    match r with
    | Some i => ∃ e, i ∈ xs ∧ reorder_entries s !! i = Some e ∧ e_seq e = q
    | None => ∀ i e, i ∈ xs → reorder_entries s !! i = Some e → e_seq e ≠ q
    end.
Proof.
  intros HI. unfold get_reorder_entry. rewrite bind_get. pose proof (so_ring _ _ HI) as HR.
  rewrite (bind_opt _ _ _ _ (ring_first _ _ _ HR)).
  replace (default None (head (Some <$> xs))) with (default None (Some <$> head xs) : option nat) by (by destruct xs).
  apply (get_entry_loop s xs q [] xs); [done|done|].
  apply queue_length in HR. rewrite length_fmap in HR. lia.
Qed.

(** Operations that leave the queue, its slots and the position alone. *)
Definition same_stream s s' : Prop :=
  reorder_heap s' = reorder_heap s ∧ reorder_entries s' = reorder_entries s ∧ next_expect_seq s' = next_expect_seq s ∧
  length (last_valid_header s') = length (last_valid_header s).

Lemma stream_ok_same s s' xs : stream_ok s xs → same_stream s s' → stream_ok s' xs.
Proof. intros [] (E1 & E2 & E3 & E4). split; rewrite ?E1, ?E2, ?E3, ?E4; done. Qed.

Lemma on_link_wp {A} (m : M S A) s (Q : A → S → Prop) :
  wp m (link s) Q → wp (on_link m) s (λ a s', same_stream s s' ∧ Q a (link s')).
Proof. intros Hm. unfold on_link. rewrite wp_zoom. eapply wp_mono; [exact Hm|]. intros a x Hx. done. Qed.

Lemma control_packet_length flags q s :
  length (last_valid_header s) = E1000_RTP_OFFSET → length (control_packet flags q s) = MIN_PKG_SIZE.
Proof.
  intros Hh. unfold control_packet, E1000_RTP_OFFSET, MIN_PKG_SIZE, hdr_bytes in *.
  destruct (negb (has_valid_header s =? 0)); cbv zeta;
    repeat (rewrite length_splice || rewrite length_app || rewrite length_bytes_of || rewrite length_replicate
            || rewrite length_take || rewrite length_drop || rewrite Hh); lia.
Qed.

Lemma send_control_packet_ok s n b now flags q :
  length (last_valid_header s) = E1000_RTP_OFFSET → lk_ok n b now (link s) →
  wp (send_control_packet flags q) s (λ _ s', same_stream s s' ∧
    ∃ n' now', lk_ok n' b now' (link s') ∧ now ≤ now' ∧ (n' ≤ n)%nat).
Proof.
  intros Hh Hl. unfold send_control_packet. rewrite wp_bind, wp_get, wp_bind.
  assert (Hlen : 0 < Z.of_nat MIN_PKG_SIZE ≤ Z.of_nat (length (control_packet flags q s))).
  { rewrite control_packet_length by done. unfold MIN_PKG_SIZE. lia. }
  destruct (negb (has_valid_header s =? 0)).
  - rewrite wp_modify. eapply wp_mono; [apply on_link_wp, (lk_send_law n b now); [exact Hl|exact Hlen]|]. done.
  - rewrite wp_ret. eapply wp_mono; [apply on_link_wp, (lk_send_law n b now); [exact Hl|exact Hlen]|]. done.
Qed.

(** ** Putting a packet into the queue *)

Lemma insert_before_fmap {A} (comp : option A → option A → Z) (i : A) xs :
  insert_before comp (Some i) (Some <$> xs) = Some <$> insert_before (λ a b, comp (Some a) (Some b)) i xs.
Proof.
  induction xs as [|x xs IH]; [done|]. rewrite fmap_cons. cbn [insert_before].
  case_decide; [done|]. by rewrite IH.
Qed.

Lemma insert_before_perm {A} (comp : A → A → Z) i xs : insert_before comp i xs ≡ₚ i :: xs.
Proof.
  induction xs as [|x xs IH]; cbn [insert_before]; [done|]. case_decide; [done|].
  rewrite IH. apply Permutation_swap.
Qed.

Lemma so_free_node (xs : list nat) i : i ∉ xs → free_node {[ None := Some <$> xs ]} (Some i).
Proof.
  intros Hi hd l Hl. apply lookup_singleton_Some in Hl as [<- <-].
  intros [?|[j [[= ->] ?]]%list_elem_of_fmap]%elem_of_cons; done.
Qed.

(** Slot [i] filled with a piece of the stream and linked. *)
Lemma link_entry_ok s xs i e :
  stream_ok s xs → (i < 32)%nat → i ∉ xs → holds stream e → length (e_data e) = 2048%nat →
  let s1 := upd_entries (<[i := e]> (reorder_entries s)) s in
  ∃ h xs', list_insert (Datatypes.S (size (reorder_heap s))) (reorder_heap s) (Some i) None (compare_seq s1) = Some h ∧
    stream_ok (upd_rheap h s1) xs' ∧ length xs' = Datatypes.S (length xs).
Proof.
  intros HI Hi Hx He Hd s1. pose proof (so_ring _ _ HI) as HR.
  assert (Hfuel : (length (Some <$> xs) < Datatypes.S (size (reorder_heap s)))%nat) by (apply queue_length in HR; lia).
  destruct (list_insert_spec _ (reorder_heap s) {[ None := Some <$> xs ]} None (Some <$> xs) (Some i) (compare_seq s1)
    (so_queue _ _ HI) ltac:(by rewrite lookup_singleton_eq) (so_free_node xs i Hx) (so_nodes _ _ HI i Hi) Hfuel)
    as (h & Hh & HQ & Hn).
  rewrite insert_before_fmap in HQ. set (xs' := insert_before _ i xs) in HQ.
  assert (HP : xs' ≡ₚ i :: xs) by apply insert_before_perm.
  exists h, xs'. split; [exact Hh|]. split; [|by rewrite HP].
  assert (Hin : ∀ j, j ∈ xs' ↔ j = i ∨ j ∈ xs) by (intros j; rewrite HP; apply elem_of_cons).
  split; cbn [reorder_heap reorder_entries next_expect_seq upd_rheap upd_entries s1].
  - by rewrite insert_singleton_eq in HQ || rewrite insert_singleton in HQ.
  - intros j Hj. apply Hn. by apply (so_nodes _ _ HI).
  - rewrite length_insert. apply HI.
  - intros j e'. rewrite list_lookup_insert_Some. intros [(-> & -> & _)|[_ Hj]]; [done|by apply (so_data _ _ HI j)].
  - intros j [->|Hj]%Hin; [done|by apply (so_slots _ _ HI)].
  - intros j e'. rewrite list_lookup_insert_Some, Hin. intros [(-> & -> & _)|[Hne Hj]]; [done|].
    intros [->|Hjx]; [done|]. by apply (so_used _ _ HI j).
  - intros j e'. rewrite list_lookup_insert_Some, Hin. intros [(-> & -> & _)|[Hne Hj]] Hn'; [by destruct Hn'; left|].
    apply (so_free _ _ HI j); [done|]. intros ?. apply Hn'. by right.
  - apply HI.
  - apply HI.
Qed.

Lemma insert_reorder_packet_ok s xs q len data :
  stream_ok s xs → 0 < len ≤ 2048 → len ≤ Z.of_nat (length data) → 0 ≤ q → q + len < 2 ^ 32 →
  take (Z.to_nat len) data = segment stream q (Z.to_nat len) →
  ∃ s' xs', insert_reorder_packet q len data s = Ok () s' ∧ stream_ok s' xs' ∧
    (length xs' ≤ Datatypes.S (length xs))%nat ∧ next_expect_seq s' = next_expect_seq s ∧ link s' = link s.
Proof.
  intros HI Hlen Hdat Hq Hql Hseg. unfold insert_reorder_packet. rewrite bind_get.
  destruct (q <? next_expect_seq s); [exists s, xs; split; [done|]; split; [done|]; split; [lia|done]|].
  destruct (u32 (next_expect_seq s + RTP_WINDOW_SIZE) <? q); [exists s, xs; split; [done|]; split; [done|]; split; [lia|done]|].
  destruct (get_reorder_entry_ok s xs q HI) as (r & Hr & HP). rewrite (bind_ok _ _ _ _ _ Hr).
  destruct r as [i|]; [exists s, xs; split; [done|]; split; [done|]; split; [lia|done]|].
  unfold get_reorder_slot. rewrite bind_ok with (s' := s) (a := first_index MAX_REORDER_NUM
    (λ i, match reorder_entries s !! i with Some e => e_len e =? 0 | None => false end)) by done.
  destruct (first_index _ _) as [i|] eqn:Hfi; [|exists s, xs; split; [done|]; split; [done|]; split; [lia|done]].
  apply first_index_Some in Hfi as (Hi & Hfree & _). unfold MAX_REORDER_NUM in Hi.
  destruct (so_entry _ _ i HI Hi) as [e He]. rewrite He in Hfree. apply Z.eqb_eq in Hfree.
  assert (Hx : i ∉ xs). { intros Hx. pose proof (so_used _ _ HI i e He Hx) as [? _]. lia. }
  pose proof (so_data _ _ HI i e He) as Hd.
  rewrite (bind_ok _ _ _ _ _ (entry_ok _ _ _ He)), bind_assert
    by (unfold ENTRY_DATA; rewrite !andb_true_iff; split; [split|]; apply Z.leb_le; lia).
  set (e' := mk_entry q len (splice 0 (take (Z.to_nat len) data) (e_data e))).
  assert (Hl' : length (take (Z.to_nat len) data) = Z.to_nat len) by (rewrite length_take; lia).
  assert (Hd' : length (e_data e') = 2048%nat).
  { cbn [e_data e']. rewrite length_splice; [done|]. rewrite Hl', Hd. lia. }
  assert (Hh' : holds stream e').
  { split; [done|]. split; [done|]. split; [done|]. cbn [e_data e_len e_seq e'].
    pose proof (slice_splice_same 0 (take (Z.to_nat len) data) (e_data e) (Z.to_nat len)) as Hs.
    rewrite drop_0 in Hs. rewrite Hs; [done|rewrite Hl', Hd; lia|by rewrite Hl']. }
  unfold set_entry. rewrite bind_modify, bind_get.
  destruct (link_entry_ok s xs i e' HI Hi Hx Hh' Hd') as (h & xs' & Hins & HI' & Hlx).
  rewrite (bind_opt _ _ _ _ Hins). eexists _, xs'. split; [done|]. split; [exact HI'|]. split; [lia|done].
Qed.

(** ** Taking a packet out of the queue *)

Lemma unlink_entry_ok s xs i e :
  stream_ok s xs → i ∈ xs → reorder_entries s !! i = Some e →
  ∃ h xs', del_node (reorder_heap s) (Some i) = Some h ∧
    stream_ok (upd_entries (<[i := mk_entry 0 0 (e_data e)]> (reorder_entries s)) (upd_rheap h s)) xs' ∧
    length xs = Datatypes.S (length xs').
Proof.
  intros HI Hi He. pose proof (so_ring _ _ HI) as [Hnd _].
  apply NoDup_cons in Hnd as [_ Hnd]. apply NoDup_fmap_1 in Hnd.
  apply list_elem_of_split in Hi as (ys & zs & ->). pose proof (so_queue _ _ HI) as HQ.
  destruct (del_node_spec (reorder_heap s) {[ None := Some <$> (ys ++ i :: zs) ]} None (Some <$> ys) (Some <$> zs) (Some i) HQ)
    as (h & Hh & HQ' & _ & Hn); [by rewrite lookup_singleton_eq, fmap_app|].
  exists h, (ys ++ zs). split; [done|]. split; [|rewrite !length_app; simpl; lia].
  assert (Hni : i ∉ ys ++ zs).
  { apply NoDup_app in Hnd as (_ & Hd & Hnd2). apply NoDup_cons in Hnd2 as [Hz _].
    rewrite elem_of_app. intros [Hy|Hz']; [|done]. apply (Hd i Hy). by left. }
  assert (Hin : ∀ j, j ∈ ys ++ zs → j ∈ ys ++ i :: zs) by set_solver.
  split; cbn [reorder_heap reorder_entries next_expect_seq upd_rheap upd_entries].
  - rewrite <- fmap_app in HQ'. by rewrite insert_singleton_eq in HQ' || rewrite insert_singleton in HQ'.
  - intros j Hj. apply Hn. by apply (so_nodes _ _ HI).
  - rewrite length_insert. apply HI.
  - intros j e'. rewrite list_lookup_insert_Some. intros [(<- & <- & _)|[_ Hj]]; [exact (so_data _ _ HI i e He)|by apply (so_data _ _ HI j)].
  - intros j Hj. by apply (so_slots _ _ HI), Hin.
  - intros j e'. rewrite list_lookup_insert_Some. intros [(<- & <- & _)|[Hne Hj]] Hx; [done|].
    apply (so_used _ _ HI j); [done|by apply Hin].
  - intros j e'. rewrite list_lookup_insert_Some. intros [(<- & <- & _)|[Hne Hj]] Hx; [done|].
    apply (so_free _ _ HI j); [done|]. set_solver.
  - apply HI.
  - apply HI.
Qed.

(** ** The rounds of the loop *)

(** [n0] is the position at the call. *)
Record round_ok (n0 wanted : Z) (b : Z) (now : Z) (n : nat) (xs : list nat) (l : sr_vars) s : Prop := {
  ro_link : lk_ok n b now (link s);
  ro_data : received l = segment stream n0 (length (received l));
  ro_next : next_expect_seq s = n0 + Z.of_nat (length (received l));
  ro_le : Z.of_nat (length (received l)) ≤ wanted;
  ro_ok : stream_ok s xs ∨ Z.of_nat (length (received l)) = wanted;
  ro_raw : length (raw_buffer l) = 2048%nat;
  ro_time : 0 ≤ last_progress_time l ≤ now
}.

(** What a round has left to do: packets to come, packets in the queue, and the
    time to the timeout. *)
Definition work (wanted : Z) (n : nat) (xs : list nat) (now : Z) (l : sr_vars) : Z :=
  if Z.of_nat (length (received l)) <? wanted then
    (2 * Z.of_nat n + Z.of_nat (length xs)) * (RECV_TIMEOUT_TICKS + 3)
    + Z.max 0 (RECV_TIMEOUT_TICKS + 2 - (now - last_progress_time l)) + 1
  else 0.

Definition after_round (n0 wanted b : Z) (w : Z) (l : sr_vars) s : Prop :=
  ∃ b' now n xs, round_ok n0 wanted b' now n xs l s ∧ work wanted n xs now l ≤ b' ∧ work wanted n xs now l < w.

Lemma work_pos wanted n xs now l : Z.of_nat (length (received l)) < wanted → 0 < work wanted n xs now l.
Proof. intros Hl. unfold work. destruct (Z.ltb_spec (Z.of_nat (length (received l))) wanted); [|lia]. unfold RECV_TIMEOUT_TICKS, RSD_TIMEOUT_TICKS. lia. Qed.

Lemma work_done wanted n xs now l : wanted ≤ Z.of_nat (length (received l)) → work wanted n xs now l = 0.
Proof. intros Hl. unfold work. by destruct (Z.ltb_spec (Z.of_nat (length (received l))) wanted); [lia|]. Qed.

Lemma stream_ok_next s xs q :
  stream_ok s xs → 0 ≤ q < 2 ^ 32 → stream_ok (upd_next q s) xs.
Proof. intros [] Hq. by split. Qed.

Lemma received_app n0 (r x : list Z) (k : nat) :
  r = segment stream n0 (length r) → x = segment stream (n0 + Z.of_nat (length r)) k →
  r ++ x = segment stream n0 (length (r ++ x)).
Proof.
  intros Hr Hx. rewrite length_app, segment_app, <- Hr. f_equal. rewrite Hx at 2. by rewrite segment_length, <- Hx.
Qed.

(** The expected bytes are in the queue: they are delivered, and the packet leaves
    the queue unless it holds more than is wanted. *)
Lemma take_buffered_ok n0 wanted b now n xs i e l s :
  round_ok n0 wanted b now n xs l s → stream_ok s xs → Z.of_nat (length (received l)) < wanted →
  i ∈ xs → reorder_entries s !! i = Some e → e_seq e = next_expect_seq s →
  work wanted n xs now l ≤ b →
  wp (take_buffered wanted i l) s (λ l', after_round n0 wanted b (work wanted n xs now l) l').
Proof.
  intros HR HI Hlt Hi He Hq Hb. destruct (so_used _ _ HI i e He Hi) as (Hlen & Hq0 & Hq1 & Hseg).
  pose proof (so_data _ _ HI i e He) as Hd. unfold take_buffered.
  rewrite wp_bind, wp_get, wp_bind, (wp_ok _ _ _ _ _ (entry_ok _ _ _ He)).
  set (left := wanted - Z.of_nat (length (received l))). set (c := if left <? e_len e then left else e_len e).
  assert (Hc : 0 < c ≤ e_len e ∧ c ≤ left) by (unfold c, left; destruct (Z.ltb_spec (wanted - Z.of_nat (length (received l))) (e_len e)); lia).
  rewrite wp_bind, wp_assert. split; [rewrite andb_true_iff; split; apply Z.leb_le; lia|].
  rewrite wp_bind. eapply wp_mono; [apply (send_control_packet_ok s n b now); [apply HI|apply HR]|].
  intros [] s1 [Hs1 (n1 & now1 & Hl1 & Ht1 & Hn1)]. rewrite wp_bind, wp_modify.
  assert (Hnx : u32 (next_expect_seq s1 + c) = next_expect_seq s + c).
  { destruct Hs1 as (_ & _ & -> & _). apply u32_id. lia. }
  rewrite Hnx. set (s2 := upd_next (next_expect_seq s + c) s1).
  rewrite wp_bind. eapply wp_mono; [apply on_link_wp, (lk_ticks_law n1 b now1); exact Hl1|].
  intros t s3 [(E1 & E2 & E3 & E4) (n2 & Hl2 & Ht2 & Hn2)]. cbn [s2 upd_next reorder_heap reorder_entries next_expect_seq last_valid_header] in E1, E2, E3, E4.
  destruct Hs1 as (F1 & F2 & F3 & F4). rewrite F1 in E1. rewrite F2 in E2.
  assert (HI3 : stream_ok s3 xs).
  { eapply stream_ok_same; [eapply (stream_ok_next s xs (next_expect_seq s + c)); [exact HI|lia]|].
    do 3 (split; [done|]). cbn [last_valid_header upd_next]. by rewrite E4, F4. }
  set (x := take (Z.to_nat c) (e_data e)).
  assert (Hx : x = segment stream (n0 + Z.of_nat (length (received l))) (Z.to_nat c)).
  { unfold x. rewrite <- (ro_next _ _ _ _ _ _ _ _ HR), <- Hq.
    rewrite <- (segment_take stream _ (Z.to_nat (e_len e))) by lia. rewrite <- Hseg, take_take. f_equal. lia. }
  assert (Hxl : length x = Z.to_nat c) by (by rewrite Hx, segment_length).
  assert (Hrl : Z.of_nat (length (received l ++ x)) = Z.of_nat (length (received l)) + c) by (rewrite length_app; lia).
  pose proof (ro_time _ _ _ _ _ _ _ _ HR) as Htime.
  rewrite wp_bind. destruct (Z.ltb_spec c (e_len e)) as [Hpart|Hfull].
  - (* the last round: the rest of the packet stays *)
    assert (Hcl : c = left) by (unfold c in *; destruct (Z.ltb_spec left (e_len e)); lia).
    unfold set_entry. rewrite wp_modify, wp_ret.
    pose proof (work_pos wanted n xs now l Hlt).
    exists b, t, n2, xs. split; [|rewrite (work_done wanted n2 xs t); [lia|cbn [received]; lia]].
    split; cbn [received raw_buffer last_progress_time link upd_entries]; try done.
    + eapply received_app; [apply HR|exact Hx].
    + cbn [next_expect_seq upd_entries]. rewrite E3, Hrl, (ro_next _ _ _ _ _ _ _ _ HR). lia.
    + lia.
    + right. lia.
    + apply HR.
    + lia.
  - assert (Hce : c = e_len e) by lia.
    rewrite wp_bind, wp_get. assert (He3 : reorder_entries s3 !! i = Some e) by (by rewrite E2).
    destruct (unlink_entry_ok s3 xs i e HI3 Hi He3) as (h & xs' & Hdel & HI' & Hxs).
    rewrite wp_bind, (wp_of_opt_Some _ _ _ _ Hdel), wp_bind, wp_modify. unfold free_reorder_slot.
    rewrite wp_bind, (wp_ok _ _ _ _ _ (entry_ok (upd_rheap h s3) i e He3)). unfold set_entry. rewrite wp_modify, wp_ret.
    assert (Hw : work wanted n2 xs' t (mk_sr (received l ++ x) (raw_buffer l) (last_rsd_time l) t) < work wanted n xs now l).
    { unfold work. cbn [received last_progress_time]. rewrite Hrl, Hxs.
      destruct (Z.ltb_spec (Z.of_nat (length (received l))) wanted); [|lia].
      destruct (Z.ltb_spec (Z.of_nat (length (received l)) + c) wanted); unfold RECV_TIMEOUT_TICKS, RSD_TIMEOUT_TICKS; lia. }
    exists b, t, n2, xs'. split; [|lia].
    split; cbn [received raw_buffer last_progress_time link upd_entries upd_rheap]; try done.
    + eapply received_app; [apply HR|exact Hx].
    + cbn [next_expect_seq upd_entries upd_rheap]. rewrite E3, Hrl, (ro_next _ _ _ _ _ _ _ _ HR). lia.
    + lia.
    + by left.
    + apply HR.
    + pose proof (lk_time _ _ _ _ Hl2). lia.
Qed.

Lemma work_le wanted n n' xs now now' l l' :
  (n' ≤ n)%nat → now ≤ now' → received l' = received l → last_progress_time l' = last_progress_time l →
  work wanted n' xs now' l' ≤ work wanted n xs now l.
Proof.
  intros Hn Ht Hr Hp. unfold work. rewrite Hr, Hp. destruct (_ <? _); [|lia].
  unfold RECV_TIMEOUT_TICKS, RSD_TIMEOUT_TICKS. lia.
Qed.

Lemma work_packet wanted n xs xs' now now' l l' :
  (length xs' ≤ Datatypes.S (length xs))%nat → now ≤ now' → (length (received l) ≤ length (received l'))%nat →
  Z.of_nat (length (received l)) < wanted → last_progress_time l' = last_progress_time l →
  work wanted n xs' now' l' < work wanted (Datatypes.S n) xs now l.
Proof.
  intros Hx Ht Hr Hw Hp. unfold work. rewrite Hp.
  destruct (Z.ltb_spec (Z.of_nat (length (received l))) wanted); [|lia].
  unfold RECV_TIMEOUT_TICKS, RSD_TIMEOUT_TICKS. destruct (_ <? wanted); lia.
Qed.

Lemma round_ok_same n0 wanted b b' now now' n n' xs l l' s s' :
  round_ok n0 wanted b now n xs l s → same_stream s s' → lk_ok n' b' now' (link s') → now ≤ now' →
  received l' = received l → last_progress_time l' = last_progress_time l → length (raw_buffer l') = 2048%nat →
  round_ok n0 wanted b' now' n' xs l' s'.
Proof.
  intros [] Hs Hl Ht Er Ep Eraw. split; rewrite ?Er, ?Ep; try done.
  - by destruct Hs as (_ & _ & -> & _).
  - destruct ro_ok0; [left|by right]. by eapply stream_ok_same.
  - lia.
Qed.

(** No packet: the call ends on the timeout, or sleeps and goes round again. *)
Lemma wait_packet_ok n0 wanted b now n xs l s :
  round_ok n0 wanted b now n xs l s → stream_ok s xs → Z.of_nat (length (received l)) < wanted →
  work wanted n xs now l ≤ b →
  wp (wait_packet l) s (λ o s', match o with
    | Some l' => after_round n0 wanted b (work wanted n xs now l) l' s'
    | None => ∃ now' n', round_ok n0 wanted b now' n' xs l s' ∧ stream_ok s' xs
    end).
Proof.
  intros HR HI Hlt Hb. unfold wait_packet. rewrite wp_bind, wp_get, wp_bind.
  eapply wp_mono; [apply on_link_wp, (lk_ticks_law n b now); apply HR|].
  intros t s1 [Hs1 (n1 & Hl1 & Ht1 & Hn1)]. pose proof (lk_time _ _ _ _ Hl1).
  pose proof (ro_time _ _ _ _ _ _ _ _ HR). rewrite (u64_id (t - last_progress_time l)) by lia.
  pose proof (ro_raw _ _ _ _ _ _ _ _ HR) as Hraw.
  assert (HR1 : round_ok n0 wanted b t n1 xs l s1) by (by eapply round_ok_same).
  assert (HI1 : stream_ok s1 xs) by (by eapply stream_ok_same).
  destruct (Z.ltb_spec RECV_TIMEOUT_TICKS (t - last_progress_time l)).
  - rewrite wp_ret. by exists t, n1.
  - rewrite wp_bind.
    assert (Hrsd : wp (if RSD_TIMEOUT_TICKS <? u64 (t - last_rsd_time l)
        then send_control_packet RTP_RSD (next_expect_seq s);; mret (mk_sr (received l) (raw_buffer l) t (last_progress_time l))
        else mret l) s1
      (λ l' s', ∃ now' n', round_ok n0 wanted b now' n' xs l' s' ∧ t ≤ now' ∧ (n' ≤ n1)%nat ∧
         received l' = received l ∧ last_progress_time l' = last_progress_time l ∧ raw_buffer l' = raw_buffer l)).
    { destruct (_ <? _).
      - rewrite wp_bind. eapply wp_mono; [apply (send_control_packet_ok s1 n1 b t); [apply HI1|exact Hl1]|].
        intros [] s2 [Hs2 (n2 & t2 & Hl2 & Ht2 & Hn2)]. rewrite wp_ret. exists t2, n2.
        split; [by eapply round_ok_same|]. done.
      - rewrite wp_ret. by exists t, n1. }
    eapply wp_mono; [exact Hrsd|]. intros l2 s2 (t2 & n2 & HR2 & Ht2 & Hn2 & E1 & E2 & E3).
    pose proof (work_pos wanted n xs now l Hlt).
    rewrite wp_bind. eapply wp_mono; [apply on_link_wp, (lk_sleep_law n2 b t2); [apply HR2|lia]|].
    intros [] s3 [Hs3 (n3 & t3 & Hl3 & Ht3 & Hn3)]. rewrite wp_ret.
    assert (Hw : work wanted n3 xs t3 l2 < work wanted n xs now l).
    { unfold work. rewrite E1, E2. destruct (Z.ltb_spec (Z.of_nat (length (received l))) wanted); [|lia].
      unfold RECV_TIMEOUT_TICKS, RSD_TIMEOUT_TICKS in *. lia. }
    exists (b - 1), t3, n3, xs. split; [|lia].
    eapply round_ok_same; [exact HR2|exact Hs3|exact Hl3|lia|done|done|by rewrite E3].
Qed.

(** A data packet: its bytes are delivered when they are the expected ones, kept
    when they are further on, and dropped when they are old. *)
Lemma take_packet_ok n0 wanted b now n xs l s q len data w :
  round_ok n0 wanted b now n xs l s → stream_ok s xs → Z.of_nat (length (received l)) < wanted →
  work wanted (Datatypes.S n) xs now l ≤ w → w ≤ b →
  0 < len ≤ 2048 → len ≤ Z.of_nat (length data) → 0 ≤ q → q + len < 2 ^ 32 →
  take (Z.to_nat len) data = segment stream q (Z.to_nat len) →
  wp (take_packet wanted q len data l) s (after_round n0 wanted b w).
Proof.
  intros HR HI Hlt Hw Hwb Hlen Hdl Hq Hql Hseg. unfold take_packet. rewrite wp_bind, wp_get.
  pose proof (ro_raw _ _ _ _ _ _ _ _ HR) as Hraw. pose proof (ro_time _ _ _ _ _ _ _ _ HR) as Htm.
  destruct (Z.eqb_spec q (next_expect_seq s)) as [Hqe|Hqe].
  - set (left := wanted - Z.of_nat (length (received l))). set (c := if left <? len then left else len).
    assert (Hc : 0 < c ≤ len ∧ c ≤ left) by (unfold c, left; destruct (Z.ltb_spec (wanted - Z.of_nat (length (received l))) len); lia).
    rewrite wp_bind, wp_assert. split; [rewrite andb_true_iff; split; apply Z.leb_le; lia|].
    rewrite wp_bind. eapply wp_mono; [apply (send_control_packet_ok s n b now); [apply HI|apply HR]|].
    intros [] s1 [Hs1 (n1 & t1 & Hl1 & Ht1 & Hn1)]. rewrite wp_bind, wp_modify.
    assert (Hnx : next_expect_seq s1 = next_expect_seq s) by apply Hs1.
    rewrite Hnx, u32_id by lia. set (s2 := upd_next (next_expect_seq s + c) s1).
    assert (HI2 : stream_ok s2 xs) by (apply stream_ok_next; [by eapply stream_ok_same|lia]).
    set (x := take (Z.to_nat c) data).
    assert (Hx : x = segment stream (n0 + Z.of_nat (length (received l))) (Z.to_nat c)).
    { unfold x. rewrite <- (ro_next _ _ _ _ _ _ _ _ HR), <- Hqe.
      rewrite <- (segment_take stream _ (Z.to_nat len)) by lia. rewrite <- Hseg, take_take. f_equal. lia. }
    assert (Hxl : length x = Z.to_nat c) by (by rewrite Hx, segment_length).
    assert (Hrl : Z.of_nat (length (received l ++ x)) = Z.of_nat (length (received l)) + c) by (rewrite length_app; lia).
    set (l' := mk_sr (received l ++ x) (raw_buffer l) (last_rsd_time l) (last_progress_time l)).
    assert (Hins : wp (if c <? len then insert_reorder_packet (next_expect_seq s + c) (len - c) (drop (Z.to_nat c) data) else mret ()) s2
      (λ _ s', ∃ xs', stream_ok s' xs' ∧ (length xs' ≤ Datatypes.S (length xs))%nat ∧ next_expect_seq s' = next_expect_seq s + c ∧ link s' = link s1)).
    { destruct (Z.ltb_spec c len).
      - destruct (insert_reorder_packet_ok s2 xs (next_expect_seq s + c) (len - c) (drop (Z.to_nat c) data) HI2)
          as (s' & xs' & He & H1 & H2 & H3 & H4); [lia|rewrite length_drop; lia|lia|lia| |].
        { replace (Z.to_nat (len - c)) with (Z.to_nat len - Z.to_nat c)%nat by lia.
          rewrite take_drop_commute. replace (Z.to_nat c + (Z.to_nat len - Z.to_nat c))%nat with (Z.to_nat len) by lia.
          rewrite Hseg, segment_drop by lia. f_equal. lia. }
        rewrite (wp_ok _ _ _ _ _ He). by exists xs'.
      - rewrite wp_ret. exists xs. split; [done|]. split; [lia|done]. }
    rewrite wp_bind. eapply wp_mono; [exact Hins|]. intros [] s3 (xs' & HI3 & Hxs & Hn3 & Hl3). rewrite wp_ret. fold l'.
    assert (Hww : work wanted n1 xs' t1 l' < work wanted (Datatypes.S n) xs now l).
    { eapply Z.le_lt_trans; [apply (work_le wanted n n1 xs' now t1 l' l'); done|].
      apply work_packet; [done|lia| |done|done]. unfold l'. cbn [received]. lia. }
    exists b, t1, n1, xs'. split; [|lia].
    split; cbn [received raw_buffer last_progress_time l']; try done.
    + by rewrite Hl3.
    + eapply received_app; [apply HR|exact Hx].
    + rewrite Hn3, Hrl, (ro_next _ _ _ _ _ _ _ _ HR). lia.
    + lia.
    + by left.
    + lia.
  - destruct (Z.ltb_spec (next_expect_seq s) q).
    + destruct (insert_reorder_packet_ok s xs q len data HI Hlen Hdl Hq Hql Hseg) as (s1 & xs1 & He & HI1 & Hx1 & Hn1 & Hl1).
      rewrite wp_bind, (wp_ok _ _ _ _ _ He), wp_bind, wp_get, wp_bind.
      eapply wp_mono; [apply (send_control_packet_ok s1 n b now); [apply HI1|rewrite Hl1; apply HR]|].
      intros [] s2 [Hs2 (n2 & t2 & Hl2 & Ht2 & Hn2)]. rewrite wp_bind.
      eapply wp_mono; [apply on_link_wp, (lk_ticks_law n2 b t2); exact Hl2|].
      intros t s3 [Hs3 (n3 & Hl3 & Ht3 & Hn3)]. rewrite wp_ret.
      set (l' := mk_sr (received l) (raw_buffer l) t (last_progress_time l)).
      assert (Hww : work wanted n3 xs1 t l' < work wanted (Datatypes.S n) xs now l).
      { eapply Z.le_lt_trans; [apply (work_le wanted n n3 xs1 now t l' l'); [lia|lia|done|done]|].
        apply work_packet; [done|lia|done|done|done]. }
      exists b, t, n3, xs1. split; [|lia].
      assert (HI3 : stream_ok s3 xs1) by (eapply stream_ok_same; [eapply stream_ok_same; [exact HI1|exact Hs2]|exact Hs3]).
      split; cbn [received raw_buffer last_progress_time l']; try done; try apply HR.
      * destruct Hs3 as (_ & _ & -> & _). destruct Hs2 as (_ & _ & -> & _). rewrite Hn1. apply HR.
      * by left.
      * lia.
    + rewrite wp_bind. eapply wp_mono; [apply (send_control_packet_ok s n b now); [apply HI|apply HR]|].
      intros [] s1 [Hs1 (n1 & t1 & Hl1 & Ht1 & Hn1)]. rewrite wp_ret.
      assert (Hww : work wanted n1 xs t1 l < work wanted (Datatypes.S n) xs now l).
      { eapply Z.le_lt_trans; [apply (work_le wanted n n1 xs now t1 l l); [lia|lia|done|done]|].
        apply work_packet; [lia|lia|done|done|done]. }
      exists b, t1, n1, xs. split; [|lia]. by eapply round_ok_same.
Qed.

(** ** Reading the header of a packet *)

Lemma hdr_of_app p r : (62 ≤ length p)%nat → hdr_of (p ++ r) = hdr_of p.
Proof. intros Hl. unfold hdr_of. by rewrite !field_app by lia. Qed.

Lemma splice_front (p raw : list Z) : splice 0 p raw = p ++ drop (length p) raw.
Proof. done. Qed.

Lemma save_header_ok raw s :
  length (last_valid_header s) = E1000_RTP_OFFSET → (E1000_RTP_OFFSET ≤ length raw)%nat →
  wp (save_header raw) s (λ _ s', same_stream s s' ∧ link s' = link s).
Proof.
  intros Hh Hr. unfold save_header. rewrite wp_modify. destruct (has_valid_header s =? 0); [|done].
  split; [|done]. do 3 (split; [done|]). cbn [last_valid_header upd_header]. rewrite length_take. lia.
Qed.

Lemma after_round_mono n0 wanted b w w' l s : w ≤ w' → after_round n0 wanted b w l s → after_round n0 wanted b w' l s.
Proof. intros Hw (b' & now & n & xs & HR & Hb & Hl). exists b', now, n, xs. split; [done|lia]. Qed.

(** What a call ends with. *)
Definition received_ok (n0 wanted : Z) (l : sr_vars) s : Prop :=
  Z.of_nat (length (received l)) ≤ wanted ∧ received l = segment stream n0 (length (received l)) ∧
  next_expect_seq s = n0 + Z.of_nat (length (received l)) ∧
  (Z.of_nat (length (received l)) < wanted → ∃ xs, stream_ok s xs).

Lemma stream_step_ok n0 wanted b now n xs l s :
  round_ok n0 wanted b now n xs l s → work wanted n xs now l ≤ b →
  wp (stream_step wanted l) s (λ r s', match r with
    | inl l' => after_round n0 wanted b (work wanted n xs now l) l' s'
    | inr l' => received_ok n0 wanted l' s'
    end).
Proof.
  intros HR Hb. unfold stream_step.
  destruct (Z.ltb_spec (Z.of_nat (length (received l))) wanted) as [Hlt|Hge]; cbn [negb];
    [|rewrite wp_ret; split; [apply HR|split; [apply HR|split; [apply HR|lia]]]].
  assert (HI : stream_ok s xs) by (destruct (ro_ok _ _ _ _ _ _ _ _ HR); [done|lia]).
  rewrite wp_bind, wp_get, wp_bind. destruct (get_reorder_entry_ok s xs (next_expect_seq s) HI) as (r & Hr & HP).
  rewrite (wp_ok _ _ _ _ _ Hr). destruct r as [i|].
  - destruct HP as (e & Hi & He & Hq). rewrite wp_bind.
    eapply wp_mono; [by eapply take_buffered_ok|]. intros l' s' H'. by rewrite wp_ret.
  - rewrite wp_bind. eapply wp_mono; [apply on_link_wp, (lk_poll_law n b now); apply HR|].
    intros [pkt_len p] s1 [Hs1 (n1 & t1 & Hl1 & Ht1 & Hn1 & Hlen & [Hmax Htrue] & Hdec)]. cbn [fst snd] in *.
    rewrite splice_front. set (raw := p ++ drop (length p) (raw_buffer l)).
    pose proof (ro_raw _ _ _ _ _ _ _ _ HR) as Hraw.
    assert (Hrawl : length raw = 2048%nat) by (unfold raw, RX_PKT in *; rewrite length_app, length_drop; lia).
    set (l1 := mk_sr (received l) raw (last_rsd_time l) (last_progress_time l)).
    assert (HR1 : round_ok n0 wanted b t1 n1 xs l1 s1) by (by eapply round_ok_same).
    assert (HI1 : stream_ok s1 xs) by (by eapply stream_ok_same).
    assert (Hw1 : work wanted n1 xs t1 l1 ≤ work wanted n xs now l) by (by apply work_le).
    assert (Hlt1 : Z.of_nat (length (received l1)) < wanted) by done.
    destruct (Z.eqb_spec pkt_len 0) as [E0|E0].
    { rewrite wp_bind. eapply wp_mono; [apply (wait_packet_ok n0 wanted b t1 n1 xs l1 s1); [done|done|done|lia]|].
      intros [l2|] s2 H2; rewrite wp_ret.
      - by eapply after_round_mono.
      - destruct H2 as (t2 & n2 & HR2 & HI2). split; [apply HR2|]. split; [apply HR2|]. split; [apply HR2|]. by exists xs. }
    assert (Hne : p ≠ []) by (intros ->; simpl in Hlen; lia). specialize (Hdec Hne).
    assert (Hskip : after_round n0 wanted b (work wanted n xs now l) l1 s1).
    { exists b, t1, n1, xs. split; [done|]. assert (work wanted n1 xs t1 l1 < work wanted (Datatypes.S n1) xs now l).
      { apply work_packet; [lia|lia|done|done|done]. }
      assert (work wanted (Datatypes.S n1) xs now l ≤ work wanted n xs now l) by (apply work_le; [lia|lia|done|done]). lia. }
    destruct (Z.ltb_spec pkt_len (Z.of_nat (E1000_RTP_OFFSET + RTP_HDR_SIZE))) as [Hs|Hs]; [by rewrite wp_ret|].
    unfold E1000_RTP_OFFSET, RTP_HDR_SIZE in Hs. assert (H62 : (62 ≤ length p)%nat) by lia. specialize (Htrue H62).
    assert (Hh : hdr_of raw = hdr_of p) by (by apply hdr_of_app). rewrite Hh. unfold is_data in Htrue.
    destruct (h_magic (hdr_of p) =? RTP_MAGIC); cbn [negb andb] in *; [|by rewrite wp_ret].
    destruct (h_flags (hdr_of p) =? RTP_DAT); cbn [negb] in *; [|by rewrite wp_ret].
    destruct (Htrue eq_refl) as (Hpos & Hfit & Hq0 & Hq1 & Hseg). unfold data_len, data_seq, RX_PKT in *.
    rewrite wp_bind. eapply wp_mono; [apply save_header_ok; [apply HI1|unfold E1000_RTP_OFFSET; lia]|]. intros [] s2 [Hs2 Hl2].
    rewrite wp_bind. eapply wp_mono.
    + eapply (take_packet_ok n0 wanted b t1 n1 xs l1 s2 _ _ _ (work wanted n xs now l)); [| |done| |done|lia| |lia|lia|].
      * eapply round_ok_same; [exact HR1|done| |done|done|done|done]. rewrite Hl2. exact Hl1.
      * by eapply stream_ok_same.
      * apply work_le; [lia|lia|done|done].
      * rewrite length_drop, Hrawl. unfold E1000_RTP_OFFSET, RTP_HDR_SIZE. lia.
      * change (E1000_RTP_OFFSET + RTP_HDR_SIZE)%nat with 62%nat. unfold raw. rewrite drop_app_le by lia.
        rewrite take_app_le by (rewrite length_drop; lia). exact Hseg.
    + intros l' s' H'. by rewrite wp_ret.
Qed.

Lemma stream_loop_ok n0 wanted fuel b now n xs l s :
  round_ok n0 wanted b now n xs l s → work wanted n xs now l ≤ b → work wanted n xs now l < Z.of_nat fuel →
  wp (while_ fuel (stream_step wanted) l) s (received_ok n0 wanted).
Proof.
  revert b now n xs l s. induction fuel as [|fuel IH]; intros b now n xs l s HR Hb Hf.
  - pose proof HR. unfold work, RECV_TIMEOUT_TICKS, RSD_TIMEOUT_TICKS in Hf. destruct (_ <? wanted); lia.
  - cbn [while_]. rewrite wp_bind. eapply wp_mono; [by eapply stream_step_ok|].
    intros [l'|l'] s' H'; [|by rewrite wp_ret].
    destruct H' as (b' & now' & n' & xs' & HR' & Hb' & Hw'). eapply IH; [exact HR'|done|lia].
Qed.

(** The rounds that a call may take. *)
Definition stream_budget (n : nat) (xs : list nat) : Z :=
  (2 * Z.of_nat n + Z.of_nat (length xs) + 1) * (RECV_TIMEOUT_TICKS + 3).

End Correct.

(** ** Network byte order *)

Lemma land_shifted v k n : 0 ≤ n → Z.land v (Z.shiftl k n) = Z.shiftl (Z.land (Z.shiftr v n) k) n.
Proof.
  intros Hn. apply Z.bits_inj'. intros i Hi. rewrite Z.land_spec, !Z.shiftl_spec by done.
  destruct (decide (i < n)).
  - rewrite !(Z.testbit_neg_r _ (i - n)) by lia. apply andb_false_r.
  - rewrite Z.land_spec, Z.shiftr_spec by lia. do 2 f_equal. lia.
Qed.

(** The bytes turned round. *)
Lemma ntohl_bytes b0 b1 b2 b3 :
  0 ≤ b0 < 256 → 0 ≤ b1 < 256 → 0 ≤ b2 < 256 → 0 ≤ b3 < 256 →
  ntohl (b0 + 256 * (b1 + 256 * (b2 + 256 * b3))) = b3 + 256 * (b2 + 256 * (b1 + 256 * b0)).
Proof.
  intros H0 H1 H2 H3. set (v := b0 + 256 * (b1 + 256 * (b2 + 256 * b3))). unfold ntohl.
  change 0xff00 with (Z.shiftl 255 8). change 0xff0000 with (Z.shiftl 255 16).
  rewrite !land_shifted by done. change 255 with (2 ^ 8 - 1). rewrite !land_low by done.
  rewrite !Z.shiftr_div_pow2 by done. rewrite !Z.shiftl_mul_pow2 by done.
  assert (E1 : (v / 2 ^ 8) mod 2 ^ 8 = b1) by (unfold v; change (2 ^ 8) with 256; Z.to_euclidean_division_equations; lia).
  assert (E2 : (v / 2 ^ 16) mod 2 ^ 8 = b2) by (unfold v; change (2 ^ 8) with 256; change (2 ^ 16) with 65536; Z.to_euclidean_division_equations; lia).
  assert (E3 : v / 2 ^ 24 = b3) by (unfold v; change (2 ^ 24) with 16777216; Z.to_euclidean_division_equations; lia).
  rewrite E1, E2, E3. replace (b2 * 2 ^ 16 / 2 ^ 8) with (b2 * 2 ^ 8)
    by (change (2 ^ 16) with (2 ^ 8 * 2 ^ 8); rewrite Z.mul_assoc, Z.div_mul; lia).
  replace (b1 * 2 ^ 8 * 2 ^ 8) with (b1 * 2 ^ 16) by lia.
  rewrite <- !Z.shiftl_mul_pow2 by done. rewrite <- !Z.lor_assoc.
  rewrite (lor_shiftl_add b2 b3 8) by lia.
  rewrite (lor_shiftl_add b1 _ 16) by lia. rewrite (lor_shiftl_add v _ 24) by lia.
  unfold u32. change (2 ^ 32) with 4294967296. change (2 ^ 24) with 16777216. change (2 ^ 16) with 65536. change (2 ^ 8) with 256.
  unfold v. Z.to_euclidean_division_equations. lia.
Qed.

Lemma word_split v : 0 ≤ v < 2 ^ 32 → ∃ b0 b1 b2 b3,
  (0 ≤ b0 < 256 ∧ 0 ≤ b1 < 256 ∧ 0 ≤ b2 < 256 ∧ 0 ≤ b3 < 256) ∧ v = b0 + 256 * (b1 + 256 * (b2 + 256 * b3)).
Proof.
  intros Hv. exists (v mod 256), (v / 256 mod 256), (v / 65536 mod 256), (v / 16777216).
  Z.to_euclidean_division_equations. lia.
Qed.

Lemma ntohl_htonl v : 0 ≤ v < 2 ^ 32 → ntohl (htonl v) = v.
Proof.
  intros Hv. destruct (word_split v Hv) as (b0 & b1 & b2 & b3 & (H0 & H1 & H2 & H3) & ->).
  change (htonl ?x) with (ntohl x). by rewrite !ntohl_bytes.
Qed.
