(* ===== verification/StreamNic.v ===== *)
(** The byte stream of Stream over the card of E1000: the driver gives what the
    stream relies on; and what goes wrong with packets that are taken in parts,
    with the position reset, and with packets of length 0. *)
From S2P Require Import Prelude KMonad Bytes KList E1000 Stream.

(** The card with the packets that the peer will still send, and the clock. *)
Record nic_link := mk_nl { nl_nic : nic_state; nl_coming : list (list Z); nl_time : Z }.
Definition nl_upd_nic (x : nic_state) (s : nic_link) : nic_link := mk_nl x (nl_coming s) (nl_time s).
Definition nl_on_nic {A} (m : M nic_state A) : M nic_link A := zoom nl_nic nl_upd_nic m.

(** The card sends all that is queued. *)
Definition card_drain (x : nic_state) : nic_state := upd_regs (set_reg E1000_TDH (regs x E1000_TDT) (regs x)) x.

(** The card receives a packet, if the ring has room. *)
Definition card_receive (p : list Z) (x : nic_state) : option nic_state :=
  let h := regs x E1000_RDH in
  if h =? regs x E1000_RDT then None else
  d ← arr_get (rx_desc_array x) h;
  row ← arr_get (rx_pkt_buffer x) h;
  descs ← arr_set (rx_desc_array x) h (mk_rx (rx_addr d) (Z.of_nat (length p)) (rx_csum d)
            (Z.lor (rx_status d) E1000_RXD_STAT_DD) (rx_errors d) (rx_special d));
  bufs ← arr_set (rx_pkt_buffer x) h (p ++ drop (length p) row);
  Some (upd_regs (set_reg E1000_RDH ((h + 1) mod RXDESCS) (regs x)) (upd_rx_buf bufs (upd_rx_desc descs x))).

(** While the caller sleeps the next packet arrives. *)
Definition nl_arrive (s : nic_link) : nic_link :=
  match nl_coming s with
  | [] => s
  | p :: ps => match card_receive p (nl_nic s) with Some x => mk_nl x ps (nl_time s) | None => s end
  end.

#[export] Instance nic_rtp : RtpLink nic_link := {
  lk_poll := nl_on_nic e1000_poll;
  lk_send p len := nl_on_nic (modify card_drain;; e1000_transmit 0 p len;; mret ());
  lk_ticks := gets nl_time;
  lk_sleep t := modify (λ s, let s := nl_arrive s in mk_nl (nl_nic s) (nl_coming s) (nl_time s + t))
}.

Section Laws.
Context (stream : Z → Z).

Definition packet_ok (p : list Z) : Prop := truthful stream p ∧ (0 < length p ≤ 2048)%nat.

Definition nl_ok (n : nat) (b now : Z) (s : nic_link) : Prop :=
  ∃ q r, nic_inv (nl_nic s) q r ∧ Forall packet_ok (r ++ nl_coming s) ∧
    n = length (r ++ nl_coming s) ∧ now = nl_time s ∧ 0 ≤ now ∧ 0 ≤ b ∧ now + b < 2 ^ 64.

Lemma card_drain_ok x q r : nic_inv x q r → nic_inv (card_drain x) [] r.
Proof.
  intros [[Hh Ht Hr Hd Hb Hp] Hrx]. split; [|by eapply rx_ring_frame].
  pose proof (ring_range (regs x E1000_TDH) (length q)) as Hg.
  split; cbn [regs upd_regs card_drain tx_desc_array tx_pkt_buffer]; reg_simpl; try done.
  - by rewrite Ht.
  - rewrite Ht. simpl. by rewrite ring_0.
  - simpl. lia.
Qed.

Lemma card_receive_ok p x x' q r :
  nic_inv x q r → (0 < length p ≤ 2048)%nat → card_receive p x = Some x' → nic_inv x' q (r ++ [p]).
Proof.
  intros HI Hp Hc. unfold card_receive in Hc. destruct (Z.eqb_spec (regs x E1000_RDH) (regs x E1000_RDT)) as [|Hne]; [done|].
  destruct (arr_get (rx_desc_array x) _) as [d|] eqn:Hd; [|done]. cbn [mbind option_bind] in Hc.
  destruct (arr_get (rx_pkt_buffer x) _) as [row|] eqn:Hrow; [|done]. cbn [mbind option_bind] in Hc.
  destruct (arr_set (rx_desc_array x) _ _) as [descs|] eqn:Hds; [|done]. cbn [mbind option_bind] in Hc.
  destruct (arr_set (rx_pkt_buffer x) _ _) as [bufs|] eqn:Hbs; [|done]. cbn [mbind option_bind] in Hc.
  injection Hc as <-. eapply card_receives_ok; [exact HI|]. split; [done|]. split; [done|].
  by exists d, row, descs, bufs.
Qed.

Lemma nl_arrive_ok n b now s : nl_ok n b now s → nl_ok n b now (nl_arrive s).
Proof.
  intros (q & r & HI & Hf & Hn & Ht & ?). unfold nl_arrive. destruct (nl_coming s) as [|p ps] eqn:Hc.
  - exists q, r. rewrite Hc. done.
  - destruct (card_receive p (nl_nic s)) as [x|] eqn:Hr; [|exists q, r; by rewrite Hc].
    assert (packet_ok p) as [_ Hp] by (apply Forall_app in Hf as [_ Hf]; by apply Forall_cons_1 in Hf as [? _]).
    exists q, (r ++ [p]). cbn [nl_nic nl_coming nl_time]. rewrite <- app_assoc. split; [by eapply card_receive_ok|]. done.
Qed.

(** The driver and the card give what the stream relies on. *)
#[export, refine] Instance nic_laws : RtpLaws nic_link stream := { lk_ok := nl_ok }.
Proof.
  - intros n b now x (q & r & _ & _ & _ & _ & ?). lia.
  - intros n b now x (q & r & HI & Hf & Hn & Ht & Hb). unfold lk_poll, nic_rtp, nl_on_nic. rewrite wp_zoom.
    destruct r as [|p r].
    + rewrite (wp_ok _ _ _ _ _ (poll_empty _ [] (proj2 HI) eq_refl)). exists n, now. split; [by exists q, []|].
      split; [lia|]. split; [lia|]. split; [done|]. split; [|done]. split; [simpl; unfold RX_PKT; lia|simpl; lia].
    + destruct (poll_ok _ q p r HI) as (x' & He & HI'). rewrite (wp_ok _ _ _ _ _ He).
      apply Forall_cons_1 in Hf as [[Hp _] Hf]. exists (length (r ++ nl_coming x)), now.
      split; [by exists q, r|]. simpl in Hn. split; [lia|]. split; [lia|]. split; [done|]. split; [done|]. intros _. lia.
  - intros n b now x p len (q & r & HI & Hf & Hn & Ht & Hb) Hlen. unfold lk_send, nic_rtp, nl_on_nic.
    rewrite wp_zoom, wp_bind, wp_modify, wp_bind.
    destruct (transmit_ok 0 (card_drain (nl_nic x)) [] r p len (card_drain_ok _ _ _ HI)) as (x' & He & HI'); [simpl; lia|lia|].
    rewrite (wp_ok _ _ _ _ _ He), wp_ret. exists n, now. split; [|lia]. eexists _, r. split; [exact HI'|]. done.
  - intros n b now x Hx. unfold lk_ticks, nic_rtp. rewrite wp_gets. pose proof Hx as (q & r & HI & Hf & Hn & -> & Hb).
    exists n. split; [done|lia].
  - intros n b now x Hx Hb. apply nl_arrive_ok in Hx as (q & r & HI & Hf & Hn & Ht & ? & ? & ?).
    unfold lk_sleep, nic_rtp, RSD_SLEEP_TIME. rewrite wp_modify. exists n, (now + 1). split; [|lia].
    exists q, r. cbn [nl_nic nl_coming nl_time]. split; [done|]. split; [done|]. split; [done|]. lia.
Defined.
End Laws.

(** ** An example: two packets in the wrong order *)

Definition data_packet (q : Z) (data : list Z) : list Z :=
  replicate 54 0 ++ hdr_bytes (mk_hdr RTP_MAGIC RTP_DAT (htons (Z.of_nat (length data))) (htonl q)) ++ data.

Definition ex_stream (p : Z) : Z := p.

Definition ex_rheap : gmap (option nat) (list_node (K := option nat)) :=
  list_to_map ((λ nd, (nd, mk_node nd nd)) <$> (None :: (Some <$> seq 0 32))).

(** The state after boot. *)
Definition boot_stream {S} (x : S) : stream_state S :=
  mk_st ex_rheap (replicate 32 (mk_entry 0 0 (replicate 2048 0))) 0 (replicate 54 0) 0 x.

Lemma boot_stream_ok {S} `{RtpLink S} stream (x : S) : stream_ok stream (boot_stream x) [].
Proof.
  split; try done.
  - split.
    + intros hd xs [<- <-]%lookup_singleton_Some. split; [apply NoDup_singleton|]. by vm_compute.
    + intros hd1 hd2 xs1 xs2 nd [<- <-]%lookup_singleton_Some [<- <-]%lookup_singleton_Some. done.
  - intros i Hi. do 32 (destruct i as [|i]; [by eexists|]). lia.
  - intros i e [-> _]%lookup_replicate. done.
  - intros i Hi. by apply not_elem_of_nil in Hi.
  - intros i e _ Hi. by apply not_elem_of_nil in Hi.
  - intros i e [-> _]%lookup_replicate. done.
Qed.

Definition ex_late : list (list Z) := [data_packet 3 [3; 4]; data_packet 0 [0; 1; 2]].

Lemma ex_late_ok : Forall (packet_ok ex_stream) ex_late.
Proof.
  assert (Hm : ∀ n, (n <= 64)%nat → (n ≤ RX_PKT)%nat) by (unfold RX_PKT; lia).
  repeat apply Forall_cons_2; [| |apply Forall_nil_2].
  - split; [split; [apply Hm; vm_compute; lia|]|split; vm_compute; lia].
    intros _ _. vm_compute. repeat split; done.
  - split; [split; [unfold RX_PKT; vm_compute; lia|]|split; vm_compute; lia].
    intros _ _. vm_compute. repeat split; done.
Qed.

Definition EX_FUEL : Z := 20000000.


(** ** What goes wrong *)

(** A link that delivers the packets of a list and then nothing; the clock
    advances with every sleep. *)
Definition script : Type := list (list Z) * Z.
#[local] Instance script_rtp : RtpLink script := {
  lk_poll := λ '(ps, t), match ps with
                         | [] => Ok (0, []) ([], t)
                         | p :: ps' => Ok (Z.of_nat (length p), p) (ps', t)
                         end;
  lk_send _ _ := mret ();
  lk_ticks := gets snd;
  lk_sleep d := modify (λ '(ps, t), (ps, t + d * 2000000))
}.

Definition recv (wanted : Z) : M (stream_state script) (list Z) := do_net_recv_stream 20 (replicate 2048 0) wanted.

Definition result {S A} (o : outcome S A) : option A := match o with Ok a _ => Some a | _ => None end.

(** Without trouble: out of order, and a packet delivered over two calls. *)
Example recv_in_order :
  result ((a ← recv 3; b ← recv 2; mret (a, b))
    (boot_stream ([data_packet 3 [13; 14]; data_packet 0 [10; 11; 12]], 0)))
  = Some ([10; 11; 12], [13; 14]).
Proof. vm_compute. reflexivity. Qed.

(** A packet that leaves the queue in two parts: the second part starts with the
    first byte again, as the data of the slot are not moved up. *)
Lemma partial_read_repeats :
  result ((a ← recv 2; b ← recv 1; c ← recv 1; mret (a, b, c))
    (boot_stream ([data_packet 0 [10; 11; 12; 13]], 0)))
  = Some ([10; 11], [12], [12]).
Proof. vm_compute. reflexivity. Qed.

(** Resetting the stream leaves the queue as it is: bytes of the old stream are
    delivered in the new one. *)
Lemma reset_keeps_old_bytes :
  result ((a ← recv 2; do_reset_stream;; b ← recv 4; mret (a, b))
    (boot_stream ([data_packet 0 [10; 11; 12; 13]; data_packet 0 [20; 21]], 0)))
  = Some ([10; 11], [20; 21; 12; 13]).
Proof. vm_compute. reflexivity. Qed.

(** A packet of length 0 that arrives early is linked but its slot counts as free:
    the next early packet is linked through the same slot, which then points to
    itself, and the search of the queue never ends. *)
Lemma empty_packet_loops :
  result (recv 1 (boot_stream ([data_packet 5 []; data_packet 7 [17]], 0))) = None.
Proof. vm_compute. reflexivity. Qed.

Lemma empty_packet_self_link :
  match (insert_reorder_packet 5 0 [];; insert_reorder_packet 7 1 [17]) (boot_stream (([], 0) : script)) with
  | Ok _ s => ld_next (reorder_heap s) (Some 0%nat) = Some (Some 0%nat) ∧ seq_of s (Some 0%nat) = 7
  | _ => False
  end.
Proof. vm_compute. done. Qed.

(** A header that announces more bytes than the packet has makes the copy run
    out of the buffer. *)
Lemma long_packet_overruns :
  result (recv 1 (boot_stream ([splice 56 [255; 255] (data_packet 5 [])], 0))) = None.
Proof. vm_compute. reflexivity. Qed.
