(* ===== verification/Image.v ===== *)
(** tools/createimage.c, which puts the boot block, the kernel and the programs
    into the image of the card, and init_task_info of kernel/task/task.c, which
    reads the table of programs from it.

    A file is its bytes with a position, as the functions of stdio keep it: a
    write behind the end fills the gap with zeroes, a read at the end gives EOF.
    The ELF structures are those of the system's elf.h. *)
From S2P Require Import Prelude KMonad Bytes Swap Sched Loader.

Definition BOOT_LOADER_SIG_OFFSET : nat := 0x1fe.
Definition OS_SIZE_LOC : nat := 0x1fc.
Definition TASK_NUM_LOC : nat := 0x1fa.
Definition TASKINFO_OFFSET_LOC : nat := 0x1f6.
Definition BATCH_OFFSET_LOC : nat := 0x1f2.
Definition SWAP_OFFSET_LOC : nat := 0x1ee.
Definition NBYTES2SEC (nbytes : Z) : Z := nbytes / SECTOR_SIZE + (if nbytes mod SECTOR_SIZE =? 0 then 0 else 1).
Definition MAX_TASKS : nat := 32.
Definition TASK_INFO_SIZE : nat := 48.
Definition PT_LOAD : Z := 1.

Definition s16 (z : Z) : Z := (z + 2 ^ 15) mod 2 ^ 16 - 2 ^ 15.

(** ** Files *)

Record cfile := mk_file { f_bytes : list Z; f_at : nat }.

Definition pad_to (n : nat) (b : list Z) : list Z := b ++ replicate (n - length b) 0.
Definition fwrite (bs : list Z) (f : cfile) : cfile :=
  mk_file (splice (f_at f) bs (pad_to (f_at f) (f_bytes f))) (f_at f + length bs).
Definition fputc (c : Z) (f : cfile) : cfile := fwrite [u8 c] f.
Definition fseek (p : nat) (f : cfile) : cfile := mk_file (f_bytes f) p.

(** The value given and the position after it; EOF is -1. *)
Definition fgetc (data : list Z) (p : nat) : Z * nat :=
  match data !! p with Some b => (b, S p) | None => (-1, p) end.

(** ** ELF *)

Record Elf64_Ehdr := mk_ehdr { e_entry : Z; e_phoff : Z; e_phentsize : Z; e_phnum : Z }.
Record Elf64_Phdr := mk_phdr { p_type : Z; p_offset : Z; p_vaddr : Z; p_filesz : Z; p_memsz : Z }.

Definition read_ehdr (data : list Z) : option Elf64_Ehdr :=
  if Nat.leb 64 (length data) && (field 1 1 data =? 69) && (field 2 1 data =? 76) && (field 3 1 data =? 70)
  then Some (mk_ehdr (field 24 8 data) (field 32 8 data) (field 54 2 data) (field 56 2 data))
  else None.

Definition read_phdr (data : list Z) (ehdr : Elf64_Ehdr) (ph : nat) : option Elf64_Phdr :=
  let off := Z.to_nat (e_phoff ehdr + Z.of_nat ph * e_phentsize ehdr) in
  if Nat.leb (off + 56) (length data)
  then Some (mk_phdr (field off 4 data) (field (off + 8) 8 data) (field (off + 16) 8 data)
               (field (off + 32) 8 data) (field (off + 40) 8 data))
  else None.

(** ** create_image *)

(** An entry of [taskinfo], whose name is an array of 16 bytes. *)
Record taskinfo_t := mk_ti { t_name : list Z; t_offset : Z; t_vaddr : Z; t_memsz : Z; t_filesz : Z }.
Definition no_task : taskinfo_t := mk_ti (replicate 16 0) 0 0 0 0.
Definition taskinfo_bytes (t : taskinfo_t) : list Z :=
  t_name t ++ bytes_of 8 (t_offset t) ++ bytes_of 8 (t_vaddr t) ++ bytes_of 8 (t_memsz t) ++ bytes_of 8 (t_filesz t).

Record image_state := mk_im { img : cfile; phyaddr : Z; taskinfo : list taskinfo_t; nbytes_kernel : Z }.
Definition im_upd_img (f : cfile → cfile) (s : image_state) : image_state :=
  mk_im (f (img s)) (phyaddr s) (taskinfo s) (nbytes_kernel s).
Definition im_upd_phyaddr (p : Z) (s : image_state) : image_state := mk_im (img s) p (taskinfo s) (nbytes_kernel s).
Definition im_upd_tasks (l : list taskinfo_t) (s : image_state) : image_state := mk_im (img s) (phyaddr s) l (nbytes_kernel s).
Definition im_upd_kernel (n : Z) (s : image_state) : image_state := mk_im (img s) (phyaddr s) (taskinfo s) n.

(** [strncpy] of [n] characters of a string into an array. *)
Definition strncpy_to (n : nat) (src dst : list Z) : list Z := take n (src ++ replicate n 0) ++ drop n dst.

Definition set_taskinfo (taskidx : Z) (f : taskinfo_t → taskinfo_t) : M image_state unit :=
  s ← get;
  t ← of_opt (arr_get (taskinfo s) taskidx);
  l ← of_opt (arr_set (taskinfo s) taskidx (f t));
  modify (im_upd_tasks l).

(** One round of [fputc(fgetc(fp), img); ( *phyaddr)++]. *)
Fixpoint copy_bytes (n : nat) (data : list Z) (p : nat) : M image_state unit :=
  match n with
  | O => mret ()
  | S n' =>
      let '(c, p) := fgetc data p in
      modify (im_upd_img (fputc c));;
      s ← get;
      modify (im_upd_phyaddr (s32 (phyaddr s + 1)));;
      copy_bytes n' data p
  end.

Definition write_segment (phdr : Elf64_Phdr) (data : list Z) : M image_state unit :=
  if negb (p_memsz phdr =? 0) && (p_type phdr =? PT_LOAD)
  then copy_bytes (Z.to_nat (p_filesz phdr)) data (Z.to_nat (p_offset phdr))
  else mret ().

Definition padding_step (new_phyaddr : Z) (_ : unit) : M image_state (unit + unit) :=
  s ← get;
  if phyaddr s <? new_phyaddr then
    modify (im_upd_img (fputc 0));;
    modify (im_upd_phyaddr (s32 (phyaddr s + 1)));;
    mret (inl ())
  else mret (inr ()).
Definition write_padding (new_phyaddr : Z) : M image_state unit :=
  s ← get;
  while_ (S (Z.to_nat (new_phyaddr - phyaddr s))) (padding_step new_phyaddr) ().

(** The names "main" and "bootblock". *)
Definition name_main : list Z := [109; 97; 105; 110].
Definition name_bootblock : list Z := [98; 111; 111; 116; 98; 108; 111; 99; 107].

Definition put_phdr (name data : list Z) (ehdr : Elf64_Ehdr) (taskidx : Z) (ph : nat) : M image_state unit :=
  phdr ← of_opt (read_phdr data ehdr ph);
  if negb (p_type phdr =? PT_LOAD) then mret () else
  (if 0 <=? taskidx then
     set_taskinfo taskidx (λ t, mk_ti (strncpy_to 16 name (t_name t)) (t_offset t)
                                  (p_vaddr phdr) (p_memsz phdr) (p_filesz phdr))
   else mret ());;
  write_segment phdr data;;
  s ← get;
  if bool_decide (name = name_main) then modify (im_upd_kernel (s32 (nbytes_kernel s + u32 (p_filesz phdr))))
  else mret ().

Definition put_file (name data : list Z) (fidx : nat) : M image_state unit :=
  s ← get;
  let start_phyaddr := phyaddr s in
  let taskidx := Z.of_nat fidx - 2 in
  ehdr ← of_opt (read_ehdr data);
  for_ 0 (Z.to_nat (e_phnum ehdr)) (put_phdr name data ehdr taskidx);;
  (if 0 <=? taskidx then
     set_taskinfo taskidx (λ t, mk_ti (strncpy_to 15 name (t_name t)) start_phyaddr
                                  (t_vaddr t) (t_memsz t) (t_filesz t))
   else mret ());;
  (if bool_decide (name = name_bootblock) then write_padding SECTOR_SIZE else mret ()).

Fixpoint put_files (files : list (list Z * list Z)) (fidx : nat) : M image_state unit :=
  match files with
  | [] => mret ()
  | (name, data) :: files' => put_file name data fidx;; put_files files' (S fidx)
  end.

Definition write_at (p : nat) (bs : list Z) : M image_state unit :=
  modify (im_upd_img (λ f, fwrite bs (fseek p f))).

(** The offsets of what follows the programs. *)
Definition batch_offset_of (task_info_offset : Z) : Z :=
  let haven_offset := s32 (task_info_offset + Z.of_nat (MAX_TASKS * TASK_INFO_SIZE)) in
  let rest := haven_offset mod SECTOR_SIZE in
  let start_block := if negb (rest =? 0) then haven_offset / SECTOR_SIZE + 1 else haven_offset / SECTOR_SIZE in
  s32 (start_block * SECTOR_SIZE).

Definition write_img_info (tasknum task_info_offset : Z) : M image_state unit :=
  s ← get;
  modify (im_upd_img (fwrite (concat (taskinfo_bytes <$> take (Z.to_nat tasknum) (taskinfo s)))));;
  let haven_offset := s32 (task_info_offset + Z.of_nat (MAX_TASKS * TASK_INFO_SIZE)) in
  let batch_offset := batch_offset_of task_info_offset in
  let swap_offset := s32 (batch_offset + SECTOR_SIZE) in
  modify (im_upd_img (fseek (Z.to_nat batch_offset)));;
  modify (im_upd_phyaddr haven_offset);;
  write_padding (s32 (batch_offset + SECTOR_SIZE));;
  write_at OS_SIZE_LOC (bytes_of 2 (NBYTES2SEC (nbytes_kernel s)));;
  write_at BOOT_LOADER_SIG_OFFSET (bytes_of 2 0xaa55);;
  write_at TASK_NUM_LOC (bytes_of 2 tasknum);;
  write_at TASKINFO_OFFSET_LOC (bytes_of 4 task_info_offset);;
  write_at BATCH_OFFSET_LOC (bytes_of 4 batch_offset);;
  write_at SWAP_OFFSET_LOC (bytes_of 4 swap_offset).

Definition create_image (files : list (list Z * list Z)) : M image_state unit :=
  put_files files 0;;
  s ← get;
  modify (λ s, im_upd_tasks ((λ '(i, t), if Nat.leb (length files - 2) i
                                         then mk_ti (strncpy_to 1 [] (t_name t)) (t_offset t) (t_vaddr t) (t_memsz t) (t_filesz t)
                                         else t) <$> imap pair (taskinfo s)) s);;
  write_img_info (Z.of_nat (length files) - 2) (phyaddr s).

(** The static data of the program. *)
Definition image0 : image_state := mk_im (mk_file [] 0) 0 (replicate MAX_TASKS no_task) 0.

Definition image_of (files : list (list Z * list Z)) : option (list Z) :=
  match create_image files image0 with Ok _ s => Some (f_bytes (img s)) | _ => None end.

(** ** init_task_info *)

(** The characters up to the NUL. *)
Fixpoint c_string (b : list Z) : list Z :=
  match b with [] => [] | c :: b' => if c =? 0 then [] else c :: c_string b' end.

Definition task_of (b : list Z) : task_info_t :=
  mk_task (c_string (take 16 b)) (field 16 8 b) (field 24 8 b) (field 32 8 b) (field 40 8 b).

Record task_table := mk_tt { tasknum : Z; taskinfo_offset_img : Z; tasks : list task_info_t; batch_offset_img : Z }.

Section Kernel.
Context {D : Type} `{!BlockDevice SECTOR_BYTES D}.

(** [boot]: the boot block, which the firmware left at BOOTBLOCK_BASE. *)
Definition init_task_info (boot : list Z) (card : D) : task_table :=
  let offset := s32 (field 0x1f6 4 boot) in
  let start_block := u32 (Z.quot offset SECTOR_SIZE) in
  let total_bytes := Z.of_nat (TASK_MAXNUM * TASK_INFO_SIZE) in
  let end_block := u32 (Z.quot (s32 (offset + total_bytes - 1)) SECTOR_SIZE) in
  let num_block := u32 (end_block - start_block + 1) in
  let offset_inblock := Z.rem offset SECTOR_SIZE in
  let temp := sd_read card start_block (Z.to_nat num_block) in
  let bytes := drop (Z.to_nat offset_inblock) temp in
  mk_tt (s16 (field 0x1fa 2 boot)) offset
    ((λ i, task_of (take TASK_INFO_SIZE (drop (TASK_INFO_SIZE * i) bytes))) <$> seq 0 TASK_MAXNUM)
    (s32 (field 0x1f2 4 boot)).
End Kernel.

(** ** Where everything lies *)

Definition phdrs (data : list Z) : option (list Elf64_Phdr) :=
  ehdr ← read_ehdr data;
  mapM (read_phdr data ehdr) (seq 0 (Z.to_nat (e_phnum ehdr))).

Definition is_load (ph : Elf64_Phdr) : bool := p_type ph =? PT_LOAD.

(** [n] bytes of the file from [p] on; beyond its end EOF is written as 255. *)
Definition reads (data : list Z) (p n : nat) : list Z := (λ i, u8 (default (-1) (data !! (p + i)%nat))) <$> seq 0 n.
Definition segment_bytes (data : list Z) (ph : Elf64_Phdr) : list Z :=
  if p_memsz ph =? 0 then [] else reads data (Z.to_nat (p_offset ph)) (Z.to_nat (p_filesz ph)).
Definition body_of (data : list Z) (phs : list Elf64_Phdr) : list Z :=
  concat (segment_bytes data <$> filter (λ ph, is_load ph = true) phs).
Definition body (data : list Z) : list Z := match phdrs data with Some phs => body_of data phs | None => [] end.

Fixpoint layout (files : list (list Z * list Z)) (D : list Z) : list Z :=
  match files with
  | [] => D
  | (name, data) :: files' =>
      let D := D ++ body data in
      layout files' (if bool_decide (name = name_bootblock) then pad_to 512 D else D)
  end.

(** The entry of a program after its program headers, and after the file. *)
Definition fill (name : list Z) (t : taskinfo_t) (ph : Elf64_Phdr) : taskinfo_t :=
  mk_ti (strncpy_to 16 name (t_name t)) (t_offset t) (p_vaddr ph) (p_memsz ph) (p_filesz ph).
Definition fills (name : list Z) (phs : list Elf64_Phdr) (t : taskinfo_t) : taskinfo_t :=
  foldl (fill name) t (filter (λ ph, is_load ph = true) phs).
Definition entry_of (name data : list Z) (start : nat) (t : taskinfo_t) : taskinfo_t :=
  let t := fills name (default [] (phdrs data)) t in
  mk_ti (strncpy_to 15 name (t_name t)) (Z.of_nat start) (t_vaddr t) (t_memsz t) (t_filesz t).

(** The image holds [D], and the position is at its end. *)
Definition at_end (D : list Z) (s : image_state) : Prop :=
  img s = mk_file D (length D) ∧ phyaddr s = Z.of_nat (length D).

(** [bs] has been written behind [D], and nothing else changed. *)
Definition appended (D bs : list Z) (s s' : image_state) : Prop :=
  at_end (D ++ bs) s' ∧ taskinfo s' = taskinfo s ∧ nbytes_kernel s' = nbytes_kernel s.

Lemma pad_to_short n b : (n ≤ length b)%nat → pad_to n b = b.
Proof. intros Hn. unfold pad_to. replace (n - length b)%nat with 0%nat by lia. apply app_nil_r. Qed.

Lemma pad_to_length n b : length (pad_to n b) = Nat.max n (length b).
Proof. unfold pad_to. rewrite length_app, length_replicate. lia. Qed.

Lemma pad_to_again n k b : (k ≤ n)%nat → pad_to n (pad_to k b) = pad_to n b.
Proof.
  intros Hk. unfold pad_to. rewrite length_app, length_replicate, <- app_assoc, <- replicate_add. do 2 f_equal. lia.
Qed.

(** Writing at or behind the end. *)
Lemma fwrite_behind bs b p : (length b ≤ p)%nat → fwrite bs (mk_file b p) = mk_file (pad_to p b ++ bs) (p + length bs).
Proof.
  intros Hp. unfold fwrite. cbn [f_bytes f_at]. f_equal. unfold splice.
  rewrite take_ge by (rewrite pad_to_length; lia). rewrite drop_ge by (rewrite pad_to_length; lia). by rewrite app_nil_r.
Qed.

Lemma fwrite_end bs D : fwrite bs (mk_file D (length D)) = mk_file (D ++ bs) (length (D ++ bs)).
Proof. rewrite fwrite_behind by done. by rewrite pad_to_short, length_app. Qed.

Lemma reads_eof data p n : (length data ≤ p)%nat → reads data p n = replicate n 255.
Proof.
  intros Hp. unfold reads. apply list_eq. intros i. rewrite list_lookup_fmap. destruct (decide (i < n)%nat).
  - rewrite lookup_seq_lt, lookup_replicate_2 by done. cbn [fmap option_fmap option_map].
    by rewrite (lookup_ge_None_2 data) by lia.
  - rewrite lookup_seq_ge by lia. symmetry. apply lookup_ge_None_2. rewrite length_replicate. lia.
Qed.

Lemma reads_cons data p n : reads data p (S n) = u8 (default (-1) (data !! p)) :: reads data (S p) n.
Proof.
  unfold reads. cbn [seq]. rewrite fmap_cons, Nat.add_0_r. f_equal. rewrite <- fmap_S_seq, <- list_fmap_compose.
  apply list_fmap_ext. intros i k _. unfold compose. by rewrite Nat.add_succ_comm.
Qed.

Lemma reads_length data p n : length (reads data p n) = n.
Proof. unfold reads. by rewrite length_fmap, length_seq. Qed.

Lemma copy_bytes_ok n data p s D :
  at_end D s → Z.of_nat (length D + n) < 2 ^ 31 →
  ∃ s', copy_bytes n data p s = Ok () s' ∧ appended D (reads data p n) s s'.
Proof.
  revert p s D. induction n as [|n IH]; intros p s D [Hi Hp] Hn; cbn [copy_bytes].
  - exists s. split; [done|]. split; [|done]. unfold reads. simpl. by rewrite app_nil_r.
  - destruct (fgetc data p) as [c p'] eqn:Hg.
    assert (Hc : u8 c = u8 (default (-1) (data !! p)) ∧ reads data p' n = reads data (S p) n).
    { unfold fgetc in Hg. destruct (data !! p) as [b|] eqn:Hb; injection Hg as <- <-; [done|]. split; [done|].
      apply lookup_ge_None_1 in Hb. by rewrite !reads_eof by lia. }
    destruct Hc as [Hc Hr]. rewrite bind_modify, bind_get, bind_modify.
    match goal with |- context[copy_bytes n data p' ?x] => set (s1 := x) end.
    destruct (IH p' s1 (D ++ [u8 c])) as (s' & He & Ha & Ht & Hk).
    + split; cbn [img phyaddr s1 im_upd_phyaddr im_upd_img].
      * rewrite Hi. unfold fputc. by rewrite fwrite_end.
      * rewrite Hp, length_app. simpl. rewrite s32_id by lia. lia.
    + rewrite length_app. simpl. lia.
    + exists s'. split; [exact He|]. rewrite reads_cons, <- Hc, <- Hr. split; [|done].
      by rewrite <- app_assoc in Ha.
Qed.

Lemma write_segment_ok ph data s D :
  at_end D s → is_load ph = true → Z.of_nat (length D + length (segment_bytes data ph)) < 2 ^ 31 →
  ∃ s', write_segment ph data s = Ok () s' ∧ appended D (segment_bytes data ph) s s'.
Proof.
  intros Ha Hl Hn. unfold write_segment, is_load, segment_bytes in *. rewrite Hl.
  destruct (p_memsz ph =? 0); cbn [negb andb].
  - exists s. split; [done|]. split; [|done]. by rewrite app_nil_r.
  - rewrite reads_length in Hn. by apply copy_bytes_ok.
Qed.

Lemma padding_ok n new s b p :
  img s = mk_file b p → (length b ≤ p)%nat → n = Z.to_nat (new - phyaddr s) → 0 ≤ phyaddr s → new < 2 ^ 31 → (p = length b ∨ 0 < n)%nat →
  ∃ s', while_ (S n) (padding_step new) () s = Ok () s' ∧
    img s' = mk_file (pad_to (p + n) b) (p + n) ∧ phyaddr s' = Z.max new (phyaddr s) ∧
    taskinfo s' = taskinfo s ∧ nbytes_kernel s' = nbytes_kernel s.
Proof.
  revert s b p. induction n as [|n IH]; intros s b p Hi Hb Hn Hp0 Hnew Hpn; rewrite while_eq; unfold padding_step at 1;
    rewrite bind_get; destruct (Z.ltb_spec (phyaddr s) new); try lia.
  - exists s. rewrite Nat.add_0_r, pad_to_short by lia. split; [done|]. split; [done|]. split; [lia|done].
  - rewrite !bind_modify. unfold mret, M_ret. cbv beta iota.
    match goal with |- context[while_ _ _ _ ?x] => set (s1 := x) end.
    assert (Hi1 : img s1 = mk_file (pad_to (S p) b) (S p)).
    { cbn [img s1 im_upd_phyaddr im_upd_img]. rewrite Hi. unfold fputc. rewrite fwrite_behind by done.
      f_equal; [|simpl; lia]. unfold pad_to. rewrite <- app_assoc. f_equal.
      replace (S p - length b)%nat with ((p - length b) + 1)%nat by lia. by rewrite replicate_add. }
    assert (Hp1 : phyaddr s1 = phyaddr s + 1).
    { cbn [phyaddr s1 im_upd_phyaddr im_upd_img]. apply s32_id. lia. }
    destruct (IH s1 (pad_to (S p) b) (S p)) as (s' & He & Hi' & Hp' & Ht & Hk);
      [done|rewrite pad_to_length; lia|lia|lia|lia|left; rewrite pad_to_length; lia|].
    exists s'. split; [exact He|]. rewrite pad_to_again in Hi' by lia.
    replace (p + S n)%nat with (S p + n)%nat by lia. split; [done|]. split; [lia|done].
Qed.

Lemma set_taskinfo_ok k f s t :
  taskinfo s !! k = Some t → set_taskinfo (Z.of_nat k) f s = Ok () (im_upd_tasks (<[k := f t]> (taskinfo s)) s).
Proof.
  intros Ht. apply lookup_lt_Some in Ht as Hk. unfold set_taskinfo. rewrite bind_get.
  rewrite bind_opt with (a := t) by (apply arr_get_Some; split; [lia|by rewrite Nat2Z.id]).
  rewrite (bind_opt _ _ _ _ (arr_set_Some (taskinfo s) (Z.of_nat k) (f t) ltac:(lia))). by rewrite Nat2Z.id.
Qed.

(** ** One file, and all of them *)

(** The entry of the file with index [fidx], when it is a program. *)
Definition on_entry (fidx : nat) (f : taskinfo_t → taskinfo_t) (l : list taskinfo_t) : list taskinfo_t :=
  if Nat.leb 2 fidx then alter f (fidx - 2)%nat l else l.

Lemma on_entry_length fidx f l : length (on_entry fidx f l) = length l.
Proof. unfold on_entry. case_match; [apply length_alter|done]. Qed.

Lemma set_entry_ok fidx f s :
  (fidx < 2 + length (taskinfo s))%nat →
  (if 0 <=? Z.of_nat fidx - 2 then set_taskinfo (Z.of_nat fidx - 2) f else mret ()) s
  = Ok () (im_upd_tasks (on_entry fidx f (taskinfo s)) s).
Proof.
  intros Hlt. unfold on_entry. destruct (Nat.leb_spec 2 fidx).
  - destruct (Z.leb_spec 0 (Z.of_nat fidx - 2)); [|lia].
    destruct (lookup_lt_is_Some_2 (taskinfo s) (fidx - 2)) as [t Ht]; [lia|].
    replace (Z.of_nat fidx - 2) with (Z.of_nat (fidx - 2)) by lia. rewrite (set_taskinfo_ok _ _ _ _ Ht).
    by rewrite (list_alter_insert _ _ _ _ Ht).
  - destruct (Z.leb_spec 0 (Z.of_nat fidx - 2)); [lia|]. by destruct s.
Qed.

Lemma put_phdr_ok name data ehdr fidx i ph s D :
  read_phdr data ehdr i = Some ph → at_end D s → (fidx < 2 + length (taskinfo s))%nat →
  Z.of_nat (length D + length (body_of data [ph])) < 2 ^ 31 →
  ∃ s', put_phdr name data ehdr (Z.of_nat fidx - 2) i s = Ok () s' ∧ at_end (D ++ body_of data [ph]) s' ∧
    taskinfo s' = on_entry fidx (fills name [ph]) (taskinfo s).
Proof.
  intros Hr Ha Hf Hn. unfold put_phdr, fills, body_of in *. rewrite (bind_opt _ _ _ _ Hr).
  change (p_type ph =? PT_LOAD) with (is_load ph). rewrite filter_cons in *. destruct (is_load ph) eqn:Hl; cbn [negb] in *.
  - rewrite decide_True in * by done. cbn [foldl concat fmap list_fmap] in *. rewrite filter_nil, app_nil_r in *.
    rewrite (bind_ok _ _ _ _ _ (set_entry_ok fidx _ s Hf)).
    match goal with |- context[im_upd_tasks ?l s] => set (s1 := im_upd_tasks l s) end.
    destruct (write_segment_ok ph data s1 D Ha Hl Hn) as (s2 & He & Ha2 & Ht2 & _).
    rewrite (bind_ok _ _ _ _ _ He), bind_get. case_bool_decide.
    + eexists. split; [done|]. split; [exact Ha2|]. exact Ht2.
    + exists s2. split; [done|]. split; [exact Ha2|]. exact Ht2.
  - rewrite decide_False in * by done. cbn [foldl concat fmap list_fmap]. exists s. split; [done|].
    rewrite filter_nil. cbn [concat fmap list_fmap foldl]. rewrite app_nil_r. split; [done|]. unfold on_entry. case_match; [|done].
    symmetry. apply list_alter_id. done.
Qed.

Lemma body_of_cons data ph phs : body_of data (ph :: phs) = body_of data [ph] ++ body_of data phs.
Proof. unfold body_of. by rewrite (filter_app _ [ph] phs : filter _ (ph :: phs) = _), fmap_app, concat_app. Qed.

Lemma fills_cons name ph phs t : fills name (ph :: phs) t = fills name phs (fills name [ph] t).
Proof. unfold fills. by rewrite (filter_app _ [ph] phs : filter _ (ph :: phs) = _), foldl_app. Qed.

Lemma on_entry_compose fidx f g l : on_entry fidx g (on_entry fidx f l) = on_entry fidx (λ t, g (f t)) l.
Proof. unfold on_entry. case_match; [|done]. by rewrite list_alter_alter_eq. Qed.

Lemma put_phdrs_ok name data ehdr fidx phs i0 s D :
  (∀ j ph, phs !! j = Some ph → read_phdr data ehdr (i0 + j) = Some ph) → at_end D s →
  (fidx < 2 + length (taskinfo s))%nat → Z.of_nat (length D + length (body_of data phs)) < 2 ^ 31 →
  ∃ s', for_ i0 (length phs) (put_phdr name data ehdr (Z.of_nat fidx - 2)) s = Ok () s' ∧
    at_end (D ++ body_of data phs) s' ∧ taskinfo s' = on_entry fidx (fills name phs) (taskinfo s).
Proof.
  revert i0 s D. induction phs as [|ph phs IH]; intros i0 s D Hr Ha Hf Hn; cbn [length for_].
  - exists s. split; [done|]. unfold body_of. cbn. rewrite app_nil_r. split; [done|].
    unfold on_entry. case_match; [|done]. symmetry. by apply list_alter_id.
  - rewrite body_of_cons, length_app in Hn.
    destruct (put_phdr_ok name data ehdr fidx i0 ph s D) as (s1 & He & Ha1 & Ht1); [|done|done|lia|].
    { rewrite <- (Nat.add_0_r i0). by apply Hr. }
    rewrite (bind_ok _ _ _ _ _ He).
    destruct (IH (S i0) s1 (D ++ body_of data [ph])) as (s2 & He2 & Ha2 & Ht2).
    + intros j p Hj. replace (S i0 + j)%nat with (i0 + S j)%nat by lia. by apply Hr.
    + done.
    + by rewrite Ht1, on_entry_length.
    + rewrite length_app. lia.
    + exists s2. split; [done|]. rewrite body_of_cons, app_assoc. split; [done|].
      rewrite Ht2, Ht1, on_entry_compose. unfold on_entry. case_match; [|done].
      apply list_alter_ext; [|done]. intros t _. by rewrite (fills_cons _ ph phs).
Qed.

Lemma put_file_ok name data fidx s D phs :
  phdrs data = Some phs → at_end D s → (fidx < 2 + length (taskinfo s))%nat →
  Z.of_nat (length (layout [(name, data)] D)) < 2 ^ 31 →
  ∃ s', put_file name data fidx s = Ok () s' ∧ at_end (layout [(name, data)] D) s' ∧
    taskinfo s' = on_entry fidx (entry_of name data (length D)) (taskinfo s).
Proof.
  intros Hphs Ha Hf Hn. pose proof Ha as [_ Hp]. cbn [layout] in *. unfold body in *. rewrite Hphs in *.
  assert (Hn' : Z.of_nat (length D + length (body_of data phs)) < 2 ^ 31).
  { rewrite <- length_app. case_bool_decide; [rewrite pad_to_length in Hn|]; lia. }
  unfold phdrs in Hphs. destruct (read_ehdr data) as [ehdr|] eqn:Heh; [|done]. cbn [mbind option_bind] in Hphs.
  unfold put_file. rewrite bind_get, (bind_opt _ _ _ _ Heh).
  pose proof (mapM_Some_1 _ _ _ Hphs) as HF. pose proof (Forall2_length _ _ _ HF) as Hlen. rewrite length_seq in Hlen.
  destruct (put_phdrs_ok name data ehdr fidx phs 0 s D) as (s1 & He & Ha1 & Ht1); [|done|done|done|].
  { intros j ph Hj. apply lookup_lt_Some in Hj as Hlt. eapply Forall2_lookup_r in HF as (k & Hk & Hr); [|exact Hj].
    rewrite lookup_seq_lt in Hk by lia. by injection Hk as <-. }
  rewrite Hlen. rewrite (bind_ok _ _ _ _ _ He).
  assert (Hf1 : (fidx < 2 + length (taskinfo s1))%nat) by (by rewrite Ht1, on_entry_length).
  rewrite (bind_ok _ _ _ _ _ (set_entry_ok fidx _ s1 Hf1)).
  match goal with |- context[im_upd_tasks ?l s1] => set (s2 := im_upd_tasks l s1) end.
  assert (Ht2 : taskinfo s2 = on_entry fidx (entry_of name data (length D)) (taskinfo s)).
  { cbn [taskinfo s2 im_upd_tasks]. rewrite Ht1, on_entry_compose. unfold on_entry. destruct (Nat.leb 2 fidx); [|done].
    apply list_alter_ext; [|done]. intros t _. unfold entry_of, phdrs. rewrite Heh. cbn [mbind option_bind].
    by rewrite Hphs, Hp. }
  case_bool_decide; [|by exists s2].
  unfold write_padding. rewrite bind_get. destruct Ha1 as [Hi1 Hp1].
  destruct (padding_ok (Z.to_nat (SECTOR_SIZE - phyaddr s2)) SECTOR_SIZE s2 (D ++ body_of data phs) (length (D ++ body_of data phs)))
    as (s3 & He3 & Hi3 & Hp3 & Ht3 & _); [done|done|done|by cbn [phyaddr s2 im_upd_tasks]; lia|done|by left|].
  exists s3. split; [exact He3|]. cbn [phyaddr s2 im_upd_tasks] in *. rewrite Hp1 in *. unfold SECTOR_SIZE in *.
  split; [|by rewrite Ht3]. split; [|rewrite Hp3, pad_to_length; lia].
  rewrite Hi3, pad_to_length. f_equal; [|lia].
  destruct (decide (512 ≤ length (D ++ body_of data phs))%nat); [by rewrite !pad_to_short by lia|].
  f_equal. lia.
Qed.

Lemma layout_app fs gs D : layout (fs ++ gs) D = layout gs (layout fs D).
Proof. revert D. induction fs as [|[n d] fs IH]; intros D; [done|]. simpl. apply IH. Qed.

Lemma layout_prefix fs D : ∃ r, layout fs D = D ++ r.
Proof.
  revert D. induction fs as [|[n d] fs IH]; intros D; simpl; [exists []; by rewrite app_nil_r|].
  case_bool_decide.
  - destruct (IH (pad_to 512 (D ++ body d))) as [r ->]. unfold pad_to. eexists. by rewrite <- !app_assoc.
  - destruct (IH (D ++ body d)) as [r ->]. eexists. by rewrite <- !app_assoc.
Qed.

Lemma layout_length fs D : (length D ≤ length (layout fs D))%nat.
Proof. destruct (layout_prefix fs D) as [r ->]. rewrite length_app. lia. Qed.

Lemma put_files_ok files fidx s D :
  Forall (λ f, is_Some (phdrs f.2)) files → at_end D s → (fidx + length files ≤ 2 + length (taskinfo s))%nat →
  Z.of_nat (length (layout files D)) < 2 ^ 31 →
  ∃ s', put_files files fidx s = Ok () s' ∧ at_end (layout files D) s' ∧
    length (taskinfo s') = length (taskinfo s) ∧
    (∀ j, (j + 2 < fidx ∨ fidx + length files ≤ j + 2)%nat → taskinfo s' !! j = taskinfo s !! j) ∧
    (∀ j name data t, files !! j = Some (name, data) → (2 ≤ fidx + j)%nat → taskinfo s !! (fidx + j - 2)%nat = Some t →
       taskinfo s' !! (fidx + j - 2)%nat = Some (entry_of name data (length (layout (take j files) D)) t)).
Proof.
  revert fidx s D. induction files as [|[name data] files IH]; intros fidx s D Hv Ha Hf Hn; cbn [put_files].
  - exists s. split; [done|]. split; [done|]. split; [done|]. split; [done|]. intros j name data t Hj. done.
  - apply Forall_cons in Hv as [[phs Hphs] Hv]. cbn [snd] in Hphs. cbn [length] in Hf.
    change ((name, data) :: files) with ([(name, data)] ++ files) in Hn. rewrite layout_app in Hn.
    pose proof (layout_length files (layout [(name, data)] D)).
    destruct (put_file_ok name data fidx s D phs Hphs Ha) as (s1 & He & Ha1 & Ht1); [lia|lia|].
    rewrite (bind_ok _ _ _ _ _ He).
    destruct (IH (S fidx) s1 (layout [(name, data)] D) Hv Ha1) as (s2 & He2 & Ha2 & Hl2 & Ho2 & Hs2).
    { rewrite Ht1, on_entry_length. lia. }
    { done. }
    exists s2. split; [exact He2|]. split; [done|]. split; [by rewrite Hl2, Ht1, on_entry_length|]. split.
    + intros j Hj. rewrite Ho2 by (simpl in Hj; lia). rewrite Ht1. unfold on_entry. case_match eqn:E; [|done].
      apply Nat.leb_le in E. rewrite list_lookup_alter_ne; [done|]. simpl in Hj. lia.
    + intros j n d t Hj H2 Ht. destruct j as [|j]; cbn [lookup list_lookup] in Hj.
      * injection Hj as <- <-. rewrite Nat.add_0_r in *. rewrite Ho2 by lia. rewrite Ht1. unfold on_entry.
        case_match eqn:E; [|apply Nat.leb_gt in E; lia]. rewrite list_lookup_alter_eq, Ht. done.
      * replace (fidx + S j - 2)%nat with (S fidx + j - 2)%nat in * by lia.
        rewrite (Hs2 j n d t Hj); [done|lia|]. rewrite Ht1. unfold on_entry. case_match eqn:E; [|done].
        rewrite list_lookup_alter_ne; [done|]. apply Nat.leb_le in E. lia.
Qed.

(** ** What is written behind the programs *)

Lemma write_at_ok p bs b q s :
  img s = mk_file b q → (p ≤ length b)%nat →
  write_at p bs s = Ok () (im_upd_img (λ _, mk_file (splice p bs b) (p + length bs)) s).
Proof.
  intros Hi Hp. unfold write_at, modify, im_upd_img. rewrite Hi. unfold fwrite, fseek. cbn [f_bytes f_at].
  by rewrite pad_to_short.
Qed.

(** The writes at fixed places of the boot block, in their order. *)
Definition info_writes (nbytes_kernel tasknum task_info_offset : Z) : list (nat * list Z) :=
  [(OS_SIZE_LOC, bytes_of 2 (NBYTES2SEC nbytes_kernel)); (BOOT_LOADER_SIG_OFFSET, bytes_of 2 0xaa55);
   (TASK_NUM_LOC, bytes_of 2 tasknum); (TASKINFO_OFFSET_LOC, bytes_of 4 task_info_offset);
   (BATCH_OFFSET_LOC, bytes_of 4 (batch_offset_of task_info_offset));
   (SWAP_OFFSET_LOC, bytes_of 4 (s32 (batch_offset_of task_info_offset + SECTOR_SIZE)))].
Definition put_writes (b : list Z) (ws : list (nat * list Z)) : list Z := foldl (λ b w, splice w.1 w.2 b) b ws.

Definition in_block (b : list Z) (ws : list (nat * list Z)) : Prop :=
  Forall (λ w, (w.1 + length w.2 ≤ 512)%nat) ws ∧ (512 ≤ length b)%nat.

Lemma put_writes_length b ws : in_block b ws → length (put_writes b ws) = length b.
Proof.
  revert b. induction ws as [|w ws IH]; intros b [Hw Hb]; [done|]. apply Forall_cons in Hw as [Hw Hws]. simpl.
  rewrite IH; [apply length_splice; lia|]. split; [done|]. rewrite length_splice; lia.
Qed.

Lemma put_writes_behind b ws i : in_block b ws → (512 ≤ i)%nat → put_writes b ws !! i = b !! i.
Proof.
  revert b. induction ws as [|w ws IH]; intros b [Hw Hb] Hi; [done|]. apply Forall_cons in Hw as [Hw Hws]. simpl.
  rewrite IH; [|split; [done|]; rewrite length_splice; lia|done]. rewrite splice_lookup by lia. by rewrite decide_False by lia.
Qed.

Definition apart (p n : nat) (w : nat * list Z) : Prop := (p + n ≤ w.1 ∨ w.1 + length w.2 ≤ p)%nat.

Lemma put_writes_apart b ws p n :
  in_block b ws → Forall (apart p n) ws → take n (drop p (put_writes b ws)) = take n (drop p b).
Proof.
  revert b. induction ws as [|w ws IH]; intros b [Hw Hb] Ha; [done|]. apply Forall_cons in Hw as [Hw Hws].
  apply Forall_cons in Ha as [Ha Has]. unfold apart in Ha. cbn [put_writes foldl]. rewrite <- slice_splice_other with (off := w.1) (xs := w.2) (b := b) by lia.
  apply IH; [|done]. split; [done|]. rewrite length_splice; lia.
Qed.

(** A write is read back when the later ones keep off it. *)
Lemma put_writes_field b ws1 p bs ws2 :
  in_block b (ws1 ++ (p, bs) :: ws2) → Forall (apart p (length bs)) ws2 →
  field p (length bs) (put_writes b (ws1 ++ (p, bs) :: ws2)) = of_bytes bs.
Proof.
  intros [Hw Hb] Hd. apply Forall_app in Hw as [Hw1 Hw]. apply Forall_cons in Hw as [Hp Hw2]. cbn [fst snd] in Hp.
  pose proof (put_writes_length b ws1 (conj Hw1 Hb)) as Hl. unfold field.
  assert (Hs : put_writes b (ws1 ++ (p, bs) :: ws2) = put_writes (splice p bs (put_writes b ws1)) ws2)
    by (unfold put_writes; by rewrite foldl_app).
  rewrite Hs, put_writes_apart; [by rewrite slice_splice_same by lia|split; [done|rewrite length_splice; lia]|done].
Qed.

Lemma info_in_block k n o b : (512 ≤ length b)%nat → in_block b (info_writes k n o).
Proof. intros Hb. split; [|done]. unfold info_writes. repeat constructor; cbn [fst snd]; rewrite length_bytes_of; compute; lia. Qed.

(** The fields of the boot block the kernel reads. *)
Lemma info_fields k n o b :
  (512 ≤ length b)%nat → let img := put_writes b (info_writes k n o) in
  field TASK_NUM_LOC 2 img = n mod 2 ^ 16 ∧ field TASKINFO_OFFSET_LOC 4 img = o mod 2 ^ 32 ∧
  field BATCH_OFFSET_LOC 4 img = batch_offset_of o mod 2 ^ 32 ∧
  field SWAP_OFFSET_LOC 4 img = s32 (batch_offset_of o + SECTOR_SIZE) mod 2 ^ 32.
Proof.
  intros Hb. pose proof (info_in_block k n o b Hb) as HB. cbv zeta. unfold info_writes in *.
  split_and!.
  - etransitivity; [apply (put_writes_field b [_; _] TASK_NUM_LOC (bytes_of 2 n) [_; _; _] HB)|apply of_bytes_of].
    repeat constructor; unfold apart; cbn [fst snd]; rewrite !length_bytes_of; compute; lia.
  - etransitivity; [apply (put_writes_field b [_; _; _] TASKINFO_OFFSET_LOC (bytes_of 4 o) [_; _] HB)|apply of_bytes_of].
    repeat constructor; unfold apart; cbn [fst snd]; rewrite !length_bytes_of; compute; lia.
  - etransitivity; [apply (put_writes_field b [_; _; _; _] BATCH_OFFSET_LOC (bytes_of 4 _) [_] HB)|apply of_bytes_of].
    repeat constructor; unfold apart; cbn [fst snd]; rewrite !length_bytes_of; compute; lia.
  - etransitivity; [apply (put_writes_field b [_; _; _; _; _] SWAP_OFFSET_LOC (bytes_of 4 _) [] HB); constructor|apply of_bytes_of].
Qed.

Fixpoint write_ats (ws : list (nat * list Z)) : M image_state unit :=
  match ws with [] => mret () | [w] => write_at w.1 w.2 | w :: ws => write_at w.1 w.2;; write_ats ws end.

Lemma write_ats_ok ws s b p :
  img s = mk_file b p → in_block b ws → ∃ s', write_ats ws s = Ok () s' ∧ f_bytes (img s') = put_writes b ws.
Proof.
  revert s b p. induction ws as [|w ws IH]; intros s b p Hi [Hw Hb]; [exists s; split; [done|]; by rewrite Hi|].
  apply Forall_cons in Hw as [Hw Hws].
  assert (He : write_at w.1 w.2 s = Ok () (im_upd_img (λ _, mk_file (splice w.1 w.2 b) (w.1 + length w.2)) s))
    by (eapply write_at_ok; [done|lia]).
  destruct ws as [|w' ws]; [eexists; split; [exact He|done]|]. cbn [write_ats] in *. 
  destruct (IH (im_upd_img (λ _, mk_file (splice w.1 w.2 b) (w.1 + length w.2)) s) (splice w.1 w.2 b) (w.1 + length w.2)%nat)
    as (s' & He' & Hb'); [done|split; [done|rewrite length_splice; lia]|].
  exists s'. split; [by rewrite (bind_ok _ _ _ _ _ He)|exact Hb'].
Qed.

Lemma write_padding_ok new s b p :
  img s = mk_file b p → (length b ≤ p)%nat → 0 ≤ phyaddr s < new → new < 2 ^ 31 → (p = length b ∨ phyaddr s < new) →
  ∃ s' m, write_padding new s = Ok () s' ∧ img s' = mk_file (pad_to m b) m ∧ Z.of_nat m = Z.of_nat p + new - phyaddr s.
Proof.
  intros Hi Hb Hp Hn Hor. unfold write_padding. rewrite bind_get.
  destruct (padding_ok (Z.to_nat (new - phyaddr s)) new s b p) as (s' & He & Hi' & _); [done|done|done|lia|done|right; lia|].
  exists s', (p + Z.to_nat (new - phyaddr s))%nat. split; [exact He|]. split; [done|lia].
Qed.

(** The table, the sector for the batch sequence, and the fixed places. *)
Lemma write_img_info_ok k s D :
  at_end D s → length (taskinfo s) = MAX_TASKS → (k ≤ MAX_TASKS)%nat →
  (512 ≤ length D)%nat → Z.of_nat (length D) + 4096 < 2 ^ 31 →
  let table := concat (taskinfo_bytes <$> take k (taskinfo s)) in
  (length table ≤ 1536)%nat →
  ∃ s' n, write_img_info (Z.of_nat k) (phyaddr s) s = Ok () s' ∧ (length D + 1536 ≤ n)%nat ∧
    f_bytes (img s') = put_writes (pad_to n (D ++ table))
                         (info_writes (nbytes_kernel s) (Z.of_nat k) (Z.of_nat (length D))).
Proof.
  intros [Hi Hp] Hl Hk HD Hn table Ht. unfold write_img_info. rewrite bind_get, Nat2Z.id, bind_modify.
  change (Z.of_nat (MAX_TASKS * TASK_INFO_SIZE)) with 1536. rewrite Hp.
  match goal with |- context[im_upd_img (fwrite ?t) s] => change t with table end.
  assert (Hb : Z.of_nat (length D) + 1536 ≤ batch_offset_of (Z.of_nat (length D)) < Z.of_nat (length D) + 2048).
  { unfold batch_offset_of, SECTOR_SIZE. change (Z.of_nat (MAX_TASKS * TASK_INFO_SIZE)) with 1536. cbv zeta.
    rewrite (s32_id (_ + 1536)) by lia.
    pose proof (Z.div_mod (Z.of_nat (length D) + 1536) 512 ltac:(lia)).
    pose proof (Z.mod_pos_bound (Z.of_nat (length D) + 1536) 512 ltac:(lia)).
    destruct (Z.eqb_spec ((Z.of_nat (length D) + 1536) mod 512) 0); cbn [negb];
      generalize dependent ((Z.of_nat (length D) + 1536) / 512); intros; rewrite s32_id by lia; lia. }
  set (B := batch_offset_of (Z.of_nat (length D))) in *.
  rewrite (s32_id (Z.of_nat (length D) + 1536)), (s32_id (B + SECTOR_SIZE)) by (unfold SECTOR_SIZE; lia).
  rewrite !bind_modify.
  match goal with |- context[mbind _ _ ?x] => set (s1 := x) end.
  assert (Hi1 : img s1 = mk_file (D ++ table) (Z.to_nat B)).
  { cbn [img s1 im_upd_phyaddr im_upd_img]. by rewrite Hi, fwrite_end. }
  assert (Hp1 : phyaddr s1 = Z.of_nat (length D) + 1536) by done.
  destruct (write_padding_ok (B + SECTOR_SIZE) s1 (D ++ table) (Z.to_nat B)) as (s2 & m & He & Hi2 & Hm);
    [done|rewrite length_app; lia|unfold SECTOR_SIZE; lia|unfold SECTOR_SIZE; lia|right; unfold SECTOR_SIZE; lia|].
  rewrite (bind_ok _ _ _ _ _ He).
  unfold SECTOR_SIZE in Hm.
  assert (H512 : (512 ≤ length (pad_to m (D ++ table)))%nat) by (rewrite pad_to_length; lia).
  pose proof (info_in_block (nbytes_kernel s) (Z.of_nat k) (Z.of_nat (length D)) _ H512) as HB.
  destruct (write_ats_ok (info_writes (nbytes_kernel s) (Z.of_nat k) (Z.of_nat (length D))) s2 _ _ Hi2 HB) as (s3 & He3 & Hb3).
  exists s3, m. split; [|split; [lia|exact Hb3]].
  rewrite <- He3. unfold info_writes. fold B. rewrite (s32_id (B + SECTOR_SIZE)) by (unfold SECTOR_SIZE; lia).
  reflexivity.
Qed.

(** ** What the kernel finds *)

Lemma of_bytes_range bs : Forall (λ b, 0 ≤ b < 256) bs → 0 ≤ of_bytes bs < 256 ^ Z.of_nat (length bs).
Proof.
  induction 1 as [|b bs Hb _ IH]; [done|]. change (of_bytes (b :: bs)) with (b + 256 * of_bytes bs). cbn [length].
  rewrite Nat2Z.inj_succ, Z.pow_succ_r by lia. lia.
Qed.

Lemma field_range off n data : Forall (λ b, 0 ≤ b < 256) data → 0 ≤ field off n data < 256 ^ Z.of_nat n.
Proof.
  intros Hd. assert (Hf : Forall (λ b, 0 ≤ b < 256) (take n (drop off data))) by by apply Forall_take, Forall_drop.
  pose proof (of_bytes_range _ Hf) as Hr. unfold field.
  assert (256 ^ Z.of_nat (length (take n (drop off data))) ≤ 256 ^ Z.of_nat n); [|lia].
  apply Z.pow_le_mono_r; [lia|]. rewrite length_take. lia.
Qed.

Lemma field_take off n m b : (off + n ≤ m)%nat → field off n (take m b) = field off n b.
Proof. intros H. unfold field. rewrite skipn_firstn_comm, take_take. do 2 f_equal. lia. Qed.

Lemma slice_concat n (ls : list (list Z)) k x :
  Forall (λ l, length l = n) ls → ls !! k = Some x → take n (drop (n * k) (concat ls)) = x.
Proof.
  intros Hls. revert k. induction Hls as [|l ls Hl _ IH]; intros [|k] Hk; try done; cbn [concat].
  - injection Hk as ->. rewrite Nat.mul_0_r, drop_0. by apply take_app_length'.
  - replace (n * S k)%nat with (length l + n * k)%nat by lia. rewrite drop_app_add. by apply IH.
Qed.

Lemma length_concat_same n (ls : list (list Z)) : Forall (λ l, length l = n) ls → length (concat ls) = (n * length ls)%nat.
Proof. induction 1 as [|l ls Hl _ IH]; cbn [concat length]; [lia|]. rewrite length_app. lia. Qed.

Lemma c_string_app name r : 0 ∉ name → c_string (name ++ 0 :: r) = name.
Proof.
  induction name as [|c name IH]; intros Hn; [done|]. apply not_elem_of_cons in Hn as [Hc Hn]. simpl.
  destruct (Z.eqb_spec c 0); [congruence|]. by rewrite IH.
Qed.

(** An entry whose name fits is read back. *)
Definition entry_fits (t : taskinfo_t) : Prop :=
  length (t_name t) = 16%nat ∧ 0 ≤ t_offset t < 2 ^ 64 ∧ 0 ≤ t_vaddr t < 2 ^ 64 ∧ 0 ≤ t_memsz t < 2 ^ 64 ∧ 0 ≤ t_filesz t < 2 ^ 64.

Lemma taskinfo_bytes_length t : length (t_name t) = 16%nat → length (taskinfo_bytes t) = 48%nat.
Proof. intros H. unfold taskinfo_bytes. by rewrite !length_app, !length_bytes_of, H. Qed.


Lemma task_of_bytes t :
  entry_fits t →
  task_of (taskinfo_bytes t) = mk_task (c_string (t_name t)) (t_offset t) (t_vaddr t) (t_memsz t) (t_filesz t).
Proof.
  intros (Hn & Ho & Hv & Hm & Hf).
  assert (H8 : ∀ v r, 0 ≤ v < 2 ^ 64 → of_bytes (take 8 (bytes_of 8 v ++ r)) = v).
  { intros v r Hv'. rewrite take_app_length' by apply eq_sym, length_bytes_of. rewrite of_bytes_of. by apply Z.mod_small. }
  assert (H8' : ∀ v, 0 ≤ v < 2 ^ 64 → of_bytes (take 8 (bytes_of 8 v)) = v).
  { intros v Hv'. rewrite <- (app_nil_r (bytes_of 8 v)). by apply H8. }
  unfold task_of, taskinfo_bytes, field. rewrite take_app_length' by done. f_equal.
  - rewrite drop_app_length' by done. by apply H8.
  - rewrite app_assoc, drop_app_length' by (by rewrite length_app, length_bytes_of, Hn). by apply H8.
  - rewrite 2!app_assoc, drop_app_length' by (by rewrite !length_app, !length_bytes_of, Hn). by apply H8.
  - rewrite 3!app_assoc, drop_app_length' by (by rewrite !length_app, !length_bytes_of, Hn). by apply H8'.
Qed.

Lemma div_between a b : 0 < b → b * (a / b) ≤ a < b * (a / b) + b.
Proof. intros Hb. pose proof (Z.div_mod a b). pose proof (Z.mod_pos_bound a b). lia. Qed.

Section Reading.
Context {D : Type} `{!BlockDevice SECTOR_BYTES D}.

(** The card begins with the image. *)
Definition card_holds (card : D) (b : list Z) : Prop := ∀ i x, b !! i = Some x → sd_cell card (Z.of_nat i) = x.

Lemma init_task_info_entry boot card b o j :
  card_holds card b → field TASKINFO_OFFSET_LOC 4 boot = Z.of_nat o → Z.of_nat o + 4096 < 2 ^ 31 → (j < 32)%nat → (o + 1536 ≤ length b)%nat →
  tasks (init_task_info boot card) !! j = Some (task_of (take 48 (drop (o + 48 * j) b))).
Proof.
  intros Hc Ho Hsz Hj Hl. unfold init_task_info. cbn [tasks]. change 0x1f6%nat with TASKINFO_OFFSET_LOC. rewrite Ho.
  change (Z.of_nat (TASK_MAXNUM * TASK_INFO_SIZE)) with 1536. rewrite !s32_id by lia. 
  unfold SECTOR_SIZE. rewrite !Z.quot_div_nonneg, Z.rem_mod_nonneg by lia.
  rewrite list_lookup_fmap, lookup_seq_lt by done. cbn [fmap option_fmap option_map]. do 2 f_equal.
  pose proof (div_between (Z.of_nat o) 512 ltac:(lia)) as Hq1.
  pose proof (Z.div_mod (Z.of_nat o) 512 ltac:(lia)) as Hr. pose proof (Z.mod_pos_bound (Z.of_nat o) 512 ltac:(lia)) as Hr'.
  pose proof (div_between (Z.of_nat o + 1536 - 1) 512 ltac:(lia)) as Hq2.
  rewrite (u32_id (Z.of_nat o / 512)), (u32_id ((Z.of_nat o + 1536 - 1) / 512)) by lia. rewrite u32_id by lia.
  change TASK_INFO_SIZE with 48%nat.
  change (Z.of_nat SECTOR_BYTES) with 512.
  generalize dependent (Z.of_nat o mod 512). generalize dependent (Z.of_nat o / 512).
  generalize dependent ((Z.of_nat o + 1536 - 1) / 512). intros q2 Hq2 q1 Hq1 r Hr Hr'.
  rewrite drop_drop. apply slice_eq; [rewrite length_take, length_drop; lia|].
  intros i Hi. rewrite lookup_take_lt, lookup_drop by done.
  rewrite (sd_read_cell (per := SECTOR_BYTES)) by (unfold SECTOR_BYTES; lia).
  destruct (lookup_lt_is_Some_2 b (o + 48 * j + i)%nat) as [x Hx]; [lia|]. rewrite Hx, <- (Hc _ _ Hx).
  change (Z.of_nat SECTOR_BYTES) with 512. do 2 f_equal. lia.
Qed.
End Reading.

(** ** The image of a list of files *)

Lemma strncpy_to_length n src dst : (n ≤ length dst)%nat → length (strncpy_to n src dst) = length dst.
Proof. intros H. unfold strncpy_to. rewrite length_app, length_take, length_app, length_replicate, length_drop. lia. Qed.

Lemma fills_name_length name phs t : length (t_name t) = 16%nat → length (t_name (fills name phs t)) = 16%nat.
Proof.
  unfold fills. generalize (filter (λ ph, is_load ph = true) phs). intros l. revert t.
  induction l as [|ph l IH]; intros t Ht; [done|]. cbn [foldl]. apply IH. unfold fill. cbn [t_name].
  rewrite strncpy_to_length; lia.
Qed.

Lemma entry_name_length name data n t : length (t_name t) = 16%nat → length (t_name (entry_of name data n t)) = 16%nat.
Proof.
  intros Ht. unfold entry_of. cbn [t_name]. pose proof (fills_name_length name (default [] (phdrs data)) t Ht).
  rewrite strncpy_to_length; lia.
Qed.

Lemma layout_holds files i name data : files !! i = Some (name, data) →
  ∃ r, layout files [] = layout (take i files) [] ++ body data ++ r.
Proof.
  intros Hi. pose proof (layout_app (take i files) ((name, data) :: drop (S i) files) []) as Ha.
  rewrite (take_drop_middle files i (name, data) Hi) in Ha. rewrite Ha. cbn [layout]. case_bool_decide.
  - destruct (layout_prefix (drop (S i) files) (pad_to 512 (layout (take i files) [] ++ body data))) as [r ->].
    unfold pad_to. eexists. by rewrite <- !app_assoc.
  - destruct (layout_prefix (drop (S i) files) (layout (take i files) [] ++ body data)) as [r ->].
    eexists. by rewrite <- !app_assoc.
Qed.

(** The files given: the boot block, the kernel and at most 32 programs, ELF
    files all, of less than 2 GB together. *)
Record image_input (files : list (list Z * list Z)) : Prop := {
  ii_boot : ∃ data, files !! 0%nat = Some (name_bootblock, data);
  ii_count : (2 ≤ length files ≤ 2 + MAX_TASKS)%nat;
  ii_elf : Forall (λ f, is_Some (phdrs f.2)) files;
  ii_size : Z.of_nat (length (layout files [])) + 4096 < 2 ^ 31
}.

(** A program whose only segment to load is [ph], under a name that fits. *)
Record one_segment (name data : list Z) (ph : Elf64_Phdr) : Prop := {
  os_phdrs : ∃ phs, phdrs data = Some phs ∧ filter (λ ph, is_load ph = true) phs = [ph];
  os_mem : p_memsz ph ≠ 0;
  os_file : p_offset ph + p_filesz ph ≤ Z.of_nat (length data);
  os_bytes : Forall (λ b, 0 ≤ b < 256) data;
  os_name : (length name ≤ 15)%nat;
  os_chars : 0 ∉ name
}.

Lemma image_boot_length files i : image_input files → (0 < i)%nat → (512 ≤ length (layout (take i files) []))%nat.
Proof.
  intros HI Hi. destruct (ii_boot _ HI) as [data H0]. destruct files as [|f files]; [done|]. injection H0 as ->.
  destruct i as [|i]; [lia|]. cbn [take layout]. rewrite bool_decide_true by done.
  pose proof (layout_length (take i files) (pad_to 512 ([] ++ body data))). rewrite pad_to_length in *. lia.
Qed.

Lemma put_all_ok files : image_input files →
  ∃ s, put_files files 0 image0 = Ok () s ∧ at_end (layout files []) s ∧ length (taskinfo s) = MAX_TASKS ∧
    Forall (λ t, length (t_name t) = 16%nat) (take (length files - 2) (taskinfo s)) ∧
    ∀ j name data, files !! (2 + j)%nat = Some (name, data) →
      taskinfo s !! j = Some (entry_of name data (length (layout (take (2 + j) files) [])) no_task).
Proof.
  intros HI. destruct HI as [_ Hc He Hs].
  destruct (put_files_ok files 0 image0 []) as (s & Hok & Ha & Hl & _ & Ht); [done|done| |lia|].
  { change (length (taskinfo image0)) with MAX_TASKS. lia. }
  assert (Hent : ∀ j name data, files !! (2 + j)%nat = Some (name, data) →
      taskinfo s !! j = Some (entry_of name data (length (layout (take (2 + j) files) [])) no_task)).
  { intros j name data Hj. apply lookup_lt_Some in Hj as Hlt. specialize (Ht (2 + j)%nat name data no_task Hj).
    replace (0 + (2 + j) - 2)%nat with j in Ht by lia. apply Ht; [lia|]. apply lookup_replicate_2. lia. }
  exists s. split; [exact Hok|]. split; [done|]. split; [done|]. split; [|done].
  apply Forall_lookup. intros j t Hj. apply lookup_take_Some in Hj as [Hj Hlt].
  destruct (lookup_lt_is_Some_2 files (2 + j)%nat) as [[name data] Hf]; [lia|].
  rewrite (Hent _ _ _ Hf) in Hj. injection Hj as <-. by apply entry_name_length.
Qed.

(** The image that is made: the programs, the table and the padding, with the
    fixed places of the boot block written over. *)
Lemma image_of_ok files : image_input files →
  ∃ tis n nk, image_of files = Some (put_writes (pad_to n (layout files [] ++ concat (taskinfo_bytes <$> tis)))
                                    (info_writes nk (Z.of_nat (length files - 2)) (Z.of_nat (length (layout files []))))) ∧
    (length (layout files []) + 1536 ≤ n)%nat ∧ length tis = (length files - 2)%nat ∧
    Forall (λ t, length (t_name t) = 16%nat) tis ∧
    ∀ j name data, files !! (2 + j)%nat = Some (name, data) →
      tis !! j = Some (entry_of name data (length (layout (take (2 + j) files) [])) no_task).
Proof.
  intros HI. destruct (put_all_ok files HI) as (s & Hok & Ha & Hl & Hn & Ht). pose proof (ii_count _ HI) as Hc.
  unfold image_of, create_image. rewrite (bind_ok _ _ _ _ _ Hok), bind_get, bind_modify.
  match goal with |- context[im_upd_tasks ?l s] => set (s1 := im_upd_tasks l s) end.
  assert (Ht1 : take (length files - 2) (taskinfo s1) = take (length files - 2) (taskinfo s)).
  { cbn [taskinfo s1 im_upd_tasks]. apply list_eq. intros i. destruct (decide (i < length files - 2)%nat).
    - rewrite !lookup_take_lt, list_lookup_fmap, list_lookup_imap by done.
      destruct (taskinfo s !! i) as [t|]; [|done]. cbn [fmap option_fmap option_map].
      by rewrite (proj2 (Nat.leb_gt _ _)) by lia.
    - by rewrite !lookup_take_ge by lia. }
  assert (Hl1 : length (taskinfo s1) = MAX_TASKS).
  { cbn [taskinfo s1 im_upd_tasks]. by rewrite length_fmap, length_imap. }
  assert (Hlen : length (concat (taskinfo_bytes <$> take (length files - 2) (taskinfo s))) = (48 * (length files - 2))%nat).
  { rewrite (length_concat_same 48), length_fmap, length_take; [lia|]. apply Forall_fmap.
    eapply Forall_impl; [exact Hn|]. intros t. apply taskinfo_bytes_length. }
  pose proof (image_boot_length files (length files) HI ltac:(lia)) as HD. rewrite take_ge in HD by lia.
  destruct (write_img_info_ok (length files - 2) s1 (layout files [])) as (s2 & n & He & Hbn & Hb);
    [done|done|lia|done|exact (ii_size _ HI)|rewrite Ht1; unfold MAX_TASKS in *; lia|].
  replace (Z.of_nat (length files) - 2) with (Z.of_nat (length files - 2)) by lia.
  change (phyaddr s) with (phyaddr s1). rewrite He. exists (take (length files - 2) (taskinfo s)), n, (nbytes_kernel s1).
  rewrite Hb, Ht1. split; [done|]. split; [done|]. split; [rewrite length_take; lia|]. split; [done|].
  intros j name data Hj. apply lookup_lt_Some in Hj as Hlt. rewrite lookup_take_lt by lia. by apply Ht.
Qed.

Lemma one_segment_body name data ph : one_segment name data ph → body data = segment_bytes data ph.
Proof. intros [(phs & Hp & Hf) _ _ _ _ _]. unfold body. rewrite Hp. unfold body_of. rewrite Hf. cbn. apply app_nil_r. Qed.

Lemma one_segment_entry name data ph n : one_segment name data ph →
  entry_of name data n no_task
  = mk_ti (name ++ replicate (16 - length name) 0) (Z.of_nat n) (p_vaddr ph) (p_memsz ph) (p_filesz ph).
Proof.
  intros [(phs & Hp & Hf) _ _ _ Hn _]. unfold entry_of, fills. rewrite Hp. change (default [] (Some phs)) with phs. rewrite Hf.
  cbn [foldl fill t_name t_offset t_vaddr t_memsz t_filesz no_task]. f_equal. unfold strncpy_to.
  rewrite (drop_ge (replicate 16 0)) by (rewrite length_replicate; lia). rewrite app_nil_r.
  apply list_eq. intros i. destruct (decide (i < 15)%nat).
  - rewrite lookup_app_l by (rewrite length_take, length_app, length_replicate; lia). rewrite lookup_take_lt by done.
    destruct (decide (i < length name)%nat); [by rewrite !lookup_app_l by lia|].
    rewrite !lookup_app_r, !lookup_replicate_2 by lia. done.
  - rewrite lookup_app_r by (rewrite length_take, length_app, length_replicate; lia).
    rewrite length_take, length_app, length_replicate, lookup_drop.
    replace (15 + (i - Nat.min 15 (length name + 15)))%nat with i by lia.
    destruct (decide (i < 16)%nat).
    + rewrite lookup_take_lt, !lookup_app_r, !lookup_replicate_2 by lia. done.
    + rewrite lookup_take_ge by lia. symmetry. apply lookup_ge_None_2. rewrite length_app, length_replicate. lia.
Qed.

Lemma one_segment_range name data ph : one_segment name data ph →
  0 ≤ p_offset ph ∧ 0 ≤ p_vaddr ph < 2 ^ 64 ∧ 0 ≤ p_memsz ph < 2 ^ 64 ∧ 0 ≤ p_filesz ph < 2 ^ 64.
Proof.
  intros [(phs & Hp & Hf) _ _ Hb _ _]. assert (Hin : ph ∈ phs) by (eapply list_elem_of_filter; rewrite Hf; left).
  unfold phdrs in Hp. destruct (read_ehdr data) as [eh|]; [|done]. cbn [mbind option_bind] in Hp.
  apply mapM_Some_1 in Hp. apply list_elem_of_lookup in Hin as [i Hi].
  eapply Forall2_lookup_r in Hp as (k & _ & Hk); [|exact Hi]. unfold read_phdr in Hk. case_match; [|done].
  injection Hk as <-. cbn [p_offset p_vaddr p_memsz p_filesz]. change (2 ^ 64) with (256 ^ Z.of_nat 8).
  split; [|split_and?; by apply field_range].
  apply (field_range (Z.to_nat (e_phoff eh + Z.of_nat k * e_phentsize eh) + 8) 8 data Hb).
Qed.

Lemma one_segment_fits name data ph n : one_segment name data ph → Z.of_nat n < 2 ^ 31 →
  entry_fits (entry_of name data n no_task).
Proof.
  intros Hs Hn. rewrite (one_segment_entry _ _ _ _ Hs). pose proof (os_name _ _ _ Hs) as Hl.
  pose proof (one_segment_range _ _ _ Hs) as (_ & Hv & Hm & Hf).
  unfold entry_fits. cbn [t_name t_offset t_vaddr t_memsz t_filesz].
  rewrite length_app, length_replicate. split; [lia|]. split; [cbn; lia|done].
Qed.

Lemma layout_take_le files i : (length (layout (take i files) []) ≤ length (layout files []))%nat.
Proof. rewrite <- (take_drop i files) at 2. rewrite layout_app. apply layout_length. Qed.

(** What the kernel needs to know of an image. *)
Record image_shape (files : list (list Z * list Z)) (image : list Z) : Prop := {
  is_tasknum : field TASK_NUM_LOC 2 (take 512 image) = Z.of_nat (length files - 2);
  is_table : field TASKINFO_OFFSET_LOC 4 (take 512 image) = Z.of_nat (length (layout files []));
  is_length : (length (layout files []) + 1536 ≤ length image)%nat;
  is_programs i x : (512 ≤ i)%nat → layout files [] !! i = Some x → image !! i = Some x;
  is_entries j name data : files !! (2 + j)%nat = Some (name, data) →
    take 48 (drop (length (layout files []) + 48 * j) image)
    = taskinfo_bytes (entry_of name data (length (layout (take (2 + j) files) [])) no_task)
}.

Lemma image_of_shape files : image_input files → ∃ image, image_of files = Some image ∧ image_shape files image.
Proof.
  intros HI. destruct (image_of_ok files HI) as (tis & n & nk & Himg & Hn & Hlt & Hnl & Ht).
  pose proof (ii_count _ HI) as Hcount. pose proof (ii_size _ HI) as Hsize.
  pose proof (image_boot_length files (length files) HI ltac:(lia)) as H512. rewrite take_ge in H512 by lia.
  set (L := layout files []) in *. set (b0 := pad_to n (L ++ concat (taskinfo_bytes <$> tis))) in *.
  set (image := put_writes b0 (info_writes nk (Z.of_nat (length files - 2)) (Z.of_nat (length L)))) in *.
  exists image. split; [done|]. assert (Hb0 : (n ≤ length b0)%nat) by (unfold b0; rewrite pad_to_length; lia).
  assert (HB : in_block b0 (info_writes nk (Z.of_nat (length files - 2)) (Z.of_nat (length L)))) by (apply info_in_block; lia).
  assert (Hil : length image = length b0) by by apply put_writes_length.
  destruct (info_fields nk (Z.of_nat (length files - 2)) (Z.of_nat (length L)) b0 ltac:(lia)) as (F1 & F2 & _).
  fold image in F1, F2. unfold MAX_TASKS in *. split.
  - rewrite field_take, F1 by (unfold TASK_NUM_LOC; lia). apply Z.mod_small. lia.
  - fold L. rewrite field_take, F2 by (unfold TASKINFO_OFFSET_LOC; lia). apply Z.mod_small. lia.
  - fold L. lia.
  - fold L. intros i x Hi Hx. unfold image. rewrite put_writes_behind by done. unfold b0, pad_to.
    by repeat (apply lookup_app_l_Some).
  - fold L. intros j name data Hj. apply lookup_lt_Some in Hj as Hjl. specialize (Ht _ _ _ Hj).
    assert (Hbytes : Forall (λ l, length l = 48%nat) (taskinfo_bytes <$> tis)).
    { apply Forall_fmap. eapply Forall_impl; [exact Hnl|]. intros t. apply taskinfo_bytes_length. }
    assert (He := f_equal (fmap taskinfo_bytes) Ht). rewrite <- list_lookup_fmap in He.
    rewrite <- (slice_concat 48 _ _ _ Hbytes He). pose proof (length_concat_same 48 _ Hbytes) as Hcl.
    rewrite length_fmap in Hcl. apply slice_eq; [rewrite length_take, length_drop; lia|].
    intros i Hi. rewrite lookup_take_lt, lookup_drop by done. unfold image. rewrite put_writes_behind by (done || lia).
    unfold b0, pad_to. rewrite lookup_app_l by (rewrite length_app; lia). rewrite lookup_app_r by lia. f_equal. lia.
Qed.

(** The bytes of the segment of a program lie where its entry says. *)
Lemma segment_in_layout files j name data ph k :
  files !! j = Some (name, data) → one_segment name data ph → 0 ≤ k < p_filesz ph →
  ∃ x, data !! Z.to_nat (p_offset ph + k) = Some x ∧
    layout files [] !! (length (layout (take j files) []) + Z.to_nat k)%nat = Some x.
Proof.
  intros Hj Hone Hk. pose proof (one_segment_range _ _ _ Hone) as (Ho & _). pose proof (os_file _ _ _ Hone) as Hfile.
  destruct (lookup_lt_is_Some_2 data (Z.to_nat (p_offset ph + k))) as [x Hx]; [lia|]. exists x. split; [done|].
  destruct (layout_holds files j name data Hj) as [r ->]. rewrite lookup_app_r by lia. apply lookup_app_l_Some.
  rewrite (one_segment_body _ _ _ Hone). unfold segment_bytes.
  destruct (Z.eqb_spec (p_memsz ph) 0); [by destruct (os_mem _ _ _ Hone)|].
  unfold reads. rewrite list_lookup_fmap, lookup_seq_lt by lia. cbn [fmap option_fmap option_map].
  match goal with |- Some (u8 (default _ (data !! ?i))) = _ => replace i with (Z.to_nat (p_offset ph + k)) by lia end.
  rewrite Hx. f_equal. change (default (-1) (Some x)) with x. apply u8_id.
  exact (Forall_lookup_1 _ _ _ _ (os_bytes _ _ _ Hone) Hx).
Qed.

Section Roundtrip.
Context {D : Type} `{!BlockDevice SECTOR_BYTES D}.

(** C37: a program given to create_image is found by the kernel: from a card
    that begins with the image, init_task_info reads the number of programs,
    and in the place of each program its name, the address and the sizes of its
    segment, and an offset at which the card holds the bytes of that segment in
    the ELF file. *)
Theorem create_image_tasks files :
  image_input files →
  ∃ image, image_of files = Some image ∧ ∀ card : D, card_holds card image →
    let table := init_task_info (take 512 image) card in
    tasknum table = Z.of_nat (length files) - 2 ∧
    ∀ j name data ph, files !! (2 + j)%nat = Some (name, data) → one_segment name data ph →
      ∃ t, tasks table !! j = Some t ∧ ti_name t = name ∧ ti_vaddr t = p_vaddr ph ∧
        memsz t = p_memsz ph ∧ filesz t = p_filesz ph ∧
        ∀ k, 0 ≤ k < p_filesz ph → data !! Z.to_nat (p_offset ph + k) = Some (image_byte card t k).
Proof.
  intros HI. destruct (image_of_shape files HI) as (image & Himg & [Hnum Htab Hlen Hprog Hent]).
  exists image. split; [done|]. intros card Hcard table.
  pose proof (ii_count _ HI) as Hcount. pose proof (ii_size _ HI) as Hsize. unfold MAX_TASKS in *. split.
  { change (tasknum table) with (s16 (field TASK_NUM_LOC 2 (take 512 image))). rewrite Hnum. unfold s16.
    rewrite Z.mod_small by lia. lia. }
  intros j name data ph Hj Hone. apply lookup_lt_Some in Hj as Hjl. specialize (Hent _ _ _ Hj).
  pose proof (image_boot_length files (2 + j) HI ltac:(lia)). pose proof (layout_take_le files (2 + j)).
  set (start := length (layout (take (2 + j) files) [])) in *.
  exists (mk_task name (Z.of_nat start) (p_vaddr ph) (p_memsz ph) (p_filesz ph)). split.
  { unfold table. rewrite (init_task_info_entry _ card image _ j Hcard Htab) by lia.
    rewrite Hent, task_of_bytes, (one_segment_entry _ _ _ _ Hone) by (eapply one_segment_fits; [exact Hone|lia]).
    cbn [t_name t_offset t_vaddr t_memsz t_filesz].
    pose proof (os_name _ _ _ Hone). replace (16 - length name)%nat with (S (15 - length name)) by lia. cbn [replicate].
    by rewrite c_string_app by exact (os_chars _ _ _ Hone). }
  do 4 (split; [done|]). intros k Hk. destruct (segment_in_layout _ _ _ _ _ _ Hj Hone Hk) as (x & -> & Hx).
  f_equal. unfold image_byte. cbn [filesz image_offset]. destruct (Z.ltb_spec k (p_filesz ph)); [|lia].
  replace (Z.of_nat start + k) with (Z.of_nat (start + Z.to_nat k)) by lia. symmetry. apply Hcard, Hprog; [lia|done].
Qed.
End Roundtrip.

Lemma sd_cell_fun (card : Z → Z) n : 0 ≤ n → sd_cell (per := SECTOR_BYTES) card n = card n.
Proof.
  intros Hn. unfold sd_cell. change (sd_read card (n / Z.of_nat SECTOR_BYTES) 1) with (fun_read SECTOR_BYTES card (n / Z.of_nat SECTOR_BYTES) 1).
  pose proof (Z.mod_pos_bound n 512 ltac:(lia)). change (Z.of_nat SECTOR_BYTES) with 512 in *. unfold fun_read.
  rewrite list_lookup_fmap, lookup_seq_lt by (unfold SECTOR_BYTES; lia). cbn [fmap option_fmap option_map].
  change (Z.of_nat SECTOR_BYTES) with 512. change (default 0 (Some ?x)) with x. f_equal.
  pose proof (Z.div_mod n 512 ltac:(lia)). lia.
Qed.

(** An ELF file whose only program header asks for [seg] at [vaddr]. *)
Definition ex_elf (vaddr memsz : Z) (seg : list Z) : list Z :=
  [127; 69; 76; 70] ++ replicate 20 0 ++ bytes_of 8 vaddr ++ bytes_of 8 64 ++ replicate 14 0 ++ bytes_of 2 56 ++ bytes_of 2 1 ++ replicate 6 0 ++
  bytes_of 4 1 ++ bytes_of 4 5 ++ bytes_of 8 120 ++ bytes_of 8 vaddr ++ bytes_of 8 vaddr ++ bytes_of 8 (Z.of_nat (length seg)) ++ bytes_of 8 memsz ++ bytes_of 8 4096 ++ seg.
Definition ex_files : list (list Z * list Z) :=
  [(name_bootblock, ex_elf 0x50200000 4 [1; 2; 3; 4]); (name_main, ex_elf 0x50201000 8 [5; 6; 7]); ([115; 104], ex_elf 0x10000 0x1800 [8; 9; 10])].

Lemma create_image_tasks_witness :
  image_input ex_files ∧ ∃ image (card : Z → Z), image_of ex_files = Some image ∧ card_holds card image ∧
    let table := init_task_info (take 512 image) card in
    tasknum table = 1 ∧ ∃ t, tasks table !! 0%nat = Some t ∧ ti_name t = [115; 104] ∧ ti_vaddr t = 0x10000 ∧
      memsz t = 0x1800 ∧ filesz t = 3 ∧ image_byte card t 1 = 9.
Proof.
  assert (HI : image_input ex_files).
  { split; [by eexists|unfold MAX_TASKS; cbn [length ex_files]; lia| |by vm_compute].
    repeat (apply Forall_cons; split; [vm_compute; by eexists|]). constructor. }
  split; [exact HI|]. destruct (create_image_tasks (D := Z → Z) ex_files HI) as (image & Himg & H).
  exists image, (λ n, default 0 (image !! Z.to_nat n)). split; [done|].
  assert (Hc : card_holds (λ n, default 0 (image !! Z.to_nat n)) image).
  { intros i x Hx. rewrite sd_cell_fun by lia. by rewrite Nat2Z.id, Hx. }
  split; [exact Hc|]. destruct (H _ Hc) as [Hn Ht]. split; [exact Hn|].
  destruct (Ht 0%nat [115; 104] (ex_elf 0x10000 0x1800 [8; 9; 10]) (mk_phdr 1 120 0x10000 3 0x1800)) as (t & Htl & H1 & H2 & H3 & H4 & H5).
  - reflexivity.
  - split; [exists [mk_phdr 1 120 0x10000 3 0x1800]; split; by vm_compute|done|by vm_compute|apply (bool_decide_unpack _); by vm_compute|cbn; lia|apply (bool_decide_unpack _); by vm_compute].
  - exists t. split; [done|]. do 4 (split; [done|]). specialize (H5 1 ltac:(cbn; lia)). 
    match type of H5 with ?l = _ => assert (Hd : l = Some 9) by by vm_compute end. rewrite Hd in H5. congruence.
Defined.

(** ** The place of the swap area *)

Lemma field_S off n b c : b !! off = Some c → field off (S n) b = c + 256 * field (S off) n b.
Proof.
  intros Hc. unfold field. rewrite (drop_S b c off Hc). cbn [take]. done.
Qed.

(** createimage.c stores the offset of the swap area at 0x1ee; init_swap reads
    an int at 0x1ed (os/swap.h), which holds the byte before it and the low
    three bytes of the offset. *)
Lemma swap_offset_misread k n o b c :
  (512 ≤ length b)%nat → b !! 0x1ed%nat = Some c →
  field 0x1ed 4 (put_writes b (info_writes k n o))
  = c + 256 * (s32 (batch_offset_of o + SECTOR_SIZE) mod 2 ^ 24).
Proof.
  intros Hb Hc. set (v := s32 (batch_offset_of o + SECTOR_SIZE)). set (img := put_writes b (info_writes k n o)).
  pose proof (info_in_block k n o b Hb) as HB.
  assert (Hi : img !! 0x1ed%nat = Some c).
  { assert (Ht : take 1 (drop 0x1ed img) = take 1 (drop 0x1ed b)).
    { apply put_writes_apart; [done|]. unfold info_writes. repeat constructor; unfold apart; cbn [fst snd];
        rewrite length_bytes_of; compute; lia. }
    apply (f_equal (.!! 0%nat)) in Ht. rewrite !lookup_take_lt, !lookup_drop in Ht by lia.
    change (0x1ed + 0)%nat with 0x1ed%nat in Ht. by rewrite Ht. }
  rewrite (field_S _ _ _ _ Hi). do 2 f_equal.
  assert (Hf : take 4 (drop SWAP_OFFSET_LOC img) = bytes_of 4 v).
  { unfold img, info_writes, put_writes. cbn [foldl fst snd]. apply slice_splice_same; [|done].
    rewrite length_bytes_of. pose proof (put_writes_length b (take 5 (info_writes k n o))) as Hl. unfold info_writes, put_writes in Hl. cbn [take foldl fst snd] in Hl.
    rewrite Hl; [unfold SWAP_OFFSET_LOC; lia|]. split; [|done]. destruct HB as [HB _]. by apply (Forall_take _ 5) in HB. }
  unfold field. change (S 0x1ed) with SWAP_OFFSET_LOC.
  replace (take 3 (drop SWAP_OFFSET_LOC img)) with (take 3 (take 4 (drop SWAP_OFFSET_LOC img))) by (rewrite take_take; done).
  rewrite Hf. change (take 3 (bytes_of 4 v)) with (bytes_of 3 v). apply of_bytes_of.
Qed.

(** The entry of a program whose name has 16 characters holds no NUL after the
    name. *)
Lemma long_name_unterminated :
  t_name (entry_of (replicate 16 97) (ex_elf 0x10000 4 [1]) 512 no_task) = replicate 16 97.
Proof. by vm_compute. Qed.
