(* ===== verification/Shell.v ===== *)
(** tiny_libc/shell_tools.c: how the shell takes a line apart, and how it keeps
    the path it shows when the directory changes.

    The functions work on strings in the byte memory of the shell's process;
    the string functions of tiny_libc/string.c are those of libs/string.c,
    which CString models.  [fuel] bounds the walks over strings. *)
From S2P Require Import Prelude CString.

Definition MAX_ARGS : nat := 8.
Definition MAX_NAME_LEN : Z := 15.
Definition MAX_PATH_LEN : nat := 80.

Definition isspace (ch : Z) : bool :=
  (ch =? 32) || (ch =? 9) || (ch =? 10) || (ch =? 11) || (ch =? 12) || (ch =? 13).

(** ** Reading a line *)

Fixpoint my_atoi_loop (fuel : nat) (m : bmem) (p sum : Z) : option Z :=
  match fuel with
  | O => None
  | S fuel' => if m p =? 0 then Some sum else my_atoi_loop fuel' m (p + 1) (s32 (s32 (sum * 10) + (m p - 48)))
  end.
Definition my_atoi (fuel : nat) (m : bmem) (str : Z) : option Z := my_atoi_loop fuel m str 0.

Definition BUF_SIZE : Z := 256.

(** [input]: what sys_getchar gives, call by call, -1 when no key is there.
    The result is the length, the buffer and the characters echoed; [None]
    when the input given does not end the line, or a store is out of range. *)
Fixpoint process_input_echo (max_name_len : Z) (input buffer : list Z) (len : Z) (echo : list Z) :
    option (Z * list Z * list Z) :=
  match input with
  | [] => None
  | ch :: input' =>
      if ch =? -1 then process_input_echo max_name_len input' buffer len echo
      else if (ch =? 13) || (ch =? 10) then Some (len, buffer, echo ++ [10; 13])
      else if (ch =? 8) || (ch =? 127) then
        if 0 <? len then process_input_echo max_name_len input' buffer (len - 1) (echo ++ [u8 ch])
        else process_input_echo max_name_len input' buffer len echo
      else if len <? max_name_len then
        buffer ← arr_set buffer len (u8 ch);
        process_input_echo max_name_len input' buffer (len + 1) (echo ++ [u8 ch])
      else process_input_echo max_name_len input' buffer len (echo ++ [u8 ch])
  end.

(** The line that a list of keys makes. *)
Definition type_key (max : Z) (line : list Z) (ch : Z) : list Z :=
  if ch =? -1 then line
  else if (ch =? 8) || (ch =? 127) then removelast line
  else if Z.of_nat (length line) <? max then line ++ [u8 ch] else line.
Definition typed (max : Z) (keys : list Z) : list Z := foldl (type_key max) [] keys.
Definition ends_line (ch : Z) : bool := (ch =? 13) || (ch =? 10).

Lemma process_input_run max keys ch rest line tl echo :
  Forall (λ k, ends_line k = false) keys → ends_line ch = true →
  Z.of_nat (length line) ≤ max ≤ Z.of_nat (length (line ++ tl)) →
  ∃ tl' echo', process_input_echo max (keys ++ ch :: rest) (line ++ tl) (Z.of_nat (length line)) echo
    = Some (Z.of_nat (length (foldl (type_key max) line keys)), foldl (type_key max) line keys ++ tl', echo') ∧
    length (foldl (type_key max) line keys ++ tl') = length (line ++ tl) ∧
    Z.of_nat (length (foldl (type_key max) line keys)) ≤ max.
Proof.
  intros Hk Hch. revert line tl echo. induction Hk as [|k keys Hk _ IH]; intros line tl echo Hmax; cbn [app process_input_echo foldl].
  - unfold ends_line in Hch. rewrite Hch. destruct (Z.eqb_spec ch (-1)); [by subst ch|]. eexists tl, _. split; [done|]. split; [done|lia].
  - unfold type_key at 2 4 6 8. unfold ends_line in Hk. rewrite Hk. destruct (k =? -1) eqn:E1; [by apply IH|].
    destruct ((k =? 8) || (k =? 127)) eqn:E2.
    + destruct line as [|x line _] using rev_ind; [by apply IH|]. rewrite removelast_last, length_app in *. cbn [length] in *.
      destruct (Z.ltb_spec 0 (Z.of_nat (length line + 1))); [|lia]. rewrite <- app_assoc in *.
      replace (Z.of_nat (length line + 1) - 1) with (Z.of_nat (length line)) by lia. cbn [app] in *.
      apply IH. rewrite length_app in Hmax |- *. simpl in *. lia.
    + destruct (Z.ltb_spec (Z.of_nat (length line)) max) as [Hlt|Hge]; [|by apply IH].
      rewrite length_app in Hmax. destruct tl as [|y tl]; [simpl in Hmax; lia|].
      rewrite arr_set_Some by (rewrite length_app; simpl; lia). cbn [mbind option_bind].
      rewrite Nat2Z.id. rewrite insert_app_r_alt, Nat.sub_diag by done. cbn [insert list_insert].
      rewrite (cons_middle (u8 k)), app_assoc. replace (Z.of_nat (length line) + 1) with (Z.of_nat (length (line ++ [u8 k]))) by (rewrite length_app; simpl; lia).
      destruct (IH (line ++ [u8 k]) tl (echo ++ [u8 k])) as (tl' & echo' & He & Hl & Hm).
      { rewrite !length_app. simpl in *. lia. }
      exists tl', echo'. rewrite He. split; [done|]. split; [|done]. rewrite Hl, !length_app. simpl. lia.
Qed.

(** What stands in the buffer is the edited line, and what was there before or
    was deleted again behind it. *)
Theorem process_input_echo_spec max keys ch rest buffer :
  Forall (λ k, ends_line k = false) keys → ends_line ch = true → 0 ≤ max ≤ Z.of_nat (length buffer) →
  ∃ tl echo, process_input_echo max (keys ++ ch :: rest) buffer 0 [] = Some (Z.of_nat (length (typed max keys)), typed max keys ++ tl, echo) ∧
    length (typed max keys ++ tl) = length buffer ∧ Z.of_nat (length (typed max keys)) ≤ max.
Proof. intros Hk Hch Hmax. by apply (process_input_run max keys ch rest [] buffer []). Qed.

Lemma process_input_echo_spec_witness :
  ∃ tl echo, process_input_echo 4 [97; -1; 98; 8; 99; 10] [0; 0; 0; 0; 0] 0 [] = Some (2, [97; 99] ++ tl, echo) ∧
    length ([97; 99] ++ tl) = 5%nat ∧ 2 ≤ 4.
Proof.
  apply (process_input_echo_spec 4 [97; -1; 98; 8; 99] 10 [] [0; 0; 0; 0; 0]); [|done|simpl; lia].
  apply (bool_decide_unpack _). by vm_compute.
Defined.

(** ** Words of a line *)

(** [while ( *p != 0 && isspace( *p)) p++] and its counterpart for a word. *)
Fixpoint skip_spaces (fuel : nat) (m : bmem) (p : Z) : option Z :=
  match fuel with
  | O => None
  | S fuel' => if negb (m p =? 0) && isspace (m p) then skip_spaces fuel' m (p + 1) else Some p
  end.
Fixpoint skip_word (fuel : nat) (m : bmem) (p : Z) : option Z :=
  match fuel with
  | O => None
  | S fuel' => if negb (m p =? 0) && negb (isspace (m p)) then skip_word fuel' m (p + 1) else Some p
  end.

(** The name of the command: the memory, the place behind it and its length. *)
Fixpoint copy_command (fuel : nat) (m : bmem) (p command cmd_len : Z) : option (bmem * Z * Z) :=
  match fuel with
  | O => None
  | S fuel' =>
      if negb (m p =? 0) && negb (isspace (m p)) then
        if cmd_len <=? MAX_NAME_LEN then copy_command fuel' (bstore m (command + cmd_len) (m p)) (p + 1) command (cmd_len + 1)
        else copy_command fuel' m (p + 1) command cmd_len
      else Some (m, p, cmd_len)
  end.

(** At most [n] arguments: the memory and the pointers stored in [argv]. *)
Fixpoint take_args (n fuel : nat) (m : bmem) (p : Z) : option (bmem * list Z) :=
  match n with
  | O => Some (m, [])
  | S n' =>
      if m p =? 0 then Some (m, []) else
      start ← skip_spaces fuel m p;
      if m start =? 0 then Some (m, []) else
      e ← skip_word fuel m start;
      let '(m, next) := if negb (m e =? 0) then (bstore m e 0, e + 1) else (m, e) in
      r ← take_args n' fuel m next;
      Some (r.1, start :: r.2)
  end.

(** The pointers in [argv]; [*argc_ptr] is their number. *)
Definition parse_input (fuel : nat) (m : bmem) (buffer command : Z) : option (bmem * list Z) :=
  p ← skip_spaces fuel m buffer;
  r ← copy_command fuel m p command 0;
  let '(m, p, cmd_len) := r in
  let m := bstore m (command + cmd_len) 0 in
  let '(m, p) := if negb (m p =? 0) then (bstore m p 0, p + 1) else (m, p) in
  take_args MAX_ARGS fuel m p.

(** The words of a text: what stands between blanks. *)
Fixpoint words_from (w s : list Z) : list (list Z) :=
  match s with
  | [] => if decide (w = []) then [] else [w]
  | c :: s' =>
      if isspace c then (if decide (w = []) then words_from [] s' else w :: words_from [] s')
      else words_from (w ++ [c]) s'
  end.
Definition words (s : list Z) : list (list Z) := words_from [] s.

Definition blank (s : list Z) : Prop := Forall (λ c, isspace c = true) s.
Definition solid (s : list Z) : Prop := Forall (λ c, isspace c = false) s.
(** The end of a text, or a blank. *)
Definition boundary (s : list Z) : Prop := s = [] ∨ ∃ c s', s = c :: s' ∧ isspace c = true.

Lemma split_blanks s : ∃ sp r, s = sp ++ r ∧ blank sp ∧ (r = [] ∨ ∃ c r', r = c :: r' ∧ isspace c = false).
Proof.
  induction s as [|c s (sp & r & -> & Hsp & Hr)]; [exists [], []; split; [done|]; split; [constructor|by left]|].
  destruct (isspace c) eqn:Hc.
  - exists (c :: sp), r. split; [done|]. split; [by constructor|done].
  - exists [], (c :: sp ++ r). split; [done|]. split; [constructor|]. right. eauto.
Qed.

Lemma split_word s : ∃ w r, s = w ++ r ∧ solid w ∧ boundary r.
Proof.
  induction s as [|c s (w & r & -> & Hw & Hr)]; [exists [], []; split; [done|]; split; [constructor|by left]|].
  destruct (isspace c) eqn:Hc.
  - exists [], (c :: w ++ r). split; [done|]. split; [constructor|]. right. eauto.
  - exists (c :: w), r. split; [done|]. split; [by constructor|done].
Qed.

Lemma words_blank sp r : blank sp → words (sp ++ r) = words r.
Proof. unfold words. induction 1 as [|c sp Hc _ IH]; [done|]. simpl. by rewrite Hc. Qed.

Lemma words_from_word w0 w r : solid w → boundary r → w0 ++ w ≠ [] → words_from w0 (w ++ r) = (w0 ++ w) :: words (tail r).
Proof.
  intros Hw Hr. revert w0. induction Hw as [|c w Hc _ IH]; intros w0 Hne; simpl.
  - rewrite app_nil_r in Hne |- *. destruct Hr as [->|(c & r' & -> & Hc)]; simpl; [by rewrite decide_False|].
    by rewrite Hc, decide_False.
  - rewrite Hc, IH, <- app_assoc; [done|]. by destruct w0.
Qed.

Lemma words_word w r : solid w → boundary r → w ≠ [] → words (w ++ r) = w :: words (tail r).
Proof. apply (words_from_word []). Qed.

Lemma skip_spaces_ok fuel m p sp r :
  cstr m p (sp ++ r) → blank sp → (r = [] ∨ ∃ c r', r = c :: r' ∧ isspace c = false) → (length sp < fuel)%nat →
  skip_spaces fuel m p = Some (p + Z.of_nat (length sp)).
Proof.
  intros Hs Hsp Hr. revert p fuel Hs. induction Hsp as [|c sp Hc _ IH]; intros p [|fuel] Hs Hf; simpl in Hf; try lia; cbn [skip_spaces].
  - rewrite Z.add_0_r. destruct Hr as [->|(c & r' & -> & Hc)]; cbn [app] in Hs.
    + apply cstr_nil in Hs. by rewrite Hs.
    + apply cstr_cons in Hs as (-> & _). by rewrite Hc, andb_false_r.
  - cbn [app] in Hs. apply cstr_cons in Hs as (Hm & Hrange & Hs). rewrite Hm, Hc. destruct (Z.eqb_spec c 0); [lia|]. cbn [negb andb].
    rewrite (IH (p + 1)) by (done || lia). cbn [length]. f_equal. lia.
Qed.

Lemma skip_word_ok fuel m p w r :
  cstr m p (w ++ r) → solid w → boundary r → (length w < fuel)%nat → skip_word fuel m p = Some (p + Z.of_nat (length w)).
Proof.
  intros Hs Hw Hr. revert p fuel Hs. induction Hw as [|c w Hc _ IH]; intros p [|fuel] Hs Hf; simpl in Hf; try lia; cbn [skip_word].
  - rewrite Z.add_0_r. destruct Hr as [->|(c & r' & -> & Hc)]; cbn [app] in Hs.
    + apply cstr_nil in Hs. by rewrite Hs.
    + apply cstr_cons in Hs as (-> & _). by rewrite Hc, andb_false_r.
  - cbn [app] in Hs. apply cstr_cons in Hs as (Hm & Hrange & Hs). rewrite Hm, Hc. destruct (Z.eqb_spec c 0); [lia|]. cbn [negb andb].
    rewrite (IH (p + 1)) by (done || lia). cbn [length]. f_equal. lia.
Qed.

(** What is changed behind a string leaves it as it is. *)
Lemma cstr_behind m m' p w q (n : nat) :
  same_outside m m' q (Z.of_nat n) → p + Z.of_nat (length w) < q ∨ n = 0%nat → cstr m p w → cstr m' p w.
Proof.
  intros Ho [Hq| ->] Hs; [eapply cstr_outside; [exact Ho|lia|done]|]. destruct Hs as [Hb Hok]. split; [|done].
  eapply bytes_at_ext; [|exact Hb]. intros x _. apply Ho. lia.
Qed.

(** Behind a word: a NUL is written over the blank that ends it, if one does. *)
Lemma end_word_ok m p w r :
  cstr m p (w ++ r) → boundary r →
  let e := p + Z.of_nat (length w) in
  ∃ m' next, (if negb (m e =? 0) then (bstore m e 0, e + 1) else (m, e)) = (m', next) ∧
    cstr m' p w ∧ cstr m' next (tail r) ∧ same_outside m m' e (Z.of_nat (length r)) ∧
    (e < next ∨ next = e ∧ r = []) ∧ next + Z.of_nat (length (tail r)) = e + Z.of_nat (length r).
Proof.
  intros Hs Hr e. pose proof Hs as Hs'. apply cstr_app in Hs' as (_ & _ & Htl). fold e in Htl.
  destruct Hr as [->|(c & r' & -> & Hc)].
  - apply cstr_nil in Htl as H0. rewrite H0. cbn [Z.eqb negb]. exists m, e. rewrite app_nil_r in Hs. simpl. split_and!; try done; auto.
  - apply cstr_cons in Htl as (Hm & Hrange & Htl). rewrite Hm. destruct (Z.eqb_spec c 0); [lia|]. cbn [negb tail length].
    eexists _, _. split; [done|]. assert (Ho : same_outside m (bstore m e 0) e 1) by (apply bstore_same_outside; lia).
    split; [by eapply cstr_cut|]. split; [eapply cstr_outside; [exact Ho|lia|done]|]. split; [|lia].
    intros x Hx. apply Ho. lia.
Qed.

Lemma take_args_ok n fuel m p s :
  cstr m p s → (length s < fuel)%nat →
  ∃ m' argv, take_args n fuel m p = Some (m', argv) ∧ Forall2 (λ a w, cstr m' a w) argv (take n (words s)) ∧
    same_outside m m' p (Z.of_nat (length s)).
Proof.
  revert m p s. induction n as [|n IH]; intros m p s Hs Hf; cbn [take_args].
  { exists m, []. split; [done|]. split; [|done]. constructor. }
  destruct (Z.eqb_spec (m p) 0) as [H0|H0].
  { destruct s as [|c s]; [exists m, []; split; [done|]; split; [constructor|done]|]. apply cstr_cons in Hs as (? & ? & _). lia. }
  destruct (split_blanks s) as (sp & r & -> & Hsp & Hr). rewrite length_app in Hf.
  rewrite (skip_spaces_ok fuel m p sp r) by (done || lia). cbn [mbind option_bind].
  pose proof Hs as Hr'. apply cstr_app in Hr' as (_ & _ & Hr'). rewrite words_blank by done. set (start := p + Z.of_nat (length sp)) in *.
  destruct Hr as [->|(c & r' & E & Hc)].
  { apply cstr_nil in Hr' as ->. cbn [Z.eqb]. exists m, []. split; [done|]. split; [constructor|done]. }
  assert (m start ≠ 0) by (rewrite E in Hr'; apply cstr_cons in Hr' as (-> & ? & _); lia).
  destruct (Z.eqb_spec (m start) 0); [done|]. destruct (split_word r) as (w & tl & Hrw & Hw & Htl).
  assert (Hne : w ≠ []).
  { intros ->. cbn [app] in Hrw. subst tl. destruct Htl as [->|(c' & ? & E' & Hc')]; congruence. }
  clear E c r' Hc. subst r. rewrite length_app in Hf. rewrite (skip_word_ok fuel m start w tl) by (done || lia). cbn [mbind option_bind].
  destruct (end_word_ok m start w tl Hr' Htl) as (m1 & next & -> & Hw1 & Hn1 & Ho1 & Hle & Hlen).
  destruct (IH m1 next (tail tl) Hn1) as (m2 & argv & He2 & Hargs & Ho2); [destruct tl; simpl in *; lia|].
  rewrite He2. cbn [mbind option_bind fst snd]. exists m2, (start :: argv). split; [done|].
  rewrite words_word by done. cbn [take]. rewrite !length_app. split.
  - constructor; [|done]. eapply cstr_behind; [exact Ho2| |done]. destruct Hle as [?|[_ ->]]; [left; lia|by right].
  - intros x Hx. rewrite Ho2 by (unfold start in *; lia). apply Ho1. unfold start. lia.
Qed.

Lemma copy_command_ok fuel m p command k w r :
  cstr m p (w ++ r) → solid w → boundary r → (length w < fuel)%nat →
  0 ≤ k → k + Z.of_nat (length w) ≤ 16 →
  p + Z.of_nat (length (w ++ r)) < command ∨ command + 16 ≤ p →
  ∃ m', copy_command fuel m p command k = Some (m', p + Z.of_nat (length w), k + Z.of_nat (length w)) ∧
    bytes_at m' (command + k) w ∧ same_outside m m' (command + k) (Z.of_nat (length w)).
Proof.
  intros Hs Hw Hr. revert m p k fuel Hs. induction Hw as [|c w Hc _ IH]; intros m p k [|fuel] Hs Hf Hk Hk16 Hd; simpl in Hf; try lia; cbn [copy_command].
  - rewrite !Z.add_0_r. exists m. split; [|done]. destruct Hr as [->|(c & r' & -> & Hc)]; cbn [app] in Hs.
    + apply cstr_nil in Hs. by rewrite Hs.
    + apply cstr_cons in Hs as (-> & _). by rewrite Hc, andb_false_r.
  - cbn [app length] in *. apply cstr_cons in Hs as (Hm & Hrange & Hs). rewrite Hm, Hc. destruct (Z.eqb_spec c 0); [lia|]. cbn [negb andb].
    unfold MAX_NAME_LEN. destruct (Z.leb_spec k 15); [|lia].
    destruct (IH (bstore m (command + k) c) (p + 1) (k + 1) fuel) as (m' & He & Hb & Ho); [|lia|lia|lia|lia|].
    { eapply cstr_outside; [apply (bstore_same_outside _ _ _ 1); lia| |exact Hs]. lia. }
    exists m'. rewrite He. replace (Z.of_nat (S (length w))) with (Z.of_nat (length w) + 1) by lia.
    split; [do 2 f_equal; [f_equal|]; lia|]. replace (command + (k + 1)) with (command + k + 1) in Hb, Ho by lia. split.
    + eapply bytes_at_store; [done|exact Ho|exact Hb].
    + eapply same_outside_step; [lia|exact Ho].
Qed.

(** parse_input splits the line into its words: the first, of at most 15
    characters, is a string in [command], and the pointers given for [argv] are
    those of strings that are the next eight, or as many as there are; a line
    of blanks has an empty command and no argument. *)
Theorem parse_input_spec fuel m buffer command s :
  cstr m buffer s → (length s < fuel)%nat →
  buffer + Z.of_nat (length s) < command ∨ command + 16 ≤ buffer →
  (length (default [] (head (words s))) ≤ 15)%nat →
  ∃ m' argv, parse_input fuel m buffer command = Some (m', argv) ∧
    cstr m' command (default [] (head (words s))) ∧
    Forall2 (λ a w, cstr m' a w) argv (take MAX_ARGS (tail (words s))).
Proof.
  intros Hs Hf Hd Hlen. unfold parse_input. destruct (split_blanks s) as (sp & r & -> & Hsp & Hr).
  rewrite length_app in Hf, Hd. rewrite words_blank in * by done.
  rewrite (skip_spaces_ok fuel m buffer sp r) by (done || lia). cbn [mbind option_bind].
  apply cstr_app in Hs as (_ & _ & Hs). set (p := buffer + Z.of_nat (length sp)) in *.
  destruct (split_word r) as (w & tl & -> & Hw & Htl). rewrite length_app in Hf, Hd.
  assert (Hwords : default [] (head (words (w ++ tl))) = w ∧ tail (words (w ++ tl)) = words (tail tl)).
  { destruct w as [|c w]; [|by rewrite words_word]. destruct Hr as [E|(c & r' & E & Hc)]; cbn [app] in E |- *; subst tl; [done|].
    destruct Htl as [?|(? & ? & [= <- <-] & Hc')]; congruence. }
  destruct Hwords as [Hh Ht]. rewrite Hh in *. rewrite Ht.
  destruct (copy_command_ok fuel m p command 0 w tl) as (m1 & He & Hb & Ho); [done|done|done|lia|lia|lia|rewrite length_app; lia|].
  rewrite He. cbn [mbind option_bind]. rewrite Z.add_0_r in Hb, Ho. rewrite Z.add_0_l.
  set (m2 := bstore m1 (command + Z.of_nat (length w)) 0).
  assert (Ho2 : same_outside m m2 command 16).
  { intros x Hx. unfold m2, bstore. rewrite decide_False by lia. apply Ho. lia. }
  assert (Hs2 : cstr m2 p (w ++ tl)) by (eapply cstr_outside; [exact Ho2|rewrite length_app; lia|done]).
  assert (Hc2 : cstr m2 command w).
  { split; [|by apply cstr_app in Hs as (_ & ? & _)]. apply bytes_at_app. split; [|split; [|done]].
    - eapply bytes_at_ext; [|exact Hb]. intros x Hx. unfold m2, bstore. rewrite decide_False; [done|lia].
    - unfold m2, bstore. by rewrite decide_True. }
  destruct (end_word_ok m2 p w tl Hs2 Htl) as (m3 & next & -> & _ & Hn3 & Ho3 & Hle & Hnl).
  destruct (take_args_ok MAX_ARGS fuel m3 next (tail tl) Hn3) as (m4 & argv & He4 & Hargs & Ho4); [destruct tl; simpl in *; lia|].
  exists m4, argv. split; [exact He4|]. split; [|done].
  eapply cstr_outside; [exact Ho4|lia|]. eapply cstr_outside; [exact Ho3|lia|done].
Qed.

(** ** Paths *)

Section Paths.
(** The addresses of the literals "..", "." and "/". *)
Context (DOTDOT DOT SLASH : Z).

Definition merge_token (fuel : nat) (m : bmem) (cur_path token : Z) : option bmem :=
  c ← strcmp fuel m token DOTDOT;
  if c =? 0 then
    r ← strcmp fuel m cur_path SLASH;
    if negb (r =? 0) then
      last_slash ← strrchr fuel m cur_path 47;
      match last_slash with
      | Some p => if p =? cur_path then Some (bstore m (cur_path + 1) 0) else Some (bstore m p 0)
      | None => Some m
      end
    else Some m
  else
    d ← strcmp fuel m token DOT;
    if d =? 0 then Some m else
    l ← strlen fuel m token;
    if 0 <? l then
      len ← strlen fuel m cur_path;
      m ← (if negb (m (cur_path + len - 1) =? 47) then strcat fuel m cur_path SLASH else Some m);
      strcat fuel m cur_path token
    else Some m.

(** The loop over the slashes of [temp_tar]: the memory and the last token. *)
Fixpoint token_loop (n fuel : nat) (m : bmem) (cur_path token : Z) : option (bmem * Z) :=
  match n with
  | O => None
  | S n' =>
      next_slash ← strchr fuel m token 47;
      match next_slash with
      | None => Some (m, token)
      | Some p =>
          m ← merge_token fuel (bstore m p 0) cur_path token;
          token_loop n' fuel m cur_path (p + 1)
      end
  end.

(** [temp_tar]: the address of the local array. *)
Definition merge_path (fuel : nat) (m : bmem) (cur_path tar temp_tar : Z) : option bmem :=
  if tar =? 0 then Some m else
  l ← strlen fuel m tar;
  if l =? 0 then Some m else
  if m tar =? 47 then
    let m := strncpy m cur_path tar (MAX_PATH_LEN - 1) in
    Some (bstore m (cur_path + Z.of_nat (MAX_PATH_LEN - 1)) 0)
  else
    let m := strncpy m temp_tar tar (MAX_PATH_LEN - 1) in
    r ← token_loop fuel fuel m cur_path temp_tar;
    let '(m, token) := r in
    m ← (if negb (m token =? 0) then merge_token fuel m cur_path token else Some m);
    final_len ← strlen fuel m cur_path;
    if (1 <? final_len) && (m (cur_path + final_len - 1) =? 47)
    then Some (bstore m (cur_path + final_len - 1) 0)
    else Some m.

(** *** Paths as lists of names *)

Definition dotdot : list Z := [46; 46].
Definition dot : list Z := [46].

(** A name in a path, and the text of the path. *)
Definition name_ok (n : list Z) : Prop := n ≠ [] ∧ string_ok n ∧ 47 ∉ n.
Definition path_text (p : list (list Z)) : list Z :=
  match p with [] => [47] | _ => concat ((λ n, 47 :: n) <$> p) end.

(** The parts of a text between slashes. *)
Fixpoint parts (s : list Z) : list (list Z) :=
  match s with
  | [] => [[]]
  | c :: s' => if c =? 47 then [] :: parts s'
               else match parts s' with [] => [[c]] | t :: ts => (c :: t) :: ts end
  end.

(** Going from a directory to the part of a relative path. *)
Definition go (p : list (list Z)) (t : list Z) : list (list Z) :=
  if decide (t = dotdot) then removelast p
  else if decide (t = dot ∨ t = []) then p
  else p ++ [t].

(** The three literals are there, outside the [n] bytes at [q]. *)
Record literals (m : bmem) : Prop := {
  lit_dotdot : cstr m DOTDOT dotdot;
  lit_dot : cstr m DOT dot;
  lit_slash : cstr m SLASH [47]
}.
Definition away (q n : Z) : Prop :=
  (DOTDOT + 2 < q ∨ q + n ≤ DOTDOT) ∧ (DOT + 1 < q ∨ q + n ≤ DOT) ∧ (SLASH + 1 < q ∨ q + n ≤ SLASH).

Lemma literals_outside m m' q n : same_outside m m' q n → away q n → literals m → literals m'.
Proof.
  intros Ho (H1 & H2 & H3) [L1 L2 L3]. split; (eapply cstr_outside; [exact Ho| |done]; simpl; lia).
Qed.

Lemma path_text_names p : p ≠ [] → path_text p = concat ((λ n, 47 :: n) <$> p).
Proof. by destruct p. Qed.

Lemma path_text_app p n : p ≠ [] → path_text (p ++ [n]) = path_text p ++ 47 :: n.
Proof.
  intros Hp. rewrite !path_text_names by (done || by destruct p). rewrite fmap_app, concat_app. simpl. by rewrite app_nil_r.
Qed.

Lemma path_text_last p n : path_text (p ++ [n]) = (if decide (p = []) then [] else path_text p) ++ 47 :: n.
Proof. case_decide as H; [subst p; simpl; by rewrite app_nil_r|by apply path_text_app]. Qed.

Lemma path_text_ok p : Forall name_ok p → string_ok (path_text p).
Proof.
  intros Hp. destruct p as [|x p]; [repeat constructor; lia|]. unfold path_text. apply Forall_concat, Forall_fmap.
  eapply Forall_impl; [exact Hp|]. intros n (_ & Hn & _). constructor; [lia|done].
Qed.

Lemma path_text_pos p : Forall name_ok p → (1 ≤ length (path_text p))%nat.
Proof. intros Hp. destruct p; simpl; lia. Qed.

(** Only the root ends in a slash, and it is the only path that is one. *)
Lemma path_text_end p : Forall name_ok p → ∃ s c, path_text p = s ++ [c] ∧ (c = 47 ↔ p = []).
Proof.
  intros Hp. destruct p as [|n p _] using rev_ind; [by exists [], 47|].
  apply Forall_app in Hp as [_ Hn]. apply Forall_cons_1 in Hn as [(Hne & _ & H47) _].
  destruct n as [|c n _] using rev_ind; [done|]. rewrite path_text_last. eexists _, c. split.
  - rewrite app_comm_cons, app_assoc. done.
  - split; [intros ->; set_solver|by destruct p].
Qed.

Lemma path_text_root p : Forall name_ok p → path_text p = [47] ↔ p = [].
Proof.
  intros Hp. split; [|by intros ->]. destruct (path_text_end p Hp) as (s & c & -> & Hc). intros E.
  apply Hc. by apply (app_inj_tail s []) in E as [_ ->].
Qed.

Lemma removelast_app1 {A} (p : list A) n : removelast (p ++ [n]) = p.
Proof. apply removelast_last. Qed.

Lemma go_ok p t : Forall name_ok p → string_ok t → 47 ∉ t → Forall name_ok (go p t).
Proof.
  intros Hp Ht H47. unfold go. repeat case_decide; [|done|].
  - destruct p as [|n p _] using rev_ind; [done|]. rewrite removelast_last. by apply Forall_app in Hp as [Hp _].
  - apply Forall_app. split; [done|]. constructor; [|constructor]. split; [naive_solver|done].
Qed.

(** What a token adds to the text. *)
Lemma go_length p t : Forall name_ok p → (length (path_text (go p t)) ≤ length (path_text p) + S (length t))%nat.
Proof.
  intros Hp. unfold go. repeat case_decide; [|lia|].
  - destruct p as [|n p _] using rev_ind; [simpl; lia|]. rewrite removelast_last, path_text_last.
    case_decide as E; [subst p; simpl; lia|rewrite !length_app; simpl; lia].
  - rewrite path_text_last. rewrite length_app. case_decide; simpl; lia.
Qed.

(** *** The code goes where the names go *)

Section Run.
(** The arrays [cur_path] and [temp_tar] of 80 bytes, and fuel for any text in
    them. *)
Context (fuel : nat) (cur tmp : Z).
Context (Hfuel : (200 ≤ fuel)%nat) (Haway : away cur 80) (Haway' : away tmp 80) (Hapart : cur + 80 ≤ tmp ∨ tmp + 80 ≤ cur).

Lemma str_eqb s1 s2 : string_ok s1 → string_ok s2 → (str_diff s1 s2 =? 0) = bool_decide (s1 = s2).
Proof.
  intros H1 H2. pose proof (str_diff_0 s1 s2 H1 H2) as H. case_bool_decide as E.
  - apply Z.eqb_eq. by apply H.
  - apply Z.eqb_neq. by rewrite H.
Qed.

Lemma merge_token_ok m token p t :
  literals m → cstr m cur (path_text p) → Forall name_ok p → cstr m token t → 47 ∉ t →
  (token + Z.of_nat (length t) < cur ∨ cur + 80 ≤ token) →
  (length (path_text p) + S (length t) < 80)%nat →
  ∃ m', merge_token fuel m cur token = Some m' ∧ cstr m' cur (path_text (go p t)) ∧ same_outside m m' cur 80.
Proof.
  intros HL Hcur Hp Ht H47 Hd Hlen. pose proof (proj2 Ht) as Hok. pose proof (path_text_ok p Hp) as Hpok.
  unfold merge_token, go. rewrite (strcmp_run m token DOTDOT t dotdot) by (apply HL || done || lia). cbn [mbind option_bind].
  rewrite str_eqb by (done || (repeat constructor; lia)). case_bool_decide as E1.
  - rewrite decide_True by done. rewrite (strcmp_run m cur SLASH (path_text p) [47]) by (apply HL || done || lia).
    cbn [mbind option_bind]. rewrite str_eqb by (done || (repeat constructor; lia)). case_bool_decide as E2; cbn [negb].
    + apply path_text_root in E2; [|done]. subst p. by exists m.
    + destruct p as [|n p _] using rev_ind; [done|]. apply Forall_app in Hp as [Hp Hn]. apply Forall_cons_1 in Hn as [(_ & _ & Hn) _].
      rewrite removelast_last. rewrite path_text_last in *.
      rewrite (strrchr_last m cur _ n 47 fuel) by (done || lia). cbn [mbind option_bind].
      destruct (decide (p = [])) as [->|Hne]; cbv iota in *.
      * cbn [length]. rewrite Z.add_0_r, Z.eqb_refl. eexists. split; [done|]. split.
        -- apply (cstr_cut m cur [47] n). exact Hcur.
        -- intros x Hx. unfold bstore. rewrite decide_False; [done|lia].
      * pose proof (path_text_pos p Hp). destruct (Z.eqb_spec (cur + Z.of_nat (length (path_text p))) cur); [lia|].
        eexists. split; [done|]. rewrite length_app in Hlen. split.
        -- by eapply cstr_cut.
        -- intros x Hx. unfold bstore. rewrite decide_False; [done|lia].
  - rewrite (decide_False (P := t = dotdot)) by done.
    rewrite (strcmp_run m token DOT t dot) by (apply HL || done || lia). cbn [mbind option_bind].
    rewrite str_eqb by (done || (repeat constructor; lia)). case_bool_decide as E2; [rewrite decide_True by auto; by exists m|].
    rewrite (strlen_ok m token t) by (done || lia). cbn [mbind option_bind]. destruct t as [|c t'] eqn:Et; [by exists m|]. rewrite <- Et in *.
    destruct (Z.ltb_spec 0 (Z.of_nat (length t))) as [_|H]; [|rewrite Et in H; simpl in H; lia].
    rewrite (decide_False (P := t = dot ∨ t = [])) by naive_solver.
    rewrite (strlen_ok m cur (path_text p)) by (done || lia). cbn [mbind option_bind].
    destruct (path_text_end p Hp) as (s & e & Hpe & He).
    assert (Hend : m (cur + Z.of_nat (length (path_text p)) - 1) = e).
    { rewrite Hpe in Hcur |- *. apply cstr_app in Hcur as (_ & _ & Hc). apply cstr_cons in Hc as (<- & _).
      rewrite length_app. simpl. f_equal. lia. }
    rewrite Hend. destruct (Z.eqb_spec e 47) as [E|E]; cbn [negb].
    + apply He in E. subst p. cbn [mbind option_bind].
      destruct (strcat_spec m cur token [47] t fuel) as (m' & Hm' & Hc & _ & Ho); [done|done|simpl; lia|lia|simpl; lia|].
      exists m'. split; [exact Hm'|]. split; [simpl; by rewrite app_nil_r|].
      intros x Hx. apply Ho. simpl in Hlen |- *. lia.
    + assert (Hne : p ≠ []) by naive_solver. pose proof (path_text_pos p Hp).
      destruct (strcat_spec m cur SLASH (path_text p) [47] fuel) as (m1 & Hm1 & Hc1 & _ & Ho1);
        [done|apply HL|lia|simpl; lia|destruct Haway as (_ & _ & ?); simpl; lia|].
      rewrite Hm1. cbn [mbind option_bind].
      destruct (strcat_spec m1 cur token (path_text p ++ [47]) t fuel) as (m2 & Hm2 & Hc2 & _ & Ho2);
        [done| |rewrite length_app; simpl; lia|lia|rewrite length_app; simpl; lia|].
      { eapply cstr_outside; [exact Ho1| |done]. simpl. lia. }
      exists m2. split; [exact Hm2|]. split; [by rewrite path_text_app, <- app_assoc in *|].
      intros x Hx. rewrite Ho2 by (rewrite length_app; simpl; lia). apply Ho1. simpl. lia.
Qed.

Lemma first_slash s : 47 ∉ s ∨ ∃ s1 s2, s = s1 ++ 47 :: s2 ∧ 47 ∉ s1.
Proof.
  induction s as [|c s IH]; [left; set_solver|]. destruct (decide (c = 47)) as [->|Hc].
  - right. exists [], s. split; [done|set_solver].
  - destruct IH as [IH|(s1 & s2 & -> & H1)]; [left; set_solver|]. right. exists (c :: s1), s2. split; [done|set_solver].
Qed.

Lemma parts_none s : 47 ∉ s → parts s = [s].
Proof.
  induction s as [|c s IH]; intros Hs; [done|]. apply not_elem_of_cons in Hs as [Hc Hs]. simpl.
  destruct (Z.eqb_spec c 47); [congruence|]. by rewrite IH.
Qed.

Lemma parts_slash s1 s2 : 47 ∉ s1 → parts (s1 ++ 47 :: s2) = s1 :: parts s2.
Proof.
  induction s1 as [|c s1 IH]; intros Hs; [done|]. apply not_elem_of_cons in Hs as [Hc Hs]. simpl.
  destruct (Z.eqb_spec c 47); [congruence|]. by rewrite IH.
Qed.

(** Where the merging has got to: the path, and the text from [token] on. *)
Record merging (m0 m : bmem) (p : list (list Z)) (token : Z) (t : list Z) : Prop := {
  mg_lit : literals m;
  mg_path : cstr m cur (path_text p);
  mg_names : Forall name_ok p;
  mg_token : cstr m token t;
  mg_place : tmp ≤ token ∧ token + Z.of_nat (length t) < tmp + 80;
  mg_room : (length (path_text p) + S (length t) < 80)%nat;
  mg_else x : ¬ cur ≤ x < cur + 80 → ¬ tmp ≤ x < tmp + 80 → m x = m0 x
}.

Lemma merging_step m0 m p token t1 t2 :
  merging m0 m p token (t1 ++ 47 :: t2) → 47 ∉ t1 →
  ∃ m', merge_token fuel (bstore m (token + Z.of_nat (length t1)) 0) cur token = Some m' ∧
    merging m0 m' (go p t1) (token + Z.of_nat (length t1) + 1) t2.
Proof.
  intros [HL Hc Hp Ht Hpl Hr He] H1. rewrite length_app in Hpl, Hr. cbn [length] in Hpl, Hr.
  set (m1 := bstore m (token + Z.of_nat (length t1)) 0).
  assert (Ho1 : same_outside m m1 (token + Z.of_nat (length t1)) 1) by (apply bstore_same_outside; lia).
  assert (Ht1 : cstr m1 token t1) by (by apply cstr_cut with (47 :: t2)).
  assert (Ht2 : cstr m1 (token + Z.of_nat (length t1) + 1) t2).
  { apply cstr_app in Ht as (_ & _ & Ht). apply cstr_cons in Ht as (_ & _ & Ht).
    eapply cstr_outside; [exact Ho1|lia|done]. }
  assert (HL1 : literals m1).
  { eapply literals_outside; [exact Ho1| |done]. destruct Haway' as (? & ? & ?). unfold away. lia. }
  assert (Hc1 : cstr m1 cur (path_text p)) by (eapply cstr_outside; [exact Ho1|lia|done]).
  destruct (merge_token_ok m1 token p t1 HL1 Hc1 Hp Ht1 H1) as (m2 & Hm2 & Hc2 & Ho2); [lia|lia|].
  exists m2. split; [exact Hm2|]. split.
  - by eapply literals_outside.
  - done.
  - apply go_ok; [done|apply Ht1|done].
  - eapply cstr_outside; [exact Ho2|lia|done].
  - lia.
  - pose proof (go_length p t1 Hp). lia.
  - intros x Hx1 Hx2. rewrite Ho2 by lia. rewrite Ho1 by lia. by apply He.
Qed.

Lemma token_loop_ok n m0 m p token t :
  merging m0 m p token t → (length t < n)%nat →
  ∃ m' token' p' t', token_loop n fuel m cur token = Some (m', token') ∧ merging m0 m' p' token' t' ∧ 47 ∉ t' ∧
    foldl go p (parts t) = go p' t'.
Proof.
  revert m p token t. induction n as [|n IH]; intros m p token t HM Hn; [lia|]. cbn [token_loop].
  pose proof (mg_room _ _ _ _ _ HM) as Hr. destruct (first_slash t) as [Ht|(t1 & t2 & -> & Ht1)].
  - rewrite (strchr_none m token t 47 fuel) by (apply HM || done || lia). cbn [mbind option_bind].
    exists m, token, p, t. rewrite parts_none by done. done.
  - rewrite length_app in Hr, Hn. simpl in Hr, Hn.
    rewrite (strchr_first m token t1 t2 47 fuel) by (apply HM || done || lia). cbn [mbind option_bind].
    destruct (merging_step m0 m p token t1 t2 HM Ht1) as (m1 & Hm1 & HM1). rewrite Hm1. cbn [mbind option_bind].
    rewrite parts_slash by done. apply IH; [done|lia].
Qed.
End Run.

(** C40: merge_path follows a relative path: when the array holds the text of the
    path [p], and the new text and its parts fit into 80 characters, it ends and
    leaves the text of the path that the names and dots of [tar] lead to from
    [p]; no memory but the two arrays is written. *)
Theorem merge_path_spec fuel m p cur tar tmp t :
  (200 ≤ fuel)%nat → literals m → away cur 80 → away tmp 80 → cur + 80 ≤ tmp ∨ tmp + 80 ≤ cur →
  cstr m cur (path_text p) → Forall name_ok p →
  tar ≠ 0 → cstr m tar t → tar + Z.of_nat (length t) < tmp ∨ tmp + 80 ≤ tar →
  head t ≠ Some 47 → (length (path_text p) + S (length t) < 80)%nat →
  ∃ m', merge_path fuel m cur tar tmp = Some m' ∧
    cstr m' cur (path_text (foldl go p (parts t))) ∧
    (∀ x, ¬ cur ≤ x < cur + 80 → ¬ tmp ≤ x < tmp + 80 → m' x = m x).
Proof.
  intros Hfuel HL Ha Ha' Hd Hc Hp H0 Ht Hdt Hrel Hr. unfold merge_path. destruct (Z.eqb_spec tar 0); [done|].
  rewrite (strlen_ok m tar t) by (done || lia). cbn [mbind option_bind].
  destruct t as [|c t'] eqn:Et; [by exists m|]. rewrite <- Et in *.
  destruct (Z.eqb_spec (Z.of_nat (length t)) 0) as [E|_]; [rewrite Et in E; simpl in E; lia|].
  assert (Hh : m tar = c ∧ c ≠ 47).
  { rewrite Et in Ht, Hrel. apply cstr_cons in Ht as (? & _). split; [done|]. simpl in Hrel. congruence. }
  destruct Hh as [-> Hc47]. destruct (Z.eqb_spec c 47); [done|]. cbv zeta.
  assert (Hpl : (1 ≤ length (path_text p))%nat) by by apply path_text_pos.
  destruct (strncpy_ok m tmp tar t (MAX_PATH_LEN - 1) Ht) as [Htmp Ho]; [unfold MAX_PATH_LEN; lia|unfold MAX_PATH_LEN; lia|].
  set (m1 := strncpy m tmp tar (MAX_PATH_LEN - 1)) in *. change (Z.of_nat (MAX_PATH_LEN - 1)) with 79 in Ho.
  assert (HM : merging cur tmp m m1 p tmp t).
  { split; [|eapply cstr_outside; [exact Ho|lia|done]|done|done|lia|done|].
    - eapply literals_outside; [exact Ho| |done]. destruct Ha' as (? & ? & ?). unfold away. lia.
    - intros x _ Hx. apply Ho. lia. }
  destruct (token_loop_ok fuel cur tmp Hfuel Ha Ha' Hd fuel m m1 p tmp t HM) as (m2 & tok & p2 & t2 & -> & HM2 & Ht2 & ->); [lia|].
  cbn [mbind option_bind]. cbv beta iota. destruct HM2 as [HL2 Hc2 Hp2 Hk2 Hpl2 Hr2 He2].
  assert (Hlast : ∃ m3, (if negb (m2 tok =? 0) then merge_token fuel m2 cur tok else Some m2) = Some m3 ∧
    cstr m3 cur (path_text (go p2 t2)) ∧ same_outside m2 m3 cur 80).
  { destruct t2 as [|d t2'] eqn:E2.
    - apply cstr_nil in Hk2. rewrite Hk2. exists m2. done.
    - rewrite <- E2 in *. assert (m2 tok ≠ 0) by (rewrite E2 in Hk2; apply cstr_cons in Hk2 as (-> & ? & _); lia).
      destruct (Z.eqb_spec (m2 tok) 0); [done|]. cbn [negb]. by apply (merge_token_ok fuel cur Hfuel Ha); [..|lia|]. }
  destruct Hlast as (m3 & Hm3 & Hc3 & Ho3).  unfold bmem in *.
  rewrite Hm3. cbn [mbind option_bind].
  assert (Hp3 : Forall name_ok (go p2 t2)) by (apply go_ok; [done|apply Hk2|done]).
  pose proof (go_length p2 t2 Hp2) as Hl3. pose proof (path_text_pos _ Hp3).
  rewrite (strlen_ok m3 cur (path_text (go p2 t2))) by (done || lia). cbn [mbind option_bind].
  exists m3. split; [|split; [done|]].
  - destruct (path_text_end _ Hp3) as (s & e & Hpe & He).
    destruct (Z.ltb_spec 1 (Z.of_nat (length (path_text (go p2 t2))))) as [H1|H1]; [|done]. cbn [andb].
    assert (Hend : m3 (cur + Z.of_nat (length (path_text (go p2 t2))) - 1) = e).
    { rewrite Hpe in Hc3 |- *. apply cstr_app in Hc3 as (_ & _ & Hc3). apply cstr_cons in Hc3 as (<- & _).
      rewrite length_app. simpl. f_equal. lia. }
    rewrite Hend. destruct (Z.eqb_spec e 47) as [E|]; [|done]. apply He in E. rewrite E in H1. simpl in H1. lia.
  - intros x Hx1 Hx2. rewrite Ho3 by lia. by apply He2.
Qed.
End Paths.

(** The shell is in "/usr/bin" and is asked for "../lib/./": it then shows "/usr/lib". *)
Definition put_string (p : Z) (s : list Z) (m : bmem) : bmem := λ x,
  if decide (p ≤ x < p + Z.of_nat (length s)) then default 0 (s !! Z.to_nat (x - p)) else m x.
Definition ex_shell : bmem :=
  put_string 10 dotdot (put_string 20 dot (put_string 30 [47]
    (put_string 100 [47; 117; 115; 114; 47; 98; 105; 110] (put_string 50 [46; 46; 47; 108; 105; 98; 47; 46; 47] (λ _, 0))))).

Lemma merge_path_spec_witness :
  ∃ m', merge_path 10 20 30 200 ex_shell 100 50 300 = Some m' ∧ cstr m' 100 [47; 117; 115; 114; 47; 108; 105; 98] ∧ m' 50 = 46.
Proof.
  destruct (merge_path_spec 10 20 30 200 ex_shell [[117; 115; 114]; [98; 105; 110]] 100 50 300 [46; 46; 47; 108; 105; 98; 47; 46; 47])
    as (m' & Hm & Hc & He).
  - lia.
  - split; (split; [by vm_compute|repeat constructor; lia]).
  - unfold away. lia.
  - unfold away. lia.
  - left. lia.
  - split; [by vm_compute|repeat constructor; lia].
  - unfold name_ok, string_ok. apply (bool_decide_unpack _). by vm_compute.
  - lia.
  - split; [by vm_compute|repeat constructor; lia].
  - left. simpl. lia.
  - done.
  - simpl. lia.
  - exists m'. split; [exact Hm|]. split; [exact Hc|]. rewrite He by lia. by vm_compute.
Defined.

(** An absolute path is taken over as it stands, dots and all. *)
Example absolute_path_kept :
  (λ m', (λ i, m' (100 + Z.of_nat i)) <$> seq 0 8) <$>
    merge_path 10 20 30 200 (put_string 50 [47; 97; 47; 46; 46] (λ _, 0)) 100 50 300
  = Some [47; 97; 47; 46; 46; 0; 0; 0].
Proof. by vm_compute. Qed.

(** The line " kill 12 " gives the command "kill" and the argument "12". *)
Definition ex_line : bmem := put_string 100 [32; 107; 105; 108; 108; 32; 49; 50; 32] (λ _, 0).

Lemma parse_input_spec_witness :
  ∃ m' argv, parse_input 20 ex_line 100 200 = Some (m', argv) ∧
    cstr m' 200 [107; 105; 108; 108] ∧ Forall2 (λ a w, cstr m' a w) argv [[49; 50]].
Proof.
  apply (parse_input_spec 20 ex_line 100 200 [32; 107; 105; 108; 108; 32; 49; 50; 32]).
  - split; [by vm_compute|repeat constructor; lia].
  - simpl. lia.
  - left. simpl. lia.
  - vm_compute. lia.
Defined.

(** A command of 16 characters: its NUL is stored behind the array of 16. *)
Example long_command_overruns :
  (λ r, (r.1 215, r.1 216)) <$> parse_input 40 (put_string 100 (replicate 16 97) (λ _, 1)) 100 200 = None ∧
  (λ r, (r.1 215, r.1 216)) <$> parse_input 40 (put_string 100 (replicate 16 97 ++ [0]) (λ _, 1)) 100 200 = Some (97, 0).
Proof. by vm_compute. Qed.

(** The shell does not end the line at the length it is given: of "psx" with
    the last letter deleted again, the command taken is still "psx". *)
Example deleted_letter_stays :
  (λ r, (r.1.1, take 4 r.1.2)) <$> process_input_echo BUF_SIZE [112; 115; 120; 8; 10] (replicate 257 0) 0 [] = Some (2, [112; 115; 120; 0]) ∧
  (λ r, (λ i, r.1 (200 + Z.of_nat i)) <$> seq 0 4) <$> parse_input 20 (put_string 100 [112; 115; 120; 0] (λ _, 0)) 100 200 = Some [112; 115; 120; 0].
Proof. by vm_compute. Qed.
