(* ===== verification/Task.v ===== *)
(** kernel/task/task.c: looking programs up by name, and the batch sequence,
    a line of program names that is kept on the card. Nothing in the kernel
    calls [write_batch] any more, and the call of [is_valid_uva]
    (kernel/irq/page_fault.c) is commented out; both are compiled all the same.

    The table of programs lies in the kernel's byte memory at [tasks]; its
    entries have 48 bytes and start with the name. *)
From S2P Require Import Prelude KMonad Bytes CString Pgtable MM Swap ExecStack Shell.

Definition TASK_INFO_SIZE : Z := 48.
Definition TASK_COUNT : nat := 32.
Definition MAX_BATCH_SEQ_LEN : Z := 512 - 1.
Definition NBYTES2SEC (nbytes : Z) : Z := Z.quot nbytes 512 + (if Z.rem nbytes 512 =? 0 then 0 else 1).

Section Names.
Context (fuel : nat) (tasks : Z).

Definition task_name_at (i : nat) : Z := tasks + Z.of_nat i * TASK_INFO_SIZE.

(** [i] is the next entry, [n] the number of entries left; the result is the
    entry found. *)
Fixpoint get_task_info_from (m : bmem) (name : Z) (i n : nat) : option (option nat) :=
  match n with
  | O => Some None
  | S n =>
      c ← strcmp fuel m (task_name_at i) name;
      if c =? 0 then
        l ← strlen fuel m name;
        if negb (l =? 0) then Some (Some i) else get_task_info_from m name (S i) n
      else get_task_info_from m name (S i) n
  end.
Definition get_task_info (m : bmem) (name : Z) : option (option nat) := get_task_info_from m name 0 TASK_COUNT.

(** An address that the program of the running process, whose name is at
    [name], may use: of its segment or of its stack. *)
Definition word_at (m : bmem) (a : Z) : Z := of_bytes ((λ i, m (a + Z.of_nat i)) <$> seq 0 8).
Definition USER_PAGE_NUM : Z := 4.
Definition is_valid_uva (m : bmem) (name stval : Z) : option Z :=
  let fault_va := ROUNDDOWN stval PAGE_SIZE in
  r ← get_task_info m name;
  match r with
  | None => Some 1
  | Some i =>
      let va_start := word_at m (task_name_at i + 24) in
      let va_end := u64 (va_start + word_at m (task_name_at i + 32)) in
      if (va_start <=? fault_va) && (fault_va <? va_end) then Some 1 else
      let user_stack_base := USER_STACK_ADDR - PAGE_SIZE * USER_PAGE_NUM in
      if (user_stack_base <=? fault_va) && (fault_va <? USER_STACK_ADDR) then Some 1 else Some 0
  end.

(** The loop over the first [tasknum] names in [is_valid_batch]. *)
Fixpoint is_task (m : bmem) (task_name : Z) (i n : nat) : option bool :=
  match n with
  | O => Some false
  | S n =>
      c ← strcmp fuel m task_name (task_name_at i);
      if c =? 0 then Some true else is_task m task_name (S i) n
  end.

Context (tasknum : nat).

(** The scan of the buffer: [inl] is the return in its middle, [inr] gives [p]
    and [task_name] behind the loop. *)
Fixpoint batch_scan (n : nat) (m : bmem) (p task_name : Z) : option (bmem + bmem * Z * Z) :=
  match n with
  | O => None
  | S n =>
      if m p =? 0 then Some (inr (m, p, task_name))
      else if m p =? 32 then
        let m := bstore m p 0 in
        found ← is_task m task_name 0 tasknum;
        if negb found then Some (inl m)
        else batch_scan n (bstore m p 32) (p + 1) (p + 1)
      else batch_scan n m (p + 1) task_name
  end.

Definition is_valid_batch (m : bmem) (buffer : Z) : option (Z * bmem) :=
  r ← batch_scan fuel m buffer buffer;
  match r with
  | inl m => Some (0, m)
  | inr (m, p, task_name) =>
      if negb (task_name =? p) then
        found ← is_task m task_name 0 tasknum;
        Some (if found : bool then 1 else 0, m)
      else Some (1, m)
  end.
End Names.

(** ** Reading and storing a sequence *)

Section Write.
Context {C : Type} `{!BlockDevice 512 C}.

(** The kernel's memory, the card, the keys that will be typed, and what was
    sent to the terminal. *)
Record batch_state := mk_batch { bt_mem : bmem; bt_card : C; bt_keys : list Z; bt_out : list (list Z) }.
Definition bt_upd_mem (m : bmem) (s : batch_state) : batch_state := mk_batch m (bt_card s) (bt_keys s) (bt_out s).
Definition bios_putstr (t : list Z) : M batch_state unit :=
  modify (λ s, mk_batch (bt_mem s) (bt_card s) (bt_keys s) (bt_out s ++ [t])).

(** [bios_getchar]: -1 when no key is there, nothing after the last key. *)
Definition bios_getchar : M batch_state Z := λ s,
  match bt_keys s with
  | [] => Stuck
  | k :: ks => Ok k (mk_batch (bt_mem s) (bt_card s) ks (bt_out s))
  end.

Definition input_step (buffer max_name_len len : Z) : M batch_state (Z + Z) :=
  ch ← bios_getchar;
  if ch =? -1 then mret (inl len)
  else if (ch =? 13) || (ch =? 10) then bios_putstr [10; 13];; mret (inr len)
  else if (ch =? 8) || (ch =? 127) then
    if 0 <? len then bios_putstr [8; 32; 8];; mret (inl (len - 1)) else mret (inl len)
  else
    bios_putstr [u8 ch];;
    if len <? max_name_len then
      modify (λ s, bt_upd_mem (bstore (bt_mem s) (buffer + len) (u8 ch)) s);; mret (inl (len + 1))
    else mret (inl len).

(** Each step takes a key. *)
Definition process_input_echo (buffer max_name_len : Z) : M batch_state Z :=
  s ← get; while_ (S (length (bt_keys s))) (input_step buffer max_name_len) 0.

(** [tasks], [quit_batch] and [buffer] are addresses; the texts printed are
    parameters. *)
Context (fuel : nat) (tasks : Z) (tasknum : nat) (quit_batch buffer batch_offset_img : Z).
Context (t_prompt t_long t_exit t_done t_invalid : list Z).

Definition write_batch_step (_ : unit) : M batch_state (unit + unit) :=
  bios_putstr t_prompt;;
  modify (λ s, bt_upd_mem (memset (bt_mem s) buffer 0 512) s);;
  len ← process_input_echo buffer MAX_BATCH_SEQ_LEN;
  if MAX_BATCH_SEQ_LEN <=? len then bios_putstr t_long;; mret (inl tt) else
  modify (λ s, bt_upd_mem (bstore (bt_mem s) (buffer + len) 0) s);;
  s ← get;
  q ← of_opt (strcmp fuel (bt_mem s) buffer quit_batch);
  if q =? 0 then bios_putstr t_exit;; mret (inr tt) else
  r ← of_opt (is_valid_batch fuel tasks tasknum (bt_mem s) buffer);
  modify (bt_upd_mem r.2);;
  if negb (r.1 =? 0) then
    let start_block := u32 (Z.quot batch_offset_img 512) in
    let num_block := Z.to_nat (NBYTES2SEC (len + 1)) in
    modify (λ s, mk_batch (bt_mem s)
      (sd_write (bt_card s) start_block num_block ((λ i, bt_mem s (buffer + Z.of_nat i)) <$> seq 0 (num_block * 512)))
      (bt_keys s) (bt_out s));;
    bios_putstr t_done;; mret (inr tt)
  else bios_putstr t_invalid;; mret (inl tt).

(** Each round takes at least one key. *)
Definition write_batch : M batch_state unit :=
  s ← get; while_ (S (length (bt_keys s))) write_batch_step tt.
End Write.

(** ** Running a program in the kernel *)

(** Entry points and marks of the programs loaded so far. *)
Definition init_history (h : list (Z * Z)) : list (Z * Z) := (λ _, (0, 0)) <$> h.

Definition exec_app {S : Type} (puts : list Z → M S unit) (call : Z → M S unit) (t_launch t_warning : list (list Z))
    (entry_point is_batch : Z) : M S unit :=
  let print l := for_ 0 (length l) (λ i, t ← of_opt (l !! i); puts t) in
  if negb (entry_point =? 0) then
    (if is_batch =? 0 then print t_launch else mret tt);; call entry_point
  else print t_warning.

(** ** Names *)

Section Lookup.
Context (fuel : nat) (tasks : Z).

(** The names [ns] lie in the table. *)
Definition names_at (m : bmem) (ns : list (list Z)) : Prop :=
  ∀ i s, ns !! i = Some s → cstr m (task_name_at tasks i) s.

Lemma is_task_run m ns w i t :
  (∀ k s, t !! k = Some s → cstr m (task_name_at tasks (i + k)) s) →
  cstr m w ns → (length ns < fuel)%nat →
  is_task fuel tasks m w i (length t) = Some (bool_decide (ns ∈ t)).
Proof.
  intros Ht Hw Hf. revert i Ht. induction t as [|s t IH]; intros i Ht; [done|]. cbn [length is_task].
  assert (cstr m (task_name_at tasks i) s) as Hs by (rewrite <- (Nat.add_0_r i); by apply Ht).
  rewrite (strcmp_run m _ _ ns s) by done. cbn [mbind option_bind].
  pose proof (str_diff_0 ns s (proj2 Hw) (proj2 Hs)) as Hd. destruct (Z.eqb_spec (str_diff ns s) 0) as [E|E].
  - apply Hd in E as ->. rewrite bool_decide_true; [done|by left].
  - rewrite IH; [|by intros k u Hk; rewrite Nat.add_succ_comm; by apply (Ht (S k))].
    f_equal. apply bool_decide_ext. rewrite elem_of_cons. naive_solver.
Qed.

(** get_task_info finds the first program of the name, and none for the empty
    name. *)
Theorem get_task_info_spec m name s ns :
  names_at m ns → length ns = TASK_COUNT → Forall (λ n, (length n < fuel)%nat) ns → cstr m name s → (length s < fuel)%nat →
  get_task_info fuel tasks m name = Some (if decide (s = []) then None else fst <$> list_find (s =.) ns).
Proof.
  intros Hn Hl Hlen Hs Hf. unfold get_task_info. rewrite <- Hl. clear Hl.
  assert (∀ i t, (∀ k u, t !! k = Some u → cstr m (task_name_at tasks (i + k)) u) → Forall (λ n, (length n < fuel)%nat) t →
    get_task_info_from fuel tasks m name i (length t)
    = Some (if decide (s = []) then None else (λ x, (i + x.1)%nat) <$> list_find (s =.) t)) as Hgen.
  { intros i t. revert i. induction t as [|u t IH]; intros i Ht Hlt; [by case_decide|]. cbn [length get_task_info_from].
    apply Forall_cons in Hlt as [Hlu Hlt].
    assert (cstr m (task_name_at tasks i) u) as Hu by (rewrite <- (Nat.add_0_r i); by apply Ht).
    rewrite (strcmp_run m _ _ u s) by done. cbn [mbind option_bind].
    pose proof (str_diff_0 u s (proj2 Hu) (proj2 Hs)) as Hd.
    specialize (IH (S i) ltac:(intros k v Hk; rewrite Nat.add_succ_comm; by apply (Ht (S k))) Hlt).
    destruct (Z.eqb_spec (str_diff u s) 0) as [E|E].
    - apply Hd in E as ->. rewrite (strlen_ok m name s) by done. cbn [mbind option_bind].
      destruct s as [|c s']; [done|]. destruct (Z.eqb_spec (Z.of_nat (length (c :: s'))) 0) as [E|_]; [simpl in E; lia|].
      cbn [negb]. rewrite decide_False by done. cbn [list_find]. rewrite decide_True by done. cbn. by rewrite Nat.add_0_r.
    - rewrite IH. case_decide; [done|]. cbn [list_find]. rewrite decide_False by naive_solver.
      destruct (list_find (s =.) t) as [[k v]|]; [|done]. cbn. do 2 f_equal. lia. }
  rewrite (Hgen 0%nat ns) by done. by destruct (list_find (s =.) ns) as [[k v]|].
Qed.
End Lookup.

(** ** Sequences *)

(** The names of a sequence that are followed by a blank, and what is behind
    the last blank. *)
Fixpoint blank_split (cur s : list Z) : list (list Z) * list Z :=
  match s with
  | [] => ([], cur)
  | c :: s =>
      if c =? 32 then let r := blank_split [] s in (cur :: r.1, r.2)
      else blank_split (cur ++ [c]) s
  end.

(** A valid sequence names programs only; nothing needs to be behind the last
    blank. *)
Definition valid_batch (ns : list (list Z)) (s : list Z) : Prop :=
  let r := blank_split [] s in Forall (λ w, w ∈ ns) r.1 ∧ (r.2 = [] ∨ r.2 ∈ ns).

Section Scan.
Context (fuel : nat) (tasks buffer : Z) (ns : list (list Z)) (m0 : bmem).

Lemma cstr_same m m' p s : (∀ x, m' x = m x) → cstr m p s → cstr m' p s.
Proof. intros Hm [Hb Hok]. split; [|done]. eapply bytes_at_ext; [|exact Hb]. auto. Qed.

(** The table is not in the buffer. *)
Definition table_away (len : Z) : Prop :=
  ∀ i s, ns !! i = Some s → task_name_at tasks i + Z.of_nat (length s) < buffer ∨ buffer + len ≤ task_name_at tasks i.

Lemma is_task_cut m p w s2 len :
  names_at tasks m0 ns → table_away len → (∀ x, m x = m0 x) →
  buffer ≤ p → p + Z.of_nat (length w) < buffer + len → cstr m0 p (w ++ s2) → (length w < fuel)%nat →
  is_task fuel tasks (bstore m (p + Z.of_nat (length w)) 0) p 0 (length ns) = Some (bool_decide (w ∈ ns)).
Proof.
  intros Hn Ha Hm Hp Hlen Hs Hf. apply is_task_run; [|apply (cstr_cut m p w s2)|done].
  - intros i s Hi. rewrite Nat.add_0_l. specialize (Ha i s Hi).
    eapply cstr_outside; [apply (bstore_same_outside _ _ _ 1); lia|lia|]. eapply cstr_same; [|by apply Hn]. done.
  - by eapply cstr_same.
Qed.

Lemma batch_scan_ok len rest n m p cur :
  names_at tasks m0 ns → table_away len → (∀ x, m x = m0 x) → buffer ≤ p → cstr m0 p (cur ++ rest) →
  p + Z.of_nat (length (cur ++ rest)) < buffer + len → (length (cur ++ rest) < fuel)%nat → (length rest < n)%nat →
  ∃ r, batch_scan fuel tasks (length ns) n m (p + Z.of_nat (length cur)) p = Some r ∧
    let q := blank_split cur rest in
    match r with
    | inl _ => ¬ Forall (λ w, w ∈ ns) q.1
    | inr (m', p', w') => Forall (λ w, w ∈ ns) q.1 ∧ (∀ x, m' x = m0 x) ∧ buffer ≤ w' ∧
        p' = w' + Z.of_nat (length q.2) ∧ cstr m0 w' q.2 ∧ (length q.2 < fuel)%nat ∧
        p' = p + Z.of_nat (length (cur ++ rest))
    end.
Proof.
  intros Hn Ha. revert rest m p cur. induction n as [|n IH]; intros rest m p cur Hm Hp Hs Hlen Hf Hr; [lia|]. cbn [batch_scan].
  rewrite Hm. destruct rest as [|c rest].
  - rewrite app_nil_r in *. destruct (proj1 (cstr_app _ _ cur []) ltac:(by rewrite app_nil_r)) as (_ & _ & H0).
    apply cstr_nil in H0. rewrite H0. cbn [Z.eqb blank_split]. eexists. split; [done|]. cbn. split; [constructor|done].
  - apply cstr_app in Hs as Hc. destruct Hc as (_ & _ & (Hc & Hrange & Hrest)%cstr_cons). rewrite Hc.
    rewrite length_app in Hlen, Hf. cbn [length] in Hlen, Hf, Hr. destruct (Z.eqb_spec c 0); [lia|]. cbn [blank_split].
    destruct (Z.eqb_spec c 32) as [->|Hne].
    + rewrite (is_task_cut m p cur (32 :: rest) len) by (done || lia). cbn [mbind option_bind].
      case_bool_decide as Hin; cbn [negb]; [|eexists; split; [done|]; cbn; rewrite Forall_cons; tauto].
      destruct (IH rest (bstore (bstore m (p + Z.of_nat (length cur)) 0) (p + Z.of_nat (length cur)) 32)
        (p + Z.of_nat (length cur) + 1) []) as (r & Hscan & Hq); [|lia|done|cbn [app]; lia|cbn [app]; lia|lia|].
      { intros x. unfold bstore. repeat case_decide; [by subst x|apply Hm]. }
      rewrite Z.add_0_r in Hscan. exists r. split; [exact Hscan|]. cbn zeta in Hq |- *. destruct r as [m'|[[m' p'] w']]; cbn [fst snd].
      * rewrite Forall_cons. tauto.
      * destruct Hq as (H1 & H2 & H3 & H4 & H5 & H6 & H7). split; [by constructor|]. do 5 (split; [done|]).
        rewrite length_app. cbn [length app] in H7 |- *. lia.
    + replace (p + Z.of_nat (length cur) + 1) with (p + Z.of_nat (length (cur ++ [c]))) by (rewrite length_app; simpl; lia).
      destruct (IH rest m p (cur ++ [c])) as (r & Hscan & Hq); try (rewrite <- app_assoc; cbn [app]); try done; try lia.
      * rewrite length_app. cbn [length]. lia.
      * rewrite length_app. cbn [length]. lia.
      * exists r. split; [exact Hscan|]. cbn zeta in Hq |- *. by rewrite <- app_assoc in Hq.
Qed.

(** is_valid_batch accepts exactly the sequences of names of programs, and an
    accepted sequence is in the buffer as it was. *)
Theorem is_valid_batch_spec s :
  names_at tasks m0 ns → table_away (Z.of_nat (length s) + 1) → cstr m0 buffer s → (length s < fuel)%nat →
  ∃ r m', is_valid_batch fuel tasks (length ns) m0 buffer = Some (r, m') ∧
    (r = 0 ∨ r = 1) ∧ (r = 1 ↔ valid_batch ns s) ∧ (r = 1 → ∀ x, m' x = m0 x).
Proof.
  intros Hn Ha Hs Hf. unfold is_valid_batch, valid_batch.
  destruct (batch_scan_ok (Z.of_nat (length s) + 1) s fuel m0 buffer []) as (r & Hscan & Hq); try done; try (cbn [app]; lia).
  rewrite Z.add_0_r in Hscan. rewrite Hscan. cbn [mbind option_bind]. cbn zeta in Hq |- *.
  set (q := blank_split [] s) in *. destruct r as [m'|[[m' p'] w']].
  - exists 0, m'. split; [done|]. split; [by left|]. split; [|lia]. split; [lia|tauto].
  - destruct Hq as (H1 & H2 & H3 & H4 & H5 & H6 & H7). cbn [app] in H7. destruct (Z.eqb_spec w' p') as [E|E]; cbn [negb].
    + exists 1, m'. split; [done|]. split; [by right|]. split; [|done]. split; [|done]. intros _. split; [done|].
      left. apply length_zero_iff_nil. lia.
    + rewrite (is_task_run fuel tasks m' q.2 w' 0 ns); [|by intros k u Hk; eapply cstr_same, Hn|by eapply cstr_same|done].
      cbn [mbind option_bind]. eexists _, m'. split; [done|]. case_bool_decide as Hin.
      * split; [by right|]. split; [|done]. split; [|done]. intros _. split; [done|by right].
      * split; [by left|]. split; [|lia]. split; [lia|]. intros [_ [E2|E2]]; [|done].
        rewrite E2 in H4. simpl in H4. lia.
Qed.
End Scan.

(** ** An example: the programs a and b *)

Definition ex_tasks : bmem := λ a,
  if a =? 1000 then 97 else if a =? 1048 then 98 else if a =? 3000 then 98 else
  if a =? 3001 then 32 else if a =? 3002 then 97 else 0.
Definition ex_names : list (list Z) := [97] :: [98] :: replicate 30 [].

Lemma ex_names_at : names_at 1000 ex_tasks ex_names.
Proof.
  intros i s Hi. assert (Forall (λ i, cstr ex_tasks (task_name_at 1000 i) (ex_names !!! i)) (seq 0 32)) as H.
  { repeat constructor; vm_compute; try done; repeat constructor. }
  rewrite Forall_forall in H. rewrite <- (list_lookup_total_correct _ _ _ Hi). apply H, elem_of_seq.
  apply lookup_lt_Some in Hi. simpl in Hi. lia.
Qed.

Lemma get_task_info_spec_witness : get_task_info 5 1000 ex_tasks 3002 = Some (Some 0%nat).
Proof.
  rewrite (get_task_info_spec 5 1000 ex_tasks 3002 [97] ex_names ex_names_at); [done|done| | |simpl; lia].
  - apply (bool_decide_unpack _). by vm_compute.
  - split; [done|]. repeat constructor; lia.
Defined.

Lemma is_valid_batch_spec_witness :
  ∃ r m', is_valid_batch 5 1000 32 ex_tasks 3000 = Some (r, m') ∧ (r = 1 ↔ valid_batch ex_names [98; 32; 97]).
Proof.
  destruct (is_valid_batch_spec 5 1000 3000 ex_names ex_tasks [98; 32; 97] ex_names_at) as (r & m' & H & _ & Hr & _).
  - intros i s Hi. left. apply lookup_lt_Some in Hi as Hl. simpl in Hl.
    assert (length s ≤ 1)%nat.
    { assert (Forall (λ s : list Z, (length s ≤ 1)%nat) ex_names) as Hf by (apply (bool_decide_unpack _); by vm_compute).
      rewrite Forall_forall in Hf. by eapply Hf, list_elem_of_lookup_2. }
    unfold task_name_at, TASK_INFO_SIZE. lia.
  - repeat constructor; lia.
  - simpl. lia.
  - by exists r, m'.
Defined.
