(* ===== verification/Tiny.v ===== *)
(** tiny_libc: numbers and texts (atoi.c, itoa.c, strrev of string.c), pseudo
    random numbers (rand.c) and the checksum of mailbox.c.

    Strings are in the byte memory of CString; a walk over a string is bounded
    by fuel, a loop on a number by the number of bits. *)
From S2P Require Import Prelude CString Shell.

Definition isdigit (ch : Z) : bool := (48 <=? ch) && (ch <=? 57).

(** ** atoi.c *)

(** The loop that is to skip blanks does not move: on a blank it has no end. *)
Definition digit_value (base c : Z) : option Z :=
  if isdigit c then Some (c - 48)
  else if base =? 16 then
    if (97 <=? c) && (c <=? 102) then Some (c - 97 + 10)
    else if (65 <=? c) && (c <=? 70) then Some (c - 65 + 10) else None
  else None.

Fixpoint atol_loop (fuel : nat) (m : bmem) (base str ret : Z) : option (option Z) :=
  match fuel with
  | O => None
  | S fuel =>
      if m str =? 0 then Some (Some ret) else
      match digit_value base (m str) with
      | Some d => atol_loop fuel m base (str + 1) (s64 (ret * base + d))
      | None => Some None
      end
  end.

Definition atol (fuel : nat) (m : bmem) (str : Z) : option Z :=
  if str =? 0 then Some 0 else
  if isspace (m str) then None else
  let '(negative, str, bad) :=
    if m str =? 43 then (false, str + 1, false)
    else if m str =? 45 then (true, str + 1, false)
    else if isdigit (m str) then (false, str, false)
    else (false, str, true) in
  if bad : bool then Some 0 else
  let '(base, str) :=
    if (m str =? 48) && ((m (str + 1) =? 120) || (m (str + 1) =? 88)) then (16, str + 2) else (10, str) in
  r ← atol_loop fuel m base str 0;
  match r with
  | None => Some 0
  | Some ret => Some (if negative : bool then s64 (- ret) else ret)
  end.
Definition atoi (fuel : nat) (m : bmem) (str : Z) : option Z := s32 <$> atol fuel m str.

(** ** itoa.c and strrev *)

Fixpoint strrev_loop (n : nat) (m : bmem) (str i j : Z) : option bmem :=
  match n with
  | O => None
  | S n =>
      if i <? j then
        let tmp := m (str + i) in
        let m := bstore m (str + i) (m (str + j)) in
        strrev_loop n (bstore m (str + j) tmp) str (i + 1) (j - 1)
      else Some m
  end.
Definition strrev (fuel : nat) (m : bmem) (str : Z) : option bmem :=
  len ← strlen fuel m str; strrev_loop fuel m str 0 (len - 1).

Definition digit_char (digit : Z) : Z := u8 (if digit <? 10 then 48 + digit else 65 + digit - 10).

(** The body runs once before the test; a division halves the number at
    least. *)
Fixpoint itoa_loop (n : nat) (m : bmem) (str len base sum i : Z) : option (bmem * Z * Z) :=
  match n with
  | O => None
  | S n =>
      let digit := Z.rem sum base in
      let m := bstore m (str + i) (digit_char digit) in
      let sum := Z.quot sum base in
      if negb (sum =? 0) && (i + 1 <? len - 1) then itoa_loop n m str len base sum (i + 1)
      else Some (m, sum, i + 1)
  end.
Definition itoa (fuel : nat) (m : bmem) (num str len base : Z) : option (Z * bmem) :=
  if len =? 0 then Some (-1, m) else
  if base =? 0 then None else
  '(m, sum, i) ← itoa_loop 33 m str len base num 0;
  if (i =? len - 1) && negb (sum =? 0) then Some (-1, m) else
  m ← strrev fuel (bstore m (str + i) 0) str;
  Some (0, m).

(** ** rand.c *)

Definition srand (seed : Z) : Z := s32 seed.
(** The new [x], which is the result. *)
Definition rand (x : Z) : Z := Z.land (u64 (0x5deece66d * x + 0xb)) 0x7fffffff.

(** ** mailbox.c *)

Definition MOD_ADLER : Z := 65521.
Definition adler_step (ab : Z * Z) (c : Z) : Z * Z :=
  let a := (u32 (ab.1 + c)) mod MOD_ADLER in (a, u32 (ab.2 + a) mod MOD_ADLER).
Definition adler32 (data : list Z) : Z :=
  let ab := foldl adler_step (1, 0) data in
  Z.lor (u32 (Z.shiftl ab.2 16)) ab.1.

(** The characters, with the NUL that [sizeof] counts. *)
Definition alpha : list Z :=
  (Z.of_nat <$> seq 97 26) ++ (Z.of_nat <$> seq 65 26) ++ (Z.of_nat <$> seq 48 10) ++
  [45; 61; 123; 125; 59; 124; 91; 93; 44; 46; 47; 60; 62; 63; 33; 64; 35; 36; 37; 94; 38; 42; 0].
Definition alphaSz : Z := 85.

(** From index [i] down; [x] is the state of the generator. *)
Fixpoint random_chars (n : nat) (m : bmem) (buf x : Z) : bmem * Z :=
  match n with
  | O => (m, x)
  | S i =>
      let x := rand x in
      random_chars i (bstore m (buf + Z.of_nat i) (default 0 (alpha !! Z.to_nat (x mod alphaSz)))) buf x
  end.
Definition generateRandomString (m : bmem) (buf : Z) (len : nat) (x : Z) : bmem * Z :=
  random_chars (len - 1) (bstore m (buf + (Z.of_nat len - 1)) 0) buf x.

(** ** strrev reverses *)

Lemma bytes_snoc m p xs x : bytes_at m p (xs ++ [x]) ↔ bytes_at m p xs ∧ m (p + Z.of_nat (length xs)) = x.
Proof. rewrite bytes_at_app. simpl. tauto. Qed.

Lemma strrev_loop_ok n m str xs i :
  bytes_at m (str + i) xs → (length xs < n)%nat →
  ∃ m', strrev_loop n m str i (i + Z.of_nat (length xs) - 1) = Some m' ∧
    bytes_at m' (str + i) (reverse xs) ∧ same_outside m m' (str + i) (Z.of_nat (length xs)).
Proof.
  revert m xs i. induction n as [n IH] using lt_wf_ind. intros m xs i Hb Hn.
  destruct n as [|n]; [lia|]. cbn [strrev_loop]. destruct xs as [|x xs].
  { cbn [length]. destruct (Z.ltb_spec i (i + Z.of_nat 0 - 1)); [lia|]. by eexists. }
  destruct xs as [|y xs _] using rev_ind.
  { cbn [length]. destruct (Z.ltb_spec i (i + Z.of_nat 1 - 1)); [lia|]. by eexists. }
  destruct Hb as [Hx Hb]. apply bytes_snoc in Hb as [Hb Hy]. cbn [length] in Hn |- *. rewrite length_app in Hn |- *. cbn [length] in Hn |- *.
  set (k := Z.of_nat (length xs)) in *.
  replace (i + Z.of_nat (S (length xs + 1)) - 1) with (i + 1 + k) by lia.
  destruct (Z.ltb_spec i (i + 1 + k)); [|lia].
  replace (str + (i + 1 + k)) with (str + i + 1 + k) by lia. rewrite Hx, Hy.
  set (m1 := bstore (bstore m (str + i) y) (str + i + 1 + k) x).
  destruct (IH n ltac:(lia) m1 xs (i + 1)) as (m' & Hr & Hb' & Ho); [|lia|].
  { eapply bytes_at_ext; [|by replace (str + (i + 1)) with (str + i + 1) by lia].
    intros z Hz. unfold m1, bstore. by rewrite !decide_False by lia. }
  exists m'. replace (i + 1 + k - 1) with (i + 1 + Z.of_nat (length xs) - 1) by lia. split; [exact Hr|].
  replace (str + (i + 1)) with (str + i + 1) in * by lia. split.
  - rewrite reverse_cons, reverse_app. cbn [app]. split.
    + rewrite (Ho (str + i)) by lia. unfold m1, bstore. rewrite decide_False by lia. by rewrite decide_True.
    + apply bytes_snoc. split; [done|]. cbn [app]. rewrite length_reverse, (Ho _) by lia. unfold m1, bstore. by rewrite decide_True.
  - intros z Hz. rewrite (Ho z) by lia. unfold m1, bstore. by rewrite !decide_False by lia.
Qed.

Lemma strrev_ok fuel m str s : cstr m str s → (length s < fuel)%nat →
  ∃ m', strrev fuel m str = Some m' ∧ cstr m' str (reverse s) ∧ same_outside m m' str (Z.of_nat (length s)).
Proof.
  intros Hs Hf. unfold strrev. rewrite (strlen_ok m str s) by done. cbn [mbind option_bind].
  destruct Hs as [[Hb H0]%bytes_snoc Hok]. rewrite <- (Z.add_0_r str) in Hb.
  destruct (strrev_loop_ok fuel m str s 0 Hb Hf) as (m' & Hr & Hb' & Ho). rewrite Z.add_0_r in Hb', Ho. exists m'.
  split; [exact Hr|]. split; [|done]. split; [|by apply Forall_reverse].
  apply bytes_snoc. split; [done|]. rewrite length_reverse. rewrite (Ho _) by lia. done.
Qed.

(** ** Numbers *)

(** The digits of a number, the least significant first; [n] bits are enough. *)
Fixpoint lsd (n : nat) (base v : Z) : list Z :=
  match n with
  | O => []
  | S n => digit_char (v mod base) :: (if v / base =? 0 then [] else lsd n base (v / base))
  end.
Definition digits (base v : Z) : list Z := reverse (lsd 33 base v).

Lemma half_digit n base v : 2 ≤ base → 0 ≤ v < 2 ^ Z.of_nat (S n) → 0 ≤ v / base < 2 ^ Z.of_nat n.
Proof.
  intros Hb [Hv Hn]. rewrite Nat2Z.inj_succ, Z.pow_succ_r in Hn by lia.
  split; [apply Z.div_pos; lia|]. apply Z.div_lt_upper_bound; [lia|]. nia.
Qed.

Lemma digit_char_range base v : 2 ≤ base ≤ 16 → 0 < digit_char (v mod base) < 256.
Proof.
  intros Hb. pose proof (Z.mod_pos_bound v base ltac:(lia)). unfold digit_char.
  destruct (Z.ltb_spec (v mod base) 10); rewrite u8_id; lia.
Qed.

Lemma lsd_ok n base v : 2 ≤ base ≤ 16 → string_ok (lsd n base v).
Proof.
  intros Hb. revert v. induction n as [|n IH]; intros v; [constructor|]. constructor; [by apply digit_char_range|].
  destruct (_ =? 0); [constructor|apply IH].
Qed.

Lemma itoa_loop_ok n m str len base v i :
  2 ≤ base ≤ 16 → (0 < n)%nat → 0 ≤ v < 2 ^ Z.of_nat n → i + Z.of_nat (length (lsd n base v)) ≤ len - 1 →
  ∃ m', itoa_loop n m str len base v i = Some (m', 0, i + Z.of_nat (length (lsd n base v))) ∧
    bytes_at m' (str + i) (lsd n base v) ∧ same_outside m m' (str + i) (Z.of_nat (length (lsd n base v))).
Proof.
  intros Hb. revert m v i. induction n as [|n IH]; intros m v i H0 Hv Hlen; [lia|]. cbn [itoa_loop lsd].
  rewrite Z.rem_mod_nonneg, Z.quot_div_nonneg by lia. pose proof (half_digit n base v ltac:(lia) Hv) as Hv'.
  cbn [lsd length] in Hlen. destruct (Z.eqb_spec (v / base) 0) as [E|E]; cbn [negb andb].
  - rewrite E. eexists. split; [done|]. split; [split; [unfold bstore; by rewrite decide_True|done]|].
    apply bstore_same_outside. simpl. lia.
  - assert (0 < n)%nat as Hn by (destruct n; [simpl in Hv'; lia|lia]).
    assert (1 ≤ length (lsd n base (v / base)))%nat by (destruct n; [lia|simpl; lia]).
    destruct (Z.ltb_spec (i + 1) (len - 1)); [|lia].
    destruct (IH (bstore m (str + i) (digit_char (v mod base))) (v / base) (i + 1) Hn Hv') as (m' & Hl & Hd & Ho); [lia|].
    replace (str + (i + 1)) with (str + i + 1) in * by lia. exists m'. rewrite Hl. cbn [length].
    split; [do 2 f_equal; lia|]. replace (Z.of_nat (S (length (lsd n base (v / base))))) with (Z.of_nat (length (lsd n base (v / base))) + 1) by lia.
    split; [by eapply bytes_at_store|eapply same_outside_step; [lia|done]].
Qed.

(** itoa writes the digits of a number that is not negative, when there is room
    for them and the NUL. *)
Theorem itoa_spec fuel m num str len base :
  2 ≤ base ≤ 16 → 0 ≤ num < 2 ^ 31 → Z.of_nat (length (digits base num)) < len → (length (digits base num) < fuel)%nat →
  ∃ m', itoa fuel m num str len base = Some (0, m') ∧ cstr m' str (digits base num) ∧ same_outside m m' str len.
Proof.
  intros Hb Hn Hlen Hf. unfold digits in *. rewrite length_reverse in Hlen, Hf. set (ds := lsd 33 base num) in *.
  unfold itoa. destruct (Z.eqb_spec len 0); [lia|]. destruct (Z.eqb_spec base 0); [lia|].
  destruct (itoa_loop_ok 33 m str len base num 0 Hb) as (m1 & -> & Hd & Ho); [lia|change (2 ^ Z.of_nat 33) with (2 ^ 33); lia|fold ds; lia|].
  fold ds in Hd, Ho |- *. rewrite Z.add_0_r in Hd, Ho. rewrite Z.add_0_l. cbn [mbind option_bind]. rewrite andb_false_r.
  assert (cstr (bstore m1 (str + Z.of_nat (length ds)) 0) str ds) as Hs.
  { split; [|by apply lsd_ok]. apply bytes_snoc. split; [|unfold bstore; by rewrite decide_True].
    eapply bytes_at_ext; [|exact Hd]. intros x Hx. unfold bstore. rewrite decide_False; [done|lia]. }
  destruct (strrev_ok fuel _ str ds Hs Hf) as (m2 & -> & Hr & Ho2). exists m2. split; [done|]. split; [done|].
  intros x Hx. rewrite Ho2 by lia. unfold bstore. rewrite decide_False by lia. apply Ho. lia.
Qed.

(** The value of decimal digits, continued from [ret]. *)
Definition value10 (ret : Z) (ds : list Z) : Z := foldl (λ r c, r * 10 + (c - 48)) ret ds.

Lemma value10_ge ds ret : 0 ≤ ret → Forall (λ c, isdigit c = true) ds → ret ≤ value10 ret ds.
Proof.
  intros Hr Hd. revert ret Hr. induction Hd as [|c ds Hc _ IH]; intros ret Hr; [done|]. cbn.
  apply andb_true_iff in Hc as [?%Z.leb_le ?%Z.leb_le]. etransitivity; [|apply IH; lia]. lia.
Qed.

Lemma atol_loop_ok fuel m str ret ds :
  cstr m str ds → Forall (λ c, isdigit c = true) ds → (length ds < fuel)%nat → 0 ≤ ret → value10 ret ds < 2 ^ 63 →
  atol_loop fuel m 10 str ret = Some (Some (value10 ret ds)).
Proof.
  intros Hs Hd. revert str ret fuel Hs. induction Hd as [|c ds Hc Hd IH]; intros str ret [|fuel] Hs Hf Hr Hv; simpl in Hf; try lia;
    cbn [atol_loop].
  - apply cstr_nil in Hs. by rewrite Hs.
  - apply cstr_cons in Hs as (-> & Hrange & Hs). destruct (Z.eqb_spec c 0); [lia|]. unfold digit_value. rewrite Hc.
    apply andb_true_iff in Hc as [?%Z.leb_le ?%Z.leb_le]. cbn [value10 foldl] in Hv.
    pose proof (value10_ge ds (ret * 10 + (c - 48)) ltac:(lia) Hd) as Hge. unfold value10 in Hge.
    rewrite s64_id by lia. rewrite IH by (done || lia). done.
Qed.

Lemma lsd_digits n v : 0 ≤ v → Forall (λ c, isdigit c = true) (lsd n 10 v).
Proof.
  revert v. induction n as [|n IH]; intros v Hv; constructor.
  - pose proof (Z.mod_pos_bound v 10 ltac:(lia)). unfold digit_char. destruct (Z.ltb_spec (v mod 10) 10); [|lia].
    rewrite u8_id by lia. apply andb_true_iff. split; apply Z.leb_le; lia.
  - destruct (_ =? 0); [constructor|]. apply IH. apply Z.div_pos; lia.
Qed.

Lemma value_lsd n v : 0 ≤ v < 2 ^ Z.of_nat n → value10 0 (reverse (lsd n 10 v)) = v.
Proof.
  unfold value10. revert v. induction n as [|n IH]; intros v Hv; [simpl in *; lia|]. cbn [lsd].
  rewrite reverse_cons, foldl_app. cbn [foldl]. pose proof (Z.mod_pos_bound v 10 ltac:(lia)).
  assert (digit_char (v mod 10) - 48 = v mod 10) as ->.
  { unfold digit_char. destruct (Z.ltb_spec (v mod 10) 10); [|lia]. rewrite u8_id; lia. }
  pose proof (Z.div_mod v 10 ltac:(lia)). destruct (Z.eqb_spec (v / 10) 0) as [E|E]; [cbn; lia|].
  rewrite IH; [lia|]. apply half_digit; lia.
Qed.

(** Reading back what itoa wrote gives the number. *)
Theorem atol_itoa fuel m num str len :
  0 ≤ num < 2 ^ 31 → str ≠ 0 → Z.of_nat (length (digits 10 num)) < len → (length (digits 10 num) < fuel)%nat →
  ∃ m', itoa fuel m num str len 10 = Some (0, m') ∧ atol fuel m' str = Some num.
Proof.
  intros Hn H0 Hlen Hf. destruct (itoa_spec fuel m num str len 10 ltac:(lia) Hn Hlen Hf) as (m' & Hi & Hs & _).
  exists m'. split; [done|]. assert (0 ≤ num < 2 ^ Z.of_nat 33) as Hn33 by (change (2 ^ Z.of_nat 33) with (2 ^ 33); lia).
  pose proof (value_lsd 33 num Hn33) as Hv. fold (digits 10 num) in Hv.
  assert (Forall (λ c, isdigit c = true) (digits 10 num)) as Hd by (apply Forall_reverse, lsd_digits; lia).
  assert (digits 10 num ≠ []) as Hne.
  { unfold digits. intros E%(f_equal length). rewrite length_reverse in E. discriminate E. }
  set (ds := digits 10 num) in *. clearbody ds. destruct ds as [|c ds]; [done|].
  pose proof (atol_loop_ok fuel m' str 0 (c :: ds) Hs Hd Hf ltac:(lia) ltac:(lia)) as Hl. rewrite Hv in Hl.
  apply cstr_cons in Hs as (Hc & _ & Hs). apply Forall_cons in Hd as [Hdc Hd].
  pose proof Hdc as Hdc'. apply andb_true_iff in Hdc' as [?%Z.leb_le ?%Z.leb_le].
  unfold atol. destruct (Z.eqb_spec str 0); [done|]. rewrite Hc.
  assert (isspace c = false) as -> by (unfold isspace; repeat match goal with |- context [c =? ?k] => destruct (Z.eqb_spec c k); [lia|] end; done).
  destruct (Z.eqb_spec c 43); [lia|]. destruct (Z.eqb_spec c 45); [lia|]. rewrite Hdc. rewrite Hc.
  assert ((c =? 48) && ((m' (str + 1) =? 120) || (m' (str + 1) =? 88)) = false) as ->.
  { apply andb_false_iff. right. destruct ds as [|d ds].
    - apply cstr_nil in Hs. by rewrite Hs.
    - apply cstr_cons in Hs as (-> & _). apply Forall_cons in Hd as [Hdd _].
      apply andb_true_iff in Hdd as [?%Z.leb_le ?%Z.leb_le]. apply orb_false_iff. split; apply Z.eqb_neq; lia. }
  rewrite Hl. done.
Qed.

(** ** The checksum *)

(** The sums of Adler-32: [1 + d1 + ... + dn], and the sum of the first of
    these over all prefixes. *)
Definition adler_a (data : list Z) : Z := 1 + foldr Z.add 0 data.
Fixpoint adler_b (data : list Z) (n : nat) : Z :=
  match n with O => 0 | S n => adler_a (take (S n) data) + adler_b data n end.

Lemma adler_fold data :
  Forall (λ c, 0 ≤ c < 256) data →
  foldl adler_step (1, 0) data = (adler_a data mod MOD_ADLER, adler_b data (length data) mod MOD_ADLER).
Proof.
  assert (∀ l n k, (n ≤ length l)%nat → adler_b (l ++ k) n = adler_b l n) as Hpre.
  { intros l n k. induction n as [|n IH]; intros Hn; [done|]. cbn [adler_b]. rewrite IH by lia.
    by rewrite take_app_le by lia. }
  induction data as [|c data IH] using rev_ind; intros Hd; [by vm_compute|].
  apply Forall_app in Hd as [Hd [Hc _]%Forall_cons]. rewrite foldl_app, IH by done. cbn [foldl].
  assert (adler_a (data ++ [c]) = adler_a data + c) as Ha.
  { unfold adler_a. rewrite foldr_app. cbn [foldr]. rewrite Z.add_0_r, <- (Z.add_assoc 1). f_equal.
    clear. induction data as [|d data IH]; cbn [foldr]; [lia|]. rewrite IH. lia. }
  rewrite length_app, Nat.add_1_r. cbn [adler_b]. rewrite Hpre by lia. rewrite take_ge by (rewrite length_app; simpl; lia).
  rewrite Ha. unfold adler_step, MOD_ADLER. cbn [fst snd].
  pose proof (Z.mod_pos_bound (adler_a data) 65521 ltac:(lia)).
  pose proof (Z.mod_pos_bound (adler_b data (length data)) 65521 ltac:(lia)).
  cbn beta in Hc.   rewrite (u32_id (adler_a data mod 65521 + c)) by lia. rewrite Zplus_mod_idemp_l.
  pose proof (Z.mod_pos_bound (adler_a data + c) 65521 ltac:(lia)). rewrite u32_id by lia.
  rewrite <- Zplus_mod, (Z.add_comm (adler_b _ _)). done.
Qed.

(** adler32 is the checksum of its definition: the two sums modulo 65521, in
    the upper and in the lower half of the word. *)
Theorem adler32_spec data :
  Forall (λ c, 0 ≤ c < 256) data →
  adler32 data = adler_b data (length data) mod MOD_ADLER * 2 ^ 16 + adler_a data mod MOD_ADLER.
Proof.
  intros Hd. unfold adler32. rewrite adler_fold by done. cbn [fst snd]. unfold MOD_ADLER.
  pose proof (Z.mod_pos_bound (adler_a data) 65521 ltac:(lia)).
  pose proof (Z.mod_pos_bound (adler_b data (length data)) 65521 ltac:(lia)).
  rewrite u32_id by (rewrite Z.shiftl_mul_pow2 by lia; change (2 ^ 16) with 65536; lia).
  rewrite lor_shiftl_add by (change (2 ^ 16) with 65536; lia). done.
Qed.

(** The characters of a random string include the NUL that [sizeof] counts, so
    the string may be shorter than was asked for, as with this seed. *)
Lemma random_string_short : ∃ seed, (generateRandomString (λ _, 1) 100 5 seed).1 103 = 0.
Proof. exists 31. by vm_compute. Qed.

(** -7 becomes a closing parenthesis. *)
Example itoa_negative : (λ r, r.2 100) <$> itoa 12 (λ _, 0) (-7) 100 12 10 = Some 41.
Proof. by vm_compute. Qed.

Lemma itoa_spec_witness : ∃ m', itoa 12 (λ _, 0) 1024 100 12 10 = Some (0, m') ∧ cstr m' 100 [49; 48; 50; 52].
Proof.
  destruct (itoa_spec 12 (λ _, 0) 1024 100 12 10) as (m' & H & Hs & _); [lia|lia|by vm_compute|by vm_compute; lia|].
  exists m'. split; [exact H|]. exact Hs.
Defined.
Lemma atol_itoa_witness : ∃ m', itoa 12 (λ _, 0) 2147483647 100 12 10 = Some (0, m') ∧ atol 12 m' 100 = Some 2147483647.
Proof. apply (atol_itoa 12 (λ _, 0) 2147483647 100 12); [lia|lia|by vm_compute|by vm_compute; lia]. Defined.
Lemma adler32_spec_witness : adler32 [97; 98; 99] = 38600999.
Proof. rewrite (adler32_spec [97; 98; 99]); [by vm_compute|]. repeat constructor; lia. Defined.
