(* ===== verification/Cmd.v ===== *)
(** tiny_libc/shell_command.c and test/shell.c: the commands of the shell and
    its loop.

    The shell's byte memory holds the line, the strings that [argv] points to
    and the path that the prompt shows; a system call gets the strings that its
    pointers stand for. What the calls and [printf] do is the interface
    [UserCalls]. An element of [argv] behind the last argument is not
    initialised: using it is [Stuck]. *)
From S2P Require Import Prelude KMonad CString Shell.
From Stdlib Require String.
Import String.StringSyntax.

Definition O_RDONLY : Z := 1.
Definition O_RDWR : Z := 3.
Definition SHELL_BEGIN : Z := 20.

(** A value that is printed. Formats are written as in the source, without
    their double quotes. *)
Inductive arg := Num (v : Z) | Text (s : list Z).

Class UserCalls (K : Type) := {
  uc_printf : String.string → list arg → M K unit;
  uc_keys : M K (list Z);
  uc_exec : list Z → list (list Z) → M K Z;
  uc_waitpid : Z → M K Z;
  uc_kill : Z → M K Z;
  uc_ps : M K unit;
  uc_clear : M K unit;
  uc_move_cursor : Z → Z → M K unit;
  uc_show_task : M K unit;
  uc_taskset : Z → option (list Z) → Z → list (list Z) → M K unit;
  uc_free_mem : M K Z;
  uc_mkfs : M K Z;
  uc_statfs : M K Z;
  uc_cd : list Z → M K Z;
  uc_mkdir : list Z → M K Z;
  uc_rmdir : list Z → M K Z;
  uc_ls : list Z → Z → M K Z;
  uc_open : list Z → Z → M K Z;
  uc_close : Z → M K Z;
  (* the value, and the bytes put into the buffer *)
  uc_read : Z → Z → M K (Z * list Z);
  uc_ln : list Z → list Z → M K Z;
  uc_rm : list Z → M K Z
}.
#[global] Arguments uc_printf {_ _} fmt%_string_scope va : rename.

Section Cmd.
Context {K : Type} `{!UserCalls K}.

Record shell := mk_shell { sh_mem : bmem; sh_out : K }.
Definition sh_set_mem (m : bmem) (s : shell) : shell := mk_shell m (sh_out s).
Definition sys {A} (c : M K A) : M shell A := zoom sh_out (λ x s, mk_shell (sh_mem s) x) c.
#[local] Notation printf fmt va := (sys (uc_printf fmt va)).

(** Addresses: string constants of merge_path, cur_path, its work array, the
    line, the command; [fuel] bounds strings, [rounds] the loops that the
    answers of the kernel end. *)
Context (fuel rounds : nat) (DOTDOT DOT SLASH cur_path temp_tar buffer command : Z).

Definition load_bytes (m : bmem) (p : Z) (n : nat) : list Z := (λ i, m (p + Z.of_nat i)) <$> seq 0 n.
Definition str_at (p : Z) : M shell (list Z) :=
  s ← get; n ← of_opt (strlen fuel (sh_mem s) p); mret (load_bytes (sh_mem s) p (Z.to_nat n)).
(** [argv[i]], and the strings of the first [n]. *)
Definition arg_at (argv : list Z) (i : Z) : M shell (list Z) := p ← of_opt (arr_get argv i); str_at p.
Fixpoint args_at (ps : list Z) : M shell (list (list Z)) :=
  match ps with [] => mret [] | p :: ps => a ← str_at p; l ← args_at ps; mret (a :: l) end.

Definition is_text (s : list Z) (t : String.string) : bool := bool_decide (s = text t).
#[global] Arguments is_text s t%_string_scope.
Definition my_atoi_of (p : Z) : M shell Z := s ← get; of_opt (my_atoi fuel (sh_mem s) p).
Definition atoi_arg (argv : list Z) (i skip : Z) : M shell Z := p ← of_opt (arr_get argv i); my_atoi_of (p + skip).
(** [strncmp(s, "0x", 2)] *)
Definition has_0x (s : list Z) : bool := bool_decide (take 2 s = text "0x").

(** Without an argument the error is printed and the function goes on. *)
Definition exec (argc : Z) (argv : list Z) : M shell unit :=
  (if argc <? 1 then printf "[ERROR]: No task name is given.\n" [] else mret ());;
  a ← arg_at argv (argc - 1);
  let '(argc, wait_sign) := if bool_decide (head a = Some 38) then (argc - 1, false) else (argc, true) in
  name ← arg_at argv 0;
  args ← args_at (take (Z.to_nat argc) argv);
  pid ← sys (uc_exec name args);
  (if pid =? 0 then printf "[ERROR]: Executing task [%s] failed.\n" [Text name]
   else printf "[INFO]: Task [%s] is running succesfully with pid=%d.\n" [Text name; Num pid]);;
  if wait_sign then sys (uc_waitpid pid);; mret () else mret ().

Definition kill (argc : Z) (argv : list Z) : M shell unit :=
  pid ← atoi_arg argv 0 0; sys (uc_kill pid);; mret ().
Definition ps : M shell unit := sys uc_ps.
Definition clear : M shell unit :=
  sys uc_clear;; sys (uc_move_cursor 0 SHELL_BEGIN);;
  printf "------------------- COMMAND -------------------\n" [].
Definition list_ : M shell unit := sys uc_show_task.

Definition taskset_usage : M shell unit :=
  printf "[taskset] invalid command format, please use\n" [];;
  printf "taskset <mask> <task_name>\n" [];;
  printf "taskset -p <mask> <pid>\n" [].
Definition taskset_prefix : M shell unit :=
  printf "[taskset] invalid mask format, must start with 0x.\n" [].

Definition taskset (argc : Z) (argv : list Z) : M shell unit :=
  a0 ← arg_at argv 0;
  if is_text a0 "-p" then
    if argc <? 3 then taskset_usage else
    a1 ← arg_at argv 1;
    if negb (has_0x a1) then taskset_prefix else
    mask ← atoi_arg argv 1 2;
    pid ← atoi_arg argv 2 0;
    args ← args_at (take (Z.to_nat argc) argv);
    sys (uc_taskset mask None pid args)
  else
    if argc <? 2 then taskset_usage else
    if negb (has_0x a0) then taskset_prefix else
    mask ← atoi_arg argv 0 2;
    a1 ← arg_at argv 1;
    args ← args_at (take (Z.to_nat (argc - 1)) (drop 1 argv));
    sys (uc_taskset mask (Some a1) 0 args).

Definition GB : Z := 1024 * 1024 * 1024.
Definition MB : Z := 1024 * 1024.
Definition KB : Z := 1024.
Definition free_mem (argc : Z) (argv : list Z) : M shell unit :=
  human_readable ← (if 0 <? argc then a ← arg_at argv 0; mret (is_text a "-h") else mret false);
  free_mem ← sys uc_free_mem;
  if human_readable : bool then
    if GB <=? free_mem then printf "Free memory: %ld GB\n" [Num (Z.quot free_mem GB)]
    else if MB <=? free_mem then printf "Free memory: %ld MB\n" [Num (Z.quot free_mem MB)]
    else if KB <=? free_mem then printf "Free memory: %ld KB\n" [Num (Z.quot free_mem KB)]
    else printf "Free memory: %ld B\n" [Num free_mem]
  else printf "Free memory: %ld B\n" [Num free_mem].

Definition mkfs : M shell unit := sys uc_mkfs;; mret ().
Definition statfs : M shell unit := sys uc_statfs;; mret ().

Definition cd (argc : Z) (argv : list Z) : M shell unit :=
  if argc <? 1 then printf "cd: missing operand" [] else
  if 1 <? argc then printf "cd: too many arguments" [] else
  a ← arg_at argv 0;
  r ← sys (uc_cd a);
  if r =? 0 then
    p ← of_opt (arr_get argv 0);
    s ← get;
    m ← of_opt (merge_path DOTDOT DOT SLASH fuel (sh_mem s) cur_path p temp_tar);
    modify (sh_set_mem m)
  else mret ().

(** The option -p before or behind the path. *)
Definition path_option (argc : Z) (argv : list Z) : M shell (option (bool * list Z)) :=
  if argc =? 1 then a ← arg_at argv 0; mret (Some (false, a)) else
  a0 ← arg_at argv 0;
  a1 ← arg_at argv 1;
  if is_text a0 "-p" then mret (Some (true, a1))
  else if is_text a1 "-p" then mret (Some (true, a0))
  else printf "mkdir: invalid command argument: %s %s\n" [Text a0; Text a1];; mret None.

(** [strncpy] into an array of 80 characters of which the last is not
    initialised. *)
Definition copy_path (path : list Z) : M shell (list Z) :=
  if decide (length path < MAX_PATH_LEN - 1)%nat then mret path else stuck.

(** The scan of [buf] from index [i] on. *)
Fixpoint mkdir_parents (buf : list Z) (i n : nat) : M shell unit :=
  match n with
  | O => mret ()
  | S n =>
      (if bool_decide (buf !! i = Some 47) && negb (i =? 0)%nat then sys (uc_mkdir (take i buf));; mret () else mret ());;
      mkdir_parents buf (S i) n
  end.
Definition mkdir (argc : Z) (argv : list Z) : M shell unit :=
  if argc <? 1 then printf "mkdir: missing operand" [] else
  if 2 <? argc then printf "mkdir: too many arguments" [] else
  r ← path_option argc argv;
  match r with
  | None => mret ()
  | Some (p_flag, path) =>
      (if p_flag : bool then buf ← copy_path path; mkdir_parents buf 0 (length buf) else mret ());;
      sys (uc_mkdir path);; mret ()
  end.

(** Up to the last slash. *)
Definition parent (buf : list Z) : option (list Z) :=
  match list_find (47 =.) (reverse buf) with
  | Some (k, _) => let last_slash := (length buf - 1 - k)%nat in if (last_slash =? 0)%nat then None else Some (take last_slash buf)
  | None => None
  end.
Definition rmdir_step (buf : list Z) : M shell (list Z + unit) :=
  r ← sys (uc_rmdir buf);
  if r =? 0 then match parent buf with Some up => mret (inl up) | None => mret (inr ()) end else mret (inr ()).
Definition rmdir (argc : Z) (argv : list Z) : M shell unit :=
  if argc <? 1 then printf "rmdir: missing operand" [] else
  if 2 <? argc then printf "rmdir: too many arguments" [] else
  r ← path_option argc argv;
  match r with
  | None => mret ()
  | Some (true, path) => buf ← copy_path path; while_ (S (length buf)) rmdir_step buf
  | Some (false, path) => sys (uc_rmdir path);; mret ()
  end.

Definition ls (argc : Z) (argv : list Z) : M shell unit :=
  if 2 <? argc then printf "touch: too many arguments" [] else
  cur ← str_at cur_path;
  r ← (if argc =? 0 then mret (Some (cur, 0)) else
       a0 ← arg_at argv 0;
       if argc =? 1 then mret (Some (if is_text a0 "-l" then (cur, 1) else (a0, 0))) else
       a1 ← arg_at argv 1;
       if is_text a0 "-l" then mret (Some (a1, 1))
       else if is_text a1 "-l" then mret (Some (a0, 1))
       else printf "ls: invalid command argument: %s %s\n" [Text a0; Text a1];; mret None);
  match r with None => mret () | Some (path, option) => sys (uc_ls path option);; mret () end.

Definition touch (argc : Z) (argv : list Z) : M shell unit :=
  if argc <? 1 then printf "touch: missing file operand" [] else
  if 1 <? argc then printf "touch: too many arguments" [] else
  a ← arg_at argv 0;
  fd ← sys (uc_open a O_RDWR);
  sys (uc_close fd);; mret ().

(** What [printf] shows of a buffer: up to the first NUL. *)
Fixpoint c_text (bs : list Z) : list Z :=
  match bs with [] => [] | b :: bs => if b =? 0 then [] else b :: c_text bs end.
Definition cat_step (fd : Z) (_ : unit) : M shell (unit + unit) :=
  r ← sys (uc_read fd 255);
  if 0 <? r.1 then printf "%s" [Text (c_text (take (Z.to_nat r.1) r.2))];; mret (inl tt) else mret (inr tt).
Definition cat (argc : Z) (argv : list Z) : M shell unit :=
  if argc <? 1 then printf "cat: missing file operand" [] else
  if 1 <? argc then printf "cat: too many arguments" [] else
  a ← arg_at argv 0;
  fd ← sys (uc_open a O_RDONLY);
  if fd <? 0 then printf "cat: %s: No such file or directory\n" [Text a] else
  while_ rounds (cat_step fd) tt;;
  printf "\n" [];;
  sys (uc_close fd);; mret ().

Definition ln (argc : Z) (argv : list Z) : M shell unit :=
  if argc <? 2 then printf "ln: missing file operand\n" [] else
  a ← arg_at argv 0; b ← arg_at argv 1; sys (uc_ln a b);; mret ().
Definition rm (argc : Z) (argv : list Z) : M shell unit :=
  if argc <? 1 then printf "rm: missing operand\n" [] else
  a ← arg_at argv 0; sys (uc_rm a);; mret ().

(** ** test/shell.c *)

Definition run_command (cmd : list Z) (argc : Z) (argv : list Z) : M shell unit :=
  if is_text cmd "exec" then exec argc argv
  else if is_text cmd "kill" then kill argc argv
  else if is_text cmd "ps" then ps
  else if is_text cmd "clear" then clear
  else if is_text cmd "list" then list_
  else if is_text cmd "taskset" then taskset argc argv
  else if is_text cmd "free" then free_mem argc argv
  else if is_text cmd "mkfs" then mkfs
  else if is_text cmd "statfs" then statfs
  else if is_text cmd "cd" then cd argc argv
  else if is_text cmd "mkdir" then mkdir argc argv
  else if is_text cmd "rmdir" then rmdir argc argv
  else if is_text cmd "ls" then ls argc argv
  else if is_text cmd "touch" then touch argc argv
  else if is_text cmd "cat" then cat argc argv
  else if is_text cmd "ln" then ln argc argv
  else if is_text cmd "rm" then rm argc argv
  else if is_text cmd "" then mret ()
  else printf "[ERROR]: Unknown Command [%s]\n" [Text cmd].

Definition put_line (bs : list Z) (s : shell) : shell :=
  sh_set_mem (λ a, if decide (buffer ≤ a < buffer + Z.of_nat (length bs)) then default 0 (bs !! Z.to_nat (a - buffer)) else sh_mem s a) s.

(** One round of the loop of [main]; [inr] is its [break]. The echo comes
    character by character in the source. *)
Definition shell_round (_ : unit) : M shell (unit + unit) :=
  printf "> root@UCAS_OS:" [];;
  cur ← str_at cur_path;
  printf "%s$ " [Text cur];;
  keys ← sys uc_keys;
  '(len, line, echo) ← of_opt (process_input_echo BUF_SIZE keys (replicate (Z.to_nat BUF_SIZE + 1) 0) 0 []);
  printf "%s" [Text echo];;
  modify (put_line line);;
  if len =? 0 then mret (inl tt) else
  if BUF_SIZE <=? len then printf "[WARNING]: too long command\n\r" [];; mret (inr tt) else
  modify (λ s, sh_set_mem (memset (sh_mem s) command 0 16) s);;
  s ← get;
  '(m, argv) ← of_opt (parse_input fuel (sh_mem s) buffer command);
  modify (sh_set_mem m);;
  cmd ← str_at command;
  run_command cmd (Z.of_nat (length argv)) argv;;
  mret (inl tt).

Definition main (n : nat) : M shell unit :=
  modify (λ s, sh_set_mem (bstore (memset (sh_mem s) cur_path 0 MAX_PATH_LEN) cur_path 47) s);;
  sys (uc_move_cursor 0 SHELL_BEGIN);;
  printf "------------------- COMMAND -------------------\n" [];;
  while_ n shell_round tt.
End Cmd.

(** ** What the commands do *)

(** What the commands rely on: the files of the kernel, what is left to read
    behind a descriptor, and what is on the screen. *)
Class UserLaws (K : Type) `{!UserCalls K} := {
  ul_file : K → list Z → option (list Z);
  ul_left : K → Z → option (list Z);
  ul_shown : K → list Z;
  ul_printf_text t k : wp (uc_printf "%s" [Text t]) k (λ _ k', ul_left k' = ul_left k ∧ ul_shown k' = ul_shown k ++ t);
  ul_printf_newline k : wp (uc_printf "\n" []) k (λ _ k', ul_left k' = ul_left k ∧ ul_shown k' = ul_shown k ++ [10]);
  ul_open a data k : ul_file k a = Some data → wp (uc_open a O_RDONLY) k (λ fd k',
    0 ≤ fd ∧ ul_left k fd = None ∧ ul_left k' fd = Some data ∧ (∀ d, d ≠ fd → ul_left k' d = ul_left k d) ∧
    ul_shown k' = ul_shown k);
  ul_read fd data n k : ul_left k fd = Some data → 0 ≤ n → wp (uc_read fd n) k (λ r k',
    r = (Z.of_nat (length (take (Z.to_nat n) data)), take (Z.to_nat n) data) ∧
    ul_left k' fd = Some (drop (Z.to_nat n) data) ∧ (∀ d, d ≠ fd → ul_left k' d = ul_left k d) ∧
    ul_shown k' = ul_shown k);
  ul_close fd k : is_Some (ul_left k fd) → wp (uc_close fd) k (λ _ k',
    ul_left k' fd = None ∧ (∀ d, d ≠ fd → ul_left k' d = ul_left k d) ∧ ul_shown k' = ul_shown k)
}.

Section Laws.
Context {K : Type} `{!UserCalls K} `{!UserLaws K} (fuel rounds : nat).
Implicit Types s : shell (K := K).

Lemma c_text_id bs : 0 ∉ bs → c_text bs = bs.
Proof.
  induction bs as [|b bs IH]; [done|]. intros [Hb Hbs]%not_elem_of_cons. cbn. destruct (Z.eqb_spec b 0); [done|]. by rewrite IH.
Qed.

Lemma load_string m p t : cstr m p t → load_bytes m p (length t) = t.
Proof.
  intros [Hb _]. apply bytes_at_app in Hb as [Hb _]. apply list_eq. intros i. unfold load_bytes.
  rewrite list_lookup_fmap. destruct (decide (i < length t)%nat) as [Hi|Hi].
  - rewrite lookup_seq_lt by done. cbn. destruct (lookup_lt_is_Some_2 t i Hi) as [x Hx]. rewrite Hx.
    f_equal. by apply (proj1 (bytes_at_lookup m p t) Hb).
  - rewrite (lookup_seq_ge _ _ i) by lia. by rewrite (lookup_ge_None_2 t) by lia.
Qed.

Lemma wp_str_at s p t Q : cstr (sh_mem s) p t → (length t < fuel)%nat → Q t s → wp (str_at fuel p) s Q.
Proof.
  intros Ht Hf HQ. unfold str_at. rewrite wp_bind, wp_get, wp_bind, (wp_of_opt_Some _ (Z.of_nat (length t))); [|by apply strlen_ok].
  rewrite wp_ret, Nat2Z.id, load_string; done.
Qed.

Lemma wp_arg_at s argv i p t Q :
  arr_get argv i = Some p → cstr (sh_mem s) p t → (length t < fuel)%nat → Q t s → wp (arg_at fuel argv i) s Q.
Proof. intros Hp Ht Hf HQ. unfold arg_at. rewrite wp_bind, (wp_of_opt_Some _ p) by done. by eapply wp_str_at. Qed.

(** The loop of cat on descriptor [fd]: it shows what is left. *)
Lemma cat_loop_ok fd s left :
  ul_left (sh_out s) fd = Some left → 0 ∉ left → (length left < rounds)%nat →
  wp (while_ rounds (cat_step fd) tt) s (λ _ s', sh_mem s' = sh_mem s ∧ is_Some (ul_left (sh_out s') fd) ∧
    (∀ d, d ≠ fd → ul_left (sh_out s') d = ul_left (sh_out s) d) ∧ ul_shown (sh_out s') = ul_shown (sh_out s) ++ left).
Proof.
  intros Hl H0 Hr.
  apply (wp_while (λ _ t, sh_mem t = sh_mem s ∧ ∃ dn tl, left = dn ++ tl ∧ ul_left (sh_out t) fd = Some tl ∧
    (∀ d, d ≠ fd → ul_left (sh_out t) d = ul_left (sh_out s) d) ∧ ul_shown (sh_out t) = ul_shown (sh_out s) ++ dn)
    (λ _ t, length (default [] (ul_left (sh_out t) fd)))).
  { split; [done|]. exists [], left. by rewrite app_nil_r. }
  { by rewrite Hl. }
  intros [] t (Hm & dn & tl & -> & Ht & Ho & Hs). unfold cat_step. rewrite wp_bind. unfold sys at 1. rewrite wp_zoom.
  eapply wp_mono; [by apply (ul_read fd tl 255)|]. intros r k2 (-> & Hl2 & Ho2 & Hs2). cbn [fst snd].
  change (Z.to_nat 255) with 255%nat in *. destruct (Z.ltb_spec 0 (Z.of_nat (length (take 255 tl)))) as [Hlt|Hge].
  - rewrite wp_bind. unfold sys at 1. rewrite wp_zoom. eapply wp_mono; [apply ul_printf_text|]. intros _ k3 [Hl3 Hs3].
    rewrite wp_ret. cbn [sh_out sh_mem] in *. rewrite Hl3, Hl2, Ht. rewrite Nat2Z.id, take_ge in Hs3 by lia.
    rewrite c_text_id in Hs3 by (intros (j & Hj & _)%elem_of_take; apply H0, elem_of_app; right; by eapply list_elem_of_lookup_2).
    cbn [from_option id]. rewrite length_drop. rewrite length_take in Hlt. split; [|cbn; lia].
    split; [done|]. exists (dn ++ take 255 tl), (drop 255 tl).
    split; [by rewrite <- app_assoc, take_drop|]. split; [done|]. split; [by intros d Hd'; rewrite Ho2, Ho|].
    by rewrite Hs3, Hs2, Hs, app_assoc.
  - rewrite wp_ret. cbn [sh_out sh_mem]. rewrite length_take in Hge. assert (tl = []) as -> by (apply length_zero_iff_nil; lia).
    rewrite app_nil_r. split; [done|]. rewrite Hl2. split; [done|]. split; [by intros d Hd'; rewrite Ho2, Ho|].
    by rewrite Hs2, Hs.
Qed.

(** cat of a text shows it whole with a line end, and leaves no descriptor
    open and the shell's memory as it was; the loop ends when the file does. *)
Theorem cat_spec s p a data :
  cstr (sh_mem s) p a → (length a < fuel)%nat → ul_file (sh_out s) a = Some data → 0 ∉ data →
  (length data < rounds)%nat →
  wp (cat fuel rounds 1 [p]) s (λ _ s', sh_mem s' = sh_mem s ∧ ul_shown (sh_out s') = ul_shown (sh_out s) ++ data ++ [10] ∧
    ∀ d, ul_left (sh_out s') d = ul_left (sh_out s) d).
Proof.
  intros Ha Hf Hfile H0 Hr. unfold cat. cbn [Z.ltb Z.compare Pos.compare Pos.compare_cont]. rewrite wp_bind.
  eapply wp_arg_at; [done|exact Ha|done|]. rewrite wp_bind. unfold sys at 1. rewrite wp_zoom.
  eapply wp_mono; [by apply (ul_open a data)|]. intros fd k (Hfd & Hnone & Hleft & Hother & Hshown).
  destruct (Z.ltb_spec fd 0); [lia|]. rewrite wp_bind. eapply wp_mono; [by apply (cat_loop_ok fd _ data)|].
  intros _ t (Hm & Hl & Ho & Hs). rewrite wp_bind. unfold sys at 1. rewrite wp_zoom. eapply wp_mono; [apply ul_printf_newline|].
  intros _ k2 [Hl2 Hs2]. rewrite wp_bind. unfold sys at 1. rewrite wp_zoom. eapply wp_mono; [apply ul_close; cbn; by rewrite Hl2|].
  intros _ k3 (Hl3 & Ho3 & Hs3). rewrite wp_ret. cbn [sh_mem sh_out] in *. split; [done|]. split.
  - by rewrite Hs3, Hs2, Hs, Hshown, app_assoc.
  - intros d. destruct (decide (d = fd)) as [->|Hd]; [by rewrite Hl3, Hnone|]. by rewrite Ho3, Hl2, Ho, Hother.
Qed.
End Laws.

(** ** An example: a kernel with some files and one descriptor *)

Record desk := mk_desk { dk_files : gmap (list Z) (list Z); dk_open : option (list Z); dk_shown : list Z }.
Definition dk_show (t : list Z) (k : desk) : desk := mk_desk (dk_files k) (dk_open k) (dk_shown k ++ t).
Definition dk_set (o : option (list Z)) (k : desk) : desk := mk_desk (dk_files k) o (dk_shown k).
Definition dk_text (fmt : String.string) (va : list arg) : list Z :=
  match va with Text t :: _ => t | _ => if bool_decide (text fmt = text "\n") then [10] else text fmt end.

#[export] Instance desk_calls : UserCalls desk := {|
  uc_printf fmt va := modify (dk_show (dk_text fmt va));
  uc_keys := mret [];
  uc_exec _ _ := mret 0; uc_waitpid _ := mret 0; uc_kill _ := mret 0;
  uc_ps := mret tt; uc_clear := mret tt; uc_move_cursor _ _ := mret tt; uc_show_task := mret tt;
  uc_taskset _ _ _ _ := mret tt; uc_free_mem := mret 0; uc_mkfs := mret 0; uc_statfs := mret 0;
  uc_cd _ := mret 0; uc_mkdir _ := mret 0; uc_rmdir _ := mret 0; uc_ls _ _ := mret 0;
  uc_open a _ := k ← get;
    match dk_open k, dk_files k !! a with
    | None, Some data => modify (dk_set (Some data));; mret 0
    | _, _ => mret (-1)
    end;
  uc_close _ := modify (dk_set None);; mret 0;
  uc_read _ n := k ← get;
    let data := default [] (dk_open k) in
    modify (dk_set (Some (drop (Z.to_nat n) data)));;
    mret (Z.of_nat (length (take (Z.to_nat n) data)), take (Z.to_nat n) data);
  uc_ln _ _ := mret 0; uc_rm _ := mret 0
|}.

(** A file can be opened while the descriptor is free. *)
#[export, refine] Instance desk_laws : UserLaws desk := {|
  ul_file k a := match dk_open k with None => dk_files k !! a | Some _ => None end;
  ul_left k fd := if decide (fd = 0) then dk_open k else None;
  ul_shown := dk_shown
|}.
Proof.
  - done.
  - done.
  - intros a data k Hk. cbn. rewrite wp_bind, wp_get. destruct (dk_open k) eqn:E; [done|]. rewrite Hk.
    rewrite wp_bind, wp_modify, wp_ret. split; [done|]. split; [done|]. split; [done|]. split; [|done].
    intros d Hd. by rewrite !decide_False.
  - intros fd data n k Hk Hn. cbn. rewrite wp_bind, wp_get, wp_bind, wp_modify, wp_ret. case_decide as Hfd; [|done].
    rewrite Hk. cbn. split; [done|]. split; [done|]. split; [|done]. intros d Hd. subst fd. by rewrite !decide_False.
  - intros fd k [l Hl]. cbn. rewrite wp_bind, wp_modify, wp_ret. case_decide as Hfd; [|done]. split; [done|]. split; [|done].
    intros d Hd. subst fd. by rewrite !decide_False.
Defined.

Lemma cat_spec_witness :
  wp (cat 10 20 1 [100]) (mk_shell (put_string 100 (text "notes") (λ _, 0)) (mk_desk {[text "notes" := text "hello"]} None []))
    (λ _ s', dk_shown (sh_out s') = text "hello" ++ [10]).
Proof.
  eapply wp_mono; [apply (cat_spec 10 20 _ 100 (text "notes") (text "hello"))|].
  - split; [by vm_compute|]. apply (bool_decide_unpack _). by vm_compute.
  - apply Nat.ltb_lt. by vm_compute.
  - by vm_compute.
  - apply (bool_decide_unpack _). by vm_compute.
  - apply Nat.ltb_lt. by vm_compute.
  - by intros _ s' (_ & Hs & _).
Defined.
