(* ===== verification/Plic.v ===== *)
(** drivers/plic.c: the interrupt controller. main.c has the call of
    [plic_init] commented out; [plic_claim] and [plic_complete] are called by
    the handler of external interrupts (Trap).

    The device is the class [Mmio]; [MmioLaws] is what its manual says of the
    registers other than the claim register: they hold what is written. *)
From S2P Require Import Prelude KMonad.

Definition PRIORITY_BASE : Z := 0.
Definition PRIORITY_PER_ID : Z := 4.
Definition ENABLE_BASE : Z := 0x2000.
Definition CONTEXT_BASE : Z := 0x200000.
Definition CONTEXT_THRESHOLD : Z := 0.
Definition CONTEXT_CLAIM : Z := 4.
Definition PLIC_E1000_PYNQ_IRQ : Z := 3.
Definition PLIC_E1000_QEMU_IRQ : Z := 33.

Class Mmio (P : Type) := {
  mm_readl : Z → P → Z * P;
  mm_writel : Z → Z → P → P
}.

(** [holds x a v]: reading [a] would give [v]. *)
Definition holds `{Mmio P} (x : P) (a v : Z) : Prop := (mm_readl a x).1 = v.

Class MmioLaws (P : Type) `{Mmio P} (plain : Z → Prop) : Prop := {
  mm_write_same a v x : plain a → 0 ≤ v < 2 ^ 32 → holds (mm_writel v a x) a v;
  mm_write_other a b v x w : plain a → plain b → a ≠ b → holds x b w → holds (mm_writel v a x) b w;
  mm_read_keeps a b x w : plain a → plain b → holds x b w → holds (mm_readl a x).2 b w;
  mm_read_range a x : plain a → 0 ≤ (mm_readl a x).1 < 2 ^ 32
}.

Section Plic.
Context {P : Type} `{!Mmio P}.

Record plic_state := mk_plic {
  present : bool; hart_base : Z; enable_base : Z; plic_regs : Z; plic_dev : P
}.
Definition upd_dev (x : P) (s : plic_state) : plic_state :=
  mk_plic (present s) (hart_base s) (enable_base s) (plic_regs s) x.

Definition readl (addr : Z) : M plic_state Z := λ s,
  let r := mm_readl addr (plic_dev s) in Ok r.1 (upd_dev r.2 s).
Definition writel (val addr : Z) : M plic_state unit := modify (λ s, upd_dev (mm_writel (u32 val) addr (plic_dev s)) s).

Definition plic_toggle (hwirq enable : Z) : M plic_state unit :=
  s ← get;
  let reg := enable_base s + Z.quot hwirq 32 * 4 in
  let hwirq_mask := u32 (Z.shiftl 1 (Z.rem hwirq 32)) in
  v ← readl reg;
  if negb (enable =? 0) then writel (Z.lor v hwirq_mask) reg
  else writel (Z.land v (u32 (Z.lnot hwirq_mask))) reg.

Definition plic_irq_unmask (hwirq : Z) : M plic_state unit :=
  s ← get;
  writel 1 (plic_regs s + PRIORITY_BASE + hwirq * PRIORITY_PER_ID);;
  if present s then plic_toggle hwirq 1 else mret ().

Definition plic_claim : M plic_state Z := s ← get; readl (hart_base s + CONTEXT_CLAIM).
Definition plic_complete (hwirq : Z) : M plic_state unit := s ← get; writel hwirq (hart_base s + CONTEXT_CLAIM).

Definition plic_init (plic_regs_addr : Z) (nr_irqs : nat) : M plic_state Z :=
  modify (λ s, mk_plic (present s) (hart_base s) (enable_base s) plic_regs_addr (plic_dev s));;
  s ← get;
  threshold ← (if present s then mret 0xffffffff else
    modify (λ s, mk_plic true (plic_regs s + CONTEXT_BASE) (plic_regs s + ENABLE_BASE) (plic_regs s) (plic_dev s));;
    mret 0);
  s ← get;
  writel threshold (hart_base s + CONTEXT_THRESHOLD);;
  for_ 1 nr_irqs (λ hwirq, plic_toggle (Z.of_nat hwirq) 0);;
  (if PLIC_E1000_QEMU_IRQ <? Z.of_nat nr_irqs + 1 then plic_irq_unmask PLIC_E1000_QEMU_IRQ
   else plic_irq_unmask PLIC_E1000_PYNQ_IRQ);;
  mret 0.

(** ** What [plic_init] leaves *)

(** The registers of the controller at [base], but for the claim register. *)
Definition plic_plain (base a : Z) : Prop := 0 ≤ a - base < CONTEXT_BASE + CONTEXT_CLAIM.

Context (base : Z) `{!MmioLaws P (plic_plain base)}.

(** The enable bit of source [i]. *)
Definition enabled (x : P) (i : Z) (b : bool) : Prop :=
  ∃ v, holds x (base + ENABLE_BASE + i / 32 * 4) v ∧ Z.testbit v (i mod 32) = b.

Record set_up (s : plic_state) : Prop := {
  su_present : present s = true;
  su_hart : hart_base s = base + CONTEXT_BASE;
  su_enable : enable_base s = base + ENABLE_BASE;
  su_regs : plic_regs s = base
}.

Definition MAX_DEVICES : Z := 1024.

Lemma enable_plain i : 0 ≤ i < MAX_DEVICES → plic_plain base (base + ENABLE_BASE + i / 32 * 4).
Proof.
  unfold MAX_DEVICES, plic_plain, ENABLE_BASE, CONTEXT_BASE, CONTEXT_CLAIM. intros.
  assert (0 ≤ i / 32 < 32) by (split; [apply Z.div_pos; lia|apply Z.div_lt_upper_bound; lia]). lia.
Qed.

Lemma mask_bit i j : 0 ≤ i < 32 → 0 ≤ j < 32 → Z.testbit (u32 (Z.shiftl 1 i)) j = (j =? i).
Proof.
  intros Hi Hj. rewrite u32_id.
  - rewrite Z.shiftl_1_l. rewrite Z.pow2_bits_eqb by lia. apply Z.eqb_sym.
  - rewrite Z.shiftl_1_l. split; [apply Z.pow_nonneg; lia|].
    change 4294967296 with (2 ^ 32). apply Z.pow_lt_mono_r; lia.
Qed.

(** Turning source [i] on or off turns nothing else on or off. *)
Lemma plic_toggle_ok s i (e : bool) : set_up s → 0 ≤ i < MAX_DEVICES →
  wp (plic_toggle i (if e then 1 else 0)) s (λ _ s', set_up s' ∧
    enabled (plic_dev s') i e ∧
    (∀ j b, 0 ≤ j < MAX_DEVICES → j ≠ i → enabled (plic_dev s) j b → enabled (plic_dev s') j b) ∧
    ∀ a w, plic_plain base a → (∀ j, 0 ≤ j < MAX_DEVICES → a ≠ base + ENABLE_BASE + j / 32 * 4) →
      holds (plic_dev s) a w → holds (plic_dev s') a w).
Proof.
  intros [H1 H2 H3 H4] Hi. unfold plic_toggle. rewrite wp_bind, wp_get, H3.
  rewrite Z.quot_div_nonneg, Z.rem_mod_nonneg by lia.
  set (a := base + ENABLE_BASE + i / 32 * 4). assert (plic_plain base a) as Ha by by apply enable_plain.
  set (r := mm_readl a (plic_dev s)). set (m := u32 (Z.shiftl 1 (i mod 32))).
  pose proof (Z.mod_pos_bound i 32 ltac:(lia)) as Hm.
  set (v := if e then Z.lor r.1 m else Z.land r.1 (u32 (Z.lnot m))).
  assert (wp (readl a) s (λ x s', x = r.1 ∧ s' = upd_dev r.2 s)) as Hr by done.
  assert (Hw : wp (v0 ← readl a; if negb ((if e then 1 else 0) =? 0) then writel (Z.lor v0 m) a
    else writel (Z.land v0 (u32 (Z.lnot m))) a) s (λ _ s', s' = upd_dev (mm_writel (u32 v) a r.2) s)).
  { rewrite wp_bind. eapply wp_mono; [exact Hr|]. intros ? ? [-> ->]. unfold writel. destruct e; simpl; by rewrite wp_modify. }
  eapply wp_mono; [exact Hw|]. intros _ s' ->. cbn [plic_dev upd_dev].
  assert (0 ≤ u32 v < 2 ^ 32) as Hv32 by apply u32_range.
  assert (Hbit : ∀ k, 0 ≤ k < 32 → Z.testbit (u32 v) k = if k =? i mod 32 then e else Z.testbit r.1 k).
  { intros k Hk. unfold u32 at 1. rewrite Z.mod_pow2_bits_low by lia. unfold v.
    pose proof (mask_bit (i mod 32) k ltac:(lia) Hk) as Hmk. fold m in Hmk. destruct e.
    - rewrite Z.lor_spec, Hmk. destruct (k =? i mod 32); [apply orb_true_r|apply orb_false_r].
    - rewrite Z.land_spec. unfold u32. rewrite Z.mod_pow2_bits_low, Z.lnot_spec, Hmk by lia.
      destruct (k =? i mod 32); [apply andb_false_r|apply andb_true_r]. }
  split; [split; done|split; [|split]].
  - exists (u32 v). split; [by apply mm_write_same|]. rewrite Hbit by lia. by rewrite Z.eqb_refl.
  - intros j b Hj Hne (w & Hw' & Hb). pose proof (Z.mod_pos_bound j 32 ltac:(lia)).
    destruct (decide (j / 32 = i / 32)) as [E|E].
    + exists (u32 v). unfold enabled. rewrite E. split; [by apply mm_write_same|]. rewrite Hbit by lia.
      destruct (Z.eqb_spec (j mod 32) (i mod 32)) as [Eq|_].
      * exfalso. apply Hne. rewrite (Z.div_mod j 32), (Z.div_mod i 32) by lia. by rewrite E, Eq.
      * rewrite E in Hw'. unfold holds in Hw'. fold a in Hw'. fold r in Hw'. by rewrite Hw'.
    + exists w. split; [|done]. apply mm_write_other; [done|by apply enable_plain|unfold a; lia|].
      apply mm_read_keeps; [done|by apply enable_plain|done].
  - intros b w Hb Hne Hh. apply mm_write_other; [done|done| |by apply mm_read_keeps].
    intros E. by apply (Hne i Hi).
Qed.

Lemma writel_ok s v a : plic_plain base a → 0 ≤ v < 2 ^ 32 →
  wp (writel v a) s (λ _ s', (set_up s → set_up s') ∧ holds (plic_dev s') a v ∧
    ∀ b w, plic_plain base b → a ≠ b → holds (plic_dev s) b w → holds (plic_dev s') b w).
Proof.
  intros Ha Hv. unfold writel. rewrite wp_modify. cbn [plic_dev upd_dev]. rewrite u32_id by lia.
  split; [by intros []|]. split; [by apply mm_write_same|]. intros. by apply mm_write_other.
Qed.

Lemma enabled_other x x' a i b : 0 ≤ i < MAX_DEVICES → a ≠ base + ENABLE_BASE + i / 32 * 4 →
  (∀ c w, plic_plain base c → a ≠ c → holds x c w → holds x' c w) →
  enabled x i b → enabled x' i b.
Proof. intros Hi Hne Hf (w & Hw & Hb). exists w. split; [|done]. apply Hf; [by apply enable_plain|done|done]. Qed.

Lemma priority_plain i : 0 ≤ i < MAX_DEVICES →
  plic_plain base (base + PRIORITY_BASE + i * PRIORITY_PER_ID) ∧
  ∀ j, 0 ≤ j < MAX_DEVICES → base + PRIORITY_BASE + i * PRIORITY_PER_ID ≠ base + ENABLE_BASE + j / 32 * 4.
Proof.
  unfold MAX_DEVICES, plic_plain, PRIORITY_BASE, PRIORITY_PER_ID, ENABLE_BASE, CONTEXT_BASE, CONTEXT_CLAIM.
  intros. split; [lia|]. intros j Hj. assert (0 ≤ j / 32) by (apply Z.div_pos; lia). lia.
Qed.

Lemma threshold_plain :
  plic_plain base (base + CONTEXT_BASE + CONTEXT_THRESHOLD) ∧
  (∀ j, 0 ≤ j < MAX_DEVICES → base + CONTEXT_BASE + CONTEXT_THRESHOLD ≠ base + ENABLE_BASE + j / 32 * 4) ∧
  ∀ i, 0 ≤ i < MAX_DEVICES → base + PRIORITY_BASE + i * PRIORITY_PER_ID ≠ base + CONTEXT_BASE + CONTEXT_THRESHOLD.
Proof.
  unfold plic_plain, MAX_DEVICES, PRIORITY_BASE, PRIORITY_PER_ID, ENABLE_BASE, CONTEXT_BASE, CONTEXT_THRESHOLD, CONTEXT_CLAIM.
  split; [lia|]. split; [|lia]. intros j Hj.
  assert (j / 32 < 32) by (apply Z.div_lt_upper_bound; lia). lia.
Qed.

(** Giving a source priority 1 and turning it on. *)
Lemma plic_irq_unmask_ok s i : set_up s → 0 ≤ i < MAX_DEVICES →
  wp (plic_irq_unmask i) s (λ _ s', set_up s' ∧
    holds (plic_dev s') (base + PRIORITY_BASE + i * PRIORITY_PER_ID) 1 ∧ enabled (plic_dev s') i true ∧
    (∀ j b, 0 ≤ j < MAX_DEVICES → j ≠ i → enabled (plic_dev s) j b → enabled (plic_dev s') j b) ∧
    (holds (plic_dev s) (base + CONTEXT_BASE + CONTEXT_THRESHOLD) 0 →
     holds (plic_dev s') (base + CONTEXT_BASE + CONTEXT_THRESHOLD) 0)).
Proof.
  intros Hs Hi. destruct (priority_plain i Hi) as [Hp Hpe]. destruct threshold_plain as (Ht & Hte & Htp).
  unfold plic_irq_unmask. rewrite wp_bind, wp_get, (su_regs _ Hs), (su_present _ Hs), wp_bind.
  eapply wp_mono; [apply (writel_ok s 1 (base + PRIORITY_BASE + i * PRIORITY_PER_ID)); [done|lia]|]. intros _ s1 (Hs1 & Hv & Hf).
  eapply wp_mono; [apply (plic_toggle_ok s1 i true); [by apply Hs1|done]|]. intros _ s2 (Hs2 & He & Ho & Hr).
  split; [done|]. split; [apply Hr; [done|by intros; apply Hpe|done]|]. split; [done|]. split.
  - intros j b Hj Hne Hb. apply Ho; [done|done|].
    eapply enabled_other; [done|by apply (Hpe j)|exact Hf|done].
  - intros Hth. apply Hr; [done|done|]. apply Hf; [done|by apply Htp|done].
Qed.

(** The initialisation of the controller: the threshold is 0, the network
    card's source (33 where there are that many, 3 otherwise) is on and has
    priority 1, and every other source is off. *)
Theorem plic_init_spec s n : present s = false → (Z.of_nat n < MAX_DEVICES) → (3 ≤ n)%nat →
  let irq := if PLIC_E1000_QEMU_IRQ <? Z.of_nat n + 1 then PLIC_E1000_QEMU_IRQ else PLIC_E1000_PYNQ_IRQ in
  wp (plic_init base n) s (λ r s', r = 0 ∧ set_up s' ∧
    holds (plic_dev s') (base + CONTEXT_BASE + CONTEXT_THRESHOLD) 0 ∧
    holds (plic_dev s') (base + PRIORITY_BASE + irq * PRIORITY_PER_ID) 1 ∧
    ∀ i, 1 ≤ i ≤ Z.of_nat n → enabled (plic_dev s') i (i =? irq)).
Proof.
  intros Hpr Hn Hn3 irq. destruct threshold_plain as (Ht & Hte & Htp).
  assert (1 ≤ irq < MAX_DEVICES ∧ irq ≤ Z.of_nat n) as [Hirq Hle].
  { unfold irq, PLIC_E1000_QEMU_IRQ, PLIC_E1000_PYNQ_IRQ, MAX_DEVICES. destruct (Z.ltb_spec 33 (Z.of_nat n + 1)); lia. }
  unfold plic_init. rewrite wp_bind, wp_modify, wp_bind, wp_get. cbn [present plic_regs]. rewrite Hpr.
  rewrite wp_bind, wp_bind, wp_modify, wp_ret, wp_bind, wp_get, wp_bind. cbn [plic_regs plic_dev hart_base].
  set (s0 := mk_plic _ _ _ _ _). assert (set_up s0) as H0 by done.
  eapply wp_mono; [apply (writel_ok s0 0 (base + CONTEXT_BASE + CONTEXT_THRESHOLD)); [done|lia]|].
  intros _ s1 (H1 & Hv & _). rewrite wp_bind.
  eapply wp_mono.
  - apply (wp_for (λ k s', set_up s' ∧ holds (plic_dev s') (base + CONTEXT_BASE + CONTEXT_THRESHOLD) 0 ∧
      ∀ i, 1 ≤ i < Z.of_nat k → enabled (plic_dev s') i false)).
    + split; [by apply H1|]. split; [done|]. intros i Hi. lia.
    + intros k t Hk (Hs & Hth & He). eapply wp_mono; [apply (plic_toggle_ok t (Z.of_nat k) false Hs); lia|].
      intros _ t' (Hs' & Hek & Ho & Hr). split; [done|]. split; [by apply Hr|].
      intros i Hi. destruct (decide (i = Z.of_nat k)) as [->|]; [done|]. apply Ho; [lia|done|]. apply He. lia.
  - intros _ t (Hs & Hth & He). rewrite wp_bind.
    assert (Hun : wp (plic_irq_unmask irq) t (λ _ s', set_up s' ∧
      holds (plic_dev s') (base + CONTEXT_BASE + CONTEXT_THRESHOLD) 0 ∧
      holds (plic_dev s') (base + PRIORITY_BASE + irq * PRIORITY_PER_ID) 1 ∧
      ∀ i, 1 ≤ i ≤ Z.of_nat n → enabled (plic_dev s') i (i =? irq))).
    { eapply wp_mono; [apply plic_irq_unmask_ok; [done|lia]|]. intros _ u (Hs' & Hp & Hen & Ho & Hku).
      split; [done|]. split; [by apply Hku|]. split; [done|]. intros i Hi.
      destruct (Z.eqb_spec i irq) as [->|]; [done|]. apply Ho; [lia|done|]. apply He. lia. }
    unfold irq in Hun |- *. destruct (_ <? _);
      (eapply wp_mono; [exact Hun|]; intros ? t' Hin; rewrite wp_ret; (split; [done|exact Hin])).
Qed.
End Plic.

(** ** A bank of registers *)

#[export] Instance bank_mmio : Mmio (Z → Z) := {
  mm_readl a x := (x a mod 2 ^ 32, x);
  mm_writel v a x := λ b, if decide (b = a) then v else x b
}.
#[export] Instance bank_laws base : MmioLaws (Z → Z) (plic_plain base).
Proof.
  split; unfold holds; simpl.
  - intros a v x _ Hv. rewrite decide_True by done. by rewrite Z.mod_small.
  - intros a b v x w _ _ Hne Hw. by rewrite decide_False.
  - done.
  - intros a x _. by apply Z.mod_pos_bound.
Qed.

Lemma plic_init_spec_witness :
  wp (plic_init 0xc000000 53) (mk_plic false 0 0 0 (λ _, 2 ^ 32 - 1)) (λ _ s',
    enabled 0xc000000 (plic_dev s') 33 true ∧ enabled 0xc000000 (plic_dev s') 10 false).
Proof.
  eapply wp_mono.
  - apply (plic_init_spec 0xc000000 (mk_plic false 0 0 0 (λ _, 2 ^ 32 - 1)) 53); [done|unfold MAX_DEVICES; lia|lia].
  - intros _ s' (_ & _ & _ & _ & He). split; [apply (He 33)|apply (He 10)]; lia.
Defined.
