(* ===== verification/Trap.v ===== *)
(** kernel/irq/irq.c, kernel/syscall/syscall.c and the entry code of
    arch/riscv/kernel/entry.S: from a trap of a user process into the kernel's
    functions and back.

    A call that gives the core away in the middle comes back when the process
    is scheduled again. It is a resumption: [Done] with its value, or [Switch]
    with the process that runs next and with what the caller does when it runs
    again, in whatever state the kernel is then. The kernel's functions are the
    class [KernelCalls]; Kernel.v has the instance. *)
From S2P Require Import Prelude KMonad KList Sched Workload Plic.

(** ** Resumptions *)

Inductive call (K A : Type) : Type :=
| Done (a : A)
| Switch (next : tcb) (resume : K → outcome K (call K A)).
Arguments Done {K A} a.
Arguments Switch {K A} next resume.

Definition CM (K A : Type) : Type := M K (call K A).

Definition cret {K A} (a : A) : CM K A := mret (Done a).

Fixpoint call_bind {K A B} (c : call K A) (k : A → CM K B) : CM K B :=
  match c with
  | Done a => k a
  | Switch next r => mret (Switch next (λ s,
      match r s with
      | Ok c' s' => call_bind c' k s'
      | Exit s' => Exit s'
      | Stuck => Stuck
      end))
  end.

Definition cbind {K A B} (m : CM K A) (k : A → CM K B) : CM K B := λ s,
  match m s with
  | Ok c s' => call_bind c k s'
  | Exit s' => Exit s'
  | Stuck => Stuck
  end.

(** What does not give the core away. *)
Definition lift {K A} (m : M K A) : CM K A := λ s,
  match m s with
  | Ok a s' => Ok (Done a) s'
  | Exit s' => Exit s'
  | Stuck => Stuck
  end.

Declare Scope call_scope.
Delimit Scope call_scope with call.
Notation "x ⇐ m ; k" := (cbind m (λ x, k)) (at level 100, m at next level, k at level 200, right associativity) : call_scope.
Notation "m ⨾ k" := (cbind m (λ _, k)) (at level 100, k at level 200, right associativity) : call_scope.

(** [ends others o r s]: a call that has come to [o] ends in state [s] with the
    value [r], or by the exit of its process ([None]). While the process does
    not run the state changes by [others]. *)
Inductive ends {K A} (others : K → K → Prop) : outcome K (call K A) → option A → K → Prop :=
| ends_done a s : ends others (Ok (Done a) s) (Some a) s
| ends_exit s : ends others (Exit s) None s
| ends_switch next r s s' v s'' :
    others s s' → ends others (r s') v s'' → ends others (Ok (Switch next r) s) v s''.
#[export] Hint Constructors ends : call.

Section Resume.
Context {K : Type} (others : K → K → Prop).

Lemma ends_ret {A} (a : A) s r s' : ends others (cret a s) r s' ↔ r = Some a ∧ s' = s.
Proof.
  split; [|intros [-> ->]; constructor].
  intros H. by inversion H; subst.
Qed.

Lemma ends_lift {A} (m : M K A) s r s' :
  ends others (lift m s) r s' ↔
  (∃ a, m s = Ok a s' ∧ r = Some a) ∨ (m s = Exit s' ∧ r = None).
Proof.
  unfold lift. split.
  - destruct (m s) as [a t|t|]; intros H; inversion H; subst; eauto.
  - intros [(a & -> & ->)|(-> & ->)]; constructor.
Qed.

Lemma ends_stuck {A} (r : option A) s : ¬ ends others Stuck r s.
Proof. intros H. inversion H. Qed.

(** The outcome of [m] followed by [k]. *)
Definition and_then {A B} (o : outcome K (call K A)) (k : A → CM K B) : outcome K (call K B) :=
  match o with
  | Ok c s => call_bind c k s
  | Exit s => Exit s
  | Stuck => Stuck
  end.

Lemma ends_and_then_1 {A B} (k : A → CM K B) o r s :
  ends others o r s → ∀ v s',
  match r with Some a => ends others (k a s) v s' | None => v = None ∧ s' = s end →
  ends others (and_then o k) v s'.
Proof.
  induction 1 as [a s|s|next f s s1 r s2 Ho _ IH]; simpl; intros v s' Hv.
  - done.
  - destruct Hv as [-> ->]. constructor.
  - econstructor; [done|]. by apply IH.
Qed.

Lemma ends_and_then_2 {A B} (k : A → CM K B) o' v s' :
  ends others o' v s' → ∀ o, o' = and_then o k →
  (∃ a s, ends others o (Some a) s ∧ ends others (k a s) v s') ∨
  (v = None ∧ ends others o None s').
Proof.
  assert (Hdone : ∀ (o : outcome K (call K A)) a s v s', o = Ok (Done a) s → ends others (k a s) v s' →
    ∃ a s, ends others o (Some a) s ∧ ends others (k a s) v s').
  { intros o a s w t -> ?. exists a, s. split; [constructor|done]. }
  induction 1 as [b s|s|next f s s1 v s2 Ho Hf IH]; intros o Heq;
    destruct o as [[a|next' g] t|t|]; cbv [and_then call_bind mret M_ret] in Heq; simplify_eq.
  - left. eapply Hdone; [done|]. rewrite <- Heq. constructor.
  - left. eapply Hdone; [done|]. rewrite <- Heq. constructor.
  - right. split; [done|constructor].
  - left. eapply Hdone; [done|]. rewrite <- Heq. by econstructor.
  - destruct (IH (g s1) eq_refl) as [(a & u & ? & ?)|[-> ?]].
    + left. exists a, u. split; [by econstructor|done].
    + right. split; [done|by econstructor].
Qed.

Lemma ends_bind {A B} (m : CM K A) (k : A → CM K B) s v s' :
  ends others (cbind m k s) v s' ↔
  (∃ a t, ends others (m s) (Some a) t ∧ ends others (k a t) v s') ∨
  (v = None ∧ ends others (m s) None s').
Proof.
  change (cbind m k s) with (and_then (m s) k). split.
  - intros H. by eapply ends_and_then_2.
  - intros [(a & t & ? & ?)|[-> ?]]; by eapply ends_and_then_1.
Qed.

(** A value that is only transformed. *)
Lemma ends_map {A B} (m : CM K A) (f : A → B) s v s' :
  ends others (cbind m (λ a, cret (f a)) s) v s' ↔ ∃ w, ends others (m s) w s' ∧ v = f <$> w.
Proof.
  rewrite ends_bind. setoid_rewrite ends_ret. split.
  - intros [(a & t & ? & -> & ->)|[-> ?]]; [by exists (Some a)|by exists None].
  - intros ([a|] & ? & ->); [left; by exists a, s'|by right].
Qed.

Lemma ends_bind_lift {A B} (m : M K A) (k : A → CM K B) s a t v s' :
  m s = Ok a t → ends others (cbind (lift m) k s) v s' ↔ ends others (k a t) v s'.
Proof. intros Hm. unfold cbind, lift. by rewrite Hm. Qed.
End Resume.

(** ** Values that cross the interface *)

(** The C types of the parameters and results. *)
Inductive ctype := TVoid | TInt | TUInt | TLong | TULong | TPtr.
#[export] Instance ctype_eq_dec : EqDecision ctype.
Proof. solve_decision. Defined.

(** Conversion to a type; the type of a function without a value says nothing
    about what is left in the register. *)
Definition cast (t : ctype) (z : Z) : Z :=
  match t with
  | TInt => s32 z
  | TUInt => u32 z
  | TLong => s64 z
  | TVoid | TULong | TPtr => u64 z
  end.

Definition of_type (t : ctype) (z : Z) : Prop :=
  match t with
  | TInt => -2 ^ 31 ≤ z < 2 ^ 31
  | TUInt => 0 ≤ z < 2 ^ 32
  | TLong => -2 ^ 63 ≤ z < 2 ^ 63
  | TVoid | TULong | TPtr => 0 ≤ z < 2 ^ 64
  end.

(** ** The system call table *)

(** The functions of the kernel that the table points to. *)
Inductive handler :=
| h_do_exec | h_do_exit | h_do_sleep | h_do_kill | h_do_waitpid | h_do_process_show
| h_do_getpid | h_do_scheduler | h_do_set_sche_workload | h_bios_getchar
| h_screen_write | h_screen_move_cursor | h_screen_reflush | h_screen_clear
| h_get_time_base | h_get_ticks
| h_do_mutex_lock_init | h_do_mutex_lock_acquire | h_do_mutex_lock_release
| h_do_barrier_init | h_do_barrier_wait | h_do_barrier_destroy
| h_do_condition_init | h_do_condition_wait | h_do_condition_signal
| h_do_condition_broadcast | h_do_condition_destroy
| h_do_mbox_open | h_do_mbox_close | h_do_mbox_send | h_do_mbox_recv
| h_do_taskset | h_do_thread_create | h_do_thread_join
| h_shm_page_get | h_shm_page_dt | h_get_free_memory
| h_sys_pipe_open | h_sys_pipe_give_pages | h_sys_pipe_take_pages
| h_list_tasks
| h_do_net_send | h_do_net_recv | h_do_net_recv_stream | h_do_reset_stream
| h_do_mkfs | h_do_statfs | h_do_cd | h_do_mkdir | h_do_rmdir | h_do_ls
| h_do_open | h_do_read | h_do_write | h_do_close | h_do_ln | h_do_rm | h_do_lseek.
#[export] Instance handler_eq_dec : EqDecision handler.
Proof. solve_decision. Defined.

(** Their parameters and results, as they are declared. *)
Definition proto (h : handler) : list ctype * ctype :=
  match h with
  | h_do_exec => ([TPtr; TInt; TPtr], TInt)
  | h_do_exit | h_do_process_show | h_do_scheduler | h_screen_reflush | h_screen_clear
  | h_list_tasks | h_do_reset_stream => ([], TVoid)
  | h_do_sleep => ([TUInt], TVoid)
  | h_do_kill | h_do_waitpid | h_do_thread_join => ([TInt], TInt)
  | h_do_getpid | h_bios_getchar | h_do_mkfs | h_do_statfs => ([], TInt)
  | h_do_set_sche_workload => ([TInt], TVoid)
  | h_screen_write => ([TPtr], TVoid)
  | h_screen_move_cursor => ([TInt; TInt], TVoid)
  | h_get_time_base | h_get_ticks => ([], TULong)
  | h_do_mutex_lock_init | h_do_condition_init => ([TInt], TInt)
  | h_do_mutex_lock_acquire | h_do_mutex_lock_release | h_do_barrier_wait | h_do_barrier_destroy
  | h_do_condition_signal | h_do_condition_broadcast | h_do_condition_destroy
  | h_do_mbox_close => ([TInt], TVoid)
  | h_do_barrier_init => ([TInt; TInt], TInt)
  | h_do_condition_wait => ([TInt; TInt], TVoid)
  | h_do_mbox_open | h_sys_pipe_open | h_do_cd | h_do_mkdir | h_do_rmdir | h_do_rm => ([TPtr], TInt)
  | h_do_mbox_send | h_do_mbox_recv => ([TInt; TPtr; TInt], TInt)
  | h_do_taskset => ([TInt; TPtr; TInt; TInt; TPtr], TVoid)
  | h_do_thread_create => ([TULong; TULong; TInt], TInt)
  | h_shm_page_get => ([TInt], TULong)
  | h_shm_page_dt => ([TULong], TVoid)
  | h_get_free_memory => ([], TLong)
  | h_sys_pipe_give_pages | h_sys_pipe_take_pages => ([TInt; TPtr; TULong], TLong)
  | h_do_net_send => ([TPtr; TInt], TInt)
  | h_do_net_recv => ([TPtr; TInt; TPtr], TInt)
  | h_do_net_recv_stream | h_do_ln => ([TPtr; TPtr], TInt)
  | h_do_ls | h_do_open => ([TPtr; TInt], TInt)
  | h_do_read | h_do_write => ([TInt; TPtr; TInt], TInt)
  | h_do_close => ([TInt], TInt)
  | h_do_lseek => ([TInt; TInt; TInt], TInt)
  end.

(** ** arch/riscv/include/asm/unistd.h *)

Definition SYSCALL_EXEC : Z := 0.
Definition SYSCALL_EXIT : Z := 1.
Definition SYSCALL_SLEEP : Z := 2.
Definition SYSCALL_KILL : Z := 3.
Definition SYSCALL_WAITPID : Z := 4.
Definition SYSCALL_PS : Z := 5.
Definition SYSCALL_GETPID : Z := 6.
Definition SYSCALL_YIELD : Z := 7.
Definition SYSCALL_WRITE : Z := 20.
Definition SYSCALL_READCH : Z := 21.
Definition SYSCALL_CURSOR : Z := 22.
Definition SYSCALL_REFLUSH : Z := 23.
Definition SYSCALL_CLEAR : Z := 24.
Definition SYSCALL_GET_TIMEBASE : Z := 30.
Definition SYSCALL_GET_TICK : Z := 31.
Definition SYSCALL_LOCK_INIT : Z := 40.
Definition SYSCALL_LOCK_ACQ : Z := 41.
Definition SYSCALL_LOCK_RELEASE : Z := 42.
Definition SYSCALL_SHOW_TASK : Z := 43.
Definition SYSCALL_BARR_INIT : Z := 44.
Definition SYSCALL_BARR_WAIT : Z := 45.
Definition SYSCALL_BARR_DESTROY : Z := 46.
Definition SYSCALL_COND_INIT : Z := 47.
Definition SYSCALL_COND_WAIT : Z := 48.
Definition SYSCALL_COND_SIGNAL : Z := 49.
Definition SYSCALL_COND_BROADCAST : Z := 50.
Definition SYSCALL_COND_DESTROY : Z := 51.
Definition SYSCALL_MBOX_OPEN : Z := 52.
Definition SYSCALL_MBOX_CLOSE : Z := 53.
Definition SYSCALL_MBOX_SEND : Z := 54.
Definition SYSCALL_MBOX_RECV : Z := 55.
Definition SYSCALL_SHM_GET : Z := 56.
Definition SYSCALL_SHM_DT : Z := 57.
Definition SYSCALL_FREE_MEM : Z := 58.
Definition SYSCALL_PIPE_OPEN : Z := 59.
Definition SYSCALL_PIPE_GIVE : Z := 60.
Definition SYSCALL_PIPE_TAKE : Z := 61.
Definition SYSCALL_NET_SEND : Z := 63.
Definition SYSCALL_NET_RECV : Z := 64.
Definition SYSCALL_FS_MKFS : Z := 65.
Definition SYSCALL_FS_STATFS : Z := 66.
Definition SYSCALL_FS_CD : Z := 67.
Definition SYSCALL_FS_MKDIR : Z := 68.
Definition SYSCALL_FS_RMDIR : Z := 69.
Definition SYSCALL_FS_LS : Z := 70.
Definition SYSCALL_FS_TOUCH : Z := 71.
Definition SYSCALL_FS_CAT : Z := 72.
Definition SYSCALL_FS_OPEN : Z := 73.
Definition SYSCALL_FS_READ : Z := 74.
Definition SYSCALL_FS_WRITE : Z := 75.
Definition SYSCALL_FS_CLOSE : Z := 76.
Definition SYSCALL_FS_LN : Z := 77.
Definition SYSCALL_FS_RM : Z := 78.
Definition SYSCALL_FS_LSEEK : Z := 79.
Definition SYSCALL_NET_RECV_STREAM : Z := 90.
Definition SYSCALL_RESET_STREAM : Z := 91.
Definition SYSCALL_SET_SCHE_WORKLOAD : Z := 92.
Definition SYSCALL_TASKSET : Z := 93.
Definition SYSCALL_THREAD_CREATE : Z := 94.
Definition SYSCALL_THREAD_JOIN : Z := 95.

Definition NUM_SYSCALLS : Z := 96.

(** [syscall[no] = h] *)
Definition put {H} (no : Z) (h : H) (t : list (option H)) : list (option H) :=
  <[Z.to_nat no := Some h]> t.

Definition init_syscall (t : list (option handler)) : list (option handler) :=
  let t := put SYSCALL_EXEC h_do_exec t in
  let t := put SYSCALL_EXIT h_do_exit t in
  let t := put SYSCALL_SLEEP h_do_sleep t in
  let t := put SYSCALL_KILL h_do_kill t in
  let t := put SYSCALL_WAITPID h_do_waitpid t in
  let t := put SYSCALL_PS h_do_process_show t in
  let t := put SYSCALL_GETPID h_do_getpid t in
  let t := put SYSCALL_YIELD h_do_scheduler t in
  let t := put SYSCALL_SET_SCHE_WORKLOAD h_do_set_sche_workload t in
  let t := put SYSCALL_READCH h_bios_getchar t in
  let t := put SYSCALL_WRITE h_screen_write t in
  let t := put SYSCALL_CURSOR h_screen_move_cursor t in
  let t := put SYSCALL_REFLUSH h_screen_reflush t in
  let t := put SYSCALL_CLEAR h_screen_clear t in
  let t := put SYSCALL_GET_TIMEBASE h_get_time_base t in
  let t := put SYSCALL_GET_TICK h_get_ticks t in
  let t := put SYSCALL_LOCK_INIT h_do_mutex_lock_init t in
  let t := put SYSCALL_LOCK_ACQ h_do_mutex_lock_acquire t in
  let t := put SYSCALL_LOCK_RELEASE h_do_mutex_lock_release t in
  let t := put SYSCALL_BARR_INIT h_do_barrier_init t in
  let t := put SYSCALL_BARR_WAIT h_do_barrier_wait t in
  let t := put SYSCALL_BARR_DESTROY h_do_barrier_destroy t in
  let t := put SYSCALL_COND_INIT h_do_condition_init t in
  let t := put SYSCALL_COND_WAIT h_do_condition_wait t in
  let t := put SYSCALL_COND_SIGNAL h_do_condition_signal t in
  let t := put SYSCALL_COND_BROADCAST h_do_condition_broadcast t in
  let t := put SYSCALL_COND_DESTROY h_do_condition_destroy t in
  let t := put SYSCALL_MBOX_OPEN h_do_mbox_open t in
  let t := put SYSCALL_MBOX_CLOSE h_do_mbox_close t in
  let t := put SYSCALL_MBOX_SEND h_do_mbox_send t in
  let t := put SYSCALL_MBOX_RECV h_do_mbox_recv t in
  let t := put SYSCALL_TASKSET h_do_taskset t in
  let t := put SYSCALL_THREAD_CREATE h_do_thread_create t in
  let t := put SYSCALL_THREAD_JOIN h_do_thread_join t in
  let t := put SYSCALL_SHM_GET h_shm_page_get t in
  let t := put SYSCALL_SHM_DT h_shm_page_dt t in
  let t := put SYSCALL_FREE_MEM h_get_free_memory t in
  let t := put SYSCALL_PIPE_OPEN h_sys_pipe_open t in
  let t := put SYSCALL_PIPE_GIVE h_sys_pipe_give_pages t in
  let t := put SYSCALL_PIPE_TAKE h_sys_pipe_take_pages t in
  let t := put SYSCALL_SHOW_TASK h_list_tasks t in
  let t := put SYSCALL_NET_SEND h_do_net_send t in
  let t := put SYSCALL_NET_RECV h_do_net_recv t in
  let t := put SYSCALL_NET_RECV_STREAM h_do_net_recv_stream t in
  let t := put SYSCALL_RESET_STREAM h_do_reset_stream t in
  let t := put SYSCALL_FS_MKFS h_do_mkfs t in
  let t := put SYSCALL_FS_STATFS h_do_statfs t in
  let t := put SYSCALL_FS_CD h_do_cd t in
  let t := put SYSCALL_FS_MKDIR h_do_mkdir t in
  let t := put SYSCALL_FS_RMDIR h_do_rmdir t in
  let t := put SYSCALL_FS_LS h_do_ls t in
  let t := put SYSCALL_FS_OPEN h_do_open t in
  let t := put SYSCALL_FS_READ h_do_read t in
  let t := put SYSCALL_FS_WRITE h_do_write t in
  let t := put SYSCALL_FS_CLOSE h_do_close t in
  let t := put SYSCALL_FS_LN h_do_ln t in
  let t := put SYSCALL_FS_RM h_do_rm t in
  let t := put SYSCALL_FS_LSEEK h_do_lseek t in
  t.

(** The table, which is 0 before [init_syscall]. *)
Definition syscall : list (option handler) := init_syscall (replicate (Z.to_nat NUM_SYSCALLS) None).

(** ** Traps *)

Definition EXCC_INST_MISALIGNED : Z := 0.
Definition EXCC_INST_ACCESS : Z := 1.
Definition EXCC_BREAKPOINT : Z := 3.
Definition EXCC_LOAD_ACCESS : Z := 5.
Definition EXCC_STORE_ACCESS : Z := 7.
Definition EXCC_SYSCALL : Z := 8.
Definition EXCC_INST_PAGE_FAULT : Z := 12.
Definition EXCC_LOAD_PAGE_FAULT : Z := 13.
Definition EXCC_STORE_PAGE_FAULT : Z := 15.
Definition EXCC_COUNT : Z := 16.
Definition IRQC_U_SOFT : Z := 0.
Definition IRQC_S_SOFT : Z := 1.
Definition IRQC_M_SOFT : Z := 3.
Definition IRQC_U_TIMER : Z := 4.
Definition IRQC_S_TIMER : Z := 5.
Definition IRQC_M_TIMER : Z := 7.
Definition IRQC_U_EXT : Z := 8.
Definition IRQC_S_EXT : Z := 9.
Definition IRQC_M_EXT : Z := 11.
Definition IRQC_COUNT : Z := 12.
Definition SCAUSE_IRQ_FLAG : Z := Z.shiftl 1 63.

Inductive trap_handler :=
| t_handle_other | t_handle_syscall | t_handle_page_fault | t_handle_irq_timer | t_handle_irq_ext.

(** [init_exception] up to its call of [setup_exception]. *)
Definition init_exc_table (t : list (option trap_handler)) : list (option trap_handler) :=
  let t := put EXCC_INST_MISALIGNED t_handle_other t in
  let t := put EXCC_INST_ACCESS t_handle_other t in
  let t := put EXCC_BREAKPOINT t_handle_other t in
  let t := put EXCC_LOAD_ACCESS t_handle_other t in
  let t := put EXCC_STORE_ACCESS t_handle_other t in
  let t := put EXCC_SYSCALL t_handle_syscall t in
  let t := put EXCC_INST_PAGE_FAULT t_handle_page_fault t in
  let t := put EXCC_LOAD_PAGE_FAULT t_handle_page_fault t in
  let t := put EXCC_STORE_PAGE_FAULT t_handle_page_fault t in
  t.
Definition init_irq_table (t : list (option trap_handler)) : list (option trap_handler) :=
  let t := put IRQC_U_SOFT t_handle_other t in
  let t := put IRQC_S_SOFT t_handle_other t in
  let t := put IRQC_M_SOFT t_handle_other t in
  let t := put IRQC_U_TIMER t_handle_other t in
  let t := put IRQC_S_TIMER t_handle_irq_timer t in
  let t := put IRQC_M_TIMER t_handle_other t in
  let t := put IRQC_U_EXT t_handle_other t in
  let t := put IRQC_S_EXT t_handle_irq_ext t in
  let t := put IRQC_M_EXT t_handle_other t in
  t.

Definition exc_table : list (option trap_handler) := init_exc_table (replicate (Z.to_nat EXCC_COUNT) None).
Definition irq_table : list (option trap_handler) := init_irq_table (replicate (Z.to_nat IRQC_COUNT) None).

(** The registers that a trap saves. *)
Record regs_context_t := mk_regs {
  regs : list Z; sstatus : Z; sepc : Z; sbadaddr : Z; scause : Z
}.
Definition reg (r : regs_context_t) (i : nat) : Z := default 0 (regs r !! i).
Definition set_gpr (i : nat) (v : Z) (r : regs_context_t) : regs_context_t :=
  mk_regs (<[i := v]> (regs r)) (sstatus r) (sepc r) (sbadaddr r) (scause r).
Definition set_sepc (v : Z) (r : regs_context_t) : regs_context_t :=
  mk_regs (regs r) (sstatus r) v (sbadaddr r) (scause r).

(** What the trap handlers call: [kc_fn h args] is the function [h] on
    arguments of its parameter types; its value is of its result type. *)
Class KernelCalls (K : Type) := {
  kc_fn : handler → list Z → CM K Z;
  kc_killed : K → Z;
  kc_exit : M K tcb;
  kc_page_fault : Z → M K unit;
  kc_set_timer : Z → M K unit;
  kc_plic_claim : M K Z;
  kc_plic_complete : Z → M K unit;
  kc_net_irq : M K unit
}.

Section Handlers.
Context {K : Type} `{!KernelCalls K}.

(** A call through a function pointer without a prototype: the arguments are
    five registers, of which the function takes its parameters, and the value
    is the register [a0]. *)
Definition call_handler (h : handler) (args : list Z) : CM K Z :=
  (v ⇐ kc_fn h (zip_with cast (proto h).1 args); cret (u64 v))%call.

(** An index out of the table, or of an entry that was never set, is a call of
    some other address. *)
Definition handle_syscall (r : regs_context_t) : CM K regs_context_t :=
  let r := set_sepc (u64 (sepc r + 4)) r in
  match arr_get syscall (reg r 17) with
  | Some (Some h) =>
      (a0 ⇐ call_handler h [reg r 10; reg r 11; reg r 12; reg r 13; reg r 14];
       cret (set_gpr 10 a0 r))%call
  | _ => lift stuck
  end.

Definition handle_irq_timer : CM K unit :=
  (ticks ⇐ kc_fn h_get_ticks [];
   lift (kc_set_timer (u64 (ticks + TIMER_INTERVAL))) ⨾
   kc_fn h_do_scheduler [] ⨾
   cret tt)%call.

(** [handle_other] prints the registers and fails an assertion, which does not
    return. *)
Definition handle_other {A} : CM K A := lift stuck.

Definition handle_irq_ext : CM K unit :=
  lift (id ← kc_plic_claim;
    (if (id =? PLIC_E1000_PYNQ_IRQ) || (id =? PLIC_E1000_QEMU_IRQ) then kc_net_irq else stuck);;
    kc_plic_complete id).

Definition run_handler (h : trap_handler) (r : regs_context_t) (stval : Z) : CM K regs_context_t :=
  match h with
  | t_handle_other => handle_other
  | t_handle_syscall => handle_syscall r
  | t_handle_page_fault => (lift (kc_page_fault stval) ⨾ cret r)%call
  | t_handle_irq_timer => (handle_irq_timer ⨾ cret r)%call
  | t_handle_irq_ext => (handle_irq_ext ⨾ cret r)%call
  end.

Definition dispatch (t : list (option trap_handler)) (i : Z) (r : regs_context_t) (stval : Z) : CM K regs_context_t :=
  match arr_get t i with
  | Some (Some h) => run_handler h r stval
  | _ => lift stuck
  end.

(** [interrupt_helper]; [do_exit] does not come back. *)
Definition interrupt_helper (r : regs_context_t) (stval cause : Z) : CM K regs_context_t :=
  (k ⇐ lift (gets kc_killed);
   (if negb (k =? 0) then lift (kc_exit;; exit_process) else cret tt) ⨾
   if negb (Z.land cause SCAUSE_IRQ_FLAG =? 0)
   then dispatch irq_table (Z.land cause (u64 (Z.lnot SCAUSE_IRQ_FLAG))) r stval
   else dispatch exc_table cause r stval)%call.

(** ** arch/riscv/kernel/entry.S *)

(** A core as a process in user mode sees it, and where a trap of the process
    saves it: the context on its kernel stack and [user_sp] of its control
    block. *)
Record hart := mk_hart { gpr : list Z; pc : Z; h_sstatus : Z }.
Record thread := mk_thread { th_context : regs_context_t; th_user_sp : Z }.

Definition SR_SUM : Z := 0x40000.
Definition SP : nat := 2.

(** The slot of [sp] in the context is not written. *)
Definition SAVE_CONTEXT (h : hart) (epc stval cause : Z) (t : thread) : thread :=
  mk_thread
    (mk_regs (<[SP := reg (th_context t) SP]> (gpr h)) (Z.lor (h_sstatus h) SR_SUM) epc stval cause)
    (default 0 (gpr h !! SP)).

(** [RESTORE_CONTEXT] and [sret]; register 0 is always 0. *)
Definition RESTORE_CONTEXT (t : thread) : hart :=
  mk_hart (<[0%nat := 0]> (<[SP := th_user_sp t]> (regs (th_context t)))) (sepc (th_context t)) (sstatus (th_context t)).

(** A trap in user mode: the hardware saves [pc] and gives the cause, and
    [exception_handler_entry] and [ret_from_exception] run, in the big kernel
    lock (Smp). *)
Definition trap (stval cause : Z) (h : hart) (t : thread) : CM K (hart * thread) :=
  let t := SAVE_CONTEXT h (pc h) stval cause t in
  (r ⇐ interrupt_helper (th_context t) stval cause;
   let t := mk_thread r (th_user_sp t) in
   cret (RESTORE_CONTEXT t, t))%call.
Definition ecall : hart → thread → CM K (hart * thread) := trap 0 EXCC_SYSCALL.
End Handlers.

(** ** Values *)

Lemma mod_add_mod a b n m : 0 < n → 0 < m → (a mod (n * m) + b) mod n = (a + b) mod n.
Proof.
  intros Hn Hm. rewrite <- (Zplus_mod_idemp_l (a mod (n * m))).
  rewrite <- Znumtheory.Zmod_div_mod; [by rewrite Zplus_mod_idemp_l|done|lia|]. by exists m; lia.
Qed.

Lemma s32_u64 z : s32 (u64 z) = s32 z.
Proof. unfold s32, u64. change (2 ^ 64) with (2 ^ 32 * 2 ^ 32). by rewrite mod_add_mod. Qed.
Lemma u32_u64 z : u32 (u64 z) = u32 z.
Proof.
  unfold u32, u64. change (2 ^ 64) with (2 ^ 32 * 2 ^ 32).
  pose proof (mod_add_mod z 0 (2 ^ 32) (2 ^ 32)) as H. rewrite !Z.add_0_r in H. by apply H.
Qed.
Lemma s64_u64 z : s64 (u64 z) = s64 z.
Proof. unfold s64, u64. by rewrite Zplus_mod_idemp_l. Qed.
Lemma u64_u64 z : u64 (u64 z) = u64 z.
Proof. unfold u64. by rewrite Z.mod_mod. Qed.
Lemma u64_s64 z : u64 (s64 z) = u64 z.
Proof.
  unfold s64, u64. rewrite Zminus_mod_idemp_l. f_equal. lia.
Qed.
Lemma s32_s64 z : s32 (s64 z) = s32 z.
Proof. by rewrite <- s32_u64, u64_s64, s32_u64. Qed.

Lemma cast_id t z : of_type t z → cast t z = z.
Proof.
  destruct t; simpl of_type; intros; simpl cast;
    first [apply u64_id|apply s32_id|apply u32_id|apply s64_id]; lia.
Qed.

(** Only the 64 bits of a register count. *)
Lemma cast_u64 t z : cast t (u64 z) = cast t z.
Proof. destruct t; [apply u64_u64|apply s32_u64|apply u32_u64|apply s64_u64|apply u64_u64|apply u64_u64]. Qed.
Lemma cast_s64 t z : cast t (s64 z) = cast t z.
Proof. by rewrite <- cast_u64, u64_s64, cast_u64. Qed.
Lemma cast_of_type t z : of_type t (cast t z).
Proof.
  destruct t; simpl; unfold s32, s64, u32, u64;
    match goal with |- context [?a mod ?b] => pose proof (Z.mod_pos_bound a b) end; lia.
Qed.

(** ** What a trap does *)

Record hart_ok (h : hart) : Prop := {
  ho_len : length (gpr h) = 32%nat;
  ho_zero : gpr h !! 0%nat = Some 0
}.

Section Spec.
Context {K : Type} `{!KernelCalls K} (others : K → K → Prop).

Lemma interrupt_helper_alive s r stval cause : kc_killed s = 0 →
  interrupt_helper r stval cause s =
  (if negb (Z.land cause SCAUSE_IRQ_FLAG =? 0)
   then dispatch irq_table (Z.land cause (u64 (Z.lnot SCAUSE_IRQ_FLAG))) r stval
   else dispatch exc_table cause r stval) s.
Proof.
  intros Hk. unfold interrupt_helper. unfold cbind at 1, lift at 1, gets. cbn [call_bind].
  by rewrite Hk.
Qed.

(** A process that was killed does not come back. *)
Lemma interrupt_helper_killed s r stval cause v s' : kc_killed s ≠ 0 →
  ends others (interrupt_helper r stval cause s) v s' → v = None.
Proof.
  intros Hk. unfold interrupt_helper. rewrite (ends_bind_lift others _ _ s (kc_killed s) s) by done.
  destruct (Z.eqb_spec (kc_killed s) 0); [done|]. simpl negb. cbv iota. rewrite ends_bind.
  intros [(a & u & Ha & _)|[-> _]]; [exfalso|done]. revert Ha. rewrite ends_lift.
  intros [(b & Hb & _)|[_ ?]]; [|done]. revert Hb. unfold mbind, M_bind. by destruct (kc_exit s).
Qed.

(** The registers come back, whatever the slot of [sp] holds. *)
Lemma restore_gpr h o sp : hart_ok h → gpr h !! SP = Some sp →
  <[0%nat := 0]> (<[SP := sp]> (<[SP := o]> (gpr h))) = gpr h.
Proof.
  intros [_ Hz] Hsp. rewrite list_insert_insert_eq, !list_insert_id; [done|done|].
  by rewrite list_insert_id.
Qed.
Lemma restore_a0 h o sp a : hart_ok h → gpr h !! SP = Some sp →
  <[0%nat := 0]> (<[SP := sp]> (<[10%nat := a]> (<[SP := o]> (gpr h)))) = <[10%nat := a]> (gpr h).
Proof.
  intros Hh Hsp. rewrite (list_insert_insert_ne _ SP 10) by done.
  rewrite (list_insert_insert_ne _ 0 10) by done. by rewrite (restore_gpr _ _ sp).
Qed.

Lemma hart_sp h : hart_ok h → gpr h !! SP = Some (default 0 (gpr h !! SP)).
Proof.
  intros [Hl _]. destruct (lookup_lt_is_Some_2 (gpr h) SP) as [sp ->]; [rewrite Hl; unfold SP; lia|done].
Qed.

(** Every handler but that of system calls leaves the context alone. *)
Lemma run_handler_same hd r stval s v s' : hd ≠ t_handle_syscall →
  ends others (run_handler hd r stval s) (Some v) s' → v = r.
Proof.
  intros Hne. destruct hd; simpl; [|done|..].
  - by intros [(a & Ha & _)|[Ha _]]%ends_lift.
  - rewrite ends_map. by intros ([] & _ & [= ->]).
  - rewrite ends_map. by intros ([] & _ & [= ->]).
  - rewrite ends_map. by intros ([] & _ & [= ->]).
Qed.

Lemma dispatch_same tbl i r stval s v s' : arr_get tbl i ≠ Some (Some t_handle_syscall) →
  ends others (dispatch tbl i r stval s) (Some v) s' → v = r.
Proof.
  unfold dispatch. intros Hne. destruct (arr_get tbl i) as [[hd|]|] eqn:E.
  - apply run_handler_same. congruence.
  - by intros [(a & Ha & _)|[Ha _]]%ends_lift.
  - by intros [(a & Ha & _)|[Ha _]]%ends_lift.
Qed.

Lemma arr_get_lookup {A} (l : list A) i : 0 ≤ i → arr_get l i = l !! Z.to_nat i.
Proof. intros. unfold arr_get. by rewrite decide_True. Qed.

Lemma exc_table_syscall i : arr_get exc_table i = Some (Some t_handle_syscall) → i = EXCC_SYSCALL.
Proof.
  intros [Hi Ht]%arr_get_Some. unfold EXCC_SYSCALL.
  assert (Z.to_nat i = 8%nat); [|lia]. revert Ht. generalize (Z.to_nat i) as n.
  do 16 (intros [|n]; [by vm_compute|revert n]). by intros [].
Qed.
Lemma irq_table_syscall i : arr_get irq_table i ≠ Some (Some t_handle_syscall).
Proof.
  intros [Hi Ht]%arr_get_Some. revert Ht. generalize (Z.to_nat i) as n.
  do 12 (intros [|n]; [by vm_compute|revert n]). by intros [].
Qed.

Lemma interrupt_helper_same r stval cause s v s' : cause ≠ EXCC_SYSCALL →
  ends others (interrupt_helper r stval cause s) (Some v) s' → v = r.
Proof.
  intros Hc. destruct (decide (kc_killed s = 0)) as [Hk|Hk].
  - rewrite interrupt_helper_alive by done. destruct (negb _); apply dispatch_same.
    + apply irq_table_syscall.
    + by intros ?%exc_table_syscall.
  - by intros ?%interrupt_helper_killed.
Qed.


Lemma reg_set_sp l o i : i ≠ SP → default 0 ((<[SP := o]> l : list Z) !! i) = default 0 (l !! i).
Proof. intros. by rewrite list_lookup_insert_ne. Qed.

(** The core and the thread's memory after a system call that gave [a]. *)
Definition after_call (h : hart) (t : thread) (a : Z) : hart * thread :=
  let sum := Z.lor (h_sstatus h) SR_SUM in
  (mk_hart (<[10%nat := u64 a]> (gpr h)) (u64 (pc h + 4)) sum,
   mk_thread (mk_regs (<[10%nat := u64 a]> (<[SP := reg (th_context t) SP]> (gpr h))) sum (u64 (pc h + 4)) 0 EXCC_SYSCALL)
     (default 0 (gpr h !! SP))).

Definition call_args (h : hart) (H : handler) : list Z :=
  zip_with cast (proto H).1 ((λ i, default 0 (gpr h !! i)) <$> [10; 11; 12; 13; 14]%nat).

(** A system call: the function that the number in [a7] selects is called
    with [a0] to [a4] converted to its parameter types; when it comes back, at
    once or after any number of other processes have run, its value is in [a0],
    the process goes on behind the [ecall], and every other register is what
    it was; it ends the process exactly if the function does. *)
Theorem ecall_spec h t s H v s' :
  hart_ok h → kc_killed s = 0 → arr_get syscall (default 0 (gpr h !! 17%nat)) = Some (Some H) →
  ends others (ecall h t s) v s' ↔
  ∃ w, ends others (kc_fn H (call_args h H) s) w s' ∧ v = after_call h t <$> w.
Proof.
  intros Hh Hk Ht. unfold ecall, trap. cbv zeta. rewrite ends_map.
  rewrite interrupt_helper_alive by done.
  change (if negb _ then _ else dispatch exc_table EXCC_SYSCALL ?r 0) with (handle_syscall r).
  unfold handle_syscall, reg. cbn [set_sepc regs sepc th_context SAVE_CONTEXT].
  rewrite !reg_set_sp, Ht by done. unfold call_handler. setoid_rewrite ends_map. setoid_rewrite ends_map.
  assert (Hf : ∀ a, after_call h t a = (RESTORE_CONTEXT (mk_thread (set_gpr 10 (u64 a) (set_sepc (u64 (pc h + 4))
      (th_context (SAVE_CONTEXT h (pc h) 0 EXCC_SYSCALL t)))) (th_user_sp (SAVE_CONTEXT h (pc h) 0 EXCC_SYSCALL t))),
    mk_thread (set_gpr 10 (u64 a) (set_sepc (u64 (pc h + 4)) (th_context (SAVE_CONTEXT h (pc h) 0 EXCC_SYSCALL t))))
      (th_user_sp (SAVE_CONTEXT h (pc h) 0 EXCC_SYSCALL t)))).
  { intros a. unfold after_call, RESTORE_CONTEXT, set_gpr, set_sepc, SAVE_CONTEXT.
    cbn [th_context th_user_sp regs sepc sstatus sbadaddr scause].
    by rewrite restore_a0 by (done || by apply hart_sp). }
  split.
  - intros (w1 & (w2 & (w3 & Hw & ->) & ->) & ->). exists w3. split; [done|].
    destruct w3 as [a|]; [|done]. simpl. by rewrite Hf.
  - intros (w & Hw & ->). eexists. split; [eexists; split; [eexists; split; [exact Hw|reflexivity]|reflexivity]|].
    destruct w as [a|]; [|done]. simpl. by rewrite Hf.
Qed.

(** A number without a function is a call of address 0, or of what lies behind
    the table: the number is not checked. *)
Lemma ecall_unknown h t s :
  kc_killed s = 0 → (∀ H, arr_get syscall (default 0 (gpr h !! 17%nat)) ≠ Some (Some H)) →
  ecall h t s = Stuck.
Proof.
  intros Hk Hn. unfold ecall, trap. cbv zeta. unfold cbind at 1. rewrite interrupt_helper_alive by done.
  change (if negb _ then _ else dispatch exc_table EXCC_SYSCALL ?r 0) with (handle_syscall r).
  unfold handle_syscall, reg. cbn [set_sepc regs sepc th_context SAVE_CONTEXT].
  rewrite (reg_set_sp _ _ 17) by done.
  destruct (arr_get syscall _) as [[H|]|] eqn:E; [by edestruct Hn|done|done].
Qed.

Lemma trap_killed stval cause h t s v s' :
  kc_killed s ≠ 0 → ends others (trap stval cause h t s) v s' → v = None.
Proof.
  intros Hk. unfold trap. cbv zeta. rewrite ends_map.
  by intros (w & Hi%interrupt_helper_killed & ->); [subst w|].
Qed.
End Spec.

(** ** Examples *)

(** A kernel of one counter: every function gives the core away once, and its
    value is the sum of its arguments. *)
#[export] Instance ex_echo : KernelCalls Z := {|
  kc_fn _ args := λ s, Ok (Switch (Idle 0) (λ s, Ok (Done (foldr Z.add 0 args)) (s + 1))) s;
  kc_killed _ := 0;
  kc_exit := mret (Idle 0);
  kc_page_fault _ := modify (Z.add 1);
  kc_set_timer _ := mret tt;
  kc_plic_claim := mret 3;
  kc_plic_complete _ := mret tt;
  kc_net_irq := mret tt
|}.

(** [a7] holds the number of [do_kill], [a0] -1. *)
Definition ex_hart : hart := mk_hart (<[17%nat := 3]> (<[10%nat := 2 ^ 64 - 1]> (replicate 32 0))) 0x10000 0.
Definition ex_thread : thread := mk_thread (mk_regs (replicate 32 0) 0 0 0 0) 0.

Lemma ex_hart_ok : hart_ok ex_hart.
Proof. done. Qed.

Definition ex_others (s s' : Z) : Prop := s' = s + 10.


Lemma ecall_spec_witness :
  ends ex_others (ecall ex_hart ex_thread 0) (Some (after_call ex_hart ex_thread (-1))) 11.
Proof.
  apply (ecall_spec ex_others ex_hart ex_thread 0 h_do_kill); [exact ex_hart_ok|reflexivity|by vm_compute|].
  exists (Some (-1)). split; [|reflexivity]. eapply ends_switch; [reflexivity|].
  assert (foldr Z.add 0 (call_args ex_hart h_do_kill) = -1) as E by by vm_compute.
  rewrite <- E. apply ends_done.
Defined.
