(* ===== verification/Ulib.v ===== *)
(** tiny_libc/syscall.c: the system calls as user programs make them, and that
    each reaches the function of the kernel it is named for. *)
From S2P Require Import Prelude KMonad KList Sched Trap.

(** ** tiny_libc/include/syscall.h

    The numbers are written down once for the kernel (Trap) and once for the
    user programs. *)

Definition SYSCALL_EXEC : Z := 0.
Definition SYSCALL_EXIT : Z := 1.
Definition SYSCALL_SLEEP : Z := 2.
Definition SYSCALL_KILL : Z := 3.
Definition SYSCALL_WAITPID : Z := 4.
Definition SYSCALL_PS : Z := 5.
Definition SYSCALL_GETPID : Z := 6.
Definition SYSCALL_YIELD : Z := 7.
Definition SYSCALL_WRITE : Z := 20.
Definition SYSCALL_READCH : Z := 21.
Definition SYSCALL_CURSOR : Z := 22.
Definition SYSCALL_REFLUSH : Z := 23.
Definition SYSCALL_CLEAR : Z := 24.
Definition SYSCALL_GET_TIMEBASE : Z := 30.
Definition SYSCALL_GET_TICK : Z := 31.
Definition SYSCALL_SEMA_INIT : Z := 36.
Definition SYSCALL_SEMA_UP : Z := 37.
Definition SYSCALL_SEMA_DOWN : Z := 38.
Definition SYSCALL_SEMA_DESTROY : Z := 39.
Definition SYSCALL_LOCK_INIT : Z := 40.
Definition SYSCALL_LOCK_ACQ : Z := 41.
Definition SYSCALL_LOCK_RELEASE : Z := 42.
Definition SYSCALL_SHOW_TASK : Z := 43.
Definition SYSCALL_BARR_INIT : Z := 44.
Definition SYSCALL_BARR_WAIT : Z := 45.
Definition SYSCALL_BARR_DESTROY : Z := 46.
Definition SYSCALL_COND_INIT : Z := 47.
Definition SYSCALL_COND_WAIT : Z := 48.
Definition SYSCALL_COND_SIGNAL : Z := 49.
Definition SYSCALL_COND_BROADCAST : Z := 50.
Definition SYSCALL_COND_DESTROY : Z := 51.
Definition SYSCALL_MBOX_OPEN : Z := 52.
Definition SYSCALL_MBOX_CLOSE : Z := 53.
Definition SYSCALL_MBOX_SEND : Z := 54.
Definition SYSCALL_MBOX_RECV : Z := 55.
Definition SYSCALL_SHM_GET : Z := 56.
Definition SYSCALL_SHM_DT : Z := 57.
Definition SYSCALL_FREE_MEM : Z := 58.
Definition SYSCALL_PIPE_OPEN : Z := 59.
Definition SYSCALL_PIPE_GIVE : Z := 60.
Definition SYSCALL_PIPE_TAKE : Z := 61.
Definition SYSCALL_NET_SEND : Z := 63.
Definition SYSCALL_NET_RECV : Z := 64.
Definition SYSCALL_FS_MKFS : Z := 65.
Definition SYSCALL_FS_STATFS : Z := 66.
Definition SYSCALL_FS_CD : Z := 67.
Definition SYSCALL_FS_MKDIR : Z := 68.
Definition SYSCALL_FS_RMDIR : Z := 69.
Definition SYSCALL_FS_LS : Z := 70.
Definition SYSCALL_FS_TOUCH : Z := 71.
Definition SYSCALL_FS_CAT : Z := 72.
Definition SYSCALL_FS_OPEN : Z := 73.
Definition SYSCALL_FS_READ : Z := 74.
Definition SYSCALL_FS_WRITE : Z := 75.
Definition SYSCALL_FS_CLOSE : Z := 76.
Definition SYSCALL_FS_LN : Z := 77.
Definition SYSCALL_FS_RM : Z := 78.
Definition SYSCALL_FS_LSEEK : Z := 79.
Definition SYSCALL_NET_RECV_STREAM : Z := 90.
Definition SYSCALL_RESET_STREAM : Z := 91.
Definition SYSCALL_SET_SCHE_WORKLOAD : Z := 92.
Definition SYSCALL_TASKSET : Z := 93.
Definition SYSCALL_THREAD_CREATE : Z := 94.
Definition SYSCALL_THREAD_JOIN : Z := 95.

Definition IGNORE : Z := 0.

Section Ulib.
Context {K : Type} `{!KernelCalls K}.

(** A user program changes its core, and traps save it in its thread. *)
Definition U (A : Type) : Type := hart * thread → CM K (A * (hart * thread)).

Definition mv (i : nat) (v : Z) (l : list Z) : list Z := <[i := u64 v]> l.

(** The registers at the [ecall]: first the number to [a7], then [a0] to [a4]. *)
Definition load_args (sysno arg0 arg1 arg2 arg3 arg4 : Z) (h : hart) : hart :=
  let l := mv 17 sysno (gpr h) in
  let l := mv 10 arg0 l in
  let l := mv 11 arg1 l in
  let l := mv 12 arg2 l in
  let l := mv 13 arg3 l in
  let l := mv 14 arg4 l in
  mk_hart l (pc h) (h_sstatus h).

(** [pc] is that of the [ecall]; the result is a [long]. *)
Definition invoke_syscall (sysno arg0 arg1 arg2 arg3 arg4 : Z) : U Z := λ '(h, t),
  (x ⇐ ecall (load_args sysno arg0 arg1 arg2 arg3 arg4 h) t;
   cret (cast TLong (default 0 (gpr (x.1) !! 10%nat)), x))%call.

(** What a function makes of the result: it converts it to its type or ignores it. *)
Definition returns (t : ctype) (m : U Z) : U Z := λ u, (x ⇐ m u; cret (cast t (x.1), x.2))%call.
Definition no_value (m : U Z) : U unit := λ u, (x ⇐ m u; cret (tt, x.2))%call.

Definition sys_yield : U unit :=
  no_value (invoke_syscall SYSCALL_YIELD IGNORE IGNORE IGNORE IGNORE IGNORE).
Definition sys_move_cursor (x y : Z) : U unit :=
  no_value (invoke_syscall SYSCALL_CURSOR x y IGNORE IGNORE IGNORE).
Definition sys_screen_write (buff : Z) : U unit :=
  no_value (invoke_syscall SYSCALL_WRITE buff IGNORE IGNORE IGNORE IGNORE).
Definition sys_reflush : U unit :=
  no_value (invoke_syscall SYSCALL_REFLUSH IGNORE IGNORE IGNORE IGNORE IGNORE).
Definition sys_clear : U unit :=
  no_value (invoke_syscall SYSCALL_CLEAR IGNORE IGNORE IGNORE IGNORE IGNORE).
Definition sys_mutex_init (key : Z) : U Z :=
  returns TInt (invoke_syscall SYSCALL_LOCK_INIT key IGNORE IGNORE IGNORE IGNORE).
Definition sys_mutex_acquire (mutex_idx : Z) : U unit :=
  no_value (invoke_syscall SYSCALL_LOCK_ACQ mutex_idx IGNORE IGNORE IGNORE IGNORE).
Definition sys_mutex_release (mutex_idx : Z) : U unit :=
  no_value (invoke_syscall SYSCALL_LOCK_RELEASE mutex_idx IGNORE IGNORE IGNORE IGNORE).
Definition sys_get_timebase : U Z :=
  returns TLong (invoke_syscall SYSCALL_GET_TIMEBASE IGNORE IGNORE IGNORE IGNORE IGNORE).
Definition sys_get_tick : U Z :=
  returns TLong (invoke_syscall SYSCALL_GET_TICK IGNORE IGNORE IGNORE IGNORE IGNORE).
Definition sys_sleep (time : Z) : U unit :=
  no_value (invoke_syscall SYSCALL_SLEEP time IGNORE IGNORE IGNORE IGNORE).
Definition sys_set_sche_workload (remain_length : Z) : U unit :=
  no_value (invoke_syscall SYSCALL_SET_SCHE_WORKLOAD remain_length IGNORE IGNORE IGNORE IGNORE).
Definition sys_exec (name argc argv : Z) : U Z :=
  returns TInt (invoke_syscall SYSCALL_EXEC name argc argv IGNORE IGNORE).
Definition sys_exit : U unit :=
  no_value (invoke_syscall SYSCALL_EXIT IGNORE IGNORE IGNORE IGNORE IGNORE).
Definition sys_kill (pid : Z) : U Z :=
  returns TInt (invoke_syscall SYSCALL_KILL pid IGNORE IGNORE IGNORE IGNORE).
Definition sys_waitpid (pid : Z) : U Z :=
  returns TInt (invoke_syscall SYSCALL_WAITPID pid IGNORE IGNORE IGNORE IGNORE).
Definition sys_ps : U unit :=
  no_value (invoke_syscall SYSCALL_PS IGNORE IGNORE IGNORE IGNORE IGNORE).
Definition sys_getpid : U Z :=
  returns TInt (invoke_syscall SYSCALL_GETPID IGNORE IGNORE IGNORE IGNORE IGNORE).
Definition sys_getchar : U Z :=
  returns TInt (invoke_syscall SYSCALL_READCH IGNORE IGNORE IGNORE IGNORE IGNORE).
Definition sys_barrier_init (key goal : Z) : U Z :=
  returns TInt (invoke_syscall SYSCALL_BARR_INIT key goal IGNORE IGNORE IGNORE).
Definition sys_barrier_wait (bar_idx : Z) : U unit :=
  no_value (invoke_syscall SYSCALL_BARR_WAIT bar_idx IGNORE IGNORE IGNORE IGNORE).
Definition sys_barrier_destroy (bar_idx : Z) : U unit :=
  no_value (invoke_syscall SYSCALL_BARR_DESTROY bar_idx IGNORE IGNORE IGNORE IGNORE).
Definition sys_condition_init (key : Z) : U Z :=
  returns TInt (invoke_syscall SYSCALL_COND_INIT key IGNORE IGNORE IGNORE IGNORE).
Definition sys_condition_wait (cond_idx mutex_idx : Z) : U unit :=
  no_value (invoke_syscall SYSCALL_COND_WAIT cond_idx mutex_idx IGNORE IGNORE IGNORE).
Definition sys_condition_signal (cond_idx : Z) : U unit :=
  no_value (invoke_syscall SYSCALL_COND_SIGNAL cond_idx IGNORE IGNORE IGNORE IGNORE).
Definition sys_condition_broadcast (cond_idx : Z) : U unit :=
  no_value (invoke_syscall SYSCALL_COND_BROADCAST cond_idx IGNORE IGNORE IGNORE IGNORE).
Definition sys_condition_destroy (cond_idx : Z) : U unit :=
  no_value (invoke_syscall SYSCALL_COND_DESTROY cond_idx IGNORE IGNORE IGNORE IGNORE).
Definition sys_semaphore_init (key init : Z) : U Z :=
  returns TInt (invoke_syscall SYSCALL_SEMA_INIT key init IGNORE IGNORE IGNORE).
Definition sys_semaphore_up (sema_idx : Z) : U unit :=
  no_value (invoke_syscall SYSCALL_SEMA_UP sema_idx IGNORE IGNORE IGNORE IGNORE).
Definition sys_semaphore_down (sema_idx : Z) : U unit :=
  no_value (invoke_syscall SYSCALL_SEMA_DOWN sema_idx IGNORE IGNORE IGNORE IGNORE).
Definition sys_semaphore_destroy (sema_idx : Z) : U unit :=
  no_value (invoke_syscall SYSCALL_SEMA_DESTROY sema_idx IGNORE IGNORE IGNORE IGNORE).
Definition sys_mbox_open (name : Z) : U Z :=
  returns TInt (invoke_syscall SYSCALL_MBOX_OPEN name IGNORE IGNORE IGNORE IGNORE).
Definition sys_mbox_close (mbox_id : Z) : U unit :=
  no_value (invoke_syscall SYSCALL_MBOX_CLOSE mbox_id IGNORE IGNORE IGNORE IGNORE).
Definition sys_mbox_send (mbox_idx msg msg_length : Z) : U Z :=
  returns TInt (invoke_syscall SYSCALL_MBOX_SEND mbox_idx msg msg_length IGNORE IGNORE).
Definition sys_mbox_recv (mbox_idx msg msg_length : Z) : U Z :=
  returns TInt (invoke_syscall SYSCALL_MBOX_RECV mbox_idx msg msg_length IGNORE IGNORE).
Definition sys_taskset (mask name pid argc argv : Z) : U unit :=
  no_value (invoke_syscall SYSCALL_TASKSET mask name pid argc argv).
Definition sys_thread_create (start_routine arg arg_bytes : Z) : U Z :=
  returns TInt (invoke_syscall SYSCALL_THREAD_CREATE start_routine arg arg_bytes IGNORE IGNORE).
Definition sys_thread_join (pid : Z) : U Z :=
  returns TInt (invoke_syscall SYSCALL_THREAD_JOIN pid IGNORE IGNORE IGNORE IGNORE).
Definition sys_free_mem : U Z :=
  returns TULong (invoke_syscall SYSCALL_FREE_MEM IGNORE IGNORE IGNORE IGNORE IGNORE).
Definition sys_shm_page_get (key : Z) : U Z :=
  returns TPtr (invoke_syscall SYSCALL_SHM_GET key IGNORE IGNORE IGNORE IGNORE).
Definition sys_shm_page_dt (addr : Z) : U unit :=
  no_value (invoke_syscall SYSCALL_SHM_DT addr IGNORE IGNORE IGNORE IGNORE).
Definition sys_pipe_open (name : Z) : U Z :=
  returns TInt (invoke_syscall SYSCALL_PIPE_OPEN name IGNORE IGNORE IGNORE IGNORE).
Definition sys_pipe_give_pages (pipe_idx src length : Z) : U Z :=
  returns TLong (invoke_syscall SYSCALL_PIPE_GIVE pipe_idx src length IGNORE IGNORE).
Definition sys_pipe_take_pages (pipe_idx dst length : Z) : U Z :=
  returns TLong (invoke_syscall SYSCALL_PIPE_TAKE pipe_idx dst length IGNORE IGNORE).
Definition sys_show_task : U unit :=
  no_value (invoke_syscall SYSCALL_SHOW_TASK IGNORE IGNORE IGNORE IGNORE IGNORE).
Definition sys_net_send (txpacket length : Z) : U Z :=
  returns TInt (invoke_syscall SYSCALL_NET_SEND txpacket length IGNORE IGNORE IGNORE).
Definition sys_net_recv (rxbuffer pkt_num pkt_lens : Z) : U Z :=
  returns TInt (invoke_syscall SYSCALL_NET_RECV rxbuffer pkt_num pkt_lens IGNORE IGNORE).
Definition sys_net_recv_stream (buffer nbytes : Z) : U Z :=
  returns TInt (invoke_syscall SYSCALL_NET_RECV_STREAM buffer nbytes IGNORE IGNORE IGNORE).
Definition sys_reset_stream : U unit :=
  no_value (invoke_syscall SYSCALL_RESET_STREAM IGNORE IGNORE IGNORE IGNORE IGNORE).
Definition sys_mkfs : U Z :=
  returns TInt (invoke_syscall SYSCALL_FS_MKFS IGNORE IGNORE IGNORE IGNORE IGNORE).
Definition sys_statfs : U Z :=
  returns TInt (invoke_syscall SYSCALL_FS_STATFS IGNORE IGNORE IGNORE IGNORE IGNORE).
Definition sys_cd (path : Z) : U Z :=
  returns TInt (invoke_syscall SYSCALL_FS_CD path IGNORE IGNORE IGNORE IGNORE).
Definition sys_mkdir (path : Z) : U Z :=
  returns TInt (invoke_syscall SYSCALL_FS_MKDIR path IGNORE IGNORE IGNORE IGNORE).
Definition sys_rmdir (path : Z) : U Z :=
  returns TInt (invoke_syscall SYSCALL_FS_RMDIR path IGNORE IGNORE IGNORE IGNORE).
Definition sys_ls (path option : Z) : U Z :=
  returns TInt (invoke_syscall SYSCALL_FS_LS path option IGNORE IGNORE IGNORE).
Definition sys_open (path mode : Z) : U Z :=
  returns TInt (invoke_syscall SYSCALL_FS_OPEN path mode IGNORE IGNORE IGNORE).
Definition sys_read (fd buff length : Z) : U Z :=
  returns TInt (invoke_syscall SYSCALL_FS_READ fd buff length IGNORE IGNORE).
Definition sys_write (fd buff length : Z) : U Z :=
  returns TInt (invoke_syscall SYSCALL_FS_WRITE fd buff length IGNORE IGNORE).
Definition sys_close (fd : Z) : U Z :=
  returns TInt (invoke_syscall SYSCALL_FS_CLOSE fd IGNORE IGNORE IGNORE IGNORE).
Definition sys_ln (src_path dst_path : Z) : U Z :=
  returns TInt (invoke_syscall SYSCALL_FS_LN src_path dst_path IGNORE IGNORE IGNORE).
Definition sys_rm (path : Z) : U Z :=
  returns TInt (invoke_syscall SYSCALL_FS_RM path IGNORE IGNORE IGNORE IGNORE).
Definition sys_lseek (fd offset whence : Z) : U Z :=
  returns TInt (invoke_syscall SYSCALL_FS_LSEEK fd offset whence IGNORE IGNORE).
End Ulib.

(** ** Reaching the kernel *)

Section Reach.
Context {K : Type} `{!KernelCalls K} (others : K → K → Prop).
Context (h : hart) (t : thread) (s : K).

(** [m] is the call of [H] with [args]: it ends as [H] ends, and its value is
    that of [H], converted to [ret]. *)
Definition gives {A} (val : Z → A) (m : U A) (H : handler) (args : list Z) : Prop :=
  ∃ back : Z → hart * thread,
    (∀ v s', ends others (m (h, t) s) v s' ↔
       ∃ w, ends others (kc_fn H args s) w s' ∧ v = (λ a, (val a, back a)) <$> w) ∧
    ∀ a, hart_ok (back a).1 ∧ pc (back a).1 = u64 (pc h + 4) ∧
      ∀ i, i ∉ [10; 11; 12; 13; 14; 17]%nat → gpr (back a).1 !! i = gpr h !! i.
Definition gives_value (ret : ctype) : U Z → handler → list Z → Prop := gives (cast ret).
Definition gives_no_value : U unit → handler → list Z → Prop := gives (λ _, tt).

Lemma zip_cast_u64 ts l : zip_with cast ts (u64 <$> l) = zip_with cast ts l.
Proof. revert l. induction ts as [|ty ts IH]; intros [|a l]; [done..|]. simpl. by rewrite cast_u64, IH. Qed.

Lemma load_args_lookup no a0 a1 a2 a3 a4 (i : nat) : hart_ok h →
  gpr (load_args no a0 a1 a2 a3 a4 h) !! i =
  match i with
  | 10 => Some (u64 a0) | 11 => Some (u64 a1) | 12 => Some (u64 a2) | 13 => Some (u64 a3)
  | 14 => Some (u64 a4) | 17 => Some (u64 no) | _ => gpr h !! i
  end%nat.
Proof.
  intros [Hl _]. cbn [load_args gpr]. unfold mv.
  do 18 (destruct i as [|i]; [repeat (rewrite list_lookup_insert_ne by done);
    first [done | by rewrite list_lookup_insert_eq by (rewrite ?length_insert, Hl; lia)]|]).
  by repeat (rewrite list_lookup_insert_ne by done).
Qed.

Context (Hh : hart_ok h) (Hk : kc_killed s = 0).

Lemma load_args_ok no a0 a1 a2 a3 a4 : hart_ok (load_args no a0 a1 a2 a3 a4 h).
Proof.
  split; [|by rewrite load_args_lookup; [apply Hh|]].
  cbn [load_args gpr]. unfold mv. rewrite !length_insert. apply Hh.
Qed.

(** The registers take the arguments of the function. *)
Definition passes (H : handler) (regs args : list Z) : Prop := zip_with cast (proto H).1 regs = args.

Lemma passes_nil H regs : (proto H).1 = [] → passes H regs [].
Proof. unfold passes. by intros ->. Qed.

Lemma invoke_gives no a0 a1 a2 a3 a4 H args :
  arr_get syscall (u64 no) = Some (Some H) → passes H [a0; a1; a2; a3; a4] args →
  gives (cast TLong) (invoke_syscall no a0 a1 a2 a3 a4) H args.
Proof.
  intros Ht Ha. set (h1 := load_args no a0 a1 a2 a3 a4 h).
  assert (Hl : gpr h1 = gpr (load_args no a0 a1 a2 a3 a4 h)) by done.
  exists (after_call h1 t). split.
  - intros v s'. unfold invoke_syscall. fold h1. rewrite ends_map.
    assert (call_args h1 H = args) as Hargs.
    { unfold call_args. subst h1. cbn [fmap list_fmap]. rewrite !load_args_lookup by done. cbn [from_option id].
      by rewrite <- Ha, <- (zip_cast_u64 _ [a0; a1; a2; a3; a4]). }
    setoid_rewrite (ecall_spec others h1 t s H); [|apply load_args_ok|done|by subst h1; rewrite load_args_lookup].
    rewrite Hargs.
    assert (H10 : ∀ a, (cast TLong (default 0 (gpr (after_call h1 t a).1 !! 10%nat)), after_call h1 t a)
        = (cast TLong a, after_call h1 t a)).
    { intros a. cbn [after_call fst gpr]. rewrite list_lookup_insert_eq; [cbn [from_option id]; by rewrite cast_u64|].
      destruct (load_args_ok no a0 a1 a2 a3 a4) as [Hlen _]. unfold h1. rewrite Hlen. lia. }
    split.
    + intros (w1 & (w & Hw & ->) & ->). exists w. split; [done|]. destruct w as [a|]; [|done].
      cbn [fmap option_fmap option_map]. by rewrite H10.
    + intros (w & Hw & ->). eexists. split; [by exists w|]. destruct w as [a|]; [|done].
      cbn [fmap option_fmap option_map]. by rewrite H10.
  - intros a. destruct (load_args_ok no a0 a1 a2 a3 a4) as [Hlen Hz]. fold h1 in Hlen, Hz.
    split; [split; cbn [after_call fst gpr]|split].
    + by rewrite length_insert.
    + by rewrite list_lookup_insert_ne.
    + done.
    + intros i Hi. cbn [after_call fst gpr]. rewrite list_lookup_insert_ne by set_solver.
      rewrite Hl, load_args_lookup by done.
      do 18 (destruct i as [|i]; [first [done|set_solver]|]). done.
Qed.

Lemma gives_map {A B} (f : A → B) (val : Z → A) (m : U A) H args :
  gives val m H args → gives (λ a, f (val a)) (λ u, (x ⇐ m u; cret (f (x.1), x.2))%call) H args.
Proof.
  intros (back & Hm & Hb). exists back. split; [|done]. intros v s'. rewrite ends_map.
  setoid_rewrite Hm. split.
  - intros (w1 & (w & Hw & ->) & ->). exists w. split; [done|]. by destruct w.
  - intros (w & Hw & ->). eexists. split; [by exists w|]. by destruct w.
Qed.

Lemma gives_ext {A} (f g : Z → A) m H args : (∀ a, f a = g a) → gives f m H args → gives g m H args.
Proof.
  intros Hfg (back & Hm & Hb). exists back. split; [|done]. intros v s'. rewrite Hm.
  split; intros (w & Hw & ->); exists w; (split; [done|]); destruct w; simpl; by rewrite ?Hfg.
Qed.

Lemma returns_gives ty no a0 a1 a2 a3 a4 H args :
  arr_get syscall (u64 no) = Some (Some H) → passes H [a0; a1; a2; a3; a4] args →
  gives_value ty (returns ty (invoke_syscall no a0 a1 a2 a3 a4)) H args.
Proof.
  intros. apply (gives_ext (λ a, cast ty (cast TLong a))); [intros; apply cast_s64|].
  by apply (gives_map (cast ty)), invoke_gives.
Qed.
Lemma no_value_gives no a0 a1 a2 a3 a4 H args :
  arr_get syscall (u64 no) = Some (Some H) → passes H [a0; a1; a2; a3; a4] args →
  gives_no_value (no_value (invoke_syscall no a0 a1 a2 a3 a4)) H args.
Proof. intros. by apply (gives_map (λ _, tt) (cast TLong)), invoke_gives. Qed.

(** A call by its number, and its arguments by their types. *)
Ltac reaches :=
  first [apply returns_gives | apply no_value_gives];
  [reflexivity | unfold passes; cbn [proto fst zip_with]; by rewrite ?cast_id by done].


(** The library has semaphores, the kernel has none: the numbers have no
    function, and each of the calls is a call of address 0 in the kernel. *)
Lemma semaphores_stuck i j :
  Forall (λ m : U unit, m (h, t) s = Stuck)
    [no_value (λ u, sys_semaphore_init i j u); sys_semaphore_up i; sys_semaphore_down i; sys_semaphore_destroy i].
Proof.
  assert (Hs : ∀ no a0 a1 a2 a3 a4, 36 ≤ no ≤ 39 → invoke_syscall no a0 a1 a2 a3 a4 (h, t) s = Stuck).
  { intros. unfold invoke_syscall, cbind. rewrite ecall_unknown; [done..|]. intros fn.
    rewrite load_args_lookup by done. cbn [from_option id].
    assert (no = 36 ∨ no = 37 ∨ no = 38 ∨ no = 39) as [->|[->|[->| ->]]] by lia; by vm_compute. }
  repeat apply Forall_cons_2; try apply Forall_nil_2; cbv beta;
    unfold sys_semaphore_init, sys_semaphore_up, sys_semaphore_down, sys_semaphore_destroy, no_value, returns, cbind;
    rewrite Hs; unfold SYSCALL_SEMA_INIT, SYSCALL_SEMA_UP, SYSCALL_SEMA_DOWN, SYSCALL_SEMA_DESTROY; done || lia.
Qed.
End Reach.
