(* ===== verification/Kernel.v ===== *)
(** The components as one kernel: its state, and the functions behind the
    system calls on it, with the calls of [do_scheduler] in between
    ([KernelCalls] of Trap).

    [k_bytes] is the memory at the addresses of the running process: a call
    that comes back to its process finds that process's memory there. *)
From S2P Require Import Prelude KMonad KList Sched Trap Ulib.
From S2P Require Import Pgtable MM PageTable Swap Shm Vm CString.
From S2P Require Import Resource Lock Barrier Cond Mbox Pipe Workload ExecStack Loader Proc.
From S2P Require Import FsDisk FsDir Fs Printk Screen E1000 Net Stream Plic.
From Stdlib Require Ascii String.
Import String.StringSyntax.

Section Kernel.
Context {D : Type} `{!BlockDevice 64 D} {C : Type} `{!BlockDevice SECTOR_BYTES C}.
Context {F : Type} `{!BlockDevice SECTOR_LEN F} {T : Type} `{!Terminal T} {P : Type} `{!Mmio P}.
#[local] Notation kstate := (kstate (D := D) (C := C)).
#[local] Notation fs_state := (fs_state (D := F)).

(** Addresses; the bound on the length of strings and on the number of times
    that one call waits; what a function without a value leaves in [a0]. *)
Context (ret_from_exception : Z) (pcb_addr : tcb → Z) (tx_pkt_kva : Z).
Context (str_fuel rounds : nat) (junk : Z) (bf0 buff0 : list Z) (bios_getchar : T → Z * T).

Record os := mk_os {
  o_k : kstate;
  o_conds : list condition_t;
  o_pipes : list pipe_t;
  o_fs : fs_state;
  o_nic : nic_state;
  o_stream : stream_state unit;
  o_screen : list Z * list Z * T;
  o_work : stage_t * Z * bool;
  o_plic : plic_state (P := P);
  o_tasknum : Z;
  o_timer : Z;
  o_ticks : Z;
  o_base : Z
}.

Definition o_set_k (x : kstate) (s : os) : os :=
  mk_os x (o_conds s) (o_pipes s) (o_fs s) (o_nic s) (o_stream s) (o_screen s) (o_work s) (o_plic s) (o_tasknum s) (o_timer s) (o_ticks s) (o_base s).
Definition o_set_conds (x : list condition_t) (s : os) : os :=
  mk_os (o_k s) x (o_pipes s) (o_fs s) (o_nic s) (o_stream s) (o_screen s) (o_work s) (o_plic s) (o_tasknum s) (o_timer s) (o_ticks s) (o_base s).
Definition o_set_pipes (x : list pipe_t) (s : os) : os :=
  mk_os (o_k s) (o_conds s) x (o_fs s) (o_nic s) (o_stream s) (o_screen s) (o_work s) (o_plic s) (o_tasknum s) (o_timer s) (o_ticks s) (o_base s).
Definition o_set_fs (x : fs_state) (s : os) : os :=
  mk_os (o_k s) (o_conds s) (o_pipes s) x (o_nic s) (o_stream s) (o_screen s) (o_work s) (o_plic s) (o_tasknum s) (o_timer s) (o_ticks s) (o_base s).
Definition o_set_nic (x : nic_state) (s : os) : os :=
  mk_os (o_k s) (o_conds s) (o_pipes s) (o_fs s) x (o_stream s) (o_screen s) (o_work s) (o_plic s) (o_tasknum s) (o_timer s) (o_ticks s) (o_base s).
Definition o_set_stream (x : stream_state unit) (s : os) : os :=
  mk_os (o_k s) (o_conds s) (o_pipes s) (o_fs s) (o_nic s) x (o_screen s) (o_work s) (o_plic s) (o_tasknum s) (o_timer s) (o_ticks s) (o_base s).
Definition o_set_screen (x : list Z * list Z * T) (s : os) : os :=
  mk_os (o_k s) (o_conds s) (o_pipes s) (o_fs s) (o_nic s) (o_stream s) x (o_work s) (o_plic s) (o_tasknum s) (o_timer s) (o_ticks s) (o_base s).
Definition o_set_work (x : stage_t * Z * bool) (s : os) : os :=
  mk_os (o_k s) (o_conds s) (o_pipes s) (o_fs s) (o_nic s) (o_stream s) (o_screen s) x (o_plic s) (o_tasknum s) (o_timer s) (o_ticks s) (o_base s).
Definition o_set_plic (x : plic_state (P := P)) (s : os) : os :=
  mk_os (o_k s) (o_conds s) (o_pipes s) (o_fs s) (o_nic s) (o_stream s) (o_screen s) (o_work s) x (o_tasknum s) (o_timer s) (o_ticks s) (o_base s).
Definition o_set_timer (x : Z) (s : os) : os :=
  mk_os (o_k s) (o_conds s) (o_pipes s) (o_fs s) (o_nic s) (o_stream s) (o_screen s) (o_work s) (o_plic s) (o_tasknum s) x (o_ticks s) (o_base s).
Definition o_set_base (x : Z) (s : os) : os :=
  mk_os (o_k s) (o_conds s) (o_pipes s) (o_fs s) (o_nic s) (o_stream s) (o_screen s) (o_work s) (o_plic s) (o_tasknum s) (o_timer s) (o_ticks s) x.

(** The views of the components. *)
Definition on_k {A} (m : M kstate A) : M os A := zoom o_k o_set_k m.
Definition in_s {A} (m : M sched_state A) : M os A := on_k (in_sched m).
Definition in_conds {A} (m : M cond_state A) : M os A :=
  zoom (λ s, mk_conds (mk_res (k_sched (o_k s)) (k_locks (o_k s))) (o_conds s))
    (λ x s, o_set_conds (conditions x) (o_set_k (k_upd_locks (c_locks x) (o_k s)) s)) m.
Definition in_shm {A} (m : M shm_state A) : M os A :=
  zoom (λ s, mk_shm_state (vm_mm (k_vm (o_k s))) (vm_shm (k_vm (o_k s))))
    (λ x s, o_set_k (k_upd_vm (vm_upd_mm (sh_mm x) (mk_vm (vm_sw (k_vm (o_k s))) (shm_table x))) (o_k s)) s) m.
Definition in_pipes {A} (m : M (pipe_state (D := D)) A) : M os A :=
  zoom (λ s, mk_pstate (k_sched (o_k s)) (k_vm (o_k s)) (o_pipes s))
    (λ x s, o_set_pipes (pipes x) (o_set_k (k_upd_sched (ps_sched x) (k_upd_vm (ps_vm x) (o_k s))) s)) m.
Definition in_net {A} (m : M net_state A) : M os A :=
  zoom (λ s, mk_net (k_sched (o_k s)) (o_nic s))
    (λ x s, o_set_nic (nt_nic x) (o_set_k (k_upd_sched (nt_sched x) (o_k s)) s)) m.
Definition in_work {A} (m : M work_state A) : M os A :=
  zoom (λ s, mk_work (k_sched (o_k s)) (o_work s).1.1 (o_work s).1.2 (o_work s).2 (o_timer s))
    (λ x s, o_set_work (stage x, done_cnt x, preempt x) (o_set_timer (w_timer x) (o_set_k (k_upd_sched (w_sched x) (o_k s)) s))) m.

Definition running (s : os) : pcb_t := pcbs (k_sched (o_k s)) (current (k_sched (o_k s))).
Definition set_running (f : pcb_t → pcb_t) (s : os) : os :=
  o_set_k (k_upd_sched (upd_pcb (current (k_sched (o_k s))) f (k_sched (o_k s))) (o_k s)) s.
Definition set_dir (n : Z) (p : pcb_t) : pcb_t :=
  mk_pcb (kernel_sp p) (user_sp p) (full_context p) (kernel_stack_base p) (user_stack_base p) (pid p)
    (pname p) (status p) (Sched.cursor_x p) (Sched.cursor_y p) (wakeup_time p) (next_target p) (progress p)
    (killed p) (cpuid p) (mask p) (thread_group_id p) (pgdir_kva p) n.
Definition set_cursor (x y : Z) (p : pcb_t) : pcb_t :=
  mk_pcb (kernel_sp p) (user_sp p) (full_context p) (kernel_stack_base p) (user_stack_base p) (pid p)
    (pname p) (status p) x y (wakeup_time p) (next_target p) (progress p)
    (killed p) (cpuid p) (mask p) (thread_group_id p) (pgdir_kva p) (dir_inode p).

(** The file system works in the directory of the running process, the screen
    at its cursor. *)
Definition in_fs {A} (m : M fs_state A) : M os A :=
  zoom (λ s, upd_dir (dir_inode (running s)) (o_fs s))
    (λ x s, set_running (set_dir (cur_dir x)) (o_set_fs x s)) m.
Definition in_screen {A} (m : M (screen_state (T := T)) A) : M os A :=
  zoom (λ s, mk_screen (o_screen s).1.1 (o_screen s).1.2 (o_screen s).2
               (Sched.cursor_x (running s)) (Sched.cursor_y (running s)))
    (λ x s, set_running (set_cursor (cursor_x x) (cursor_y x))
       (o_set_screen (new_screen x, old_screen x, serial x) s)) m.

(** ** The caller's memory *)

Definition load_bytes (m : bmem) (p : Z) (n : nat) : list Z := (λ i, m (p + Z.of_nat i)) <$> seq 0 n.
Definition store_bytes (m : bmem) (p : Z) (bs : list Z) : bmem :=
  λ a, if decide (p ≤ a < p + Z.of_nat (length bs)) then default 0 (bs !! Z.to_nat (a - p)) else m a.

Definition user_bytes (p : Z) (n : nat) : M os (list Z) := gets (λ s, load_bytes (k_bytes (o_k s)) p n).
Definition user_str (p : Z) : M os (list Z) :=
  s ← get;
  n ← of_opt (strlen str_fuel (k_bytes (o_k s)) p);
  user_bytes p (Z.to_nat n).
(** An array of [n] pointers. *)
Definition user_ptrs (p : Z) (n : nat) : M os (list Z) :=
  bs ← user_bytes p (8 * n);
  mret ((λ i, Bytes.of_bytes (take 8 (drop (8 * i) bs))) <$> seq 0 n).
Definition put_bytes (p : Z) (bs : list Z) : M os unit :=
  modify (λ s, o_set_k (k_upd_bytes (store_bytes (k_bytes (o_k s)) p bs) (o_k s)) s).

(** ** Giving the core away *)

(** What the caller of [do_scheduler] does when it runs again. *)
Definition after_switch : CM os unit :=
  (r ⇐ lift (on_k scheduler_return);
   match r with None => cret tt | Some _ => lift exit_process end)%call.
Definition give_core (next : tcb) : CM os unit := mret (Switch next after_switch).
Definition sched_call : CM os unit :=
  (next ⇐ lift (on_k do_scheduler); give_core next)%call.

(** [if (current_running->killed) do_exit();] *)
Definition exit_if_killed : CM os unit :=
  (k ⇐ lift (gets (λ s, killed (running s)));
   if k =? 0 then cret tt else lift (on_k do_exit;; exit_process))%call.

Definition of_result (m : M kstate call_result) : CM os Z :=
  (r ⇐ lift (on_k m);
   match r with
   | Proc.Returned v => cret v
   | Switched next v => give_core next ⨾ cret v
   end)%call.

(** A call that waits in a loop: [again l] is the loop from the return of
    [do_scheduler] on, with the local variables [l], up to where it waits again
    or has its value. *)
Fixpoint wait_loop {L} (n : nat) (again : L → M os (L + Z)) (r : L + Z) : CM os Z :=
  match r with
  | inr v => cret v
  | inl l =>
      match n with
      | O => lift stuck
      | S n => (sched_call ⨾ r ⇐ lift (again l); wait_loop n again r)%call
      end
  end.

Definition no_value {A} (m : M os A) : CM os Z := (lift m ⨾ cret junk)%call.
Definition value (m : M os Z) : CM os Z := lift m.

(** A segment that ends in [do_exit]. *)
Definition exiting {A} (m : M os A) : M os A := λ s,
  match m s with
  | Exit s => (on_k do_exit;; exit_process) s
  | o => o
  end.

(** ** The blocking calls *)

Definition mutex_acquire (mlock_idx : Z) : CM os Z :=
  (blocked ⇐ lift (on_k (in_locks (do_mutex_lock_acquire mlock_idx)));
   (if (blocked : bool) then sched_call ⨾ exit_if_killed else cret tt) ⨾
   cret junk)%call.

Definition barrier_wait (bar_idx : Z) : CM os Z :=
  (blocked ⇐ lift (on_k (in_bars (do_barrier_wait bar_idx)));
   (if (blocked : bool) then sched_call ⨾ exit_if_killed else cret tt) ⨾
   cret junk)%call.

Definition condition_wait (cond_idx mutex_idx : Z) : CM os Z :=
  (blocked ⇐ lift (in_conds (do_condition_wait cond_idx mutex_idx));
   if (blocked : bool) then sched_call ⨾ exit_if_killed ⨾ mutex_acquire mutex_idx else cret junk)%call.

Definition of_mbox (r : mbox_result) : xfer + Z :=
  match r with Blocked l => inl l | Mbox.Returned v => inr v end.
Definition mbox_send (mbox_idx msg msg_length : Z) : CM os Z :=
  (r ⇐ lift (on_k (in_mbox (do_mbox_send mbox_idx msg msg_length)));
   wait_loop rounds (λ l, r ← exiting (on_k (in_mbox (mbox_send_resume mbox_idx msg msg_length l))); mret (of_mbox r)) (of_mbox r))%call.
Definition mbox_recv (mbox_idx msg msg_length : Z) : CM os Z :=
  (r ⇐ lift (on_k (in_mbox (do_mbox_recv mbox_idx msg msg_length)));
   wait_loop rounds (λ l, r ← exiting (on_k (in_mbox (mbox_recv_resume mbox_idx msg msg_length l))); mret (of_mbox r)) (of_mbox r))%call.

Definition of_pipe (r : pipe_result) : pipe_xfer + Z :=
  match r with PBlocked l => inl l | PReturned v => inr v end.
Definition pipe_give_pages (pipe_idx src length : Z) : CM os Z :=
  (r ⇐ lift (in_pipes (sys_pipe_give_pages pipe_idx src length));
   wait_loop rounds (λ l, r ← in_pipes (give_loop (Z.to_nat pipe_idx) length l); mret (of_pipe r)) (of_pipe r))%call.
Definition pipe_take_pages (pipe_idx dst length : Z) : CM os Z :=
  (r ⇐ lift (in_pipes (sys_pipe_take_pages pipe_idx dst length));
   wait_loop rounds (λ l, r ← in_pipes (take_loop (Z.to_nat pipe_idx) length l); mret (of_pipe r)) (of_pipe r))%call.

Definition net_send_once (packet length : Z) (l : unit) : M os (unit + Z) :=
  bs ← user_bytes packet (Z.to_nat length);
  r ← in_net (do_net_send tx_pkt_kva bs length);
  mret (match r with Some n => inr n | None => inl tt end).
Definition net_send (packet length : Z) : CM os Z :=
  (r ⇐ lift (net_send_once packet length tt); wait_loop rounds (net_send_once packet length) r)%call.

(** What was received is in the caller's memory when the call waits. *)
Definition net_recv_once (rxbuffer pkt_num pkt_lens : Z) (l : rv_vars) : M os (rv_vars + Z) :=
  r ← in_net (do_net_recv pkt_num l);
  let '(l, res) := match r with RReturned n l => (l, inr n) | RBlocked l => (l, inl l) end in
  put_bytes rxbuffer (rv_buf l);;
  put_bytes pkt_lens (concat (Bytes.bytes_of 4 <$> rv_lens l));;
  mret res.
Definition net_recv (rxbuffer pkt_num pkt_lens : Z) : CM os Z :=
  (r ⇐ lift (net_recv_once rxbuffer pkt_num pkt_lens (mk_rv 0 [] []));
   wait_loop rounds (net_recv_once rxbuffer pkt_num pkt_lens) r)%call.

(** ** Printing *)

Definition MAX_STATUS_LEN : Z := 7.

(** [printk] of a format with numbers, and of one with the string [str]. *)
Definition print (fmt : list Z) (va : list va_arg) : M os unit :=
  in_screen (printk str_fuel (λ _, 0) bf0 buff0 fmt va);; mret ().
Definition print_str (fmt str : list Z) : M os unit :=
  in_screen (printk str_fuel (λ a, if decide (0 ≤ a) then default 0 (str !! Z.to_nat a) else 0) bf0 buff0 fmt [Str 0]);;
  mret ().

Definition p_b (num : Z) : M os unit := for_ 0 (Z.to_nat num) (λ _, print (text " ") []).

(** The digits of a number; ten divisions are enough for an [int]. *)
Fixpoint i_len_loop (fuel : nat) (num len : Z) : option Z :=
  match fuel with
  | O => None
  | S fuel => if num =? 0 then Some len else i_len_loop fuel (Z.quot num 10) (len + 1)
  end.
Definition i_len (num : Z) : option Z := if num =? 0 then Some 1 else i_len_loop 11 num 0.

Definition STATUS2STR (p : pcb_t) : list Z :=
  match status p with
  | TASK_BLOCKED => if killed p =? 0 then text "BLOCKED" else text "ZOMBIE"
  | TASK_READY => text "READY  "
  | TASK_RUNNING => text "RUNNING"
  | TASK_EXITED => text "EXITED "
  end.

Definition show_process (valid_idx : Z) (p : pcb_t) : M os unit :=
  print (text "[%d] ") [Num valid_idx];;
  n ← of_opt (i_len valid_idx);
  p_b (4 - 2 - n);;
  print (text "%d ") [Num (pid p)];;
  n ← of_opt (i_len (pid p));
  p_b (3 - n);;
  print_str (text "%s ") (pname p);;
  p_b (Z.of_nat MAX_NAME_LEN - Z.of_nat (length (pname p)));;
  print_str (text "%s ") (STATUS2STR p);;
  p_b (MAX_STATUS_LEN - Z.of_nat (length (STATUS2STR p)));;
  print (text "0x%d ") [Num (mask p)];;
  n ← of_opt (i_len (mask p));
  p_b (4 - 2 - n);;
  if decide (status p = TASK_RUNNING) then print (text " Core %d" ++ [10]) [Num (cpuid p)] else print [10] [].

Fixpoint show_from (i n : nat) (valid_idx : Z) : M os unit :=
  match n with
  | O => mret ()
  | S n =>
      p ← in_s (the_pcb (Sched.Proc i));
      if decide (status p = TASK_EXITED) then show_from (S i) n valid_idx
      else show_process valid_idx p;; show_from (S i) n (valid_idx + 1)
  end.

Definition do_process_show : M os unit :=
  print (text "No. ") [];; p_b 1;;
  print (text "PID ") [];;
  print (text "name ") [];; p_b (Z.of_nat MAX_NAME_LEN - 4);;
  print (text "STATUS ") [];; p_b (MAX_STATUS_LEN - 6);;
  print (text "mask ") [];;
  print (text "Running_Core" ++ [10]) [];;
  show_from 0 TASK_MAXNUM 0.

(** The name is the format. *)
Definition list_tasks : M os unit :=
  print (text "Available tasks include:" ++ [10]) [];;
  s ← get;
  for_ 0 (Z.to_nat (o_tasknum s)) (λ i,
    t ← of_opt (k_tasks (o_k s) !! i);
    print (ti_name t) [];;
    print [10] []).

(** ** The byte stream

    The kernel's receiving loop sends, polls and sleeps; while it sleeps the
    other processes run, which is [meanwhile] here. *)
Context (meanwhile : os → os).

Fixpoint sync {A} (c : call os A) : M os A :=
  match c with
  | Done a => mret a
  | Switch _ r => λ s,
      match r (meanwhile s) with
      | Ok c s => sync c s
      | Exit s => Exit s
      | Stuck => Stuck
      end
  end.
Definition sync_call {A} (m : CM os A) : M os A := c ← m; sync c.

Definition send_packet (packet : list Z) (length : Z) : CM os Z :=
  let once (_ : unit) : M os (unit + Z) :=
    r ← in_net (do_net_send tx_pkt_kva packet length);
    mret (match r with Some n => inr n | None => inl tt end) in
  (r ⇐ lift (once tt); wait_loop rounds once r)%call.

#[local] Instance os_link : RtpLink os := {
  lk_poll := in_net (n_nic e1000_poll);
  lk_send p len := sync_call (send_packet p len);; mret ();
  lk_ticks := gets o_ticks;
  lk_sleep t := sync_call (of_result (do_sleep t));; mret ()
}.

Definition with_link (x : stream_state unit) (s : os) : stream_state os :=
  mk_st (reorder_heap x) (reorder_entries x) (next_expect_seq x) (last_valid_header x) (has_valid_header x) s.
Definition unlink (x : stream_state os) : stream_state unit :=
  mk_st (reorder_heap x) (reorder_entries x) (next_expect_seq x) (last_valid_header x) (has_valid_header x) tt.
Definition in_stream {A} (m : M (stream_state os) A) : M os A :=
  zoom (λ s, with_link (o_stream s) s) (λ x _, o_set_stream (unlink x) (link x)) m.

(** [raw0] is what the array on the kernel's stack holds. *)
Definition net_recv_stream (raw0 : list Z) (buffer nbytes : Z) : M os Z :=
  bs ← user_bytes nbytes 4;
  received ← in_stream (do_net_recv_stream rounds raw0 (s32 (Bytes.of_bytes bs)));
  put_bytes buffer received;;
  put_bytes nbytes (Bytes.bytes_of 4 (Z.of_nat (length received)));;
  mret (Z.of_nat (length received)).

(** ** The functions of the system call table *)

Definition exec (name argc argv : Z) : M os Z :=
  nm ← user_str name;
  ps ← user_ptrs argv (Z.to_nat argc);
  on_k (Proc.do_exec ret_from_exception pcb_addr nm ps).

Definition taskset (new_mask name p argc argv : Z) : CM os Z :=
  (nm ⇐ lift (if name =? 0 then mret None else nm ← user_str name; mret (Some nm));
   ps ⇐ lift (user_ptrs argv (Z.to_nat argc));
   next ⇐ lift (on_k (do_taskset ret_from_exception pcb_addr new_mask nm p ps));
   (match next with Some t => give_core t | None => cret tt end) ⨾
   cret junk)%call.

(** What the loops of [do_read] put into [buff], and its value. *)
Definition read (fd buff length : Z) : M os Z :=
  r ← in_fs (do_read fd length);
  put_bytes buff r.2;;
  mret r.1.

Definition call_fn (raw0 : list Z) (h : handler) (args : list Z) : CM os Z :=
  match h, args with
  | h_do_exec, [name; argc; argv] => value (exec name argc argv)
  | h_do_exit, [] => lift (on_k do_exit;; exit_process)
  | h_do_sleep, [t] => (of_result (do_sleep t) ⨾ cret junk)%call
  | h_do_kill, [p] => value (in_s (do_kill p))
  | h_do_waitpid, [p] => of_result (do_waitpid p)
  | h_do_process_show, [] => no_value do_process_show
  | h_do_getpid, [] => value (in_s do_getpid)
  | h_do_scheduler, [] => (sched_call ⨾ cret junk)%call
  | h_do_set_sche_workload, [n] => no_value (in_work (do_set_sche_workload n))
  | h_bios_getchar, [] => value (λ s,
      let r := bios_getchar (o_screen s).2 in Ok r.1 (o_set_screen ((o_screen s).1, r.2) s))
  | h_screen_write, [p] => no_value (bs ← user_str p; in_screen (screen_write (bs ++ [0])))
  | h_screen_move_cursor, [x; y] => no_value (in_screen (screen_move_cursor str_fuel (λ _, 0) bf0 buff0 x y))
  | h_screen_reflush, [] => no_value (in_screen (screen_reflush str_fuel (λ _, 0) bf0 buff0))
  | h_screen_clear, [] => no_value (in_screen (screen_clear str_fuel (λ _, 0) bf0 buff0))
  | h_get_time_base, [] => value (gets o_base)
  | h_get_ticks, [] => value (gets o_ticks)
  | h_do_mutex_lock_init, [key] => value (on_k (in_locks (do_mutex_lock_init key)))
  | h_do_mutex_lock_acquire, [i] => mutex_acquire i
  | h_do_mutex_lock_release, [i] => no_value (on_k (in_locks (do_mutex_lock_release i)))
  | h_do_barrier_init, [key; goal] => value (on_k (in_bars (do_barrier_init key goal)))
  | h_do_barrier_wait, [i] => barrier_wait i
  | h_do_barrier_destroy, [i] => no_value (on_k (in_bars (do_barrier_destroy i)))
  | h_do_condition_init, [key] => value (in_conds (do_condition_init key))
  | h_do_condition_wait, [i; j] => condition_wait i j
  | h_do_condition_signal, [i] => no_value (in_conds (do_condition_signal i))
  | h_do_condition_broadcast, [i] => no_value (in_conds (do_condition_broadcast i))
  | h_do_condition_destroy, [i] => no_value (in_conds (do_condition_destroy i))
  | h_do_mbox_open, [p] => value (nm ← user_str p; on_k (in_mbox (do_mbox_open nm)))
  | h_do_mbox_close, [i] => no_value (on_k (in_mbox (do_mbox_close i)))
  | h_do_mbox_send, [i; p; n] => mbox_send i p n
  | h_do_mbox_recv, [i; p; n] => mbox_recv i p n
  | h_do_taskset, [m; name; p; argc; argv] => taskset m name p argc argv
  | h_do_thread_create, [f; a; n] => value (on_k (do_thread_create ret_from_exception pcb_addr f a (Z.to_nat n)))
  | h_do_thread_join, [p] => of_result (do_thread_join p)
  | h_shm_page_get, [key] => value (s ← get; in_shm (shm_page_get (pgdir_kva (running s)) key))
  | h_shm_page_dt, [a] => no_value (s ← get; in_shm (shm_page_dt (pgdir_kva (running s)) a))
  | h_get_free_memory, [] => value (on_k (in_mm get_free_memory))
  | h_sys_pipe_open, [p] => value (nm ← user_str p; in_pipes (sys_pipe_open nm))
  | h_sys_pipe_give_pages, [i; p; n] => pipe_give_pages i p n
  | h_sys_pipe_take_pages, [i; p; n] => pipe_take_pages i p n
  | h_list_tasks, [] => no_value list_tasks
  | h_do_net_send, [p; n] => net_send p n
  | h_do_net_recv, [p; n; q] => net_recv p n q
  | h_do_net_recv_stream, [p; q] => value (net_recv_stream raw0 p q)
  | h_do_reset_stream, [] => no_value (in_stream do_reset_stream)
  | h_do_mkfs, [] => value (in_fs do_mkfs)
  | h_do_statfs, [] => value (r ← in_fs do_statfs; mret r.1.1)
  | h_do_cd, [p] => value (path ← user_str p; in_fs (do_cd path))
  | h_do_mkdir, [p] => value (path ← user_str p; in_fs (do_mkdir path))
  | h_do_rmdir, [p] => value (path ← user_str p; in_fs (do_rmdir path))
  | h_do_ls, [p; o] => value (path ← (if p =? 0 then mret [] else user_str p); r ← in_fs (do_ls path o); mret r.1)
  | h_do_open, [p; m] => value (path ← user_str p; in_fs (do_open path m))
  | h_do_read, [fd; p; n] => value (read fd p n)
  | h_do_write, [fd; p; n] => value (bs ← user_bytes p (Z.to_nat n); in_fs (do_write fd bs))
  | h_do_close, [fd] => value (in_fs (do_close fd))
  | h_do_ln, [p; q] => value (a ← user_str p; b ← user_str q; in_fs (do_ln a b))
  | h_do_rm, [p] => value (path ← user_str p; in_fs (do_rm path))
  | h_do_lseek, [fd; o; w] => value (in_fs (do_lseek fd o w))
  | _, _ => lift stuck
  end.

(** ** The kernel behind the trap handlers *)

Definition page_fault (stval : Z) : M os unit :=
  s ← get;
  exiting (on_k (in_vm (handle_page_fault (pgdir_kva (running s)) (pid (running s)) stval)));;
  mret ().

Definition in_plic {A} (m : M (plic_state (P := P)) A) : M os A := zoom o_plic o_set_plic m.

Definition os_calls (raw0 : list Z) : KernelCalls os := {|
  kc_fn := call_fn raw0;
  kc_killed s := killed (running s);
  kc_exit := on_k do_exit;
  kc_page_fault := page_fault;
  kc_set_timer t := modify (o_set_timer t);
  kc_plic_claim := in_plic plic_claim;
  kc_plic_complete id := in_plic (plic_complete id);
  kc_net_irq := in_net net_handle_irq
|}.
End Kernel.

(** ** Examples *)

Notation ex_os_t := (os (D := Z → Z) (C := Z → Z) (F := gmap Z (list Z)) (T := vt) (P := Z → Z)).

(** The example of Sched: process 0 runs, 1 and 2 are ready, 3 sleeps. *)
Definition ex_k : kstate (D := Z → Z) (C := Z → Z) :=
  mk_k ex_sched (replicate 16 (mk_mutex UNLOCKED UNLOCKED UNUSED 0))
    (replicate 16 (mk_barrier UNLOCKED UNUSED 0 0)) (replicate 16 (mk_mbox UNLOCKED (replicate 64 0) [] 0 0 0))
    (mk_vm (mk_swap mm_one [] [] 0 0 0 (λ _, 0)) []) (λ _, 0) (λ _, 0) [] (0, 0).
Definition ex_os : ex_os_t :=
  mk_os ex_k (replicate 16 (mk_cond UNLOCKED UNUSED)) []
    (mk_fs ∅ [] (mk_sb 0 0 0 0 0 0 0 0 0 0) false [] [] 0) (mk_nic (λ _, 0) [] [] [] [])
    (mk_st ∅ [] 0 [] 0 tt) ([], [], ex_vt) (CHECKPOINT, 0, true) (mk_plic false 0 0 0 (λ _, 0)) 0 0 0 0.

#[export] Instance ex_calls : KernelCalls ex_os_t :=
  os_calls 0 (λ _, 0) 0 100 100 0 (replicate 24 0) (replicate 256 0) (λ t, (-1, t)) id [].


