(* ===== verification/Main.v ===== *)
(** init/main.c: what core 0 does before the first process runs, and the state
    in which it leaves the kernel. *)
From S2P Require Import Prelude KMonad KList Sched Trap.
From S2P Require Import Pgtable MM PageTable Swap Shm Vm CString Bytes.
From S2P Require Import Resource Lock Barrier Cond Mbox Pipe Workload ExecStack Loader Proc.
From S2P Require Import FsDisk FsDir Fs Printk Screen E1000 Net Stream Plic Kernel Image.
Import String.StringSyntax.

(** The word of the boot block that [init_swap] reads (os/swap.h). *)
Definition SWAP_OFFSET_LOC : nat := 0x1ed.

Section Main.
Context {D : Type} `{!BlockDevice 64 D} {C : Type} `{!BlockDevice SECTOR_BYTES C}.
Context {F : Type} `{!BlockDevice SECTOR_LEN F} {T : Type} `{!Terminal T} {P : Type} `{!Mmio P}.
Context (ret_from_exception : Z) (pcb_addr : tcb → Z).
Context (str_fuel : nat) (bf0 buff0 : list Z).
#[local] Notation os := (os (D := D) (C := C) (F := F) (T := T) (P := P)).

Definition load_tasks (boot : list Z) (s : os) : os :=
  let tt := init_task_info boot (k_card (o_k s)) in
  let k := o_k s in
  mk_os (mk_k (k_sched k) (k_locks k) (k_bars k) (k_boxes k) (k_vm k) (k_bytes k) (k_card k) (tasks tt) (k_satp k))
    (o_conds s) (o_pipes s) (o_fs s) (o_nic s) (o_stream s) (o_screen s) (o_work s) (o_plic s)
    (tasknum tt) (o_timer s) (o_ticks s) (o_base s).

(** The tables and queues, in the order of [main]. [boot] is the boot block,
    [timebase] what the firmware says of the clock. [init_exception] and
    [init_syscall] fill tables that do not change (Trap). *)
Definition init_kernel (boot : list Z) (timebase : Z) : M os unit :=
  modify (load_tasks boot);;
  in_pipes init_pipes;;
  on_k (in_vm (on_sw (init_swap (s32 (field SWAP_OFFSET_LOC 4 boot)))));;
  in_shm init_shm;;
  on_k init_pcb;;
  modify (o_set_base timebase);;
  on_k (in_locks init_locks);;
  on_k (in_bars init_barriers);;
  in_conds init_conditions;;
  on_k (in_mbox init_mbox).

(** [main] of core 0 up to its idle loop; core 1 is woken in between (Smp), and
    the map at low addresses is taken out (Boot). *)
Definition main_core0 (boot : list Z) (timebase : Z) : M os unit :=
  init_kernel boot timebase;;
  in_screen (init_screen str_fuel (λ _, 0) bf0 buff0);;
  print str_fuel bf0 buff0 (text "> [INIT] CPU #%u has entered kernel with VM!" ++ [10]) [Num 0];;
  in_fs init_fs;;
  on_k (Proc.do_exec ret_from_exception pcb_addr (text "shell") []);;
  modify (λ s, o_set_timer (u64 (o_ticks s + TIMER_INTERVAL)) s).

(** [main] of core 1, which [cpu] of the scheduler's state is then. *)
Definition main_core1 : M os unit :=
  on_k smp_init;;
  s ← get;
  let cpu_id := Z.of_nat (cpu (k_sched (o_k s))) in
  print str_fuel bf0 buff0 ([10; 10] ++ text "> [INIT] CPU #%u has entered kernel with VM!" ++ [10]) [Num cpu_id];;
  print str_fuel bf0 buff0 (text "> [INIT] CORE%d setup successfully!" ++ [10]) [Num cpu_id];;
  modify (λ s, o_set_timer (u64 (o_ticks s + TIMER_INTERVAL)) s).
End Main.

(** ** Queue heads that have been initialised *)

(** All nodes of the kernel's lists exist, and those in [S] point to
    themselves; the rest of the scheduler is as in [x0]. *)
Record blank (x0 : sched_state) (S : gset node) (x : sched_state) : Prop := {
  bl_nodes : ∀ n, n ∈ boot_nodes → is_Some (heap x !! n);
  bl_self : ∀ n, n ∈ S → heap x !! n = Some (mk_node n n);
  bl_rest : x = upd_heap (heap x) x0
}.

Lemma q_init_blank x0 S x n : blank x0 S x → n ∈ boot_nodes →
  ∃ x', q_init n x = Ok tt x' ∧ blank x0 ({[n]} ∪ S) x'.
Proof.
  intros [Hn Hs Hr] Hin. destruct (Hn n Hin) as [[nx pv] Hx].
  exists (upd_heap (<[n := mk_node n n]> (heap x)) x). split.
  - unfold q_init. rewrite bind_get. unfold init_queue, st_prev, st_next.
    rewrite Hx. simpl. rewrite lookup_insert_eq. simpl. by rewrite insert_insert_eq.
  - split; cbn [heap upd_heap].
    + intros m Hm. destruct (decide (m = n)) as [->|]; [by rewrite lookup_insert_eq|].
      rewrite lookup_insert_ne by done. by apply Hn.
    + intros m [->%elem_of_singleton|Hm]%elem_of_union; [by rewrite lookup_insert_eq|].
      destruct (decide (m = n)) as [->|]; [by rewrite lookup_insert_eq|].
      rewrite lookup_insert_ne by done. by apply Hs.
    + by rewrite Hr.
Qed.

(** A loop that initialises queue heads and, with them, a table [l]. *)
Section Table.
Context {S T : Type} (sched_of : S → sched_state) (table : S → list T).

Lemma table_init (N : nat) (body : nat → M S unit) (heads : nat → list node) (fresh : T → T) (keep : S → Prop) x0 H s l :
  blank x0 H (sched_of s) → table s = l → keep s → length l = N →
  (∀ i s H, (i < N)%nat → blank x0 H (sched_of s) → keep s → length (table s) = N →
     wp (body i) s (λ _ s', blank x0 (list_to_set (heads i) ∪ H) (sched_of s') ∧
       table s' = alter fresh i (table s) ∧ keep s')) →
  wp (for_ 0 N body) s (λ _ s',
    blank x0 (list_to_set (concat (heads <$> seq 0 N)) ∪ H) (sched_of s') ∧ table s' = fresh <$> l ∧ keep s').
Proof.
  intros Hb Ht Hk Hl Hbody. eapply wp_mono.
  - apply (wp_for (λ i s, blank x0 (list_to_set (concat (heads <$> seq 0 i)) ∪ H) (sched_of s) ∧
      table s = (fresh <$> take i l) ++ drop i l ∧ keep s)).
    + split; [change (blank x0 (∅ ∪ H) (sched_of s)); by rewrite union_empty_l_L|]. by rewrite take_0, drop_0.
    + intros i t Hi (Hbt & Hlt & Hkt). eapply wp_mono; [apply (Hbody i t _ ltac:(lia) Hbt Hkt)|].
      { rewrite Hlt, length_app, length_fmap, length_take, length_drop. lia. }
      intros _ t' (Hb' & Ht' & Hk'). split; [|split; [|done]].
      * rewrite seq_S, fmap_app, concat_app. simpl. rewrite app_nil_r, list_to_set_app_L.
        by rewrite (union_comm_L (list_to_set (concat _))), <- union_assoc_L.
      * rewrite Ht', Hlt. destruct (lookup_lt_is_Some_2 l i) as [v Hv]; [lia|].
        rewrite (drop_S l v i Hv), (take_S_r l i v Hv), fmap_app, <- app_assoc.
        rewrite alter_app_r_alt; rewrite length_fmap, length_take; [|lia].
        by replace (i - i `min` length l)%nat with 0%nat by lia.
  - intros _ s' (Hb' & Ht' & Hk'). split; [done|]. split; [|done]. by rewrite Ht', take_ge, drop_ge, app_nil_r by (simpl; lia).
Qed.
End Table.

(** ** The tables of main *)

Lemma q_init_slot {T} `{!HasSpin T} x0 H (s : res_state T) n : blank x0 H (r_sched s) → n ∈ boot_nodes →
  ∃ s', on_sched (q_init n) s = Ok tt s' ∧ blank x0 ({[n]} ∪ H) (r_sched s') ∧ slots s' = slots s.
Proof.
  intros Hb Hn. destruct (q_init_blank x0 H _ n Hb Hn) as (x & Hq & Hx).
  eexists. split; [by apply on_sched_ok|]. done.
Qed.

Lemma set_slot_blank {T} `{!HasSpin T} x0 H (s : res_state T) i f : blank x0 H (r_sched s) →
  ∃ s', set_slot i f s = Ok tt s' ∧ blank x0 H (r_sched s') ∧ slots s' = alter f i (slots s).
Proof. intros Hb. by eexists. Qed.

(** Nodes of the kernel, by computation. *)
Ltac boot_node := apply (bool_decide_unpack _); by vm_compute.
Lemma head_boot (f : nat → node) N i : (i < N)%nat → Forall (λ n, n ∈ boot_nodes) (f <$> seq 0 N) → f i ∈ boot_nodes.
Proof.
  intros Hi Hf. rewrite Forall_forall in Hf. apply Hf, list_elem_of_fmap_2, elem_of_seq. lia.
Qed.

Lemma init_locks_ok x0 H s : blank x0 H (r_sched s) → length (slots s) = LOCK_NUM →
  wp init_locks s (λ _ s', blank x0 (list_to_set (concat ((λ i, [NMutex i]) <$> seq 0 LOCK_NUM)) ∪ H) (r_sched s') ∧
    slots s' = (λ _, mk_mutex UNLOCKED UNLOCKED UNUSED 0) <$> slots s ∧ True).
Proof.
  intros Hb Hl. apply (table_init r_sched slots LOCK_NUM init_lock (λ i, [NMutex i]) _ (λ _, True) x0 H s (slots s)); [done..|].
  intros i t H' Hi Ht _ _. destruct (q_init_slot x0 H' t (NMutex i) Ht) as (t1 & E1 & B1 & L1); [apply (head_boot _ 16); [done|boot_node]|].
  destruct (set_slot_blank x0 _ t1 i (λ _, mk_mutex UNLOCKED UNLOCKED UNUSED 0) B1) as (t2 & E2 & B2 & L2).
  unfold init_lock. rewrite wp_bind, (wp_ok _ _ _ _ _ E1), (wp_ok _ _ _ _ _ E2).
  split; [simpl; by rewrite union_empty_r_L|]. split; [by rewrite L2, L1|done].
Qed.

Lemma init_barriers_ok x0 H s : blank x0 H (r_sched s) → length (slots s) = BARRIER_NUM →
  wp init_barriers s (λ _ s', blank x0 (list_to_set (concat ((λ i, [NBarrier i]) <$> seq 0 BARRIER_NUM)) ∪ H) (r_sched s') ∧
    slots s' = (λ _, mk_barrier UNLOCKED UNUSED 0 0) <$> slots s ∧ True).
Proof.
  intros Hb Hl. apply (table_init r_sched slots BARRIER_NUM _ (λ i, [NBarrier i]) _ (λ _, True) x0 H s (slots s)); [done..|].
  intros i t H' Hi Ht _ _. destruct (q_init_slot x0 H' t (NBarrier i) Ht) as (t1 & E1 & B1 & L1); [apply (head_boot _ 16); [done|boot_node]|].
  destruct (set_slot_blank x0 _ t1 i (λ _, mk_barrier UNLOCKED UNUSED 0 0) B1) as (t2 & E2 & B2 & L2).
  rewrite wp_bind, (wp_ok _ _ _ _ _ E1), (wp_ok _ _ _ _ _ E2).
  split; [simpl; by rewrite union_empty_r_L|]. split; [by rewrite L2, L1|done].
Qed.

Lemma init_conditions_ok x0 H s : blank x0 H (c_sched s) → length (conditions s) = CONDITION_NUM →
  wp init_conditions s (λ _ s', blank x0 (list_to_set (concat ((λ i, [NCond i]) <$> seq 0 CONDITION_NUM)) ∪ H) (c_sched s') ∧
    conditions s' = (λ _, mk_cond UNLOCKED UNUSED) <$> conditions s ∧ slots (c_locks s') = slots (c_locks s)).
Proof.
  intros Hb Hl. unfold init_conditions, on_cond. rewrite wp_zoom. eapply wp_mono.
  - apply (table_init r_sched slots CONDITION_NUM _ (λ i, [NCond i]) (λ _, mk_cond UNLOCKED UNUSED) (λ _, True) x0 H (c_res s) (conditions s)); [done..|].
    intros i t H' Hi Ht _ _. destruct (q_init_slot x0 H' t (NCond i) Ht) as (t1 & E1 & B1 & L1); [apply (head_boot _ 16); [done|boot_node]|].
    destruct (set_slot_blank x0 _ t1 i (λ _, mk_cond UNLOCKED UNUSED) B1) as (t2 & E2 & B2 & L2).
    rewrite wp_bind, (wp_ok _ _ _ _ _ E1), (wp_ok _ _ _ _ _ E2).
    split; [simpl; by rewrite union_empty_r_L|]. split; [by rewrite L2, L1|done].
  - by intros _ r (? & ? & _).
Qed.

Definition fresh_box (m : mailbox_t) : mailbox_t := mk_mbox UNLOCKED (buf m) [] 0 0 0.

Section Disk.
Context {D : Type} `{!BlockDevice 64 D}.

Lemma init_mbox_ok x0 H (s : mbox_state (D := D)) : blank x0 H (mb_sched s) → length (mailboxes s) = MBOX_NUM →
  wp init_mbox s (λ _ s', blank x0 (list_to_set (concat ((λ i, [NSend i; NRecv i]) <$> seq 0 MBOX_NUM)) ∪ H) (mb_sched s') ∧
    mailboxes s' = fresh_box <$> mailboxes s ∧ mb_vm s' = mb_vm s ∧ mb_user s' = mb_user s).
Proof.
  intros Hb Hl. unfold init_mbox, on_box. rewrite wp_zoom. eapply wp_mono.
  - apply (table_init r_sched slots MBOX_NUM _ (λ i, [NSend i; NRecv i]) fresh_box (λ _, True) x0 H (mb_res s) (mailboxes s)); [done..|].
    intros i t H' Hi Ht _ _. destruct (set_slot_blank x0 _ t i fresh_box Ht) as (t1 & E1 & B1 & L1).
    destruct (q_init_slot x0 H' t1 (NRecv i) B1) as (t2 & E2 & B2 & L2); [apply (head_boot _ 16); [done|boot_node]|].
    destruct (q_init_slot x0 _ t2 (NSend i) B2) as (t3 & E3 & B3 & L3); [apply (head_boot _ 16); [done|boot_node]|].
    rewrite wp_bind, (wp_ok _ _ _ _ _ E1), wp_bind, (wp_ok _ _ _ _ _ E2), (wp_ok _ _ _ _ _ E3).
    split; [|split; [by rewrite L3, L2, L1|done]]. simpl. by rewrite union_empty_r_L, <- union_assoc_L.
  - by intros _ r (? & ? & _).
Qed.

Definition fresh_pipe (p : pipe_t) : pipe_t :=
  mk_pipe (pp_name p) 0 (page_buffer p) (pp_head p) (pp_tail p) (data_count p).

Lemma init_pipes_ok x0 H (s : pipe_state (D := D)) : blank x0 H (ps_sched s) → length (pipes s) = PIPE_MAX_NUM →
  wp init_pipes s (λ _ s', blank x0 (list_to_set (concat ((λ i, [NPipe i]) <$> seq 0 PIPE_MAX_NUM)) ∪ H) (ps_sched s') ∧
    pipes s' = fresh_pipe <$> pipes s ∧ ps_vm s' = ps_vm s).
Proof.
  intros Hb Hl.
  apply (table_init ps_sched pipes PIPE_MAX_NUM _ (λ i, [NPipe i]) fresh_pipe (λ t, ps_vm t = ps_vm s) x0 H s (pipes s)); [done..|].
  intros i t H' Hi Ht Hv _. rewrite wp_bind. unfold set_pipe. rewrite wp_modify.
  destruct (q_init_blank x0 H' (ps_sched t) (NPipe i) Ht) as (x & E & B); [apply (head_boot _ 16); [done|boot_node]|].
  unfold p_sched. rewrite wp_zoom. cbn [ps_sched ps_upd_pipes]. rewrite (wp_ok _ _ _ _ _ E).
  split; [simpl; by rewrite union_empty_r_L|done].
Qed.

(** ** The process table *)

Lemma set_pcb_blank x0 H x t f : blank x0 H x → blank (upd_pcb t f x0) H (upd_pcb t f x).
Proof. intros [Hn Hs Hr]. split; [done|done|]. by rewrite Hr. Qed.

(** No process exists: every slot is free. *)
Record no_process (n : nat) (x : sched_state) : Prop := {
  np_exited j : (j < n)%nat → status (pcbs x (Proc j)) = TASK_EXITED ∧ killed (pcbs x (Proc j)) = 1;
  np_idle c : pid (pcbs x (Idle c)) = 0
}.

Lemma no_process_boot n x stack : no_process n x → no_process (S n) (upd_pcb (Proc n) (boot_pcb stack) x).
Proof.
  intros [He Hi]. split; cbn [pcbs upd_pcb upd_pcbs].
  - intros j Hj. destruct (decide (Proc j = Proc n)) as [E|E]; [done|]. apply He. assert (j ≠ n) by congruence. lia.
  - intros c. rewrite decide_False by done. apply Hi.
Qed.

Context {C : Type} `{!BlockDevice SECTOR_BYTES C}.
Implicit Types (s : kstate (D := D) (C := C)).

(** What [init_pcb] changes: the scheduler, and pages that it allocates. *)
Definition with_pages (x : sched_state) (m : mm_state) s : kstate :=
  k_upd_sched x (k_upd_vm (vm_upd_mm m (k_vm s)) s).

Lemma with_pages_sched x y m s : k_upd_sched y (with_pages x m s) = with_pages y m s.
Proof. done. Qed.
Lemma with_pages_mm x m m' s : k_upd_vm (vm_upd_mm m' (k_vm (with_pages x m s))) (with_pages x m s) = with_pages x m' s.
Proof. done. Qed.

Lemma in_sched_with {A} (a : A) (c : M sched_state A) x y m s :
  c x = Ok a y → in_sched c (with_pages x m s) = Ok a (with_pages y m s).
Proof. intros Hc. unfold in_sched, zoom. cbn [k_sched with_pages k_upd_sched k_upd_vm]. by rewrite Hc. Qed.
Lemma in_mm_with {A} (a : A) (c : M mm_state A) x m m' s :
  c m = Ok a m' → in_mm c (with_pages x m s) = Ok a (with_pages x m' s).
Proof.
  intros Hc. unfold in_mm, in_vm, on_vmm, zoom.
  change (vm_mm (k_vm (with_pages x m s))) with m. by rewrite Hc.
Qed.

Definition pcb_stacks : Z := Z.of_nat TASK_MAXNUM * 8.

Lemma init_pcb_ok x0 H s F A :
  blank x0 H (k_sched s) → (∀ c, pid (pcbs x0 (Idle c)) = 0) →
  mm_inv (vm_mm (k_vm s)) F A → room (vm_mm (k_vm s)) pcb_stacks →
  wp init_pcb s (λ _ s', ∃ x1 x m A',
    s' = with_pages x m s ∧ mm_inv m F (A' ∪ A) ∧
    blank x1 (list_to_set (concat ((λ i, [NWait (Proc i)]) <$> seq 0 TASK_MAXNUM)) ∪ ({[NWait (Idle 0)]} ∪ H)) x ∧
    no_process TASK_MAXNUM x1 ∧ cpu x1 = cpu x0 ∧ current x1 = Idle 0).
Proof.
  intros Hb Hid HI Hroom. set (m0 := vm_mm (k_vm s)) in *.
  assert (s = with_pages (k_sched s) m0 s) as Es by by destruct s as [? ? ? ? [[] ?]].
  unfold init_pcb.
  destruct (q_init_blank x0 H _ (NWait (Idle 0)) Hb) as (y1 & E1 & B1); [boot_node|].
  rewrite Es at 1. rewrite wp_bind, (wp_ok _ _ _ _ _ (in_sched_with _ _ _ _ _ _ E1)).
  pose proof (set_pcb_blank _ _ _ (Idle 0) (idle_pcb 0 KERNEL_STACK_0) B1) as B2.
  rewrite wp_bind, (wp_ok _ _ _ tt (with_pages (upd_pcb (Idle 0) (idle_pcb 0 KERNEL_STACK_0) y1) m0 s)) by done.
  rewrite wp_bind.
  eapply wp_mono.
  - apply (wp_for (λ i t, ∃ x1 x m A', t = with_pages x m s ∧ mm_inv m F (A' ∪ A) ∧
      kernMemCurr m = kernMemCurr m0 + Z.of_nat (8 * i) * PAGE_SIZE ∧
      blank x1 (list_to_set (concat ((λ i, [NWait (Proc i)]) <$> seq 0 i)) ∪ ({[NWait (Idle 0)]} ∪ H)) x ∧
      no_process i x1 ∧ cpu x1 = cpu x0)).
    + eexists _, _, m0, ∅. split; [reflexivity|]. split; [by rewrite union_empty_l_L|]. split; [lia|].
      split; [simpl; rewrite union_empty_l_L; exact B2|]. split; [|done]. split; [lia|].
      intros c. simpl. by case_decide.
    + intros i t Hi (x1 & x & m & A' & -> & Hm & Hc & Hbx & Hnp & Hcpu).
      destruct (q_init_blank x1 _ x (NWait (Proc i)) Hbx) as (x' & Eq & Bq).
      { apply (head_boot (λ i, NWait (Proc i)) TASK_MAXNUM); [lia|boot_node]. }
      rewrite wp_bind, (wp_ok _ _ _ _ _ (in_sched_with _ _ _ _ _ _ Eq)).
      assert (room m 8) as Hr8.
      { unfold room, pcb_stacks, TASK_MAXNUM in *. rewrite Hc. unfold PAGE_SIZE in *. lia. }
      rewrite wp_bind, (wp_ok _ _ _ _ _ (in_mm_with _ _ _ _ _ _ (allocPage_bump m F (A' ∪ A) Hm 8 ltac:(by left) Hr8))).
      rewrite (wp_ok _ _ _ tt (with_pages (upd_pcb (Proc i) (boot_pcb (kernMemCurr m)) x') (set_kernMemCurr (kernMemCurr m + 8 * PAGE_SIZE) m) s)) by done.
      eexists _, _, _, (list_to_set (block (kernMemCurr m) 8) ∪ A'). split; [reflexivity|].
      split; [rewrite <- union_assoc_L; by apply (mm_inv_bump m F (A' ∪ A) Hm 8)|].
      split; [cbn [kernMemCurr set_kernMemCurr]; rewrite Hc; lia|].
      split; [|split; [by apply no_process_boot|done]].
      rewrite seq_S, fmap_app, concat_app, list_to_set_app_L. simpl. rewrite union_empty_r_L.
      apply set_pcb_blank. by rewrite (union_comm_L (list_to_set (concat _))), <- union_assoc_L.
  - intros _ t (x1 & x & m & A' & -> & Hm & Hc & Hbx & Hnp & Hcpu).
    rewrite (wp_ok _ _ _ tt (with_pages (upd_current (Idle 0) x) m s)) by done.
    exists (upd_current (Idle 0) x1), (upd_current (Idle 0) x), m, A'. split; [done|]. split; [done|].
    split; [|split; [by destruct Hnp|done]]. destruct Hbx as [Hn Hs Hrx]. split; [done|done|]. by rewrite Hrx.
Qed.

(** ** The tables of the memory management *)

(** No page may be swapped out. *)
Definition no_resident (w : swap_state (D := D)) : Prop := ∀ a, a ∈ active_pages w → valid_b a = false.

(** Then the page allocator is free to change. *)
Lemma swap_inv_quiet (w : swap_state (D := D)) m F A A' :
  swap_inv w None F A → no_resident w → mm_inv m F A' → swap_inv (upd_mm m w) None F A'.
Proof.
  intros HI Hq Hm.
  assert (∀ i a, ¬ resident (upd_mm m w) None i a) as Hno.
  { intros i a (Ha%list_elem_of_lookup_2%Hq & Hv & _). congruence. }
  destruct HI. split; try (intros; exfalso; by eapply Hno); done.
Qed.

Lemma init_swap_ok (w : swap_state (D := D)) off F A :
  mm_inv (sw_mm w) F A → length (active_pages w) = MAX_ALLOWABLE_PAGES → active_page_count w = 0 →
  0 ≤ clock_head w < Z.of_nat MAX_ALLOWABLE_PAGES → 0 ≤ off < 2 ^ 31 →
  wp (init_swap off) w (λ _ w', sw_mm w' = sw_mm w ∧ swap_inv w' None F A ∧ no_resident w').
Proof.
  intros HI Hl Hc Hh Ho. unfold init_swap. rewrite !wp_bind, !wp_modify. split; [done|].
  split; [|by intros a (b & -> & _)%list_elem_of_fmap].
  assert (Hno : ∀ i a, ¬ resident (upd_active (set_valid 0 <$> active_pages w)
    (upd_status (replicate swap_pages FREE) (upd_start (u32 (Z.quot off SECTOR_SIZE)) w))) None i a).
  { intros i a (Ha & Hv & _). cbn [active_pages upd_active upd_status upd_start] in Ha.
    apply list_lookup_fmap_Some in Ha as (b & -> & _). done. }
  assert (Hcnt : count_if valid_b (set_valid 0 <$> active_pages w) = 0%nat).
  { clear. induction (active_pages w) as [|a l IH]; [done|]. rewrite fmap_cons, count_if_cons.
    change (valid_b (set_valid 0 a)) with false. exact IH. }
  assert (0 ≤ Z.quot off SECTOR_SIZE < 2 ^ 23) as Hq.
  { unfold SECTOR_SIZE. rewrite Z.quot_div_nonneg by lia. split; [apply Z.div_pos; lia|apply Z.div_lt_upper_bound; lia]. }
  split; try (intros; exfalso; by eapply Hno); try done.
  - cbn [active_pages upd_active]. by rewrite length_fmap.
  - cbn [active_page_count active_pages upd_active upd_status upd_start]. by rewrite Hcnt, Hc.
  - cbn [SWAP_START_SEC upd_active upd_status upd_start]. rewrite u32_id by lia.
    unfold SECTOR_NUMS_PER_PAGE. change SWAP_MAX_PAGES with 65536. lia.
Qed.

Lemma init_shm_ok (x : shm_state) A (T : gmap Z label) :
  length (shm_table x) = SHM_MAX_NUM →
  wp init_shm x (λ _ x', sh_mm x' = sh_mm x ∧ shm_table_inv (shm_table x') A T ∧
    ∀ i e, shm_table x' !! i = Some e → shm_valid e = 0).
Proof.
  intros Hl. eapply wp_mono.
  - apply (wp_for (λ i t, sh_mm t = sh_mm x ∧ length (shm_table t) = SHM_MAX_NUM ∧
      ∀ j e, (j < i)%nat → shm_table t !! j = Some e → shm_va e = SHM_VA_BASE + Z.of_nat j * PAGE_SIZE ∧ shm_valid e = 0)).
    + split; [done|]. split; [done|]. intros j e ?. lia.
    + intros i t Hi (Hm & Hlt & He). destruct (lookup_lt_is_Some_2 (shm_table t) i) as [e He']; [rewrite Hlt; lia|].
      unfold shm_slot. rewrite wp_bind, wp_bind, wp_get, wp_of_opt. exists e. split; [done|].
      unfold set_shm_slot. rewrite wp_modify. split; [done|]. split; [cbn [shm_table sh_upd_table]; by rewrite length_insert|].
      intros j e' Hj. cbn [shm_table sh_upd_table]. destruct (decide (j = i)) as [->|].
      * rewrite list_lookup_insert_eq by (rewrite Hlt; lia). intros [= <-]. done.
      * rewrite list_lookup_insert_ne by done. apply He. lia.
  - intros _ t (Hm & Hlt & He). split; [done|].
    assert (Hv : ∀ i e, shm_table t !! i = Some e → shm_va e = SHM_VA_BASE + Z.of_nat i * PAGE_SIZE ∧ shm_valid e = 0).
    { intros i e Hi. apply He; [|done]. apply lookup_lt_Some in Hi. rewrite Hlt in Hi. lia. }
    assert (Hno : ∀ i e, ¬ valid_at (shm_table t) i e).
    { intros i e [Hi%Hv Hb]. unfold shm_valid_b in Hb. destruct Hi as [_ Hi]. by rewrite Hi in Hb. }
    split; [|by intros i e [_ ?]%Hv]. split; [done|by intros i e [? _]%Hv|intros; exfalso; by eapply Hno..].
Qed.
End Disk.

(** ** The kernel before the first process *)

(** The queues of core 0's initialisation: those of the network card and the
    wait list of core 1's idle process are not among them. *)
Definition core0_heads : list node :=
  [NReady; NSleep] ++ (NPipe <$> seq 0 16) ++ [NWait (Idle 0)] ++ ((λ i, NWait (Proc i)) <$> seq 0 TASK_MAXNUM)
  ++ (NMutex <$> seq 0 16) ++ (NBarrier <$> seq 0 16) ++ (NCond <$> seq 0 16)
  ++ (NSend <$> seq 0 16) ++ (NRecv <$> seq 0 16).
Definition core0_queues : gmap node (list tcb) := list_to_map ((λ n, (n, [])) <$> core0_heads).

Lemma core0_lookup n xs : core0_queues !! n = Some xs → n ∈ core0_heads ∧ xs = [].
Proof.
  intros Hn%elem_of_list_to_map_2. apply list_elem_of_fmap in Hn as (m & [= -> ->] & ?). done.
Qed.

Lemma list_node_boot t : valid_tcb t → NList t ∈ boot_nodes.
Proof.
  intros Ht. apply elem_of_app. right. unfold boot_lists. destruct t as [i|c]; simpl in Ht; apply elem_of_app.
  - left. apply (list_elem_of_fmap_2 (λ i, NList (Proc i))), elem_of_seq. lia.
  - right. apply (list_elem_of_fmap_2 (λ c, NList (Idle c))), elem_of_seq. lia.
Qed.

Lemma linked_blank x0 H x : blank x0 H x → (∀ n, n ∈ core0_heads → n ∈ H) → linked (heap x) core0_queues.
Proof.
  intros [Hn Hs _] HH. split.
  - split.
    + intros head ys (xs & [Hin ->]%core0_lookup & ->)%lists_inv.
      split; [apply NoDup_singleton|]. split; [|done]. unfold links, ld_next, ld_prev. by rewrite Hs by by apply HH.
    + intros hd1 hd2 xs1 xs2 z (xs & [_ ->]%core0_lookup & ->)%lists_inv (xs' & [_ ->]%core0_lookup & ->)%lists_inv.
      simpl. rewrite !list_elem_of_singleton. congruence.
  - intros t Ht. by apply Hn, list_node_boot.
  - intros t. destruct (core0_queues !! NList t) eqn:E; [|done]. apply core0_lookup in E as [E _]. exfalso.
    assert (Forall (λ n, container_of n = None) core0_heads) as Hf by (apply (bool_decide_unpack _); by vm_compute).
    rewrite Forall_forall in Hf. by apply Hf in E.
Qed.

Section Spec.
Context {D : Type} `{!BlockDevice 64 D} {C : Type} `{!BlockDevice SECTOR_BYTES C}.
Context {F : Type} `{!BlockDevice SECTOR_LEN F} {T : Type} `{!Terminal T} {P : Type} `{!Mmio P}.
#[local] Notation os := (os (D := D) (C := C) (F := F) (T := T) (P := P)).

(** The memory of the kernel as it is loaded: [LIST_HEAD] has initialised two
    queues, the arrays have their sizes, and all else is 0. *)
Record loaded (s : os) (L : list Z) (A : gset Z) : Prop := {
  ld_blank : blank (k_sched (o_k s)) {[NReady; NSleep]} (k_sched (o_k s));
  ld_idle c : pid (pcbs (k_sched (o_k s)) (Idle c)) = 0;
  ld_cpu : cpu (k_sched (o_k s)) = 0%nat;
  ld_mm : mm_inv (vm_mm (k_vm (o_k s))) L A;
  ld_room : room (vm_mm (k_vm (o_k s))) pcb_stacks;
  ld_active : length (active_pages (vm_sw (k_vm (o_k s)))) = MAX_ALLOWABLE_PAGES;
  ld_count : active_page_count (vm_sw (k_vm (o_k s))) = 0;
  ld_clock : clock_head (vm_sw (k_vm (o_k s))) = 0;
  ld_shm : length (vm_shm (k_vm (o_k s))) = SHM_MAX_NUM;
  ld_locks : length (k_locks (o_k s)) = LOCK_NUM;
  ld_bars : length (k_bars (o_k s)) = BARRIER_NUM;
  ld_conds : length (o_conds s) = CONDITION_NUM;
  ld_boxes : length (k_boxes (o_k s)) = MBOX_NUM;
  ld_bufs m : m ∈ k_boxes (o_k s) → length (buf m) = 64%nat;
  ld_pipes : length (o_pipes s) = PIPE_MAX_NUM;
  ld_rings p : p ∈ o_pipes s → pipe_ok p
}.

(** Every invariant that the operations of the components rely on. *)
Record kernel_inv (s : os) (Q : gmap node (list tcb)) (L : list Z) (A : gset Z) : Prop := {
  kv_locks : lock_inv (mk_res (k_sched (o_k s)) (k_locks (o_k s))) Q;
  kv_bars : barrier_inv (mk_res (k_sched (o_k s)) (k_bars (o_k s))) Q;
  kv_conds : cond_inv (mk_conds (mk_res (k_sched (o_k s)) (k_locks (o_k s))) (o_conds s)) Q;
  kv_boxes : boxes_inv (mk_res (k_sched (o_k s)) (k_boxes (o_k s))) Q;
  kv_pipes : pipe_inv (mk_pstate (k_sched (o_k s)) (k_vm (o_k s)) (o_pipes s)) Q;
  kv_swap : swap_inv (vm_sw (k_vm (o_k s))) None L A;
  kv_shm : shm_table_inv (vm_shm (k_vm (o_k s))) A (∅ : gmap Z label)
}.

Lemma sched_inv_boot x0 H x : blank x0 H x → (∀ n, n ∈ core0_heads → n ∈ H) →
  no_process TASK_MAXNUM x0 → cpu x0 = 0%nat → current x0 = Idle 0 → sched_inv x core0_queues.
Proof.
  intros Hb HH [_ Hid] Hc Hcur. pose proof (bl_rest _ _ _ Hb) as Hr. split.
  - by eapply linked_blank.
  - eexists. by vm_compute.
  - eexists. by vm_compute.
  - by intros hd xs t [_ ->]%core0_lookup ?%not_elem_of_nil.
  - by intros hd xs t [_ ->]%core0_lookup ?%not_elem_of_nil.
  - rewrite Hr. cbn [current upd_heap]. rewrite Hcur. simpl. unfold NR_CPUS. lia.
  - rewrite Hr. cbn [cpu upd_heap]. rewrite Hc. unfold NR_CPUS. lia.
  - intros c. rewrite Hr. apply Hid.
Qed.

Ltac all_empty := apply (bool_decide_unpack _); by vm_compute.
(** A table whose queues are all empty. *)
Lemma res_inv_boot {U} `{!HasSpin U} (hd : nat → node) N (ok : U → list tcb → Prop) x Q (l : list U) (f : U → U) :
  sched_inv x Q → length l = N → (∀ u, u ∈ l → spin_of (f u) = UNLOCKED ∧ ok (f u) []) →
  Forall (λ n, Q !! n = Some []) (hd <$> seq 0 N) →
  res_inv hd N ok (mk_res x (f <$> l)) Q.
Proof.
  intros HI Hl Hf HQ. split; [done|by cbn [slots]; rewrite length_fmap|].
  cbn [slots]. intros i u (v & -> & Hv)%list_lookup_fmap_Some. exists []. rewrite Forall_forall in HQ.
  split.
  - apply HQ, list_elem_of_fmap_2, elem_of_seq. apply lookup_lt_Some in Hv. lia.
  - apply Hf. by eapply list_elem_of_lookup_2.
Qed.

(** The queues of the tables of kernel/locking and of the mailboxes. *)
Definition sync_heads : list node :=
  (NMutex <$> seq 0 16) ++ (NBarrier <$> seq 0 16) ++ (NCond <$> seq 0 16) ++ (NSend <$> seq 0 16) ++ (NRecv <$> seq 0 16).

(** No process waits for an object. *)
Definition idle_heads : list node := sync_heads ++ (NPipe <$> seq 0 16).
Definition idle (Q : gmap node (list tcb)) : Prop := Forall (λ n, Q !! n = Some []) idle_heads.

Lemma idle_sub Q hs : idle Q → Forall (λ n, n ∈ idle_heads) hs → Forall (λ n, Q !! n = Some []) hs.
Proof. unfold idle. rewrite !Forall_forall. auto. Qed.
Ltac idle_queues := eapply idle_sub; [eassumption|all_empty].

(** Tables with nothing in them, over queues that are empty. *)
Lemma tables_boot x Q (s : os) :
  sched_inv x Q → idle Q →
  length (k_locks (o_k s)) = LOCK_NUM → length (k_bars (o_k s)) = BARRIER_NUM →
  length (o_conds s) = CONDITION_NUM → length (k_boxes (o_k s)) = MBOX_NUM →
  (∀ m, m ∈ k_boxes (o_k s) → length (buf m) = 64%nat) →
  let lk := (λ _, mk_mutex UNLOCKED UNLOCKED UNUSED 0) <$> k_locks (o_k s) in
  lock_inv (mk_res x lk) Q ∧
  barrier_inv (mk_res x ((λ _, mk_barrier UNLOCKED UNUSED 0 0) <$> k_bars (o_k s))) Q ∧
  cond_inv (mk_conds (mk_res x lk) ((λ _, mk_cond UNLOCKED UNUSED) <$> o_conds s)) Q ∧
  boxes_inv (mk_res x (fresh_box <$> k_boxes (o_k s))) Q.
Proof.
  intros HS HQ Hl Hb Hc Hm Hbuf lk.
  assert (lock_inv (mk_res x lk) Q) as Hlk.
  { eapply res_inv_boot; [exact HS|exact Hl|done|idle_queues]. }
  split; [done|]. split; [|split].
  - eapply res_inv_boot; [exact HS|exact Hb|done|idle_queues].
  - split; [done|]. eapply res_inv_boot; [exact HS|exact Hc|done|idle_queues].
  - split; (eapply res_inv_boot; [exact HS|exact Hm| |idle_queues]); intros m Hin%Hbuf; (split; [done|]);
      split; cbn [fresh_box buf nread nwrite]; unfold MAX_MBOX_LENGTH, INT_MAX; [done|lia..].
Qed.

Lemma pipes_boot x Q v l ps :
  sched_inv x Q → idle Q → length l = PIPE_MAX_NUM → (∀ p, p ∈ l → pipe_ok p) → ps = fresh_pipe <$> l →
  pipe_inv (mk_pstate (D := D) x v ps) Q.
Proof.
  intros HS HQ Hl Hok ->. split; [done|by cbn [pipes]; rewrite length_fmap|].
  intros i p (q & -> & Hq)%list_lookup_fmap_Some. split.
  - apply list_elem_of_lookup_2 in Hq as Hin. by destruct (Hok q Hin).
  - assert (Forall (λ n, Q !! n = Some []) (NPipe <$> seq 0 PIPE_MAX_NUM)) as Hf by idle_queues.
    rewrite Forall_forall in Hf. exists []. apply Hf, list_elem_of_fmap_2, elem_of_seq. apply lookup_lt_Some in Hq. lia.
Qed.

(** Without valid entries, the allocator is free to change. *)
Lemma shm_quiet l A A' :
  shm_table_inv l A (∅ : gmap Z label) → (∀ i e, l !! i = Some e → shm_valid e = 0) →
  shm_table_inv l A' (∅ : gmap Z label).
Proof.
  intros HI Hv.
  assert (∀ i e, ¬ valid_at l i e) as Hno.
  { intros i e [Hi%Hv Hb]. unfold shm_valid_b in Hb. by rewrite Hi in Hb. }
  destruct HI. split; try (intros; exfalso; by eapply Hno); done.
Qed.

Lemma sync_heads_set (H : gset node) n : n ∈ H ∨ n ∈ sync_heads →
  n ∈ list_to_set (C := gset node) (concat ((λ i, [NSend i; NRecv i]) <$> seq 0 MBOX_NUM)) ∪
    (list_to_set (concat ((λ i, [NCond i]) <$> seq 0 CONDITION_NUM)) ∪
      (list_to_set (concat ((λ i, [NBarrier i]) <$> seq 0 BARRIER_NUM)) ∪
        (list_to_set (concat ((λ i, [NMutex i]) <$> seq 0 LOCK_NUM)) ∪ H))).
Proof.
  intros [Hn|Hn]; [by do 4 apply elem_of_union_r|]. rewrite !union_assoc_L. apply elem_of_union_l.
  revert n Hn. apply Forall_forall. all_empty.
Qed.

(** The kernel when its memory is set up: the process table and the pipes are
    in order, and the tables of the other modules are as they were. *)
Record memory_ready (s s' : os) (L : list Z) (A : gset Z) (x1 : sched_state) (H : gset node) : Prop := {
  mr_blank : blank x1 H (k_sched (o_k s'));
  mr_heads : Forall (λ n, n ∈ H ∨ n ∈ sync_heads) core0_heads;
  mr_procs : no_process TASK_MAXNUM x1;
  mr_cpu : cpu x1 = 0%nat;
  mr_current : current x1 = Idle 0;
  mr_pipes : o_pipes s' = fresh_pipe <$> o_pipes s;
  mr_swap : swap_inv (vm_sw (k_vm (o_k s'))) None L A;
  mr_shm : shm_table_inv (vm_shm (k_vm (o_k s'))) A (∅ : gmap Z label);
  mr_locks : k_locks (o_k s') = k_locks (o_k s);
  mr_bars : k_bars (o_k s') = k_bars (o_k s);
  mr_conds : o_conds s' = o_conds s;
  mr_boxes : k_boxes (o_k s') = k_boxes (o_k s)
}.

Lemma init_memory_ok boot (s : os) L A (rest : M os unit) (Q : unit → os → Prop) :
  loaded s L A → 0 ≤ s32 (field SWAP_OFFSET_LOC 4 boot) →
  (∀ s' A' x1 H, memory_ready s s' L (A' ∪ A) x1 H → wp rest s' Q) →
  wp (modify (load_tasks boot);; in_pipes init_pipes;;
      on_k (in_vm (on_sw (init_swap (s32 (field SWAP_OFFSET_LOC 4 boot)))));; in_shm init_shm;; on_k init_pcb;; rest) s Q.
Proof.
  intros Hld Hoff Hrest. pose proof (ld_idle _ _ _ Hld) as Hid.
  assert (s32 (field SWAP_OFFSET_LOC 4 boot) < 2 ^ 31) as Hoff2.
  { unfold s32. match goal with |- context [?a mod ?b] => pose proof (Z.mod_pos_bound a b ltac:(lia)) end. lia. }
  rewrite wp_bind, wp_modify, wp_bind. unfold in_pipes. rewrite wp_zoom.
  eapply wp_mono; [apply (init_pipes_ok (k_sched (o_k s)) {[NReady; NSleep]}); [apply Hld|exact (ld_pipes _ _ _ Hld)]|].
  intros _ ps (Hbp & Hps & Hvm). cbn [ps_vm load_tasks o_k k_vm] in Hvm.
  rewrite wp_bind. unfold on_k, in_vm, on_sw. rewrite !wp_zoom. cbn [o_k o_set_pipes o_set_k k_vm k_upd_sched k_upd_vm].
  rewrite Hvm. eapply wp_mono; [apply (init_swap_ok _ _ L A); try apply Hld;
    [rewrite (ld_clock _ _ _ Hld); unfold MAX_ALLOWABLE_PAGES; lia|done]|].
  intros _ w (Hwm & Hw & Hq). rewrite wp_bind. unfold in_shm. rewrite wp_zoom.
  eapply wp_mono; [apply (init_shm_ok _ A (∅ : gmap Z label)); exact (ld_shm _ _ _ Hld)|].
  intros _ sh (Hshm' & Htab & Hval). rewrite wp_bind, wp_zoom.
  change (sh_mm sh = sw_mm w) in Hshm'.
  assert (mm_inv (sh_mm sh) L A) as Hms by (rewrite Hshm'; apply Hw).
  assert (room (sh_mm sh) pcb_stacks) as Hrs by (rewrite Hshm', Hwm; apply Hld).
  eapply wp_mono.
  { eapply (init_pcb_ok (k_sched (o_k s)) _ _ L A); [exact Hbp|exact Hid|exact Hms|exact Hrs]. }
  intros _ k (x1 & x & m & A' & -> & Hm & Hbx & Hnp & Hc1 & Hcur).
  eapply Hrest. split; [exact Hbx|all_empty|done|by rewrite Hc1; apply Hld|done|exact Hps|..|done|done|done|done].
  - apply (swap_inv_quiet _ _ L A); [|exact Hq|done]. exact (swap_inv_quiet _ _ L A A Hw Hq Hms).
  - by apply (shm_quiet _ A).
Qed.

End Spec.

(** The kernel as the linker and the loader leave it. *)
Definition boot_sched : sched_state := mk_sched boot_heap (λ _, ex_pcb 0 TASK_BLOCKED 0) (Idle 0) 0 0 1.
Definition boot_vm : vm_state (D := Z → Z) :=
  mk_vm (mk_swap mm_init (replicate MAX_ALLOWABLE_PAGES (mk_ap 0 0 0 0 0)) [] 0 0 0 (λ _, 0))
    (replicate SHM_MAX_NUM (mk_shm 0 0 0 0 0)).
Definition boot_k : kstate (D := Z → Z) (C := Z → Z) :=
  mk_k boot_sched (replicate LOCK_NUM (mk_mutex UNLOCKED UNLOCKED 0 0)) (replicate BARRIER_NUM (mk_barrier UNLOCKED 0 0 0))
    (replicate MBOX_NUM (mk_mbox UNLOCKED (replicate 64 0) [] 0 0 0)) boot_vm (λ _, 0) (λ _, 0) [] (0, 0).
Definition boot_os : ex_os_t :=
  mk_os boot_k (replicate CONDITION_NUM (mk_cond UNLOCKED 0)) (replicate PIPE_MAX_NUM (mk_pipe [] 0 (replicate 32 0) 0 0 0))
    (o_fs ex_os) (o_nic ex_os) (o_stream ex_os) (o_screen ex_os) (o_work ex_os) (o_plic ex_os) 0 0 0 0.

Lemma boot_os_loaded : loaded boot_os [] ∅.
Proof.
  split; try done.
  - split; [|intros n [Hn|Hn]%elem_of_union; apply elem_of_singleton in Hn as ->; by vm_compute|done].
    intros n Hn. eexists. by apply boot_heap_lookup.
  - apply mm_inv_init.
  - by intros m [-> _]%elem_of_replicate.
  - intros p [-> _]%elem_of_replicate. by split; cbn; unfold PIPE_BUFFER_SIZE; [done|lia..|].
Qed.

