(* ===== verification/Tick.v ===== *)
(** The timer interrupt through the whole kernel: from the trap (entry.S,
    irq.c) over the clock, the sleeping processes and the choice of the next
    process (time.c, sched.c) to the page table it runs with. *)
From S2P Require Import Prelude KMonad KList Sched Resource Lock Barrier Cond Mbox Pipe.
From S2P Require Import Pgtable MM PageTable Swap Shm Vm Workload Loader Proc FsDisk Screen Plic Stream.
From S2P Require Import Trap Kernel Main.

(** ** do_scheduler over the joint state *)

(** No process waits to be cleaned up. *)
Definition no_zombie (x : sched_state) : Prop :=
  ∀ i, (i < TASK_MAXNUM)%nat → status (pcbs x (Proc i)) = TASK_BLOCKED → killed (pcbs x (Proc i)) ≠ 1.

(** The state when the sleepers whose time has come are awake. *)
Definition woken (x : sched_state) (xs : list tcb) : sched_state := upd_pcbs (wake_pcbs (awake x xs) (pcbs x)) x.

Section Scheduler.
Context {D : Type} `{!BlockDevice 64 D} {C : Type} `{!BlockDevice SECTOR_BYTES C}.
Implicit Types k : kstate (D := D) (C := C).

Lemma in_sched_ok {A} (m : M sched_state A) k a x : m (k_sched k) = Ok a x → in_sched m k = Ok a (k_upd_sched x k).
Proof. intros Hm. unfold in_sched, zoom. by rewrite Hm. Qed.

Lemma clean_zombie_none k : no_zombie (k_sched k) → clean_zombie k = Ok tt k.
Proof.
  intros Hz. assert (wp clean_zombie k (λ _ k', k' = k)) as H.
  { apply (wp_for (λ _ k', k' = k)); [done|].
    intros i k' Hi ->. assert (k_upd_sched (k_sched k) k = k) as Ek by by destruct k.
    rewrite wp_bind, (wp_ok _ _ _ (pcbs (k_sched k) (Proc i)) k); [|unfold in_sched, zoom; simpl; by rewrite Ek].
    destruct (bool_decide _ && _) eqn:E; [|done]. apply andb_true_iff in E as [Hs%bool_decide_eq_true Hk%Z.eqb_eq].
    exfalso. apply (Hz i); [lia|done|done]. }
  apply wp_iff in H as ([] & k' & H & ->). exact H.
Qed.

Lemma no_zombie_woken x xs h : no_zombie x → no_zombie (upd_heap h (woken x xs)).
Proof.
  intros Hz i Hi. cbn [pcbs upd_heap woken upd_pcbs]. rewrite wake_pcbs_lookup. case_decide; [done|]. by apply Hz.
Qed.

Lemma no_zombie_switched x y next : no_zombie x → (∀ t, pcbs y t = switched_pcbs x next t) → no_zombie y.
Proof.
  intros Hz Hy i Hi. rewrite Hy. unfold switched_pcbs. repeat case_decide; cbn; try done; destruct (goes_ready x); try done; by apply Hz.
Qed.

Lemma do_scheduler_ok k Q rs xs :
  sched_inv (k_sched k) Q → Q !! NReady = Some rs → Q !! NSleep = Some xs → no_zombie (k_sched k) →
  let x := k_sched k in
  let '(next, rest) := choice (woken x xs) (rs ++ awake x xs) in
  ∃ y, do_scheduler k = Ok next (set_satp (pid (pcbs y next)) (Z.shiftr (kva2pa (pgdir_kva (pcbs y next))) NORMAL_PAGE_SHIFT) (k_upd_sched y k)) ∧
    sched_inv y (<[NReady := rest]> (<[NSleep := asleep x xs]> Q)) ∧ current y = next ∧ status (pcbs y next) = TASK_RUNNING ∧
    ¬ queued (<[NReady := rest]> (<[NSleep := asleep x xs]> Q)) next ∧ no_zombie y.
Proof.
  intros HI Hr Hx Hz x.
  destruct (check_sleeping_ok x Q xs rs) as (h & Hc & HL); [by apply HI|done|done|intros t Ht; by eapply is_proc_valid, (sv_proc _ _ HI)|].
  assert (sched_inv (upd_heap h (woken x xs)) (<[NReady := rs ++ awake x xs]> (<[NSleep := asleep x xs]> Q))) as H1.
  { apply (sched_inv_wake x Q NSleep xs); [done|done|done|done|apply awake_asleep| |done].
    unfold asleep. intros t Ht. by apply list_elem_of_filter in Ht as [_ ?]. }
  pose proof (pick_next_inv _ _ (rs ++ awake x xs) H1 ltac:(by rewrite lookup_insert_eq)) as Hp.
  change (choice (upd_heap h (woken x xs))) with (choice (woken x xs)) in Hp.
  destruct (choice (woken x xs) (rs ++ awake x xs)) as [next rest]. destruct Hp as (y & Hp & Hy & Hcur & Hrun & _ & Hpcb & Hnq).
  rewrite insert_insert_eq in Hy, Hnq. exists y.
  assert (no_zombie y) as Hzy by (eapply no_zombie_switched; [exact (no_zombie_woken x xs h Hz)|exact Hpcb]).
  split; [|done].
  unfold do_scheduler. rewrite (bind_ok _ _ _ _ _ (in_sched_ok _ k _ _ Hc)).
  rewrite (bind_ok _ _ _ _ _ (clean_zombie_none (k_upd_sched (upd_heap h (woken x xs)) k) (no_zombie_woken x xs h Hz))).
  rewrite (bind_ok _ _ _ next (k_upd_sched y k)); [done|].
  rewrite (in_sched_ok _ _ next y); [done|exact Hp].
Qed.
End Scheduler.

(** ** The trap *)

Lemma cbind_ok {K A B} (m : CM K A) (k : A → CM K B) s a s' : m s = Ok (Done a) s' → cbind m k s = k a s'.
Proof. unfold cbind. by intros ->. Qed.
Lemma cbind_switch {K A B} (m : CM K A) (k : A → CM K B) s n r s' :
  m s = Ok (Switch n r) s' → ∃ r', cbind m k s = Ok (Switch n r') s'.
Proof. unfold cbind. intros ->. by eexists. Qed.

Section Tick.
Context {D : Type} `{!BlockDevice 64 D} {C : Type} `{!BlockDevice SECTOR_BYTES C}.
Context {F : Type} `{!BlockDevice SECTOR_LEN F} {T : Type} `{!Terminal T} {P : Type} `{!Mmio P}.
Context (ret_from_exception : Z) (pcb_addr : tcb → Z) (tx_pkt_kva : Z).
Context (str_fuel rounds : nat) (junk : Z) (bf0 buff0 : list Z) (bios_getchar : T → Z * T).
#[local] Notation os := (os (D := D) (C := C) (F := F) (T := T) (P := P)).
Context (meanwhile : os → os) (raw0 : list Z).

#[local] Instance calls : KernelCalls os :=
  os_calls ret_from_exception pcb_addr tx_pkt_kva str_fuel rounds junk bf0 buff0 bios_getchar meanwhile raw0.

(** What only changes the ready and the sleeping processes keeps the rest. *)
Lemma kernel_inv_frame (s : os) Q L A y Q' a b tm :
  kernel_inv s Q L A → sched_inv y Q' → (∀ n, n ≠ NReady → n ≠ NSleep → Q' !! n = Q !! n) →
  kernel_inv (o_set_k (set_satp a b (k_upd_sched y (o_k s))) (o_set_timer tm s)) Q' L A.
Proof.
  intros HI Hy Hn. pose proof (kv_locks _ _ _ _ HI) as Hl. pose proof (kv_boxes _ _ _ _ HI) as [Hs Hr].
  split; try exact (kv_swap _ _ _ _ HI); try exact (kv_shm _ _ _ _ HI).
  - exact (res_frame _ _ _ _ _ _ y Hl Hy (λ j, Hn (NMutex j) ltac:(done) ltac:(done))).
  - exact (res_frame _ _ _ _ _ _ y (kv_bars _ _ _ _ HI) Hy (λ j, Hn (NBarrier j) ltac:(done) ltac:(done))).
  - split; [exact (res_frame _ _ _ _ _ _ y Hl Hy (λ j, Hn (NMutex j) ltac:(done) ltac:(done)))|].
    exact (res_frame _ _ _ _ _ _ y (ci_conds _ _ (kv_conds _ _ _ _ HI)) Hy (λ j, Hn (NCond j) ltac:(done) ltac:(done))).
  - split; [exact (res_frame _ _ _ _ _ _ y Hs Hy (λ j, Hn (NSend j) ltac:(done) ltac:(done)))|].
    exact (res_frame _ _ _ _ _ _ y Hr Hy (λ j, Hn (NRecv j) ltac:(done) ltac:(done))).
  - destruct (kv_pipes _ _ _ _ HI) as [_ Hpl Hpp]. split; [exact Hy|exact Hpl|].
    intros i p Hp. destruct (Hpp i p Hp) as [Hok HQ]. split; [done|]. by rewrite Hn.
Qed.

End Tick.

(** ** An example: the processes of the example of Sched in a whole kernel *)

Definition tick_vm : vm_state (D := Z → Z) :=
  mk_vm (mk_swap mm_init (replicate MAX_ALLOWABLE_PAGES (mk_ap 0 0 0 0 0)) (replicate swap_pages FREE) 0 0 0 (λ _, 0))
    ((λ i, mk_shm 0 (SHM_VA_BASE + Z.of_nat i * PAGE_SIZE) 0 0 0) <$> seq 0 SHM_MAX_NUM).
Definition tick_k : kstate (D := Z → Z) (C := Z → Z) :=
  mk_k ex_sched ((λ _, mk_mutex UNLOCKED UNLOCKED UNUSED 0) <$> k_locks boot_k)
    ((λ _, mk_barrier UNLOCKED UNUSED 0 0) <$> k_bars boot_k) (fresh_box <$> k_boxes boot_k) tick_vm (λ _, 0) (λ _, 0) [] (0, 0).
Definition tick_os : ex_os_t :=
  mk_os tick_k ((λ _, mk_cond UNLOCKED UNUSED) <$> o_conds boot_os) (fresh_pipe <$> o_pipes boot_os)
    (o_fs ex_os) (o_nic ex_os) (o_stream ex_os) (o_screen ex_os) (o_work ex_os) (o_plic ex_os) 0 0 100 0.

Lemma ex_idle : idle ex_queues.
Proof. apply (bool_decide_unpack _). by vm_compute. Qed.

Lemma tick_swap_inv : swap_inv (vm_sw tick_vm) None [] ∅.
Proof.
  assert (∀ i a, ¬ resident (vm_sw tick_vm) None i a) as Hno.
  { intros i a (Ha & Hv & _). apply lookup_replicate in Ha as [-> _]. done. }
  split; try (intros; exfalso; by eapply Hno).
  - exact mm_inv_init.
  - done.
  - apply length_replicate.
  - cbn [clock_head vm_sw tick_vm]. unfold MAX_ALLOWABLE_PAGES. lia.
  - by vm_compute.
  - cbn [SWAP_START_SEC vm_sw tick_vm]. unfold SECTOR_NUMS_PER_PAGE. change SWAP_MAX_PAGES with 65536. lia.
Qed.

Lemma tick_shm_inv : shm_table_inv (vm_shm tick_vm) ∅ (∅ : gmap Z label).
Proof.
  assert (∀ i e, ¬ valid_at (vm_shm tick_vm) i e) as Hno.
  { intros i e [(j & -> & _)%list_lookup_fmap_Some Hb]. done. }
  split; try (intros; exfalso; by eapply Hno).
  - reflexivity.
  - intros i e (j & -> & Hj)%list_lookup_fmap_Some. by apply lookup_seq in Hj as [-> _].
Qed.

Lemma tick_os_inv : kernel_inv tick_os ex_queues [] ∅.
Proof.
  destruct (tables_boot ex_sched ex_queues boot_os ex_sched_inv ex_idle) as (I1 & I2 & I3 & I4); [apply boot_os_loaded..|].
  split; [exact I1|exact I2|exact I3|exact I4| |exact tick_swap_inv|exact tick_shm_inv].
  eapply pipes_boot; [exact ex_sched_inv|exact ex_idle|apply boot_os_loaded|apply boot_os_loaded|done].
Qed.

